(* ===== verification/_CoqProject ===== *)
-Q . S2P
Prelude.v
Mbox.v
Heap.v
HeapFacts.v
Pbuf.v
PbufData.v
Packet.v
PbufFacts.v
PbufAlloc.v
PbufChain.v
PbufDataFacts.v
Queues.v
Waiters.v
Link.v
LinkFacts.v
Def.v
Chksum.v
Addr.v
Timeouts.v
Header.v
Frame.v
Ip4.v
Ip4Facts.v
Ip4InFacts.v
Udp.v
UdpBind.v
UdpInput.v
UdpOutput.v
Icmp.v
IcmpFacts.v
UdpConn.v
UdpConnFacts.v
Netif.v
World.v
WorldRx.v
WorldTx.v
Tcp.v
TcpOut.v
TcpSend.v
TcpIn.v
TcpTmr.v
TcpFrame.v
TcpOutFrame.v
TcpInFrame.v
TcpLists.v
TcpCalls.v
TcpOpen.v
TcpTmrFacts.v
TcpKept.v
TcpInCalls.v
TcpInput.v
TcpApi.v
TcpWire.v
TcpSegment.v
TcpOpt.v
TcpStates.v
TcpRtt.v
Netconn.v
NetconnApi.v
TcpConn.v
AppWorld.v
TcpEnv.v
NetconnCalls.v
NetconnFacts.v
TcpConnFacts.v
