(* ===== verification/Prelude.v ===== *)
(** * tun2socket-lwip: a verification library

    The program is a TUN device turned into sockets: IP packets an application
    reads from a TUN device go into a user-space TCP/IP stack (a copy of lwIP,
    [src/lwip]), and the C code of [src/native] hands the connections and
    datagrams that come out of it to Go code.  This library models [src/native]
    and the parts of lwIP it stands on as executable functions, and proves what
    they promise to each other and to the application.

    ** The machine and the configuration

    The model is of a little-endian machine with 64-bit pointers.  The
    configuration is that of [include/lwipopts.h] with the defaults
    of [include/lwip/opt.h]: one interface, IPv4 only, no ARP, no fragments, no
    IP options on output, [MEM_LIBC_MALLOC] and [MEMP_MEM_MALLOC], received TCP
    checksums not verified, assertions on ([LWIP_ASSERT] and [LWIP_ERROR] end
    the program), core locking on.  Code that is compiled out is not modelled.

    Stateful code is a function of the monad [M S] below: it returns a result
    and a new state, or an error: [Undefined] (undefined behaviour, such as an
    access outside a block or after [free]), [AssertFailed] or [OutOfFuel].  A
    component's state is a record, and [Part P S] says that the state [P] is a
    part of [S], so that a component runs inside the states of its clients
    ([lift]).  [runs m s Q] says that [m] ends without error from [s], in a
    result and a state with [Q]; [calls m s k Q] that [m] comes down to running
    [k] from a state with [Q], which is how a function is specified that ends by
    calling into a component whose behaviour is an interface.  Machine integers
    are [Z] with the wraps ([u8], [u16], [u32], [u64], [s32]) where the code
    converts.  A pointer into the heap is a block and an offset ([ptr]).

    ** The files

    - [Mbox]: the mailboxes of [ports/unix/sys_arch.c], sequentially and with
      any number of threads interleaved at each semaphore operation.
    - [Heap], [HeapFacts]: memory ([core/mem.c], [core/memp.c]), and the posting
      of callbacks to [tcpip_thread] ([tcpip_try_callback] of [api/tcpip.c]).
      [mallocs] is the C library's answers to the coming allocations, any of
      which can be null; the theorems hold for all of them.
    - [Pbuf], [PbufData]: [core/pbuf.c].  [Packet] defines well-formed chains,
      [packet s p cs], where the cells [cs] carry the bytes; [PbufFacts],
      [PbufAlloc], [PbufChain] and [PbufDataFacts] specify the functions by them.
    - [Queues]: [native/queues.c], the ring of 256 packets, refined to a FIFO.
    - [Link], [LinkFacts], [Waiters]: [native/link.c] and [native/interface.c].
      A function is the sequence of its sections under a mutex and the code
      between them; [tx_step] and [rx_step] interleave these.
    - [Def], [Chksum], [Addr], [Timeouts]: [core/def.c], [core/inet_chksum.c],
      [core/ipv4/ip4_addr.c], [core/timeouts.c].
    - [Header], [Ip4], [Ip4Facts], [Ip4InFacts]: protocol headers in packets, and
      [core/ipv4/ip4.c].  The driver below and the protocols above are the
      classes [netif_driver] and [ip_upper].
    - [Udp], [UdpBind], [UdpInput], [UdpOutput]: [core/udp.c].  The receive
      callbacks and ICMP are the class [udp_env].
    - [Icmp], [IcmpFacts]: [core/ipv4/icmp.c].
    - [UdpConn], [UdpConnFacts]: [native/udp.c].
    - [Netif]: [core/netif.c] and [global_interface_init].
    - [World]: all these states in one, with the instances of the classes, and
      the thread that handles the posted messages ([api/tcpip.c]); [WorldRx] and
      [WorldTx]: datagrams from one end to the other.
    - [Tcp], [TcpTmr]: [core/tcp.c]: the control blocks of TCP on their four lists,
      opening, closing and aborting connections, the receive window, the timers.
      What is sent is the class [tcp_out], the callbacks the class [tcp_client].
    - [TcpOut], [TcpSend]: [core/tcp_out.c]: queueing data and flags, building and
      sending segments, acknowledgements and resets, retransmission; its instance
      [tcp_out_lwip] of the class [tcp_out].  [TcpWire]: headers, options and
      checksums of control segments on the wire; [TcpSegment]: those of queued
      segments.
    - [TcpIn]: [core/tcp_in.c]: from the header of a segment over the connection it
      belongs to and the state machine to what the application is told.  The
      static variables of the file are the record [in_vars].  [TcpOpt]: the options of
      a segment.
    - [Frame]: what operations leave alone, and the tactic that finds it;
      [TcpFrame], [TcpOutFrame], [TcpInFrame]: that most of TCP leaves the lists
      and states of blocks alone.  [TcpLists], [TcpCalls], [TcpOpen],
      [TcpTmrFacts], [TcpKept], [TcpInCalls], [TcpInput], [TcpApi]: the invariant
      of the lists through every call and every segment, and the end of the
      timers' loops.
      [TcpStates]: the state machine and the resets; [TcpRtt]: the estimate of the
      round-trip time.
    - [Netconn]: [api/api_msg.c] for netconns of TCP, the half of the netconn API
      that runs in the stack, with the callbacks of TCP as the instance
      [netconn_client] of the class [tcp_client].  [NetconnApi]: [api/api_lib.c] and
      [api/netbuf.c], the half that runs in the threads of the application: a call
      is a program of atomic sections ([thread]), some of which wait.  [TcpConn]:
      [native/tcp.c] on top of it.  [NetconnFacts], [TcpConnFacts] are about
      these; [AppWorld] is a concrete state for their examples.

    ** What is shown

    - End to end: a UDP packet the link injects is what the application receives,
      and a datagram the application sends is what the link delivers, as one
      IPv4 packet with both checksums right; with the exact exceptions when
      memory runs out.
    - Concurrency: mailboxes are FIFOs that lose no message and no wake-up under
      any interleaving; readers of the packet queues lose no wake-up; whenever a
      link or its poll is marked as polling a callback is on its way, and the
      exact way in which more than one batch of packets is left stranded.
    - Protocols: which packets IPv4 and UDP accept, which block a datagram goes
      to, what output puts on the wire; that bindings stay exclusive under any
      sequence of calls; the search for ports ends.
    - Data: packets as byte sequences under every operation of [core/pbuf.c],
      nothing leaked when allocation fails; checksums against RFC 1071; addresses
      print and parse back; timers run when due, in order, across clock wraps.
    - TCP: the lists of blocks stay well formed under every history of calls,
      received segments, timers and callbacks, and the timers' loops, which start
      again when a callback changes the list, end.  Segments, acknowledgements and
      resets go to the driver as valid IPv4 packets around the header, options and
      data the connection determines, with checksums that verify.  The parser of
      options, whatever bytes it is given, agrees with a parser of lists, and reads
      back what a SYN carries.
      A segment moves an established or closing connection along the arrows of RFC
      793, and a RST is believed only at exactly the next sequence number (RFC
      5961).  The round-trip estimate does not overflow.
    - Connections of the application: reads in pieces return each byte of a packet
      once and in order and free it at its end; a thread that sleeps in a write is
      woken when the connection dies, and its call fails; a full mailbox of accepted
      connections ends the process.

    ** Bounds and fuel

    Loops over pbuf chains take [chain_fuel], one more than the number of pbufs;
    a well-formed chain visits each at most once, and the specifications show
    that the fuel is not exhausted.  [pool_fuel] bounds the allocation loop by the
    length; [new_port_loop] is bounded by the size of the port range, as in the
    code.  The turns of the TCP timers are an argument, and [tcp_timers_end] shows
    that some number is enough.  [DRAIN_FUEL] is one more than a mailbox holds,
    [write_fuel] one more than the bytes and vectors that are left to write, of
    which each turn takes one, but for empty pieces: several vectors, the first
    with a multiple of 65536 bytes left, and no space, where the loop of the code
    does not end either.  The program writes one vector.  What a function does is stated by [runs], which
    includes termination; the invariants of histories of calls are about the calls
    that return ([yields]: a call that stops the program leaves no state).

    ** Not modelled

    Of the netconn API ([src/lwip/api]): netconns of UDP and of raw IP, which the
    program does not make, groups, names, and the event callback, which is null.
    [netconn_client] is an instance of the operations of [tcp_client] only: that
    the netconns keep the laws that the invariant of the lists of TCP asks of a
    client ([tcp_client_keeps], [tcp_client_turns], [tcp_client_kept] and
    [tcp_client_input]) is not proved, and would need an invariant of the netconns
    (a close whose polls are used up aborts the connection inside [sent_tcp]).  In
    [World], which is about UDP, the input of TCP and its reactions to address
    changes are variables.  What is left is starting the threads ([native/init.c],
    [tcpip_init]); threads, mutexes and clocks of the operating system, and the
    waits with a timeout.  The configuration compiles out IPv6, ARP, DHCP, IGMP,
    DNS, fragmentation, the heap of [core/mem.c], the static pools, PPP, sockets
    and the drivers under [netif/].  The Go code calls the functions modelled here. *)

From stdpp Require Export base tactics option list gmap.
From Stdlib Require Export ZArith Lia.

#[global] Open Scope Z_scope.

(** ** Functional record update

    [r <| f := v |>] is [r] with field [f] replaced.  A record opts in by an
    [Eta] instance listing its projections; [simpl] then computes every
    projection of an update and leaves the updates themselves folded. *)

Class Eta (R : Type) := eta : R → R.

Class Setter {R E : Type} (g : R → E) := setter : (E → E) → R → R.

Arguments setter {R E} g {_} f r.

Ltac derive_setter R g :=
  let e := constr:(_ : Eta R) in
  let e := eval hnf in e in
  exact (fun f r => ltac:(
    let b := eval cbv beta in (e r) in
    match b with
    | context C [g r] => let b' := context C [f (g r)] in exact b'
    end)).

#[export] Hint Extern 1 (@Setter ?R _ ?g) => derive_setter R g : typeclass_instances.

Declare Scope record_scope.
Notation "r <| g := v |>" := (setter g (fun _ => v) r)
  (at level 8, left associativity, g constr at level 1, v constr at level 99,
   format "r <| g  :=  v |>") : record_scope.
#[global] Open Scope record_scope.

(** ** Outcomes

    A call of the program either returns or stops.  [AssertFailed] is
    [LWIP_ASSERT] or [LWIP_ERROR] with a false condition: the build does not
    define [LWIP_NOASSERT], so both end in [abort()].  [Undefined] is an access
    C leaves undefined (null or dangling pointer, out of bounds).  [OutOfFuel]
    is the model's own: a loop ran longer than its fuel. *)

Inductive fault := AssertFailed | Undefined | OutOfFuel.

Inductive res (A : Type) := Val (a : A) | Err (e : fault).
Arguments Val {A} a.
Arguments Err {A} e.

#[export] Instance fault_eq_dec : EqDecision fault.
Proof. solve_decision. Defined.

(** Sequencing of outcomes: [let*] and [do*]. *)
Definition rbind {A B} (m : res A) (f : A → res B) : res B :=
  match m with Val a => f a | Err e => Err e end.

Declare Scope seq_scope.
Notation "'let*' x := m 'in' k" := (rbind m (fun x => k))
  (at level 10, x name, m at level 100, k at level 200) : seq_scope.
Notation "'let*' ' p := m 'in' k" := (rbind m (fun '(p) => k))
  (at level 10, p pattern, m at level 100, k at level 200) : seq_scope.
Notation "'do*' m ; k" := (rbind m (fun _ => k))
  (at level 10, m at level 100, k at level 200) : seq_scope.
#[global] Open Scope seq_scope.

(** State-passing computations over a store [S]. *)
Definition M (S A : Type) : Type := S → res (A * S).

Definition ret {S A} (a : A) : M S A := λ s, Val (a, s).
Definition mbnd {S A B} (m : M S A) (f : A → M S B) : M S B := λ s,
  match m s with Val (a, s') => f a s' | Err e => Err e end.

(** Sequencing of state-passing computations: [let!] and [do!]. *)
Notation "'let!' x := m 'in' k" := (mbnd m (fun x => k))
  (at level 10, x name, m at level 100, k at level 200) : seq_scope.
Notation "'let!' ' p := m 'in' k" := (mbnd m (fun '(p) => k))
  (at level 10, p pattern, m at level 100, k at level 200) : seq_scope.
Notation "'do!' m ; k" := (mbnd m (fun _ => k))
  (at level 10, m at level 100, k at level 200) : seq_scope.

Definition fail {S A} (e : fault) : M S A := λ _, Err e.
Definition ask {S A} (f : S → res A) : M S A := λ s, let* a := f s in Val (a, s).
Definition gets {S A} (f : S → A) : M S A := λ s, Val (f s, s).
Definition modify {S} (f : S → S) : M S unit := λ s, Val (tt, f s).

Definition res_assert (b : bool) : res unit := if b then Val tt else Err AssertFailed.
Definition lwip_assert {S} (b : bool) : M S unit := λ s, if b then Val (tt, s) else Err AssertFailed.
(** [LWIP_ERROR(msg, cond, handler)]: in this build the handler is never reached. *)
Definition lwip_error {S} (b : bool) : M S unit := lwip_assert b.

(** [LWIP_ERROR("… invalid pcb", pcb != NULL, …)] *)
Definition valid_ptr {S A} (p : option A) : M S A :=
  match p with None => fail AssertFailed | Some l => ret l end.

(** Reading through a pointer that may be invalid. *)
Definition deref {A} (o : option A) : res A :=
  match o with Some a => Val a | None => Err Undefined end.

(** Embedding a component's store in the state of a larger one. *)
Class Part (P S : Type) := {
  part_get : S → P;
  part_set : P → S → S;
  part_get_set p s : part_get (part_set p s) = p;
  part_set_get s : part_set (part_get s) s = s;
  part_set_set p q s : part_set p (part_set q s) = part_set p s
}.

Definition lift {P S} `{Part P S} {A} (m : M P A) : M S A := λ s,
  match m (part_get s) with Val (a, p) => Val (a, part_set p s) | Err e => Err e end.

(** [runs m s Q]: from [s], [m] returns, and [Q] holds of what it returns. *)
Definition runs {S A} (m : M S A) (s : S) (Q : A → S → Prop) : Prop :=
  match m s with Val (a, s') => Q a s' | Err _ => False end.

Section runs.
Context {S : Type}.

Lemma runs_ret {A} (a : A) (s : S) (Q : A → S → Prop) : Q a s → runs (ret a) s Q.
Proof. done. Qed.

Lemma runs_bind {A B} (m : M S A) (f : A → M S B) s (Q : B → S → Prop) :
  runs m s (λ a s', runs (f a) s' Q) → runs (mbnd m f) s Q.
Proof. unfold runs, mbnd. by destruct (m s) as [[a s']|]. Qed.

Lemma runs_mono {A} (m : M S A) s (Q Q' : A → S → Prop) :
  runs m s Q → (∀ a s', Q a s' → Q' a s') → runs m s Q'.
Proof. unfold runs. destruct (m s) as [[a s']|]; eauto. Qed.

Lemma runs_eq {A} (m : M S A) s a s' Q : m s = Val (a, s') → Q a s' → runs m s Q.
Proof. unfold runs. by intros ->. Qed.

Lemma runs_inv {A} (m : M S A) s Q :
  runs m s Q → ∃ a s', m s = Val (a, s') ∧ Q a s'.
Proof. unfold runs. destruct (m s) as [[a s']|]; naive_solver. Qed.

Lemma runs_assert (b : bool) s (Q : unit → S → Prop) :
  b = true → Q tt s → runs (lwip_assert b) s Q.
Proof. unfold runs, lwip_assert. by intros ->. Qed.

Lemma runs_ask {A} (f : S → res A) s a (Q : A → S → Prop) :
  f s = Val a → Q a s → runs (ask f) s Q.
Proof. unfold runs, ask, rbind. by intros ->. Qed.

Lemma runs_gets {A} (f : S → A) s (Q : A → S → Prop) : Q (f s) s → runs (gets f) s Q.
Proof. done. Qed.

Lemma runs_modify f s (Q : unit → S → Prop) : Q tt (f s) → runs (modify f) s Q.
Proof. done. Qed.
End runs.

(** [yields m s Q]: if [m] returns from [s], [Q] holds of what it returns. *)
Definition yields {S A} (m : M S A) (s : S) (Q : A → S → Prop) : Prop :=
  match m s with Val (a, s') => Q a s' | Err _ => True end.

Section yields.
Context {S : Type}.

Lemma yields_ret {A} (a : A) (s : S) (Q : A → S → Prop) : Q a s → yields (ret a) s Q.
Proof. done. Qed.
Lemma yields_bind {A B} (m : M S A) (f : A → M S B) s (Q : B → S → Prop) :
  yields m s (λ a s', yields (f a) s' Q) → yields (mbnd m f) s Q.
Proof. unfold yields, mbnd. by destruct (m s) as [[a s']|]. Qed.
Lemma yields_mono {A} (m : M S A) s (Q Q' : A → S → Prop) :
  yields m s Q → (∀ a s', Q a s' → Q' a s') → yields m s Q'.
Proof. unfold yields. destruct (m s) as [[a s']|]; eauto. Qed.
Lemma yields_ask {A} (f : S → res A) s (Q : A → S → Prop) : (∀ a, f s = Val a → Q a s) → yields (ask f) s Q.
Proof. unfold yields, ask, rbind. destruct (f s); eauto. Qed.
Lemma yields_gets {A} (f : S → A) s (Q : A → S → Prop) : Q (f s) s → yields (gets f) s Q.
Proof. done. Qed.
Lemma yields_modify f s (Q : unit → S → Prop) : Q tt (f s) → yields (modify f) s Q.
Proof. done. Qed.
Lemma yields_then {A B} (m : M S A) (f : A → M S B) s (P : A → S → Prop) (Q : B → S → Prop) :
  yields m s P → (∀ a s', P a s' → yields (f a) s' Q) → yields (mbnd m f) s Q.
Proof. intros Hm Hf. apply yields_bind. by eapply yields_mono. Qed.
Lemma yields_bind_assoc {A B C} (m : M S A) (f : A → M S B) (g : B → M S C) s Q :
  yields (let! a := m in let! b := f a in g b) s Q → yields (let! b := (let! a := m in f a) in g b) s Q.
Proof. unfold yields, mbnd. by destruct (m s) as [[a s1]|]. Qed.
Lemma yields_bind_assoc' {A B} (m : M S unit) (f : M S A) (g : A → M S B) s Q :
  yields (let! a := (do! m; f) in g a) s Q → yields (do! m; let! a := f in g a) s Q.
Proof. unfold yields, mbnd. by destruct (m s) as [[[] s1]|]. Qed.
Lemma yields_valid_ptr {A} (p : option A) s (Q : A → S → Prop) :
  (∀ l, p = Some l → Q l s) → yields (valid_ptr p) s Q.
Proof. destruct p; [by intros H; apply H|done]. Qed.
Lemma yields_assert (b : bool) s (Q : unit → S → Prop) : (b = true → Q tt s) → yields (lwip_assert b) s Q.
Proof. unfold yields, lwip_assert. destruct b; auto. Qed.
Lemma yields_discard {A} (m : M S A) s (I : S → Prop) :
  yields m s (λ _, I) → yields (let! _ := m in ret tt) s (λ _, I).
Proof. intros H. apply yields_bind. eapply yields_mono; [exact H|]. intros a s' Hs. by apply yields_ret. Qed.
Lemma runs_yields {A} (m : M S A) s (Q : A → S → Prop) : runs m s Q → yields m s Q.
Proof. unfold runs, yields. by destruct (m s) as [[a s']|]. Qed.
End yields.

(** It returns, and then with [Q], or stops on an assertion; it does nothing worse. *)
Definition stops {S A} (m : M S A) (s : S) (Q : A → S → Prop) : Prop :=
  match m s with Val (a, s') => Q a s' | Err e => e = AssertFailed end.

Section stops.
Context {S : Type}.

Lemma stops_ret {A} (a : A) (s : S) (Q : A → S → Prop) : Q a s → stops (ret a) s Q.
Proof. done. Qed.
Lemma stops_bind {A B} (m : M S A) (f : A → M S B) s (Q : B → S → Prop) :
  stops m s (λ a s', stops (f a) s' Q) → stops (mbnd m f) s Q.
Proof. unfold stops, mbnd. by destruct (m s) as [[a s']|]. Qed.
Lemma stops_mono {A} (m : M S A) s (Q Q' : A → S → Prop) :
  stops m s Q → (∀ a s', Q a s' → Q' a s') → stops m s Q'.
Proof. unfold stops. destruct (m s) as [[a s']|]; auto. Qed.
Lemma stops_assert (b : bool) (s : S) (Q : unit → S → Prop) : (b = true → Q tt s) → stops (lwip_assert b) s Q.
Proof. unfold stops, lwip_assert. destruct b; auto. Qed.
Lemma stops_assert_bind {A} (b : bool) (f : unit → M S A) (s : S) (Q : A → S → Prop) :
  (b = true → stops (f tt) s Q) → stops (mbnd (lwip_assert b) f) s Q.
Proof. intros H. by apply stops_bind, stops_assert. Qed.
Lemma runs_stops {A} (m : M S A) s (Q : A → S → Prop) : runs m s Q → stops m s Q.
Proof. unfold runs, stops. by destruct (m s) as [[a s']|]. Qed.
Lemma stops_never {A} (m : M S A) s : stops m s (λ _ _, False) → m s = Err AssertFailed.
Proof. unfold stops. destruct (m s) as [[a s']|e]; [done|]. by intros ->. Qed.
End stops.

Lemma yields_lift {P S} `{HP : Part P S} {A} (m : M P A) (s : S) (Q : A → S → Prop) :
  yields m (part_get s) (λ a p, Q a (part_set p s)) → yields (lift m) s Q.
Proof. unfold yields, lift. by destruct (m (part_get s)) as [[a p]|]. Qed.

Lemma yields_part {P S} `{HP : Part P S} {A} (m : M P A) (s : S) (Q : A → P → Prop) :
  yields m (part_get s) Q → yields (lift m) s (λ a s', Q a (part_get s')).
Proof. intros H. apply yields_lift. eapply yields_mono; [exact H|]. intros a p Hp. by rewrite part_get_set. Qed.

Lemma yields_ask_lift {P S} `{HP : Part P S} {A} (f : P → res A) (s : S) (Q : A → S → Prop) :
  (∀ a, f (part_get s) = Val a → Q a s) → yields (lift (ask f)) s Q.
Proof. intros H. apply yields_lift, yields_ask. intros a Ha. rewrite part_set_get. by apply H. Qed.
Lemma yields_gets_lift {P S} `{HP : Part P S} {A} (f : P → A) (s : S) (Q : A → S → Prop) :
  Q (f (part_get s)) s → yields (lift (gets f)) s Q.
Proof. intros H. apply yields_lift, yields_gets. by rewrite part_set_get. Qed.

Lemma runs_lift {P S} `{HP : Part P S} {A} (m : M P A) (s : S) (Q : A → S → Prop) :
  runs m (part_get s) (λ a p, Q a (part_set p s)) → runs (lift m) s Q.
Proof. unfold runs, lift. by destruct (m (part_get s)) as [[a p]|]. Qed.

Lemma runs_part {P S} `{HP : Part P S} {A} (m : M P A) (p : P) (s : S) (Q : A → S → Prop) :
  runs m p (λ a p', Q a (part_set p' s)) → runs (lift m) (part_set p s) Q.
Proof.
  intros H. apply runs_lift. rewrite part_get_set. eapply runs_mono; [exact H|].
  intros a p' HQ. by rewrite part_set_set.
Qed.

(** Two parts of a whole that do not overlap. *)
Class Apart (P Q S : Type) `{!Part P S} `{!Part Q S} : Prop :=
  apart (q : Q) (s : S) : part_get (P := P) (part_set q s) = part_get s.

(** The whole as a part of itself. *)
Definition part_self (S : Type) : Part S S.
Proof. by refine {| part_get s := s; part_set p _ := p |}. Defined.

(** The part of a part. *)
#[program] Definition part_trans (P Q S : Type) `{!Part P Q} `{!Part Q S} : Part P S := {|
  part_get s := part_get (part_get s);
  part_set p s := part_set (part_set p (part_get s)) s
|}.
Next Obligation. intros. simpl. by rewrite !part_get_set. Qed.
Next Obligation. intros. simpl. by rewrite !part_set_get. Qed.
Next Obligation. intros. simpl. by rewrite part_get_set, !part_set_set. Qed.

(** [calls m s k Q]: from [s], [m] comes to do what [k] does from a state of which
    [Q] holds.  It specifies code that ends in a call it knows nothing about. *)
Definition calls {S A} (m : M S A) (s : S) (k : M S A) (Q : S → Prop) : Prop :=
  ∃ s', m s = k s' ∧ Q s'.

Lemma calls_here {S A} (k : M S A) s (Q : S → Prop) : Q s → calls k s k Q.
Proof. by exists s. Qed.
Lemma calls_bind {S A B} (m : M S A) (f : A → M S B) s k (Q : S → Prop) :
  runs m s (λ a s', calls (f a) s' k Q) → calls (mbnd m f) s k Q.
Proof.
  unfold runs, mbnd, calls. by destruct (m s) as [[a s']|].
Qed.
Lemma calls_mono {S A} (m k : M S A) s (Q Q' : S → Prop) :
  calls m s k Q → (∀ s', Q s' → Q' s') → calls m s k Q'.
Proof. intros (s' & ? & ?) ?. exists s'. auto. Qed.

Lemma calls_seq {S A B} (m k : M S A) (g : A → M S B) s (Q : S → Prop) :
  calls m s k Q → calls (mbnd m g) s (mbnd k g) Q.
Proof. intros (s' & Hm & HQ). exists s'. split; [|done]. unfold mbnd. by rewrite Hm. Qed.
Lemma calls_same {S A} (m k k' : M S A) s (Q : S → Prop) :
  calls m s k Q → (∀ s', k s' = k' s') → calls m s k' Q.
Proof. intros (s' & Hm & HQ) Hk. exists s'. by rewrite <- Hk. Qed.
Lemma calls_runs {S A} (m k : M S A) s (Q : S → Prop) (R : A → S → Prop) :
  calls m s k Q → (∀ s', Q s' → runs k s' R) → runs m s R.
Proof. intros (s' & Hm & HQ) Hk. unfold runs. rewrite Hm. by apply Hk. Qed.
Lemma bind_val {A B} (a : A) (f : A → res B) : rbind (Val a) f = f a.
Proof. done. Qed.

(** ** Machine integers *)

Definition u8 (z : Z) : Z := z mod 2 ^ 8.
Definition u16 (z : Z) : Z := z mod 2 ^ 16.
Definition u32 (z : Z) : Z := z mod 2 ^ 32.
Definition u64 (z : Z) : Z := z mod 2 ^ 64.

(** The two's complement reading of the low [w] bits. *)
Definition signed (w z : Z) : Z :=
  let m := z mod 2 ^ w in if m <? 2 ^ (w - 1) then m else m - 2 ^ w.
Definition s8 (z : Z) : Z := signed 8 z.
Definition s16 (z : Z) : Z := signed 16 z.
Definition s32 (z : Z) : Z := signed 32 z.

Definition is_u8 (z : Z) : Prop := 0 ≤ z < 2 ^ 8.
Definition is_u16 (z : Z) : Prop := 0 ≤ z < 2 ^ 16.
Definition is_u32 (z : Z) : Prop := 0 ≤ z < 2 ^ 32.

Lemma u8_small z : 0 ≤ z < 2 ^ 8 → u8 z = z.
Proof. apply Z.mod_small. Qed.
Lemma u16_small z : 0 ≤ z < 2 ^ 16 → u16 z = z.
Proof. apply Z.mod_small. Qed.
Lemma u32_small z : 0 ≤ z < 2 ^ 32 → u32 z = z.
Proof. apply Z.mod_small. Qed.
Lemma u64_small z : 0 ≤ z < 2 ^ 64 → u64 z = z.
Proof. apply Z.mod_small. Qed.

Lemma u8_range z : is_u8 (u8 z).
Proof. by apply Z.mod_pos_bound. Qed.
Lemma u16_range z : is_u16 (u16 z).
Proof. by apply Z.mod_pos_bound. Qed.
Lemma u32_range z : is_u32 (u32 z).
Proof. by apply Z.mod_pos_bound. Qed.

(** *** Bit fields as arithmetic *)

Lemma land_low n x : 0 ≤ n → Z.land x (Z.ones n) = x mod 2 ^ n.
Proof. apply Z.land_ones. Qed.

Lemma land_field n k x :
  0 ≤ n → 0 ≤ k → Z.land x (Z.shiftl (Z.ones k) n) = (x / 2 ^ n) mod 2 ^ k * 2 ^ n.
Proof.
  intros Hn Hk. rewrite <- Z.shiftr_div_pow2, <- Z.land_ones, <- Z.shiftl_mul_pow2 by done.
  apply Z.bits_inj'. intros i Hi. rewrite Z.land_spec, !Z.shiftl_spec by done.
  destruct (decide (i < n)).
  - rewrite !(Z.testbit_neg_r _ (i - n)) by lia. apply andb_false_r.
  - rewrite Z.land_spec, Z.shiftr_spec by lia. by replace (i - n + n) with i by lia.
Qed.

Lemma lor_add n x y : 0 ≤ n → 0 ≤ y < 2 ^ n → Z.lor (x * 2 ^ n) y = x * 2 ^ n + y.
Proof.
  intros Hn Hy. rewrite <- Z.add_lor_land.
  assert (Z.land (x * 2 ^ n) y = 0) as ->; [|lia].
  rewrite <- Z.shiftl_mul_pow2 by done. apply Z.bits_inj'. intros i Hi.
  rewrite Z.land_spec, Z.bits_0, Z.shiftl_spec by done. destruct (decide (i < n)).
  - by rewrite Z.testbit_neg_r by lia.
  - destruct (decide (y = 0)) as [->|]; [by rewrite Z.bits_0, andb_false_r|].
    rewrite (Z.bits_above_log2 y), andb_false_r; [done|lia|].
    apply Z.log2_lt_pow2; [lia|]. apply Z.lt_le_trans with (2 ^ n); [lia|]. apply Z.pow_le_mono_r; lia.
Qed.

Create HintDb lwip.
Create Rewrite HintDb lwip.
#[export] Hint Resolve u8_range u16_range u32_range : lwip.
#[export] Hint Rewrite u8_small u16_small u32_small u64_small using lia : lwip.

(** Constants of the integer bounds, as numerals for [lia]. *)
Ltac bounds := unfold is_u8, is_u16, is_u32 in *;
  change (2 ^ 8) with 256 in *; change (2 ^ 16) with 65536 in *;
  change (2 ^ 31) with 2147483648 in *;
  change (2 ^ 32) with 4294967296 in *;
  change (2 ^ 64) with 18446744073709551616 in *.

(** Arithmetic with the wrap-arounds opened. *)
Ltac wrap_lia := unfold u8, u16, u32, u64 in *; bounds; Z.div_mod_to_equations; lia.

(** Replace a wrap-around by its argument where the bounds allow it. *)
Ltac unwrap := repeat first
  [ rewrite u8_small by (bounds; lia) | rewrite u16_small by (bounds; lia)
  | rewrite u32_small by (bounds; lia) | rewrite u64_small by (bounds; lia) ].

(** Turn boolean tests in the context and the goal into propositions. *)
Ltac bool_prop :=
  repeat match goal with
  | H : (_ && _)%bool = true |- _ => apply andb_prop in H as [? ?]
  | H : (_ || _)%bool = false |- _ => apply orb_false_elim in H as [? ?]
  | H : negb _ = true |- _ => apply negb_true_iff in H
  | H : negb _ = false |- _ => apply negb_false_iff in H
  | H : (_ =? _) = true |- _ => apply Z.eqb_eq in H
  | H : (_ =? _) = false |- _ => apply Z.eqb_neq in H
  | H : (_ <? _) = true |- _ => apply Z.ltb_lt in H
  | H : (_ <? _) = false |- _ => apply Z.ltb_ge in H
  | H : (_ <=? _) = true |- _ => apply Z.leb_le in H
  | H : (_ <=? _) = false |- _ => apply Z.leb_gt in H
  end.

(** Case analysis on every boolean test the goal branches on. *)
Ltac split_ifs := repeat (case_match; bool_prop).

(** ** Lists indexed by integers *)

Section zlist.
Context {A : Type}.
Implicit Types l d : list A.

Definition zlen l : Z := Z.of_nat (length l).
Definition ztake (n : Z) l : list A := take (Z.to_nat n) l.
Definition zdrop (n : Z) l : list A := drop (Z.to_nat n) l.
Definition zslice (off n : Z) l : list A := ztake n (zdrop off l).
(** [l] with the elements from [off] on overwritten by [d]. *)
Definition zsplice (off : Z) d l : list A := ztake off l ++ d ++ zdrop (off + zlen d) l.
Definition zget (l : list A) (i : Z) : option A :=
  if i <? 0 then None else l !! Z.to_nat i.

Lemma zlen_nonneg l : 0 ≤ zlen l.
Proof. unfold zlen. lia. Qed.
Lemma zlen_nil : zlen [] = 0.
Proof. done. Qed.
Lemma zlen_cons a l : zlen (a :: l) = 1 + zlen l.
Proof. unfold zlen. simpl. lia. Qed.
Lemma zlen_app l1 l2 : zlen (l1 ++ l2) = zlen l1 + zlen l2.
Proof. unfold zlen. rewrite length_app. lia. Qed.
Lemma zlen_ztake n l : 0 ≤ n ≤ zlen l → zlen (ztake n l) = n.
Proof. unfold zlen, ztake. rewrite length_take. lia. Qed.
Lemma zlen_zdrop n l : 0 ≤ n ≤ zlen l → zlen (zdrop n l) = zlen l - n.
Proof. unfold zlen, zdrop. rewrite length_drop. lia. Qed.
Lemma zlen_zslice off n l : 0 ≤ off → 0 ≤ n → off + n ≤ zlen l → zlen (zslice off n l) = n.
Proof. intros. unfold zslice. rewrite zlen_ztake; [done|]. rewrite zlen_zdrop; lia. Qed.
Lemma zlen_zsplice off d l :
  0 ≤ off → off + zlen d ≤ zlen l → zlen (zsplice off d l) = zlen l.
Proof.
  intros. pose proof (zlen_nonneg d). unfold zsplice.
  rewrite !zlen_app, zlen_ztake, zlen_zdrop; lia.
Qed.
Lemma zlen_0_nil l : zlen l = 0 → l = [].
Proof. unfold zlen. destruct l; simpl; [done|lia]. Qed.

Lemma ztake_0 l : ztake 0 l = [].
Proof. done. Qed.
Lemma zdrop_0 l : zdrop 0 l = l.
Proof. done. Qed.
Lemma ztake_nil n : ztake n ([] : list A) = [].
Proof. apply take_nil. Qed.
Lemma zdrop_nil n : zdrop n ([] : list A) = [].
Proof. apply drop_nil. Qed.
Lemma ztake_ge n l : zlen l ≤ n → ztake n l = l.
Proof. unfold zlen, ztake. intros. apply take_ge. lia. Qed.
Lemma zdrop_ge n l : zlen l ≤ n → zdrop n l = [].
Proof. unfold zlen, zdrop. intros. apply drop_ge. lia. Qed.
Lemma ztake_app_ge n l1 l2 :
  zlen l1 ≤ n → ztake n (l1 ++ l2) = l1 ++ ztake (n - zlen l1) l2.
Proof.
  unfold zlen, ztake. intros. rewrite take_app_ge by lia. do 2 f_equal. lia.
Qed.
Lemma ztake_app_le n l1 l2 : n ≤ zlen l1 → ztake n (l1 ++ l2) = ztake n l1.
Proof. unfold zlen, ztake. intros. apply take_app_le. lia. Qed.
Lemma zdrop_app_ge n l1 l2 :
  zlen l1 ≤ n → zdrop n (l1 ++ l2) = zdrop (n - zlen l1) l2.
Proof. unfold zlen, zdrop. intros. rewrite drop_app_ge by lia. f_equal. lia. Qed.
Lemma zdrop_app_le n l1 l2 : n ≤ zlen l1 → zdrop n (l1 ++ l2) = zdrop n l1 ++ l2.
Proof. unfold zlen, zdrop. intros. apply drop_app_le. lia. Qed.
Lemma ztake_zdrop n l : ztake n l ++ zdrop n l = l.
Proof. apply take_drop. Qed.
Lemma zdrop_zdrop a b l : 0 ≤ a → 0 ≤ b → zdrop a (zdrop b l) = zdrop (a + b) l.
Proof. intros. unfold zdrop. rewrite drop_drop. f_equal. lia. Qed.
Lemma ztake_ztake a b l : a ≤ b → ztake a (ztake b l) = ztake a l.
Proof. intros. unfold ztake. rewrite take_take. f_equal. lia. Qed.
Lemma ztake_app_exact l1 l2 : ztake (zlen l1) (l1 ++ l2) = l1.
Proof. rewrite ztake_app_ge, Z.sub_diag, ztake_0, app_nil_r; [done|lia]. Qed.
Lemma zdrop_app_exact l1 l2 : zdrop (zlen l1) (l1 ++ l2) = l2.
Proof. rewrite zdrop_app_ge, Z.sub_diag; [done|lia]. Qed.
Lemma ztake_add a b l : 0 ≤ a → 0 ≤ b → ztake (a + b) l = ztake a l ++ ztake b (zdrop a l).
Proof.
  intros. unfold ztake, zdrop. rewrite Z2Nat.inj_add by lia.
  by rewrite take_take_drop.
Qed.
Lemma zlen_ztake_min n l : 0 ≤ n → zlen (ztake n l) = Z.min n (zlen l).
Proof. intros. unfold zlen, ztake. rewrite length_take. lia. Qed.
Lemma zlen_zdrop_max n l : 0 ≤ n → zlen (zdrop n l) = Z.max 0 (zlen l - n).
Proof. intros. unfold zlen, zdrop. rewrite length_drop. lia. Qed.
Lemma zslice_all l : zslice 0 (zlen l) l = l.
Proof. unfold zslice. rewrite zdrop_0. apply ztake_ge. lia. Qed.

Lemma zslice_zslice a n b m l :
  0 ≤ a → 0 ≤ b → 0 ≤ m → b + m ≤ n → zslice b m (zslice a n l) = zslice (a + b) m l.
Proof.
  intros. unfold zslice, ztake, zdrop. rewrite skipn_firstn_comm, take_take, drop_drop.
  f_equal; [lia|f_equal; lia].
Qed.
Lemma zslice_add a n m l :
  0 ≤ a → 0 ≤ n → 0 ≤ m → zslice a (n + m) l = zslice a n l ++ zslice (a + n) m l.
Proof.
  intros. unfold zslice. rewrite ztake_add by lia. rewrite zdrop_zdrop by lia.
  do 2 f_equal. f_equal. lia.
Qed.
Lemma zdrop_zslice a n b l :
  0 ≤ a → 0 ≤ b ≤ n → zdrop b (zslice a n l) = zslice (a + b) (n - b) l.
Proof.
  intros. unfold zslice, ztake, zdrop. rewrite skipn_firstn_comm, drop_drop.
  f_equal; [lia|f_equal; lia].
Qed.
Lemma ztake_zslice a n b l : 0 ≤ b ≤ n → ztake b (zslice a n l) = zslice a b l.
Proof. intros. unfold zslice. apply ztake_ztake. lia. Qed.
Lemma zslice_app_l a n l1 l2 :
  0 ≤ a → 0 ≤ n → a + n ≤ zlen l1 → zslice a n (l1 ++ l2) = zslice a n l1.
Proof.
  intros. unfold zslice. rewrite zdrop_app_le by lia. apply ztake_app_le.
  rewrite zlen_zdrop; lia.
Qed.
Lemma zslice_app_r a n l1 l2 : zlen l1 ≤ a → zslice a n (l1 ++ l2) = zslice (a - zlen l1) n l2.
Proof. intros. unfold zslice. by rewrite zdrop_app_ge by lia. Qed.

Lemma zslice_zsplice off d l :
  0 ≤ off → off + zlen d ≤ zlen l → zslice off (zlen d) (zsplice off d l) = d.
Proof.
  intros. unfold zslice, zsplice. pose proof (zlen_nonneg d).
  rewrite zdrop_app_ge; rewrite zlen_ztake by lia; [|lia].
  rewrite Z.sub_diag, zdrop_0. apply ztake_app_exact.
Qed.
Lemma zdrop_zsplice off d l :
  0 ≤ off → off + zlen d ≤ zlen l → zdrop (off + zlen d) (zsplice off d l) = zdrop (off + zlen d) l.
Proof.
  intros. pose proof (zlen_nonneg d). unfold zsplice.
  rewrite zdrop_app_ge by (rewrite zlen_ztake; lia). rewrite zlen_ztake by lia.
  replace (off + zlen d - off) with (zlen d) by lia. apply zdrop_app_exact.
Qed.
(** Overwriting the start of a slice. *)
Lemma zslice_zsplice_prefix off n d l :
  0 ≤ off → zlen d ≤ n → off + n ≤ zlen l →
  zslice off n (zsplice off d l) = d ++ zdrop (zlen d) (zslice off n l).
Proof.
  intros. pose proof (zlen_nonneg d). replace n with (zlen d + (n - zlen d)) at 1 by lia.
  rewrite zslice_add by lia. rewrite zslice_zsplice by lia. f_equal.
  rewrite zdrop_zslice by lia. unfold zslice. by rewrite zdrop_zsplice by lia.
Qed.
Lemma zsplice_app_l off d l1 l2 :
  0 ≤ off → off + zlen d ≤ zlen l1 → zsplice off d (l1 ++ l2) = zsplice off d l1 ++ l2.
Proof.
  intros. pose proof (zlen_nonneg d). unfold zsplice. rewrite ztake_app_le, zdrop_app_le by lia.
  by rewrite <- !app_assoc.
Qed.
Lemma zsplice_app_r off d l1 l2 :
  zlen l1 ≤ off → zsplice off d (l1 ++ l2) = l1 ++ zsplice (off - zlen l1) d l2.
Proof.
  intros. pose proof (zlen_nonneg d). pose proof (zlen_nonneg l1). unfold zsplice.
  rewrite ztake_app_ge, zdrop_app_ge, <- app_assoc by lia. do 4 f_equal. lia.
Qed.
Lemma zsplice_nil off l : 0 ≤ off → zsplice off [] l = l.
Proof. intros. unfold zsplice. rewrite zlen_nil, Z.add_0_r. apply ztake_zdrop. Qed.
(** Two overwrites side by side are one. *)
Lemma zsplice_app off d1 d2 l :
  0 ≤ off → off + zlen d1 + zlen d2 ≤ zlen l →
  zsplice (off + zlen d1) d2 (zsplice off d1 l) = zsplice off (d1 ++ d2) l.
Proof.
  intros. pose proof (zlen_nonneg d1). pose proof (zlen_nonneg d2). unfold zsplice.
  rewrite (ztake_app_ge (off + zlen d1)) by (rewrite zlen_ztake; lia).
  rewrite (zdrop_app_ge (off + zlen d1 + zlen d2)) by (rewrite zlen_ztake; lia).
  rewrite zlen_ztake by lia.
  replace (off + zlen d1 - off) with (zlen d1) by lia. rewrite ztake_app_exact.
  rewrite zdrop_app_ge by lia. rewrite zdrop_zdrop by lia.
  replace (off + zlen d1 + zlen d2 - off - zlen d1 + (off + zlen d1)) with (off + zlen (d1 ++ d2))
    by (rewrite zlen_app; lia).
  by rewrite <- !app_assoc.
Qed.
Lemma zsplice_again off d1 d2 l :
  0 ≤ off → zlen d1 = zlen d2 → off + zlen d1 ≤ zlen l → zsplice off d2 (zsplice off d1 l) = zsplice off d2 l.
Proof.
  intros Ho Hd Hl. unfold zsplice at 1. rewrite <- Hd, zdrop_zsplice by lia.
  unfold zsplice. pose proof (zlen_nonneg d1).
  rewrite ztake_app_le by (rewrite zlen_ztake; lia). rewrite ztake_ztake by lia. by rewrite <- Hd.
Qed.
Lemma zsplice_app_back off d1 d2 l :
  0 ≤ off → off + zlen d1 + zlen d2 ≤ zlen l →
  zsplice off d1 (zsplice (off + zlen d1) d2 l) = zsplice off (d1 ++ d2) l.
Proof.
  intros H H2. pose proof (zlen_nonneg d1). pose proof (zlen_nonneg d2). unfold zsplice.
  rewrite ztake_app_le by (rewrite zlen_ztake; lia). rewrite ztake_ztake by lia. rewrite <- app_assoc.
  rewrite zdrop_app_ge by (rewrite zlen_ztake; lia). rewrite zlen_ztake by lia.
  replace (off + zlen d1 - (off + zlen d1)) with 0 by lia. rewrite zdrop_0, zlen_app.
  by replace (off + (zlen d1 + zlen d2)) with (off + zlen d1 + zlen d2) by lia.
Qed.
Lemma zsplice_0 d l : zlen d ≤ zlen l → zsplice 0 d l = d ++ zdrop (zlen d) l.
Proof. done. Qed.
End zlist.

Create Rewrite HintDb zlist.
#[export] Hint Rewrite @zlen_nil @zlen_cons @zlen_app : zlist.
#[export] Hint Rewrite @zlen_ztake @zlen_zdrop @zlen_zslice using lia : zlist.

(** Arithmetic about list lengths. *)
Ltac zlist_lia :=
  repeat match goal with
  | l : list _ |- _ => lazymatch goal with
      | _ : 0 ≤ zlen l |- _ => fail
      | _ => pose proof (zlen_nonneg l) end
  end; autorewrite with zlist in *; lia.

(** Reading and writing a buffer the caller owns. *)
Definition buf_read (b : list Z) (o n : Z) : res (list Z) :=
  if (0 <=? o) && (0 <=? n) && (o + n <=? zlen b) then Val (zslice o n b) else Err Undefined.
Definition buf_write (b : list Z) (o : Z) (bs : list Z) : res (list Z) :=
  if (0 <=? o) && (o + zlen bs <=? zlen b) then Val (zsplice o bs b) else Err Undefined.

Lemma buf_write_ok b o d :
  0 ≤ o → o + zlen d ≤ zlen b → buf_write b o d = Val (zsplice o d b).
Proof. intros. unfold buf_write. by rewrite !(proj2 (Z.leb_le _ _)) by done. Qed.
Lemma buf_read_ok b o n :
  0 ≤ o → 0 ≤ n → o + n ≤ zlen b → buf_read b o n = Val (zslice o n b).
Proof. intros. unfold buf_read. by rewrite !(proj2 (Z.leb_le _ _)) by done. Qed.

(** Counting the elements that satisfy a test. *)
Section zcount.
Context {A : Type} (f : A → bool).

Fixpoint zcount (l : list A) : Z :=
  match l with [] => 0 | x :: l => Z.b2z (f x) + zcount l end.

Lemma zcount_nonneg l : 0 ≤ zcount l.
Proof. induction l; simpl; [|destruct (f a); simpl]; lia. Qed.
Lemma zcount_app l1 l2 : zcount (l1 ++ l2) = zcount l1 + zcount l2.
Proof. induction l1; simpl; lia. Qed.
Lemma zcount_insert l i x y :
  l !! i = Some x → zcount (<[i:=y]> l) = zcount l - Z.b2z (f x) + Z.b2z (f y).
Proof.
  revert i. induction l as [|z l IH]; intros [|i] Hi; simplify_eq/=; [lia|].
  rewrite (IH i) by done. lia.
Qed.
Lemma zcount_pos l : 0 < zcount l → ∃ i x, l !! i = Some x ∧ f x = true.
Proof.
  induction l as [|z l IH]; simpl; [lia|]. destruct (f z) eqn:E; simpl; intros.
  - by exists 0%nat, z.
  - destruct IH as (i & x & ? & ?); [lia|]. by exists (S i), x.
Qed.
Lemma zcount_lookup l i x : l !! i = Some x → f x = true → 0 < zcount l.
Proof.
  intros Hi Hx. rewrite <- (list_insert_id l i x), (zcount_insert l i x x) by done.
  revert i Hi. induction l as [|z l IH]; intros [|i] Hi; simplify_eq/=.
  - rewrite Hx. simpl. pose proof (zcount_nonneg l). lia.
  - specialize (IH _ Hi). destruct (f z); simpl; lia.
Qed.
End zcount.

(** ** Machine [int] arithmetic: a signed overflow is undefined. *)
Definition INT_MAX : Z := 2 ^ 31 - 1.
Definition int_ok (z : Z) : bool := (- 2 ^ 31 <=? z) && (z <=? INT_MAX).
Definition int_val (z : Z) : res Z := if int_ok z then Val z else Err Undefined.

Lemma int_val_ok z : - 2 ^ 31 ≤ z ≤ INT_MAX → int_val z = Val z.
Proof. intros. unfold int_val, int_ok. rewrite !(proj2 (Z.leb_le _ _)) by lia. done. Qed.

(** ** Error codes *)

(** [err_enum_t] of [err.h]; [err_code] gives the constants. *)
Inductive err_t :=
  | ERR_OK | ERR_MEM | ERR_BUF | ERR_TIMEOUT | ERR_RTE | ERR_INPROGRESS | ERR_VAL
  | ERR_WOULDBLOCK | ERR_USE | ERR_ALREADY | ERR_ISCONN | ERR_CONN | ERR_IF
  | ERR_ABRT | ERR_RST | ERR_CLSD | ERR_ARG.

#[export] Instance err_t_eq_dec : EqDecision err_t.
Proof. solve_decision. Defined.

Definition err_code (e : err_t) : Z :=
  match e with
  | ERR_OK => 0 | ERR_MEM => -1 | ERR_BUF => -2 | ERR_TIMEOUT => -3 | ERR_RTE => -4
  | ERR_INPROGRESS => -5 | ERR_VAL => -6 | ERR_WOULDBLOCK => -7 | ERR_USE => -8
  | ERR_ALREADY => -9 | ERR_ISCONN => -10 | ERR_CONN => -11 | ERR_IF => -12
  | ERR_ABRT => -13 | ERR_RST => -14 | ERR_CLSD => -15 | ERR_ARG => -16
  end.

Definition is_ok (e : err_t) : bool := bool_decide (e = ERR_OK).

(** ** Reachability *)

Section star.
Context {A : Type} (R : A → A → Prop).

Inductive star : A → A → Prop :=
  | star_refl a : star a a
  | star_step a b c : star a b → R b c → star a c.

Lemma star_cons a b c : R a b → star b c → star a c.
Proof.
  intros Hab H. revert Hab. induction H as [b|b c d Hbc IH Hcd]; intros Hab.
  - eapply star_step; [apply star_refl|done].
  - eapply star_step; [by apply IH|done].
Qed.
Lemma star_trans a b c : star a b → star b c → star a c.
Proof. intros Hab. induction 1 as [|b' c' d' _ IH Hs]; [done|]. eapply star_step; [by apply IH|done]. Qed.
Lemma star_next a b b' c : R a b → b = b' → star b' c → star a c.
Proof. intros ? <-. by apply star_cons. Qed.

(** An invariant of the steps holds wherever the steps lead. *)
Lemma star_invariant (I : A → Prop) a b :
  (∀ x y, I x → R x y → I y) → I a → star a b → I b.
Proof. intros HI Ha. induction 1; eauto. Qed.
End star.

(** One step of a concrete run: [t] proves the step, the state after it is evaluated. *)
Ltac star_by t :=
  eapply star_next;
  [t
  |match goal with |- ?b = _ => let b' := eval vm_compute in b in exact (eq_refl b' <: b = b') end
  |].
