(* ===== verification/Mbox.v ===== *)
(** * Mailboxes of the unix port ([ports/unix/sys_arch.c])

    A mailbox is a ring of 128 message pointers with three binary semaphores.
    [Seq] translates the code executed while the mailbox mutex is held;
    [Conc] interleaves any number of posting threads with the one fetching
    thread, a step per semaphore operation or critical section. *)

From S2P Require Import Prelude.

(** ** Semaphores *)

(** The counter [c] of a [struct sys_sem]. *)
Definition sys_sem_signal (c : Z) : Z :=
  let c := u32 (c + 1) in if 1 <? c then 1 else c.

(** [None]: the caller blocks, [c] being 0. *)
Definition sys_arch_sem_wait (c : Z) : option Z :=
  if c <=? 0 then None else Some (c - 1).

Definition SYS_MBOX_SIZE : Z := 128.

(** [struct sys_mbox].  A slot that was never written holds [None]. *)
Record sys_mbox (A : Type) := mk_sys_mbox {
  first : Z;
  last : Z;
  msgs : list (option A);
  not_empty : Z;
  not_full : Z;
  mutex : Z;
  wait_send : Z
}.
Arguments mk_sys_mbox {A}.
Arguments first {A}. Arguments last {A}. Arguments msgs {A}. Arguments not_empty {A}.
Arguments not_full {A}. Arguments mutex {A}. Arguments wait_send {A}.

#[export] Instance eta_sys_mbox A : Eta (sys_mbox A) := λ r,
  mk_sys_mbox (first r) (last r) (msgs r) (not_empty r) (not_full r) (mutex r) (wait_send r).

Definition sys_mbox_new {A} : sys_mbox A :=
  mk_sys_mbox 0 0 (replicate (Z.to_nat SYS_MBOX_SIZE) None) 0 0 1 0.

(** The code between taking and releasing the mutex. *)
Module Seq.
Section seq.
Context {A : Type}.
Implicit Types mb : sys_mbox A.

(** [(mbox->last + 1) >= (mbox->first + SYS_MBOX_SIZE)] *)
Definition mbox_full mb : res bool :=
  let* l := int_val (last mb + 1) in
  let* f := int_val (first mb + SYS_MBOX_SIZE) in
  Val (f <=? l).

(** Storing a message: the part [sys_mbox_post] and [sys_mbox_trypost] share. *)
Definition mbox_store (msg : A) mb : res (sys_mbox A) :=
  let mb1 := mb <| msgs := <[Z.to_nat (last mb mod SYS_MBOX_SIZE) := Some msg]> (msgs mb) |> in
  let was_empty := last mb =? first mb in
  let* l := int_val (last mb + 1) in
  let mb2 := mb1 <| last := l |> in
  Val (if was_empty then mb2 <| not_empty := sys_sem_signal (not_empty mb2) |> else mb2).

Definition sys_mbox_trypost (msg : A) mb : res (err_t * sys_mbox A) :=
  let* full := mbox_full mb in
  if full then Val (ERR_MEM, mb)
  else let* mb' := mbox_store msg mb in Val (ERR_OK, mb').

(** [None]: the mailbox is empty. *)
Definition sys_arch_mbox_tryfetch mb : res (option (option A) * sys_mbox A) :=
  if first mb =? last mb then Val (None, mb)
  else
    let* msg := deref (msgs mb !! Z.to_nat (first mb mod SYS_MBOX_SIZE)) in
    let* f := int_val (first mb + 1) in
    let mb1 := mb <| first := f |> in
    Val (Some msg,
         if wait_send mb =? 0 then mb1
         else mb1 <| not_full := sys_sem_signal (not_full mb1) |>).

(** [ring mb q]: the mailbox holds the messages [q], oldest first. *)
Record ring mb (q : list A) : Prop := {
  ring_first : 0 ≤ first mb;
  ring_last : last mb = first mb + zlen q;
  ring_int : last mb ≤ INT_MAX;
  ring_room : zlen q ≤ SYS_MBOX_SIZE - 1;
  ring_length : length (msgs mb) = Z.to_nat SYS_MBOX_SIZE;
  ring_slot i m : q !! i = Some m →
    msgs mb !! Z.to_nat ((first mb + Z.of_nat i) mod SYS_MBOX_SIZE) = Some (Some m)
}.

Lemma ring_new : ring sys_mbox_new [].
Proof. split; try done. Qed.

(** The counters only grow: the next store must not overflow them. *)
Definition counters_ok mb : Prop :=
  last mb + 1 ≤ INT_MAX ∧ first mb + SYS_MBOX_SIZE ≤ INT_MAX.

Lemma mbox_full_spec mb q :
  ring mb q → counters_ok mb → mbox_full mb = Val (zlen q =? SYS_MBOX_SIZE - 1).
Proof.
  intros [H1 H2 H3 H4 _ _] [Hc1 Hc2]. unfold mbox_full, SYS_MBOX_SIZE, INT_MAX in *.
  pose proof (zlen_nonneg q).
  rewrite !int_val_ok by (unfold INT_MAX; lia). simpl. f_equal.
  destruct (_ <=? _) eqn:E1, (zlen q =? _) eqn:E2; bool_prop; lia || done.
Qed.

Lemma mbox_full_counters mb b : mbox_full mb = Val b → counters_ok mb.
Proof.
  unfold mbox_full, int_val, int_ok, counters_ok.
  destruct (_ && _)%bool eqn:E1; simpl; [|done].
  destruct ((_ <=? first mb + _) && _)%bool eqn:E2; simpl; [|done]. bool_prop. done.
Qed.

Lemma mbox_full_len mb q b :
  ring mb q → mbox_full mb = Val b → b = (zlen q =? SYS_MBOX_SIZE - 1).
Proof.
  intros Hr Hb. pose proof (mbox_full_spec mb q Hr (mbox_full_counters _ _ Hb)). congruence.
Qed.

Lemma trypost_refused msg mb m :
  sys_mbox_trypost msg mb = Val (ERR_MEM, m) → mbox_full mb = Val true.
Proof.
  unfold sys_mbox_trypost. destruct (mbox_full mb) as [[]|]; simpl; [done| |done].
  by destruct (mbox_store msg mb).
Qed.

Lemma mbox_store_spec msg mb q :
  ring mb q → counters_ok mb → zlen q < SYS_MBOX_SIZE - 1 →
  ∃ mb', mbox_store msg mb = Val mb' ∧ ring mb' (q ++ [msg]) ∧
    first mb' = first mb ∧ wait_send mb' = wait_send mb ∧ not_full mb' = not_full mb ∧
    mutex mb' = mutex mb ∧
    not_empty mb' = (if zlen q =? 0 then sys_sem_signal (not_empty mb) else not_empty mb).
Proof.
  intros [H1 H2 Hint H3 H4 H5] [Hc Hc'] Hroom. unfold SYS_MBOX_SIZE, INT_MAX in *.
  pose proof (zlen_nonneg q). unfold mbox_store.
  rewrite int_val_ok by (unfold INT_MAX; lia). simpl.
  replace (last mb =? first mb) with (zlen q =? 0)
    by (rewrite H2; destruct (zlen q =? 0) eqn:E, (_ =? first mb) eqn:E'; bool_prop; lia || done).
  eexists; split; [done|]. split_and!; [|by case_match..].
  assert (Hring : ∀ r : sys_mbox A, first r = first mb → last r = last mb + 1 →
    msgs r = <[Z.to_nat (last mb mod SYS_MBOX_SIZE) := Some msg]> (msgs mb) →
    ring r (q ++ [msg])); [|by case_match; apply Hring].
  intros r Hf Hl Hm. unfold SYS_MBOX_SIZE in *.
  split; unfold SYS_MBOX_SIZE, INT_MAX; rewrite ?Hf, ?Hl, ?Hm, ?length_insert, ?zlen_app, ?zlen_cons, ?zlen_nil; try lia.
  intros i m Hi. destruct (decide (i < length q)%nat) as [Hlt|Hge].
  - rewrite lookup_app_l in Hi by done.
    rewrite list_lookup_insert_ne; [by apply H5|].
    rewrite H2. unfold zlen in *. Z.div_mod_to_equations; lia.
  - assert (i = length q) as ->.
    { apply lookup_lt_Some in Hi. rewrite length_app in Hi. simpl in Hi. lia. }
    rewrite lookup_app_r, Nat.sub_diag in Hi by done. simplify_eq/=.
    rewrite H2. fold (zlen q). apply list_lookup_insert_eq. rewrite H4.
    Z.div_mod_to_equations; lia.
Qed.

Lemma mbox_tryfetch_spec mb m q :
  ring mb (m :: q) →
  ∃ mb', sys_arch_mbox_tryfetch mb = Val (Some (Some m), mb') ∧ ring mb' q ∧
    last mb' = last mb ∧ not_empty mb' = not_empty mb ∧ mutex mb' = mutex mb ∧
    wait_send mb' = wait_send mb ∧
    not_full mb' = (if wait_send mb =? 0 then not_full mb else sys_sem_signal (not_full mb)).
Proof.
  intros [H1 H2 Hint H3 H4 H5]. unfold SYS_MBOX_SIZE, INT_MAX in *.
  rewrite zlen_cons in *. pose proof (zlen_nonneg q).
  unfold sys_arch_mbox_tryfetch.
  rewrite (proj2 (Z.eqb_neq _ _)) by lia.
  pose proof (H5 0%nat m eq_refl) as H0. rewrite Z.add_0_r in H0. unfold SYS_MBOX_SIZE in *. rewrite H0. simpl.
  rewrite int_val_ok by (unfold INT_MAX; lia). simpl.
  eexists; split; [done|]. split_and!; [|by case_match..].
  assert (Hring : ∀ r : sys_mbox A, first r = first mb + 1 → last r = last mb → msgs r = msgs mb → ring r q);
    [|by case_match; apply Hring].
  intros r Hf Hl Hm. unfold SYS_MBOX_SIZE in *. split; unfold SYS_MBOX_SIZE, INT_MAX; rewrite ?Hf, ?Hl, ?Hm; try lia.
  intros i x Hi. rewrite <- (H5 (S i) x Hi). do 3 f_equal; lia.
Qed.

Lemma mbox_tryfetch_empty mb : ring mb [] → sys_arch_mbox_tryfetch mb = Val (None, mb).
Proof.
  intros [_ H _ _ _ _]. unfold sys_arch_mbox_tryfetch.
  by rewrite H, zlen_nil, Z.add_0_r, Z.eqb_refl.
Qed.
End seq.
End Seq.
Import Seq.

(** ** The threads of a mailbox *)
Module Conc.
Section conc.
Context {A : Type}.

(** Where a thread inside [sys_mbox_post] or [sys_mbox_trypost] stands: before
    taking the mutex, holding it, asleep on [not_full], about to take the
    mutex again, returned. *)
Inductive post_pc := PWant | PHold | PSleep | PRelock | PDone.

#[global] Instance post_pc_eq_dec : EqDecision post_pc.
Proof. solve_decision. Defined.

(** [p_blocking]: [sys_mbox_post] rather than [sys_mbox_trypost]. *)
Record poster := mk_poster { p_msg : A; p_blocking : bool; p_pc : post_pc }.
#[global] Instance eta_poster : Eta poster := λ r, mk_poster (p_msg r) (p_blocking r) (p_pc r).

(** The thread that calls [sys_arch_mbox_fetch(mb, &msg, 0)] over and over. *)
Inductive fetch_pc := FWant | FHold | FSleep.

Record state := mk_state {
  mb : sys_mbox A;
  posters : list poster;
  fpc : fetch_pc;
  posted : list A;      (* every message stored, in order *)
  delivered : list A    (* every message fetched, in order *)
}.
#[global] Instance eta_state : Eta state := λ r,
  mk_state (mb r) (posters r) (fpc r) (posted r) (delivered r).

Definition init : state := mk_state sys_mbox_new [] FWant [] [].

Definition set_pc (i : nat) (p : poster) (pc : post_pc) (s : state) : state :=
  s <| posters := <[i := p <| p_pc := pc |>]> (posters s) |>.

Definition release (m : sys_mbox A) : sys_mbox A :=
  m <| mutex := sys_sem_signal (mutex m) |>.

Inductive step : state → state → Prop :=
  | call_post s msg blocking :
      step s (s <| posters := posters s ++ [mk_poster msg blocking PWant] |>)
  | post_lock s i p c :
      posters s !! i = Some p → p_pc p = PWant →
      sys_arch_sem_wait (mutex (mb s)) = Some c →
      step s (set_pc i p PHold (s <| mb := (mb s) <| mutex := c |> |>))
  | post_relock s i p c :
      posters s !! i = Some p → p_pc p = PRelock →
      sys_arch_sem_wait (mutex (mb s)) = Some c →
      step s (set_pc i p PHold
        (s <| mb := (mb s) <| mutex := c |> <| wait_send := wait_send (mb s) - 1 |> |>))
  | post_sleep s i p :
      posters s !! i = Some p → p_pc p = PHold → p_blocking p = true →
      mbox_full (mb s) = Val true →
      step s (set_pc i p PSleep
        (s <| mb := release ((mb s) <| wait_send := wait_send (mb s) + 1 |>) |>))
  | post_wake s i p c :
      posters s !! i = Some p → p_pc p = PSleep →
      sys_arch_sem_wait (not_full (mb s)) = Some c →
      step s (set_pc i p PRelock (s <| mb := (mb s) <| not_full := c |> |>))
  | post_refuse s i p :
      posters s !! i = Some p → p_pc p = PHold → p_blocking p = false →
      sys_mbox_trypost (p_msg p) (mb s) = Val (ERR_MEM, mb s) →
      step s (set_pc i p PDone (s <| mb := release (mb s) |>))
  | post_store s i p m :
      posters s !! i = Some p → p_pc p = PHold →
      mbox_full (mb s) = Val false → mbox_store (p_msg p) (mb s) = Val m →
      step s (set_pc i p PDone
        (s <| mb := release m |> <| posted := posted s ++ [p_msg p] |>))
  | fetch_lock s c :
      fpc s = FWant → sys_arch_sem_wait (mutex (mb s)) = Some c →
      step s (s <| mb := (mb s) <| mutex := c |> |> <| fpc := FHold |>)
  | fetch_sleep s m :
      fpc s = FHold → sys_arch_mbox_tryfetch (mb s) = Val (None, m) →
      step s (s <| mb := release m |> <| fpc := FSleep |>)
  | fetch_wake s c :
      fpc s = FSleep → sys_arch_sem_wait (not_empty (mb s)) = Some c →
      step s (s <| mb := (mb s) <| not_empty := c |> |> <| fpc := FWant |>)
  | fetch_take s m x :
      fpc s = FHold → sys_arch_mbox_tryfetch (mb s) = Val (Some (Some x), m) →
      step s (s <| mb := release m |> <| fpc := FWant |>
                <| delivered := delivered s ++ [x] |>).

Definition is_hold (pc : post_pc) : bool := match pc with PHold => true | _ => false end.
Definition is_sleep (pc : post_pc) : bool := match pc with PSleep => true | _ => false end.
Definition is_relock (pc : post_pc) : bool := match pc with PRelock => true | _ => false end.
Definition holds (p : poster) : bool := is_hold (p_pc p).
Definition sleeps (p : poster) : bool := is_sleep (p_pc p).
Definition relocks (p : poster) : bool := is_relock (p_pc p).
Definition fetch_holds (f : fetch_pc) : bool := match f with FHold => true | _ => false end.

Record inv (s : state) (q : list A) : Prop := {
  inv_ring : ring (mb s) q;
  inv_fifo : posted s = delivered s ++ q;
  inv_mutex : mutex (mb s) = 1 - zcount holds (posters s) - Z.b2z (fetch_holds (fpc s));
  inv_mutex_nonneg : 0 ≤ mutex (mb s);
  inv_wait : wait_send (mb s) = zcount sleeps (posters s) + zcount relocks (posters s);
  inv_not_empty : 0 ≤ not_empty (mb s) ≤ 1;
  inv_not_full : 0 ≤ not_full (mb s) ≤ 1;
  inv_fetch_sleep : fpc s = FSleep → not_empty (mb s) = 0 → zlen q = 0;
  inv_post_sleep : 0 < zcount sleeps (posters s) → not_full (mb s) = 0 →
    0 < zlen q + zcount relocks (posters s) + zcount holds (posters s)
}.

Lemma sem_signal_0 : sys_sem_signal 0 = 1.
Proof. done. Qed.
Lemma sem_signal_range c : 0 ≤ c ≤ 1 → sys_sem_signal c = 1.
Proof. intros. assert (c = 0 ∨ c = 1) as [-> | ->] by lia; done. Qed.
Lemma sem_wait_some c c' : sys_arch_sem_wait c = Some c' → 0 < c ∧ c' = c - 1.
Proof. unfold sys_arch_sem_wait. case_match; bool_prop; intros; simplify_eq. lia. Qed.

(** [ring] does not look at the semaphores. *)
Lemma ring_ext (m m' : sys_mbox A) q :
  ring m q → first m' = first m → last m' = last m → msgs m' = msgs m → ring m' q.
Proof. intros [] Hf Hl Hm. split; rewrite ?Hf, ?Hl, ?Hm; done. Qed.

Lemma inv_init : inv init [].
Proof. split; done. Qed.

(** The only thread that holds the mutex. *)
Lemma inv_holder s q i p :
  inv s q → posters s !! i = Some p → p_pc p = PHold →
  mutex (mb s) = 0 ∧ zcount holds (posters s) = 1 ∧ fetch_holds (fpc s) = false.
Proof.
  intros H Hi Hp. pose proof (inv_mutex _ _ H). pose proof (inv_mutex_nonneg _ _ H).
  assert (0 < zcount holds (posters s)).
  { eapply zcount_lookup; [done|]. unfold holds. by rewrite Hp. }
  destruct (fetch_holds (fpc s)); simpl in *; split_and!; try done; lia.
Qed.

Lemma inv_fetch_holder s q :
  inv s q → fpc s = FHold → mutex (mb s) = 0 ∧ zcount holds (posters s) = 0.
Proof.
  intros H Hf. pose proof (inv_mutex _ _ H). pose proof (inv_mutex_nonneg _ _ H).
  rewrite Hf in *. simpl in *. pose proof (zcount_nonneg holds (posters s)). lia.
Qed.

(** Counting the program counters after poster [i] moved. *)
Lemma counts_set l i p pc : l !! i = Some p →
  let l' := <[i := p <| p_pc := pc |>]> l in
  zcount holds l' = zcount holds l - Z.b2z (is_hold (p_pc p)) + Z.b2z (is_hold pc) ∧
  zcount sleeps l' = zcount sleeps l - Z.b2z (is_sleep (p_pc p)) + Z.b2z (is_sleep pc) ∧
  zcount relocks l' = zcount relocks l - Z.b2z (is_relock (p_pc p)) + Z.b2z (is_relock pc).
Proof. intros Hi. simpl. by rewrite !(zcount_insert _ _ _ _ _ Hi). Qed.

(** Closes the conditions of [inv] that count and compare. *)
Ltac inv_close :=
  simpl in *;
  repeat match goal with
  | H : p_pc ?p = _, H' : context [p_pc ?p] |- _ => rewrite H in H'
  | H : fpc ?s = _, H' : context [fpc ?s] |- _ => rewrite H in H'
  | H : mutex _ = _ |- _ => rewrite H
  | H : _ ∧ _ |- _ => destruct H
  end; simpl in *;
  rewrite ?zcount_app, ?sem_signal_range by lia; simpl;
  try solve [done | lia | intros; lia | intros; auto with lia | eapply ring_ext; done].

Lemma step_inv s s' q : inv s q → step s s' → ∃ q', inv s' q'.
Proof.
  intros Hinv Hstep.
  pose proof (λ i p, inv_holder s q i p Hinv) as Hh.
  pose proof (inv_fetch_holder s q Hinv) as Hfh.
  destruct Hinv as [Hr Hq Hm Hm0 Hw He Hf Hfs Hps].
  pose proof (zcount_nonneg relocks (posters s)) as N1. pose proof (zlen_nonneg q) as N2.
  pose proof (zcount_nonneg sleeps (posters s)) as N3.
  pose proof (zcount_nonneg holds (posters s)) as N4.
  inversion Hstep; subst; clear Hstep;
    repeat match goal with
    | H : sys_arch_sem_wait _ = Some _ |- _ => apply sem_wait_some in H as [? ->]
    end;
    try match goal with
    | Hi : posters s !! _ = Some ?p |- context [set_pc _ _ ?pc _] =>
        destruct (counts_set _ _ _ pc Hi) as (C1 & C2 & C3)
    end.
  - exists q; split; inv_close.
  - exists q; split; inv_close.
  - exists q; split; inv_close.
  - apply Hh in H as Hhold; [|done].
    apply (mbox_full_len _ q) in H2; [|done]. symmetry in H2. apply Z.eqb_eq in H2.
    unfold SYS_MBOX_SIZE in H2.
    exists q; split; inv_close.
  - exists q; split; inv_close.
  - apply Hh in H as Hhold; [|done].
    apply trypost_refused, (mbox_full_len _ q) in H2; [|done]. symmetry in H2.
    apply Z.eqb_eq in H2. unfold SYS_MBOX_SIZE in H2. exists q; split; inv_close.
  - apply Hh in H as Hhold; [|done].
    pose proof (mbox_full_counters _ _ H1) as Hc.
    apply (mbox_full_len _ q) in H1; [|done]. symmetry in H1. apply Z.eqb_neq in H1.
    pose proof (ring_room _ _ Hr).
    destruct (mbox_store_spec (p_msg p) (mb s) q) as (m' & Hm' & Hr' & ? & Hw' & Hf' & Hmu & Hne);
      [done|done|lia|].
    rewrite Hm' in H2. injection H2 as <-.
    exists (q ++ [p_msg p]); split; inv_close; autorewrite with zlist;
      rewrite ?Hne, ?Hf', ?Hw', ?Hq, ?app_assoc; try done; try lia.
    + case_match; rewrite ?sem_signal_range by lia; lia.
    + case_match; bool_prop; rewrite ?sem_signal_range by lia; intros; [lia|exfalso; auto].
  - exists q; split; inv_close.
  - apply Hfh in H as Hhold.
    destruct q as [|x q]; [|destruct (mbox_tryfetch_spec (mb s) x q) as (? & ? & _); [done|]; congruence].
    rewrite mbox_tryfetch_empty in H0 by done. injection H0 as <-. exists []; split; inv_close.
  - exists q; split; inv_close.
  - apply Hfh in H as Hhold.
    destruct q as [|y q]; [by rewrite mbox_tryfetch_empty in H0|].
    destruct (mbox_tryfetch_spec (mb s) y q) as (m' & Hm' & Hr' & ? & Hne & Hmu & Hw' & Hf');
      [done|]. rewrite Hm' in H0. injection H0 as <- <-.
    exists q; split; inv_close; rewrite ?Hq, ?Hf', ?Hw', ?Hne, <- ?app_assoc; try done; try lia.
    all: case_match; bool_prop; rewrite ?sem_signal_range by lia; lia.
Qed.

Lemma reach_inv s : star step init s → ∃ q, inv s q.
Proof.
  apply (star_invariant step (λ s, ∃ q, inv s q)); [|exists []; apply inv_init].
  intros x y [q Hq]. by apply (step_inv _ _ q).
Qed.

(** A thread can take the free mutex. *)
Lemma lock_enabled s i p :
  mutex (mb s) = 1 → posters s !! i = Some p → p_pc p = PWant ∨ p_pc p = PRelock →
  ∃ s', step s s' ∧ length (posters s') = length (posters s).
Proof.
  intros Hm Hi [Hp|Hp]; eexists.
  - split; [eapply post_lock; [done|done|by rewrite Hm]|apply length_insert].
  - split; [eapply post_relock; [done|done|by rewrite Hm]|apply length_insert].
Qed.

(** The holder of the mutex can finish its critical section. *)
Lemma holder_enabled s q i p :
  inv s q → counters_ok (mb s) → posters s !! i = Some p → p_pc p = PHold →
  ∃ s', step s s' ∧ length (posters s') = length (posters s).
Proof.
  intros Hinv Hc Hi Hp. pose proof (mbox_full_spec _ q (inv_ring _ _ Hinv) Hc) as Hf.
  destruct (zlen q =? SYS_MBOX_SIZE - 1) eqn:E.
  - destruct (p_blocking p) eqn:Eb; eexists.
    + split; [by eapply post_sleep|apply length_insert].
    + split; [eapply post_refuse; try done|apply length_insert].
      unfold sys_mbox_trypost. by rewrite Hf.
  - apply Z.eqb_neq in E. pose proof (ring_room _ _ (inv_ring _ _ Hinv)).
    destruct (mbox_store_spec (p_msg p) (mb s) q) as (m & Hm & _);
      [apply Hinv|done|lia|].
    eexists; split; [by eapply post_store|]. apply length_insert.
Qed.

Lemma fetcher_enabled s q :
  inv s q → fpc s = FHold → ∃ s', step s s' ∧ length (posters s') = length (posters s).
Proof.
  intros Hinv Hf. destruct q as [|x q].
  - eexists; split; [eapply fetch_sleep; [done|]; apply mbox_tryfetch_empty, Hinv|done].
  - destruct (mbox_tryfetch_spec (mb s) x q) as (m & Hm & _); [apply Hinv|].
    eexists; split; [by eapply fetch_take|done].
Qed.

Lemma mutex_free_or_held s q : inv s q →
  (mutex (mb s) = 1 ∧ zcount holds (posters s) = 0 ∧ fpc s ≠ FHold) ∨
  (∃ i p, posters s !! i = Some p ∧ p_pc p = PHold) ∨ fpc s = FHold.
Proof.
  intros Hinv. pose proof (inv_mutex _ _ Hinv). pose proof (inv_mutex_nonneg _ _ Hinv).
  destruct (decide (0 < zcount holds (posters s))) as [Hh|Hh].
  { right; left. destruct (zcount_pos _ _ Hh) as (i & p & ? & Hp).
    exists i, p. unfold holds, is_hold in Hp. by destruct (p_pc p). }
  pose proof (zcount_nonneg holds (posters s)).
  destruct (fpc s); simpl in *; [left|by right; right|left]; split_and!; done || lia.
Qed.

(** With the mutex free and a message waiting, the fetcher can move. *)
Lemma fetch_enabled s q :
  inv s q → mutex (mb s) = 1 → fpc s ≠ FHold → q ≠ [] →
  ∃ s', step s s' ∧ length (posters s') = length (posters s).
Proof.
  intros Hinv Hm Hf Hq. destruct (fpc s) eqn:Ef; [|done|].
  - eexists; split; [eapply fetch_lock; [done|by rewrite Hm]|done].
  - pose proof (inv_fetch_sleep _ _ Hinv Ef). pose proof (inv_not_empty _ _ Hinv).
    assert (not_empty (mb s) = 1) as Hne.
    { destruct (decide (not_empty (mb s) = 0)); [|lia]. by destruct Hq; apply zlen_0_nil; auto. }
    eexists; split; [eapply fetch_wake; [done|by rewrite Hne]|done].
Qed.

(** With the mutex free, a poster inside its call can move or has the fetcher to wait for. *)
Lemma poster_enabled s q i p :
  inv s q → mutex (mb s) = 1 → zcount holds (posters s) = 0 → fpc s ≠ FHold →
  posters s !! i = Some p → p_pc p ≠ PDone →
  ∃ s', step s s' ∧ length (posters s') = length (posters s).
Proof.
  intros Hinv Hm Hh Hf Hi Hp.
  destruct (p_pc p) eqn:Ep; [by eapply lock_enabled; eauto| | |by eapply lock_enabled; eauto|done].
  - assert (0 < zcount holds (posters s)); [|lia].
    eapply zcount_lookup; [done|]. unfold holds. by rewrite Ep.
  - assert (0 < zcount sleeps (posters s)) as Hs.
    { eapply zcount_lookup; [done|]. unfold sleeps. by rewrite Ep. }
    pose proof (inv_post_sleep _ _ Hinv Hs) as Hps. pose proof (inv_not_full _ _ Hinv).
    destruct (decide (not_full (mb s) = 0)) as [E|E].
    + destruct (decide (0 < zcount relocks (posters s))) as [Hr|Hr].
      * destruct (zcount_pos _ _ Hr) as (j & p' & Hj & Hp').
        eapply lock_enabled; [done|done|right]. unfold relocks, is_relock in Hp'. by destruct (p_pc p').
      * apply (fetch_enabled s q); try done. intros ->. specialize (Hps E).
        unfold zlen in Hps. simpl in Hps. lia.
    + eexists; split; [eapply post_wake; [done|done|]|apply length_insert].
      replace (not_full (mb s)) with 1 by lia. done.
Qed.

(** C20: Mailboxes are FIFO queues and lose nothing: however posting threads
    and the fetching thread interleave, the messages ever stored are those
    delivered, in the same order, followed by those in the ring; and never more
    than 127 wait. *)
Theorem mbox_fifo s :
  star step init s →
  ∃ q, posted s = delivered s ++ q ∧ ring (mb s) q ∧ zlen q ≤ SYS_MBOX_SIZE - 1.
Proof.
  intros [q Hq]%reach_inv. exists q.
  split_and!; [apply (inv_fifo _ _ Hq)|apply Hq|apply (ring_room _ _ (inv_ring _ _ Hq))].
Qed.

(** C21: No wake-up is lost: in every reachable state, if the fetching thread is
    asleep and the semaphore that would wake it is zero, then every message
    ever stored has been delivered. *)
Theorem mbox_no_lost_wakeup s :
  star step init s → fpc s = FSleep → not_empty (mb s) = 0 → posted s = delivered s.
Proof.
  intros [q Hq]%reach_inv Hf Hn. rewrite (inv_fifo _ _ Hq).
  rewrite (zlen_0_nil q) by (by apply (inv_fetch_sleep _ _ Hq)). apply app_nil_r.
Qed.

(** C32: Mailboxes do not deadlock: in every reachable state in which some
    thread is inside a post, or some message is undelivered, a thread can take
    a step without a new call arriving, as long as the counters have not
    reached [INT_MAX]. *)
Theorem mbox_progress s :
  star step init s → counters_ok (mb s) →
  (∃ i p, posters s !! i = Some p ∧ p_pc p ≠ PDone) ∨ posted s ≠ delivered s →
  ∃ s', step s s' ∧ length (posters s') = length (posters s).
Proof.
  intros [q Hinv]%reach_inv Hc Hwork.
  destruct (mutex_free_or_held s q Hinv) as [(Hm & Hh & Hf)|[(i & p & Hi & Hp)|Hf]];
    [|by eapply holder_enabled|by eapply fetcher_enabled].
  destruct Hwork as [(i & p & Hi & Hp)|Hd]; [by eapply poster_enabled|].
  eapply fetch_enabled; try done. intros ->. apply Hd.
  by rewrite (inv_fifo _ _ Hinv), app_nil_r.
Qed.
End conc.

(** A run: one message is posted; the fetcher has not looked yet. *)
Definition example_state : @state Z :=
  mk_state (mk_sys_mbox 0 1 (<[0%nat := Some 7]> (replicate 128 None)) 1 0 1 0)
           [mk_poster 7 true PDone] FWant [7] [].

Lemma example_reachable : star step init example_state.
Proof.
  star_by ltac:(apply (call_post _ 7 true)).
  star_by ltac:(by eapply (post_lock _ 0)).
  star_by ltac:(by eapply (post_store _ 0)).
  apply star_refl.
Qed.

(** The same, the fetcher having taken the message and gone to sleep. *)
Definition example_asleep : @state Z :=
  mk_state (mk_sys_mbox 1 1 (<[0%nat := Some 7]> (replicate 128 None)) 0 0 1 0)
           [mk_poster 7 true PDone] FSleep [7] [7].

Lemma example_asleep_reachable : star step init example_asleep.
Proof.
  star_by ltac:(apply (call_post _ 7 true)).
  star_by ltac:(by eapply (post_lock _ 0)).
  star_by ltac:(by eapply (post_store _ 0)).
  star_by ltac:(by eapply fetch_lock).
  star_by ltac:(by eapply fetch_take).
  star_by ltac:(by eapply fetch_lock).
  star_by ltac:(by eapply fetch_sleep).
  star_by ltac:(by eapply fetch_wake).
  star_by ltac:(by eapply fetch_lock).
  star_by ltac:(by eapply fetch_sleep).
  apply star_refl.
Qed.

Lemma mbox_fifo_witness :
  star step init example_state ∧
  ∃ q, posted example_state = delivered example_state ++ q ∧ ring (mb example_state) q ∧
       zlen q ≤ SYS_MBOX_SIZE - 1.
Proof. split; [apply example_reachable|apply (mbox_fifo _ example_reachable)]. Defined.

Lemma mbox_no_lost_wakeup_witness : posted example_asleep = delivered example_asleep.
Proof. apply (mbox_no_lost_wakeup _ example_asleep_reachable); reflexivity. Defined.

Lemma mbox_progress_witness :
  ∃ s', step example_state s' ∧ length (posters s') = length (posters example_state).
Proof.
  apply (mbox_progress _ example_reachable); [by vm_compute|by right].
Defined.
End Conc.
