(* ===== verification/Heap.v ===== *)
(** * The heap, the packet buffers in it and the stack's mailbox

    The part of the process that the components share: the allocated memory
    ([core/mem.c], [core/memp.c] in the configuration [MEM_LIBC_MALLOC],
    [MEMP_MEM_MALLOC]), the [struct pbuf]s, and the [tcpip_thread] mailbox with
    the callbacks posted to it ([api/tcpip.c]). *)

From S2P Require Import Prelude Mbox.

Abbreviation loc := positive.

(** A data pointer: a block and an offset in it.  The offset is unbounded, as
    pointer arithmetic can leave the block; accesses are checked. *)
Record ptr := mk_ptr { blk : loc; off : Z }.

#[export] Instance ptr_eq_dec : EqDecision ptr.
Proof. solve_decision. Defined.

Definition ptr_add (p : ptr) (n : Z) : ptr := mk_ptr (blk p) (off p + n).

(** [struct pbuf] *)
Record pbuf := mk_pbuf {
  pb_next : option loc;
  pb_payload : option ptr;
  pb_tot_len : Z;         (* u16_t *)
  pb_len : Z;             (* u16_t *)
  pb_type_internal : Z;   (* u8_t *)
  pb_flags : Z;           (* u8_t *)
  pb_ref : Z;             (* u8_t *)
  pb_if_idx : Z           (* u8_t *)
}.

#[export] Instance eta_pbuf : Eta pbuf := λ r,
  mk_pbuf (pb_next r) (pb_payload r) (pb_tot_len r) (pb_len r) (pb_type_internal r)
          (pb_flags r) (pb_ref r) (pb_if_idx r).

(** The functions the components post to [tcpip_thread]. *)
Inductive callback_fn :=
  | Cb_pbuf_free_ooseq   (* pbuf.c: pbuf_free_ooseq_callback *)
  | Cb_pbuf_free_int     (* tcpip.c *)
  | Cb_poll_tx           (* native/link.c *)
  | Cb_udp_poll_tx.      (* native/udp.c *)

#[export] Instance callback_fn_eq_dec : EqDecision callback_fn.
Proof. solve_decision. Defined.

(** [struct tcpip_msg] of type [TCPIP_MSG_CALLBACK]. *)
Record tcpip_msg := mk_tcpip_msg { cb_function : callback_fn; cb_ctx : option loc }.

Record store := mk_store {
  pbufs : gmap loc pbuf;
  blocks : gmap loc (list Z);
  next_loc : loc;
  mallocs : list (option (list Z));
  tcpip_msgs : gmap loc tcpip_msg;
  tcpip_mbox : sys_mbox loc;
  pbuf_free_ooseq_pending : bool
}.

#[export] Instance eta_store : Eta store := λ r,
  mk_store (pbufs r) (blocks r) (next_loc r) (mallocs r) (tcpip_msgs r) (tcpip_mbox r)
           (pbuf_free_ooseq_pending r).

Definition init_store (script : list (option (list Z))) : store :=
  mk_store ∅ ∅ 1 script ∅ sys_mbox_new false.

(** ** [malloc] and [free]

    [mallocs] is the C library's answer to the coming calls: [None] is a null
    pointer, [Some junk] a fresh block whose initial bytes are [junk]; when the
    list is used up, every call succeeds. *)

Definition fit (n : Z) (junk : list Z) : list Z :=
  ztake n (map u8 junk ++ replicate (Z.to_nat n) 0).

Definition alloc_block (n : Z) (junk : list Z) (s : store) : store :=
  s <| blocks := <[next_loc s := fit n junk]> (blocks s) |>
    <| next_loc := Pos.succ (next_loc s) |>.

Definition malloc (n : Z) : M store (option loc) := λ s,
  match mallocs s with
  | None :: rest => Val (None, s <| mallocs := rest |>)
  | Some junk :: rest => Val (Some (next_loc s), alloc_block n junk (s <| mallocs := rest |>))
  | [] => Val (Some (next_loc s), alloc_block n [] s)
  end.

Definition free (l : loc) : M store unit := λ s,
  match blocks s !! l with
  | None => Err Undefined
  | Some _ => Val (tt, s <| blocks := delete l (blocks s) |> <| pbufs := delete l (pbufs s) |>
                         <| tcpip_msgs := delete l (tcpip_msgs s) |>)
  end.

Definition MEM_ALIGNMENT : Z := 8.
Definition LWIP_MEM_ALIGN_SIZE (size : Z) : Z :=
  Z.land (u32 (size + MEM_ALIGNMENT - 1)) (u32 (Z.lnot (MEM_ALIGNMENT - 1))).

(** [core/mem.c], [MEM_LIBC_MALLOC] *)
Definition mem_malloc (size : Z) : M store (option loc) := malloc size.
Definition mem_free (rmem : option loc) : M store unit :=
  match rmem with None => fail AssertFailed | Some l => free l end.
Definition mem_trim (mem : loc) (size : Z) : M store loc := ret mem.

(** [core/memp.c], [MEMP_MEM_MALLOC]: an element is a block of the pool's size. *)
Inductive memp_t :=
  | MEMP_PBUF | MEMP_PBUF_POOL | MEMP_TCPIP_MSG_API | MEMP_UDP_PCB
  | MEMP_TCP_PCB | MEMP_TCP_PCB_LISTEN | MEMP_TCP_SEG | MEMP_NETBUF | MEMP_NETCONN.

Definition SIZEOF_STRUCT_PBUF : Z := 24.
Definition PBUF_POOL_BUFSIZE : Z := 1024.
Definition SIZEOF_TCPIP_MSG : Z := 32.
Definition SIZEOF_UDP_PCB : Z := 56.
Definition SIZEOF_TCP_PCB : Z := 272.
Definition SIZEOF_TCP_PCB_LISTEN : Z := 56.
Definition SIZEOF_TCP_SEG : Z := 32.
Definition SIZEOF_NETBUF : Z := 24.
Definition SIZEOF_NETCONN : Z := 64.

Definition memp_size (t : memp_t) : Z :=
  match t with
  | MEMP_PBUF => SIZEOF_STRUCT_PBUF
  | MEMP_PBUF_POOL => LWIP_MEM_ALIGN_SIZE SIZEOF_STRUCT_PBUF + LWIP_MEM_ALIGN_SIZE PBUF_POOL_BUFSIZE
  | MEMP_TCPIP_MSG_API => SIZEOF_TCPIP_MSG
  | MEMP_UDP_PCB => SIZEOF_UDP_PCB
  | MEMP_TCP_PCB => SIZEOF_TCP_PCB
  | MEMP_TCP_PCB_LISTEN => SIZEOF_TCP_PCB_LISTEN
  | MEMP_TCP_SEG => SIZEOF_TCP_SEG
  | MEMP_NETBUF => SIZEOF_NETBUF
  | MEMP_NETCONN => SIZEOF_NETCONN
  end.

Definition memp_malloc (t : memp_t) : M store (option loc) :=
  mem_malloc (LWIP_MEM_ALIGN_SIZE (memp_size t)).
Definition memp_free (t : memp_t) (mem : option loc) : M store unit :=
  match mem with None => ret tt | Some l => mem_free (Some l) end.

(** ** Access through pointers *)

Definition get_pbuf (s : store) (l : loc) : res pbuf := deref (pbufs s !! l).
Definition set_pbuf (l : loc) (q : pbuf) : M store unit := λ s,
  match pbufs s !! l with
  | None => Err Undefined
  | Some _ => Val (tt, s <| pbufs := <[l := q]> (pbufs s) |>)
  end.
Definition update_pbuf (l : loc) (f : pbuf → pbuf) : M store unit :=
  let! q := ask (λ s, get_pbuf s l) in set_pbuf l (f q).

(** [memcpy] out of and into the heap: [n] bytes at a possibly null pointer.
    With [n = 0] nothing is accessed. *)
Definition mem_read (s : store) (p : option ptr) (o n : Z) : res (list Z) :=
  if n =? 0 then Val [] else
  let* p := deref p in
  let* d := deref (blocks s !! blk p) in
  let o := off p + o in
  if (0 <=? o) && (0 <=? n) && (o + n <=? zlen d) then Val (zslice o n d) else Err Undefined.

Definition mem_write (p : option ptr) (o : Z) (bs : list Z) : M store unit := λ s,
  if zlen bs =? 0 then Val (tt, s) else
  let* p := deref p in
  let* d := deref (blocks s !! blk p) in
  let o := off p + o in
  if (0 <=? o) && (o + zlen bs <=? zlen d)
  then Val (tt, s <| blocks := <[blk p := zsplice o bs d]> (blocks s) |>)
  else Err Undefined.

(** ** Posting callbacks ([api/tcpip.c]) *)

Definition mbox_trypost (msg : loc) : M store err_t := λ s,
  let* '(e, mb) := Seq.sys_mbox_trypost msg (tcpip_mbox s) in
  Val (e, s <| tcpip_mbox := mb |>).

Definition tcpip_try_callback (function : callback_fn) (ctx : option loc) : M store err_t :=
  let! msg := memp_malloc MEMP_TCPIP_MSG_API in
  match msg with
  | None => ret ERR_MEM
  | Some l =>
      do! modify (λ s, s <| tcpip_msgs := <[l := mk_tcpip_msg function ctx]> (tcpip_msgs s) |>);
      let! e := mbox_trypost l in
      if is_ok e then ret ERR_OK
      else do! memp_free MEMP_TCPIP_MSG_API (Some l); ret ERR_MEM
  end.
