(* ===== verification/HeapFacts.v ===== *)
(** * Running the heap's operations

    The specifications of [malloc], [free] and the accesses, in the form the
    proofs about the clients use, and that of posting a callback. *)

From S2P Require Import Prelude Mbox Heap.

Implicit Types s : store.

(** ** Running the primitives *)

Lemma runs_get_pbuf s l q (Q : pbuf → store → Prop) :
  pbufs s !! l = Some q → Q q s → runs (ask (λ s, get_pbuf s l)) s Q.
Proof. intros Hl HQ. eapply runs_ask; [|done]. unfold get_pbuf. by rewrite Hl. Qed.

Lemma runs_set_pbuf s l q q' (Q : unit → store → Prop) :
  pbufs s !! l = Some q → Q tt (s <| pbufs := <[l := q']> (pbufs s) |>) →
  runs (set_pbuf l q') s Q.
Proof. intros Hl HQ. unfold runs, set_pbuf. by rewrite Hl. Qed.

Lemma runs_update_pbuf s l q f (Q : unit → store → Prop) :
  pbufs s !! l = Some q → Q tt (s <| pbufs := <[l := f q]> (pbufs s) |>) →
  runs (update_pbuf l f) s Q.
Proof.
  intros Hl HQ. apply runs_bind. eapply runs_get_pbuf; [done|]. by eapply runs_set_pbuf.
Qed.

(** ** Allocation *)

(** The addresses from [next_loc] on are unused. *)
Definition heap_ok s : Prop :=
  ∀ l, (next_loc s ≤ l)%positive →
    pbufs s !! l = None ∧ blocks s !! l = None ∧ tcpip_msgs s !! l = None.

(** [s] with a new block [d], after one more answer of the C library. *)
Definition grown (d : list Z) s : store :=
  s <| mallocs := tl (mallocs s) |> <| blocks := <[next_loc s := d]> (blocks s) |>
    <| next_loc := Pos.succ (next_loc s) |>.
Definition refused s : store := s <| mallocs := tl (mallocs s) |>.

Lemma zlen_fit n junk : 0 ≤ n → zlen (fit n junk) = n.
Proof.
  intros. unfold fit. apply zlen_ztake. rewrite zlen_app.
  pose proof (zlen_nonneg (map u8 junk)). unfold zlen at 2. rewrite length_replicate. lia.
Qed.

(** The next call of [malloc] succeeds. *)
Definition memory_left s : bool :=
  match mallocs s with None :: _ => false | _ => true end.

Lemma runs_malloc_left n s (Q : option loc → store → Prop) :
  0 ≤ n → (memory_left s = false → Q None (refused s)) →
  (∀ d, zlen d = n → memory_left s = true → Q (Some (next_loc s)) (grown d s)) →
  runs (malloc n) s Q.
Proof.
  intros Hn HN HS. unfold runs, malloc. pose proof (zlen_fit n) as Hfit.
  unfold grown, refused, memory_left in *. destruct (mallocs s) as [|[junk|] rest] eqn:E; simpl in *.
  - specialize (HS _ (Hfit [] Hn) eq_refl). destruct s. simpl in *. by subst.
  - apply (HS _ (Hfit junk Hn) eq_refl).
  - by apply HN.
Qed.

Lemma runs_malloc n s (Q : option loc → store → Prop) :
  0 ≤ n → Q None (refused s) →
  (∀ d, zlen d = n → Q (Some (next_loc s)) (grown d s)) →
  runs (malloc n) s Q.
Proof. intros Hn HN HS. apply runs_malloc_left; auto. Qed.

Lemma heap_ok_refused s : heap_ok s → heap_ok (refused s).
Proof. done. Qed.

Lemma heap_ok_grown d s : heap_ok s → heap_ok (grown d s).
Proof.
  intros H l Hl. simpl in *. destruct (H l) as (? & ? & ?); [lia|].
  rewrite lookup_insert_ne by lia. done.
Qed.

Lemma heap_ok_set_pbuf l q s :
  heap_ok s → (l < next_loc s)%positive → heap_ok (s <| pbufs := <[l := q]> (pbufs s) |>).
Proof.
  intros H Hl l' Hl'. simpl in *. destruct (H l') as (? & ? & ?); [lia|].
  rewrite lookup_insert_ne by lia. done.
Qed.

Lemma heap_ok_release l s :
  heap_ok s →
  heap_ok (s <| blocks := delete l (blocks s) |> <| pbufs := delete l (pbufs s) |>
             <| tcpip_msgs := delete l (tcpip_msgs s) |>).
Proof.
  intros H l' Hl'. simpl in *. destruct (H l' Hl') as (? & ? & ?).
  rewrite !lookup_delete. by destruct (decide (l = l')).
Qed.

Lemma heap_ok_used l s :
  heap_ok s → is_Some (pbufs s !! l) ∨ is_Some (blocks s !! l) → (l < next_loc s)%positive.
Proof.
  intros H Hl. destruct (decide (l < next_loc s)%positive) as [|Hge]; [done|].
  destruct (H l) as (Hp & Hb & _); [lia|]. rewrite Hp, Hb in Hl. by destruct Hl as [[]|[]].
Qed.

(** ** Accesses *)

Lemma mem_read_ext s s' p o n :
  (∀ a, p = Some a → blocks s' !! blk a = blocks s !! blk a) →
  mem_read s' p o n = mem_read s p o n.
Proof.
  intros H. unfold mem_read. destruct (n =? 0); [done|].
  destruct p as [a|]; simpl; [by rewrite (H a)|done].
Qed.

Lemma mem_read_block s a d o n :
  blocks s !! blk a = Some d → 0 ≤ off a + o → 0 ≤ n → off a + o + n ≤ zlen d →
  mem_read s (Some a) o n = Val (zslice (off a + o) n d).
Proof.
  intros Hb Ho Hn Hd. unfold mem_read. simpl. rewrite Hb. simpl. case_match; bool_prop.
  - subst. done.
  - by rewrite !(proj2 (Z.leb_le _ _)) by lia.
Qed.

Lemma mem_read_zero s p o : mem_read s p o 0 = Val [].
Proof. done. Qed.

(** A read that succeeds is a slice of a block. *)
Lemma mem_read_inv s p o n d :
  mem_read s p o n = Val d → n ≠ 0 →
  ∃ a b, p = Some a ∧ blocks s !! blk a = Some b ∧ d = zslice (off a + o) n b ∧
    0 ≤ off a + o ∧ 0 ≤ n ∧ off a + o + n ≤ zlen b.
Proof.
  unfold mem_read. intros H Hn. rewrite (proj2 (Z.eqb_neq _ _) Hn) in H.
  destruct p as [a|]; simpl in H; [|done]. destruct (blocks s !! blk a) as [b|] eqn:E; simpl in H; [|done].
  case_match; [|done]. bool_prop. simplify_eq. exists a, b. done.
Qed.

(** Part of what can be read can be read. *)
Lemma mem_read_sub s p n d o m :
  mem_read s p 0 n = Val d → zlen d = n → 0 ≤ o → 0 ≤ m → o + m ≤ n →
  mem_read s p o m = Val (zslice o m d).
Proof.
  intros H Hd Ho Hm Hn. destruct (decide (m = 0)) as [->|Hm']; [done|].
  apply mem_read_inv in H as (a & b & -> & Hb & -> & ? & ? & ?); [|lia].
  rewrite (mem_read_block _ _ b); [|done|lia..]. f_equal.
  by rewrite zslice_zslice, Z.add_0_r by lia.
Qed.

(** Writing inside a region that could be read. *)
Lemma zslice_of_zsplice {A} a n o (bs b : list A) :
  0 ≤ a → 0 ≤ o → o + zlen bs ≤ n → a + n ≤ zlen b →
  zslice a n (zsplice (a + o) bs b) = zsplice o bs (zslice a n b).
Proof.
  intros Ha Ho Hn Hb. pose proof (zlen_nonneg bs).
  assert (zslice a n (zsplice (a + o) bs b) = zslice a o b ++ bs ++ zslice (a + o + zlen bs) (n - o - zlen bs) b) as ->.
  { replace n with (o + (zlen bs + (n - o - zlen bs))) at 1 by lia.
    rewrite !zslice_add by lia. f_equal; [|f_equal].
    - unfold zsplice. unfold zslice at 1. rewrite zdrop_app_le by (rewrite zlen_ztake; lia).
      rewrite ztake_app_le by (rewrite zlen_zdrop, ?zlen_ztake; rewrite ?zlen_ztake; lia).
      unfold zslice, ztake, zdrop. rewrite skipn_firstn_comm, take_take. f_equal; lia.
    - apply zslice_zsplice; lia.
    - unfold zslice. by rewrite zdrop_zsplice by lia. }
  unfold zsplice. rewrite ztake_zslice by lia. do 2 f_equal. rewrite zdrop_zslice by lia. f_equal; lia.
Qed.

Lemma mem_write_read s p n d o bs :
  mem_read s p 0 n = Val d → zlen d = n → 0 ≤ o → o + zlen bs ≤ n → 0 < zlen bs →
  runs (mem_write p o bs) s (λ _ s', mem_read s' p 0 n = Val (zsplice o bs d) ∧
    pbufs s' = pbufs s ∧ ∃ a b, p = Some a ∧ blocks s !! blk a = Some b ∧
    s' = s <| blocks := <[blk a := zsplice (off a + o) bs b]> (blocks s) |>).
Proof.
  intros H Hd Ho Hn Hbs. apply mem_read_inv in H as (a & b & -> & Hb & -> & ? & ? & ?); [|lia].
  unfold runs, mem_write. rewrite (proj2 (Z.eqb_neq _ _)) by lia. simpl. rewrite Hb. simpl.
  rewrite !(proj2 (Z.leb_le _ _)) by lia. simpl. split; [|split; [done|by exists a, b]].
  rewrite (mem_read_block _ _ (zsplice (off a + o) bs b)); simpl;
    [|by rewrite lookup_insert_eq|lia|lia|rewrite zlen_zsplice; lia].
  rewrite Z.add_0_r. f_equal. apply zslice_of_zsplice; lia.
Qed.

(** ** Posting a callback *)

(** The mailbox of [tcpip_thread] holds [q] and its counters are in range. *)
Definition mbox_holds s (q : list loc) : Prop :=
  Seq.ring (tcpip_mbox s) q ∧ Seq.counters_ok (tcpip_mbox s).

(** What [tcpip_try_callback] does: a message is queued, or, when there is no
    memory for it or no room in the mailbox, nothing has happened but the calls of
    [malloc]. *)
Definition posted (f : callback_fn) (ctx : option loc) s (q : list loc) (e : err_t) s' : Prop :=
  e = (if memory_left s && (zlen q <? SYS_MBOX_SIZE - 1) then ERR_OK else ERR_MEM) ∧
  pbufs s' = pbufs s ∧ pbuf_free_ooseq_pending s' = pbuf_free_ooseq_pending s ∧
  (next_loc s ≤ next_loc s')%positive ∧
  ((e = ERR_OK ∧ zlen q < SYS_MBOX_SIZE - 1 ∧ Seq.ring (tcpip_mbox s') (q ++ [next_loc s]) ∧
    (∃ d, blocks s' = <[next_loc s := d]> (blocks s)) ∧
    tcpip_msgs s' = <[next_loc s := mk_tcpip_msg f ctx]> (tcpip_msgs s)) ∨
   (e = ERR_MEM ∧ Seq.ring (tcpip_mbox s') q ∧ blocks s' = blocks s ∧
    tcpip_msgs s' = tcpip_msgs s)).

Lemma tcpip_try_callback_spec f ctx s q :
  heap_ok s → mbox_holds s q →
  runs (tcpip_try_callback f ctx) s (λ e s', heap_ok s' ∧ posted f ctx s q e s').
Proof.
  intros Hok [Hring Hcnt]. destruct (Hok (next_loc s)) as (Hp & Hb & Hm); [lia|].
  apply runs_bind. apply runs_malloc_left; [done|intros Hleft|intros d Hd Hleft]; unfold posted; rewrite Hleft.
  { apply runs_ret. split; [done|]. split_and!; try done. by right. }
  apply runs_bind, runs_modify. apply runs_bind.
  unfold runs, mbox_trypost, Seq.sys_mbox_trypost. simpl.
  rewrite (Seq.mbox_full_spec _ q) by done. simpl. pose proof (Seq.ring_room _ _ Hring).
  destruct (zlen q =? SYS_MBOX_SIZE - 1) eqn:E; bool_prop; simpl.
  - unfold runs, memp_free, mem_free, free, mbnd. simpl. rewrite lookup_insert_eq.
    rewrite !delete_insert_eq, !delete_id by done. simpl. rewrite (proj2 (Z.ltb_ge _ _)) by lia. split.
    + intros l Hl. simpl in *. apply Hok. lia.
    + split_and!; [done|done|done|lia|]. by right.
  - destruct (Seq.mbox_store_spec (next_loc s) (tcpip_mbox s) q) as (mb & -> & Hr & _); [done|done|lia|].
    simpl. rewrite (proj2 (Z.ltb_lt _ _)) by lia. split.
    + intros l Hl. simpl in *. rewrite !lookup_insert_ne by lia. apply Hok. lia.
    + split_and!; [done|done|done|lia|]. left. split_and!; [done|lia|done|by eexists|done].
Qed.
