(* ===== verification/Pbuf.v ===== *)
(** * Packet buffers: allocation, reference counts, headers, chains ([core/pbuf.c])

    A packet is a chain of [struct pbuf]s in the shared heap.  The loops over a
    chain take fuel; [chain_fuel], one more than the number of pbufs in the
    heap, is enough for every well-formed chain. *)

From S2P Require Import Prelude Mbox Heap.

Implicit Types s : store.

(** ** Constants ([include/lwip/pbuf.h]) *)

Definition PBUF_TYPE_FLAG_STRUCT_DATA_CONTIGUOUS : Z := 128.
Definition PBUF_TYPE_ALLOC_SRC_MASK : Z := 15.
Definition PBUF_TYPE_ALLOC_SRC_MASK_STD_HEAP : Z := 0.
Definition PBUF_TYPE_ALLOC_SRC_MASK_STD_MEMP_PBUF : Z := 1.
Definition PBUF_TYPE_ALLOC_SRC_MASK_STD_MEMP_PBUF_POOL : Z := 2.
Definition PBUF_FLAG_TCP_FIN : Z := 32.

(** [pbuf_layer], without an encapsulation header and with IPv4 only. *)
Inductive pbuf_layer := PBUF_TRANSPORT | PBUF_IP | PBUF_LINK | PBUF_RAW_TX | PBUF_RAW.
Definition layer_offset (l : pbuf_layer) : Z :=
  match l with
  | PBUF_TRANSPORT => 0 + 14 + 20 + 20
  | PBUF_IP => 0 + 14 + 20
  | PBUF_LINK => 0 + 14
  | PBUF_RAW_TX => 0
  | PBUF_RAW => 0
  end.

Inductive pbuf_type := PBUF_RAM | PBUF_ROM | PBUF_REF | PBUF_POOL.
#[export] Instance pbuf_type_eq_dec : EqDecision pbuf_type.
Proof. solve_decision. Defined.

(** The value of the [pbuf_type] enumeration. *)
Definition type_code (t : pbuf_type) : Z :=
  match t with
  | PBUF_RAM => Z.lor 512 (Z.lor 128 0)
  | PBUF_ROM => 1
  | PBUF_REF => Z.lor 64 1
  | PBUF_POOL => Z.lor 256 (Z.lor 128 2)
  end.

Definition pbuf_get_allocsrc (q : pbuf) : Z := Z.land (pb_type_internal q) PBUF_TYPE_ALLOC_SRC_MASK.
Definition pbuf_match_allocsrc (q : pbuf) (t : Z) : bool :=
  pbuf_get_allocsrc q =? Z.land t PBUF_TYPE_ALLOC_SRC_MASK.

Definition chain_fuel (s : store) : nat := S (size (pbufs s)).

(** ** Freeing *)

(** The loop of [pbuf_free]: [count] is the number of pbufs released so far. *)
Fixpoint pbuf_free_loop (fuel : nat) (p : option loc) (count : Z) : M store Z :=
  match p with
  | None => ret count
  | Some l =>
    match fuel with
    | O => fail OutOfFuel
    | S fuel =>
      let! q := ask (λ s, get_pbuf s l) in
      do! lwip_assert (0 <? pb_ref q);
      let r := u8 (pb_ref q - 1) in
      do! set_pbuf l (q <| pb_ref := r |>);
      if r =? 0 then
        let nxt := pb_next q in
        let alloc_src := pbuf_get_allocsrc q in
        do! (if alloc_src =? PBUF_TYPE_ALLOC_SRC_MASK_STD_MEMP_PBUF_POOL
             then memp_free MEMP_PBUF_POOL (Some l)
             else if alloc_src =? PBUF_TYPE_ALLOC_SRC_MASK_STD_MEMP_PBUF
             then memp_free MEMP_PBUF (Some l)
             else if alloc_src =? PBUF_TYPE_ALLOC_SRC_MASK_STD_HEAP
             then mem_free (Some l)
             else lwip_assert false);
        pbuf_free_loop fuel nxt (u8 (count + 1))
      else ret count
    end
  end.

Definition pbuf_free (p : option loc) : M store Z :=
  match p with
  | None => fail AssertFailed
  | Some _ => λ s, pbuf_free_loop (chain_fuel s) p 0 s
  end.

Definition pbuf_ref (p : option loc) : M store unit :=
  match p with
  | None => ret tt
  | Some l =>
      do! update_pbuf l (λ q, q <| pb_ref := u8 (pb_ref q + 1) |>);
      let! q := ask (λ s, get_pbuf s l) in
      lwip_assert (0 <? pb_ref q)
  end.

(** ** Allocation *)

Definition NETIF_NO_INDEX : Z := 0.

(** [pbuf_init_alloced_pbuf]: the members of a fresh [struct pbuf]. *)
Definition pbuf_init_alloced_pbuf
    (l : loc) (payload : option ptr) (tot_len len : Z) (type : pbuf_type) (flags : Z)
    : M store unit :=
  modify (λ s, s <| pbufs := <[l := mk_pbuf None payload tot_len len
                                 (u8 (type_code type)) flags 1 NETIF_NO_INDEX]> (pbufs s) |>).

(** [pbuf_pool_is_empty]: ask [tcpip_thread] to free out-of-sequence segments. *)
Definition pbuf_pool_is_empty : M store unit :=
  let! queued := gets pbuf_free_ooseq_pending in
  do! modify (λ s, s <| pbuf_free_ooseq_pending := true |>);
  if negb queued then
    let! e := tcpip_try_callback Cb_pbuf_free_ooseq None in
    if is_ok e then ret tt else modify (λ s, s <| pbuf_free_ooseq_pending := false |>)
  else ret tt.

Definition pbuf_alloc_reference (payload : option ptr) (length : Z) (type : pbuf_type)
    : M store (option loc) :=
  do! lwip_assert (bool_decide (type = PBUF_REF) || bool_decide (type = PBUF_ROM));
  let! p := memp_malloc MEMP_PBUF in
  match p with
  | None => ret None
  | Some l =>
      do! pbuf_init_alloced_pbuf l payload length length type 0;
      ret (Some l)
  end.

Definition PBUF_POOL_BUFSIZE_ALIGNED : Z := LWIP_MEM_ALIGN_SIZE PBUF_POOL_BUFSIZE.

(** The payload pointer of a pbuf whose data follows the struct.  The struct is
    aligned and of aligned size, so [LWIP_MEM_ALIGN] rounds [offset] up. *)
Definition contiguous_payload (l : loc) (offset : Z) : ptr :=
  mk_ptr l (SIZEOF_STRUCT_PBUF + LWIP_MEM_ALIGN_SIZE offset).

(** The [do ... while (rem_len > 0)] loop of the [PBUF_POOL] case. *)
Fixpoint pbuf_alloc_pool_loop (fuel : nat) (p last : option loc) (rem_len offset : Z)
    : M store (option loc) :=
  match fuel with
  | O => fail OutOfFuel
  | S fuel =>
    let! q := memp_malloc MEMP_PBUF_POOL in
    match q with
    | None =>
        do! pbuf_pool_is_empty;
        do! (match p with
             | Some _ => let! _ := pbuf_free p in ret tt
             | None => ret tt
             end);
        ret None
    | Some l =>
        let qlen := Z.min rem_len (u16 (PBUF_POOL_BUFSIZE_ALIGNED - LWIP_MEM_ALIGN_SIZE offset)) in
        do! pbuf_init_alloced_pbuf l (Some (contiguous_payload l offset)) rem_len qlen PBUF_POOL 0;
        do! lwip_assert ((SIZEOF_STRUCT_PBUF + LWIP_MEM_ALIGN_SIZE offset) mod MEM_ALIGNMENT =? 0);
        do! lwip_assert (0 <? PBUF_POOL_BUFSIZE_ALIGNED - LWIP_MEM_ALIGN_SIZE offset);
        do! (match p, last with
             | None, _ => ret tt
             | Some _, Some t => update_pbuf t (λ r, r <| pb_next := Some l |>)
             | Some _, None => fail Undefined
             end);
        let p := match p with None => Some l | Some _ => p end in
        let rem_len := u16 (rem_len - qlen) in
        if 0 <? rem_len then pbuf_alloc_pool_loop fuel p (Some l) rem_len 0
        else ret p
    end
  end.

(** Enough for [u16_t] lengths: every pass but the last takes at least one byte. *)
Definition pool_fuel (length : Z) : nat := S (Z.to_nat length).

Definition pbuf_alloc (layer : pbuf_layer) (length : Z) (type : pbuf_type) : M store (option loc) :=
  let offset := u16 (layer_offset layer) in
  match type with
  | PBUF_REF | PBUF_ROM => pbuf_alloc_reference None length type
  | PBUF_POOL => pbuf_alloc_pool_loop (pool_fuel length) None None length offset
  | PBUF_RAM =>
      let payload_len := u16 (LWIP_MEM_ALIGN_SIZE offset + LWIP_MEM_ALIGN_SIZE length) in
      let alloc_len := u64 (LWIP_MEM_ALIGN_SIZE SIZEOF_STRUCT_PBUF + payload_len) in
      if (payload_len <? LWIP_MEM_ALIGN_SIZE length) || (alloc_len <? LWIP_MEM_ALIGN_SIZE length)
      then ret None
      else
        let! p := mem_malloc alloc_len in
        match p with
        | None => ret None
        | Some l =>
            do! pbuf_init_alloced_pbuf l (Some (contiguous_payload l offset)) length length type 0;
            do! lwip_assert ((SIZEOF_STRUCT_PBUF + LWIP_MEM_ALIGN_SIZE offset) mod MEM_ALIGNMENT =? 0);
            ret (Some l)
        end
  end.

(** ** Headers *)

(** Non-zero results are failures. *)
Definition pbuf_add_header_impl (p : option loc) (inc : Z) (force : bool) : M store Z :=
  match p with
  | None => fail AssertFailed
  | Some l =>
    if 65535 <? inc then ret 1 else
    if inc =? 0 then ret 0 else
    let! q := ask (λ s, get_pbuf s l) in
    let increment_magnitude := u16 inc in
    if u16 (increment_magnitude + pb_tot_len q) <? increment_magnitude then ret 1 else
    let contiguous := negb (Z.land (pb_type_internal q) PBUF_TYPE_FLAG_STRUCT_DATA_CONTIGUOUS =? 0) in
    let payload := (λ a, ptr_add a (- inc)) <$> pb_payload q in
    let commit :=
      do! set_pbuf l (q <| pb_payload := payload |>
                        <| pb_len := u16 (pb_len q + increment_magnitude) |>
                        <| pb_tot_len := u16 (pb_tot_len q + increment_magnitude) |>);
      ret 0 in
    if contiguous then
      match payload with
      | None => fail Undefined
      | Some a => if off a <? SIZEOF_STRUCT_PBUF then ret 1 else commit
      end
    else if force then commit
    else ret 1
  end.

Definition pbuf_add_header (p : option loc) (inc : Z) : M store Z := pbuf_add_header_impl p inc false.
Definition pbuf_add_header_force (p : option loc) (inc : Z) : M store Z := pbuf_add_header_impl p inc true.

Definition pbuf_remove_header (p : option loc) (dec : Z) : M store Z :=
  match p with
  | None => fail AssertFailed
  | Some l =>
    if 65535 <? dec then ret 1 else
    if dec =? 0 then ret 0 else
    let! q := ask (λ s, get_pbuf s l) in
    let increment_magnitude := u16 dec in
    do! lwip_error (increment_magnitude <=? pb_len q);
    do! set_pbuf l (q <| pb_payload := (λ a, ptr_add a dec) <$> pb_payload q |>
                      <| pb_len := u16 (pb_len q - increment_magnitude) |>
                      <| pb_tot_len := u16 (pb_tot_len q - increment_magnitude) |>);
    ret 0
  end.

(** [header_size_increment] is an [s16_t]; negated as a [size_t]. *)
Definition pbuf_header_impl (p : option loc) (inc : Z) (force : bool) : M store Z :=
  if inc <? 0 then pbuf_remove_header p (- inc) else pbuf_add_header_impl p inc force.
Definition pbuf_header (p : option loc) (inc : Z) : M store Z := pbuf_header_impl p inc false.
Definition pbuf_header_force (p : option loc) (inc : Z) : M store Z := pbuf_header_impl p inc true.

(** Drops [free_left] bytes from the front, releasing the pbufs it empties. *)
Fixpoint pbuf_free_header_loop (fuel : nat) (p : option loc) (free_left : Z) : M store (option loc) :=
  if free_left =? 0 then ret p else
  match p with
  | None => ret None
  | Some l =>
    match fuel with
    | O => fail OutOfFuel
    | S fuel =>
      let! q := ask (λ s, get_pbuf s l) in
      if pb_len q <=? free_left then
        do! update_pbuf l (λ q, q <| pb_next := None |>);
        let! _ := pbuf_free (Some l) in
        pbuf_free_header_loop fuel (pb_next q) (u16 (free_left - pb_len q))
      else
        let! _ := pbuf_remove_header p free_left in
        ret p
    end
  end.
Definition pbuf_free_header (p : option loc) (size : Z) : M store (option loc) :=
  λ s, pbuf_free_header_loop (chain_fuel s) p size s.

(** ** Chains *)

Fixpoint pbuf_clen_loop (fuel : nat) (s : store) (p : option loc) (n : Z) : res Z :=
  match p with
  | None => Val n
  | Some l =>
    match fuel with
    | O => Err OutOfFuel
    | S fuel => let* q := get_pbuf s l in pbuf_clen_loop fuel s (pb_next q) (u16 (n + 1))
    end
  end.
Definition pbuf_clen (s : store) (p : option loc) : res Z := pbuf_clen_loop (chain_fuel s) s p 0.

(** Adds [t_tot] to the [tot_len] of every pbuf but the last, and returns the last. *)
Fixpoint pbuf_cat_loop (fuel : nat) (l : loc) (t : loc) : M store loc :=
  match fuel with
  | O => fail OutOfFuel
  | S fuel =>
    let! q := ask (λ s, get_pbuf s l) in
    match pb_next q with
    | None => ret l
    | Some n =>
        let! tq := ask (λ s, get_pbuf s t) in
        do! set_pbuf l (q <| pb_tot_len := u16 (pb_tot_len q + pb_tot_len tq) |>);
        pbuf_cat_loop fuel n t
    end
  end.

Definition pbuf_cat (h t : option loc) : M store unit :=
  match h, t with
  | Some h, Some t =>
      let! fuel := gets chain_fuel in
      let! p := pbuf_cat_loop fuel h t in
      let! q := ask (λ s, get_pbuf s p) in
      do! lwip_assert (pb_tot_len q =? pb_len q);
      do! lwip_assert (bool_decide (pb_next q = None));
      let! tq := ask (λ s, get_pbuf s t) in
      set_pbuf p (q <| pb_tot_len := u16 (pb_tot_len q + pb_tot_len tq) |> <| pb_next := Some t |>)
  | _, _ => fail AssertFailed
  end.

Definition pbuf_chain (h t : option loc) : M store unit :=
  do! pbuf_cat h t; pbuf_ref t.

Definition pbuf_dechain (p : loc) : M store (option loc) :=
  let! q := ask (λ s, get_pbuf s p) in
  let! tail_gone :=
    match pb_next q with
    | None => ret 1
    | Some t =>
        let! tq := ask (λ s, get_pbuf s t) in
        do! lwip_assert (pb_tot_len tq =? pb_tot_len q - pb_len q);
        do! set_pbuf t (tq <| pb_tot_len := u16 (pb_tot_len q - pb_len q) |>);
        do! update_pbuf p (λ q, q <| pb_next := None |> <| pb_tot_len := pb_len q |>);
        pbuf_free (Some t)
    end in
  let! q' := ask (λ s, get_pbuf s p) in
  do! lwip_assert (pb_tot_len q' =? pb_len q');
  ret (if 0 <? tail_gone then None else pb_next q).

(** ** Shrinking *)

(** Steps over the pbufs that stay whole; returns the one to cut and its new length. *)
Fixpoint pbuf_realloc_loop (fuel : nat) (l : loc) (rem_len shrink : Z) : M store (loc * Z) :=
  match fuel with
  | O => fail OutOfFuel
  | S fuel =>
    let! q := ask (λ s, get_pbuf s l) in
    if pb_len q <? rem_len then
      do! set_pbuf l (q <| pb_tot_len := u16 (pb_tot_len q - shrink) |>);
      match pb_next q with
      | None => fail AssertFailed
      | Some n => pbuf_realloc_loop fuel n (u16 (rem_len - pb_len q)) shrink
      end
    else ret (l, rem_len)
  end.

Definition pbuf_realloc (p : option loc) (new_len : Z) : M store unit :=
  match p with
  | None => fail AssertFailed
  | Some l =>
    let! h := ask (λ s, get_pbuf s l) in
    if pb_tot_len h <=? new_len then ret tt else
    let shrink := u16 (pb_tot_len h - new_len) in
    let! fuel := gets chain_fuel in
    let! '(l, rem_len) := pbuf_realloc_loop fuel l new_len shrink in
    let! q := ask (λ s, get_pbuf s l) in
    let! l :=
      (if pbuf_match_allocsrc q PBUF_TYPE_ALLOC_SRC_MASK_STD_HEAP && negb (rem_len =? pb_len q)
       then
         match pb_payload q with
         | None => fail Undefined
         | Some a => mem_trim l (u64 (off a + rem_len))
         end
       else ret l) in
    do! update_pbuf l (λ q, q <| pb_len := rem_len |> <| pb_tot_len := rem_len |>);
    do! (match pb_next q with
         | None => ret tt
         | Some n => let! _ := pbuf_free (Some n) in ret tt
         end);
    update_pbuf l (λ q, q <| pb_next := None |>)
  end.

(** ** Splitting a chain whose length does not fit 16 bits *)

Fixpoint split_64k_scan (fuel : nat) (i : loc) (r : option loc) (tot_len_front : Z) (s : store)
    : res (loc * option loc) :=
  match r with
  | None => Val (i, r)
  | Some l =>
    match fuel with
    | O => Err OutOfFuel
    | S fuel =>
      let* q := get_pbuf s l in
      if tot_len_front <=? u16 (tot_len_front + pb_len q)
      then split_64k_scan fuel l (pb_next q) (u16 (tot_len_front + pb_len q)) s
      else Val (i, r)
    end
  end.

(** Subtracts the rest's length from the [tot_len]s of the front part. *)
Fixpoint split_64k_fix (fuel : nat) (i : option loc) (r : loc) : M store unit :=
  match i with
  | None => ret tt
  | Some l =>
    match fuel with
    | O => fail OutOfFuel
    | S fuel =>
      let! rq := ask (λ s, get_pbuf s r) in
      let! q := ask (λ s, get_pbuf s l) in
      let q' := q <| pb_tot_len := u16 (pb_tot_len q - pb_tot_len rq) |> in
      do! set_pbuf l q';
      do! lwip_assert (bool_decide (pb_next q' ≠ None) || (pb_tot_len q' =? pb_len q'));
      split_64k_fix fuel (pb_next q') r
    end
  end.

(** The result is the value stored through [rest]. *)
Definition pbuf_split_64k (p : option loc) : M store (option loc) :=
  match p with
  | None => ret None
  | Some l =>
    let! q := ask (λ s, get_pbuf s l) in
    match pb_next q with
    | None => ret None
    | Some n =>
      let! fuel := gets chain_fuel in
      let! '(i, r) := ask (split_64k_scan fuel l (Some n) (pb_len q)) in
      do! update_pbuf i (λ q, q <| pb_next := None |>);
      match r with
      | None => ret None
      | Some rl =>
          do! split_64k_fix fuel p rl;
          let! q := ask (λ s, get_pbuf s l) in
          do! (if negb (Z.land (pb_flags q) PBUF_FLAG_TCP_FIN =? 0)
               then update_pbuf rl (λ q, q <| pb_flags := Z.lor (pb_flags q) PBUF_FLAG_TCP_FIN |>)
               else ret tt);
          ret r
      end
    end
  end.
