(* ===== verification/PbufData.v ===== *)
(** * Packet buffers: reading, writing and copying payloads ([core/pbuf.c])

    Application buffers are values of type [list Z], [None] where the code
    tests for a null pointer; the results carry the buffer after the call. *)

From S2P Require Import Prelude Mbox Heap Pbuf.

Implicit Types s : store.

(** ** [pbuf_skip] *)

Fixpoint pbuf_skip_loop (fuel : nat) (s : store) (q : option loc) (offset_left : Z)
    : res (option loc * Z) :=
  match q with
  | None => Val (None, offset_left)
  | Some l =>
    match fuel with
    | O => Err OutOfFuel
    | S fuel =>
      let* c := get_pbuf s l in
      if pb_len c <=? offset_left
      then pbuf_skip_loop fuel s (pb_next c) (u16 (offset_left - pb_len c))
      else Val (q, offset_left)
    end
  end.

(** The pbuf in which the offset lies, and the offset in it. *)
Definition pbuf_skip_const (s : store) (i : option loc) (in_offset : Z) : res (option loc * Z) :=
  pbuf_skip_loop (chain_fuel s) s i in_offset.
Definition pbuf_skip (s : store) (i : option loc) (in_offset : Z) : res (option loc * Z) :=
  pbuf_skip_const s i in_offset.

(** ** Single bytes *)

Definition pbuf_try_get_at (s : store) (p : option loc) (offset : Z) : res Z :=
  let* '(q, q_idx) := pbuf_skip_const s p offset in
  match q with
  | None => Val (-1)
  | Some l =>
      let* c := get_pbuf s l in
      if q_idx <? pb_len c then
        let* bs := mem_read s (pb_payload c) q_idx 1 in
        match bs with [b] => Val b | _ => Err Undefined end
      else Val (-1)
  end.

Definition pbuf_get_at (s : store) (p : option loc) (offset : Z) : res Z :=
  let* r := pbuf_try_get_at s p offset in
  Val (if 0 <=? r then u8 r else 0).

Definition pbuf_put_at (p : option loc) (offset data : Z) : M store unit :=
  let! '(q, q_idx) := ask (λ s, pbuf_skip s p offset) in
  match q with
  | None => ret tt
  | Some l =>
      let! c := ask (λ s, get_pbuf s l) in
      if q_idx <? pb_len c then mem_write (pb_payload c) q_idx [data] else ret tt
  end.

(** ** Copying out *)

Fixpoint pbuf_copy_partial_loop (fuel : nat) (s : store) (p : option loc)
    (dst : list Z) (left copied_total len offset : Z) : res (Z * list Z) :=
  if len =? 0 then Val (copied_total, dst) else
  match p with
  | None => Val (copied_total, dst)
  | Some l =>
    match fuel with
    | O => Err OutOfFuel
    | S fuel =>
      let* c := get_pbuf s l in
      if negb (offset =? 0) && (pb_len c <=? offset) then
        pbuf_copy_partial_loop fuel s (pb_next c) dst left copied_total len
                               (u16 (offset - pb_len c))
      else
        let buf_copy_len := u16 (pb_len c - offset) in
        let buf_copy_len := if len <? buf_copy_len then len else buf_copy_len in
        let* bs := mem_read s (pb_payload c) offset buf_copy_len in
        let* dst := buf_write dst left bs in
        pbuf_copy_partial_loop fuel s (pb_next c) dst (u16 (left + buf_copy_len))
          (u16 (copied_total + buf_copy_len)) (u16 (len - buf_copy_len)) 0
    end
  end.

(** The number of bytes copied and the buffer afterwards. *)
Definition pbuf_copy_partial (s : store) (buf : option loc) (dataptr : option (list Z))
    (len offset : Z) : res (Z * list Z) :=
  do* res_assert (bool_decide (buf ≠ None));
  match dataptr with
  | None => Err AssertFailed
  | Some dst => pbuf_copy_partial_loop (chain_fuel s) s buf dst 0 0 len offset
  end.

(** A pointer into the packet, or the caller's buffer with a copy. *)
Inductive contiguous := In_pbuf (a : option ptr) | In_buffer (b : list Z).

Definition pbuf_get_contiguous (s : store) (p : option loc) (buffer : option (list Z))
    (bufsize len offset : Z) : res (option contiguous) :=
  do* res_assert (bool_decide (p ≠ None));
  do* res_assert (bool_decide (buffer ≠ None));
  do* res_assert (len <=? bufsize);
  let* '(q, out_offset) := pbuf_skip_const s p offset in
  match q with
  | None => Val None
  | Some l =>
      let* c := get_pbuf s l in
      if out_offset + len <=? pb_len c
      then Val (Some (In_pbuf ((λ a, ptr_add a out_offset) <$> pb_payload c)))
      else
        let* '(n, b) := pbuf_copy_partial s q buffer len out_offset in
        if negb (n =? len) then Val None else Val (Some (In_buffer b))
  end.

(** ** Copying in *)

(** [dataptr] is the whole source buffer, [copied_total] the index reached in it. *)
Fixpoint pbuf_take_loop (fuel : nat) (p : option loc) (dataptr : list Z)
    (total_copy_len copied_total : Z) : M store Z :=
  if total_copy_len =? 0 then ret copied_total else
  match p with
  | None => fail AssertFailed
  | Some l =>
    match fuel with
    | O => fail OutOfFuel
    | S fuel =>
      let! c := ask (λ s, get_pbuf s l) in
      let buf_copy_len := if pb_len c <? total_copy_len then pb_len c else total_copy_len in
      let! bs := ask (λ _, buf_read dataptr copied_total buf_copy_len) in
      do! mem_write (pb_payload c) 0 bs;
      pbuf_take_loop fuel (pb_next c) dataptr (total_copy_len - buf_copy_len)
                     (copied_total + buf_copy_len)
    end
  end.

Definition pbuf_take (buf : option loc) (dataptr : option (list Z)) (len : Z) : M store err_t :=
  match buf, dataptr with
  | Some l, Some data =>
      let! c := ask (λ s, get_pbuf s l) in
      do! lwip_error (len <=? pb_tot_len c);
      let! fuel := gets chain_fuel in
      let! copied := pbuf_take_loop fuel buf data len 0 in
      do! lwip_assert (copied =? len);
      ret ERR_OK
  | _, _ => fail AssertFailed
  end.

Definition pbuf_take_at (buf : option loc) (dataptr : list Z) (len offset : Z) : M store err_t :=
  let! '(q, target_offset) := ask (λ s, pbuf_skip s buf offset) in
  match q with
  | None => ret ERR_MEM
  | Some l =>
      let! c := ask (λ s, get_pbuf s l) in
      if target_offset + len <=? pb_tot_len c then
        do! lwip_assert (target_offset <? pb_len c);
        let first_copy_len := u16 (Z.min (pb_len c - target_offset) len) in
        let! bs := ask (λ _, buf_read dataptr 0 first_copy_len) in
        do! mem_write (pb_payload c) target_offset bs;
        let remaining_len := u16 (len - first_copy_len) in
        if 0 <? remaining_len
        then pbuf_take (pb_next c) (Some (zdrop first_copy_len dataptr)) remaining_len
        else ret ERR_OK
      else ret ERR_MEM
  end.

(** ** Copying packets *)

(** "Don't copy more than one packet": the last pbuf of a packet ends the chain. *)
Definition check_no_queue (p : option loc) : M store unit :=
  match p with
  | None => ret tt
  | Some l =>
      let! c := ask (λ s, get_pbuf s l) in
      if pb_len c =? pb_tot_len c then lwip_error (bool_decide (pb_next c = None)) else ret tt
  end.

Fixpoint pbuf_copy_loop (fuel : nat) (p_to p_from : option loc) (offset_to offset_from : Z)
    : M store err_t :=
  match fuel with
  | O => fail OutOfFuel
  | S fuel =>
    let! to := ask (λ s, let* l := deref p_to in get_pbuf s l) in
    let! from := ask (λ s, let* l := deref p_from in get_pbuf s l) in
    let len := if u64 (pb_len from - offset_from) <=? u64 (pb_len to - offset_to)
               then u64 (pb_len from - offset_from) else u64 (pb_len to - offset_to) in
    let! bs := ask (λ s, mem_read s (pb_payload from) offset_from len) in
    do! mem_write (pb_payload to) offset_to bs;
    let offset_to := offset_to + len in
    let offset_from := offset_from + len in
    do! lwip_assert (offset_to <=? pb_len to);
    do! lwip_assert (offset_from <=? pb_len from);
    let '(offset_from, p_from) :=
      if pb_len from <=? offset_from then (0, pb_next from) else (offset_from, p_from) in
    let! '(offset_to, p_to) :=
      (if offset_to =? pb_len to then
         do! lwip_error (bool_decide (pb_next to ≠ None) || bool_decide (p_from = None));
         ret (0, pb_next to)
       else ret (offset_to, p_to)) in
    do! check_no_queue p_from;
    do! check_no_queue p_to;
    match p_from with
    | None => ret ERR_OK
    | Some _ => pbuf_copy_loop fuel p_to p_from offset_to offset_from
    end
  end.

(** Every pass ends a pbuf of one of the two chains. *)
Definition copy_fuel (s : store) : nat := chain_fuel s + chain_fuel s.

Definition pbuf_copy (p_to p_from : option loc) : M store err_t :=
  match p_to, p_from with
  | Some t, Some f =>
      let! to := ask (λ s, get_pbuf s t) in
      let! from := ask (λ s, get_pbuf s f) in
      do! lwip_error (pb_tot_len from <=? pb_tot_len to);
      let! fuel := gets copy_fuel in
      pbuf_copy_loop fuel p_to p_from 0 0
  | _, _ => fail AssertFailed
  end.

Definition pbuf_clone (layer : pbuf_layer) (type : pbuf_type) (p : loc) : M store (option loc) :=
  let! c := ask (λ s, get_pbuf s p) in
  let! q := pbuf_alloc layer (pb_tot_len c) type in
  match q with
  | None => ret None
  | Some _ =>
      let! err := pbuf_copy q (Some p) in
      do! lwip_assert (is_ok err);
      ret q
  end.

Definition pbuf_coalesce (p : loc) (layer : pbuf_layer) : M store loc :=
  let! c := ask (λ s, get_pbuf s p) in
  match pb_next c with
  | None => ret p
  | Some _ =>
      let! q := pbuf_clone layer PBUF_RAM p in
      match q with
      | None => ret p
      | Some q => let! _ := pbuf_free (Some p) in ret q
      end
  end.

(** ** Comparing and searching *)

(** The comparison loop of [pbuf_memcmp]: [n] bytes are left to compare. *)
Fixpoint pbuf_memcmp_loop (n : nat) (s : store) (q : option loc) (start i : Z) (s2 : list Z) : res Z :=
  match n with
  | O => Val 0
  | S n =>
      let* a := pbuf_get_at s q (u16 (start + i)) in
      let* b := deref (zget s2 i) in
      if negb (a =? b) then Val (u16 (Z.min (i + 1) 65535))
      else pbuf_memcmp_loop n s q start (i + 1) s2
  end.

(** Zero if equal; 0xffff if [p] is too short; else one more than the index of
    the first difference. *)
Definition pbuf_memcmp (s : store) (p : loc) (offset : Z) (s2 : list Z) (n : Z) : res Z :=
  let* c := get_pbuf s p in
  if pb_tot_len c <? offset + n then Val 65535 else
  let* '(q, start) := pbuf_skip_loop (chain_fuel s) s (Some p) offset in
  pbuf_memcmp_loop (Z.to_nat n) s q start 0 s2.

Fixpoint pbuf_memfind_loop (fuel : nat) (s : store) (p : loc) (mem : list Z)
    (mem_len i max_cmp_start : Z) : res Z :=
  if max_cmp_start <? i then Val 65535 else
  match fuel with
  | O => Err OutOfFuel
  | S fuel =>
      let* plus := pbuf_memcmp s p i mem mem_len in
      if plus =? 0 then Val i
      else pbuf_memfind_loop fuel s p mem mem_len (u16 (i + 1)) max_cmp_start
  end.

(** The start indices are [u16_t]. *)
Definition memfind_fuel : nat := Z.to_nat (2 ^ 16).

Definition pbuf_memfind (s : store) (p : loc) (mem : list Z) (mem_len start_offset : Z) : res Z :=
  let* c := get_pbuf s p in
  let max_cmp_start := u16 (pb_tot_len c - mem_len) in
  if mem_len + start_offset <=? pb_tot_len c
  then pbuf_memfind_loop memfind_fuel s p mem mem_len start_offset max_cmp_start
  else Val 65535.

(** [substr] is a C string without its terminator. *)
Definition pbuf_strstr (s : store) (p : loc) (substr : option (list Z)) : res Z :=
  match substr with
  | None | Some [] => Val 65535
  | Some sub =>
      let* c := get_pbuf s p in
      if pb_tot_len c =? 65535 then Val 65535 else
      if 65535 <=? zlen sub then Val 65535
      else pbuf_memfind s p sub (u16 (zlen sub)) 0
  end.
