(* ===== verification/Packet.v ===== *)
(** * Well-formed packets

    [packet s p cs]: in the heap [s], [p] heads a chain of pbufs whose cells,
    in order, are [cs]; every [tot_len] is the length of the data from there on,
    and every payload is readable.  The specifications of [core/pbuf.c] are
    stated with it. *)

From S2P Require Import Prelude Mbox Heap HeapFacts Pbuf.

Implicit Types s : store.

(** A pbuf of a chain: its address, its struct and its payload bytes. *)
Record cell := mk_cell { c_loc : loc; c_pbuf : pbuf; c_data : list Z }.

Definition bytes (cs : list cell) : list Z := concat (map c_data cs).
Definition total (cs : list cell) : Z := zlen (bytes cs).
Definition locs (cs : list cell) : list loc := c_loc <$> cs.

(** The payload of [q] is [d]. *)
Definition has_payload s (q : pbuf) (d : list Z) : Prop :=
  zlen d = pb_len q ∧ mem_read s (pb_payload q) 0 (pb_len q) = Val d.

(** The pbufs from [p] up to, not including, [r]. *)
Fixpoint lseg s (p : option loc) (cs : list cell) (r : option loc) : Prop :=
  match cs with
  | [] => p = r
  | c :: cs =>
      p = Some (c_loc c) ∧ pbufs s !! c_loc c = Some (c_pbuf c) ∧
      has_payload s (c_pbuf c) (c_data c) ∧ lseg s (pb_next (c_pbuf c)) cs r
  end.

(** The pointers alone: [lseg] without the payloads. *)
Fixpoint links s (p : option loc) (cs : list cell) (r : option loc) : Prop :=
  match cs with
  | [] => p = r
  | c :: cs =>
      p = Some (c_loc c) ∧ pbufs s !! c_loc c = Some (c_pbuf c) ∧
      links s (pb_next (c_pbuf c)) cs r
  end.

(** [tot_len] is the length of the data of this pbuf and the following ones. *)
Fixpoint tots (cs : list cell) : Prop :=
  match cs with
  | [] => True
  | c :: cs => pb_tot_len (c_pbuf c) = total (c :: cs) ∧ tots cs
  end.

Definition cell_ok (c : cell) : Prop := 1 ≤ pb_ref (c_pbuf c) < 256.

Record packet s (p : option loc) (cs : list cell) : Prop := {
  packet_seg : lseg s p cs None;
  packet_tots : tots cs;
  packet_size : total cs < 2 ^ 16;
  packet_cells : Forall cell_ok cs
}.

Lemma bytes_cons c cs : bytes (c :: cs) = c_data c ++ bytes cs.
Proof. done. Qed.
Lemma bytes_app cs1 cs2 : bytes (cs1 ++ cs2) = bytes cs1 ++ bytes cs2.
Proof. unfold bytes. by rewrite map_app, concat_app. Qed.
Lemma total_nil : total [] = 0.
Proof. done. Qed.
Lemma total_cons c cs : total (c :: cs) = zlen (c_data c) + total cs.
Proof. unfold total. by rewrite bytes_cons, zlen_app. Qed.
Lemma total_app cs1 cs2 : total (cs1 ++ cs2) = total cs1 + total cs2.
Proof. unfold total. by rewrite bytes_app, zlen_app. Qed.
Lemma total_nonneg cs : 0 ≤ total cs.
Proof. apply zlen_nonneg. Qed.

Lemma has_payload_len s q d : has_payload s q d → pb_len q = zlen d.
Proof. by intros [-> _]. Qed.

(** ** Segments *)

Lemma lseg_links s p cs r : lseg s p cs r → links s p cs r.
Proof.
  revert p. induction cs as [|c cs IH]; intros p; [done|].
  intros (-> & Hl & _ & Hs). simpl. auto.
Qed.

Lemma links_frame s s' p cs r :
  links s p cs r → (∀ l, l ∈ locs cs → pbufs s' !! l = pbufs s !! l) → links s' p cs r.
Proof.
  revert p. induction cs as [|c cs IH]; intros p Hs Hp; [done|].
  destruct Hs as (-> & Hl & Hs). simpl. split_and!; [done| |].
  - rewrite Hp; [done|]. apply elem_of_cons. by left.
  - apply IH; [done|]. intros l Hin. apply Hp, elem_of_cons. by right.
Qed.

Lemma lseg_app s p cs1 cs2 r :
  lseg s p (cs1 ++ cs2) r ↔ ∃ m, lseg s p cs1 m ∧ lseg s m cs2 r.
Proof.
  revert p. induction cs1 as [|c cs1 IH]; intros p; simpl.
  - split; [by exists p|by intros (? & -> & ?)].
  - rewrite IH. split.
    + intros (? & ? & ? & m & ? & ?). by exists m.
    + intros (m & (? & ? & ? & ?) & ?). split_and!; try done. by exists m.
Qed.

Lemma lseg_head s p c cs r :
  lseg s p (c :: cs) r → p = Some (c_loc c) ∧ pbufs s !! c_loc c = Some (c_pbuf c).
Proof. simpl. tauto. Qed.

(** A chain visits no pbuf twice: from a pbuf there is one way to the end. *)
Lemma lseg_unique s p cs cs' : lseg s p cs None → lseg s p cs' None → cs = cs'.
Proof.
  revert p cs'. induction cs as [|[l q d] cs IH]; intros p [|[l' q' d'] cs']; simpl;
    [done|by intros -> (? & _)|by intros (-> & _) ?|].
  intros (-> & Hl & Hp & Hs) (Hll & Hl' & Hp' & Hs').
  injection Hll as <-. simplify_eq. destruct Hp as [_ Hp], Hp' as [_ Hp'].
  rewrite Hp in Hp'. injection Hp' as <-. f_equal. by apply (IH (pb_next q)).
Qed.

Lemma lseg_nodup s p cs : lseg s p cs None → NoDup (locs cs).
Proof.
  revert p. induction cs as [|c cs IH]; intros p Hs; [constructor|].
  pose proof Hs as (-> & Hl & Hp & Htl). constructor; [|by apply (IH (pb_next (c_pbuf c)))].
  intros (c' & Hc' & (a & b & ->)%list_elem_of_split)%list_elem_of_fmap.
  apply lseg_app in Htl as (m & _ & Htl). pose proof Htl as (-> & _).
  rewrite <- Hc' in Htl. assert (c :: a ++ c' :: b = c' :: b) as Heq by by eapply lseg_unique.
  apply (f_equal length) in Heq. rewrite length_cons, length_app in Heq. simpl in Heq. lia.
Qed.

Lemma lseg_in s p cs r c : lseg s p cs r → c ∈ cs → pbufs s !! c_loc c = Some (c_pbuf c).
Proof.
  revert p. induction cs as [|c' cs IH]; intros p Hs Hc; [by apply not_elem_of_nil in Hc|].
  destruct Hs as (_ & Hl & _ & Hs). apply elem_of_cons in Hc as [->|Hc]; [done|by eapply IH].
Qed.

(** A chain has at most as many pbufs as the heap, so [chain_fuel] exceeds its length. *)
Lemma lseg_fuel s p cs : lseg s p cs None → (length cs < chain_fuel s)%nat.
Proof.
  intros Hs. pose proof (lseg_nodup _ _ _ Hs) as Hnd. unfold chain_fuel.
  assert (list_to_set (locs cs) ⊆ dom (pbufs s)) as Hsub.
  { intros l. rewrite elem_of_list_to_set. intros (c & -> & Hc)%list_elem_of_fmap.
    rewrite (elem_of_dom (pbufs s)), (lseg_in _ _ _ _ _ Hs Hc). by eexists. }
  apply subseteq_size in Hsub. rewrite size_dom, size_list_to_set in Hsub by done.
  unfold locs in Hsub. rewrite length_fmap in Hsub. lia.
Qed.

(** ** What a segment depends on *)

(** The blocks the payloads of the cells lie in. *)
Fixpoint data_blocks (cs : list cell) : list loc :=
  match cs with
  | [] => []
  | c :: cs => match pb_payload (c_pbuf c) with
               | Some a => blk a :: data_blocks cs
               | None => data_blocks cs
               end
  end.

Lemma lseg_frame s s' p cs r :
  lseg s p cs r →
  (∀ l, l ∈ locs cs → pbufs s' !! l = pbufs s !! l) →
  (∀ b, b ∈ data_blocks cs → blocks s' !! b = blocks s !! b) →
  lseg s' p cs r.
Proof.
  revert p. induction cs as [|c cs IH]; intros p Hs Hp Hb; [done|].
  destruct Hs as (-> & Hl & [Hlen Hrd] & Hs). simpl. split_and!; [done| | |].
  - rewrite Hp; [done|]. apply elem_of_cons. by left.
  - split; [done|]. rewrite <- Hrd. apply mem_read_ext. intros a Ha. apply Hb.
    simpl. rewrite Ha. apply elem_of_cons. by left.
  - apply IH; [done|..].
    + intros l Hin. apply Hp, elem_of_cons. by right.
    + intros b Hin. apply Hb. simpl. case_match; [|done]. apply elem_of_cons. by right.
Qed.

(** The cells of a packet whose payloads follow their structs, as those of
    [PBUF_RAM] and [PBUF_POOL] do. *)
Definition own_data (c : cell) : Prop :=
  ∃ o, pb_payload (c_pbuf c) = Some (mk_ptr (c_loc c) o) ∧ SIZEOF_STRUCT_PBUF ≤ o.

Lemma own_data_blocks cs : Forall own_data cs → data_blocks cs = locs cs.
Proof.
  induction 1 as [|c cs (o & Ho & _) _ IH]; [done|].
  simpl. by rewrite Ho, IH.
Qed.

Lemma packet_tail s p c cs :
  packet s p (c :: cs) → packet s (pb_next (c_pbuf c)) cs.
Proof.
  intros [(_ & _ & _ & Hs) [_ Ht] Hz Hc]. inversion Hc; subst. split; try done.
  rewrite total_cons in Hz. pose proof (zlen_nonneg (c_data c)). lia.
Qed.

Lemma packet_head_len s p c cs :
  packet s p (c :: cs) →
  pb_len (c_pbuf c) = zlen (c_data c) ∧ pb_tot_len (c_pbuf c) = zlen (c_data c) + total cs ∧
  0 ≤ zlen (c_data c) ∧ 0 ≤ total cs ∧ zlen (c_data c) + total cs < 65536.
Proof.
  intros [(_ & _ & Hd & _) [Ht _] Hz _].
  rewrite total_cons in Ht, Hz. pose proof (zlen_nonneg (c_data c)). pose proof (total_nonneg cs).
  apply has_payload_len in Hd. bounds. lia.
Qed.

(** ** Two packets in a concrete heap *)

Definition ex_cell1 : cell :=
  mk_cell 1 (mk_pbuf (Some 2%positive) (Some (mk_ptr 1 64)) 5 3 130 0 1 0) [1; 2; 3].
Definition ex_cell2 : cell := mk_cell 2 (mk_pbuf None (Some (mk_ptr 2 24)) 2 2 130 0 1 0) [4; 5].
Definition ex_cell3 : cell := mk_cell 3 (mk_pbuf None (Some (mk_ptr 3 24)) 2 2 128 0 1 0) [6; 7].

Definition ex_store : store :=
  mk_store (<[1%positive := c_pbuf ex_cell1]> (<[2%positive := c_pbuf ex_cell2]> {[3%positive := c_pbuf ex_cell3]}))
    (<[1%positive := replicate 64 0 ++ [1; 2; 3]]>
      (<[2%positive := replicate 24 0 ++ [4; 5]]> {[3%positive := replicate 24 0 ++ [6; 7]]}))
    4 [] ∅ sys_mbox_new false.

Lemma ex_packet : packet ex_store (Some 1%positive) [ex_cell1; ex_cell2].
Proof. split; [done|done|done|]. by repeat constructor. Qed.
Lemma ex_packet3 : packet ex_store (Some 3%positive) [ex_cell3].
Proof. split; [done|done|done|]. by repeat constructor. Qed.

Lemma ex_own : Forall own_data [ex_cell1; ex_cell2].
Proof. repeat constructor; by eexists. Qed.

Lemma ex_heap_ok : heap_ok ex_store.
Proof.
  intros l Hl. simpl in *. rewrite !lookup_insert_ne, !lookup_singleton_ne, lookup_empty by lia. done.
Qed.

Lemma ex_mbox : mbox_holds ex_store [].
Proof. split; [apply Seq.ring_new|done]. Qed.
