(* ===== verification/PbufFacts.v ===== *)
(** * What [core/pbuf.c] does to packets: reference counts, headers, chains *)

From S2P Require Import Prelude Mbox Heap HeapFacts Pbuf Packet.

Implicit Types s : store.

(** ** Freeing *)

(** [release l s]: the pbuf at [l] is given back. *)
Definition release (l : loc) (s : store) : store :=
  s <| pbufs := delete l (pbufs s) |> <| blocks := delete l (blocks s) |>
    <| tcpip_msgs := delete l (tcpip_msgs s) |>.

(** What [pbuf_free] promises: walking down the chain, a pbuf whose only
    reference is the chain's is released; the first shared one loses one
    reference, and nothing behind it is touched. *)
Fixpoint free_cells (cs : list cell) (s : store) : Z * store :=
  match cs with
  | [] => (0, s)
  | c :: cs =>
      if pb_ref (c_pbuf c) =? 1 then
        let '(n, s') := free_cells cs (release (c_loc c) s) in (1 + n, s')
      else (0, s <| pbufs := <[c_loc c := (c_pbuf c) <| pb_ref := pb_ref (c_pbuf c) - 1 |>]> (pbufs s) |>)
  end.

(** The allocation sources [pbuf_free] knows, and the block behind the struct. *)
Definition freeable s (c : cell) : Prop :=
  pbuf_get_allocsrc (c_pbuf c) ∈ [0; 1; 2] ∧ is_Some (blocks s !! c_loc c).

Lemma release_set l q s : release l (s <| pbufs := <[l := q]> (pbufs s) |>) = release l s.
Proof. unfold release. simpl. by rewrite delete_insert_eq. Qed.

Lemma runs_release s l a (Q : unit → store → Prop) :
  a ∈ [0; 1; 2] → is_Some (blocks s !! l) → Q tt (release l s) →
  runs (if a =? PBUF_TYPE_ALLOC_SRC_MASK_STD_MEMP_PBUF_POOL
        then memp_free MEMP_PBUF_POOL (Some l)
        else if a =? PBUF_TYPE_ALLOC_SRC_MASK_STD_MEMP_PBUF
        then memp_free MEMP_PBUF (Some l)
        else if a =? PBUF_TYPE_ALLOC_SRC_MASK_STD_HEAP
        then mem_free (Some l)
        else lwip_assert false) s Q.
Proof.
  intros Ha [b Hb] HQ.
  assert (runs (free l) s Q) by (unfold runs, free; by rewrite Hb).
  rewrite !elem_of_cons in Ha. by destruct Ha as [->|[->|[->|[]%elem_of_nil]]].
Qed.

Lemma release_ne l l' s : l ≠ l' →
  pbufs (release l s) !! l' = pbufs s !! l' ∧ blocks (release l s) !! l' = blocks s !! l'.
Proof. intros. unfold release. simpl. by rewrite !lookup_delete_ne. Qed.

Lemma links_release s l p cs r :
  links s p cs r → l ∉ locs cs → links (release l s) p cs r.
Proof.
  intros Hs Hl. eapply links_frame; [done|]. intros l' Hin.
  apply release_ne. by intros ->.
Qed.

Lemma freeable_release s l cs :
  Forall (freeable s) cs → l ∉ locs cs → Forall (freeable (release l s)) cs.
Proof.
  rewrite !Forall_forall. intros Hf Hl c Hc. destruct (Hf c Hc) as [Ha Hb]. split; [done|].
  assert (l ≠ c_loc c) as Hne by (intros ->; apply Hl, list_elem_of_fmap; eauto).
  by rewrite (proj2 (release_ne _ _ s Hne)).
Qed.

Lemma pbuf_free_loop_spec fuel s p cs n :
  links s p cs None → NoDup (locs cs) → Forall cell_ok cs → Forall (freeable s) cs →
  (length cs < fuel)%nat → is_u8 n →
  runs (pbuf_free_loop fuel p n) s
    (λ k s', k = u8 (n + (free_cells cs s).1) ∧ s' = (free_cells cs s).2).
Proof.
  revert fuel s p n. induction cs as [|c cs IH]; intros fuel s p n Hs Hnd Hok Hfr Hfuel Hn.
  { simpl in Hs. subst p. destruct fuel; simpl; apply runs_ret; split; try done; wrap_lia. }
  destruct fuel as [|fuel]; [simpl in Hfuel; lia|].
  destruct Hs as (-> & Hl & Hs). inversion Hnd as [|? ? Hni Hnd']; subst.
  inversion Hok as [|? ? Hr Hok']; subst. inversion Hfr as [|? ? [Ha Hb] Hfr']; subst.
  unfold cell_ok in Hr. simpl pbuf_free_loop.
  apply runs_bind. eapply runs_get_pbuf; [done|]. apply runs_bind.
  apply runs_assert; [apply Z.ltb_lt; lia|].
  apply runs_bind. eapply runs_set_pbuf; [done|]. simpl free_cells.
  destruct (pb_ref (c_pbuf c) =? 1) eqn:E; bool_prop.
  - rewrite E. change (u8 (1 - 1)) with 0. cbv zeta. simpl Z.eqb. cbn match.
    apply runs_bind. apply runs_release; [done..|]. rewrite release_set.
    destruct (free_cells cs (release (c_loc c) s)) as [k s'] eqn:Ef.
    eapply runs_mono; [apply (IH fuel (release (c_loc c) s)); auto using links_release, freeable_release with lwip|].
    { simpl in Hfuel. lia. }
    rewrite Ef. simpl. intros a s'' [-> ->]. split; [|done]. wrap_lia.
  - rewrite (proj2 (Z.eqb_neq _ _)) by wrap_lia. apply runs_ret. simpl. split; [wrap_lia|].
    unwrap. done.
Qed.

(** ** What freeing leaves *)

(** [gone ls s s']: the pbufs at [ls] and their blocks are released, the rest
    of the memory is as it was. *)
Definition gone (ls : list loc) s s' : Prop :=
  (∀ l, pbufs s' !! l = if decide (l ∈ ls) then None else pbufs s !! l) ∧
  (∀ l, blocks s' !! l = if decide (l ∈ ls) then None else blocks s !! l) ∧
  (∀ l, tcpip_msgs s' !! l = if decide (l ∈ ls) then None else tcpip_msgs s !! l).

Definition dec_ref (c : cell) s : store :=
  s <| pbufs := <[c_loc c := (c_pbuf c) <| pb_ref := pb_ref (c_pbuf c) - 1 |>]> (pbufs s) |>.

(** The fields of the store that freeing leaves alone. *)
Definition same_rest s s' : Prop :=
  next_loc s' = next_loc s ∧ mallocs s' = mallocs s ∧ tcpip_mbox s' = tcpip_mbox s ∧
  pbuf_free_ooseq_pending s' = pbuf_free_ooseq_pending s.

Lemma gone_nil s : gone [] s s.
Proof. split_and!; intros l; by rewrite decide_False by apply not_elem_of_nil. Qed.

Lemma gone_release l ls s s' : gone ls (release l s) s' → gone (l :: ls) s s'.
Proof.
  intros (Hp & Hb & Hm). split_and!; intros l'; [rewrite Hp|rewrite Hb|rewrite Hm]; unfold release; simpl;
    rewrite lookup_delete;
    (destruct (decide (l' ∈ l :: ls)) as [[->|Hin]%elem_of_cons|[Hne Hn]%not_elem_of_cons];
     [rewrite (decide_True _ _ (eq_refl l)); by case_decide|by rewrite decide_True
     |by rewrite !decide_False by congruence]).
Qed.

Lemma free_cells_owned owned rest s :
  Forall (λ c, pb_ref (c_pbuf c) = 1) owned →
  ∃ s', gone (locs owned) s s' ∧ same_rest s s' ∧ (heap_ok s → heap_ok s') ∧
    free_cells (owned ++ rest) s =
      (zlen owned + (free_cells rest s').1, (free_cells rest s').2).
Proof.
  revert s. induction owned as [|c owned IH]; intros s Hone.
  { exists s. split; [apply gone_nil|]. repeat (split; [done|]). simpl. by destruct (free_cells rest s). }
  inversion Hone as [|? ? H1 Hone']; subst. simpl. rewrite H1. simpl.
  destruct (IH (release (c_loc c) s) Hone') as (s' & Hg & Hs & Hk & ->). exists s'. split_and!.
  - by apply gone_release.
  - done.
  - intros. apply Hk. by apply heap_ok_release.
  - f_equal. rewrite zlen_cons. lia.
Qed.

Lemma pbuf_free_loop_owned s p owned rest :
  lseg s p (owned ++ rest) None → Forall cell_ok (owned ++ rest) →
  Forall (freeable s) (owned ++ rest) → p ≠ None →
  Forall (λ c, pb_ref (c_pbuf c) = 1) owned →
  (∀ c, hd_error rest = Some c → pb_ref (c_pbuf c) ≠ 1) →
  runs (pbuf_free p) s (λ n s', n = u8 (zlen owned) ∧
    ∃ s1, gone (locs owned) s s1 ∧ same_rest s s1 ∧ (heap_ok s → heap_ok s1) ∧
      s' = match rest with [] => s1 | c :: _ => dec_ref c s1 end).
Proof.
  intros Hs Hok Hfr Hp Hone Hrest. destruct p as [l|]; [|done]. unfold pbuf_free.
  pose proof (pbuf_free_loop_spec (chain_fuel s) s (Some l) (owned ++ rest) 0) as Hspec.
  eapply runs_mono; [apply Hspec; try done|].
  { by apply lseg_links. }
  { by eapply lseg_nodup. }
  { by eapply lseg_fuel. }
  intros n s' [-> ->]. destruct (free_cells_owned owned rest s Hone) as (s1 & Hg & Hsame & Hk & ->).
  split; simpl.
  - f_equal. destruct rest as [|c rest]; simpl; [lia|].
    rewrite (proj2 (Z.eqb_neq _ _)) by by apply Hrest. simpl. lia.
  - exists s1. split_and!; try done. destruct rest as [|c rest]; [done|]. simpl.
    by rewrite (proj2 (Z.eqb_neq _ _)) by by apply Hrest.
Qed.

(** C17: [pbuf_free] on a well-formed chain terminates, never stops on an
    assertion, and gives back exactly the leading pbufs with a single reference,
    each once, returning their number; the first shared pbuf, if any, loses one
    reference, and nothing behind it changes. *)
Theorem pbuf_free_spec s p owned rest :
  packet s p (owned ++ rest) → p ≠ None → Forall (freeable s) (owned ++ rest) →
  Forall (λ c, pb_ref (c_pbuf c) = 1) owned →
  (∀ c, hd_error rest = Some c → pb_ref (c_pbuf c) ≠ 1) →
  runs (pbuf_free p) s (λ n s', n = u8 (zlen owned) ∧
    ∃ s1, gone (locs owned) s s1 ∧ same_rest s s1 ∧
      s' = match rest with [] => s1 | c :: _ => dec_ref c s1 end).
Proof.
  intros Hpk Hp Hfr Hone Hrest.
  eapply runs_mono; [apply (pbuf_free_loop_owned s p owned rest); try done|].
  - apply (packet_seg _ _ _ Hpk).
  - apply (packet_cells _ _ _ Hpk).
  - intros n s' (-> & s1 & ? & ? & _ & ->). split; [done|]. by exists s1.
Qed.

Lemma ex_freeable : Forall (freeable ex_store) [ex_cell1; ex_cell2].
Proof. repeat constructor; try (by vm_compute; repeat constructor); by eexists. Qed.

Lemma pbuf_free_spec_witness :
  runs (pbuf_free (Some 1%positive)) ex_store (λ n s', n = 2 ∧
    ∃ s1, gone [1%positive; 2%positive] ex_store s1 ∧ same_rest ex_store s1 ∧ s' = s1).
Proof.
  apply (pbuf_free_spec ex_store (Some 1%positive) [ex_cell1; ex_cell2] []).
  - exact ex_packet.
  - discriminate.
  - exact ex_freeable.
  - repeat constructor.
  - discriminate.
Defined.
