(* ===== verification/PbufAlloc.v ===== *)
(** * What [pbuf_alloc] returns

    A new packet of the requested length in memory nobody else uses, or null
    with every pbuf allocated on the way given back. *)

From S2P Require Import Prelude Mbox Heap HeapFacts Pbuf Packet PbufFacts.

Implicit Types s : store.

(** [tots], with [rem] more bytes to come after the chain. *)
Fixpoint tots_from (rem : Z) (cs : list cell) : Prop :=
  match cs with
  | [] => True
  | c :: cs => pb_tot_len (c_pbuf c) = total (c :: cs) + rem ∧ tots_from rem cs
  end.

(** The chain [cs] is what [s] has beyond [s0]. *)
Record fresh_chain s0 s (p : option loc) (cs : list cell) (rem : Z) : Prop := {
  fc_seg : lseg s p cs None;
  fc_tots : tots_from rem cs;
  fc_fresh : Forall (λ c, (next_loc s0 ≤ c_loc c)%positive) cs;
  fc_ref : Forall (λ c, pb_ref (c_pbuf c) = 1) cs;
  fc_own : Forall own_data cs;
  fc_freeable : Forall (freeable s) cs;
  fc_pbufs l : l ∉ locs cs → pbufs s !! l = pbufs s0 !! l;
  fc_blocks l : l ∉ locs cs → blocks s !! l = blocks s0 !! l;
  fc_msgs : tcpip_msgs s = tcpip_msgs s0;
  fc_mbox : tcpip_mbox s = tcpip_mbox s0;
  fc_ok : heap_ok s;
  fc_next : (next_loc s0 ≤ next_loc s)%positive
}.

(** No pbuf is lost: of the blocks, only those of posted messages are new. *)
Definition no_leak s0 s : Prop :=
  pbufs s = pbufs s0 ∧ heap_ok s ∧ (next_loc s0 ≤ next_loc s)%positive ∧
  ∀ l, blocks s !! l = blocks s0 !! l ∨
       (next_loc s0 ≤ l)%positive ∧ is_Some (tcpip_msgs s !! l).

Lemma fresh_chain_nil s rem : heap_ok s → fresh_chain s s None [] rem.
Proof. intros. by split. Qed.

Lemma fresh_chain_refused s0 s p cs rem :
  fresh_chain s0 s p cs rem → fresh_chain s0 (refused s) p cs rem.
Proof.
  intros []. split; try done. eapply lseg_frame; done.
Qed.

Lemma fc_used s0 s p cs rem c :
  fresh_chain s0 s p cs rem → c ∈ cs → (c_loc c < next_loc s)%positive.
Proof.
  intros H Hc. eapply heap_ok_used; [apply H|]. left.
  by rewrite (lseg_in _ _ _ _ _ (fc_seg _ _ _ _ _ H) Hc).
Qed.

(** The cell of a pbuf whose data follows the struct. *)
Definition new_pbuf (l : loc) (o tot len : Z) (t : pbuf_type) : pbuf :=
  mk_pbuf None (Some (mk_ptr l o)) tot len (u8 (type_code t)) 0 1 NETIF_NO_INDEX.
Definition new_cell (l : loc) (d : list Z) (o tot len : Z) (t : pbuf_type) : cell :=
  mk_cell l (new_pbuf l o tot len t) (zslice o len d).

Lemma new_cell_payload s l d o tot len t :
  blocks s !! l = Some d → 0 ≤ o → 0 ≤ len → o + len ≤ zlen d →
  has_payload s (new_pbuf l o tot len t) (zslice o len d).
Proof.
  intros. split; simpl; [by apply zlen_zslice|].
  rewrite (mem_read_block _ _ d); simpl; try done; try lia. by rewrite Z.add_0_r.
Qed.

(** A first pbuf. *)
Lemma fresh_chain_one s0 d o tot len t :
  heap_ok s0 → SIZEOF_STRUCT_PBUF ≤ o → 0 ≤ len → o + len ≤ zlen d → t ∈ [PBUF_RAM; PBUF_POOL] →
  let l := next_loc s0 in
  fresh_chain s0 ((grown d s0) <| pbufs := <[l := new_pbuf l o tot len t]> (pbufs s0) |>)
    (Some l) [new_cell l d o tot len t] (tot - len).
Proof.
  intros Hok Ho Hlen Hd Ht l. unfold SIZEOF_STRUCT_PBUF in *. split; simpl.
  - split_and!; [done|by rewrite lookup_insert_eq| |done].
    apply (new_cell_payload _ _ d); simpl; [by rewrite lookup_insert_eq|lia..].
  - split; [|done]. rewrite total_cons, total_nil. simpl. rewrite zlen_zslice; lia.
  - apply Forall_singleton. simpl. lia.
  - by apply Forall_singleton.
  - apply Forall_singleton. by exists o.
  - apply Forall_singleton. split; simpl; [|by rewrite lookup_insert_eq; eexists].
    rewrite !elem_of_cons in Ht. destruct Ht as [->|[->|[]%elem_of_nil]]; by vm_compute; repeat constructor.
  - intros l' Hl'. rewrite lookup_insert_ne; [done|]. intros <-. by apply Hl', list_elem_of_here.
  - intros l' Hl'. rewrite lookup_insert_ne; [done|]. intros <-. by apply Hl', list_elem_of_here.
  - done.
  - done.
  - apply (heap_ok_set_pbuf l _ (grown d s0)); [by apply heap_ok_grown|simpl; lia].
  - lia.
Qed.

Lemma tots_from_app rem cs1 cs2 :
  tots_from rem (cs1 ++ cs2) ↔ tots_from (total cs2 + rem) cs1 ∧ tots_from rem cs2.
Proof.
  induction cs1 as [|c cs1 IH]; [simpl; tauto|].
  simpl app. simpl tots_from. rewrite IH, !total_cons, total_app.
  split; [intros (H & ? & ?)|intros ((H & ?) & ?)]; split_and!; try done; rewrite H; lia.
Qed.

Lemma tots_from_0 cs : tots_from 0 cs → tots cs.
Proof. induction cs as [|c cs IH]; [done|]. simpl. intros [-> ?]. split; [lia|auto]. Qed.

Definition with_next (n : option loc) (c : cell) : cell :=
  mk_cell (c_loc c) ((c_pbuf c) <| pb_next := n |>) (c_data c).

Lemma locs_app cs1 cs2 : locs (cs1 ++ cs2) = locs cs1 ++ locs cs2.
Proof. apply fmap_app. Qed.

(** A further pbuf, linked behind the last one. *)
Lemma fresh_chain_snoc s0 s p ds t d o tot len :
  fresh_chain s0 s p (ds ++ [t]) tot →
  SIZEOF_STRUCT_PBUF ≤ o → 0 ≤ len → o + len ≤ zlen d →
  let l := next_loc s in
  fresh_chain s0
    ((grown d s) <| pbufs := <[c_loc t := c_pbuf (with_next (Some l) t)]>
                             (<[l := new_pbuf l o tot len PBUF_POOL]> (pbufs s)) |>)
    p (ds ++ [with_next (Some l) t; new_cell l d o tot len PBUF_POOL]) (tot - len).
Proof.
  intros Hf Ho Hlen Hd l. subst l. unfold SIZEOF_STRUCT_PBUF in *.
  assert (∀ c, c ∈ ds ++ [t] → c_loc c ≠ next_loc s) as Hne.
  { intros c Hc Heq. pose proof (fc_used _ _ _ _ _ _ Hf Hc). lia. }
  pose proof Hf as Hf'. destruct Hf'. pose proof (lseg_nodup _ _ _ fc_seg0) as Hnd.
  assert (c_loc t ≠ next_loc s) as Htl by (apply Hne; set_solver).
  apply lseg_app in fc_seg0 as (m & Hds & (-> & Ht & [Htd Htr] & Hnil)).
  apply tots_from_app in fc_tots0 as [Hds_tot [Htt _]].
  apply Forall_app in fc_fresh0 as [? [? _]%Forall_cons].
  apply Forall_app in fc_ref0 as [? [? _]%Forall_cons].
  apply Forall_app in fc_own0 as [Hown [(ot & Hot & Hot') _]%Forall_cons].
  apply Forall_app in fc_freeable0 as [Hfr [[Hfa Hfb] _]%Forall_cons].
  rewrite locs_app in Hnd. apply NoDup_app in Hnd as (_ & Hnd & _).
  assert (∀ c, c ∈ ds → c_loc c ≠ c_loc t) as Hdt.
  { intros c Hc Heq. apply (Hnd (c_loc c)); [apply list_elem_of_fmap; eauto|]. rewrite Heq. set_solver. }
  assert (∀ b, b ∈ locs ds → b ≠ next_loc s ∧ b ≠ c_loc t) as Hdl.
  { intros b (c & -> & Hc)%list_elem_of_fmap. split; [apply Hne; set_solver|by apply Hdt]. }
  assert (∀ n l', l' ∉ locs (ds ++ [with_next (Some (next_loc s)) t; n]) → l' ≠ c_loc t ∧ l' ∉ locs (ds ++ [t])) as Hout.
  { intros n l'. rewrite !locs_app. simpl. set_solver. }
  split; simpl.
  - apply lseg_app. exists (Some (c_loc t)). split; [|simpl; split_and!; try done].
    + eapply lseg_frame; [done|intros b Hb; simpl..].
      * destruct (Hdl b Hb). by rewrite !lookup_insert_ne by congruence.
      * rewrite own_data_blocks in Hb by done. destruct (Hdl b Hb). by rewrite lookup_insert_ne by congruence.
    + by rewrite lookup_insert_eq.
    + split; [done|]. simpl. rewrite <- Htr. apply mem_read_ext. rewrite Hot.
      intros a [= <-]. simpl. by rewrite lookup_insert_ne by done.
    + rewrite lookup_insert_ne by done. by rewrite lookup_insert_eq.
    + apply (new_cell_payload _ _ d); simpl; [by rewrite lookup_insert_eq|lia..].
  - apply tots_from_app. simpl. rewrite !total_cons, !total_nil. simpl.
    rewrite !zlen_zslice by lia. split_and!; try done.
    + rewrite !total_cons, total_nil in Hds_tot. by replace (_ + _) with (zlen (c_data t) + 0 + tot) by lia.
    + rewrite !total_cons, total_nil in Htt. lia.
    + lia.
  - rewrite Forall_app, !Forall_cons. split; [|split; [|split; [|done]]]; try done.
  - rewrite Forall_app, !Forall_cons. split; [|split; [|split; [|done]]]; try done.
  - rewrite Forall_app, !Forall_cons. split_and!; try done.
    + by exists ot.
    + by exists o.
  - rewrite Forall_app, !Forall_cons. split; [|split; [|split; [|done]]]; try done.
    + eapply Forall_impl; [done|]. intros c [? [b Hb]]. split; [done|]. simpl.
      destruct (decide (next_loc s = c_loc c)) as [->|]; [rewrite lookup_insert_eq|rewrite lookup_insert_ne by done]; by eexists.
    + split; [done|]. simpl. by rewrite lookup_insert_ne by done.
    + split; [by vm_compute; repeat constructor|]. simpl. rewrite lookup_insert_eq. by eexists.
  - intros l' Hl'. destruct (Hout _ _ Hl') as [? ?].
    rewrite !lookup_insert_ne; [by apply fc_pbufs0|..]; [|done].
    intros <-. apply Hl'. rewrite locs_app. simpl. set_solver.
  - intros l' Hl'. destruct (Hout _ _ Hl') as [? ?].
    rewrite !lookup_insert_ne; [by apply fc_blocks0|..].
    intros <-. apply Hl'. rewrite locs_app. simpl. set_solver.
  - done.
  - done.
  - assert (c_loc t < next_loc s)%positive by (apply (fc_used _ _ _ _ _ t Hf); set_solver).
    intros l' Hl'. simpl in *. destruct (fc_ok0 l') as (? & ? & ?); [lia|].
    by rewrite !lookup_insert_ne by lia.
  - lia.
Qed.

(** ** Running out of memory *)

Lemma pbuf_pool_is_empty_spec s q :
  heap_ok s → mbox_holds s q →
  runs pbuf_pool_is_empty s (λ _ s', pbufs s' = pbufs s ∧ heap_ok s' ∧
    (next_loc s ≤ next_loc s')%positive ∧
    ∀ l, blocks s' !! l = blocks s !! l ∨
         (next_loc s ≤ l)%positive ∧ is_Some (tcpip_msgs s' !! l)).
Proof.
  intros Hok Hmb. apply runs_bind, runs_gets. apply runs_bind, runs_modify.
  destruct (pbuf_free_ooseq_pending s); simpl.
  { apply runs_ret. split_and!; [done|done|simpl; lia|]. by left. }
  apply runs_bind. eapply runs_mono; [by apply (tcpip_try_callback_spec _ _ _ q)|].
  intros e s' (Hok' & _ & Hp & _ & Hn & Hcase). simpl in *.
  assert (∀ l, blocks s' !! l = blocks s !! l ∨
         (next_loc s ≤ l)%positive ∧ is_Some (tcpip_msgs s' !! l)) as Hall.
  { intros l. destruct Hcase as [(_ & _ & _ & [d ->] & ->)|(_ & _ & -> & ->)]; [|by left].
    destruct (decide (l = next_loc s)) as [->|]; [right|left].
    - rewrite lookup_insert_eq. split; [lia|by eexists].
    - by rewrite lookup_insert_ne. }
  destruct (is_ok e); split_and!; done.
Qed.

(** The way back: what was taken for the packet is returned. *)
Lemma fresh_chain_undo s0 s s1 p cs rem :
  heap_ok s0 → fresh_chain s0 s p cs rem →
  pbufs s1 = pbufs s → heap_ok s1 → (next_loc s ≤ next_loc s1)%positive →
  (∀ l, blocks s1 !! l = blocks s !! l ∨
        (next_loc s ≤ l)%positive ∧ is_Some (tcpip_msgs s1 !! l)) →
  runs (match p with Some _ => let! _ := pbuf_free p in ret tt | None => ret tt end) s1
    (λ _ s', no_leak s0 s').
Proof.
  intros H0 Hf Hp Hok Hn Hb.
  assert (∀ c, c ∈ cs → blocks s1 !! c_loc c = blocks s !! c_loc c) as Hbc.
  { intros c Hc. pose proof (fc_used _ _ _ _ _ _ Hf Hc).
    destruct (Hb (c_loc c)) as [|[]]; [done|lia]. }
  assert (∀ s2, gone (locs cs) s1 s2 → heap_ok s2 → next_loc s2 = next_loc s1 → no_leak s0 s2) as Hend.
  { intros s2 (Gp & Gb & Gm) Hok2 Hn2. destruct Hf. split_and!; [|done|lia|].
    - apply map_eq. intros l. rewrite Gp. case_decide as Hin; [|by rewrite Hp, fc_pbufs0].
      apply list_elem_of_fmap in Hin as (c & -> & Hc). rewrite Forall_forall in fc_fresh0.
      by destruct (H0 _ (fc_fresh0 c Hc)) as (-> & _).
    - intros l. rewrite Gb, Gm. case_decide as Hin.
      + apply list_elem_of_fmap in Hin as (c & -> & Hc). rewrite Forall_forall in fc_fresh0.
        left. by destruct (H0 _ (fc_fresh0 c Hc)) as (_ & -> & _).
      + rewrite <- fc_blocks0 by done. destruct (Hb l) as [|[]]; [by left|right; split; [lia|done]]. }
  destruct cs as [|c cs].
  { pose proof (fc_seg _ _ _ _ _ Hf) as Hseg. simpl in Hseg. subst p.
    apply runs_ret, Hend; [apply gone_nil|done|done]. }
  assert (p = Some (c_loc c)) as Heq by by destruct (fc_seg _ _ _ _ _ Hf). subst p.
  apply runs_bind.
  eapply runs_mono; [apply (pbuf_free_loop_owned s1 _ (c :: cs) []); rewrite ?app_nil_r|].
  - eapply lseg_frame; [apply (fc_seg _ _ _ _ _ Hf)|by rewrite Hp|].
    intros b Hin. rewrite own_data_blocks in Hin by apply (fc_own _ _ _ _ _ Hf).
    apply list_elem_of_fmap in Hin as (c' & -> & Hc). by apply Hbc.
  - eapply Forall_impl; [apply (fc_ref _ _ _ _ _ Hf)|]. intros c' Hc. unfold cell_ok. simpl in Hc. lia.
  - rewrite Forall_forall. intros c' Hc. pose proof (fc_freeable _ _ _ _ _ Hf) as Hfr.
    rewrite Forall_forall in Hfr. destruct (Hfr c' Hc) as [? ?]. split; [done|by rewrite Hbc].
  - done.
  - apply (fc_ref _ _ _ _ _ Hf).
  - done.
  - intros n s' (_ & s2 & Hg & Hs & Hk & ->). apply runs_ret, Hend; [done|auto|apply Hs].
Qed.

(** ** The pool *)

(** [a], an aligned offset that leaves room in a pool element. *)
Definition good_offset (a : Z) : Prop := 0 ≤ a ≤ 56 ∧ (SIZEOF_STRUCT_PBUF + a) mod MEM_ALIGNMENT = 0.

Lemma layer_good layer : good_offset (LWIP_MEM_ALIGN_SIZE (u16 (layer_offset layer))).
Proof. by destruct layer. Qed.

Lemma zlen_pool_elem : LWIP_MEM_ALIGN_SIZE (memp_size MEMP_PBUF_POOL) = 1048.
Proof. done. Qed.

Lemma fresh_chain_done s0 s p cs :
  fresh_chain s0 s p cs 0 → total cs < 2 ^ 16 → packet s p cs.
Proof.
  intros [] Hz. split; [done|by apply tots_from_0|done|].
  eapply Forall_impl; [exact fc_ref0|]. intros c Hc. unfold cell_ok. simpl in Hc. lia.
Qed.

(** The result of an allocation of [n] bytes. *)
Definition alloc_result s0 (n : Z) (p : option loc) s : Prop :=
  match p with
  | Some _ => ∃ cs, fresh_chain s0 s p cs 0 ∧ total cs = n ∧ cs ≠ []
  | None => no_leak s0 s
  end.

Lemma pool_loop_spec s0 q fuel s p last cs rem offset :
  heap_ok s0 → mbox_holds s0 q → fresh_chain s0 s p cs rem →
  last = c_loc <$> list.last cs → good_offset (LWIP_MEM_ALIGN_SIZE offset) →
  0 ≤ rem < 2 ^ 16 → (0 < rem ∨ cs = []) → (Z.to_nat rem < fuel)%nat →
  runs (pbuf_alloc_pool_loop fuel p last rem offset) s (alloc_result s0 (total cs + rem)).
Proof.
  intros H0 Hmb. revert s p last cs rem offset.
  induction fuel as [|fuel IH]; intros s p last cs rem offset Hf Hlast [Ha Ham] Hrem Hcs Hfuel; [lia|].
  simpl pbuf_alloc_pool_loop. apply runs_bind, runs_malloc; [done| |intros d Hd].
  - (* out of memory *)
    apply runs_bind. apply fresh_chain_refused in Hf.
    eapply runs_mono; [apply (pbuf_pool_is_empty_spec _ q)|].
    + apply Hf.
    + unfold mbox_holds. by rewrite (fc_mbox _ _ _ _ _ Hf).
    + intros _ s1 (Hp1 & Hok1 & Hn1 & Hb1). apply runs_bind.
      eapply runs_mono; [exact (fresh_chain_undo _ _ _ _ _ _ H0 Hf Hp1 Hok1 Hn1 Hb1)|]. intros [] s' Hl. by apply runs_ret.
  - change (LWIP_MEM_ALIGN_SIZE (memp_size MEMP_PBUF_POOL)) with 1048 in Hd.
    change PBUF_POOL_BUFSIZE_ALIGNED with 1024.
    set (a := LWIP_MEM_ALIGN_SIZE offset) in *. unfold SIZEOF_STRUCT_PBUF in *.
    rewrite (u16_small (1024 - a)) by (bounds; lia).
    set (len := Z.min rem (1024 - a)). assert (0 ≤ len ≤ rem ∧ len ≤ 1024 - a) as Hlen by lia.
    apply runs_bind, runs_modify.
    apply runs_bind, runs_assert; [by apply Z.eqb_eq|].
    apply runs_bind, runs_assert; [apply Z.ltb_lt; lia|].
    unfold contiguous_payload, SIZEOF_STRUCT_PBUF. fold a. fold (new_pbuf (next_loc s) (24 + a) rem len PBUF_POOL).
    (* what the loop goes on with *)
    assert (∀ s' p' ds c,
      fresh_chain s0 s' p' (ds ++ [c]) (rem - len) → total (ds ++ [c]) + (rem - len) = total cs + rem →
      c_loc c = next_loc s → p' ≠ None →
      runs (if 0 <? u16 (rem - len) then pbuf_alloc_pool_loop fuel p' (Some (next_loc s)) (u16 (rem - len)) 0
            else ret p') s' (alloc_result s0 (total cs + rem))) as Hgo.
    { intros s' p' ds c Hf' Ht Hc Hp'. rewrite u16_small by (bounds; lia). case_match; bool_prop.
      - rewrite <- Ht. apply IH; try done; [rewrite last_snoc; simpl; by rewrite Hc|lia|by left|lia].
      - assert (rem - len = 0) as E by lia. rewrite E in *. apply runs_ret.
        destruct p'; [|done]. eexists. split_and!; [done|lia|by destruct ds]. }
    destruct cs as [|c0 cs0].
    + pose proof (fc_seg _ _ _ _ _ Hf) as Hp. simpl in Hp. subst p. apply runs_bind, runs_ret.
      (* the first pbuf: the state is that of before *)
      assert (fresh_chain s (((grown d s) <| pbufs := <[next_loc s := new_pbuf (next_loc s) (24 + a) rem len PBUF_POOL]> (pbufs s) |>)) (Some (next_loc s)) [new_cell (next_loc s) d (24 + a) rem len PBUF_POOL] (rem - len)) as H1.
      { apply fresh_chain_one; unfold SIZEOF_STRUCT_PBUF; try lia; [apply Hf|set_solver]. }
      apply (Hgo _ _ [] (new_cell (next_loc s) d (24 + a) rem len PBUF_POOL)); [|simpl|done|done].
      * destruct H1, Hf. split; try done; try lia.
        -- eapply Forall_impl; [exact fc_fresh0|]. simpl. intros. lia.
        -- intros l Hl. rewrite fc_pbufs0, fc_pbufs1; [done|set_solver|done].
        -- intros l Hl. rewrite fc_blocks0, fc_blocks1; [done|set_solver|done].
        -- by etrans.
      * rewrite total_cons, total_nil. simpl. rewrite zlen_zslice; lia.
    + assert (∃ ds t, c0 :: cs0 = ds ++ [t]) as (ds & t & Hcs')
        by (destruct (exists_last (l := c0 :: cs0)) as (ds & t & ->); eauto).
      assert (p = Some (c_loc c0)) as -> by by destruct (fc_seg _ _ _ _ _ Hf).
      rewrite Hcs' in *. rewrite last_snoc in Hlast. simpl in Hlast. subst last.
      pose proof (fresh_chain_snoc _ _ _ _ _ d (24 + a) rem len Hf) as Hf'. simpl in Hf'.
      apply runs_bind. eapply runs_update_pbuf.
      { simpl. rewrite lookup_insert_ne.
        - apply (lseg_in _ _ _ _ t (fc_seg _ _ _ _ _ Hf)). set_solver.
        - intros Heq. pose proof (fc_used _ _ _ _ _ t Hf). rewrite <- Heq in *. set_solver by lia. }
      eapply (Hgo _ _ (ds ++ [with_next (Some (next_loc s)) t])); [|..|done].
      * rewrite <- app_assoc. apply Hf'; unfold SIZEOF_STRUCT_PBUF; lia.
      * rewrite !total_app, !total_cons, !total_nil. simpl. rewrite zlen_zslice; lia.
      * done.
Qed.

(** ** [pbuf_alloc] *)

Lemma align_size_eq n : 0 ≤ n < 2 ^ 31 → LWIP_MEM_ALIGN_SIZE n = 8 * ((n + 7) / 8).
Proof.
  intros Hn. unfold LWIP_MEM_ALIGN_SIZE. change (u32 (Z.lnot (MEM_ALIGNMENT - 1))) with (Z.shiftl (Z.ones 29) 3).
  replace (n + MEM_ALIGNMENT - 1) with (n + 7) by (unfold MEM_ALIGNMENT; lia).
  rewrite u32_small by (bounds; lia).
  transitivity (Z.shiftl (Z.shiftr (n + 7) 3) 3);
    [|by rewrite Z.shiftl_mul_pow2, Z.shiftr_div_pow2, Z.mul_comm by lia].
  apply Z.bits_inj'. intros i Hi. rewrite Z.land_spec, !Z.shiftl_spec by lia.
  destruct (decide (i < 3)).
  { rewrite !(Z.testbit_neg_r _ (i - 3)) by lia. apply andb_false_r. }
  rewrite Z.shiftr_spec by lia. replace (i - 3 + 3) with i by lia.
  destruct (decide (i < 32)).
  { rewrite Z.testbit_ones, (proj2 (Z.ltb_lt (i - 3) 29)) by lia.
    rewrite (proj2 (Z.leb_le 0 (i - 3))) by lia. apply andb_true_r. }
  rewrite (Z.bits_above_log2 (n + 7)); [done|lia|].
  apply Z.log2_lt_pow2; [lia|]. apply Z.lt_le_trans with (2 ^ 32); [bounds; lia|apply Z.pow_le_mono_r; lia].
Qed.

Lemma align_size_bounds n : 0 ≤ n < 2 ^ 31 → n ≤ LWIP_MEM_ALIGN_SIZE n ≤ n + 7.
Proof. intros. rewrite align_size_eq by done. Z.div_mod_to_equations. lia. Qed.

(** The room for the headers and the data have a 16-bit size together. *)
Definition ram_fits (layer : pbuf_layer) (n : Z) : bool :=
  LWIP_MEM_ALIGN_SIZE (u16 (layer_offset layer)) + LWIP_MEM_ALIGN_SIZE n <? 2 ^ 16.

(** One block holds the struct, the room for the headers of the layer, and the
    data; without memory, or for a length too great, there is none. *)
Lemma alloc_ram_one s layer n :
  heap_ok s → 0 ≤ n < 2 ^ 16 →
  runs (pbuf_alloc layer n PBUF_RAM) s (λ p s',
    match p with
    | None => no_leak s s' ∧ tcpip_mbox s' = tcpip_mbox s ∧ (memory_left s && ram_fits layer n) = false
    | Some l => ∃ d, let a := 24 + LWIP_MEM_ALIGN_SIZE (u16 (layer_offset layer)) in
        ((memory_left s && ram_fits layer n) = true ∧ mallocs s' = tl (mallocs s)) ∧
        l = next_loc s ∧ blocks s' !! l = Some d ∧ a + n ≤ zlen d ∧ fresh_chain s s' p [new_cell l d a n n PBUF_RAM] 0
    end).
Proof.
  intros Hok Hn. unfold pbuf_alloc, ram_fits.
  destruct (layer_good layer) as [Ha Ham]. set (a := LWIP_MEM_ALIGN_SIZE (u16 (layer_offset layer))) in *.
  destruct (align_size_bounds n) as [Hl Hu]; [bounds; lia|]. set (m := LWIP_MEM_ALIGN_SIZE n) in *.
  change (LWIP_MEM_ALIGN_SIZE SIZEOF_STRUCT_PBUF) with 24.
  assert (no_leak s s) as Hsame by (split_and!; [done|done|lia|by left]).
  destruct (Z.ltb_spec (a + m) (2 ^ 16)) as [Hfit|Hbig]; rewrite ?andb_true_r, ?andb_false_r.
  2: { assert (u16 (a + m) <? m = true) as ->; [apply Z.ltb_lt; wrap_lia|]. by apply runs_ret. }
  assert (u16 (a + m) = a + m) as Hw by wrap_lia. rewrite Hw in *.
  rewrite u64_small by (bounds; lia). rewrite !(proj2 (Z.ltb_ge _ _)) by lia. cbn [orb].
  apply runs_bind, runs_malloc_left; [lia|intros Hleft; rewrite Hleft; by apply runs_ret|intros d Hd Hleft].
  apply runs_bind, runs_modify. apply runs_bind, runs_assert; [by apply Z.eqb_eq|].
  apply runs_ret. unfold SIZEOF_STRUCT_PBUF in *. exists d. split_and!; [done|done|done|simpl; apply lookup_insert_eq|lia|].
  pose proof (fresh_chain_one s d (24 + a) n n PBUF_RAM) as Hone. rewrite Z.sub_diag in Hone.
  apply Hone; unfold SIZEOF_STRUCT_PBUF; try lia; [done|set_solver].
Qed.

Lemma alloc_ram_spec s layer n :
  heap_ok s → 0 ≤ n < 2 ^ 16 → runs (pbuf_alloc layer n PBUF_RAM) s (alloc_result s n).
Proof.
  intros Hok Hn. eapply runs_mono; [by apply alloc_ram_one|]. intros [l|] s' Hr; [|by destruct Hr].
  destruct Hr as (d & _ & -> & _ & Hd & Hf). eexists. split_and!; [exact Hf| |done].
  destruct (layer_good layer) as [Ha _]. rewrite total_cons, total_nil. simpl. rewrite zlen_zslice; lia.
Qed.

Lemma pbuf_alloc_spec_runs s q layer n type :
  heap_ok s → mbox_holds s q → 0 ≤ n < 2 ^ 16 → type ∈ [PBUF_RAM; PBUF_POOL] →
  runs (pbuf_alloc layer n type) s (λ p s',
    match p with
    | Some _ => ∃ cs, packet s' p cs ∧ fresh_chain s s' p cs 0 ∧ total cs = n
    | None => no_leak s s'
    end).
Proof.
  intros Hok Hmb Hn Ht.
  assert (runs (pbuf_alloc layer n type) s (alloc_result s n)) as H.
  { rewrite !elem_of_cons in Ht. destruct Ht as [->|[->|[]%elem_of_nil]]; [by apply alloc_ram_spec|].
    apply (pool_loop_spec s q _ s None None []); try done; [by apply layer_good|by right|].
    unfold pool_fuel. lia. }
  eapply runs_mono; [exact H|]. intros [p|] s' Hr; [|done]. destruct Hr as (cs & Hf & Hz & _).
  exists cs. split_and!; [|done..]. apply fresh_chain_done in Hf; [done|lia].
Qed.

(** C16: [pbuf_alloc] with data of its own terminates on every heap, whatever
    [malloc] answers, and returns either a well-formed packet of exactly the
    requested length, in fresh memory and with every reference count 1, the rest
    of the heap untouched, or null with nothing leaked: every pbuf and every
    block is as before, but for messages posted to [tcpip_thread]. *)
Theorem pbuf_alloc_spec s q layer n type :
  heap_ok s → mbox_holds s q → 0 ≤ n < 2 ^ 16 → type ∈ [PBUF_RAM; PBUF_POOL] →
  runs (pbuf_alloc layer n type) s (λ p s',
    match p with
    | Some _ => ∃ cs, packet s' p cs ∧ fresh_chain s s' p cs 0 ∧ total cs = n
    | None => no_leak s s'
    end).
Proof. apply pbuf_alloc_spec_runs. Qed.

Lemma pbuf_alloc_spec_witness :
  runs (pbuf_alloc PBUF_RAW 2000 PBUF_POOL) ex_store (λ p s',
    match p with
    | Some _ => ∃ cs, packet s' p cs ∧ fresh_chain ex_store s' p cs 0 ∧ total cs = 2000
    | None => no_leak ex_store s'
    end).
Proof.
  apply (pbuf_alloc_spec ex_store []); [exact ex_heap_ok|exact ex_mbox|done|].
  by repeat constructor.
Defined.
