(* ===== verification/PbufChain.v ===== *)
(** * Headers, concatenation and truncation of packets

    What the operations of [core/pbuf.c] on the shape of a packet do to its
    bytes. *)

From S2P Require Import Prelude Mbox Heap HeapFacts Pbuf Packet PbufFacts PbufAlloc.

Implicit Types s : store.

(** ** Headers *)

Lemma ptr_add_undo a n : ptr_add (ptr_add a (- n)) n = a.
Proof. destruct a as [b o]. unfold ptr_add. simpl. f_equal. lia. Qed.

Lemma pbuf_header_undo s p c cs n :
  packet s p (c :: cs) → own_data c → 0 ≤ n →
  runs (pbuf_add_header p n) s (λ r s1,
    (r = 1 ∧ s1 = s) ∨
    (r = 0 ∧ runs (pbuf_remove_header p n) s1 (λ r s2, r = 0 ∧ s2 = s))).
Proof.
  intros Hpk (o & Ho & _) Hn. destruct (packet_head_len _ _ _ _ Hpk) as (Hlen & Htot & ? & ? & Hz).
  pose proof (packet_seg _ _ _ Hpk) as (-> & Hl & _ & _).
  unfold pbuf_add_header, pbuf_add_header_impl.
  destruct (65535 <? n) eqn:E1; [apply runs_ret; by left|].
  destruct (n =? 0) eqn:E2; bool_prop.
  { subst n. apply runs_ret. right. split; [done|]. by apply runs_ret. }
  apply runs_bind. eapply runs_get_pbuf; [done|].
  rewrite (u16_small n) by (bounds; lia).
  destruct (u16 _ <? n) eqn:E3; [apply runs_ret; by left|]. bool_prop.
  assert (n + pb_tot_len (c_pbuf c) < 65536) as Hsum by wrap_lia.
  destruct (negb _); [|apply runs_ret; by left].
  rewrite Ho. simpl. destruct (o + - n <? SIZEOF_STRUCT_PBUF); [apply runs_ret; by left|].
  apply runs_bind. eapply runs_set_pbuf; [done|]. apply runs_ret. right. split; [done|].
  unfold pbuf_remove_header.
  rewrite (proj2 (Z.ltb_ge _ _)), (proj2 (Z.eqb_neq n 0)) by lia.
  apply runs_bind. eapply runs_get_pbuf; [simpl; by rewrite lookup_insert_eq|]. simpl.
  rewrite !u16_small by (bounds; lia).
  apply runs_bind, runs_assert; [apply Z.leb_le; lia|].
  apply runs_bind. eapply runs_set_pbuf; [simpl; by rewrite lookup_insert_eq|].
  apply runs_ret. split; [done|]. simpl.
  rewrite insert_insert_eq, insert_id; [by destruct s|].
  rewrite Hl. f_equal. destruct (c_pbuf c). simpl in *. rewrite Ho, ptr_add_undo.
  rewrite (u16_small (_ + n)) by (bounds; lia). rewrite !u16_small by (bounds; lia).
  unfold setter. simpl. f_equal; lia.
Qed.

(** [pbuf_remove_header] undoes [pbuf_add_header]: on any packet, adding a
    header of [n] bytes either fails and changes nothing, or a following removal
    of [n] bytes succeeds and gives back the very same heap; it never stops on
    an assertion. *)
Theorem pbuf_header_roundtrip s p c cs n :
  packet s p (c :: cs) → own_data c → 0 ≤ n →
  runs (pbuf_add_header p n) s (λ r s1,
    (r = 1 ∧ s1 = s) ∨
    (r = 0 ∧ runs (pbuf_remove_header p n) s1 (λ r s2, r = 0 ∧ s2 = s))).
Proof. apply pbuf_header_undo. Qed.

Lemma mem_read_shift s p n m : mem_read s ((λ a, ptr_add a n) <$> p) 0 m = mem_read s p n m.
Proof.
  unfold mem_read. destruct (m =? 0); [done|]. destruct p as [a|]; simpl; [|done].
  by replace (off a + n + 0) with (off a + n) by lia.
Qed.

(** [c] without its first [n] bytes. *)
Definition advance (n : Z) (c : cell) : cell :=
  mk_cell (c_loc c)
    ((c_pbuf c) <| pb_payload := (λ a, ptr_add a n) <$> pb_payload (c_pbuf c) |>
       <| pb_len := pb_len (c_pbuf c) - n |> <| pb_tot_len := pb_tot_len (c_pbuf c) - n |>)
    (zdrop n (c_data c)).

Lemma zslice_to_end {A} n (d : list A) : 0 ≤ n ≤ zlen d → zslice n (zlen d - n) d = zdrop n d.
Proof. intros. unfold zslice. apply ztake_ge. rewrite zlen_zdrop; lia. Qed.

Lemma packet_head_notin s p c cs : packet s p (c :: cs) → c_loc c ∉ locs cs.
Proof. intros H. pose proof (lseg_nodup _ _ _ (packet_seg _ _ _ H)) as Hn. by inversion Hn. Qed.

(** Replacing the first pbuf's struct. *)
Lemma packet_set_head s p c cs q d :
  packet s p (c :: cs) → pb_next q = pb_next (c_pbuf c) → has_payload s q d →
  pb_tot_len q = zlen d + total cs → zlen d + total cs < 2 ^ 16 → 1 ≤ pb_ref q < 256 →
  packet (s <| pbufs := <[c_loc c := q]> (pbufs s) |>) p (mk_cell (c_loc c) q d :: cs).
Proof.
  intros Hpk Hn Hd Ht Hz Hr. pose proof (packet_head_notin _ _ _ _ Hpk) as Hni.
  destruct Hpk as [(-> & Hl & _ & Hs) [_ Htl] _ [_ Hok]%Forall_cons]. split.
  - simpl. split_and!; [done|by rewrite lookup_insert_eq|done|].
    rewrite Hn. eapply lseg_frame; [done|intros l Hin|done].
    simpl. rewrite lookup_insert_ne; [done|]. by intros <-.
  - simpl. rewrite total_cons. simpl. done.
  - by rewrite total_cons.
  - by constructor.
Qed.

Lemma pbuf_remove_header_spec s p c cs n :
  packet s p (c :: cs) → 0 ≤ n ≤ zlen (c_data c) →
  runs (pbuf_remove_header p n) s (λ r s', r = 0 ∧
    s' = s <| pbufs := <[c_loc c := c_pbuf (advance n c)]> (pbufs s) |> ∧
    packet s' p (advance n c :: cs)).
Proof.
  intros Hpk Hn. destruct (packet_head_len _ _ _ _ Hpk) as (Hlen & Htot & ? & ? & Hz).
  pose proof (packet_seg _ _ _ Hpk) as (Hp & Hl & [_ Hrd] & _). subst p.
  unfold pbuf_remove_header. rewrite (proj2 (Z.ltb_ge _ _)) by lia.
  assert (∀ s', s' = s <| pbufs := <[c_loc c := c_pbuf (advance n c)]> (pbufs s) |> →
    packet s' (Some (c_loc c)) (advance n c :: cs)) as Hend.
  { intros s' ->. apply packet_set_head with (c := c); simpl; try done; rewrite ?zlen_zdrop; try lia.
    - split; simpl; [rewrite zlen_zdrop; lia|].
      rewrite mem_read_shift, (mem_read_sub _ _ _ _ _ _ Hrd) by lia.
      f_equal. rewrite <- zslice_to_end by lia. f_equal; lia.
    - pose proof (packet_cells _ _ _ Hpk) as Hc. by inversion Hc. }
  destruct (n =? 0) eqn:E; bool_prop.
  - subst n. apply runs_ret. split; [done|].
    assert (s = s <| pbufs := <[c_loc c := c_pbuf (advance 0 c)]> (pbufs s) |>) as Heq.
    { rewrite insert_id; [by destruct s|]. rewrite Hl. f_equal. unfold advance. simpl.
      destruct (c_pbuf c) as [? pl]. unfold setter. simpl. f_equal; try lia.
      destruct pl as [[? ?]|]; [|done]. simpl. unfold ptr_add. simpl. do 2 f_equal. lia. }
    split; [done|]. by apply Hend.
  - apply runs_bind. eapply runs_get_pbuf; [done|]. rewrite !u16_small by (bounds; rewrite ?u16_small; bounds; lia).
    apply runs_bind, runs_assert; [apply Z.leb_le; lia|].
    apply runs_bind. eapply runs_set_pbuf; [done|]. apply runs_ret. split_and!; [done|done|by apply Hend].
Qed.

(** ** Rewriting the structs of a chain *)

(** Store the structs of [cs]. *)
Fixpoint put (cs : list cell) (m : gmap loc pbuf) : gmap loc pbuf :=
  match cs with [] => m | c :: cs => put cs (<[c_loc c := c_pbuf c]> m) end.

Lemma put_notin l cs m : l ∉ locs cs → put cs m !! l = m !! l.
Proof.
  revert m. induction cs as [|c cs IH]; intros m Hl; [done|]. apply not_elem_of_cons in Hl as [Hne Hl].
  simpl. rewrite IH by done. by rewrite lookup_insert_ne by congruence.
Qed.

Lemma put_in c cs m : NoDup (locs cs) → c ∈ cs → put cs m !! c_loc c = Some (c_pbuf c).
Proof.
  revert m. induction cs as [|c' cs IH]; intros m Hnd Hc; [by apply not_elem_of_nil in Hc|].
  inversion Hnd as [|? ? Hni Hnd']; subst. simpl.
  apply elem_of_cons in Hc as [->|Hc]; [|by apply IH]. rewrite put_notin by done. apply lookup_insert_eq.
Qed.

(** The same pbuf but for [tot_len], flags and reference count. *)
Definition same_shape (c c' : cell) : Prop :=
  c_loc c' = c_loc c ∧ c_data c' = c_data c ∧ pb_next (c_pbuf c') = pb_next (c_pbuf c) ∧
  pb_payload (c_pbuf c') = pb_payload (c_pbuf c) ∧ pb_len (c_pbuf c') = pb_len (c_pbuf c).

Lemma lseg_reshape s s' p cs cs' r :
  lseg s p cs r → Forall2 same_shape cs cs' →
  (∀ c, c ∈ cs' → pbufs s' !! c_loc c = Some (c_pbuf c)) →
  (∀ b, b ∈ data_blocks cs → blocks s' !! b = blocks s !! b) →
  lseg s' p cs' r.
Proof.
  intros Hs H. revert p Hs. induction H as [|c c' cs cs' (Hl & Hd & Hn & Hp & Hlen) H IH];
    intros p Hs Hin Hb; [done|].
  destruct Hs as (-> & Hc & [Hz Hrd] & Hs). simpl. rewrite Hl, Hn, Hd. split_and!; [done| | |].
  - rewrite <- Hl. apply Hin. by left.
  - split; rewrite Hlen; [done|]. rewrite Hp, <- Hrd. apply mem_read_ext. intros a Ha. apply Hb.
    simpl. rewrite Ha. by left.
  - apply IH; [done|..]; [intros; apply Hin; by right|].
    intros b Hbin. apply Hb. simpl. case_match; [by right|done].
Qed.

Lemma same_shape_locs cs cs' : Forall2 same_shape cs cs' → locs cs' = locs cs.
Proof. induction 1 as [|? ? ? ? (Hl & _)]; [done|]. simpl. by f_equal. Qed.
Lemma same_shape_bytes cs cs' : Forall2 same_shape cs cs' → bytes cs' = bytes cs.
Proof. induction 1 as [|? ? ? ? (_ & Hd & _)]; [done|]. rewrite !bytes_cons. congruence. Qed.

(** The same memory and bookkeeping of it. *)
Definition same_place (c c' : cell) : Prop :=
  c_loc c' = c_loc c ∧ pb_payload (c_pbuf c') = pb_payload (c_pbuf c) ∧
  pb_type_internal (c_pbuf c') = pb_type_internal (c_pbuf c) ∧ pb_ref (c_pbuf c') = pb_ref (c_pbuf c).

Lemma same_place_cells (P : loc → option ptr → Z → Z → Prop) cs cs' :
  Forall2 same_place cs cs' →
  Forall (λ c, P (c_loc c) (pb_payload (c_pbuf c)) (pb_type_internal (c_pbuf c)) (pb_ref (c_pbuf c))) cs →
  Forall (λ c, P (c_loc c) (pb_payload (c_pbuf c)) (pb_type_internal (c_pbuf c)) (pb_ref (c_pbuf c))) cs'.
Proof.
  induction 1 as [|c c' cs cs' (H1 & H2 & H3 & H4) _ IH]; [done|]. intros [? ?]%Forall_cons.
  constructor; [congruence|auto].
Qed.

(** [tot_len] changed by [T]. *)
Definition grow (T : Z) (c : cell) : cell :=
  mk_cell (c_loc c) ((c_pbuf c) <| pb_tot_len := pb_tot_len (c_pbuf c) + T |>) (c_data c).

Lemma grow_shape T cs : Forall2 same_shape cs (map (grow T) cs).
Proof. induction cs; by constructor. Qed.
Lemma with_next_locs n cs c : locs (cs ++ [with_next n c]) = locs (cs ++ [c]).
Proof. by rewrite !locs_app. Qed.

Lemma tots_grow T cs rem : tots_from rem cs → tots_from (rem + T) (map (grow T) cs).
Proof.
  induction cs as [|c cs IH]; [done|]. simpl. intros [-> Htl]. split; [|auto].
  rewrite !total_cons. unfold total at 2. rewrite (same_shape_bytes cs) by apply grow_shape.
  fold (total cs). simpl. lia.
Qed.

Lemma tots_from_tots cs : tots cs ↔ tots_from 0 cs.
Proof.
  split; [|apply tots_from_0]. induction cs as [|c cs IH]; [done|].
  simpl. intros [-> ?]. split; [lia|auto].
Qed.

Lemma lseg_last s p cs t r : lseg s p (cs ++ [t]) r →
  pbufs s !! c_loc t = Some (c_pbuf t) ∧ pb_next (c_pbuf t) = r.
Proof. intros (m & _ & (_ & Ht & _ & Hn))%lseg_app. done. Qed.

(** ** Concatenation *)

Lemma cat_loop_spec tl tq T ds t : ∀ fuel s l,
  lseg s (Some l) (ds ++ [t]) None → NoDup (locs (ds ++ [t])) →
  pbufs s !! tl = Some tq → pb_tot_len tq = T → tl ∉ locs (ds ++ [t]) →
  Forall (λ c, 0 ≤ pb_tot_len (c_pbuf c) + T < 2 ^ 16) ds → (length ds < fuel)%nat →
  runs (pbuf_cat_loop fuel l tl) s (λ r s', r = c_loc t ∧
    s' = s <| pbufs := put (map (grow T) ds) (pbufs s) |>).
Proof.
  induction ds as [|c ds IH]; intros fuel s l Hs Hnd Htl HT Hni Hz Hfuel;
    (destruct fuel as [|fuel]; [simpl in *; lia|]); simpl pbuf_cat_loop.
  - destruct Hs as ([= ->] & Hl & _ & Hn). simpl in Hn.
    apply runs_bind. eapply runs_get_pbuf; [done|]. rewrite Hn. apply runs_ret. split; [done|].
    by destruct s.
  - destruct Hs as ([= ->] & Hl & _ & Hs). inversion Hnd as [|? ? Hni' Hnd']; subst.
    inversion Hz as [|? ? Hz1 Hz']; subst. apply not_elem_of_cons in Hni as [Hne Hni].
    apply runs_bind. eapply runs_get_pbuf; [done|].
    assert (∃ n, pb_next (c_pbuf c) = Some n) as (n & Hn) by (destruct ds; destruct Hs as [? _]; eauto).
    rewrite Hn in *. apply runs_bind. eapply runs_get_pbuf; [done|]. apply runs_bind. eapply runs_set_pbuf; [done|].
    rewrite u16_small by done.
    eapply runs_mono; [apply IH; simpl; try done|].
    + eapply lseg_frame; [done|intros l' Hl'|done]. simpl. rewrite lookup_insert_ne; [done|]. by intros <-.
    + by rewrite lookup_insert_ne by congruence.
    + simpl in Hfuel. lia.
    + intros r s' [-> ->]. split; [done|]. done.
Qed.

(** The chain [ct], headed by [t], hung behind [ds ++ [c]]; and the structs then. *)
Definition joined (ds : list cell) (c : cell) (t : loc) (ct : list cell) : list cell :=
  map (grow (total ct)) ds ++ with_next (Some t) (grow (total ct) c) :: ct.
Definition joined_pbufs (ds : list cell) (c : cell) (t : loc) (T : Z) (m : gmap loc pbuf) :=
  <[c_loc c := c_pbuf (with_next (Some t) (grow T c))]> (put (map (grow T) ds) m).

Lemma joined_bytes ds c t ct : bytes (joined ds c t ct) = bytes (ds ++ [c]) ++ bytes ct.
Proof.
  unfold joined. rewrite !bytes_app, (same_shape_bytes ds) by apply grow_shape.
  rewrite <- app_assoc. f_equal. unfold bytes. simpl. by rewrite app_nil_r.
Qed.
Lemma joined_locs ds c t ct : locs (joined ds c t ct) = locs (ds ++ [c]) ++ locs ct.
Proof.
  unfold joined. rewrite !locs_app, (same_shape_locs ds) by apply grow_shape.
  by rewrite <- app_assoc.
Qed.

Lemma joined_pbufs_out ds c t T m l :
  l ∉ locs (ds ++ [c]) → joined_pbufs ds c t T m !! l = m !! l.
Proof.
  rewrite locs_app. intros [Hl Hc]%not_elem_of_app. unfold joined_pbufs.
  apply not_elem_of_cons in Hc as [Hc _]. rewrite lookup_insert_ne by congruence.
  apply put_notin. by rewrite (same_shape_locs ds) by apply grow_shape.
Qed.

Lemma joined_pbufs_in ds c t T m e :
  NoDup (locs (ds ++ [c])) → e ∈ map (grow T) ds ++ [with_next (Some t) (grow T c)] →
  joined_pbufs ds c t T m !! c_loc e = Some (c_pbuf e).
Proof.
  rewrite locs_app, NoDup_app. intros (Hd & Hc & _) He. unfold joined_pbufs.
  apply elem_of_app in He as [He|He].
  - assert (c_loc e ∈ locs ds) as Hin.
    { rewrite <- (same_shape_locs ds (map (grow T) ds)) by apply grow_shape. apply list_elem_of_fmap; by exists e. }
    rewrite lookup_insert_ne by (intros Heq; apply (Hc _ Hin); rewrite <- Heq; by left).
    apply put_in; [|done]. by rewrite (same_shape_locs ds) by apply grow_shape.
  - apply elem_of_cons in He as [->|[]%elem_of_nil]. by rewrite lookup_insert_eq.
Qed.

Lemma packet_join s s' h ds c t ct :
  packet s h (ds ++ [c]) → packet s (Some t) ct →
  (∀ l, l ∈ locs (ds ++ [c]) → l ∉ locs ct) → total (ds ++ [c]) + total ct < 2 ^ 16 →
  blocks s' = blocks s → pbufs s' = joined_pbufs ds c t (total ct) (pbufs s) →
  packet s' h (joined ds c t ct).
Proof.
  intros Hh Ht Hdis Hz Hb Hp. pose proof (lseg_nodup _ _ _ (packet_seg _ _ _ Hh)) as Hnd.
  set (T := total ct) in *. split.
  - unfold joined. fold T. change (lseg s' h (map (grow T) ds ++ [with_next (Some t) (grow T c)] ++ ct) None).
    apply lseg_app. pose proof (packet_seg _ _ _ Hh) as (m & Hds & Hc)%lseg_app. exists m. split.
    + eapply lseg_reshape; [done|apply grow_shape| |by rewrite Hb].
      intros e He. rewrite Hp. apply joined_pbufs_in; [done|]. apply elem_of_app. by left.
    + destruct Hc as (-> & Hc & [Hd Hrd] & _). simpl. split_and!; [done| | |].
      * rewrite Hp. apply (joined_pbufs_in _ _ _ _ _ (with_next (Some t) (grow T c))); [done|].
        apply elem_of_app. right. by left.
      * split; [done|]. simpl. rewrite <- Hrd. apply mem_read_ext. intros a _. by rewrite Hb.
      * eapply lseg_frame; [apply (packet_seg _ _ _ Ht)|intros l Hl|by rewrite Hb].
        rewrite Hp. apply joined_pbufs_out. intros Hin. by apply (Hdis l).
  - pose proof (packet_tots _ _ _ Hh) as H. rewrite tots_from_tots, tots_from_app in H.
    destruct H as [Hd [Hc _]]. apply tots_from_0. unfold joined. fold T. apply tots_from_app.
    pose proof (packet_tots _ _ _ Ht) as H. rewrite tots_from_tots in H.
    rewrite !total_cons, total_nil in *. simpl. rewrite total_cons. simpl. split_and!; [|lia|done].
    apply (tots_grow T) in Hd. by replace (_ + _ + 0) with (zlen (c_data c) + 0 + 0 + T) by (fold T; lia).
  - unfold total. rewrite joined_bytes, zlen_app. done.
  - pose proof (packet_cells _ _ _ Hh) as H. apply Forall_app in H as [H1 [H2 _]%Forall_cons].
    apply Forall_app. split; [|constructor; [done|apply (packet_cells _ _ _ Ht)]].
    apply Forall_map. eapply Forall_impl; [exact H1|]. done.
Qed.

Lemma tots_bound T ds rem :
  tots_from rem ds → 0 ≤ rem → 0 ≤ T → total ds + rem + T < 2 ^ 16 →
  Forall (λ c, 0 ≤ pb_tot_len (c_pbuf c) + T < 2 ^ 16) ds.
Proof.
  induction ds as [|c ds IH]; [constructor|]. intros [Ht Htl] Hr HT Hz.
  rewrite total_cons in *. pose proof (total_nonneg ds). pose proof (zlen_nonneg (c_data c)).
  constructor; [lia|]. apply IH; try done. lia.
Qed.

(** The last pbuf of a packet holds what its [tot_len] says. *)
Lemma packet_last s p ds c :
  packet s p (ds ++ [c]) →
  pbufs s !! c_loc c = Some (c_pbuf c) ∧ pb_next (c_pbuf c) = None ∧
  pb_tot_len (c_pbuf c) = zlen (c_data c) ∧ pb_len (c_pbuf c) = zlen (c_data c) ∧
  tots_from (zlen (c_data c)) ds.
Proof.
  intros [Hs Ht _ _]. destruct (lseg_last _ _ _ _ _ Hs) as [Hc Hn].
  apply lseg_app in Hs as (m & _ & (_ & _ & Hd & _)). apply has_payload_len in Hd.
  rewrite tots_from_tots, tots_from_app in Ht. destruct Ht as [Hds [Htc _]].
  rewrite !total_cons, total_nil in *. rewrite !Z.add_0_r in *. done.
Qed.

Lemma packet_some s p cs : packet s p cs → cs ≠ [] → ∃ l, p = Some l.
Proof. intros [Hs _ _ _] Hn. destruct cs; [done|]. destruct Hs as [-> _]. eauto. Qed.

Lemma joined_place ds c t ct : Forall2 same_place ((ds ++ [c]) ++ ct) (joined ds c t ct).
Proof.
  unfold joined. rewrite <- app_assoc. apply Forall2_app; [induction ds; by constructor|].
  constructor; [done|]. induction ct; by constructor.
Qed.

Lemma pbuf_cat_spec_runs s h t ch ct :
  packet s h ch → packet s t ct → ch ≠ [] → ct ≠ [] →
  (∀ l, l ∈ locs ch → l ∉ locs ct) → total ch + total ct < 2 ^ 16 →
  runs (pbuf_cat h t) s (λ _ s', ∃ cs,
    packet s' h cs ∧ bytes cs = bytes ch ++ bytes ct ∧ locs cs = locs ch ++ locs ct ∧
    (s' = s <| pbufs := pbufs s' |> ∧ Forall2 same_place (ch ++ ct) cs) ∧ ∀ l, l ∉ locs ch → pbufs s' !! l = pbufs s !! l).
Proof.
  intros Hh Ht Hch Hct Hdis Hz.
  destruct (packet_some _ _ _ Hh Hch) as [l ->], (packet_some _ _ _ Ht Hct) as [tl ->].
  destruct (exists_last Hch) as (ds & c & ->). clear Hch. pose proof (packet_seg _ _ _ Hh) as Hs.
  pose proof (lseg_nodup _ _ _ Hs) as Hnd.
  destruct (packet_last _ _ _ _ Hh) as (Hc & Hcn & Hctot & Hclen & Htots).
  assert (∃ tq, pbufs s !! tl = Some tq ∧ pb_tot_len tq = total ct ∧ tl ∉ locs (ds ++ [c])) as (tq & Htl & HT & Hni).
  { destruct ct as [|c2 ct]; [done|]. pose proof (packet_seg _ _ _ Ht) as ([= ->] & Htl & _).
    pose proof (packet_tots _ _ _ Ht) as [HT _]. exists (c_pbuf c2). split_and!; [done|done|].
    intros Hin. apply (Hdis _ Hin). by left. }
  pose proof (total_nonneg ct). pose proof (total_nonneg ds). pose proof (zlen_nonneg (c_data c)).
  assert (total (ds ++ [c]) = total ds + zlen (c_data c)) as Htd
    by (rewrite total_app, total_cons, total_nil; lia).
  apply runs_bind, runs_gets. apply runs_bind.
  eapply runs_mono; [apply (cat_loop_spec tl tq (total ct) ds c); try done|].
  { eapply tots_bound; [done|lia..]. }
  { apply lseg_fuel in Hs. rewrite length_app in Hs. simpl in Hs. lia. }
  intros r s1 [-> ->]. pose proof Hni as Hni'. rewrite locs_app, not_elem_of_app in Hni'.
  rewrite locs_app, NoDup_app in Hnd. destruct Hnd as (_ & Hcd & _), Hni' as [Hni' _].
  assert (c_loc c ∉ locs ds) as Hcd' by (intros Hin; apply (Hcd _ Hin); by left).
  assert (∀ l q, l ∉ locs ds → pbufs s !! l = Some q → put (map (grow (total ct)) ds) (pbufs s) !! l = Some q) as Hput.
  { intros l' q Hl' <-. apply put_notin. by rewrite (same_shape_locs ds) by apply grow_shape. }
  apply runs_bind. eapply runs_get_pbuf; [by apply Hput|].
  apply runs_bind, runs_assert; [apply Z.eqb_eq; lia|].
  apply runs_bind, runs_assert; [by rewrite Hcn|].
  apply runs_bind. eapply runs_get_pbuf; [by apply Hput|].
  eapply runs_set_pbuf; [by apply Hput|]. rewrite HT, u16_small by lia.
  exists (joined ds c tl ct). split_and!; [|apply joined_bytes|apply joined_locs|done|apply joined_place|].
  - by eapply packet_join.
  - intros l' Hl'. by apply (joined_pbufs_out ds c tl (total ct)).
Qed.

(** [pbuf_cat] concatenates: for two well-formed packets without a pbuf in
    common whose lengths add up to less than 2^16, the chain headed by the first
    becomes one well-formed packet with the bytes of the first followed by those
    of the second; no data is copied and no other pbuf changes. *)
Theorem pbuf_cat_spec s h t ch ct :
  packet s h ch → packet s t ct → ch ≠ [] → ct ≠ [] →
  (∀ l, l ∈ locs ch → l ∉ locs ct) → total ch + total ct < 2 ^ 16 →
  runs (pbuf_cat h t) s (λ _ s', ∃ cs,
    packet s' h cs ∧ bytes cs = bytes ch ++ bytes ct ∧ locs cs = locs ch ++ locs ct ∧
    blocks s' = blocks s ∧ ∀ l, l ∉ locs ch → pbufs s' !! l = pbufs s !! l).
Proof.
  intros. eapply runs_mono; [by apply pbuf_cat_spec_runs|].
  intros _ s' (cs & ? & ? & ? & [Hs _] & ?). exists cs. split_and!; try done. by rewrite Hs.
Qed.

(** ** Truncation *)

(** The pbuf in which a chain of [n] more bytes ends, cut there. *)
Definition cut (n : Z) (c : cell) : cell :=
  mk_cell (c_loc c)
    ((c_pbuf c) <| pb_len := n |> <| pb_tot_len := n |> <| pb_next := None |>) (ztake n (c_data c)).

Lemma realloc_loop_spec shrink cs : ∀ fuel s l rem,
  lseg s (Some l) cs None → NoDup (locs cs) → 0 ≤ rem ≤ total cs → total cs < 2 ^ 16 →
  tots_from 0 cs → shrink = total cs - rem → (length cs < fuel)%nat →
  runs (pbuf_realloc_loop fuel l rem shrink) s (λ r s', ∃ pre c post n,
    cs = pre ++ c :: post ∧ r = (c_loc c, n) ∧ rem = total pre + n ∧ 0 ≤ n ≤ zlen (c_data c) ∧
    s' = s <| pbufs := put (map (grow (- shrink)) pre) (pbufs s) |>).
Proof.
  induction cs as [|c cs IH]; intros fuel s l rem Hs Hnd Hrem Hz Ht Hsh Hfuel; [done|].
  destruct fuel as [|fuel]; [simpl in *; lia|]. simpl pbuf_realloc_loop.
  destruct Hs as ([= ->] & Hl & Hd & Hs). inversion Hnd as [|? ? Hni Hnd']; subst x l.
  apply has_payload_len in Hd. destruct Ht as [Htot Ht]. rewrite total_cons in *.
  pose proof (zlen_nonneg (c_data c)).
  apply runs_bind. eapply runs_get_pbuf; [done|]. rewrite Hd. case_match eqn:E; bool_prop.
  - apply runs_bind. eapply runs_set_pbuf; [done|].
    assert (∃ n, pb_next (c_pbuf c) = Some n) as (n & Hn).
    { destruct cs as [|c2 cs]; [rewrite total_nil in *; lia|]. destruct Hs as [-> _]. eauto. }
    rewrite Hn in *. rewrite u16_small by (bounds; lia). rewrite u16_small by (bounds; lia).
    eapply runs_mono; [apply IH; simpl; try done; try lia|].
    + eapply lseg_frame; [done|intros l' Hl'|done]. simpl. rewrite lookup_insert_ne; [done|]. by intros <-.
    + simpl in Hfuel. lia.
    + intros r s' (pre & c' & post & k & -> & -> & Hk & Hk' & ->).
      exists (c :: pre), c', post, k. rewrite total_cons. split_and!; [done|done|lia|lia|lia|done].
  - apply runs_ret. exists [], c, cs, rem. rewrite total_nil. split_and!; [done|done|lia|lia|lia|].
    by destruct s.
Qed.

(** The truncated packet. *)
Definition truncated (shrink : Z) (pre : list cell) (n : Z) (c : cell) : list cell :=
  map (grow (- shrink)) pre ++ [cut n c].

Lemma truncated_bytes shrink pre n c :
  0 ≤ n ≤ zlen (c_data c) →
  bytes (truncated shrink pre n c) = ztake (total pre + n) (bytes (pre ++ [c])).
Proof.
  intros. unfold truncated. rewrite !bytes_app, (same_shape_bytes pre) by apply grow_shape.
  unfold total. rewrite ztake_app_ge by (pose proof (zlen_nonneg (bytes pre)); lia).
  f_equal. unfold bytes. simpl. rewrite !app_nil_r. f_equal. lia.
Qed.

Lemma truncated_locs shrink pre n c : locs (truncated shrink pre n c) = locs (pre ++ [c]).
Proof. unfold truncated. rewrite !locs_app. by rewrite (same_shape_locs pre) by apply grow_shape. Qed.

Lemma packet_truncated s s' p pre c post n :
  packet s p (pre ++ c :: post) → 0 ≤ n ≤ zlen (c_data c) →
  let shrink := total (pre ++ c :: post) - (total pre + n) in
  (∀ e, e ∈ truncated shrink pre n c → pbufs s' !! c_loc e = Some (c_pbuf e)) →
  (∀ b, b ∈ data_blocks (pre ++ [c]) → blocks s' !! b = blocks s !! b) →
  packet s' p (truncated shrink pre n c).
Proof.
  intros [Hs Ht Hz Hok] Hn shrink Hin Hb. split.
  - apply lseg_app in Hs as (m & Hpre & (-> & Hc & [Hd Hrd] & _)). apply lseg_app.
    exists (Some (c_loc c)). split.
    + eapply lseg_reshape; [done|apply grow_shape| |].
      * intros e He. apply Hin. apply elem_of_app. by left.
      * intros b Hbin. apply Hb. clear -Hbin. induction pre as [|e pre IH]; [by apply not_elem_of_nil in Hbin|].
        simpl in *. case_match; [|auto]. apply elem_of_cons in Hbin as [->|]; [by left|right; auto].
    + simpl. split_and!; [done| | |done].
      * apply (Hin (cut n c)), elem_of_app. right. by left.
      * split; simpl; [by apply zlen_ztake|].
        rewrite (mem_read_ext s).
        -- rewrite (mem_read_sub _ _ _ _ _ _ Hrd) by lia. unfold zslice. by rewrite zdrop_0.
        -- intros a Ha. apply Hb. clear -Ha. induction pre as [|e pre IH]; simpl.
           ++ rewrite Ha. by left.
           ++ case_match; [by right|done].
  - rewrite tots_from_tots, tots_from_app in Ht. destruct Ht as [Hpre _]. apply tots_from_0.
    apply tots_from_app. simpl. rewrite !total_cons, !total_nil. simpl.
    rewrite zlen_ztake by done. split_and!; [|lia|done].
    apply (tots_grow (- shrink)) in Hpre. replace (n + 0 + 0) with (total (c :: post) + 0 + - shrink); [done|].
    unfold shrink. rewrite total_app. lia.
  - unfold total. rewrite truncated_bytes by done. pose proof (zlen_nonneg (bytes pre)).
    rewrite zlen_ztake; unfold total in *; rewrite !bytes_app, ?bytes_cons, !zlen_app in *;
      pose proof (zlen_nonneg (bytes post)); change (zlen (bytes [])) with 0 in *; lia.
  - apply Forall_app in Hok as [H1 [H2 _]%Forall_cons].
    apply Forall_app. split; [|constructor; done].
    apply Forall_map. eapply Forall_impl; [exact H1|]. done.
Qed.

Lemma owned_split (cs : list cell) : ∃ owned rest,
  cs = owned ++ rest ∧ Forall (λ c, pb_ref (c_pbuf c) = 1) owned ∧
  ∀ c, hd_error rest = Some c → pb_ref (c_pbuf c) ≠ 1.
Proof.
  induction cs as [|c cs (o & r & -> & Ho & Hr)]; [by exists [], []|].
  destruct (decide (pb_ref (c_pbuf c) = 1)) as [H1|H1].
  - exists (c :: o), r. split_and!; [done|by constructor|done].
  - exists [], (c :: o ++ r). split_and!; [done|done|]. by intros ? [= <-].
Qed.

(** Every pbuf of the chain has only the one reference. *)
Definition sole (cs : list cell) : Prop := Forall (λ c, pb_ref (c_pbuf c) = 1) cs.
(** Nothing is left at these addresses. *)
Definition vacant (ls : list loc) s : Prop := ∀ l, l ∈ ls → pbufs s !! l = None ∧ blocks s !! l = None.

(** Freeing a chain, as far as the rest of the memory is concerned. *)
Lemma pbuf_free_frame s p cs :
  lseg s p cs None → p ≠ None → Forall cell_ok cs → Forall (freeable s) cs →
  runs (pbuf_free p) s (λ _ s', (heap_ok s → heap_ok s') ∧ same_rest s s' ∧
    (∀ l, l ∉ locs cs → pbufs s' !! l = pbufs s !! l ∧ blocks s' !! l = blocks s !! l) ∧ (sole cs → vacant (locs cs) s')).
Proof.
  intros Hs Hp Hok Hfr. destruct (owned_split cs) as (o & r & -> & Ho & Hr).
  eapply runs_mono; [by apply (pbuf_free_loop_owned s p o r)|].
  intros n s' (_ & s1 & (Gp & Gb & _) & Hsame & Hk & ->).
  assert (∀ l, l ∉ locs (o ++ r) → (l ∉ locs o) ∧ (l ∉ locs r)) as Hlocs
    by (intros l; rewrite locs_app; by intros [? ?]%not_elem_of_app).
  destruct r as [|c r].
  - split_and!; try apply Hsame; [done| |].
    + intros l [Hl _]%Hlocs. by rewrite Gp, Gb, !decide_False.
    + rewrite app_nil_r. intros _ l Hl. by rewrite Gp, Gb, !decide_True.
  - split; [|split; [done|split]].
    + intros H. apply heap_ok_set_pbuf; [auto|]. eapply heap_ok_used; [by apply Hk|]. left.
      rewrite Gp, decide_False.
      * apply lseg_app in Hs as (? & _ & (_ & -> & _)). by eexists.
      * apply lseg_nodup in Hs. rewrite locs_app, NoDup_app in Hs. destruct Hs as (_ & Hn & _).
        intros Hin. apply (Hn _ Hin). by left.
    + intros l [Hl Hc]%Hlocs. apply not_elem_of_cons in Hc as [Hc _]. simpl.
      by rewrite lookup_insert_ne, Gp, Gb, !decide_False by congruence.
    + intros [_ [Hc _]%Forall_cons]%Forall_app. by destruct (Hr c).
Qed.

Lemma truncated_in shrink pre n c (m m' : gmap loc pbuf) e :
  NoDup (locs pre) → c_loc c ∉ locs pre →
  (∀ l, l ∈ locs pre → m' !! l = put (map (grow (- shrink)) pre) m !! l) →
  e ∈ truncated shrink pre n c →
  <[c_loc c := c_pbuf (cut n c)]> m' !! c_loc e = Some (c_pbuf e).
Proof.
  intros Hnd Hc Hm [He| ->%list_elem_of_singleton]%elem_of_app; [|by rewrite lookup_insert_eq].
  assert (c_loc e ∈ locs pre) as Hin.
  { rewrite <- (same_shape_locs pre (map (grow (- shrink)) pre)) by apply grow_shape.
    apply list_elem_of_fmap. by exists e. }
  rewrite lookup_insert_ne by (by intros Heq; rewrite Heq in Hc). rewrite Hm by done.
  apply put_in; [|done]. by rewrite (same_shape_locs pre) by apply grow_shape.
Qed.

(** Releasing the pbufs behind [c]. *)
Lemma realloc_free_rest s m c post :
  lseg s (pb_next (c_pbuf c)) post None → Forall cell_ok post → Forall own_data post →
  Forall (freeable s) post → (∀ l, l ∈ locs post → m !! l = pbufs s !! l) →
  runs (match pb_next (c_pbuf c) with
        | None => ret tt
        | Some n => let! _ := pbuf_free (Some n) in ret tt
        end) (s <| pbufs := m |>)
    (λ _ s', (∀ l, l ∉ locs post → pbufs s' !! l = m !! l ∧ blocks s' !! l = blocks s !! l) ∧ (sole post → vacant (locs post) s')).
Proof.
  intros Hs Hok Hown Hfr Hm. destruct (pb_next (c_pbuf c)) as [n|] eqn:En.
  2: { apply runs_ret. destruct post as [|? ?]; [|by destruct Hs]. split; [done|]. by intros _ l ?%not_elem_of_nil. }
  apply runs_bind. eapply runs_mono; [apply (pbuf_free_frame _ (Some n) post)|]; try done.
  - by eapply lseg_frame.
  - intros k s' (_ & _ & H). by apply runs_ret.
Qed.

(** The first pbuf of a packet, truncated. *)
Definition same_front (n : Z) (c c' : cell) : Prop :=
  c_loc c' = c_loc c ∧ pb_payload (c_pbuf c') = pb_payload (c_pbuf c) ∧ c_data c' = ztake n (c_data c).
Lemma truncated_front shrink pre n c post : 0 ≤ n ≤ zlen (c_data c) →
  ∃ c0 rest c' rest', pre ++ c :: post = c0 :: rest ∧ truncated shrink pre n c = c' :: rest' ∧ same_front (total pre + n) c0 c'.
Proof.
  intros Hn. destruct pre as [|c0 pre].
  - exists c, post, (cut n c), []. by rewrite total_nil.
  - exists c0, (pre ++ c :: post), (grow (- shrink) c0), (truncated shrink pre n c). split_and!; [done..|]. split_and!; [done..|].
    rewrite total_cons, ztake_ge; [done|]. pose proof (total_nonneg pre). lia.
Qed.

(** Of the pbufs [cs] the first, [cs'], are left; those behind are released, unless
    somebody else has a reference to them; the other pbufs and blocks are as before. *)
Record cut_down s cs s' cs' : Prop := {
  cd_locs : locs cs' `prefix_of` locs cs;
  cd_freed : sole cs → ∀ l, l ∈ locs cs → l ∉ locs cs' → pbufs s' !! l = None ∧ blocks s' !! l = None;
  cd_others : ∀ l, l ∉ locs cs → pbufs s' !! l = pbufs s !! l ∧ blocks s' !! l = blocks s !! l
}.
Lemma cut_down_refl s cs : cut_down s cs s cs.
Proof. by split. Qed.
(** The packet [cs] at [p] became [cs'], its first [n] bytes. *)
Record trimmed (n : Z) s (p : option loc) cs s' cs' : Prop := {
  tm_packet : packet s' p cs';
  tm_bytes : bytes cs' = ztake n (bytes cs);
  tm_front : ∃ c0 rest c' rest', cs = c0 :: rest ∧ cs' = c' :: rest' ∧ same_front n c0 c';
  tm_cut : cut_down s cs s' cs'
}.

(** [pbuf_realloc] truncates a packet of at least [new_len] bytes. *)
Theorem pbuf_realloc_spec s p cs new_len :
  packet s p cs → cs ≠ [] → Forall own_data cs → Forall (freeable s) cs → 0 ≤ new_len ≤ total cs →
  runs (pbuf_realloc p new_len) s (λ _ s', ∃ cs', trimmed new_len s p cs s' cs').
Proof.
  intros Hpk Hne Hown Hfr Hlen. destruct (packet_some _ _ _ Hpk Hne) as [l ->].
  pose proof (packet_seg _ _ _ Hpk) as Hs. pose proof (packet_size _ _ _ Hpk) as Hz.
  pose proof (lseg_nodup _ _ _ Hs) as Hnd. unfold pbuf_realloc.
  assert (∃ q, pbufs s !! l = Some q ∧ pb_tot_len q = total cs) as (q & Hq & Htot).
  { destruct cs as [|c cs]; [done|]. destruct Hs as ([= ->] & Hl & _).
    pose proof (packet_tots _ _ _ Hpk) as [Ht _]. eauto. }
  apply runs_bind. eapply runs_get_pbuf; [done|]. rewrite Htot. destruct (total cs <=? new_len) eqn:E; bool_prop.
  { apply runs_ret. exists cs. split; try apply cut_down_refl; [done|rewrite ztake_ge; [done|]; unfold total in E; lia|].
    destruct cs as [|c0 cs]; [done|]. exists c0, cs, c0, cs. rewrite total_cons in E. pose proof (total_nonneg cs).
    split_and!; [done..|]. split_and!; [done..|]. rewrite ztake_ge; [done|lia]. }
  rewrite u16_small by (bounds; lia). apply runs_bind, runs_gets, runs_bind.
  eapply runs_mono; [apply (realloc_loop_spec _ cs); try done|].
  { apply tots_from_tots, (packet_tots _ _ _ Hpk). }
  { by eapply lseg_fuel. }
  intros r s1 (pre & c & post & n & -> & -> & -> & Hn & ->).

  set (shrink := total (pre ++ c :: post) - (total pre + n)) in *.
  set (m := put (map (grow (- shrink)) pre) (pbufs s)).
  pose proof Hs as (x & _ & (-> & Hc & _ & Hpost))%lseg_app.
  pose proof (packet_cells _ _ _ Hpk) as Hok. apply Forall_app in Hok as [_ [_ Hok]%Forall_cons].
  apply Forall_app in Hown as [Hownp [[o [Ho Hoo]] Hown]%Forall_cons].
  apply Forall_app in Hfr as [_ [_ Hfr]%Forall_cons].
  assert (∀ l, l ∉ locs pre → m !! l = pbufs s !! l) as Hm.
  { intros l' Hl'. apply put_notin. by rewrite (same_shape_locs pre) by apply grow_shape. }
  rewrite locs_app, NoDup_app in Hnd. destruct Hnd as (Hndp & Hcp & [Hcq _]%NoDup_cons).
  assert (c_loc c ∉ locs pre) as Hcpre by (intros Hin; apply (Hcp _ Hin); by left).
  apply runs_bind. eapply runs_get_pbuf; [simpl; by rewrite Hm|].
  apply runs_bind. eapply (runs_mono _ _ (λ l' s', l' = c_loc c ∧ s' = s <| pbufs := m |>)).
  { destruct (_ && _)%bool; [|by apply runs_ret]. rewrite Ho. by apply runs_ret. }
  intros l' s' [-> ->]. apply runs_bind. eapply runs_update_pbuf; [simpl; by rewrite Hm|]. simpl.
  apply runs_bind. eapply runs_mono; [apply (realloc_free_rest s (<[c_loc c := (c_pbuf c) <| pb_len := n |> <| pb_tot_len := n |>]> m) c post); try done|].
  { intros l' Hl'. rewrite lookup_insert_ne by (by intros <-). apply Hm. intros Hin. apply (Hcp _ Hin). by right. }
  intros [] s' [Hs' Hvac]. eapply runs_update_pbuf; [destruct (Hs' (c_loc c) Hcq) as [-> _]; by rewrite lookup_insert_eq|].
  assert (∀ l, l ∉ locs pre → l ≠ c_loc c → l ∉ locs post →
    <[c_loc c := c_pbuf (cut n c)]> (pbufs s') !! l = pbufs s !! l ∧ blocks s' !! l = blocks s !! l) as Hframe.
  { intros l' H1 H2 H3. destruct (Hs' l' H3) as [Hp ->]. rewrite lookup_insert_ne by congruence.
    by rewrite Hp, lookup_insert_ne, Hm by congruence. }
  exists (truncated shrink pre n c). split.
  - eapply packet_truncated; [done|done| |].
    + intros e He. apply (truncated_in shrink pre n c (pbufs s)); [done|done| |done].
      intros l' Hl'. assert (l' ∉ locs post) as Hq' by (intros Hin; apply (Hcp _ Hl'); by right).
      destruct (Hs' l' Hq') as [-> _]. by rewrite lookup_insert_ne by (by intros <-).
    + intros b Hb. rewrite own_data_blocks, locs_app in Hb
        by (apply Forall_app; split; [done|constructor; [by exists o|done]]).
      apply Hs'. apply elem_of_app in Hb as [Hb| ->%list_elem_of_singleton]; [|done].
      intros Hin. apply (Hcp _ Hb). by right.
  - rewrite truncated_bytes by done. rewrite !bytes_app, !bytes_cons. change (bytes []) with (@nil Z).
    rewrite app_nil_r, app_assoc, (ztake_app_le _ (_ ++ _)); [done|].
    rewrite zlen_app. fold (total pre). lia.
  - by apply truncated_front.
  - split; [rewrite truncated_locs, !locs_app; apply prefix_app; by exists (locs post)| |].
    2: { intros l' Hl'. rewrite locs_app in Hl'. apply not_elem_of_app in Hl' as [H1 [H2 H3]%not_elem_of_cons]. by apply Hframe. }
    intros [_ [_ Hsole]%Forall_cons]%Forall_app l' Hl' Hn'. rewrite truncated_locs, locs_app in Hn'.
    apply not_elem_of_app in Hn' as [H1 [H2 _]%not_elem_of_cons]. rewrite locs_app in Hl'.
    apply elem_of_app in Hl' as [?|[?|Hl']%elem_of_cons]; [done..|]. simpl. rewrite lookup_insert_ne by congruence.
    exact (Hvac Hsole l' Hl').
Qed.

(** ** Concrete runs *)

Lemma pbuf_header_roundtrip_witness :
  runs (pbuf_add_header (Some 1%positive) 20) ex_store (λ r s1,
    (r = 1 ∧ s1 = ex_store) ∨
    (r = 0 ∧ runs (pbuf_remove_header (Some 1%positive) 20) s1 (λ r s2, r = 0 ∧ s2 = ex_store))).
Proof.
  apply (pbuf_header_roundtrip ex_store _ ex_cell1 [ex_cell2]); [exact ex_packet| |lia].
  exists 64. done.
Defined.

Lemma pbuf_cat_spec_witness :
  runs (pbuf_cat (Some 1%positive) (Some 3%positive)) ex_store (λ _ s', ∃ cs,
    packet s' (Some 1%positive) cs ∧ bytes cs = [1; 2; 3; 4; 5; 6; 7] ∧
    locs cs = [1%positive; 2%positive; 3%positive] ∧
    blocks s' = blocks ex_store ∧
    ∀ l, l ∉ [1%positive; 2%positive] → pbufs s' !! l = pbufs ex_store !! l).
Proof.
  apply (pbuf_cat_spec ex_store _ _ [ex_cell1; ex_cell2] [ex_cell3]); try done.
  - exact ex_packet.
  - exact ex_packet3.
  - intros l Hl Hl'. apply list_elem_of_singleton in Hl' as ->. by vm_compute in Hl; inversion_clear Hl as [|? ? ? H]; inversion_clear H as [|? ? ? H']; inversion H'.
Defined.

Lemma pbuf_realloc_spec_witness :
  runs (pbuf_realloc (Some 1%positive) 2) ex_store (λ _ s', ∃ cs',
    trimmed 2 ex_store (Some 1%positive) [ex_cell1; ex_cell2] s' cs').
Proof.
  apply (pbuf_realloc_spec ex_store _ [ex_cell1; ex_cell2] 2); [exact ex_packet|done|exact ex_own|exact ex_freeable|done].
Defined.
