(* ===== verification/PbufDataFacts.v ===== *)
(** * What reading and writing payloads returns

    [core/pbuf.c] against the packet's bytes as one list. *)

From S2P Require Import Prelude Mbox Heap HeapFacts Pbuf PbufData Packet PbufFacts PbufAlloc PbufChain.

Implicit Types s : store.

(** ** Finding an offset *)

(** Where [pbuf_skip] stops: the cells from the one that holds the offset on. *)
Fixpoint seek (cs : list cell) (off : Z) : list cell * Z :=
  match cs with
  | [] => ([], off)
  | c :: cs' => if zlen (c_data c) <=? off then seek cs' (off - zlen (c_data c)) else (cs, off)
  end.

Definition head_loc (cs : list cell) : option loc := c_loc <$> head cs.

Lemma lseg_head_loc s p cs : lseg s p cs None → p = head_loc cs.
Proof. destruct cs; [done|]. by intros [-> _]. Qed.

Lemma pbuf_skip_loop_spec fuel s p cs off :
  lseg s p cs None → 0 ≤ off < 2 ^ 16 → (length cs < fuel)%nat →
  pbuf_skip_loop fuel s p off = Val (head_loc (seek cs off).1, (seek cs off).2).
Proof.
  revert fuel p off. induction cs as [|c cs IH]; intros fuel p off Hs Hoff Hfuel.
  { simpl in Hs. subst p. by destruct fuel. }
  destruct fuel as [|fuel]; [simpl in *; lia|]. destruct Hs as (-> & Hl & Hd & Hs).
  apply has_payload_len in Hd. pose proof (zlen_nonneg (c_data c)).
  simpl. unfold get_pbuf. rewrite Hl. simpl. rewrite Hd. case_match; bool_prop; [|done].
  rewrite u16_small by lia. apply IH; [done|lia|simpl in Hfuel; lia].
Qed.

(** A position in the packet is one in the cells found. *)
Lemma seek_spec s p cs off :
  lseg s p cs None → 0 ≤ off →
  let '(cs', o) := seek cs off in
  lseg s (head_loc cs') cs' None ∧ zdrop off (bytes cs) = zdrop o (bytes cs') ∧ 0 ≤ o ∧
  off - o = total cs - total cs' ∧
  match cs' with [] => total cs ≤ off | c :: _ => o < zlen (c_data c) end.
Proof.
  revert p off. induction cs as [|c cs IH]; intros p off Hs Hoff; simpl.
  { rewrite total_nil. split_and!; done || lia. }
  destruct (zlen (c_data c) <=? off) eqn:E; bool_prop.
  - destruct Hs as (_ & _ & _ & Hs). specialize (IH _ (off - zlen (c_data c)) Hs ltac:(lia)).
    destruct (seek cs _) as [cs' o]. destruct IH as (? & Heq & ? & Ht & Hc). rewrite total_cons.
    split_and!; [done| |done|lia|destruct cs'; lia].
    rewrite bytes_cons, zdrop_app_ge by lia. done.
  - pose proof (lseg_head_loc _ _ _ Hs) as ->. split_and!; done || lia.
Qed.

Lemma seek_suffix cs off : ∃ pre, cs = pre ++ (seek cs off).1.
Proof.
  revert off. induction cs as [|c cs IH]; intros off; [by exists []|]. simpl.
  case_match; [|by exists []]. destruct (IH (off - zlen (c_data c))) as [pre Hpre].
  exists (c :: pre). simpl. by f_equal.
Qed.

Lemma packet_get s l cs :
  packet s (Some l) cs → ∃ q, get_pbuf s l = Val q ∧ pb_tot_len q = total cs.
Proof.
  intros Hpk. destruct cs as [|c cs]; [by pose proof (packet_seg _ _ _ Hpk)|].
  pose proof (packet_seg _ _ _ Hpk) as ([= ->] & Hl & _). unfold get_pbuf. rewrite Hl.
  eexists. split; [done|]. apply (packet_tots _ _ _ Hpk).
Qed.

Lemma zget_app_l {A} (l1 l2 : list A) i : 0 ≤ i < zlen l1 → zget (l1 ++ l2) i = zget l1 i.
Proof.
  unfold zget, zlen. intros. rewrite (proj2 (Z.ltb_ge _ _)) by lia. apply lookup_app_l. lia.
Qed.
Lemma zget_zdrop {A} (l : list A) n i : 0 ≤ n → 0 ≤ i → zget (zdrop n l) i = zget l (n + i).
Proof.
  unfold zget, zdrop. intros. rewrite !(proj2 (Z.ltb_ge _ _)) by lia. rewrite lookup_drop. f_equal. lia.
Qed.
Lemma zslice_1 {A} (l : list A) i x : zget l i = Some x → zslice i 1 l = [x].
Proof.
  unfold zget, zslice, ztake, zdrop. case_match eqn:E; [done|]. bool_prop. intros H.
  change (Z.to_nat 1) with 1%nat. by rewrite (drop_S _ x) by done.
Qed.
Lemma zget_Some {A} (l : list A) i : 0 ≤ i < zlen l → ∃ x, zget l i = Some x.
Proof.
  unfold zget, zlen. intros. rewrite (proj2 (Z.ltb_ge _ _)) by lia.
  apply lookup_lt_is_Some. lia.
Qed.
Lemma zget_zslice {A} (l : list A) o n i :
  0 ≤ o → 0 ≤ i < n → zget (zslice o n l) i = zget l (o + i).
Proof.
  unfold zget, zslice, ztake, zdrop. intros. rewrite !(proj2 (Z.ltb_ge _ _)) by lia.
  rewrite lookup_take_lt, lookup_drop by lia. f_equal. lia.
Qed.

(** The byte at an offset. *)
Lemma pbuf_try_get_at_spec s p cs off :
  lseg s p cs None → 0 ≤ off < 2 ^ 16 →
  pbuf_try_get_at s p off = Val (default (-1) (zget (bytes cs) off)).
Proof.
  intros Hs Hoff. unfold pbuf_try_get_at, pbuf_skip_const.
  rewrite (pbuf_skip_loop_spec _ _ _ cs) by (done || by eapply lseg_fuel). simpl.
  pose proof (seek_spec s p cs off Hs ltac:(lia)) as Hk. destruct (seek cs off) as [cs' o].
  destruct Hk as (Hs' & Hb & Ho & Ht & Hc). simpl.
  destruct cs' as [|c cs']; simpl.
  - f_equal. unfold zget. rewrite (proj2 (Z.ltb_ge _ _)), (proj2 (lookup_ge_None _ _)) by (unfold total, zlen in *; lia). done.
  - destruct Hs' as (_ & Hl & [Hlen Hrd] & _). unfold get_pbuf. rewrite Hl. simpl.
    rewrite <- Hlen, (proj2 (Z.ltb_lt _ _)) by done.
    destruct (zget_Some (c_data c) o) as [x Hx]; [lia|].
    rewrite (mem_read_sub _ _ _ (c_data c)) by (done || lia). simpl.
    rewrite (zslice_1 _ _ x) by done. simpl. f_equal.
    replace off with (off + 0) by lia. rewrite <- zget_zdrop, Hb, zget_zdrop by lia.
    rewrite Z.add_0_r, bytes_cons, zget_app_l by lia. by rewrite Hx.
Qed.

(** ** Copying out *)


Lemma copy_partial_done fuel s p dst left copied off :
  pbuf_copy_partial_loop fuel s p dst left copied 0 off = Val (copied, dst).
Proof. by destruct fuel, p. Qed.

(** One pbuf of the loop: [k] bytes from [off] on. *)
Lemma copy_step off len (d rest : list Z) :
  0 ≤ off ≤ zlen d → 0 ≤ len →
  let k := Z.min len (zlen d - off) in
  ztake len (zdrop off (d ++ rest)) = zslice off k d ++ ztake (len - k) rest.
Proof.
  intros Hoff Hlen k. rewrite zdrop_app_le by lia.
  replace len with (k + (len - k)) at 1 by lia. rewrite ztake_add by lia. f_equal.
  - unfold zslice. rewrite ztake_app_le; [done|]. rewrite zlen_zdrop; lia.
  - destruct (decide (len ≤ zlen d - off)).
    + assert (len - k = 0) as -> by lia. by rewrite !ztake_0.
    + rewrite zdrop_app_ge by (rewrite zlen_zdrop; lia). rewrite zlen_zdrop by lia.
      by replace (k - (zlen d - off)) with 0 by lia.
Qed.

Lemma copy_partial_loop_spec fuel s p cs dst left copied len off :
  lseg s p cs None → total cs < 2 ^ 16 → (length cs < fuel)%nat →
  0 ≤ off < 2 ^ 16 → 0 ≤ len < 2 ^ 16 → 0 ≤ left → 0 ≤ copied →
  let d := ztake len (zdrop off (bytes cs)) in
  left + zlen d ≤ zlen dst → left + zlen d < 2 ^ 16 → copied + zlen d < 2 ^ 16 →
  pbuf_copy_partial_loop fuel s p dst left copied len off = Val (copied + zlen d, zsplice left d dst).
Proof.
  revert fuel p dst left copied len off.
  induction cs as [|c cs IH]; intros fuel p dst left copied len off Hs Htot Hfuel Hoff Hlen Hleft Hcop d Hdst Hl16 Hc16.
  { subst d. unfold bytes in *. simpl in *. rewrite zdrop_nil, ztake_nil, zlen_nil, Z.add_0_r, zsplice_nil in * by lia.
    subst p. destruct fuel; simpl; by case_match. }
  destruct (decide (len = 0)) as [->|Hne].
  { rewrite copy_partial_done. subst d. by rewrite ztake_0, zlen_nil, Z.add_0_r, zsplice_nil. }
  destruct fuel as [|fuel]; [simpl in *; lia|]. destruct Hs as (-> & Hl & [Hz Hrd] & Hs).
  pose proof (zlen_nonneg (c_data c)). simpl pbuf_copy_partial_loop.
  rewrite (proj2 (Z.eqb_neq len 0)) by done. unfold get_pbuf. rewrite Hl. simpl. rewrite <- Hz in *.
  simpl in Hfuel. destruct (negb (off =? 0) && (zlen (c_data c) <=? off))%bool eqn:E.
  - bool_prop. rewrite u16_small by lia. subst d. rewrite total_cons in Htot. rewrite bytes_cons, zdrop_app_ge in * by lia.
    apply IH; try done; lia.
  - assert (off ≤ zlen (c_data c)) as Hoc by (apply andb_false_iff in E as [?|?]; bool_prop; lia).
    subst d. rewrite bytes_cons, copy_step in * by lia.
    set (k := Z.min len (zlen (c_data c) - off)) in *.
    rewrite total_cons in Htot. pose proof (total_nonneg cs).
    rewrite zlen_app, zlen_zslice in * by lia. pose proof (zlen_nonneg (ztake (len - k) (bytes cs))).
    rewrite (u16_small (_ - off)) by lia.
    replace (if len <? zlen (c_data c) - off then len else zlen (c_data c) - off) with k
      by (subst k; case_match; bool_prop; lia).
    rewrite (mem_read_sub _ _ _ (c_data c)) by (done || lia). simpl.
    rewrite buf_write_ok by (rewrite ?zlen_zslice; lia). simpl.
    rewrite !u16_small by lia. rewrite IH; rewrite ?zdrop_0; try done; try lia.
    + f_equal. f_equal; [lia|]. rewrite <- zsplice_app by (rewrite ?zlen_zslice; lia).
      by rewrite zlen_zslice by lia.
    + rewrite zlen_zsplice; rewrite ?zlen_zslice; lia.
Qed.

Lemma pbuf_copy_partial_spec_runs s p cs dst len offset :
  packet s p cs → p ≠ None → 0 ≤ offset < 2 ^ 16 → 0 ≤ len < 2 ^ 16 →
  let d := ztake len (zdrop offset (bytes cs)) in
  zlen d ≤ zlen dst →
  pbuf_copy_partial s p (Some dst) len offset = Val (zlen d, d ++ zdrop (zlen d) dst).
Proof.
  intros Hpk Hp Hoff Hlen d Hdst. unfold pbuf_copy_partial. rewrite bool_decide_true by done. unfold res_assert, rbind.
  pose proof (packet_size _ _ _ Hpk) as Hz. pose proof (packet_seg _ _ _ Hpk) as Hs.
  assert (zlen d < 2 ^ 16) as Hd.
  { subst d. rewrite zlen_ztake_min by lia. lia. }
  rewrite (copy_partial_loop_spec _ _ _ cs); try done; try lia. by eapply lseg_fuel.
Qed.

(** [pbuf_copy_partial] copies the bytes from [offset] on, at most [len] and
    no more than the packet has, to the start of the buffer, leaves the rest of
    the buffer alone, and returns their number; it terminates on every
    well-formed packet, whatever the lengths of its pbufs. *)
Theorem pbuf_copy_partial_spec s p cs dst len offset :
  packet s p cs → p ≠ None → 0 ≤ offset < 2 ^ 16 → 0 ≤ len < 2 ^ 16 →
  let d := ztake len (zdrop offset (bytes cs)) in
  zlen d ≤ zlen dst →
  pbuf_copy_partial s p (Some dst) len offset = Val (zlen d, d ++ zdrop (zlen d) dst).
Proof. apply pbuf_copy_partial_spec_runs. Qed.

(** ** Copying in *)

(** The chain with its first bytes replaced by [d]. *)
Fixpoint fill (cs : list cell) (d : list Z) : list cell :=
  match cs with
  | [] => []
  | c :: cs =>
      let n := zlen (c_data c) in
      mk_cell (c_loc c) (c_pbuf c) (ztake n d ++ zdrop (zlen (ztake n d)) (c_data c)) :: fill cs (zdrop n d)
  end.

Lemma fill_nil cs : fill cs [] = cs.
Proof.
  induction cs as [|[l q d] cs IH]; [done|]. simpl. by rewrite zdrop_nil, ztake_nil, IH.
Qed.
Lemma fill_locs cs d : locs (fill cs d) = locs cs.
Proof. revert d. induction cs as [|c cs IH]; intros d; [done|]. simpl. by f_equal. Qed.
Lemma fill_pbufs cs d : c_pbuf <$> fill cs d = c_pbuf <$> cs.
Proof. revert d. induction cs as [|c cs IH]; intros d; [done|]. simpl. by f_equal. Qed.
Lemma fill_bytes cs d : zlen d ≤ total cs → bytes (fill cs d) = d ++ zdrop (zlen d) (bytes cs).
Proof.
  revert d. induction cs as [|c cs IH]; intros d Hd.
  { rewrite total_nil in Hd. pose proof (zlen_nonneg d). rewrite (zlen_0_nil d) by lia. done. }
  rewrite total_cons in Hd. simpl. rewrite !bytes_cons. simpl.
  pose proof (zlen_nonneg (c_data c)). pose proof (total_nonneg cs). set (n := zlen (c_data c)) in *.
  rewrite IH by (rewrite zlen_zdrop_max; lia). rewrite zlen_zdrop_max, zlen_ztake_min by lia.
  destruct (decide (n ≤ zlen d)).
  - rewrite Z.min_l, Z.max_r by lia. rewrite (zdrop_ge n (c_data c)) by lia. rewrite app_nil_r, app_assoc, ztake_zdrop.
    by rewrite (zdrop_app_ge (zlen d)) by lia.
  - rewrite Z.min_r, Z.max_l by lia. rewrite (ztake_ge n), (zdrop_ge n d), zdrop_0 by lia.
    rewrite zdrop_app_le by lia. by rewrite <- app_assoc.
Qed.
Lemma fill_total cs d : zlen d ≤ total cs → total (fill cs d) = total cs.
Proof.
  intros. unfold total in *. rewrite fill_bytes by done. pose proof (zlen_nonneg d).
  rewrite zlen_app, zlen_zdrop; lia.
Qed.

Lemma mem_write_own s c bs :
  own_data c → has_payload s (c_pbuf c) (c_data c) → zlen bs ≤ zlen (c_data c) →
  runs (mem_write (pb_payload (c_pbuf c)) 0 bs) s (λ _ s',
    pbufs s' = pbufs s ∧ same_rest s s' ∧ tcpip_msgs s' = tcpip_msgs s ∧
    has_payload s' (c_pbuf c) (bs ++ zdrop (zlen bs) (c_data c)) ∧
    (∀ b, b ≠ c_loc c → blocks s' !! b = blocks s !! b) ∧
    (∀ b, is_Some (blocks s !! b) → is_Some (blocks s' !! b))).
Proof.
  intros (o & Ho & Hlo) [Hlen Hrd] Hbs. unfold runs, mem_write. pose proof (zlen_nonneg bs).
  unfold SIZEOF_STRUCT_PBUF in Hlo.
  destruct (zlen bs =? 0) eqn:E; bool_prop.
  { rewrite (zlen_0_nil _ E). split_and!; done. }
  rewrite Ho in *. apply mem_read_inv in Hrd as (a & b & [= <-] & Hb & Hd & ? & ? & Hlb); [|lia].
  simpl in *. rewrite Hb. simpl. rewrite Z.add_0_r in *.
  rewrite !(proj2 (Z.leb_le _ _)) by lia. simpl. split; [done|split; [done|split; [done|split; [|split]]]].
  - split; [rewrite zlen_app, zlen_zdrop; lia|]. rewrite Ho.
    rewrite (mem_read_block _ _ (zsplice o bs b)); simpl; rewrite ?lookup_insert_eq, ?Z.add_0_r; try done; try lia.
    + rewrite zslice_zsplice_prefix by lia. by rewrite <- Hd.
    + rewrite zlen_zsplice; lia.
  - intros b' Hne. by rewrite lookup_insert_ne.
  - intros b' Hb'. rewrite lookup_insert. by case_decide.
Qed.

Lemma take_loop_spec cs : ∀ fuel s p data tot cop,
  lseg s p cs None → Forall own_data cs → NoDup (locs cs) → 0 ≤ tot ≤ total cs →
  0 ≤ cop → cop + tot ≤ zlen data → (length cs < fuel)%nat →
  runs (pbuf_take_loop fuel p data tot cop) s (λ n s',
    n = cop + tot ∧ lseg s' p (fill cs (zslice cop tot data)) None ∧ pbufs s' = pbufs s ∧
    same_rest s s' ∧ tcpip_msgs s' = tcpip_msgs s ∧ (∀ b, b ∉ locs cs → blocks s' !! b = blocks s !! b) ∧
    ∀ b, is_Some (blocks s !! b) → is_Some (blocks s' !! b)).
Proof.
  induction cs as [|c cs IH]; intros fuel s p data tot cop Hs Hown Hnd Htot Hcop Hdata Hfuel.
  { rewrite total_nil in Htot. assert (tot = 0) as -> by lia. rewrite Z.add_0_r.
    destruct fuel; apply runs_ret; split_and!; done. }
  destruct (decide (tot = 0)) as [->|Hne].
  { assert (pbuf_take_loop fuel p data 0 cop = ret cop) as -> by by destruct fuel.
    apply runs_ret. unfold zslice. rewrite ztake_0, fill_nil, Z.add_0_r. split_and!; done. }
  destruct fuel as [|fuel]; [simpl in *; lia|]. destruct Hs as (-> & Hl & Hd & Hs).
  apply Forall_cons in Hown as [Hc Hown]. apply NoDup_cons in Hnd as [Hni Hnd].
  pose proof (has_payload_len _ _ _ Hd) as Hlen. pose proof (zlen_nonneg (c_data c)). rewrite total_cons in Htot.
  simpl pbuf_take_loop. rewrite (proj2 (Z.eqb_neq tot 0)) by done.
  apply runs_bind. eapply runs_get_pbuf; [done|]. rewrite Hlen.
  set (n := zlen (c_data c)) in *. replace (if n <? tot then n else tot) with (Z.min n tot) by (case_match; bool_prop; lia).
  set (k := Z.min n tot). apply runs_bind. eapply runs_ask; [apply buf_read_ok; lia|].
  apply runs_bind. eapply runs_mono; [apply mem_write_own; try done; rewrite zlen_zslice; lia|].
  intros [] s1 (Hp1 & Hr1 & Hm1 & Hd1 & Hb1 & Hk1).
  assert (lseg s1 (pb_next (c_pbuf c)) cs None) as Hs1.
  { eapply lseg_frame; [done|by rewrite Hp1|]. intros b Hb. rewrite own_data_blocks in Hb by done.
    apply Hb1. by intros ->. }
  pose proof (total_nonneg cs).
  eapply runs_mono; [apply IH; try done; try lia; simpl in Hfuel; lia|].
  intros m s' (-> & Hs' & Hp' & Hr' & Hm' & Hb' & Hk'). split; [lia|].
  assert (ztake n (zslice cop tot data) = zslice cop k data) as Htk.
  { unfold zslice at 1. destruct (decide (n ≤ tot)).
    - rewrite ztake_ztake by lia. unfold k. by rewrite Z.min_l by lia.
    - rewrite ztake_ge by (fold (zslice cop tot data); rewrite zlen_zslice; lia). unfold k. by rewrite Z.min_r by lia. }
  assert (zdrop n (zslice cop tot data) = zslice (cop + k) (tot - k) data) as Hdk.
  { destruct (decide (n ≤ tot)).
    - rewrite zdrop_zslice by lia. unfold k. by rewrite Z.min_l by lia.
    - rewrite zdrop_ge by (rewrite zlen_zslice; lia). replace (tot - k) with 0 by lia. done. }
  split_and!.
  - simpl. fold n. rewrite Htk, Hdk. split_and!; [done|by rewrite Hp', Hp1| |done].
    destruct Hd1 as [Hdl Hdr]. split; [done|]. rewrite <- Hdr. apply mem_read_ext.
    intros a Ha. destruct Hc as (o & Ho & _). rewrite Ho in Ha. injection Ha as <-. by apply Hb'.
  - by rewrite Hp'.
  - unfold same_rest in *. naive_solver congruence.
  - by rewrite Hm'.
  - intros b [H1 H2]%not_elem_of_cons. by rewrite Hb', Hb1.
  - auto.
Qed.

Lemma tots_fill cs d rem : tots_from rem cs → zlen d ≤ total cs → tots_from rem (fill cs d).
Proof.
  revert d. induction cs as [|c cs IH]; intros d; [done|]. intros [Ht Htl] Hd. simpl fill. rewrite total_cons in *.
  pose proof (total_nonneg cs). pose proof (zlen_nonneg (c_data c)). pose proof (zlen_nonneg d).
  assert (zlen (zdrop (zlen (c_data c)) d) ≤ total cs) by (rewrite zlen_zdrop_max; lia).
  split; [|by apply IH]. simpl. rewrite total_cons, fill_total by done. simpl.
  rewrite zlen_app, zlen_zdrop_max, zlen_ztake_min by apply zlen_nonneg || lia.
  rewrite Ht. lia.
Qed.

Lemma fill_cells cs d : Forall cell_ok cs → Forall cell_ok (fill cs d).
Proof. revert d. induction cs as [|c cs IH]; intros d H; [done|]. inversion H; subst. by constructor; [|apply IH]. Qed.
Lemma fill_own cs d : Forall own_data cs → Forall own_data (fill cs d).
Proof. revert d. induction cs as [|c cs IH]; intros d H; [done|]. inversion H; subst. by constructor; [|apply IH]. Qed.

Lemma pbuf_take_spec_runs s p cs data len :
  packet s p cs → p ≠ None → Forall own_data cs → 0 ≤ len ≤ total cs → len ≤ zlen data →
  runs (pbuf_take p (Some data) len) s (λ e s', e = ERR_OK ∧ ∃ cs',
    packet s' p cs' ∧ locs cs' = locs cs ∧ c_pbuf <$> cs' = c_pbuf <$> cs ∧
    bytes cs' = ztake len data ++ zdrop len (bytes cs) ∧
    pbufs s' = pbufs s ∧ same_rest s s' ∧ tcpip_msgs s' = tcpip_msgs s ∧
    (∀ b, b ∉ locs cs → blocks s' !! b = blocks s !! b) ∧
    ∀ b, is_Some (blocks s !! b) → is_Some (blocks s' !! b)).
Proof.
  intros Hpk Hp Hown Hlen Hdata. destruct p as [l|]; [|done]. clear Hp.
  pose proof (packet_seg _ _ _ Hpk) as Hs. unfold pbuf_take.
  destruct cs as [|c cs0] eqn:Ecs; [done|]. rewrite <- Ecs in *.
  assert (pbufs s !! l = Some (c_pbuf c) ∧ pb_tot_len (c_pbuf c) = total cs) as [Hl Htot].
  { rewrite Ecs in *. destruct Hs as ([= ->] & Hl & _). split; [done|]. apply (packet_tots _ _ _ Hpk). }
  apply runs_bind. eapply runs_get_pbuf; [done|].
  apply runs_bind, runs_assert; [apply Z.leb_le; lia|]. apply runs_bind, runs_gets. apply runs_bind.
  eapply runs_mono; [apply (take_loop_spec cs); try done; try lia|].
  { by eapply lseg_nodup. }
  { by eapply lseg_fuel. }
  intros n s' (-> & Hs' & Hp' & Hr' & Hm' & Hb' & Hk'). apply runs_bind, runs_assert; [apply Z.eqb_eq; lia|].
  apply runs_ret. split; [done|]. set (d := zslice 0 len data) in *.
  assert (zlen d = len) as Hd by (apply zlen_zslice; lia).
  assert (zlen d ≤ total cs) as Hd' by lia.
  exists (fill cs d). split_and!; try done.
  - split; [done| | |apply fill_cells, (packet_cells _ _ _ Hpk)].
    + apply tots_from_tots, tots_fill; [|done]. apply tots_from_tots, (packet_tots _ _ _ Hpk).
    + rewrite fill_total by done. apply (packet_size _ _ _ Hpk).
  - apply fill_locs.
  - apply fill_pbufs.
  - rewrite fill_bytes, Hd by done. done.
Qed.

(** [pbuf_take] into a packet of at least [len] bytes succeeds, replaces
    the packet's first [len] bytes by those of the buffer, across however many
    pbufs, and changes nothing else in the heap. *)
Theorem pbuf_take_spec s p cs data len :
  packet s p cs → p ≠ None → Forall own_data cs → 0 ≤ len ≤ total cs → len ≤ zlen data →
  runs (pbuf_take p (Some data) len) s (λ e s', e = ERR_OK ∧ ∃ cs',
    packet s' p cs' ∧ locs cs' = locs cs ∧ c_pbuf <$> cs' = c_pbuf <$> cs ∧
    bytes cs' = ztake len data ++ zdrop len (bytes cs) ∧
    pbufs s' = pbufs s ∧ same_rest s s' ∧ tcpip_msgs s' = tcpip_msgs s ∧
    (∀ b, b ∉ locs cs → blocks s' !! b = blocks s !! b) ∧
    ∀ b, is_Some (blocks s !! b) → is_Some (blocks s' !! b)).
Proof. apply pbuf_take_spec_runs. Qed.

(** ** Comparing and searching *)

(** The index of the first difference of two lists. *)
Fixpoint first_diff (a b : list Z) : option Z :=
  match a, b with
  | x :: a, y :: b => if x =? y then Z.succ <$> first_diff a b else Some 0
  | _, _ => None
  end.

Lemma first_diff_None a b : length a = length b → first_diff a b = None ↔ a = b.
Proof.
  revert b. induction a as [|x a IH]; intros [|y b] Hl; try done. simpl in *. injection Hl as Hl.
  case_match; bool_prop.
  - rewrite fmap_None, IH by done. subst. split; [by intros ->|by intros [= ->]].
  - split; [done|]. by intros [= -> _].
Qed.

Definition memcmp_result (i : Z) (d : option Z) : Z :=
  match d with None => 0 | Some j => Z.min (i + j + 1) 65535 end.

Lemma memcmp_result_0 i d : 0 ≤ i → (∀ j, d = Some j → 0 ≤ j) → memcmp_result i d = 0 ↔ d = None.
Proof. intros Hi Hj. destruct d as [j|]; [|done]. specialize (Hj j eq_refl). simpl. split; [lia|done]. Qed.

Lemma first_diff_nonneg a b j : first_diff a b = Some j → 0 ≤ j.
Proof.
  revert b j. induction a as [|x a IH]; intros [|y b] j; try done. simpl. case_match.
  - intros (k & Hk & ->)%fmap_Some. specialize (IH _ _ Hk). lia.
  - intros [= <-]. lia.
Qed.

Lemma zslice_cons {A} (l : list A) o n x :
  zget l o = Some x → 0 ≤ o → 0 < n → zslice o n l = x :: zslice (o + 1) (n - 1) l.
Proof.
  intros Hx Ho Hn. replace n with (1 + (n - 1)) at 1 by lia. rewrite zslice_add by lia.
  by rewrite (zslice_1 _ _ x).
Qed.

Lemma pbuf_get_at_spec s p cs off x :
  lseg s p cs None → 0 ≤ off < 2 ^ 16 → Forall is_u8 (bytes cs) → zget (bytes cs) off = Some x →
  pbuf_get_at s p off = Val x.
Proof.
  intros Hs Hoff Hu Hx. unfold pbuf_get_at. rewrite (pbuf_try_get_at_spec _ _ cs) by done. rewrite Hx. simpl.
  assert (is_u8 x) as Hb.
  { unfold zget in Hx. case_match; [done|]. rewrite Forall_lookup in Hu. eauto. }
  bounds. rewrite (proj2 (Z.leb_le _ _)) by lia. f_equal. apply u8_small. bounds. lia.
Qed.

Lemma memcmp_loop_spec n : ∀ s q cs start i str,
  lseg s q cs None → Forall is_u8 (bytes cs) → total cs < 2 ^ 16 →
  0 ≤ start → 0 ≤ i → start + i + Z.of_nat n ≤ total cs → i + Z.of_nat n ≤ zlen str →
  pbuf_memcmp_loop n s q start i str =
    Val (memcmp_result i (first_diff (zslice (start + i) (Z.of_nat n) (bytes cs)) (zslice i (Z.of_nat n) str))).
Proof.
  induction n as [|n IH]; intros s q cs start i str Hs Hu Hz Hst Hi Hn Hstr; [done|].
  destruct (zget_Some (bytes cs) (start + i)) as [a Ha]; [unfold total in *; lia|].
  destruct (zget_Some str i) as [b Hb]; [lia|].
  rewrite (zslice_cons _ _ _ a), (zslice_cons str _ _ b) by (done || lia). simpl pbuf_memcmp_loop.
  rewrite u16_small by lia. rewrite (pbuf_get_at_spec _ _ cs _ a) by (done || lia). simpl. rewrite Hb. simpl.
  destruct (a =? b) eqn:E; bool_prop; simpl.
  - rewrite (IH _ _ cs) by (done || lia). f_equal. replace (start + (i + 1)) with (start + i + 1) by lia.
    replace (Z.of_nat (S n) - 1) with (Z.of_nat n) by lia.
    destruct (first_diff _ _); [|done]. simpl. f_equal. lia.
  - f_equal. rewrite u16_small by (bounds; lia). simpl. f_equal. lia.
Qed.

(** What [pbuf_memcmp] computes. *)
Definition memcmp_of (b str : list Z) (offset n : Z) : Z :=
  if zlen b <? offset + n then 65535
  else memcmp_result 0 (first_diff (zslice offset n b) (ztake n str)).

Lemma memcmp_equal b str offset n :
  0 ≤ offset → 0 ≤ n → n ≤ zlen str → offset + n ≤ zlen b →
  memcmp_of b str offset n = 0 ↔ zslice offset n b = ztake n str.
Proof.
  intros. unfold memcmp_of. rewrite (proj2 (Z.ltb_ge _ _)) by lia.
  rewrite memcmp_result_0 by (lia || apply first_diff_nonneg).
  apply first_diff_None. apply Nat2Z.inj. change (zlen (zslice offset n b) = zlen (ztake n str)).
  rewrite zlen_zslice, zlen_ztake; lia.
Qed.

Lemma pbuf_memcmp_spec s l cs offset str n :
  packet s (Some l) cs → Forall is_u8 (bytes cs) →
  0 ≤ offset < 2 ^ 16 → 0 ≤ n → n ≤ zlen str →
  pbuf_memcmp s l offset str n = Val (memcmp_of (bytes cs) str offset n).
Proof.
  intros Hpk Hu Hoff Hn Hstr. pose proof (packet_seg _ _ _ Hpk) as Hs. unfold pbuf_memcmp, memcmp_of.
  destruct (packet_get _ _ _ Hpk) as (q & -> & Ht). cbn [rbind]. rewrite Ht. fold (total cs). destruct (_ <? _) eqn:E; bool_prop; [done|].
  rewrite (pbuf_skip_loop_spec _ _ _ cs) by (done || by eapply lseg_fuel). cbn [rbind].
  pose proof (seek_spec s (Some l) cs offset Hs ltac:(lia)) as Hk. destruct (seek cs offset) as [cs' o] eqn:Hsk. simpl.
  destruct Hk as (Hs' & Hb & Ho & Htot & _). pose proof (packet_size _ _ _ Hpk) as Hz.
  destruct (seek_suffix cs offset) as [pre Hpre].
  pose proof (total_nonneg pre).
  assert (Forall is_u8 (bytes cs') ∧ total cs' < 2 ^ 16 ∧ o + n ≤ total cs') as (Hu' & Hz' & Hlen).
  { rewrite Hsk in Hpre. simpl in Hpre. rewrite Hpre, bytes_app, Forall_app in Hu. fold (total cs) in E.
    rewrite Hpre, total_app in *. split_and!; [apply Hu|lia|lia]. }
  rewrite (memcmp_loop_spec _ _ _ cs') by (done || lia). rewrite Z.add_0_r, Z2Nat.id by lia.
  do 3 f_equal. unfold zslice. by rewrite Hb.
Qed.

(** What [pbuf_memfind] promises about its result. *)
Definition memfind_result (b mem : list Z) (start r : Z) : Prop :=
  (r = 65535 ∧ ∀ i, start ≤ i → i + zlen mem ≤ zlen b → zslice i (zlen mem) b ≠ mem) ∨
  (start ≤ r ∧ r + zlen mem ≤ zlen b ∧ zslice r (zlen mem) b = mem ∧
   ∀ i, start ≤ i < r → zslice i (zlen mem) b ≠ mem).

Lemma memfind_loop_spec s l cs mem start fuel : ∀ i,
  packet s (Some l) cs → Forall is_u8 (bytes cs) → 0 < zlen mem →
  0 ≤ start ≤ i → (∀ j, start ≤ j < i → zslice j (zlen mem) (bytes cs) ≠ mem) →
  i ≤ total cs - zlen mem + 1 → total cs - zlen mem + 1 - i < Z.of_nat fuel → zlen mem ≤ total cs →
  ∃ r, pbuf_memfind_loop fuel s l mem (zlen mem) i (total cs - zlen mem) = Val r ∧
    memfind_result (bytes cs) mem start r.
Proof.
  induction fuel as [|fuel IH]; intros i Hpk Hu Hm Hi Hprev Hmax Hfuel Hlen; [lia|]. simpl pbuf_memfind_loop.
  pose proof (packet_size _ _ _ Hpk). destruct (_ <? i) eqn:E; bool_prop.
  { eexists; split; [done|]. left. split; [done|]. intros j Hj Hj'. apply Hprev. unfold total in *. lia. }
  rewrite (pbuf_memcmp_spec _ _ cs) by (done || lia). cbn [rbind].
  pose proof (memcmp_equal (bytes cs) mem i (zlen mem) ltac:(lia) ltac:(lia) ltac:(lia) ltac:(unfold total in *; lia)) as Heq.
  rewrite (ztake_ge _ mem) in Heq by lia. destruct (_ =? 0) eqn:E0; bool_prop.
  - exists i. split; [done|]. right. split_and!; [lia|unfold total in *; lia|by apply Heq|done].
  - rewrite u16_small by lia. apply IH; try done; try lia.
    intros j Hj. destruct (decide (j = i)) as [->|]; [by rewrite <- Heq|]. apply Hprev. lia.
Qed.

(** [pbuf_memfind] is substring search: it terminates with the first index
    from [start_offset] on at which the packet's bytes, whatever their division
    into pbufs, continue with [mem], or with 0xFFFF when there is none. *)
Theorem pbuf_memfind_spec s l cs mem start_offset :
  packet s (Some l) cs → Forall is_u8 (bytes cs) → 0 ≤ start_offset < 2 ^ 16 → zlen mem < 2 ^ 16 →
  ∃ r, pbuf_memfind s l mem (zlen mem) start_offset = Val r ∧
    memfind_result (bytes cs) mem start_offset r.
Proof.
  intros Hpk Hu Hst Hm. unfold pbuf_memfind. pose proof (packet_size _ _ _ Hpk). pose proof (zlen_nonneg mem).
  destruct (packet_get _ _ _ Hpk) as (q & -> & Ht). cbn [rbind]. rewrite Ht.
  destruct (_ <=? _) eqn:E; bool_prop.
  - rewrite u16_small by lia. destruct (decide (zlen mem = 0)) as [Hm0|Hm0].
    + exists start_offset. rewrite Hm0, Z.sub_0_r, Z.add_0_l in *. split.
      * assert (0 < memfind_fuel)%nat as Hf by (unfold memfind_fuel; lia).
        destruct memfind_fuel as [|f]; [lia|]. simpl pbuf_memfind_loop.
        rewrite (proj2 (Z.ltb_ge _ _)) by lia. rewrite (pbuf_memcmp_spec _ _ cs) by (done || lia). cbn [rbind].
        assert (memcmp_of (bytes cs) mem start_offset 0 = 0) as ->; [|done].
        apply memcmp_equal; try lia; [|done]. fold (total cs). lia.
      * right. rewrite Hm0, (zlen_0_nil _ Hm0). split_and!; [lia|unfold total in *; lia|done|lia].
    + apply memfind_loop_spec; [exact Hpk|exact Hu|lia|lia|intros; lia|lia|unfold memfind_fuel; lia|lia].
  - exists 65535. split; [done|]. left. split; [done|]. unfold total in *. lia.
Qed.

(** ** Concrete runs *)

Lemma pbuf_copy_partial_spec_witness :
  pbuf_copy_partial ex_store (Some 1%positive) (Some [0; 0; 0; 0]) 3 1 = Val (3, [2; 3; 4; 0]).
Proof.
  apply (pbuf_copy_partial_spec ex_store _ [ex_cell1; ex_cell2] [0; 0; 0; 0] 3 1); [exact ex_packet|done..].
Defined.

Lemma pbuf_take_spec_witness :
  runs (pbuf_take (Some 1%positive) (Some [9; 8; 7; 6]) 4) ex_store (λ e s', e = ERR_OK ∧ ∃ cs',
    packet s' (Some 1%positive) cs' ∧ locs cs' = [1%positive; 2%positive] ∧
    c_pbuf <$> cs' = c_pbuf <$> [ex_cell1; ex_cell2] ∧ bytes cs' = [9; 8; 7; 6; 5] ∧
    pbufs s' = pbufs ex_store ∧ same_rest ex_store s' ∧ tcpip_msgs s' = tcpip_msgs ex_store ∧
    (∀ b, b ∉ [1%positive; 2%positive] → blocks s' !! b = blocks ex_store !! b) ∧
    ∀ b, is_Some (blocks ex_store !! b) → is_Some (blocks s' !! b)).
Proof.
  apply (pbuf_take_spec ex_store _ [ex_cell1; ex_cell2] [9; 8; 7; 6] 4); [exact ex_packet|done|exact ex_own|done..].
Defined.

Lemma pbuf_memfind_spec_witness :
  ∃ r, pbuf_memfind ex_store 1 [3; 4] 2 0 = Val r ∧ memfind_result [1; 2; 3; 4; 5] [3; 4] 0 r.
Proof.
  apply (pbuf_memfind_spec ex_store 1 [ex_cell1; ex_cell2] [3; 4] 0); [exact ex_packet| |done..].
  by repeat constructor.
Defined.
