(* ===== verification/Queues.v ===== *)
(** * Packet queues ([native/queues.c])

    A ring of 256 packet pointers.  Appending to a full ring frees and replaces
    the oldest packet.  The ring is shown to implement a bounded FIFO. *)

From S2P Require Import Prelude Mbox Heap Pbuf.

Implicit Types s : store.

Definition PBUF_QUEUE_LENGTH : Z := 256.

(** [pbuf_queue_t]; a slot is a possibly null pointer. *)
Record pbuf_queue_t := mk_pbuf_queue {
  q_head : Z;
  q_tail : Z;
  q_full : bool;
  q_data : list (option loc)
}.

#[export] Instance eta_pbuf_queue : Eta pbuf_queue_t := λ r,
  mk_pbuf_queue (q_head r) (q_tail r) (q_full r) (q_data r).

(** All bytes zero, as [memset] leaves it. *)
Definition zeroed_queue : pbuf_queue_t :=
  mk_pbuf_queue 0 0 false (replicate (Z.to_nat PBUF_QUEUE_LENGTH) None).

(** [if (queue->data[tail] != NULL) pbuf_free(queue->data[tail]);] *)
Definition free_slot (x : option loc) : M store unit :=
  match x with
  | Some _ => let! _ := pbuf_free x in ret tt
  | None => ret tt
  end.

(** One pass of the loop of [pbuf_queue_append]. *)
Definition append_one (queue : pbuf_queue_t) (p : option loc) : M store pbuf_queue_t :=
  let tail := q_tail queue in
  let! x := ask (λ _, deref (q_data queue !! Z.to_nat tail)) in
  do! free_slot x;
  let queue := queue <| q_data := <[Z.to_nat tail := p]> (q_data queue) |> in
  let queue := queue <| q_tail := (tail + 1) mod PBUF_QUEUE_LENGTH |> in
  let queue := if q_full queue then queue <| q_head := q_tail queue |> else queue in
  ret (queue <| q_full := q_head queue =? q_tail queue |>).

Fixpoint append_loop (queue : pbuf_queue_t) (ins : list (option loc)) : M store pbuf_queue_t :=
  match ins with
  | [] => ret queue
  | p :: ins => let! queue := append_one queue p in append_loop queue ins
  end.

(** The returned [size], and the queue afterwards. *)
Definition pbuf_queue_append (queue : pbuf_queue_t) (ins : list (option loc)) (size : Z)
    : M store (Z * pbuf_queue_t) :=
  let! queue := append_loop queue (ztake size ins) in ret (size, queue).

Definition pbuf_queue_length (queue : pbuf_queue_t) : Z :=
  let size := Z.rem (q_tail queue - q_head queue + PBUF_QUEUE_LENGTH) PBUF_QUEUE_LENGTH in
  if (size =? 0) && q_full queue then PBUF_QUEUE_LENGTH else size.

(** [n] passes are left; [out] holds the pointers taken so far. *)
Fixpoint pop_loop (n : nat) (queue : pbuf_queue_t) (out : list (option loc))
    : res (list (option loc) * pbuf_queue_t) :=
  match n with
  | O => Val (out, queue)
  | S n =>
      if (q_head queue =? q_tail queue) && negb (q_full queue) then Val (out, queue)
      else
        let head := q_head queue in
        let* x := deref (q_data queue !! Z.to_nat head) in
        let queue := queue <| q_data := <[Z.to_nat head := None]> (q_data queue) |> in
        let queue := queue <| q_head := (head + 1) mod PBUF_QUEUE_LENGTH |> <| q_full := false |> in
        pop_loop n queue (out ++ [x])
  end.

(** The result [i] of the code is the length of the list. *)
Definition pbuf_queue_pop (queue : pbuf_queue_t) (size : Z)
    : res (list (option loc) * pbuf_queue_t) :=
  pop_loop (Z.to_nat size) queue [].

(** ** The FIFO it implements *)

(** Appending drops the oldest packet when [PBUF_QUEUE_LENGTH] are waiting. *)
Fixpoint fifo_append (q ins : list (option loc)) : M store (list (option loc)) :=
  match ins with
  | [] => ret q
  | p :: ins =>
      match q with
      | x :: q' =>
          if zlen q =? PBUF_QUEUE_LENGTH
          then do! free_slot x; fifo_append (q' ++ [p]) ins
          else fifo_append (q ++ [p]) ins
      | [] => fifo_append [p] ins
      end
  end.

(** [holds queue q]: the ring holds [q], oldest first, and null elsewhere. *)
Record holds (queue : pbuf_queue_t) (q : list (option loc)) : Prop := {
  holds_head : 0 ≤ q_head queue < PBUF_QUEUE_LENGTH;
  holds_size : length (q_data queue) = Z.to_nat PBUF_QUEUE_LENGTH;
  holds_room : zlen q ≤ PBUF_QUEUE_LENGTH;
  holds_tail : q_tail queue = (q_head queue + zlen q) mod PBUF_QUEUE_LENGTH;
  holds_full : q_full queue = (zlen q =? PBUF_QUEUE_LENGTH);
  holds_slot i : 0 ≤ i < PBUF_QUEUE_LENGTH →
    q_data queue !! Z.to_nat ((q_head queue + i) mod PBUF_QUEUE_LENGTH) = Some (default None (q !! Z.to_nat i))
}.

(** A ring and a FIFO agree on what an operation does. *)
Definition simulates {A B} (R : A → B → Prop) (m : M store A) (m' : M store B) : Prop :=
  ∀ s, match m s, m' s with
       | Val (a, s1), Val (b, s2) => s1 = s2 ∧ R a b
       | Err e1, Err e2 => e1 = e2
       | _, _ => False
       end.

Lemma ring_index h i j :
  0 ≤ h < PBUF_QUEUE_LENGTH → 0 ≤ i < PBUF_QUEUE_LENGTH → 0 ≤ j < PBUF_QUEUE_LENGTH →
  Z.to_nat ((h + i) mod PBUF_QUEUE_LENGTH) = Z.to_nat ((h + j) mod PBUF_QUEUE_LENGTH) → i = j.
Proof. unfold PBUF_QUEUE_LENGTH. intros. Z.div_mod_to_equations. lia. Qed.

Lemma ring_lt h i : (Z.to_nat ((h + i) mod PBUF_QUEUE_LENGTH) < Z.to_nat PBUF_QUEUE_LENGTH)%nat.
Proof. unfold PBUF_QUEUE_LENGTH. Z.div_mod_to_equations. lia. Qed.

Lemma holds_zeroed : holds zeroed_queue [].
Proof.
  split; try done. intros i Hi. apply lookup_replicate. split; [done|apply ring_lt].
Qed.

(** The head moved by one: the ring read from the next slot on. *)
Lemma ring_next h i :
  ((h + 1) mod PBUF_QUEUE_LENGTH + i) mod PBUF_QUEUE_LENGTH = (h + (1 + i)) mod PBUF_QUEUE_LENGTH.
Proof. rewrite Z.add_mod_idemp_l by done. f_equal. lia. Qed.

(** Storing into the slot at the tail. *)
Definition stored (queue : pbuf_queue_t) (p : option loc) : pbuf_queue_t :=
  let queue := queue <| q_data := <[Z.to_nat (q_tail queue) := p]> (q_data queue) |>
                     <| q_tail := (q_tail queue + 1) mod PBUF_QUEUE_LENGTH |> in
  let queue := if q_full queue then queue <| q_head := q_tail queue |> else queue in
  queue <| q_full := q_head queue =? q_tail queue |>.

Lemma append_one_eq queue q p s :
  holds queue q →
  append_one queue p s =
    (do! free_slot (if zlen q =? PBUF_QUEUE_LENGTH then default None (head q) else None);
     ret (stored queue p)) s.
Proof.
  intros H. assert (q_data queue !! Z.to_nat (q_tail queue) =
    Some (if zlen q =? PBUF_QUEUE_LENGTH then default None (head q) else None)) as Hslot.
  { rewrite (holds_tail _ _ H). pose proof (holds_room _ _ H). pose proof (zlen_nonneg q).
    destruct (zlen q =? PBUF_QUEUE_LENGTH) eqn:E; bool_prop.
    - rewrite E. replace (q_head queue + PBUF_QUEUE_LENGTH) with (q_head queue + 0 + 1 * PBUF_QUEUE_LENGTH) by lia.
      rewrite Z_mod_plus_full, (holds_slot _ _ H) by done. by destruct q.
    - rewrite (holds_slot _ _ H) by lia. by rewrite (proj2 (lookup_ge_None q _)) by (unfold zlen in *; lia). }
  unfold append_one. unfold mbnd at 1, ask. rewrite Hslot. done.
Qed.

Lemma stored_room queue q p :
  holds queue q → zlen q < PBUF_QUEUE_LENGTH → holds (stored queue p) (q ++ [p]).
Proof.
  intros [Hh Hs Hr Ht Hf Hl] Hlt. pose proof (zlen_nonneg q). unfold stored.
  rewrite (proj2 (Z.eqb_neq _ _)) in Hf by lia. simpl. rewrite Hf. split; simpl; try done.
  - by rewrite length_insert.
  - rewrite zlen_app, zlen_cons, zlen_nil. lia.
  - rewrite Ht, zlen_app, zlen_cons, zlen_nil, Z.add_mod_idemp_l by done. f_equal. lia.
  - rewrite Ht, zlen_app, zlen_cons, zlen_nil. unfold PBUF_QUEUE_LENGTH in *.
    destruct (_ =? _) eqn:E1, (zlen q + _ =? _) eqn:E2; bool_prop; try done;
      Z.div_mod_to_equations; lia.
  - intros i Hi. rewrite Ht. destruct (decide (i = zlen q)) as [->|Hne].
    + rewrite list_lookup_insert_eq by (rewrite Hs; apply ring_lt).
      unfold zlen. rewrite Nat2Z.id, lookup_app_r, Nat.sub_diag by lia. done.
    + rewrite list_lookup_insert_ne by (intros Heq; apply Hne; symmetry; by eapply ring_index; [..|done]).
      rewrite Hl by done. f_equal. destruct (decide (i < zlen q)).
      * rewrite lookup_app_l by (unfold zlen in *; lia). done.
      * rewrite !(proj2 (lookup_ge_None _ _)); [done|rewrite length_app; simpl|]; unfold zlen in *; lia.
Qed.

Lemma stored_full queue x q p :
  holds queue (x :: q) → zlen (x :: q) = PBUF_QUEUE_LENGTH → holds (stored queue p) (q ++ [p]).
Proof.
  intros [Hh Hs Hr Ht Hf Hl] Hlen. pose proof (zlen_nonneg q). unfold stored.
  rewrite Hlen, Z.eqb_refl in Hf. simpl. rewrite Hf.
  assert (q_tail queue = q_head queue) as Heq.
  { rewrite Ht, Hlen. rewrite <- (Z.mul_1_l PBUF_QUEUE_LENGTH) at 1. by rewrite Z_mod_plus_full, Z.mod_small. }
  rewrite zlen_cons in Hlen.
  split; simpl; rewrite ?Heq, ?zlen_app, ?zlen_cons, ?zlen_nil.
  - apply Z.mod_pos_bound. done.
  - by rewrite length_insert.
  - lia.
  - replace (zlen q + (1 + 0)) with (1 * PBUF_QUEUE_LENGTH) by lia. by rewrite Z_mod_plus_full, Zmod_mod.
  - rewrite Z.eqb_refl. symmetry. apply Z.eqb_eq. lia.
  - intros i Hi. rewrite ring_next. destruct (decide (i = zlen q)) as [->|Hne].
    + replace (1 + zlen q) with (1 * PBUF_QUEUE_LENGTH) by lia.
      rewrite Z_mod_plus_full, Z.mod_small, list_lookup_insert_eq by (rewrite ?Hs; unfold PBUF_QUEUE_LENGTH in *; lia).
      unfold zlen. rewrite Nat2Z.id, lookup_app_r, Nat.sub_diag by lia. done.
    + rewrite list_lookup_insert_ne.
      * rewrite Hl by lia. rewrite lookup_app_l by (unfold zlen in *; lia).
        by rewrite Z2Nat.inj_add by lia.
      * rewrite <- (Z.mod_small (q_head queue) PBUF_QUEUE_LENGTH) at 1 by done.
        rewrite <- (Z.add_0_r (q_head queue)) at 1. intros Hi'%ring_index; lia.
Qed.

(** ** The ring against the FIFO *)

Lemma simulates_bind {A B A' B'} (R : A → B → Prop) (R' : A' → B' → Prop) m m' f f' :
  simulates R m m' → (∀ a b, R a b → simulates R' (f a) (f' b)) → simulates R' (mbnd m f) (mbnd m' f').
Proof.
  intros Hm Hf s. specialize (Hm s). unfold mbnd.
  destruct (m s) as [[a s1]|], (m' s) as [[b s2]|]; try done.
  destruct Hm as [-> HR]. by apply Hf.
Qed.

Lemma simulates_eq {A} (m : M store A) : simulates eq m m.
Proof. intros s. by destruct (m s) as [[a s1]|]. Qed.

Lemma simulates_ret {A B} (R : A → B → Prop) a b : R a b → simulates R (ret a) (ret b).
Proof. by intros H s. Qed.

Definition fifo_one (q : list (option loc)) (p : option loc) : M store (list (option loc)) :=
  fifo_append q [p].

Lemma fifo_append_cons q p ins :
  ∀ s, fifo_append q (p :: ins) s = (let! q := fifo_one q p in fifo_append q ins) s.
Proof.
  intros s. unfold fifo_one, mbnd, ret. simpl. destruct q as [|x q]; [done|].
  case_match; [|done]. unfold mbnd. by destruct (free_slot x s) as [[? ?]|].
Qed.

Lemma append_one_simulates queue q p :
  holds queue q → simulates holds (append_one queue p) (fifo_one q p).
Proof.
  intros H s. rewrite (append_one_eq _ q) by done. unfold fifo_one. simpl.
  pose proof (holds_room _ _ H). destruct q as [|x q].
  { simpl. split; [done|]. by apply (stored_room _ []). }
  destruct (zlen (x :: q) =? PBUF_QUEUE_LENGTH) eqn:E; bool_prop; simpl.
  - unfold mbnd, ret. destruct (free_slot x s) as [[? s1]|]; [|done]. split; [done|]. by eapply stored_full.
  - split; [done|]. apply (stored_room queue (x :: q)); [done|lia].
Qed.

Lemma append_loop_simulates ins : ∀ queue q,
  holds queue q → simulates holds (append_loop queue ins) (fifo_append q ins).
Proof.
  induction ins as [|p ins IH]; intros queue q H; [by apply simulates_ret|].
  intros s. rewrite fifo_append_cons. revert s. simpl append_loop.
  eapply simulates_bind; [by apply append_one_simulates|]. intros queue' q' H'. by apply IH.
Qed.

(** C15: [pbuf_queue_append] implements the bounded FIFO: from a ring that holds
    [q], it frees, in order, exactly the packets a queue of 256 that drops its
    oldest entry would drop, and leaves a ring that holds what that queue would;
    the frees' effects on the heap, and their failures, are the same. *)
Theorem pbuf_queue_append_refines queue q ins size :
  holds queue q →
  simulates (λ r q', r.1 = size ∧ holds r.2 q')
    (pbuf_queue_append queue ins size) (fifo_append q (ztake size ins)).
Proof.
  intros H s. unfold pbuf_queue_append, mbnd.
  pose proof (append_loop_simulates (ztake size ins) queue q H s) as Hsim.
  destruct (append_loop _ _ s) as [[queue' s1]|], (fifo_append _ _ s) as [[q' s2]|]; try done.
  by destruct Hsim as [-> ?].
Qed.

Lemma pbuf_queue_length_spec queue q : holds queue q → pbuf_queue_length queue = zlen q.
Proof.
  intros [Hh _ Hr Ht Hf _]. unfold pbuf_queue_length. rewrite Hf, Ht. pose proof (zlen_nonneg q).
  unfold PBUF_QUEUE_LENGTH in *.
  rewrite Z.rem_mod_nonneg by (Z.div_mod_to_equations; lia).
  case_match eqn:E; [bool_prop; lia|]. apply andb_false_iff in E as [E|E]; bool_prop;
    Z.div_mod_to_equations; lia.
Qed.

Lemma pop_one queue x q :
  holds queue (x :: q) →
  q_data queue !! Z.to_nat (q_head queue) = Some x ∧
  (q_head queue =? q_tail queue) && negb (q_full queue) = false ∧
  holds (queue <| q_data := <[Z.to_nat (q_head queue) := None]> (q_data queue) |>
           <| q_head := (q_head queue + 1) mod PBUF_QUEUE_LENGTH |> <| q_full := false |>) q.
Proof.
  intros [Hh Hs Hr Ht Hf Hl]. rewrite zlen_cons in *. pose proof (zlen_nonneg q). split_and!.
  - specialize (Hl 0 ltac:(unfold PBUF_QUEUE_LENGTH; lia)). by rewrite Z.add_0_r, Z.mod_small in Hl.
  - rewrite Hf, Ht. unfold PBUF_QUEUE_LENGTH in *.
    destruct (_ =? _ mod _) eqn:E1, (1 + zlen q =? 256) eqn:E2; bool_prop; simpl; try done.
    exfalso. Z.div_mod_to_equations; lia.
  - split; simpl; try done.
    + by apply Z.mod_pos_bound.
    + by rewrite length_insert.
    + lia.
    + rewrite Ht, Z.add_mod_idemp_l by done. f_equal. lia.
    + symmetry. apply Z.eqb_neq. lia.
    + intros i Hi. rewrite ring_next. destruct (decide (1 + i = PBUF_QUEUE_LENGTH)) as [E|E].
      * rewrite E, <- (Z.mul_1_l PBUF_QUEUE_LENGTH) at 1.
        rewrite Z_mod_plus_full, Z.mod_small, list_lookup_insert_eq by (rewrite ?Hs; unfold PBUF_QUEUE_LENGTH in *; lia).
        by rewrite (proj2 (lookup_ge_None q _)) by (unfold zlen in *; lia).
      * rewrite list_lookup_insert_ne; [rewrite Hl by lia; by rewrite Z2Nat.inj_add by lia|].
        rewrite <- (Z.mod_small (q_head queue) PBUF_QUEUE_LENGTH) at 1 by done.
        rewrite <- (Z.add_0_r (q_head queue)) at 1. intros Hi'%ring_index; lia.
Qed.

Lemma pop_loop_spec n : ∀ queue q out,
  holds queue q → ∃ queue', pop_loop n queue out = Val (out ++ take n q, queue') ∧ holds queue' (drop n q).
Proof.
  induction n as [|n IH]; intros queue q out H; [exists queue; by rewrite app_nil_r|].
  destruct q as [|x q].
  - exists queue. simpl. rewrite app_nil_r. split; [|done].
    rewrite (holds_tail _ _ H), (holds_full _ _ H), zlen_nil, Z.add_0_r, Z.mod_small, Z.eqb_refl by apply H. done.
  - destruct (pop_one _ _ _ H) as (Hx & Hne & H'). simpl. rewrite Hne, Hx. simpl.
    destruct (IH _ _ (out ++ [x]) H') as (queue' & -> & Hq). exists queue'. by rewrite <- app_assoc.
Qed.

(** [pbuf_queue_pop] takes packets in the order they were appended, at most
    [size] and as many as there are, and never fails; [pbuf_queue_length] is the
    number of packets waiting, the full ring of 256 included. *)
Theorem pbuf_queue_pop_fifo queue q size :
  holds queue q →
  pbuf_queue_length queue = zlen q ∧
  ∃ queue', pbuf_queue_pop queue size = Val (ztake size q, queue') ∧ holds queue' (zdrop size q) ∧
    pbuf_queue_length queue' = Z.max 0 (zlen q - Z.max 0 size).
Proof.
  intros H. split; [by apply pbuf_queue_length_spec|].
  destruct (pop_loop_spec (Z.to_nat size) queue q [] H) as (queue' & Hpop & H').
  exists queue'. split_and!; [done|done|]. rewrite (pbuf_queue_length_spec _ _ H').
  unfold zlen. rewrite length_drop. lia.
Qed.

Lemma pbuf_queue_append_refines_witness :
  simulates (λ r q', r.1 = 1 ∧ holds r.2 q')
    (pbuf_queue_append zeroed_queue [Some 1%positive] 1) (fifo_append [] [Some 1%positive]).
Proof. apply (pbuf_queue_append_refines zeroed_queue [] [Some 1%positive] 1 holds_zeroed). Defined.

Lemma pbuf_queue_pop_fifo_witness :
  pbuf_queue_length zeroed_queue = 0 ∧
  ∃ queue', pbuf_queue_pop zeroed_queue 32 = Val ([], queue') ∧ holds queue' [] ∧
    pbuf_queue_length queue' = 0.
Proof. apply (pbuf_queue_pop_fifo zeroed_queue [] 32 holds_zeroed). Defined.

(** ** Taking a packet or waiting for one

    The loop [link_read] and [udp_conn_recv] share, up to the point where the
    mutex is released: return because the other side closed, wait on the
    condition variable, or take the oldest packet. *)
Inductive waited := Closed | Blocks | Took (x : option loc).

Definition recv_wait (queue : pbuf_queue_t) (closed : bool) : res (waited * pbuf_queue_t) :=
  if pbuf_queue_length queue =? 0
  then Val (if closed then Closed else Blocks, queue)
  else
    let* '(out, queue) := pbuf_queue_pop queue 1 in
    match out with
    | [x] => Val (Took x, queue)
    | _ => Err Undefined
    end.

Lemma recv_wait_empty queue closed :
  holds queue [] → recv_wait queue closed = Val (if closed then Closed else Blocks, queue).
Proof. intros H. unfold recv_wait. by rewrite (pbuf_queue_length_spec _ _ H). Qed.

Lemma recv_wait_cons queue closed x q :
  holds queue (x :: q) → ∃ queue', recv_wait queue closed = Val (Took x, queue') ∧ holds queue' q.
Proof.
  intros H. unfold recv_wait. rewrite (pbuf_queue_length_spec _ _ H), zlen_cons.
  pose proof (zlen_nonneg q). rewrite (proj2 (Z.eqb_neq _ _)) by lia.
  unfold pbuf_queue_pop. destruct (pop_loop_spec (Z.to_nat 1) queue (x :: q) [] H) as (queue' & -> & H').
  exists queue'. by split.
Qed.

Lemma append_one_room queue q p s :
  holds queue q → zlen q < PBUF_QUEUE_LENGTH → append_one queue p s = Val (stored queue p, s).
Proof.
  intros H Hr. rewrite (append_one_eq _ q) by done. rewrite (proj2 (Z.eqb_neq _ _)) by lia. done.
Qed.
