(* ===== verification/Waiters.v ===== *)
(** * Readers waiting on a packet queue

    [link_read] and [udp_conn_recv] wait on a condition variable that
    [if_output] and [udp_on_received] signal once per packet and the close
    operations broadcast.  Threads interleave at the granularity of the code's
    critical sections; [pthread_cond_wait] may also return spuriously. *)

From S2P Require Import Prelude Mbox Heap Pbuf Queues.

(** Where a reading thread stands: about to run its section under the mutex
    (freshly called, or woken), asleep on the condition variable, returned. *)
Inductive reader := Enter | Asleep | Woken | Returned (x : waited).

Record rx_state := mk_rx_state {
  rx_queue : pbuf_queue_t;
  rx_closed : bool;
  rx_store : store;
  rx_readers : list reader
}.
#[export] Instance eta_rx_state : Eta rx_state := λ r,
  mk_rx_state (rx_queue r) (rx_closed r) (rx_store r) (rx_readers r).

Definition is_asleep (r : reader) : bool := match r with Asleep => true | _ => false end.
Definition is_woken (r : reader) : bool := match r with Woken => true | _ => false end.

(** A reader that runs its section: it may go to sleep, or return. *)
Definition after_section (x : waited) : reader :=
  match x with Blocks => Asleep | x => Returned x end.

Definition broadcast (rs : list reader) : list reader :=
  map (λ r, match r with Asleep => Woken | r => r end) rs.

Inductive rx_step : rx_state → rx_state → Prop :=
  | rx_call s :
      rx_step s (s <| rx_readers := rx_readers s ++ [Enter] |>)
  | rx_section s i r x queue :
      rx_readers s !! i = Some r → r = Enter ∨ r = Woken →
      recv_wait (rx_queue s) (rx_closed s) = Val (x, queue) →
      rx_step s (s <| rx_queue := queue |> <| rx_readers := <[i := after_section x]> (rx_readers s) |>)
  | rx_spurious s i :
      rx_readers s !! i = Some Asleep →
      rx_step s (s <| rx_readers := <[i := Woken]> (rx_readers s) |>)
  (* a packet is appended and one sleeping reader, if there is one, signalled *)
  | rx_append_wake s p queue st i :
      append_one (rx_queue s) (Some p) (rx_store s) = Val (queue, st) →
      rx_readers s !! i = Some Asleep →
      rx_step s (s <| rx_queue := queue |> <| rx_store := st |>
                   <| rx_readers := <[i := Woken]> (rx_readers s) |>)
  | rx_append s p queue st :
      append_one (rx_queue s) (Some p) (rx_store s) = Val (queue, st) →
      zcount is_asleep (rx_readers s) = 0 →
      rx_step s (s <| rx_queue := queue |> <| rx_store := st |>)
  | rx_close s :
      rx_step s (s <| rx_closed := true |> <| rx_readers := broadcast (rx_readers s) |>).

Definition rx_init (st : store) : rx_state := mk_rx_state zeroed_queue false st [].

Record rx_inv (s : rx_state) (q : list (option loc)) : Prop := {
  rx_holds : holds (rx_queue s) q;
  rx_enough : 0 < zcount is_asleep (rx_readers s) → zlen q ≤ zcount is_woken (rx_readers s);
  rx_shut : rx_closed s = true → zcount is_asleep (rx_readers s) = 0
}.

Lemma broadcast_asleep rs : zcount is_asleep (broadcast rs) = 0.
Proof. induction rs as [|[] rs IH]; simpl; lia || done. Qed.

Lemma append_one_holds queue q p s queue' s' :
  holds queue q → append_one queue p s = Val (queue', s') →
  ∃ q', holds queue' q' ∧ zlen q' ≤ zlen q + 1.
Proof.
  intros H Ha. pose proof (append_one_simulates queue q p H s) as Hsim. rewrite Ha in Hsim.
  destruct (fifo_one q p s) as [[q' s2]|] eqn:Ef; [|done]. destruct Hsim as [_ H'].
  exists q'. split; [done|]. clear -Ef. unfold fifo_one in Ef. simpl in Ef.
  destruct q as [|x q]; [by injection Ef as <- <-|]. destruct (zlen (x :: q) =? _).
  - unfold mbnd in Ef. destruct (free_slot x s) as [[? ?]|]; [|done]. injection Ef as <- <-.
    rewrite zlen_app, !zlen_cons, zlen_nil. lia.
  - injection Ef as <- <-. rewrite zlen_cons, zlen_app, !zlen_cons, zlen_nil. lia.
Qed.

Lemma recv_wait_inv queue q closed x queue' :
  holds queue q → recv_wait queue closed = Val (x, queue') →
  (q = [] ∧ queue' = queue ∧ x = (if closed then Closed else Blocks)) ∨
  (∃ p q', q = p :: q' ∧ x = Took p ∧ holds queue' q').
Proof.
  intros H Hr. destruct q as [|p q'].
  - rewrite (recv_wait_empty _ _ H) in Hr. injection Hr as <- <-. by left.
  - destruct (recv_wait_cons _ closed _ _ H) as (queue2 & Hr' & H'). rewrite Hr' in Hr. injection Hr as <- <-.
    right. by exists p, q'.
Qed.

Lemma rx_step_inv s s' q : rx_inv s q → rx_step s s' → ∃ q', rx_inv s' q'.
Proof.
  intros [Hh He Hc] Hs. destruct Hs as [s|s i r x queue Hi Hr Hw|s i Hi|s p queue st i Ha Hi|s p queue st Ha H0|s].
  - exists q. split; [done| |]; simpl; rewrite !zcount_app; simpl; [|intros; rewrite Hc; done].
    intros. pose proof (zcount_nonneg is_woken (rx_readers s)). lia.
  - assert (is_asleep r = false) as Hra by by destruct Hr as [->| ->].
    destruct (recv_wait_inv _ _ _ _ _ Hh Hw) as [(-> & -> & ->)|(p & q' & -> & -> & Hh')].
    + exists []. split; simpl; [done| |].
      * intros _. rewrite zlen_nil. apply zcount_nonneg.
      * intros Hcl. rewrite (zcount_insert _ _ _ r), Hra, Hcl, Hc by done. done.
    + exists q'. rewrite zlen_cons in He. pose proof (zcount_nonneg is_woken (rx_readers s)).
      split; simpl; [done| |]; rewrite !(zcount_insert _ _ _ r), Hra by done; simpl.
      * intros. destruct Hr as [->| ->]; simpl; lia.
      * intros. rewrite Hc by done. done.
  - exists q. split; simpl; [done| |]; rewrite !(zcount_insert _ _ _ Asleep) by done; simpl; [|intros Hcl].
    + intros. lia.
    + pose proof (zcount_lookup is_asleep _ _ _ Hi eq_refl). rewrite Hc in * by done. lia.
  - destruct (append_one_holds _ _ _ _ _ _ Hh Ha) as (q' & Hh' & Hl). exists q'.
    pose proof (zcount_lookup is_asleep _ _ _ Hi eq_refl).
    split; simpl; [done| |]; rewrite !(zcount_insert _ _ _ Asleep) by done; simpl; [|intros Hcl].
    + intros. lia.
    + rewrite Hc in * by done. lia.
  - destruct (append_one_holds _ _ _ _ _ _ Hh Ha) as (q' & Hh' & Hl). exists q'.
    split; simpl; [done| |done]. intros. lia.
  - exists q. split; simpl; [done|rewrite broadcast_asleep; lia|intros _; apply broadcast_asleep].
Qed.

(** C22: Readers are never left asleep with packets waiting: in every reachable
    state, if a reader sleeps then at least as many readers are awake to take
    the packets queued as there are packets; and once the link or connection is
    closed no reader sleeps at all. *)
Theorem rx_no_lost_wakeup st s :
  star rx_step (rx_init st) s →
  (0 < zcount is_asleep (rx_readers s) →
     pbuf_queue_length (rx_queue s) ≤ zcount is_woken (rx_readers s)) ∧
  (rx_closed s = true → zcount is_asleep (rx_readers s) = 0).
Proof.
  intros H. assert (∃ q, rx_inv s q) as (q & [Hh He Hc]).
  { apply (star_invariant rx_step (λ s, ∃ q, rx_inv s q) (rx_init st) s); [|exists []; split; [apply holds_zeroed|simpl; lia|done]|exact H].
    intros x y (q & Hq) Hs. by eapply rx_step_inv. }
  rewrite (pbuf_queue_length_spec _ _ Hh). done.
Qed.

(** A run: a reader goes to sleep, a packet arrives and wakes it. *)
Definition example_rx : rx_state :=
  mk_rx_state (stored zeroed_queue (Some 1%positive)) false (init_store []) [Woken; Enter].

Lemma example_rx_reachable : star rx_step (rx_init (init_store [])) example_rx.
Proof.
  star_by ltac:(apply rx_call).
  star_by ltac:(eapply (rx_section _ 0); [done|by left|vm_compute; done]).
  star_by ltac:(apply rx_call).
  star_by ltac:(eapply (rx_append_wake _ 1 _ _ 0); [vm_compute; done|done]).
  apply star_refl.
Qed.

Lemma rx_no_lost_wakeup_witness :
  (0 < zcount is_asleep (rx_readers example_rx) →
     pbuf_queue_length (rx_queue example_rx) ≤ zcount is_woken (rx_readers example_rx)) ∧
  (rx_closed example_rx = true → zcount is_asleep (rx_readers example_rx) = 0).
Proof. apply (rx_no_lost_wakeup _ _ example_rx_reachable). Defined.
