(* ===== verification/Link.v ===== *)
(** * The network interface and the link ([native/interface.c], [native/link.c])

    The link is the pair of packet queues between the application and the
    stack's only interface.  Each function is translated as the sequence of its
    sections under a mutex and the code between them. *)

From S2P Require Import Prelude Mbox Heap Pbuf PbufData Queues.

Definition DEFAULT_MTU : Z := 1500.

(** [struct link_t], without the mutexes and the condition variable. *)
Record link_t := mk_link {
  l_rx : pbuf_queue_t;
  l_tx : pbuf_queue_t;
  l_tx_polling : bool;
  l_closed : bool;
  l_mtu : Z
}.
#[export] Instance eta_link : Eta link_t := λ r,
  mk_link (l_rx r) (l_tx r) (l_tx_polling r) (l_closed r) (l_mtu r).

(** The only value [output_func] takes besides null: [if_output] of link.c. *)
Inductive output_fn := If_output.

(** The heap, the live link contexts, and the interface's static variables. *)
Record lworld := mk_lworld {
  lw_store : store;
  lw_links : gmap loc link_t;
  lw_output_func : option output_fn;
  lw_output_context : option loc;
  lw_mtu : Z
}.
#[export] Instance eta_lworld : Eta lworld := λ r,
  mk_lworld (lw_store r) (lw_links r) (lw_output_func r) (lw_output_context r) (lw_mtu r).

#[export] Program Instance part_lworld : Part store lworld := {
  part_get := lw_store;
  part_set st w := w <| lw_store := st |>
}.
Next Obligation. done. Qed.
Next Obligation. by intros []. Qed.
Next Obligation. done. Qed.

Definition get_link (w : lworld) (ctx : loc) : res link_t := deref (lw_links w !! ctx).
Definition set_link (ctx : loc) (l : link_t) : M lworld unit :=
  modify (λ w, w <| lw_links := <[ctx := l]> (lw_links w) |>).

(** ** link.c, receiving side *)

Definition if_output (context : option loc) (p : option loc) : M lworld unit :=
  let! ctx := ask (λ _, deref context) in
  let! l := ask (λ w, get_link w ctx) in
  let! '(n, rx) := lift (pbuf_queue_append (l_rx l) [p] 1) in
  set_link ctx (l <| l_rx := rx |>).

(** ** interface.c *)

Definition global_if_output (p : option loc) : M lworld err_t :=
  let! f := gets lw_output_func in
  match f with
  | None => ret ERR_OK
  | Some If_output =>
      do! lift (pbuf_ref p);
      let! ctx := gets lw_output_context in
      do! if_output ctx p;
      ret ERR_OK
  end.

Definition global_interface_attach_device (output : option output_fn) (state : option loc) (mtu : Z)
    : M lworld unit :=
  modify (λ w, w <| lw_output_func := output |> <| lw_output_context := state |>
                 <| lw_mtu := u16 (if mtu <=? 0 then DEFAULT_MTU else mtu) |>).

Definition global_interface_is_attached (w : lworld) : bool :=
  bool_decide (lw_output_func w ≠ None) || bool_decide (lw_output_context w ≠ None).

(** ** link.c, the operations *)

Definition SIZEOF_LINK_T : Z := 4272.

Definition link_attach (mtu : Z) : M lworld (option loc) :=
  let! attached := gets global_interface_is_attached in
  if attached then ret None else
  let! ctx := lift (malloc SIZEOF_LINK_T) in
  match ctx with
  | None => fail Undefined   (* memset on the null pointer *)
  | Some c =>
      do! set_link c (mk_link zeroed_queue zeroed_queue false false mtu);
      do! global_interface_attach_device (Some If_output) ctx mtu;
      ret ctx
  end.

(** The readers asleep on [rx_cond] are those of [Waiters]. *)
Definition link_close (ctx : loc) : M lworld unit :=
  do! global_interface_attach_device None None DEFAULT_MTU;
  let! l := ask (λ w, get_link w ctx) in
  set_link ctx (l <| l_closed := true |>).

Definition link_free (ctx : loc) : M lworld unit :=
  do! lift (free ctx);
  modify (λ w, w <| lw_links := delete ctx (lw_links w) |>).

(** The section under [rx_mutex]. *)
Definition link_read_section (ctx : loc) : M lworld waited :=
  let! l := ask (λ w, get_link w ctx) in
  let! '(x, rx) := ask (λ _, recv_wait (l_rx l) (l_closed l)) in
  do! set_link ctx (l <| l_rx := rx |>);
  ret x.

(** The rest of [link_read]: the result and the buffer. *)
Definition link_read_finish (source : option loc) (buffer : list Z) (size : Z)
    : M store (Z * list Z) :=
  match source with
  | None => ret (0, buffer)
  | Some l =>
      let! q := ask (λ s, get_pbuf s l) in
      let! '(size, buffer) :=
        (if pb_tot_len q <=? size then
           let! '(n, buffer) := ask (λ s, pbuf_copy_partial s source (Some buffer) (pb_tot_len q) 0) in
           ret (pb_tot_len q, buffer)
         else ret (0, buffer)) in
      let! _ := pbuf_free source in
      ret (size, buffer)
  end.

(** [None]: the caller waits for a packet. *)
Definition link_read (ctx : loc) (buffer : list Z) (size : Z) : M lworld (option (Z * list Z)) :=
  let! x := link_read_section ctx in
  match x with
  | Blocks => ret None
  | Closed => ret (Some (-1, buffer))
  | Took source => let! r := lift (link_read_finish source buffer size) in ret (Some r)
  end.

(** Before the mutex is taken.  [size], an [int], becomes a [u16_t] argument. *)
Definition link_write_prepare (buffer : list Z) (size : Z) : M store (option loc) :=
  let! target := pbuf_alloc PBUF_IP (u16 size) PBUF_POOL in
  let! _ := pbuf_take target (Some buffer) (u16 size) in
  ret target.

(** The section under [tx_mutex]. *)
Definition link_write_section (ctx : loc) (target : option loc) (size : Z) : M lworld Z :=
  let! l := ask (λ w, get_link w ctx) in
  if l_closed l then
    let! _ := lift (pbuf_free target) in ret (-1)
  else
    let! '(n, tx) := lift (pbuf_queue_append (l_tx l) [target] 1) in
    do! set_link ctx (l <| l_tx := tx |>);
    do! (if l_tx_polling l then ret tt
         else
           let! e := lift (tcpip_try_callback Cb_poll_tx (Some ctx)) in
           if is_ok e
           then let! l := ask (λ w, get_link w ctx) in set_link ctx (l <| l_tx_polling := true |>)
           else ret tt);
    ret size.

Definition link_write (ctx : loc) (buffer : list Z) (size : Z) : M lworld Z :=
  let! target := lift (link_write_prepare buffer size) in
  link_write_section ctx target size.

(** The section under [tx_mutex] of [poll_tx]. *)
Definition poll_tx_section (ctx : loc) : M lworld (list (option loc)) :=
  let! l := ask (λ w, get_link w ctx) in
  let! '(out, tx) := ask (λ _, pbuf_queue_pop (l_tx l) 32) in
  do! set_link ctx (l <| l_tx_polling := false |> <| l_tx := tx |>);
  ret out.

(** ** Towards the stack *)
Section input.
Context {W : Type} `{!Part lworld W}.
(** [global_if.input], the [ip_input] that [global_interface_init] installs. *)
Variable ip_input : option loc → M W err_t.

Definition global_interface_inject_packet (buf : option loc) : M W unit :=
  match buf with
  | None => ret tt
  | Some _ =>
      let! e := ip_input buf in
      if is_ok e then ret tt else let! _ := lift (P := lworld) (lift (pbuf_free buf)) in ret tt
  end.

Fixpoint inject_all (bufs : list (option loc)) : M W unit :=
  match bufs with
  | [] => ret tt
  | b :: bufs => do! global_interface_inject_packet b; inject_all bufs
  end.

Definition poll_tx (ctx : loc) : M W unit :=
  let! array := lift (poll_tx_section ctx) in inject_all array.
End input.
