(* ===== verification/LinkFacts.v ===== *)
(** * What the link guarantees *)

From S2P Require Import Prelude Mbox Heap HeapFacts Pbuf PbufData Packet PbufFacts PbufAlloc PbufChain PbufDataFacts Queues Link.

Implicit Types s : store.
Implicit Types w : lworld.

(** ** Freeing and the messages posted *)

(** What no [pbuf_free] changes: the mailbox, and what is not a pbuf. *)
Definition non_pbufs_kept s s' : Prop :=
  tcpip_mbox s' = tcpip_mbox s ∧ next_loc s' = next_loc s ∧ (heap_ok s → heap_ok s') ∧
  ∀ l, pbufs s !! l = None → pbufs s' !! l = None ∧ tcpip_msgs s' !! l = tcpip_msgs s !! l.

Lemma non_pbufs_kept_refl s : non_pbufs_kept s s.
Proof. by split_and!. Qed.

Lemma non_pbufs_kept_trans s1 s2 s3 :
  non_pbufs_kept s1 s2 → non_pbufs_kept s2 s3 → non_pbufs_kept s1 s3.
Proof.
  intros (M1 & N1 & K1 & H1) (M2 & N2 & K2 & H2). split_and!; [congruence|congruence|auto|].
  intros l Hl. destruct (H1 l Hl) as [Hp Hm]. destruct (H2 l Hp) as [? ?]. split; congruence.
Qed.

Lemma non_pbufs_kept_set s l q q' :
  pbufs s !! l = Some q → non_pbufs_kept s (s <| pbufs := <[l := q']> (pbufs s) |>).
Proof.
  intros Hl. split_and!; [done|done| |].
  - intros H. apply heap_ok_set_pbuf; [done|]. eapply heap_ok_used; [done|]. left. by eexists.
  - intros l' Hl'. simpl. rewrite lookup_insert_ne by congruence. done.
Qed.

Lemma non_pbufs_kept_release s l q :
  pbufs s !! l = Some q → non_pbufs_kept s (release l s).
Proof.
  intros Hl. split_and!; [done|done|apply heap_ok_release|].
  intros l' Hl'. unfold release. simpl. rewrite !lookup_delete_ne by congruence. done.
Qed.

Lemma free_release l s u s' : free l s = Val (u, s') → s' = release l s.
Proof. unfold free. destruct (blocks s !! l); [|done]. by intros [= <- <-]. Qed.

Lemma pbuf_free_loop_kept fuel : ∀ s p n k s',
  pbuf_free_loop fuel p n s = Val (k, s') → non_pbufs_kept s s'.
Proof.
  induction fuel as [|fuel IH]; intros s [l|] n k s'; try done;
    try (intros [= <- <-]; apply non_pbufs_kept_refl).
  simpl. unfold mbnd at 1, ask, get_pbuf. destruct (pbufs s !! l) as [q|] eqn:Hl; [|done]. simpl.
  unfold mbnd at 1, lwip_assert. destruct (0 <? pb_ref q); [|done].
  unfold mbnd at 1, set_pbuf. rewrite Hl. set (q' := q <| pb_ref := u8 (pb_ref q - 1) |>). set (s1 := s <| pbufs := <[l := q']> (pbufs s) |>).
  assert (non_pbufs_kept s s1) as H1 by by eapply non_pbufs_kept_set.
  destruct (u8 _ =? 0); [|by intros [= <- <-]].
  unfold mbnd. destruct (_ s1) as [[u s2]|] eqn:Ef; [|done]. intros Hrest%IH.
  eapply non_pbufs_kept_trans; [done|]. eapply non_pbufs_kept_trans; [|done].
  assert (s2 = release l s1) as ->.
  { unfold lwip_assert, memp_free, mem_free in Ef. repeat case_match; try done; by eapply free_release. }
  eapply (non_pbufs_kept_release _ _ q'). apply lookup_insert_eq.
Qed.

Lemma free_slot_kept x s u s' : free_slot x s = Val (u, s') → non_pbufs_kept s s'.
Proof.
  destruct x as [l|]; [|intros [= <- <-]; apply non_pbufs_kept_refl].
  unfold free_slot, mbnd, pbuf_free. destruct (pbuf_free_loop _ _ _ _) as [[k s1]|] eqn:E; [|done].
  intros [= <- <-]. by eapply pbuf_free_loop_kept.
Qed.

Lemma append_one_kept queue p s queue' s' :
  append_one queue p s = Val (queue', s') → non_pbufs_kept s s'.
Proof.
  unfold append_one, mbnd at 1, ask. destruct (deref _) as [x|]; [|done]. simpl.
  unfold mbnd. destruct (free_slot x s) as [[u s1]|] eqn:E; [|done]. intros [= <- <-].
  by eapply free_slot_kept.
Qed.

Lemma tcpip_try_callback_inv f ctx s q e s' :
  heap_ok s → Seq.ring (tcpip_mbox s) q → tcpip_try_callback f ctx s = Val (e, s') →
  heap_ok s' ∧ posted f ctx s q e s'.
Proof.
  intros Hok Hring Hrun. destruct (decide (Seq.counters_ok (tcpip_mbox s))) as [Hc|Hc].
  - pose proof (tcpip_try_callback_spec f ctx s q Hok (conj Hring Hc)) as H.
    unfold runs in H. by rewrite Hrun in H.
  - unfold tcpip_try_callback in Hrun. unfold mbnd at 1 in Hrun.
    assert (runs (memp_malloc MEMP_TCPIP_MSG_API) s (λ r s1,
      r = None ∧ s1 = refused s ∧ memory_left s = false ∨ r ≠ None ∧ tcpip_mbox s1 = tcpip_mbox s)) as H.
    { apply runs_malloc_left; [done|by left|intros; right; done]. }
    unfold runs in H. destruct (memp_malloc _ s) as [[r s1]|]; [|done].
    destruct H as [(-> & -> & Hleft)|[Hr Hmb]].
    + injection Hrun as <- <-. split; [done|]. unfold posted. rewrite Hleft. split_and!; try done. by right.
    + destruct r as [l|]; [|done]. unfold mbnd at 1, modify in Hrun. unfold mbnd at 1, mbox_trypost in Hrun.
      simpl in Hrun. rewrite Hmb in Hrun. unfold Seq.sys_mbox_trypost in Hrun.
      destruct (Seq.mbox_full (tcpip_mbox s)) as [b|] eqn:E; [|done].
      by destruct Hc; eapply Seq.mbox_full_counters.
Qed.

(** ** The transmit side as a protocol

    Writers run [link_write_section] under [tx_mutex].  The stack's thread takes
    a message, runs [poll_tx]'s section if it is a link's, and frees the message.
    Between these steps, links are attached, closed, freed, read from and written
    to by the stack, other code posts its own messages, and uses the heap. *)

Inductive tcpip_pc := Idle | Fetched (m : loc) | Swept (m : loc).

Record tx_state := mk_tx_state { tx_world : lworld; tx_pc : tcpip_pc }.

Definition poll_msg (ctx : loc) : tcpip_msg := mk_tcpip_msg Cb_poll_tx (Some ctx).

(** The rest of the program on the heap.  What changes a link or the mailbox is a
    step of its own; a message belongs to its poster, then to the stack's thread. *)
Definition heap_env w w' : Prop :=
  lw_links w' = lw_links w ∧ (heap_ok (lw_store w) → heap_ok (lw_store w')) ∧
  (next_loc (lw_store w) ≤ next_loc (lw_store w'))%positive ∧
  tcpip_mbox (lw_store w') = tcpip_mbox (lw_store w) ∧
  ∀ l m, tcpip_msgs (lw_store w) !! l = Some m → pbufs (lw_store w) !! l = None →
         tcpip_msgs (lw_store w') !! l = Some m ∧ pbufs (lw_store w') !! l = None.

(** [app] says which links the application writes to or frees. *)
Inductive tx_step (app : loc → Prop) : tx_state → tx_state → Prop :=
  | tx_write w pc ctx target size n w' :
      app ctx → link_write_section ctx target size w = Val (n, w') →
      tx_step app (mk_tx_state w pc) (mk_tx_state w' pc)
  | tx_fetch w l mb :
      Seq.sys_arch_mbox_tryfetch (tcpip_mbox (lw_store w)) = Val (Some (Some l), mb) →
      tx_step app (mk_tx_state w Idle)
        (mk_tx_state (w <| lw_store := (lw_store w) <| tcpip_mbox := mb |> |>) (Fetched l))
  | tx_poll w l ctx out w' :
      tcpip_msgs (lw_store w) !! l = Some (poll_msg ctx) →
      poll_tx_section ctx w = Val (out, w') →
      tx_step app (mk_tx_state w (Fetched l)) (mk_tx_state w' (Swept l))
  | tx_other_msg w l m :
      tcpip_msgs (lw_store w) !! l = Some m → cb_function m ≠ Cb_poll_tx →
      tx_step app (mk_tx_state w (Fetched l)) (mk_tx_state w (Swept l))
  | tx_free w l u st :
      memp_free MEMP_TCPIP_MSG_API (Some l) (lw_store w) = Val (u, st) →
      tx_step app (mk_tx_state w (Swept l)) (mk_tx_state (w <| lw_store := st |>) Idle)
  | tx_post w pc f ctx e st :
      f ≠ Cb_poll_tx → tcpip_try_callback f ctx (lw_store w) = Val (e, st) →
      tx_step app (mk_tx_state w pc) (mk_tx_state (w <| lw_store := st |>) pc)
  | tx_attach w pc mtu r w' :
      link_attach mtu w = Val (r, w') → tx_step app (mk_tx_state w pc) (mk_tx_state w' pc)
  | tx_close w pc ctx u w' :
      link_close ctx w = Val (u, w') → tx_step app (mk_tx_state w pc) (mk_tx_state w' pc)
  | tx_link_free w pc ctx u w' :
      app ctx → link_free ctx w = Val (u, w') → is_Some (lw_links w !! ctx) →
      tx_step app (mk_tx_state w pc) (mk_tx_state w' pc)
  | tx_output w pc ctx p u w' :
      if_output ctx p w = Val (u, w') → tx_step app (mk_tx_state w pc) (mk_tx_state w' pc)
  | tx_read w pc ctx x w' :
      link_read_section ctx w = Val (x, w') → tx_step app (mk_tx_state w pc) (mk_tx_state w' pc)
  | tx_env w pc w' :
      heap_env w w' → tx_step app (mk_tx_state w pc) (mk_tx_state w' pc).

(** The messages still to be handled: those in the mailbox, and the one fetched. *)
Definition unhandled (pc : tcpip_pc) (q : list loc) : list loc :=
  match pc with Fetched l => l :: q | _ => q end.
(** The messages not yet freed. *)
Definition unfreed (pc : tcpip_pc) (q : list loc) : list loc :=
  match pc with Idle => q | Fetched l | Swept l => l :: q end.

#[local] Instance tcpip_msg_eq_dec : EqDecision tcpip_msg.
Proof. solve_decision. Defined.

(** Those of [ls] that are to poll the link [ctx]. *)
Definition polls (ctx : loc) s (ls : list loc) : list loc :=
  filter (λ l, tcpip_msgs s !! l = Some (poll_msg ctx)) ls.

Record tx_inv (t : tx_state) (q : list loc) : Prop := {
  txi_heap : heap_ok (lw_store (tx_world t));
  txi_ring : Seq.ring (tcpip_mbox (lw_store (tx_world t))) q;
  txi_nodup : NoDup (unfreed (tx_pc t) q);
  txi_msgs l : l ∈ unfreed (tx_pc t) q →
    is_Some (tcpip_msgs (lw_store (tx_world t)) !! l) ∧ pbufs (lw_store (tx_world t)) !! l = None;
  txi_known l ctx : l ∈ unfreed (tx_pc t) q → tcpip_msgs (lw_store (tx_world t)) !! l = Some (poll_msg ctx) →
    (ctx < next_loc (lw_store (tx_world t)))%positive;
  txi_links ctx : is_Some (lw_links (tx_world t) !! ctx) →
    (ctx < next_loc (lw_store (tx_world t)))%positive ∧ ctx ∉ unfreed (tx_pc t) q;
  txi_polling ctx lk : lw_links (tx_world t) !! ctx = Some lk →
    length (polls ctx (lw_store (tx_world t)) (unhandled (tx_pc t) q)) = if l_tx_polling lk then 1%nat else 0%nat
}.

Lemma heap_ok_msg s l m : heap_ok s → tcpip_msgs s !! l = Some m → (l < next_loc s)%positive.
Proof.
  intros H Hm. destruct (decide (l < next_loc s)%positive) as [|Hge]; [done|].
  destruct (H l) as (_ & _ & Hn); [lia|]. congruence.
Qed.

Lemma unhandled_unfreed pc q l : l ∈ unhandled pc q → l ∈ unfreed pc q.
Proof. destruct pc; simpl; [done|done|]. intros. by right. Qed.

Lemma polls_agree ctx s s' ls :
  (∀ l, l ∈ ls → tcpip_msgs s' !! l = tcpip_msgs s !! l) → polls ctx s' ls = polls ctx s ls.
Proof.
  intros H. unfold polls. induction ls as [|l ls IH]; [done|]. rewrite !filter_cons, (H l) by left.
  rewrite IH; [done|]. intros x Hx. apply H. by right.
Qed.

Lemma polls_none ctx s ls :
  (∀ l, l ∈ ls → tcpip_msgs s !! l ≠ Some (poll_msg ctx)) → polls ctx s ls = [].
Proof.
  intros H. unfold polls. induction ls as [|l ls IH]; [done|]. rewrite filter_cons, decide_False by (apply H; left).
  apply IH. intros x Hx. apply H. by right.
Qed.

(** A change that keeps the messages and every polling flag. *)
Lemma tx_inv_kept w w' pc q :
  tx_inv (mk_tx_state w pc) q → (heap_ok (lw_store w) → heap_ok (lw_store w')) →
  tcpip_mbox (lw_store w') = tcpip_mbox (lw_store w) →
  (next_loc (lw_store w) ≤ next_loc (lw_store w'))%positive →
  (∀ l, l ∈ unfreed pc q → tcpip_msgs (lw_store w') !! l = tcpip_msgs (lw_store w) !! l ∧ pbufs (lw_store w') !! l = None) →
  (∀ ctx lk', lw_links w' !! ctx = Some lk' →
     ∃ lk, lw_links w !! ctx = Some lk ∧ l_tx_polling lk' = l_tx_polling lk) →
  tx_inv (mk_tx_state w' pc) q.
Proof.
  intros [H1 H2 H3 H4 H5 H6 H7] Hk Hm Hn Hl Hp. split; simpl in *.
  - auto.
  - by rewrite Hm.
  - done.
  - intros l Hin. destruct (Hl l Hin) as [-> ?]. split; [by apply H4|done].
  - intros l ctx Hin. destruct (Hl l Hin) as [-> _]. intros Hc. specialize (H5 l ctx Hin Hc). lia.
  - intros ctx [lk' Hlk']. destruct (Hp ctx lk' Hlk') as (lk & Hlk & _). destruct (H6 ctx) as [? ?]; [by eexists|].
    split; [lia|done].
  - intros ctx lk' Hlk'. destruct (Hp ctx lk' Hlk') as (lk & Hlk & ->). rewrite <- (H7 ctx lk Hlk).
    f_equal. apply polls_agree. intros l Hin. apply Hl. by apply unhandled_unfreed.
Qed.

Lemma tx_inv_pbufs w w' pc q :
  tx_inv (mk_tx_state w pc) q → non_pbufs_kept (lw_store w) (lw_store w') →
  (∀ ctx lk', lw_links w' !! ctx = Some lk' →
     ∃ lk, lw_links w !! ctx = Some lk ∧ l_tx_polling lk' = l_tx_polling lk) →
  tx_inv (mk_tx_state w' pc) q.
Proof.
  intros Hi (Hm & Hn & Hk & Hl) Hp. eapply tx_inv_kept; try done; [lia|].
  intros l Hin. destruct (txi_msgs _ _ Hi l Hin) as [_ Hpb]. by destruct (Hl l Hpb) as [? ->].
Qed.

(** One link changed, with the flag as it was. *)
Lemma one_link w w' ctx lk lk' :
  lw_links w !! ctx = Some lk → l_tx_polling lk' = l_tx_polling lk → lw_links w' = <[ctx := lk']> (lw_links w) →
  ∀ c l', lw_links w' !! c = Some l' → ∃ l, lw_links w !! c = Some l ∧ l_tx_polling l' = l_tx_polling l.
Proof.
  intros Hlk Hp -> c l'. destruct (decide (ctx = c)) as [<-|Hne].
  - rewrite lookup_insert_eq. intros [= <-]. by exists lk.
  - rewrite lookup_insert_ne by done. intros ?. by exists l'.
Qed.

Lemma unfreed_snoc pc q x l : l ∈ unfreed pc (q ++ [x]) ↔ l ∈ unfreed pc q ∨ l = x.
Proof. destruct pc; simpl; rewrite ?elem_of_cons, ?elem_of_app, ?elem_of_cons, ?elem_of_nil; tauto. Qed.
Lemma unhandled_snoc pc q x : unhandled pc (q ++ [x]) = unhandled pc q ++ [x].
Proof. by destruct pc. Qed.

Lemma unfreed_nodup pc q x : NoDup (unfreed pc q) → x ∉ unfreed pc q → NoDup (unfreed pc (q ++ [x])).
Proof.
  intros H Hx. destruct pc; simpl in *; rewrite ?NoDup_cons, ?NoDup_app, ?elem_of_app, ?list_elem_of_singleton, ?not_elem_of_cons in *;
    (split_and!; try tauto; try apply NoDup_singleton; try (intros y Hy ->%list_elem_of_singleton; tauto)).
  all: intros [?| ->]; tauto.
Qed.

(** A message is posted; the flag that is raised for it was down. *)
Lemma tx_inv_posted w w' pc q f c e :
  tx_inv (mk_tx_state w pc) q → tcpip_try_callback f c (lw_store w) = Val (e, lw_store w') →
  (∀ ctx, mk_tcpip_msg f c = poll_msg ctx → is_Some (lw_links w !! ctx)) →
  (∀ ctx lk', lw_links w' !! ctx = Some lk' → ∃ lk, lw_links w !! ctx = Some lk ∧
     if decide (mk_tcpip_msg f c = poll_msg ctx ∧ e = ERR_OK)
     then l_tx_polling lk = false ∧ l_tx_polling lk' = true else l_tx_polling lk' = l_tx_polling lk) →
  ∃ q', tx_inv (mk_tx_state w' pc) q'.
Proof.
  intros Hi Hrun Hc Hp. pose proof Hi as [H1 H2 H3 H4 H5 H6 H7]. simpl in *.
  destruct (tcpip_try_callback_inv _ _ _ _ _ _ H1 H2 Hrun) as (Hok & _ & Hpb & _ & Hn & Hcase).
  destruct Hcase as [(-> & Hr & Hring & _ & Hmsgs)|(-> & Hring & _ & Hmsgs)].
  - set (l0 := next_loc (lw_store w)) in *.
    assert (l0 ∉ unfreed pc q) as Hfresh.
    { intros Hin. destruct (H4 _ Hin) as [[m Hm] _]. pose proof (heap_ok_msg _ _ _ H1 Hm). unfold l0 in *. lia. }
    assert (∀ l, l ∈ unfreed pc q → tcpip_msgs (lw_store w') !! l = tcpip_msgs (lw_store w) !! l) as Hsame.
    { intros l Hin. rewrite Hmsgs, lookup_insert_ne; [done|]. by intros <-. }
    assert (l0 < next_loc (lw_store w'))%positive as Hl0.
    { eapply heap_ok_msg; [exact Hok|]. rewrite Hmsgs. apply lookup_insert_eq. }
    exists (q ++ [l0]). split; simpl; [done|done|by apply unfreed_nodup| | | |].
    + intros l [Hin| ->]%unfreed_snoc; rewrite Hpb; [rewrite Hsame by done; by apply H4|].
      rewrite Hmsgs, lookup_insert_eq. split; [by eexists|]. by destruct (H1 l0) as (-> & _); [unfold l0; lia|].
    + intros l ctx [Hin| ->]%unfreed_snoc.
      * rewrite Hsame by done. intros Hm. specialize (H5 l ctx Hin Hm). lia.
      * rewrite Hmsgs, lookup_insert_eq. intros [= Hm]. destruct (H6 ctx) as [? _]; [|lia]. apply Hc. by unfold poll_msg; subst.
    + intros ctx [lk' Hlk']. destruct (Hp ctx lk' Hlk') as (lk & Hlk & _). destruct (H6 ctx) as [? ?]; [by eexists|].
      split; [lia|]. rewrite unfreed_snoc. intros [?| ->]; [done|unfold l0 in *; lia].
    + intros ctx lk' Hlk'. destruct (Hp ctx lk' Hlk') as (lk & Hlk & Hpol). specialize (H7 ctx lk Hlk).
      rewrite unhandled_snoc. unfold polls in *. rewrite filter_app, length_app.
      fold (polls ctx (lw_store w') (unhandled pc q)).
      rewrite (polls_agree ctx (lw_store w)) by (intros l Hin; apply Hsame; by apply unhandled_unfreed).
      unfold polls. rewrite H7, filter_cons. change (filter _ []) with (@nil loc).
      rewrite Hmsgs, lookup_insert_eq.
      destruct (decide (mk_tcpip_msg f c = poll_msg ctx)) as [Heq|Hne].
      * rewrite (decide_True (P := Some _ = _)) by by rewrite Heq. rewrite decide_True in Hpol by done.
        destruct Hpol as [-> ->]. done.
      * rewrite (decide_False (P := Some _ = _)) by congruence. rewrite decide_False in Hpol by tauto.
        rewrite Hpol. simpl. lia.
  - exists q. split; simpl; [done|done|done| | | |].
    + by rewrite Hmsgs, Hpb.
    + intros l ctx. rewrite Hmsgs. intros Hin Hm. specialize (H5 l ctx Hin Hm). lia.
    + intros ctx [lk' Hlk']. destruct (Hp ctx lk' Hlk') as (lk & Hlk & _). destruct (H6 ctx) as [? ?]; [by eexists|].
      split; [lia|done].
    + intros ctx lk' Hlk'. destruct (Hp ctx lk' Hlk') as (lk & Hlk & Hpol). rewrite decide_False in Hpol by by intros [].
      rewrite Hpol, <- (H7 ctx lk Hlk). f_equal. apply polls_agree. intros. by rewrite Hmsgs.
Qed.

(** The writer's section, step by step. *)
Lemma link_write_section_inv ctx target size w n w' :
  link_write_section ctx target size w = Val (n, w') →
  ∃ lk, lw_links w !! ctx = Some lk ∧
    ((l_closed lk = true ∧ lw_links w' = lw_links w ∧ non_pbufs_kept (lw_store w) (lw_store w')) ∨
     l_closed lk = false ∧ ∃ tx st, append_one (l_tx lk) target (lw_store w) = Val (tx, st) ∧
       let w1 := w <| lw_store := st |> <| lw_links := <[ctx := lk <| l_tx := tx |>]> (lw_links w) |> in
       ((l_tx_polling lk = true ∧ w' = w1) ∨
        l_tx_polling lk = false ∧ ∃ e, tcpip_try_callback Cb_poll_tx (Some ctx) st = Val (e, lw_store w') ∧
          lw_links w' = <[ctx := lk <| l_tx := tx |> <| l_tx_polling := is_ok e |>]> (lw_links w))).
Proof.
  intros Hrun. unfold link_write_section, mbnd at 1, ask, get_link in Hrun.
  destruct (lw_links w !! ctx) as [lk|] eqn:Hlk; [|done]. simpl in Hrun. exists lk. split; [done|].
  destruct (l_closed lk).
  - left. unfold mbnd, lift in Hrun. simpl in Hrun.
    destruct (pbuf_free target (lw_store w)) as [[k st]|] eqn:Ef; [|done]. injection Hrun as <- <-.
    split_and!; [done|done|]. destruct target as [l|]; [|done]. by eapply pbuf_free_loop_kept.
  - right. split; [done|]. unfold mbnd at 1, lift at 1, pbuf_queue_append in Hrun. simpl in Hrun. unfold mbnd at 1 2 in Hrun.
    destruct (append_one (l_tx lk) target (lw_store w)) as [[tx st]|] eqn:Ea; [|done].
    exists tx, st. split; [done|]. simpl in Hrun. unfold mbnd at 1, set_link at 1, modify in Hrun. simpl in Hrun.
    set (w1 := w <| lw_store := st |> <| lw_links := <[ctx := lk <| l_tx := tx |>]> (lw_links w) |>) in *.
    destruct (l_tx_polling lk) eqn:Hpol; [left; split; [done|]; by injection Hrun as <- <-|right; split; [done|]].
    unfold mbnd at 1 2, lift in Hrun. change (part_get w1) with st in Hrun.
    destruct (tcpip_try_callback Cb_poll_tx (Some ctx) st) as [[e st']|] eqn:Et; [|done]. exists e. destruct (is_ok e).
    + unfold mbnd, ask, get_link in Hrun. simpl in Hrun. rewrite lookup_insert_eq in Hrun. simpl in Hrun.
      injection Hrun as <- <-. simpl. by rewrite insert_insert_eq.
    + injection Hrun as <- <-. simpl. split; [done|]. do 2 f_equal. destruct lk; simpl in *; by subst.
Qed.

Lemma tx_inv_write ctx w pc q target size n w' :
  tx_inv (mk_tx_state w pc) q → link_write_section ctx target size w = Val (n, w') →
  ∃ q', tx_inv (mk_tx_state w' pc) q'.
Proof.
  intros Hinv (lk & Hlk & [(_ & Hl & Hk)|(_ & tx & st & Hk%append_one_kept & [(Hpol & ->)|(Hpol & e & Hpost & Hl)])])%link_write_section_inv.
  - exists q. eapply tx_inv_pbufs; [done|done|]. intros c lk'. rewrite Hl. eauto.
  - exists q. eapply tx_inv_pbufs; [done|done|]. by apply (one_link w _ ctx lk (lk <| l_tx := tx |>)).
  - set (w1 := w <| lw_store := st |> <| lw_links := <[ctx := lk <| l_tx := tx |>]> (lw_links w) |>).
    apply (tx_inv_posted w1 w' pc q Cb_poll_tx (Some ctx) e); [|done| |].
    + eapply tx_inv_pbufs; [done|done|]. by apply (one_link w _ ctx lk (lk <| l_tx := tx |>)).
    + intros c [= <-]. simpl. rewrite lookup_insert_eq. by eexists.
    + intros c lk'. rewrite Hl. simpl. destruct (decide (ctx = c)) as [<-|Hne].
      * rewrite !lookup_insert_eq. intros [= <-]. eexists. split; [done|]. simpl. rewrite Hpol.
        destruct (decide _) as [[_ ->]|Hno]; [done|]. destruct (is_ok e) eqn:He; [|done].
        destruct Hno. split; [done|]. by destruct e.
      * rewrite !lookup_insert_ne by done. intros ?. exists lk'. split; [done|]. rewrite decide_False; [done|].
        intros [[= ->] _]. done.
Qed.

Lemma tryfetch_ring mb (q : list loc) x mb' :
  Seq.ring mb q → Seq.sys_arch_mbox_tryfetch mb = Val (Some x, mb') →
  ∃ l q', q = l :: q' ∧ x = Some l ∧ Seq.ring mb' q'.
Proof.
  intros Hr Hf. destruct q as [|l q].
  - rewrite (Seq.mbox_tryfetch_empty _ Hr) in Hf. done.
  - destruct (Seq.mbox_tryfetch_spec _ _ _ Hr) as (mb2 & Hf' & Hr' & _). rewrite Hf' in Hf.
    injection Hf as <- <-. by exists l, q.
Qed.

Lemma poll_tx_section_inv ctx w out w' :
  poll_tx_section ctx w = Val (out, w') →
  ∃ lk tx, lw_links w !! ctx = Some lk ∧ pbuf_queue_pop (l_tx lk) 32 = Val (out, tx) ∧
    w' = w <| lw_links := <[ctx := lk <| l_tx_polling := false |> <| l_tx := tx |>]> (lw_links w) |>.
Proof.
  unfold poll_tx_section, mbnd, ask, get_link, set_link, modify, ret, deref, rbind.
  destruct (lw_links w !! ctx) as [lk|]; [|done].
  destruct (pbuf_queue_pop (l_tx lk) 32) as [[o tx]|] eqn:E; [|done]. intros [= <- <-].
  by exists lk, tx.
Qed.

Lemma link_close_inv ctx w u w' :
  link_close ctx w = Val (u, w') → ∃ lk, lw_links w !! ctx = Some lk ∧ lw_store w' = lw_store w ∧
    lw_links w' = <[ctx := lk <| l_closed := true |>]> (lw_links w).
Proof.
  unfold link_close, global_interface_attach_device, mbnd, ask, get_link, set_link, modify, deref, rbind. simpl.
  destruct (lw_links w !! ctx) as [lk|]; [|done]. intros [= <- <-]. by exists lk.
Qed.

Lemma if_output_inv c p w u w' :
  if_output c p w = Val (u, w') → ∃ ctx lk rx, lw_links w !! ctx = Some lk ∧ non_pbufs_kept (lw_store w) (lw_store w') ∧
    lw_links w' = <[ctx := lk <| l_rx := rx |>]> (lw_links w).
Proof.
  unfold if_output. destruct c as [ctx|]; [|done]. unfold mbnd at 1 2, ask, get_link. simpl.
  destruct (lw_links w !! ctx) as [lk|] eqn:Hlk; [|done]. simpl. unfold mbnd at 1, lift, pbuf_queue_append. simpl.
  unfold mbnd at 1 2. destruct (append_one (l_rx lk) p (lw_store w)) as [[rx st]|] eqn:Ea; [|done].
  apply append_one_kept in Ea. simpl. unfold set_link, modify. intros [= <- <-]. by exists ctx, lk, rx.
Qed.

Lemma link_read_section_inv ctx w x w' :
  link_read_section ctx w = Val (x, w') → ∃ lk rx, lw_links w !! ctx = Some lk ∧ lw_store w' = lw_store w ∧
    lw_links w' = <[ctx := lk <| l_rx := rx |>]> (lw_links w).
Proof.
  unfold link_read_section, mbnd, ask, get_link, set_link, modify, ret, deref, rbind.
  destruct (lw_links w !! ctx) as [lk|]; [|done]. destruct (recv_wait _ _) as [[y rx]|]; [|done].
  intros [= <- <-]. by exists lk, rx.
Qed.

Lemma link_free_inv ctx w u w' :
  link_free ctx w = Val (u, w') → lw_store w' = release ctx (lw_store w) ∧ lw_links w' = delete ctx (lw_links w).
Proof.
  unfold link_free, mbnd, lift, modify. simpl. destruct (free ctx (lw_store w)) as [[? st]|] eqn:Ef; [|done].
  apply free_release in Ef as ->. by intros [= <- <-].
Qed.

Lemma link_attach_inv mtu w r w' :
  link_attach mtu w = Val (r, w') →
  w' = w ∨ ∃ d, lw_store w' = grown d (lw_store w) ∧
    lw_links w' = <[next_loc (lw_store w) := mk_link zeroed_queue zeroed_queue false false mtu]> (lw_links w).
Proof.
  unfold link_attach, mbnd at 1, gets. destruct (global_interface_is_attached w); [by intros [= <- <-]; left|].
  intros Hrun. right. assert (runs (malloc SIZEOF_LINK_T) (lw_store w) (λ l st,
    l = None ∨ l = Some (next_loc (lw_store w)) ∧ ∃ d, st = grown d (lw_store w))) as Hm.
  { apply runs_malloc; [done|by left|]. intros d _. right. split; [done|]. by exists d. }
  unfold runs in Hm. unfold mbnd at 1, lift in Hrun. change (part_get w) with (lw_store w) in Hrun.
  destruct (malloc SIZEOF_LINK_T (lw_store w)) as [[l st]|]; [|done].
  destruct Hm as [->|(-> & d & ->)]; [done|]. injection Hrun as <- <-. by exists d.
Qed.

(** A link changed by [f] while the heap keeps its messages. *)
Lemma tx_inv_link w w' pc q ctx lk lk' :
  tx_inv (mk_tx_state w pc) q → lw_links w !! ctx = Some lk → l_tx_polling lk' = l_tx_polling lk →
  lw_links w' = <[ctx := lk']> (lw_links w) → non_pbufs_kept (lw_store w) (lw_store w') →
  tx_inv (mk_tx_state w' pc) q.
Proof. intros Hi Hlk Hp Hl Hk. eapply tx_inv_pbufs; [done|done|]. by eapply one_link. Qed.

Lemma tx_inv_poll w l q ctx out w' :
  tx_inv (mk_tx_state w (Fetched l)) q → tcpip_msgs (lw_store w) !! l = Some (poll_msg ctx) →
  poll_tx_section ctx w = Val (out, w') → tx_inv (mk_tx_state w' (Swept l)) q.
Proof.
  intros [H1 H2 H3 H4 H5 H6 H7] Hm (lk & tx & Hlk & _ & ->)%poll_tx_section_inv. simpl in *.
  split; simpl; [done|done|done|done|done| |].
  - intros c [lk' Hc]. apply H6. destruct (decide (ctx = c)) as [<-|Hne]; [by eexists|].
    rewrite lookup_insert_ne in Hc by done. by eexists.
  - intros c lk'. destruct (decide (ctx = c)) as [<-|Hne].
    + rewrite lookup_insert_eq. intros [= <-]. simpl. specialize (H7 ctx lk Hlk). unfold polls in H7.
      rewrite filter_cons, decide_True in H7 by done. simpl in H7. unfold polls. destruct (l_tx_polling lk); lia.
    + rewrite lookup_insert_ne by done. intros Hc. rewrite <- (H7 c lk' Hc). unfold polls.
      rewrite filter_cons, decide_False; [done|]. rewrite Hm. by intros [= ?].
Qed.

Lemma tx_inv_free w l q u st :
  tx_inv (mk_tx_state w (Swept l)) q → memp_free MEMP_TCPIP_MSG_API (Some l) (lw_store w) = Val (u, st) →
  tx_inv (mk_tx_state (w <| lw_store := st |>) Idle) q.
Proof.
  intros [H1 H2 [Hni H3]%NoDup_cons H4 H5 H6 H7] Hfr. simpl in *.
  unfold memp_free, mem_free in Hfr. apply free_release in Hfr as ->.
  assert (∀ l', l' ∈ q → l ≠ l') as Hne by (by intros l' Hin ->).
  split; simpl; [by apply heap_ok_release|done|done| | | |].
  - intros l' Hin. destruct (H4 l') as [? ?]; [by right|]. rewrite !lookup_delete_ne by auto. done.
  - intros l' ctx Hin. rewrite lookup_delete_ne by auto. apply H5. by right.
  - intros ctx Hc. destruct (H6 ctx Hc) as [? Hn]. split; [done|]. intros ?. apply Hn. by right.
  - intros ctx lk Hlk. rewrite <- (H7 ctx lk Hlk). f_equal. apply polls_agree. intros l' Hin.
    simpl. by rewrite lookup_delete_ne by auto.
Qed.

Lemma tx_inv_attach w pc q mtu r w' :
  tx_inv (mk_tx_state w pc) q → link_attach mtu w = Val (r, w') → tx_inv (mk_tx_state w' pc) q.
Proof.
  intros Hi [->|(d & Hs & Hl)]%link_attach_inv; [done|]. destruct Hi as [H1 H2 H3 H4 H5 H6 H7]. simpl in *.
  assert (next_loc (lw_store w) ∉ unfreed pc q) as Hfresh.
  { intros Hin. destruct (H4 _ Hin) as [[m Hm] _]. pose proof (heap_ok_msg _ _ _ H1 Hm). lia. }
  split; simpl; rewrite ?Hs; simpl; [by apply heap_ok_grown|done|done|done| | |].
  - intros l ctx Hin Hm. specialize (H5 l ctx Hin Hm). lia.
  - intros c. rewrite Hl. destruct (decide (next_loc (lw_store w) = c)) as [<-|Hne].
    + intros _. split; [lia|done].
    + rewrite lookup_insert_ne by done. intros Hc. destruct (H6 c Hc). split; [lia|done].
  - intros c lk. rewrite Hl. destruct (decide (next_loc (lw_store w) = c)) as [<-|Hne].
    + rewrite lookup_insert_eq. intros [= <-]. simpl. rewrite polls_none; [done|]. simpl. intros l Hin Hm.
      specialize (H5 l _ (unhandled_unfreed _ _ _ Hin) Hm). lia.
    + rewrite lookup_insert_ne by done. apply H7.
Qed.

Lemma tx_inv_link_free w pc q ctx u w' :
  tx_inv (mk_tx_state w pc) q → link_free ctx w = Val (u, w') → is_Some (lw_links w !! ctx) → tx_inv (mk_tx_state w' pc) q.
Proof.
  intros Hi [Hs Hl]%link_free_inv Hc. destruct (txi_links _ _ Hi ctx Hc) as [_ Hn]. simpl in Hn.
  assert (∀ l, l ∈ unfreed pc q → ctx ≠ l) as Hne by (by intros l Hin ->).
  eapply tx_inv_kept; [exact Hi|..]; rewrite ?Hs; [by apply heap_ok_release|done|simpl; lia| |].
  - intros l Hin. destruct (txi_msgs _ _ Hi l Hin) as [_ ?]. simpl. by rewrite !lookup_delete_ne by auto.
  - intros c lk'. rewrite Hl. intros [_ ?]%lookup_delete_Some. eauto.
Qed.

Lemma tx_step_inv app t t' q : tx_inv t q → tx_step app t t' → ∃ q', tx_inv t' q'.
Proof.
  intros Hinv Hs. destruct Hs as [w pc ctx target size n w' _ Hw|w l mb Hf|w l ctx out w' Hm Hp|w l m Hm Hne|w l u st Hfr
    |w pc f c e st Hf Hp|w pc mtu r w' Ha|w pc ctx u w' Hc|w pc ctx u w' _ Hfr Hin|w pc c p u w' Ho|w pc ctx x w' Hr|w pc w' Henv].
  - by eapply tx_inv_write.
  - destruct Hinv as [H1 H2 H3 H4 H5 H6 H7]. simpl in *.
    destruct (tryfetch_ring _ _ _ _ H2 Hf) as (l' & q' & -> & [= <-] & Hr). exists q'. by split.
  - exists q. by eapply tx_inv_poll.
  - exists q. destruct Hinv as [H1 H2 H3 H4 H5 H6 H7]. simpl in *. split; simpl; [done..|].
    intros ctx lk Hlk. rewrite <- (H7 ctx lk Hlk). unfold polls. rewrite filter_cons, decide_False; [done|].
    rewrite Hm. intros [= ->]. by apply Hne.
  - exists q. by eapply tx_inv_free.
  - apply (tx_inv_posted w (w <| lw_store := st |>) pc q f c e Hinv); [exact Hp|..].
    + intros ctx [= -> ->]. done.
    + intros ctx lk Hlk. exists lk. split; [done|]. rewrite decide_False; [done|]. intros [[= -> _] _]. done.
  - exists q. by eapply tx_inv_attach.
  - exists q. apply link_close_inv in Hc as (lk & Hlk & Hs & Hl). eapply tx_inv_link; [done|done| |done|]; [done|].
    rewrite Hs. apply non_pbufs_kept_refl.
  - exists q. by eapply tx_inv_link_free.
  - exists q. apply if_output_inv in Ho as (ctx & lk & rx & Hlk & Hk & Hl). by eapply (tx_inv_link w w' pc q ctx lk (lk <| l_rx := rx |>)).
  - exists q. apply link_read_section_inv in Hr as (lk & rx & Hlk & Hs & Hl).
    eapply (tx_inv_link w w' pc q ctx lk (lk <| l_rx := rx |>)); try done. rewrite Hs. apply non_pbufs_kept_refl.
  - exists q. destruct Henv as (Hl & Hk & Hn & Hmb & Hmsg). eapply tx_inv_kept; try done; [|rewrite Hl; eauto].
    intros l Hin. destruct (txi_msgs _ _ Hinv l Hin) as [[m Hm] Hp]. simpl in *. rewrite Hm. by apply Hmsg.
Qed.

(** A state to start from: the mailbox is empty and no link has sent anything. *)
Definition tx_start (t : tx_state) : Prop :=
  tx_pc t = Idle ∧ heap_ok (lw_store (tx_world t)) ∧ Seq.ring (tcpip_mbox (lw_store (tx_world t))) [] ∧
  ∀ ctx lk, lw_links (tx_world t) !! ctx = Some lk →
    l_tx_polling lk = false ∧ (ctx < next_loc (lw_store (tx_world t)))%positive.

Lemma tx_reach_inv app t0 t : tx_start t0 → star (tx_step app) t0 t → ∃ q, tx_inv t q.
Proof.
  intros (Hpc & Hok & Hr & Hp) Hs.
  apply (star_invariant (tx_step app) (λ t, ∃ q, tx_inv t q) t0 t); [|exists []|done].
  - intros x y [q Hq] Hxy. by eapply tx_step_inv.
  - split; rewrite ?Hpc; simpl; [done|done|constructor|by intros l ?%not_elem_of_nil|by intros l c ?%not_elem_of_nil| |].
    + intros ctx [lk Hlk]. destruct (Hp ctx lk Hlk) as [_ ?]. split; [done|]. by apply not_elem_of_nil.
    + intros ctx lk Hlk. destruct (Hp ctx lk Hlk) as [-> _]. done.
Qed.

(** C9: [tx_polling] never lies, whatever the interleaving of writers, the
    stack's thread, the calls on any link, other posters and the rest of the
    program: while the flag of a link is set, exactly one [poll_tx] message of the
    link is in the mailbox or about to be run, and while it is clear there is
    none.  So a writer that finds the flag set, and posts nothing, leaves its
    packet to a poll that is still to come, and no link ever has more than one
    message in the mailbox.  (That the poll takes the packet too is another
    matter; see [link_tx_stranded].) *)
Theorem link_tx_polling_sound app t0 t ctx lk :
  tx_start t0 → star (tx_step app) t0 t → lw_links (tx_world t) !! ctx = Some lk →
  ∃ q, Seq.ring (tcpip_mbox (lw_store (tx_world t))) q ∧ NoDup (unhandled (tx_pc t) q) ∧
    length (polls ctx (lw_store (tx_world t)) (unhandled (tx_pc t) q)) = if l_tx_polling lk then 1%nat else 0%nat.
Proof.
  intros H0 Hs Hlk. destruct (tx_reach_inv _ _ _ H0 Hs) as [q Hi]. exists q. split; [apply Hi|].
  split; [|by apply (txi_polling _ _ Hi)]. pose proof (txi_nodup _ _ Hi) as Hnd.
  destruct (tx_pc t); [done|done|]. by apply NoDup_cons in Hnd as [_ ?].
Qed.

(** ** Packets that stay behind *)

(** [q] waits for the stack, and the flag is clear. *)
Definition left_behind (ctx : loc) (q : list (option loc)) w : Prop :=
  ∃ lk, lw_links w !! ctx = Some lk ∧ holds (l_tx lk) q ∧ l_tx_polling lk = false.

Lemma left_behind_link ctx q w w' c lk lk' :
  left_behind ctx q w → lw_links w !! c = Some lk → lw_links w' = <[c := lk']> (lw_links w) →
  (c = ctx → l_tx lk' = l_tx lk ∧ l_tx_polling lk' = l_tx_polling lk) → left_behind ctx q w'.
Proof.
  intros (lk0 & Hlk0 & Hq & Hp) Hc Hl Hs. destruct (decide (c = ctx)) as [->|Hne].
  - rewrite Hlk0 in Hc. injection Hc as ->. destruct (Hs eq_refl) as [Ht Hp']. exists lk'.
    rewrite Hl, lookup_insert_eq, Ht, Hp'. done.
  - exists lk0. rewrite Hl, lookup_insert_ne by done. done.
Qed.

Lemma left_behind_step ctx q t t' r :
  tx_inv t r → tx_step (λ c, c ≠ ctx) t t' → left_behind ctx q (tx_world t) → left_behind ctx q (tx_world t').
Proof.
  intros Hinv Hs Hlb. destruct Hs as [w pc c target size n w' Hne Hw|w l mb Hf|w l c out w' Hm Hp|w l m Hm Hne|w l u st Hfr
    |w pc f c e st Hf Hp|w pc mtu res w' Ha|w pc c u w' Hc|w pc c u w' Hne Hfr Hin|w pc c p u w' Ho|w pc c x w' Hr|w pc w' Henv];
    simpl in *; try done.
  - apply link_write_section_inv in Hw as (lk & Hlk & [(_ & Hl & Hk)|(_ & tx & st & Hk & [(Hpol & ->)|(Hpol & e & Hpost & Hl)])]).
    + destruct Hlb as (lk0 & ? & ?). exists lk0. by rewrite Hl.
    + by eapply left_behind_link.
    + by eapply left_behind_link.
  - apply poll_tx_section_inv in Hp as (lk & tx & Hlk & _ & ->). eapply left_behind_link; [done|done|done|].
    intros ->. destruct Hlb as (lk0 & Hlk0 & _ & Hpol). pose proof (txi_polling _ _ Hinv ctx lk0 Hlk0) as Hn.
    rewrite Hpol in Hn. simpl in Hn. unfold polls in Hn. rewrite filter_cons, decide_True in Hn by done. done.
  - apply link_attach_inv in Ha as [->|(d & _ & Hl)]; [done|]. destruct Hlb as (lk0 & Hlk0 & ?). exists lk0. rewrite Hl.
    rewrite lookup_insert_ne; [done|]. intros Heq. destruct (txi_links _ _ Hinv ctx) as [Hlt _]; [by eexists|]. simpl in Hlt. lia.
  - apply link_close_inv in Hc as (lk & Hlk & _ & Hl). by eapply left_behind_link.
  - apply link_free_inv in Hfr as [_ Hl]. destruct Hlb as (lk0 & Hlk0 & ?). exists lk0. by rewrite Hl, lookup_delete_ne.
  - apply if_output_inv in Ho as (c' & lk & rx & Hlk & _ & Hl). by eapply left_behind_link.
  - apply link_read_section_inv in Hr as (lk & rx & Hlk & _ & Hl). by eapply left_behind_link.
  - destruct Henv as (Hl & _). destruct Hlb as (lk0 & ?). exists lk0. by rewrite Hl.
Qed.

Lemma left_behind_stays ctx q t t' r :
  tx_inv t r → left_behind ctx q (tx_world t) → star (tx_step (λ c, c ≠ ctx)) t t' →
  left_behind ctx q (tx_world t') ∧ ∃ r', tx_inv t' r'.
Proof.
  intros Hi Hlb Hs. apply (star_invariant (tx_step (λ c, c ≠ ctx)) (λ t, left_behind ctx q (tx_world t) ∧ ∃ r', tx_inv t r') t t'); [|eauto|done].
  intros x y (Hx & r' & Hr') Hxy. split; [by eapply left_behind_step|by eapply tx_step_inv].
Qed.

(** Nobody comes for what is left behind. *)
Lemma left_behind_no_poll ctx q t r :
  tx_inv t r → left_behind ctx q (tx_world t) → polls ctx (lw_store (tx_world t)) (unhandled (tx_pc t) r) = [].
Proof. intros Hi (lk & Hlk & _ & Hp). apply nil_length_inv. by rewrite (txi_polling _ _ Hi ctx lk Hlk), Hp. Qed.

Lemma pop_batch (queue : pbuf_queue_t) q out queue' :
  holds queue q → pbuf_queue_pop queue 32 = Val (out, queue') → out = take 32 q ∧ holds queue' (drop 32 q).
Proof.
  intros Hq Hpop. destruct (pop_loop_spec (Z.to_nat 32) _ _ [] Hq) as (tx & Hpop' & Hq').
  assert (Val (out, queue') = Val ([] ++ take (Z.to_nat 32) q, tx)) as E by (rewrite <- Hpop, <- Hpop'; reflexivity).
  injection E as -> ->. split; [reflexivity|exact Hq'].
Qed.

Lemma poll_leaves ctx w lk q out w1 :
  lw_links w !! ctx = Some lk → holds (l_tx lk) q → poll_tx_section ctx w = Val (out, w1) →
  out = take 32 q ∧ left_behind ctx (drop 32 q) w1.
Proof.
  intros Hlk Hq (lk' & tx & Hlk' & Hpop & ->)%poll_tx_section_inv. rewrite Hlk in Hlk'. injection Hlk' as <-.
  destruct (pop_batch _ _ _ _ Hq Hpop) as [-> Hq']. split; [reflexivity|].
  eexists. split; [simpl; apply lookup_insert_eq|]. split; [exact Hq'|reflexivity].
Qed.

(** C33: Packets can be stranded.  A [poll_tx] takes the oldest 32 packets of its
    link and clears the flag; any more stay behind.  They stay, in their order,
    with the flag clear and no [poll_tx] message of the link in the mailbox,
    through every run in which the application does not write to this link or free
    it: whatever happens to other links, whatever is posted, read, sent or
    allocated. *)
Theorem link_tx_stranded app t0 w l ctx lk q out w1 t :
  tx_start t0 → star (tx_step app) t0 (mk_tx_state w (Fetched l)) →
  tcpip_msgs (lw_store w) !! l = Some (poll_msg ctx) → lw_links w !! ctx = Some lk → holds (l_tx lk) q →
  poll_tx_section ctx w = Val (out, w1) → star (tx_step (λ c, c ≠ ctx)) (mk_tx_state w1 (Swept l)) t →
  out = take 32 q ∧ left_behind ctx (drop 32 q) (tx_world t) ∧
  ∃ r, Seq.ring (tcpip_mbox (lw_store (tx_world t))) r ∧
       polls ctx (lw_store (tx_world t)) (unhandled (tx_pc t) r) = [].
Proof.
  intros H0 Hs Hm Hlk Hq Hp Hstar. destruct (tx_reach_inv _ _ _ H0 Hs) as [r Hi].
  pose proof (tx_inv_poll _ _ _ _ _ _ Hi Hm Hp) as Hi1. destruct (poll_leaves _ _ _ _ _ _ Hlk Hq Hp) as [Hout Hlb1].
  destruct (left_behind_stays ctx (drop 32 q) _ t r Hi1 Hlb1 Hstar) as (Hlb & r' & Hr').
  split; [exact Hout|]. split; [exact Hlb|]. exists r'. split; [apply Hr'|by eapply left_behind_no_poll].
Qed.

(** ** Runs

    [n] packets are written while the stack's thread is busy, then it handles
    the one message that was posted. *)
Definition written (n : nat) : option loc := Some (Pos.of_nat (100 + n)).

Fixpoint run_writes (n : nat) (w : lworld) : res lworld :=
  match n with
  | O => Val w
  | S n => let* '(k, w) := link_write_section 1 (written n) 1 w in run_writes n w
  end.

Lemma run_writes_star n : ∀ w pc w',
  run_writes n w = Val w' → star (tx_step (λ _, True)) (mk_tx_state w pc) (mk_tx_state w' pc).
Proof.
  induction n as [|n IH]; intros w pc w' Hrun; [injection Hrun as <-; apply star_refl|].
  cbn [run_writes] in Hrun. destruct (link_write_section _ _ _ w) as [[k w1]|] eqn:E; [|done].
  eapply star_cons; [by eapply tx_write|]. by apply IH.
Qed.

Lemma run_writes_holds n : ∀ w w' lk q,
  run_writes n w = Val w' → lw_links w !! 1%positive = Some lk → l_closed lk = false → holds (l_tx lk) q →
  zlen q + Z.of_nat n ≤ PBUF_QUEUE_LENGTH →
  ∃ lk', lw_links w' !! 1%positive = Some lk' ∧ holds (l_tx lk') (q ++ (written <$> rev (seq 0 n))).
Proof.
  induction n as [|n IH]; intros w w' lk q Hrun Hlk Hcl Hq Hn.
  { injection Hrun as <-. exists lk. by rewrite app_nil_r. }
  cbn [run_writes] in Hrun. destruct (link_write_section _ _ _ w) as [[k w1]|] eqn:E; [|done].
  apply link_write_section_inv in E as (lk0 & Hlk0 & Hcase). rewrite Hlk in Hlk0. injection Hlk0 as <-.
  destruct Hcase as [(Hc & _)|(_ & tx & st & Ha & Hcase)]; [congruence|].
  rewrite (append_one_room _ q) in Ha by (done || lia). injection Ha as <- <-.
  assert (∃ lk1, lw_links w1 !! 1%positive = Some lk1 ∧ l_closed lk1 = false ∧ l_tx lk1 = stored (l_tx lk) (written n))
    as (lk1 & Hlk1 & Hc1 & Htx1).
  { destruct Hcase as [(_ & ->)|(_ & e & _ & ->)]; simpl; rewrite lookup_insert_eq; by eexists. }
  destruct (IH w1 w' lk1 (q ++ [written n]) Hrun Hlk1 Hc1) as (lk' & Hlk' & Hq').
  { rewrite Htx1. apply stored_room; [done|lia]. }
  { rewrite zlen_app, zlen_cons, zlen_nil. lia. }
  exists lk'. split; [done|]. rewrite seq_S, rev_app_distr. simpl. by rewrite <- app_assoc in Hq'.
Qed.

(** A link just attached at address 1. *)
Definition attached_world : lworld :=
  mk_lworld ((init_store []) <| next_loc := 2%positive |> <| blocks := {[1%positive := []]} |>)
    {[1%positive := mk_link zeroed_queue zeroed_queue false false 1500]} (Some If_output) (Some 1%positive) 1500.

Lemma attached_start : tx_start (mk_tx_state attached_world Idle).
Proof.
  split_and!; [done| |apply Seq.ring_new|].
  - intros l Hl. simpl in *. rewrite lookup_singleton_ne, !lookup_empty by lia. done.
  - intros ctx lk Hlk. simpl in Hlk. apply lookup_singleton_Some in Hlk as [<- <-]. simpl. split; [done|lia].
Qed.

(** ** Reading *)

Lemma set_link_same w ctx lk : lw_links w !! ctx = Some lk → w <| lw_links := <[ctx := lk]> (lw_links w) |> = w.
Proof. intros H. destruct w. unfold setter. simpl in *. by rewrite insert_id. Qed.

(** Freeing a packet. *)
Lemma pbuf_free_cells s l cs :
  packet s (Some l) cs → Forall (freeable s) cs → runs (pbuf_free (Some l)) s (λ _ s', s' = (free_cells cs s).2).
Proof.
  intros Hpk Hfr. pose proof (packet_seg _ _ _ Hpk) as Hs.
  eapply runs_mono; [apply (pbuf_free_loop_spec (chain_fuel s) s (Some l) cs 0)|by intros n s' [_ ->]].
  - by apply lseg_links.
  - by eapply lseg_nodup.
  - apply (packet_cells _ _ _ Hpk).
  - done.
  - by eapply lseg_fuel.
  - done.
Qed.

(** Delivering a packet: the bytes, or nothing if they do not fit; the packet is released. *)
Lemma link_read_finish_spec s l cs buffer size :
  packet s (Some l) cs → Forall (freeable s) cs → size ≤ zlen buffer →
  runs (link_read_finish (Some l) buffer size) s (λ r s',
    r = (if total cs <=? size then (total cs, bytes cs ++ zdrop (total cs) buffer) else (0, buffer)) ∧
    s' = (free_cells cs s).2).
Proof.
  intros Hpk Hfr Hbuf. destruct (packet_get _ _ _ Hpk) as (q & Hq & Ht).
  pose proof (packet_size _ _ _ Hpk). pose proof (total_nonneg cs).
  apply runs_bind. eapply runs_ask; [done|]. rewrite Ht. apply runs_bind.
  apply (runs_mono _ _ (λ r s', s' = s ∧
    r = (if total cs <=? size then (total cs, bytes cs ++ zdrop (total cs) buffer) else (0, buffer)))).
  - destruct (total cs <=? size) eqn:E; bool_prop; [|by apply runs_ret].
    apply runs_bind. assert (ztake (total cs) (zdrop 0 (bytes cs)) = bytes cs) as Hb by (apply ztake_ge; done).
    eapply runs_ask; [apply (pbuf_copy_partial_spec_runs _ _ cs); rewrite ?Hb; try done; fold (total cs); lia|].
    rewrite Hb. by apply runs_ret.
  - intros r s' [-> ->].
    set (r := if total cs <=? size then _ else _) in *. destruct r as [n b] eqn:Er. apply runs_bind.
    eapply runs_mono; [by apply (pbuf_free_cells s l cs)|]. intros k s' ->. by apply runs_ret.
Qed.

Lemma link_read_cons w ctx lk l q cs buffer size :
  lw_links w !! ctx = Some lk → holds (l_rx lk) (Some l :: q) → size ≤ zlen buffer →
  packet (lw_store w) (Some l) cs → Forall (freeable (lw_store w)) cs →
  runs (link_read ctx buffer size) w (λ r w',
    r = Some (if total cs <=? size then (total cs, bytes cs ++ zdrop (total cs) buffer) else (0, buffer)) ∧
    (∃ rx, holds rx q ∧ lw_links w' = <[ctx := lk <| l_rx := rx |>]> (lw_links w)) ∧
    lw_store w' = (free_cells cs (lw_store w)).2).
Proof.
  intros Hlk Hh Hbuf Hpk Hfr. destruct (recv_wait_cons _ (l_closed lk) _ _ Hh) as (rx & Hrx & Hh').
  apply runs_bind, runs_bind. eapply runs_ask; [unfold get_link; by rewrite Hlk|].
  apply runs_bind. eapply runs_ask; [done|]. apply runs_bind, runs_modify, runs_ret.
  apply runs_bind, runs_lift. eapply runs_mono; [by apply (link_read_finish_spec _ l cs)|].
  intros r s' (-> & Hf). apply runs_ret. split; [done|]. split; [|done]. by exists rx.
Qed.

Lemma link_read_null w ctx lk q buffer size :
  lw_links w !! ctx = Some lk → holds (l_rx lk) (None :: q) →
  runs (link_read ctx buffer size) w (λ r w', r = Some (0, buffer) ∧
    (∃ rx, holds rx q ∧ lw_links w' = <[ctx := lk <| l_rx := rx |>]> (lw_links w)) ∧ lw_store w' = lw_store w).
Proof.
  intros Hlk Hh. destruct (recv_wait_cons _ (l_closed lk) _ _ Hh) as (rx & Hrx & Hh').
  apply runs_bind, runs_bind. eapply runs_ask; [unfold get_link; by rewrite Hlk|].
  apply runs_bind. eapply runs_ask; [done|]. apply runs_bind, runs_modify, runs_ret.
  apply runs_bind, runs_lift, runs_ret, runs_ret. split; [done|]. split; [|done]. by exists rx.
Qed.

Lemma link_read_empty w ctx lk buffer size :
  lw_links w !! ctx = Some lk → holds (l_rx lk) [] →
  link_read ctx buffer size w = Val (if l_closed lk then Some (-1, buffer) else None, w).
Proof.
  intros Hlk Hh. unfold link_read, link_read_section, mbnd, ask, get_link. rewrite Hlk. simpl.
  rewrite (recv_wait_empty _ _ Hh). simpl. unfold set_link, modify.
  assert (lk <| l_rx := l_rx lk |> = lk) as -> by by destruct lk.
  rewrite set_link_same by done. by destruct (l_closed lk).
Qed.

(** C14: [link_read] delivers the packets the stack sent, oldest first.  With
    packets waiting it takes the oldest: if the buffer of [size] bytes can hold
    it, its bytes are put at the buffer's start and its length returned,
    otherwise 0 is returned and the buffer left alone.  Either way the packet is
    released, exactly as [pbuf_free] does: its leading pbufs with a single
    reference and their blocks are gone, the first shared one has a reference
    less, and nothing else in the heap changes; and the other packets stay in the
    queue.  (A null entry is taken and gives 0.)  With none waiting it returns -1
    if the link is closed, and waits otherwise. *)
Theorem link_read_spec w ctx lk q buffer size :
  lw_links w !! ctx = Some lk → holds (l_rx lk) q → size ≤ zlen buffer →
  match q with
  | [] => link_read ctx buffer size w = Val (if l_closed lk then Some (-1, buffer) else None, w)
  | None :: q => runs (link_read ctx buffer size) w (λ r w', r = Some (0, buffer) ∧
        (∃ rx, holds rx q ∧ lw_links w' = <[ctx := lk <| l_rx := rx |>]> (lw_links w)) ∧ lw_store w' = lw_store w)
  | Some l :: q => ∀ owned rest,
      let cs := owned ++ rest in
      packet (lw_store w) (Some l) cs → Forall (freeable (lw_store w)) cs →
      Forall (λ c, pb_ref (c_pbuf c) = 1) owned → (∀ c, hd_error rest = Some c → pb_ref (c_pbuf c) ≠ 1) →
      runs (link_read ctx buffer size) w (λ r w',
        r = Some (if total cs <=? size then (total cs, bytes cs ++ zdrop (total cs) buffer) else (0, buffer)) ∧
        (∃ rx, holds rx q ∧ lw_links w' = <[ctx := lk <| l_rx := rx |>]> (lw_links w)) ∧
        ∃ s1, gone (locs owned) (lw_store w) s1 ∧ same_rest (lw_store w) s1 ∧
          lw_store w' = match rest with [] => s1 | c :: _ => dec_ref c s1 end)
  end.
Proof.
  intros Hlk Hh Hbuf. destruct q as [|[l|] q]; [by apply link_read_empty| |by apply link_read_null].
  intros owned rest cs Hpk Hfr Hone Hrest. eapply runs_mono; [by apply (link_read_cons w ctx lk l q cs)|].
  intros r w' (-> & Hrx & Hs). split; [done|]. split; [done|].
  destruct (free_cells_owned owned rest (lw_store w) Hone) as (s1 & Hg & Hsame & _ & Hfree). exists s1.
  split; [done|]. split; [done|]. unfold cs in Hs. rewrite Hs, Hfree. destruct rest as [|c rest]; [done|]. simpl.
  by rewrite (proj2 (Z.eqb_neq _ _)) by by apply Hrest.
Qed.

(** ** Writing *)

Lemma gone_no_leak s0 s1 s2 s' (ls : list loc) :
  heap_ok s0 → heap_ok s' → next_loc s0 = next_loc s' ∨ (next_loc s0 ≤ next_loc s')%positive →
  gone ls s2 s' → pbufs s2 = pbufs s1 →
  (∀ l, l ∈ ls → (next_loc s0 ≤ l)%positive) →
  (∀ l, l ∉ ls → pbufs s1 !! l = pbufs s0 !! l) →
  (∀ l, l ∉ ls → blocks s2 !! l = blocks s0 !! l) →
  no_leak s0 s'.
Proof.
  intros H0 Hok Hn (Gp & Gb & _) Hp Hfresh Hs1 Hs2. split_and!; [|done|destruct Hn as [->|]; [lia|done]|].
  - apply map_eq. intros l. rewrite Gp, Hp. case_decide as Hin; [|by apply Hs1].
    by destruct (H0 _ (Hfresh _ Hin)) as (-> & _).
  - intros l. left. rewrite Gb. case_decide as Hin; [|by apply Hs2].
    by destruct (H0 _ (Hfresh _ Hin)) as (_ & -> & _).
Qed.

(** The packet [link_write] builds. *)
Record built s0 s (p : option loc) (cs : list cell) : Prop := {
  bu_packet : packet s p cs;
  bu_own : Forall own_data cs;
  bu_freeable : Forall (freeable s) cs;
  bu_ref : Forall (λ c, pb_ref (c_pbuf c) = 1) cs;
  bu_fresh : Forall (λ c, (next_loc s0 ≤ c_loc c < next_loc s)%positive) cs;
  bu_heap : heap_ok s;
  bu_next : (next_loc s0 ≤ next_loc s)%positive;
  bu_mbox : tcpip_mbox s = tcpip_mbox s0;
  bu_msgs : tcpip_msgs s = tcpip_msgs s0;
  bu_pbufs l : l ∉ locs cs → pbufs s !! l = pbufs s0 !! l;
  bu_blocks l : l ∉ locs cs → blocks s !! l = blocks s0 !! l
}.

Lemma Forall_cells (P : loc → pbuf → Prop) cs cs' :
  locs cs' = locs cs → c_pbuf <$> cs' = c_pbuf <$> cs →
  Forall (λ c, P (c_loc c) (c_pbuf c)) cs → Forall (λ c, P (c_loc c) (c_pbuf c)) cs'.
Proof.
  revert cs'. induction cs as [|c cs IH]; intros [|c' cs'] Hl Hp H; try done.
  simpl in *. injection Hl as Hl1 Hl. injection Hp as Hp1 Hp. inversion H; subst.
  constructor; [congruence|auto].
Qed.

Lemma built_fresh s s1 p cs : fresh_chain s s1 p cs 0 → total cs < 2 ^ 16 → built s s1 p cs.
Proof.
  intros Hf Hz. pose proof (fresh_chain_done _ _ _ _ Hf Hz) as Hpk.
  destruct Hf as [fseg _ ffresh fref fown ffree fpb fbl fmsg fmb fok fnext]. split; try done.
  rewrite Forall_forall in *. intros c Hc. split; [auto|].
  eapply heap_ok_used; [done|]. left. rewrite (lseg_in _ _ _ _ _ fseg Hc). by eexists.
Qed.

(** Filling it. *)
Lemma built_fill s s1 p cs n data :
  built s s1 p cs → p ≠ None → 0 ≤ n ≤ total cs → n ≤ zlen data →
  runs (pbuf_take p (Some data) n) s1 (λ _ s', ∃ cs', built s s' p cs' ∧
    bytes cs' = ztake n data ++ zdrop n (bytes cs) ∧ locs cs' = locs cs ∧ c_pbuf <$> cs' = c_pbuf <$> cs).
Proof.
  intros [bpk bown bfree bref bfresh bheap bnext bmb bmsg bpb bbl] Hp Hn Hdata.
  eapply runs_mono; [by apply (pbuf_take_spec_runs s1 p cs data n bpk Hp bown)|].
  intros e s' (_ & cs' & Hpk' & Hl & Hpb & Hb & Hps & (Hnx & _ & Hm & _) & Hmsg & Hbl & Hk).
  exists cs'. split_and!; [|done..]. pose proof (packet_seg _ _ _ bpk) as fseg.
  split; try done; rewrite ?Hl, ?Hps, ?Hnx, ?Hm, ?Hmsg; try done.
  - by apply (Forall_cells (λ l q, ∃ o, pb_payload q = Some (mk_ptr l o) ∧ SIZEOF_STRUCT_PBUF ≤ o) cs).
  - apply (Forall_cells (λ l q, pbuf_get_allocsrc q ∈ [0; 1; 2] ∧ is_Some (blocks s' !! l)) cs); [done..|].
    eapply Forall_impl; [exact bfree|]. intros c [? ?]. split; [done|auto].
  - by apply (Forall_cells (λ _ q, pb_ref q = 1) cs).
  - by apply (Forall_cells (λ l _, next_loc s ≤ l < next_loc s1)%positive cs).
  - intros l' Hl'. destruct (bheap l') as (? & ? & ?); [lia|]. rewrite Hps, Hmsg, Hbl; [done|].
    intros (c & -> & Hc)%list_elem_of_fmap. rewrite (lseg_in _ _ _ _ _ fseg Hc) in *. done.
  - intros l' Hl'. rewrite Hbl by done. by apply bbl.
Qed.

Lemma link_write_prepare_spec s q buffer size :
  heap_ok s → mbox_holds s q → 0 ≤ size < 2 ^ 16 → size ≤ zlen buffer →
  match link_write_prepare buffer size s with
  | Val (p, s') => ∃ l cs, p = Some l ∧ built s s' p cs ∧ bytes cs = ztake size buffer
  | Err e => e = AssertFailed ∧ ∃ s1, pbuf_alloc PBUF_IP size PBUF_POOL s = Val (None, s1)
  end.
Proof.
  intros Hok Hmb Hsize Hbuf. unfold link_write_prepare. rewrite u16_small by done. unfold mbnd at 1.
  pose proof (pbuf_alloc_spec_runs s q PBUF_IP size PBUF_POOL Hok Hmb Hsize ltac:(set_solver)) as Ha.
  unfold runs in Ha. destruct (pbuf_alloc PBUF_IP size PBUF_POOL s) as [[[l|] s1]|]; [| |done].
  - destruct Ha as (cs & Hpk & Hf & Ht).
    pose proof (built_fill s s1 (Some l) cs size buffer (built_fresh _ _ _ _ Hf ltac:(lia)) ltac:(done) ltac:(lia) Hbuf) as Htk.
    unfold runs in Htk. unfold mbnd. destruct (pbuf_take _ _ _ s1) as [[e s']|]; [|done].
    destruct Htk as (cs' & Hbu & Hb & _). exists l, cs'. split_and!; [done|done|].
    rewrite Hb, zdrop_ge; [apply app_nil_r|]. unfold total in Ht. lia.
  - split; [done|]. by exists s1.
Qed.

(** Giving the packet back, when the link is closed. *)
Lemma built_free s0 s p cs :
  heap_ok s0 → built s0 s p cs → p ≠ None → runs (pbuf_free p) s (λ _ s', no_leak s0 s').
Proof.
  intros H0 Hb Hp. pose proof (packet_seg _ _ _ (bu_packet _ _ _ _ Hb)) as Hs.
  eapply runs_mono; [apply (pbuf_free_loop_owned s p cs []); rewrite ?app_nil_r; try done|].
  - apply (packet_cells _ _ _ (bu_packet _ _ _ _ Hb)).
  - apply (bu_freeable _ _ _ _ Hb).
  - apply (bu_ref _ _ _ _ Hb).
  - intros n s' (_ & s2 & Hg & (Hn & _) & Hk & ->).
    apply (gone_no_leak s0 s s s2 (locs cs)); try done.
    + apply Hk, (bu_heap _ _ _ _ Hb).
    + right. rewrite Hn. apply (bu_next _ _ _ _ Hb).
    + intros l (c & -> & Hc)%list_elem_of_fmap. pose proof (bu_fresh _ _ _ _ Hb) as Hf.
      rewrite Forall_forall in Hf. by apply Hf.
    + apply (bu_pbufs _ _ _ _ Hb).
    + apply (bu_blocks _ _ _ _ Hb).
Qed.

(** Posting a message does not disturb a packet. *)
Lemma built_posted s0 s p cs f ctx q e s' :
  built s0 s p cs → posted f ctx s q e s' → packet s' p cs.
Proof.
  intros Hb (_ & Hp & _ & _ & Hcase). destruct (bu_packet _ _ _ _ Hb) as [Hs Ht Hz Hc]. split; try done.
  eapply lseg_frame; [done|by rewrite Hp|]. intros b Hin.
  destruct Hcase as [(_ & _ & _ & [d ->] & _)|(_ & _ & -> & _)]; [|done].
  rewrite own_data_blocks in Hin by apply (bu_own _ _ _ _ Hb).
  apply list_elem_of_fmap in Hin as (c & -> & Hin). pose proof (bu_fresh _ _ _ _ Hb) as Hf.
  rewrite Forall_forall in Hf. specialize (Hf c Hin). by rewrite lookup_insert_ne by lia.
Qed.

(** What a [link_write] that returns [n] has done. *)
Definition link_written w (ctx : loc) (lk : link_t) (tx : list (option loc)) (buffer : list Z) (size n : Z)
    w' : Prop :=
  if l_closed lk then n = -1 ∧ lw_links w' = lw_links w ∧ no_leak (lw_store w) (lw_store w')
  else n = size ∧ ∃ l cs lk',
    packet (lw_store w') (Some l) cs ∧ bytes cs = ztake size buffer ∧
    Forall (λ c, (next_loc (lw_store w) ≤ c_loc c)%positive) cs ∧
    lw_links w' = <[ctx := lk']> (lw_links w) ∧ holds (l_tx lk') (tx ++ [Some l]) ∧
    l_rx lk' = l_rx lk ∧ l_closed lk' = false.

(** C13: [link_write] of a buffer of less than 2^16 bytes queues exactly those
    bytes for the stack and returns their number; if the link is closed it
    returns -1 and leaks nothing.  The only way it does not return is the
    assertion of [pbuf_take] when [pbuf_alloc] ran out of memory. *)
Theorem link_write_spec w ctx lk q tx buffer size :
  lw_links w !! ctx = Some lk → heap_ok (lw_store w) → mbox_holds (lw_store w) q →
  holds (l_tx lk) tx → zlen tx < PBUF_QUEUE_LENGTH → 0 ≤ size < 2 ^ 16 → size ≤ zlen buffer →
  match link_write ctx buffer size w with
  | Val (n, w') => link_written w ctx lk tx buffer size n w'
  | Err e => e = AssertFailed ∧ ∃ s1, pbuf_alloc PBUF_IP size PBUF_POOL (lw_store w) = Val (None, s1)
  end.
Proof.
  intros Hlk Hok Hmb Htx Hroom Hsize Hbuf. unfold link_write. unfold mbnd at 1, lift at 1. simpl.
  pose proof (link_write_prepare_spec (lw_store w) q buffer size Hok Hmb Hsize Hbuf) as Hprep.
  destruct (link_write_prepare buffer size (lw_store w)) as [[p s']|]; [|done].
  destruct Hprep as (l & cs & -> & Hbu & Hbytes).
  assert (Forall (λ c, (next_loc (lw_store w) ≤ c_loc c)%positive) cs) as Hfresh.
  { eapply Forall_impl; [apply (bu_fresh _ _ _ _ Hbu)|]. by intros c [? _]. }
  cut (runs (link_write_section ctx (Some l) size) (w <| lw_store := s' |>)
            (link_written w ctx lk tx buffer size)).
  { unfold runs. by destruct (link_write_section _ _ _ _) as [[n w']|]. }
  unfold link_written.
  apply runs_bind. eapply runs_ask; [unfold get_link; simpl; by rewrite Hlk|].
  destruct (l_closed lk) eqn:Hcl.
  - apply runs_bind, runs_lift. eapply runs_mono; [by apply (built_free (lw_store w) s' (Some l) cs)|].
    intros n s2 Hf. by apply runs_ret.
  - apply runs_bind, runs_lift, runs_bind, runs_bind. eapply runs_eq; [by eapply append_one_room|].
    apply runs_ret, runs_ret. apply runs_bind, runs_modify. apply runs_bind.
    set (lk1 := lk <| l_tx := stored (l_tx lk) (Some l) |>).
    assert (∀ w' lk', lw_links w' = <[ctx := lk']> (lw_links w) → l_tx lk' = l_tx lk1 → l_rx lk' = l_rx lk →
      l_closed lk' = false → packet (lw_store w') (Some l) cs →
      size = size ∧ ∃ l cs lk', packet (lw_store w') (Some l) cs ∧ bytes cs = ztake size buffer ∧
        Forall (λ c, (next_loc (lw_store w) ≤ c_loc c)%positive) cs ∧
        lw_links w' = <[ctx := lk']> (lw_links w) ∧ holds (l_tx lk') (tx ++ [Some l]) ∧
        l_rx lk' = l_rx lk ∧ l_closed lk' = false) as Hend.
    { intros w' lk' -> Ht Hr Hc Hp. split; [done|]. exists l, cs, lk'. rewrite Ht.
      split_and!; try done. by apply stored_room. }
    destruct (l_tx_polling lk).
    + apply runs_ret, runs_ret. by apply (Hend _ lk1), (bu_packet _ _ _ _ Hbu).
    + apply runs_bind, runs_lift. destruct Hmb as [Hring Hcnt].
      eapply runs_mono; [apply (tcpip_try_callback_spec Cb_poll_tx (Some ctx) s' q (bu_heap _ _ _ _ Hbu))|].
      { unfold mbox_holds. by rewrite (bu_mbox _ _ _ _ Hbu). }
      intros e s2 [_ Hpost]. pose proof (built_posted _ _ _ _ _ _ _ _ _ Hbu Hpost) as Hpk2.
      destruct (is_ok e).
      * apply runs_bind. eapply runs_ask; [unfold get_link; simpl; by rewrite lookup_insert_eq|].
        apply runs_modify, runs_ret. apply (Hend _ (lk1 <| l_tx_polling := true |>)); try done.
        simpl. by rewrite insert_insert_eq.
      * apply runs_ret, runs_ret. by apply (Hend _ lk1).
Qed.

(** ** Concrete runs *)

Lemma link_tx_polling_sound_witness :
  ∃ w lk, star (tx_step (λ _, True)) (mk_tx_state attached_world Idle) (mk_tx_state w Idle) ∧
    lw_links w !! 1%positive = Some lk ∧ l_tx_polling lk = true ∧
    ∃ q, Seq.ring (tcpip_mbox (lw_store w)) q ∧ NoDup q ∧ length (polls 1 (lw_store w) q) = 1%nat.
Proof.
  assert ((match run_writes 1 attached_world with
           | Val w => match lw_links w !! 1%positive with Some lk => l_tx_polling lk | None => false end
           | Err _ => false
           end) = true) as H by (vm_compute; reflexivity).
  destruct (run_writes 1 attached_world) as [w|] eqn:Hw; [|discriminate].
  destruct (lw_links w !! 1%positive) as [lk|] eqn:Hlk; [|discriminate].
  pose proof (run_writes_star _ _ Idle _ Hw) as Hs.
  exists w, lk. split; [exact Hs|]. split; [exact Hlk|]. split; [exact H|].
  pose proof (link_tx_polling_sound _ _ (mk_tx_state w Idle) 1 lk attached_start Hs Hlk) as Hq.
  rewrite H in Hq. exact Hq.
Defined.

(** 33 packets are written, the stack's thread polls and frees the message: the
    last packet stays. *)
Definition fetched (w : lworld) : option (loc * lworld) :=
  match Seq.sys_arch_mbox_tryfetch (tcpip_mbox (lw_store w)) with
  | Val (Some (Some l), mb) => Some (l, w <| lw_store := (lw_store w) <| tcpip_mbox := mb |> |>)
  | _ => None
  end.

Lemma fetched_step app w l w' : fetched w = Some (l, w') → tx_step app (mk_tx_state w Idle) (mk_tx_state w' (Fetched l)).
Proof.
  unfold fetched. destruct (Seq.sys_arch_mbox_tryfetch _) as [[[[x|]|] mb]|] eqn:E; try done.
  intros [= <- <-]. by apply tx_fetch.
Qed.

Lemma link_tx_stranded_witness :
  ∃ w l out w1 t, star (tx_step (λ _, True)) (mk_tx_state attached_world Idle) (mk_tx_state w (Fetched l)) ∧
    poll_tx_section 1 w = Val (out, w1) ∧ star (tx_step (λ c, c ≠ 1%positive)) (mk_tx_state w1 (Swept l)) t ∧
    tx_pc t = Idle ∧ length out = 32%nat ∧ left_behind 1 [written 0] (tx_world t).
Proof.
  destruct (run_writes 33 attached_world) as [wa|] eqn:Hw; [|vm_compute in Hw; discriminate Hw].
  pose proof (run_writes_star _ _ Idle _ Hw) as Hs.
  destruct (run_writes_holds 33 attached_world wa (mk_link zeroed_queue zeroed_queue false false 1500) [] Hw eq_refl eq_refl
              holds_zeroed ltac:(done)) as (lk & Hlk & Hq).
  assert (match fetched wa with
          | Some (l, w) => bool_decide (tcpip_msgs (lw_store w) !! l = Some (poll_msg 1)) &&
              match poll_tx_section 1 w with
              | Val (_, w1) => match memp_free MEMP_TCPIP_MSG_API (Some l) (lw_store w1) with Val _ => true | _ => false end
              | _ => false
              end
          | None => false
          end = true) as H.
  { clear - Hw. vm_compute in Hw. injection Hw as <-. vm_compute. reflexivity. }
  destruct (fetched wa) as [[l w]|] eqn:Hf; [|discriminate H]. apply andb_true_iff in H as [Hm%bool_decide_eq_true H].
  destruct (poll_tx_section 1 w) as [[out w1]|] eqn:Hp; [|discriminate H].
  destruct (memp_free _ _ _) as [[[] st]|] eqn:Hfr; [|discriminate H].
  assert (lw_links w !! 1%positive = Some lk) as Hlk'.
  { clear - Hf Hlk. unfold fetched in Hf. destruct (Seq.sys_arch_mbox_tryfetch _) as [[[[x|]|] mb]|]; try discriminate Hf.
    by injection Hf as <- <-. }
  pose proof (star_trans _ _ _ _ Hs (star_step _ _ _ _ (star_refl _ _) (fetched_step _ _ _ _ Hf))) as Hstar.
  pose proof (star_step _ _ _ _ (star_refl _ _) (tx_free (λ c, c ≠ 1%positive) w1 l tt st Hfr)) as Hquiet.
  destruct (link_tx_stranded _ _ w l 1 lk _ out w1 _ attached_start Hstar Hm Hlk' Hq Hp Hquiet) as (Hout & Hlb & _).
  exists w, l, out, w1, (mk_tx_state (w1 <| lw_store := st |>) Idle).
  split; [exact Hstar|]. split; [exact Hp|]. split; [exact Hquiet|]. split; [reflexivity|].
  split; [rewrite Hout; reflexivity|exact Hlb].
Defined.

(** A link with one packet for the application, in the heap of [ex_store]. *)
Definition ex_link : link_t := mk_link (stored zeroed_queue (Some 1%positive)) zeroed_queue false false 1500.
Definition ex_world : lworld :=
  mk_lworld ex_store {[9%positive := ex_link]} (Some If_output) (Some 9%positive) 1500.

Lemma ex_link_rx : holds (l_rx ex_link) [Some 1%positive].
Proof. apply (stored_room zeroed_queue []); [apply holds_zeroed|done]. Qed.

Lemma link_read_spec_witness :
  runs (link_read 9 [0; 0; 0; 0; 0; 0] 6) ex_world (λ r w',
    r = Some (5, [1; 2; 3; 4; 5; 0]) ∧
    (∃ rx, holds rx [] ∧ lw_links w' = <[9%positive := ex_link <| l_rx := rx |>]> (lw_links ex_world)) ∧
    ∃ s1, gone [1%positive; 2%positive] ex_store s1 ∧ same_rest ex_store s1 ∧ lw_store w' = s1).
Proof.
  apply (link_read_spec ex_world 9 ex_link [Some 1%positive] [0; 0; 0; 0; 0; 0] 6 eq_refl ex_link_rx
           ltac:(discriminate) [ex_cell1; ex_cell2] [] ex_packet ex_freeable); [by repeat constructor|discriminate].
Defined.

Lemma link_write_spec_witness :
  match link_write 9 [1; 2; 3] 3 ex_world with
  | Val (n, w') => link_written ex_world 9 ex_link [] [1; 2; 3] 3 n w'
  | Err e => e = AssertFailed ∧ ∃ s1, pbuf_alloc PBUF_IP 3 PBUF_POOL ex_store = Val (None, s1)
  end.
Proof.
  apply (link_write_spec ex_world 9 ex_link [] [] [1; 2; 3] 3 eq_refl ex_heap_ok ex_mbox holds_zeroed); done.
Defined.
