(* ===== verification/Def.v ===== *)
(** * Byte order and the string routines of [core/def.c]

    A C string is the list of the bytes from the pointer to the end of the
    block it lies in; it is terminated when a zero byte occurs in it, and
    reading past the end is [Undefined].  The machine is little-endian. *)

From S2P Require Import Prelude.

(** ** Byte order *)

(** [PP_HTONS], [PP_HTONL] *)
Definition lwip_htons (x : Z) : Z :=
  u16 (Z.lor (Z.shiftl (Z.land x 255) 8) (Z.shiftr (Z.land x 65280) 8)).
Definition lwip_htonl (x : Z) : Z :=
  Z.lor (Z.lor (Z.lor (u32 (Z.shiftl (Z.land x 255) 24)) (Z.shiftl (Z.land x 65280) 8))
               (Z.shiftr (Z.land x 16711680) 8))
        (Z.shiftr (Z.land x 4278190080) 24).

(** The bytes of a 32-bit word in memory order. *)
Definition addr_bytes (a : Z) : list Z :=
  [a mod 256; a / 256 mod 256; a / 65536 mod 256; a / 16777216].

(** ** Characters ([include/lwip/arch.h], the C locale) *)

Definition in_range (c lo up : Z) : bool := (lo <=? c) && (c <=? up).
Definition lwip_isdigit (c : Z) : bool := in_range c 48 57.
Definition lwip_isxdigit (c : Z) : bool := lwip_isdigit c || in_range c 97 102 || in_range c 65 70.
Definition lwip_islower (c : Z) : bool := in_range c 97 122.
Definition lwip_isspace (c : Z) : bool := (c =? 32) || in_range c 9 13.

(** [*p], and [p + 1] *)
Definition next_char (p : list Z) : res (Z * list Z) :=
  match p with [] => Err Undefined | c :: p => Val (c, p) end.

Fixpoint strlen (p : list Z) : res Z :=
  match p with
  | [] => Err Undefined
  | c :: p => if c =? 0 then Val 0 else let* n := strlen p in Val (1 + n)
  end.

(** [strncmp(p, q, n) == 0] *)
Fixpoint strncmp_equal (n : nat) (p q : list Z) : res bool :=
  match n with
  | O => Val true
  | S n =>
    let* '(a, p) := next_char p in
    let* '(b, q) := next_char q in
    if negb (a =? b) then Val false
    else if a =? 0 then Val true else strncmp_equal n p q
  end.

(** ** Searching *)

(** The loop of [lwip_strnstr]; [i] is [p - buffer]. *)
Fixpoint strnstr_loop (p token : list Z) (tokenlen n i : Z) : res (option Z) :=
  match p with
  | [] => Err Undefined
  | c :: p' =>
    if negb (c =? 0) && (i + tokenlen <=? n) then
      let* '(t, token') := next_char token in
      let* hit := if c =? t then strncmp_equal (Z.to_nat tokenlen) p token else Val false in
      if hit then Val (Some i) else strnstr_loop p' token tokenlen n (i + 1)
    else Val None
  end.

(** The result is the offset from [buffer]. *)
Definition lwip_strnstr (buffer token : list Z) (n : Z) : res (option Z) :=
  let* tokenlen := strlen token in
  if tokenlen =? 0 then Val (Some 0) else strnstr_loop buffer token tokenlen n 0.

(** ** Comparing without case *)

(** One round of [lwip_stricmp] and [lwip_strnicmp]: do the characters differ
    even if case is ignored? *)
Definition differ (c1 c2 : Z) : bool :=
  if negb (c1 =? c2) then
    let c1_upc := Z.lor c1 32 in
    if (97 <=? c1_upc) && (c1_upc <=? 122) then
      let c2_upc := Z.lor c2 32 in negb (c1_upc =? c2_upc)
    else true
  else false.

Fixpoint lwip_stricmp (str1 str2 : list Z) : res Z :=
  match str1, str2 with
  | c1 :: str1, c2 :: str2 =>
    if differ c1 c2 then Val 1
    else if negb (c1 =? 0) then lwip_stricmp str1 str2 else Val 0
  | _, _ => Err Undefined
  end.

(** [len] is a [size_t] (8 bytes): [len--] wraps. *)
Fixpoint lwip_strnicmp (str1 str2 : list Z) (len : Z) : res Z :=
  match str1, str2 with
  | c1 :: str1, c2 :: str2 =>
    if differ c1 c2 then Val 1
    else let len := u64 (len - 1) in
         if negb (len =? 0) && negb (c1 =? 0) then lwip_strnicmp str1 str2 len else Val 0
  | _, _ => Err Undefined
  end.

(** ** [lwip_itoa] *)

(** The digit loop: writes from the end of the buffer; the next free place is
    [tmp - 1], and the loop stops at [res]. *)
Fixpoint itoa_loop (fuel : nat) (buf : list Z) (n tmp res : Z) : Prelude.res (list Z * Z * Z) :=
  match fuel with
  | O => Err OutOfFuel
  | S fuel =>
    if negb (n =? 0) && (res <? tmp) then
      let val := 48 + n mod 10 in
      let tmp := tmp - 1 in
      let* buf := buf_write buf tmp [val] in
      itoa_loop fuel buf (n / 10) tmp res
    else Val (buf, n, tmp)
  end.

Definition INT_MIN : Z := - 2 ^ 31.

(** The buffer [result] is [bufsize] bytes; [-number] overflows for [INT_MIN]. *)
Definition lwip_itoa (result : list Z) (bufsize number : Z) : res (list Z) :=
  if number =? INT_MIN then Err Undefined else
  let n := if 0 <=? number then number else - number in
  if bufsize <? 2 then
    if bufsize =? 1 then buf_write result 0 [0] else Val result
  else
    let* '(buf, res) :=
      if number <? 0 then let* b := buf_write result 0 [45] in Val (b, 1) else Val (result, 0) in
    let* buf := buf_write buf (bufsize - 1) [0] in
    let* '(buf, n, tmp) := itoa_loop 11 buf n (bufsize - 1) res in
    if negb (n =? 0) then buf_write buf 0 [0]
    else
      let* t := buf_read buf tmp 1 in
      if bool_decide (t = [0]) then
        let* buf := buf_write buf res [48] in
        buf_write buf (res + 1) [0]
      else
        let* d := buf_read buf tmp (bufsize - tmp) in
        buf_write buf res d.

(** ** Byte order *)

Lemma htons_eq x : 0 ≤ x < 2 ^ 16 → lwip_htons x = 256 * (x mod 256) + x / 256.
Proof.
  intros Hx. unfold lwip_htons. change 255 with (Z.ones 8). change 65280 with (Z.shiftl (Z.ones 8) 8).
  rewrite land_low, land_field by done. rewrite Z.shiftl_mul_pow2, Z.shiftr_div_pow2, Z.div_mul by done.
  change (2 ^ 8) with 256. bounds. rewrite (Z.mod_small (x / 256)) by wrap_lia.
  rewrite (lor_add 8) by (change (2 ^ 8) with 256; wrap_lia). change (2 ^ 8) with 256. wrap_lia.
Qed.

Lemma htonl_eq x : 0 ≤ x < 2 ^ 32 →
  lwip_htonl x = 16777216 * (x mod 256) + 65536 * (x / 256 mod 256) + 256 * (x / 65536 mod 256) + x / 16777216.
Proof.
  intros Hx. unfold lwip_htonl. change 255 with (Z.ones 8). change 65280 with (Z.shiftl (Z.ones 8) 8).
  change 16711680 with (Z.shiftl (Z.ones 8) 16). change 4278190080 with (Z.shiftl (Z.ones 8) 24).
  rewrite land_low, !land_field by done. rewrite !Z.shiftl_mul_pow2, !Z.shiftr_div_pow2, Z.div_mul by done.
  change (2 ^ 24) with 16777216. change (2 ^ 16) with 65536. change (2 ^ 8) with 256. bounds.
  rewrite u32_small by wrap_lia. rewrite (Z.mod_small (x / 16777216)) by wrap_lia.
  replace (x / 65536 mod 256 * 65536 / 256) with (x / 65536 mod 256 * 256) by wrap_lia.
  replace (x mod 256 * 16777216) with (x mod 256 * 256 * 2 ^ 16) by lia.
  replace (x / 256 mod 256 * 256 * 256) with (x / 256 mod 256 * 2 ^ 16) by lia.
  rewrite <- (Z.shiftl_mul_pow2 _ 16), <- (Z.shiftl_mul_pow2 (x / 256 mod 256) 16), <- Z.shiftl_lor by lia.
  rewrite (lor_add 8) by (change (2 ^ 8) with 256; wrap_lia). rewrite Z.shiftl_mul_pow2 by lia.
  rewrite <- Z.lor_assoc, (lor_add 8 (_ / 65536 mod 256)) by (change (2 ^ 8) with 256; wrap_lia).
  rewrite (lor_add 16) by (change (2 ^ 16) with 65536; change (2 ^ 8) with 256; wrap_lia).
  change (2 ^ 16) with 65536; change (2 ^ 8) with 256. lia.
Qed.

(** A 32-bit word by its bytes, the lowest first. *)
Definition word (a b c d : Z) : Z := a + 256 * (b + 256 * (c + 256 * d)).

Lemma word_of x : 0 ≤ x < 2 ^ 32 →
  ∃ a b c d, is_u8 a ∧ is_u8 b ∧ is_u8 c ∧ is_u8 d ∧ x = word a b c d.
Proof.
  intros Hx. exists (x mod 256), (x / 256 mod 256), (x / 256 / 256 mod 256), (x / 256 / 256 / 256).
  unfold word, is_u8. change (2 ^ 8) with 256. bounds. repeat split; try (apply Z.mod_pos_bound; lia).
  - apply Z.div_pos; [|lia]. apply Z.div_pos; [|lia]. apply Z.div_pos; lia.
  - rewrite !Z.div_div by lia. apply Z.div_lt_upper_bound; lia.
  - pose proof (Z_div_mod_eq_full x 256). pose proof (Z_div_mod_eq_full (x / 256) 256).
    pose proof (Z_div_mod_eq_full (x / 256 / 256) 256). lia.
Qed.

Lemma word_range a b c d : is_u8 a → is_u8 b → is_u8 c → is_u8 d → 0 ≤ word a b c d < 2 ^ 32.
Proof. unfold word. bounds. lia. Qed.

Lemma word_step a x : is_u8 a → (a + 256 * x) mod 256 = a ∧ (a + 256 * x) / 256 = x.
Proof. intros. bounds. Z.div_mod_to_equations. lia. Qed.

Lemma htonl_word a b c d :
  is_u8 a → is_u8 b → is_u8 c → is_u8 d → lwip_htonl (word a b c d) = word d c b a.
Proof.
  intros Ha Hb Hc Hd. rewrite htonl_eq by (by apply word_range).
  replace 16777216 with (256 * 256 * 256) by lia. replace 65536 with (256 * 256) by lia.
  rewrite <- !Z.div_div by lia. unfold word.
  rewrite (proj1 (word_step a _ Ha)), (proj2 (word_step a _ Ha)), (proj1 (word_step b _ Hb)),
    (proj2 (word_step b _ Hb)), (proj1 (word_step c _ Hc)), (proj2 (word_step c _ Hc)). lia.
Qed.

Lemma htonl_range x : 0 ≤ x < 2 ^ 32 → 0 ≤ lwip_htonl x < 2 ^ 32.
Proof. intros (a & b & c & d & ? & ? & ? & ? & ->)%word_of. rewrite htonl_word by done. by apply word_range. Qed.

Lemma htonl_involutive x : 0 ≤ x < 2 ^ 32 → lwip_htonl (lwip_htonl x) = x.
Proof. intros (a & b & c & d & ? & ? & ? & ? & ->)%word_of. by rewrite !htonl_word. Qed.

(** ** Searching *)

(** A C string: its characters, the terminator, and what follows. *)
Definition no_nul (s : list Z) : Prop := Forall (λ c, c ≠ 0) s.
Definition c_string (p s : list Z) : Prop := no_nul s ∧ ∃ r, p = s ++ 0 :: r.

Lemma c_string_cons p c s : c_string p (c :: s) → ∃ p', p = c :: p' ∧ c ≠ 0 ∧ c_string p' s.
Proof. intros [[Hc Hs]%Forall_cons [r ->]]. exists (s ++ 0 :: r). split_and!; [done|done|]. split; eauto. Qed.
Lemma c_string_nil p : c_string p [] → ∃ p', p = 0 :: p'.
Proof. intros [_ [r ->]]. by exists r. Qed.

Lemma strlen_spec p s : c_string p s → strlen p = Val (zlen s).
Proof.
  revert p. induction s as [|c s IH]; intros p H.
  - apply c_string_nil in H as [p' ->]. done.
  - apply c_string_cons in H as (p' & -> & Hc & H). cbn [strlen].
    rewrite (proj2 (Z.eqb_neq _ _)), (IH _ H) by done. cbn [rbind]. by rewrite zlen_cons.
Qed.

Lemma strncmp_equal_spec t : ∀ p q s,
  c_string p s → c_string q t →
  strncmp_equal (length t) p q = Val (bool_decide (take (length t) s = t)).
Proof.
  induction t as [|b t IH]; intros p q s Hp Hq; [done|].
  apply c_string_cons in Hq as (q' & -> & Hb & Hq). cbn [length strncmp_equal next_char rbind].
  destruct s as [|a s].
  - apply c_string_nil in Hp as [p' ->]. cbn [next_char rbind]. rewrite (proj2 (Z.eqb_neq _ _)) by done. done.
  - apply c_string_cons in Hp as (p' & -> & Ha & Hp). cbn [next_char rbind take].
    destruct (Z.eqb_spec a b) as [->|Hab]; cbn [negb].
    + rewrite (proj2 (Z.eqb_neq _ _)), (IH _ _ _ Hp Hq) by done. f_equal.
      apply bool_decide_ext. split; [by intros ->|by intros [= ->]].
    + rewrite bool_decide_false; [done|]. by intros [= ->].
Qed.

(** [t] occurs in [s] at [i]. *)
Definition occurs (t s : list Z) (i : Z) : Prop := zslice i (zlen t) s = t.
#[export] Instance occurs_dec t s i : Decision (occurs t s i) := decide (zslice i (zlen t) s = t).

Lemma occurs_shift t c s i : 0 ≤ i → occurs t (c :: s) (1 + i) ↔ occurs t s i.
Proof.
  intros Hi. unfold occurs, zslice, ztake, zdrop. replace (Z.to_nat (1 + i)) with (S (Z.to_nat i)) by lia. done.
Qed.

Lemma strnstr_loop_spec t q n : c_string q t → t ≠ [] → ∀ s p i,
  c_string p s → 0 ≤ i →
  ∃ r, strnstr_loop p q (zlen t) n i = Val r ∧
    match r with
    | Some k => i ≤ k ∧ k + zlen t ≤ n ∧ occurs t s (k - i) ∧ ∀ j, i ≤ j < k → ¬ occurs t s (j - i)
    | None => ∀ j, i ≤ j → j + zlen t ≤ n → ¬ occurs t s (j - i)
    end.
Proof.
  intros Hq Ht. induction s as [|c s IH]; intros p i Hp Hi.
  - apply c_string_nil in Hp as [p' ->]. exists None. split; [done|]. intros j _ _.
    unfold occurs, zslice. rewrite zdrop_nil, ztake_nil. done.
  - pose proof Hp as Hp0. apply c_string_cons in Hp as (p' & -> & Hc & Hp). cbn [strnstr_loop].
    rewrite (proj2 (Z.eqb_neq c 0)) by done. cbn [negb andb].
    destruct (Z.leb_spec (i + zlen t) n); [|exists None; split; [done|]; intros; lia].
    destruct t as [|b t]; [done|]. pose proof Hq as Hq0. apply c_string_cons in Hq as (q' & -> & Hb & Hq).
    cbn [next_char rbind].
    assert ((if c =? b then strncmp_equal (Z.to_nat (zlen (b :: t))) (c :: p') (b :: q') else Val false) =
            Val (bool_decide (occurs (b :: t) (c :: s) 0))) as ->.
    { assert (occurs (b :: t) (c :: s) 0 ↔ take (length (b :: t)) (c :: s) = b :: t) as Hocc.
      { unfold occurs, zslice. rewrite zdrop_0. unfold ztake, zlen. by rewrite Nat2Z.id. }
      rewrite (bool_decide_ext _ _ Hocc). unfold zlen. rewrite Nat2Z.id.
      destruct (Z.eqb_spec c b); [by apply strncmp_equal_spec|].
      rewrite bool_decide_false; [done|]. cbn [length take]. by intros [= ->]. }
    cbn [rbind]. case_bool_decide as Ho.
    + exists (Some i). split; [done|]. split_and!; [lia|done|by rewrite Z.sub_diag|]. intros; lia.
    + destruct (IH p' (i + 1) Hp ltac:(lia)) as (r & -> & Hr). exists r. split; [done|].
      assert (∀ j, i + 1 ≤ j → occurs (b :: t) (c :: s) (j - i) ↔ occurs (b :: t) s (j - (i + 1))) as Hsh.
      { intros j Hj. replace (j - i) with (1 + (j - (i + 1))) by lia. apply occurs_shift. lia. }
      destruct r as [k|].
      * destruct Hr as (? & ? & Hk & Hmin). split_and!; [lia|lia|by apply Hsh|]. intros j Hj.
        destruct (decide (j = i)) as [->|]; [by rewrite Z.sub_diag|]. rewrite Hsh by lia. apply Hmin. lia.
      * intros j Hj Hn. destruct (decide (j = i)) as [->|]; [by rewrite Z.sub_diag|].
        rewrite Hsh by lia. apply Hr; lia.
Qed.

(** [lwip_strnstr] finds the first occurrence of the token that ends within
    the first [n] characters of the string, and nothing when there is none. *)
Theorem lwip_strnstr_spec buffer token s t n :
  c_string buffer s → c_string token t → 0 ≤ n →
  ∃ r, lwip_strnstr buffer token n = Val r ∧
    match r with
    | Some k => 0 ≤ k ∧ (t ≠ [] → k + zlen t ≤ n) ∧ occurs t s k ∧ ∀ j, 0 ≤ j < k → ¬ occurs t s j
    | None => t ≠ [] ∧ ∀ j, 0 ≤ j → j + zlen t ≤ n → ¬ occurs t s j
    end.
Proof.
  intros Hb Htok Hn. unfold lwip_strnstr. rewrite (strlen_spec _ t) by done. cbn [rbind].
  destruct t as [|b t].
  { exists (Some 0). split; [done|]. split_and!; [lia|done|by unfold occurs, zslice; rewrite ztake_0|lia]. }
  rewrite (proj2 (Z.eqb_neq _ _)) by (rewrite zlen_cons; pose proof (zlen_nonneg t); lia).
  destruct (strnstr_loop_spec (b :: t) token n Htok ltac:(done) s buffer 0 Hb ltac:(lia)) as (r & -> & Hr).
  exists r. split; [done|]. destruct r as [k|].
  - destruct Hr as (? & ? & Hk & Hmin). rewrite Z.sub_0_r in Hk. split_and!; try done.
    intros j Hj. rewrite <- (Z.sub_0_r j). by apply Hmin.
  - split; [done|]. intros j ? ?. rewrite <- (Z.sub_0_r j). by apply Hr.
Qed.

(** ** Comparing without case *)

Definition tolower (c : Z) : Z := if in_range c 65 90 then c + 32 else c.

Definition all_bytes : list Z := map Z.of_nat (seq 0 256).
Lemma in_all_bytes c : is_u8 c → In c all_bytes.
Proof.
  intros Hc. unfold is_u8 in Hc. change (2 ^ 8) with 256 in Hc. apply in_map_iff. exists (Z.to_nat c).
  split; [lia|]. apply in_seq. lia.
Qed.

Lemma differ_spec c1 c2 : is_u8 c1 → is_u8 c2 → differ c1 c2 = negb (tolower c1 =? tolower c2).
Proof.
  intros H1%in_all_bytes H2%in_all_bytes.
  assert (forallb (λ a, forallb (λ b, Bool.eqb (differ a b) (negb (tolower a =? tolower b))) all_bytes)
            all_bytes = true) as H by (vm_compute; reflexivity).
  rewrite forallb_forall in H. specialize (H _ H1). rewrite forallb_forall in H. specialize (H _ H2).
  by apply Bool.eqb_prop.
Qed.

Lemma differ_nul c : c ≠ 0 → differ 0 c = true ∧ differ c 0 = true.
Proof.
  intros Hc. unfold differ. rewrite (proj2 (Z.eqb_neq c 0)), (proj2 (Z.eqb_neq 0 c)) by congruence.
  split; [done|]. cbn [negb]. change (Z.lor 0 32) with 32. split_ifs; [|done].
  apply negb_true_iff, Z.eqb_neq. lia.
Qed.

Definition same_but_case (s1 s2 : list Z) : Prop := map tolower s1 = map tolower s2.
#[export] Instance same_but_case_dec s1 s2 : Decision (same_but_case s1 s2) := decide (map tolower s1 = map tolower s2).

(** [lwip_strnicmp] with a positive length tells whether the first [len]
    characters of two strings agree up to the case of letters. *)
Theorem lwip_strnicmp_spec s1 : ∀ s2 p1 p2 len,
  c_string p1 s1 → c_string p2 s2 → Forall is_u8 s1 → Forall is_u8 s2 → 0 < len < 2 ^ 64 →
  lwip_strnicmp p1 p2 len = Val (if decide (same_but_case (ztake len s1) (ztake len s2)) then 0 else 1).
Proof.
  induction s1 as [|c1 s1 IH]; intros s2 p1 p2 len H1 H2 U1 U2 Hlen;
    (destruct s2 as [|c2 s2];
     [apply c_string_nil in H2 as [p2' ->]|apply c_string_cons in H2 as (p2' & -> & Hc2 & H2)]);
    [apply c_string_nil in H1 as [p1' ->]..|
     apply c_string_cons in H1 as (p1' & -> & Hc1 & H1)|apply c_string_cons in H1 as (p1' & -> & Hc1 & H1)];
    cbn [lwip_strnicmp]; unfold same_but_case.
  - rewrite andb_false_r. by rewrite decide_True by (by rewrite !ztake_nil).
  - rewrite (proj1 (differ_nul c2 Hc2)). rewrite decide_False; [done|].
    rewrite ztake_nil. unfold ztake. destruct (Z.to_nat len) eqn:E; [lia|done].
  - rewrite (proj2 (differ_nul c1 Hc1)). rewrite decide_False; [done|].
    rewrite ztake_nil. unfold ztake. destruct (Z.to_nat len) eqn:E; [lia|done].
  - apply Forall_cons in U1 as [Uc1 U1]. apply Forall_cons in U2 as [Uc2 U2].
    assert (∀ c (s : list Z), ztake len (c :: s) = c :: ztake (len - 1) s) as Htk.
    { intros c s. unfold ztake. by replace (Z.to_nat len) with (S (Z.to_nat (len - 1))) by lia. }
    rewrite differ_spec, !Htk by done. cbn [map]. destruct (Z.eqb_spec (tolower c1) (tolower c2)) as [Ht|Ht]; cbn [negb].
    + rewrite u64_small by (bounds; lia). rewrite (proj2 (Z.eqb_neq c1 0)) by done. cbn [negb]. rewrite andb_true_r.
      destruct (Z.eqb_spec (len - 1) 0) as [->|]; cbn [negb].
      * rewrite !ztake_0. rewrite decide_True; [done|]. cbn [map]. by rewrite Ht.
      * assert (0 < len - 1 < 2 ^ 64) as Hlen1 by lia.
        rewrite (IH _ _ _ _ H1 H2 U1 U2 Hlen1). unfold same_but_case.
        f_equal. repeat case_decide; congruence.
    + rewrite decide_False; [done|]. congruence.
Qed.

(** [lwip_stricmp] tells whether two strings agree up to the case of letters. *)
Theorem lwip_stricmp_spec s1 : ∀ s2 p1 p2,
  c_string p1 s1 → c_string p2 s2 → Forall is_u8 s1 → Forall is_u8 s2 →
  lwip_stricmp p1 p2 = Val (if decide (same_but_case s1 s2) then 0 else 1).
Proof.
  induction s1 as [|c1 s1 IH]; intros s2 p1 p2 H1 H2 U1 U2;
    (destruct s2 as [|c2 s2];
     [apply c_string_nil in H2 as [p2' ->]|apply c_string_cons in H2 as (p2' & -> & Hc2 & H2)]);
    [apply c_string_nil in H1 as [p1' ->]..|
     apply c_string_cons in H1 as (p1' & -> & Hc1 & H1)|apply c_string_cons in H1 as (p1' & -> & Hc1 & H1)];
    cbn [lwip_stricmp]; unfold same_but_case.
  - done.
  - by rewrite (proj1 (differ_nul c2 Hc2)).
  - by rewrite (proj2 (differ_nul c1 Hc1)).
  - apply Forall_cons in U1 as [Uc1 U1]. apply Forall_cons in U2 as [Uc2 U2].
    rewrite differ_spec by done. cbn [map]. destruct (Z.eqb_spec (tolower c1) (tolower c2)) as [Ht|Ht]; cbn [negb].
    + rewrite (proj2 (Z.eqb_neq c1 0)) by done. cbn [negb].
      rewrite (IH _ _ _ H1 H2 U1 U2). unfold same_but_case. f_equal. repeat case_decide; congruence.
    + rewrite decide_False; [done|]. congruence.
Qed.

(** ** Decimal text *)

(** The digits of a number, the most significant first; none for 0. *)
Fixpoint digits (fuel : nat) (n : Z) : list Z :=
  match fuel with
  | O => []
  | S fuel => if n =? 0 then [] else digits fuel (n / 10) ++ [48 + n mod 10]
  end.
Definition decimal (n : Z) : list Z := if n =? 0 then [48] else digits 10 n.
Definition signed_decimal (n : Z) : list Z := if n <? 0 then 45 :: decimal (- n) else decimal n.

Lemma digits_range fuel : ∀ n, 0 ≤ n → Forall (λ c, 48 ≤ c ≤ 57) (digits fuel n).
Proof.
  induction fuel as [|fuel IH]; intros n Hn; [constructor|]. cbn [digits]. case_match; [constructor|].
  apply Forall_app. split; [apply IH; apply Z.div_pos; lia|]. repeat constructor; Z.div_mod_to_equations; lia.
Qed.

Lemma itoa_loop_spec fuel : ∀ n buf tmp res,
  0 ≤ n < 10 ^ Z.of_nat fuel → 0 ≤ res ≤ tmp → tmp ≤ zlen buf →
  let ds := digits fuel n in
  if zlen ds <=? tmp - res
  then itoa_loop (S fuel) buf n tmp res = Val (zsplice (tmp - zlen ds) ds buf, 0, tmp - zlen ds)
  else ∃ buf' n' tmp', itoa_loop (S fuel) buf n tmp res = Val (buf', n', tmp') ∧ n' ≠ 0 ∧ zlen buf' = zlen buf.
Proof.
  induction fuel as [|fuel IH]; intros n buf tmp res Hn Hr Ht.
  { change (10 ^ Z.of_nat 0) with 1 in Hn. assert (n = 0) as -> by lia. cbn [digits]. rewrite zlen_nil.
    rewrite (proj2 (Z.leb_le _ _)) by lia. rewrite Z.sub_0_r, zsplice_nil by lia. done. }
  change (itoa_loop (S (S fuel)) buf n tmp res) with
    (if negb (n =? 0) && (res <? tmp)
     then let* buf := buf_write buf (tmp - 1) [48 + n mod 10] in itoa_loop (S fuel) buf (n / 10) (tmp - 1) res
     else Val (buf, n, tmp)).
  cbn [digits]. destruct (Z.eqb_spec n 0) as [->|Hn0]; cbn [negb andb].
  { rewrite zlen_nil, (proj2 (Z.leb_le _ _)), Z.sub_0_r, zsplice_nil by lia. done. }
  rewrite zlen_app. change (zlen [_]) with 1. set (ds := digits fuel (n / 10)). pose proof (zlen_nonneg ds).
  destruct (Z.ltb_spec res tmp).
  - rewrite buf_write_ok by (change (zlen [_]) with 1; lia). cbn [rbind].
    assert (zlen (zsplice (tmp - 1) [48 + n mod 10] buf) = zlen buf) as Hl
      by (apply zlen_zsplice; change (zlen [_]) with 1; lia).
    assert (0 ≤ n / 10 < 10 ^ Z.of_nat fuel) as Hn1.
    { rewrite Nat2Z.inj_succ, Z.pow_succ_r in Hn by lia. Z.div_mod_to_equations. lia. }
    pose proof (IH (n / 10) (zsplice (tmp - 1) [48 + n mod 10] buf) (tmp - 1) res Hn1 ltac:(lia) ltac:(lia)) as H'.
    cbv zeta in H'. fold ds in H'.
    destruct (Z.leb_spec (zlen ds) (tmp - 1 - res)).
    + rewrite (proj2 (Z.leb_le _ _)) by lia. rewrite H'. replace (tmp - (zlen ds + 1)) with (tmp - 1 - zlen ds) by lia.
      do 2 f_equal. f_equal. rewrite <- zsplice_app_back by (rewrite ?zlen_app; change (zlen [_]) with 1; lia).
      do 2 f_equal. lia.
    + rewrite (proj2 (Z.leb_gt _ _)) by lia. rewrite <- Hl. exact H'.
  - rewrite (proj2 (Z.leb_gt _ _)) by lia. by exists buf, n, tmp.
Qed.

Lemma decimal_nonempty fuel n : n ≠ 0 → digits (S fuel) n ≠ [].
Proof. intros Hn. cbn [digits]. rewrite (proj2 (Z.eqb_neq _ _)) by done. by destruct (digits fuel (n / 10)). Qed.

Lemma zsplice_head (v : Z) buf : 1 ≤ zlen buf → ∃ r, zsplice 0 [v] buf = v :: r.
Proof. intros. unfold zsplice. rewrite ztake_0. by eexists. Qed.

(** What the code does once the digits are in place: they and the terminator
    move down behind the sign. *)
Lemma itoa_finish buf bufsize n tmp res :
  zlen buf = bufsize → 0 < n → 0 ≤ res ≤ tmp → tmp + zlen (digits 10 n) = bufsize - 1 →
  let buf1 := zsplice tmp (digits 10 n) (zsplice (bufsize - 1) [0] buf) in
  (let* t := buf_read buf1 tmp 1 in
   if bool_decide (t = [0]) then let* b := buf_write buf1 res [48] in buf_write b (res + 1) [0]
   else let* d := buf_read buf1 tmp (bufsize - tmp) in buf_write buf1 res d) =
  Val (zsplice res (digits 10 n ++ [0]) (zsplice tmp (digits 10 n ++ [0]) buf)).
Proof.
  intros Hl Hn Hr Ht. set (ds := digits 10 n) in *. pose proof (zlen_nonneg ds). cbv zeta.
  replace (bufsize - 1) with (tmp + zlen ds) by lia.
  rewrite zsplice_app_back by (change (zlen [0]) with 1; lia).
  assert (zlen (ds ++ [0]) = zlen ds + 1) as Hd0 by (by rewrite zlen_app).
  set (buf1 := zsplice tmp (ds ++ [0]) buf).
  assert (zlen buf1 = bufsize) as Hl1 by (unfold buf1; rewrite zlen_zsplice; lia).
  assert (zslice tmp (bufsize - tmp) buf1 = ds ++ [0]) as Hd.
  { replace (bufsize - tmp) with (zlen (ds ++ [0])) by lia. apply zslice_zsplice; lia. }
  rewrite !buf_read_ok by lia. cbn [rbind].
  assert (zslice tmp 1 buf1 ≠ [0]) as Hne.
  { rewrite <- (ztake_zslice tmp (bufsize - tmp) 1), Hd by lia. pose proof (digits_range 10 n ltac:(lia)) as Hdg.
    fold ds in Hdg. destruct ds as [|c ds'] eqn:Eds; [exfalso; apply (decimal_nonempty 9 n); [lia|exact Eds]|].
    apply Forall_cons in Hdg as [Hc _]. unfold ztake. simpl. intros [= ->]. lia. }
  rewrite bool_decide_false, Hd by done. rewrite buf_write_ok by lia. done.
Qed.

Lemma digits_no_nul fuel n : 0 ≤ n → no_nul (digits fuel n).
Proof. intros Hn. eapply Forall_impl; [by apply digits_range|]. simpl. lia. Qed.

Lemma signed_decimal_eq n :
  n ≠ 0 → signed_decimal n = (if n <? 0 then [45] else []) ++ digits 10 (if 0 <=? n then n else - n).
Proof.
  intros Hn. unfold signed_decimal, decimal. destruct (Z.ltb_spec n 0).
  - rewrite (proj2 (Z.eqb_neq _ _)) by lia. by rewrite (proj2 (Z.leb_gt _ _)) by lia.
  - rewrite (proj2 (Z.eqb_neq _ _)) by lia. by rewrite (proj2 (Z.leb_le _ _)) by lia.
Qed.

Lemma signed_decimal_pos n : 1 ≤ zlen (signed_decimal n).
Proof.
  destruct (decide (n = 0)) as [->|Hn]; [done|]. rewrite signed_decimal_eq by done.
  set (m := if 0 <=? n then n else - n). assert (m ≠ 0) as Hm by (unfold m; case_match; lia).
  pose proof (decimal_nonempty 9 m Hm) as Hd. destruct (digits 10 m) as [|c d]; [done|].
  rewrite zlen_app, zlen_cons. pose proof (zlen_nonneg d). pose proof (zlen_nonneg (if n <? 0 then [45] else [])). lia.
Qed.

(** The branches of [lwip_itoa] that produce digits. *)
Lemma itoa_number result bufsize number :
  INT_MIN < number < 2 ^ 31 → number ≠ 0 → 2 ≤ bufsize → zlen result = bufsize →
  ∃ r, lwip_itoa result bufsize number = Val r ∧ zlen r = bufsize ∧
    c_string r (if zlen (signed_decimal number) <? bufsize then signed_decimal number else []).
Proof.
  intros Hn Hn0 Hb Hl. unfold lwip_itoa, INT_MIN in *. rewrite (proj2 (Z.eqb_neq _ _)) by lia.
  rewrite (proj2 (Z.ltb_ge bufsize 2)) by done. rewrite signed_decimal_eq by done.
  set (n := if 0 <=? number then number else - number).
  assert (0 < n < 10 ^ Z.of_nat 10) as Hn1 by (unfold n; case_match; bool_prop; lia).
  set (sign := if number <? 0 then [45] else []). set (res := zlen sign).
  assert (0 ≤ res ≤ 1) as Hres by (unfold res, sign; case_match; done).
  assert ((if number <? 0 then let* b := buf_write result 0 [45] in Val (b, 1) else Val (result, 0)) =
          Val (zsplice 0 sign result, res)) as ->.
  { unfold res, sign. case_match; [|by rewrite zsplice_nil]. rewrite buf_write_ok by (change (zlen [45]) with 1; lia). done. }
  cbn [rbind]. set (buf := zsplice 0 sign result).
  assert (zlen buf = bufsize) as Hlb by (unfold buf; rewrite zlen_zsplice; unfold res in *; lia).
  rewrite buf_write_ok by (change (zlen [0]) with 1; lia). cbn [rbind].
  assert (zlen (zsplice (bufsize - 1) [0] buf) = bufsize) as Hl0 by (rewrite zlen_zsplice; change (zlen [0]) with 1; lia).
  pose proof (itoa_loop_spec 10 n (zsplice (bufsize - 1) [0] buf) (bufsize - 1) res ltac:(lia) ltac:(lia) ltac:(lia)) as Hloop.
  cbv zeta in Hloop. set (ds := digits 10 n) in *. pose proof (zlen_nonneg ds). rewrite zlen_app. fold res.
  destruct (Z.leb_spec (zlen ds) (bufsize - 1 - res)) as [Hfit|Hfit].
  - rewrite Hloop. cbn [rbind Z.eqb negb].
    pose proof (itoa_finish buf bufsize n (bufsize - 1 - zlen ds) res Hlb ltac:(lia) ltac:(lia)) as Hf.
    fold ds in Hf. cbv zeta in Hf. rewrite Hf by lia. clear Hf. set (buf2 := zsplice _ _ buf).
    assert (zlen (ds ++ [0]) = zlen ds + 1) as Hd0 by (by rewrite zlen_app).
    assert (zlen buf2 = bufsize) as Hl2 by (unfold buf2; rewrite zlen_zsplice; lia).
    eexists. split; [done|]. split; [rewrite zlen_zsplice; lia|].
    rewrite (proj2 (Z.ltb_lt _ _)) by lia. split.
    { apply Forall_app. split; [unfold sign; case_match; by repeat constructor|apply digits_no_nul; lia]. }
    exists (zdrop (res + zlen (ds ++ [0])) buf2). unfold zsplice at 1.
    assert (ztake res buf2 = sign) as ->; [|by rewrite <- !app_assoc].
    unfold buf2, zsplice. rewrite ztake_app_le by (rewrite zlen_ztake; lia). rewrite ztake_ztake by lia.
    unfold buf, zsplice. rewrite ztake_0. simpl. unfold res. by rewrite ztake_app_exact.
  - destruct Hloop as (buf' & n' & tmp' & -> & Hn' & Hl'). cbn [rbind]. rewrite (proj2 (Z.eqb_neq _ _)) by done.
    cbn [negb]. rewrite buf_write_ok by (change (zlen [0]) with 1; lia). eexists. split; [done|].
    split; [rewrite zlen_zsplice; change (zlen [0]) with 1; lia|]. rewrite (proj2 (Z.ltb_ge _ _)) by lia.
    split; [constructor|]. unfold zsplice. rewrite ztake_0. by eexists.
Qed.

Lemma zget_read (buf : list Z) o v : 0 ≤ o → o + 1 ≤ zlen buf → buf_read (zsplice o [v] buf) o 1 = Val [v].
Proof.
  intros Ho Hl. rewrite buf_read_ok by (rewrite ?zlen_zsplice; change (zlen [v]) with 1; lia).
  f_equal. apply (zslice_zsplice o [v]); [done|exact Hl].
Qed.

Lemma itoa_zero result bufsize :
  2 ≤ bufsize → zlen result = bufsize →
  ∃ r, lwip_itoa result bufsize 0 = Val r ∧ zlen r = bufsize ∧
    c_string r (if zlen (signed_decimal 0) <? bufsize then signed_decimal 0 else []).
Proof.
  intros Hb Hl. change (signed_decimal 0) with [48]. change (zlen [48]) with 1. rewrite (proj2 (Z.ltb_lt _ _)) by lia.
  unfold lwip_itoa. rewrite (proj2 (Z.eqb_neq 0 INT_MIN)), (proj2 (Z.ltb_ge bufsize 2)) by done.
  cbn [Z.leb Z.ltb Z.compare rbind]. change (zlen [0]) with 1 in *. change (zlen [48]) with 1 in *.
  assert (∀ v : Z, zlen [v] = 1) as H1 by done.
  rewrite buf_write_ok by (rewrite ?H1; lia). cbn [rbind itoa_loop Z.eqb negb andb].
  rewrite zget_read by lia. cbn [rbind]. rewrite bool_decide_true by done.
  set (b := zsplice _ _ result). assert (zlen b = bufsize) by (unfold b; rewrite zlen_zsplice; rewrite ?H1; lia).
  rewrite buf_write_ok by (rewrite ?H1; lia). cbn [rbind].
  rewrite buf_write_ok by (rewrite ?zlen_zsplice; rewrite ?H1; lia). eexists. split; [done|].
  split; [rewrite !zlen_zsplice; rewrite ?zlen_zsplice; rewrite ?H1; lia|].
  split; [by repeat constructor|]. destruct b as [|x [|y b]].
  - change (zlen (@nil Z)) with 0 in *. lia.
  - rewrite H1 in *. lia.
  - exists b. done.
Qed.

(** [lwip_itoa] stores the decimal text of a number and a terminator when
    they fit in the buffer, and the empty string when they do not; nothing is
    written outside the buffer. *)
Theorem lwip_itoa_spec result bufsize number :
  INT_MIN < number < 2 ^ 31 → 1 ≤ bufsize → zlen result = bufsize →
  ∃ r, lwip_itoa result bufsize number = Val r ∧ zlen r = bufsize ∧
    c_string r (if zlen (signed_decimal number) <? bufsize then signed_decimal number else []).
Proof.
  intros Hn Hb Hl. destruct (decide (bufsize = 1)) as [->|].
  { pose proof (signed_decimal_pos number). rewrite (proj2 (Z.ltb_ge _ _)) by lia.
    unfold lwip_itoa, INT_MIN in *. rewrite (proj2 (Z.eqb_neq _ _)) by lia. exists (zsplice 0 [0] result).
    rewrite buf_write_ok by (change (zlen [0]) with 1; lia). split; [done|].
    split; [rewrite zlen_zsplice; change (zlen [0]) with 1; lia|]. split; [constructor|].
    apply zsplice_head. lia. }
  destruct (decide (number = 0)) as [->|]; [|by apply itoa_number; lia].
  by apply itoa_zero; [lia|].
Qed.

(** The search reads one character beyond the [n] it was given: a buffer of
    exactly [n] characters that is not terminated is overrun. *)
Lemma lwip_strnstr_overread : lwip_strnstr [97; 97] [98; 0] 2 = Err Undefined.
Proof. reflexivity. Qed.

(** A length of 0 does not mean "equal", as it does for [strncasecmp]: it wraps,
    and the whole strings are compared. *)
Lemma lwip_strnicmp_zero : lwip_strnicmp [97; 0] [98; 0] 0 = Val 1.
Proof. reflexivity. Qed.

(** ** Instances *)

(** "ab" and "AB", terminated *)
Lemma ex_ab : c_string [97; 98; 0] [97; 98].
Proof. split; [by repeat constructor|by exists []]. Qed.
Lemma ex_AB : c_string [65; 66; 0; 7] [65; 66].
Proof. split; [by repeat constructor|by exists [7]]. Qed.
Lemma ex_b : c_string [98; 0] [98].
Proof. split; [by repeat constructor|by exists []]. Qed.
Lemma ex_ab_u8 : Forall is_u8 [97; 98] ∧ Forall is_u8 [65; 66].
Proof. split; repeat (apply Forall_cons; split; [unfold is_u8; lia|]); constructor. Qed.

Lemma lwip_strnstr_spec_witness :
  ∃ r, lwip_strnstr [97; 98; 0] [98; 0] 2 = Val r ∧ r = Some 1.
Proof.
  destruct (lwip_strnstr_spec _ _ _ _ 2 ex_ab ex_b ltac:(lia)) as (r & Hr & _).
  exists r. split; [exact Hr|]. assert (lwip_strnstr [97; 98; 0] [98; 0] 2 = Val (Some 1)) as E by reflexivity. congruence.
Defined.

Lemma lwip_stricmp_spec_witness : lwip_stricmp [97; 98; 0] [65; 66; 0; 7] = Val 0.
Proof. exact (lwip_stricmp_spec _ _ _ _ ex_ab ex_AB (proj1 ex_ab_u8) (proj2 ex_ab_u8)). Defined.

Lemma lwip_strnicmp_spec_witness : lwip_strnicmp [97; 98; 0] [65; 66; 0; 7] 1 = Val 0.
Proof. exact (lwip_strnicmp_spec _ _ _ _ 1 ex_ab ex_AB (proj1 ex_ab_u8) (proj2 ex_ab_u8) (conj eq_refl eq_refl)). Defined.

Lemma lwip_itoa_spec_witness :
  ∃ r, lwip_itoa (replicate 6 0) 6 (-105) = Val r ∧ zlen r = 6 ∧ c_string r [45; 49; 48; 53].
Proof. apply (lwip_itoa_spec (replicate 6 0) 6 (-105)); [unfold INT_MIN; lia|lia|reflexivity]. Defined.
