(* ===== verification/Chksum.v ===== *)
(** * The Internet checksum ([core/inet_chksum.c])

    The machine is little-endian, and the checksum algorithm the configuration
    selects is number 2.  The reference is the sum of the data's 16-bit words in
    one's complement arithmetic (RFC 1071), the words read as the machine reads
    them. *)

From S2P Require Import Prelude Mbox Heap HeapFacts Pbuf Packet Def.

Implicit Types s : store.

(** ** The code *)

Definition SWAP_BYTES_IN_WORD (w : Z) : Z :=
  Z.lor (u32 (Z.shiftl (Z.land w 255) 8)) (Z.shiftr (Z.land w 65280) 8).
Definition FOLD_U32T (u : Z) : Z := u32 (Z.shiftr u 16 + Z.land u 65535).

(** "Add the bulk of the data": the sum of the 16-bit words, and what is left. *)
Fixpoint add_words (sum : Z) (d : list Z) : Z * list Z :=
  match d with
  | a :: b :: d => add_words (u32 (sum + (a + 256 * b))) d
  | d => (sum, d)
  end.

(** [odd]: the data starts at an odd address. *)
Definition lwip_standard_chksum (odd : bool) (d : list Z) : Z :=
  let '(t1, pb) := match d with
                   | b :: d' => if odd then (b, d') else (0, d)
                   | [] => (0, [])
                   end in
  let '(sum, rest) := add_words 0 pb in
  let t0 := match rest with b :: _ => b | [] => 0 end in
  let t := t0 + 256 * t1 in
  let sum := u32 (sum + t) in
  let sum := FOLD_U32T sum in
  let sum := FOLD_U32T sum in
  u16 (if odd then SWAP_BYTES_IN_WORD sum else sum).

(** [LWIP_CHKSUM(p, len)]; blocks are aligned, so an address is odd as its offset is. *)
Definition LWIP_CHKSUM (s : store) (p : option ptr) (o len : Z) : res Z :=
  let* d := mem_read s p o len in
  Val (lwip_standard_chksum (match p with Some a => Z.odd (off a + o) | None => false end) d).

Definition lwip_not16 (x : Z) : Z := u16 (Z.lnot x).

(** [inet_chksum] *)
Definition inet_chksum (s : store) (p : option ptr) (len : Z) : res Z :=
  let* c := LWIP_CHKSUM s p 0 len in Val (lwip_not16 c).

(** The loop over a chain that [inet_chksum_pbuf] and [inet_cksum_pseudo_base] share. *)
Fixpoint chksum_chain (fuel : nat) (s : store) (q : option loc) (acc : Z) (swapped : bool)
    : res (Z * bool) :=
  match q with
  | None => Val (acc, swapped)
  | Some l =>
    match fuel with
    | O => Err OutOfFuel
    | S fuel =>
      let* c := get_pbuf s l in
      let* x := LWIP_CHKSUM s (pb_payload c) 0 (pb_len c) in
      let acc := u32 (acc + x) in
      let acc := FOLD_U32T acc in
      if negb (pb_len c mod 2 =? 0)
      then chksum_chain fuel s (pb_next c) (SWAP_BYTES_IN_WORD acc) (negb swapped)
      else chksum_chain fuel s (pb_next c) acc swapped
    end
  end.

Definition inet_chksum_pbuf (s : store) (p : option loc) : res Z :=
  let* '(acc, swapped) := chksum_chain (chain_fuel s) s p 0 false in
  let acc := if swapped then SWAP_BYTES_IN_WORD acc else acc in
  Val (lwip_not16 (Z.land acc 65535)).

Definition inet_cksum_pseudo_base (s : store) (p : option loc) (proto proto_len acc : Z) : res Z :=
  let* '(acc, swapped) := chksum_chain (chain_fuel s) s p acc false in
  let acc := if swapped then SWAP_BYTES_IN_WORD acc else acc in
  let acc := u32 (acc + lwip_htons (u16 proto)) in
  let acc := u32 (acc + lwip_htons proto_len) in
  let acc := FOLD_U32T acc in
  let acc := FOLD_U32T acc in
  Val (lwip_not16 (Z.land acc 65535)).

(** The addresses' share of the pseudo header. *)
Definition pseudo_addrs (src dest : Z) : Z :=
  let acc := Z.land src 65535 in
  let acc := u32 (acc + Z.land (Z.shiftr src 16) 65535) in
  let acc := u32 (acc + Z.land dest 65535) in
  let acc := u32 (acc + Z.land (Z.shiftr dest 16) 65535) in
  FOLD_U32T (FOLD_U32T acc).

Definition inet_chksum_pseudo (s : store) (p : option loc) (proto proto_len src dest : Z) : res Z :=
  inet_cksum_pseudo_base s p proto proto_len (pseudo_addrs src dest).

Definition ip_chksum_pseudo (s : store) (p : option loc) (proto proto_len src dest : Z) : res Z :=
  inet_chksum_pseudo s p proto proto_len src dest.

(** The variant over the first [chksum_len] bytes. *)
Fixpoint chksum_chain_partial (fuel : nat) (s : store) (q : option loc) (chksum_len acc : Z) (swapped : bool)
    : res (Z * bool) :=
  match q with
  | None => Val (acc, swapped)
  | Some l =>
    if negb (0 <? chksum_len) then Val (acc, swapped) else
    match fuel with
    | O => Err OutOfFuel
    | S fuel =>
      let* c := get_pbuf s l in
      let chklen := if chksum_len <? pb_len c then chksum_len else pb_len c in
      let* x := LWIP_CHKSUM s (pb_payload c) 0 chklen in
      let acc := u32 (acc + x) in
      let chksum_len := u16 (chksum_len - chklen) in
      do* res_assert (chksum_len <? 32767);
      let acc := FOLD_U32T acc in
      if negb (pb_len c mod 2 =? 0)
      then chksum_chain_partial fuel s (pb_next c) chksum_len (SWAP_BYTES_IN_WORD acc) (negb swapped)
      else chksum_chain_partial fuel s (pb_next c) chksum_len acc swapped
    end
  end.

Definition inet_cksum_pseudo_partial_base (s : store) (p : option loc)
    (proto proto_len chksum_len acc : Z) : res Z :=
  let* '(acc, swapped) := chksum_chain_partial (chain_fuel s) s p chksum_len acc false in
  let acc := if swapped then SWAP_BYTES_IN_WORD acc else acc in
  let acc := u32 (acc + lwip_htons (u16 proto)) in
  let acc := u32 (acc + lwip_htons proto_len) in
  let acc := FOLD_U32T acc in
  let acc := FOLD_U32T acc in
  Val (lwip_not16 (Z.land acc 65535)).

Definition inet_chksum_pseudo_partial (s : store) (p : option loc)
    (proto proto_len chksum_len src dest : Z) : res Z :=
  inet_cksum_pseudo_partial_base s p proto proto_len chksum_len (pseudo_addrs src dest).

Definition ip_chksum_pseudo_partial (s : store) (p : option loc)
    (proto proto_len chksum_len src dest : Z) : res Z :=
  inet_chksum_pseudo_partial s p proto proto_len chksum_len src dest.

(** ** The reference *)

(** The sum of the 16-bit words, a last odd byte padded with zero. *)
Fixpoint word_sum (d : list Z) : Z :=
  match d with
  | a :: b :: d => (a + 256 * b) + word_sum d
  | [a] => a
  | [] => 0
  end.

(** The one's complement value of a sum: in [0 .. 65535], congruent to it modulo
    65535, and zero only if the sum is. *)
Definition ones (x : Z) : Z := if x =? 0 then 0 else (x - 1) mod 65535 + 1.

(** The data as one little-endian number. *)
Fixpoint le (d : list Z) : Z := match d with [] => 0 | b :: d => b + 256 * le d end.

(** ** Arithmetic modulo 65535 *)

Lemma swap_eq w : 0 ≤ w < 2 ^ 16 → SWAP_BYTES_IN_WORD w = 256 * (w mod 256) + w / 256.
Proof.
  intros Hw. unfold SWAP_BYTES_IN_WORD.
  change 255 with (Z.ones 8). change 65280 with (Z.shiftl (Z.ones 8) 8).
  rewrite land_low, land_field by done. rewrite Z.shiftl_mul_pow2, Z.shiftr_div_pow2 by done.
  rewrite Z.div_mul, u32_small by (bounds; wrap_lia). change (2 ^ 8) with 256. bounds.
  rewrite (Z.mod_small (w / 256)) by wrap_lia. rewrite (lor_add 8) by (change (2 ^ 8) with 256; wrap_lia).
  change (2 ^ 8) with 256. lia.
Qed.

Lemma fold_eq u : 0 ≤ u < 2 ^ 32 → FOLD_U32T u = u / 65536 + u mod 65536.
Proof.
  intros Hu. unfold FOLD_U32T. change 65535 with (Z.ones 16).
  rewrite land_low, Z.shiftr_div_pow2 by done. change (2 ^ 16) with 65536.
  apply u32_small. bounds. wrap_lia.
Qed.

Lemma ones_range x : 0 ≤ ones x ≤ 65535.
Proof. unfold ones. case_match; [lia|]. pose proof (Z.mod_pos_bound (x - 1) 65535). lia. Qed.

(** [ones] is the only value of its kind. *)
Lemma ones_unique x y :
  0 ≤ x → 0 ≤ y ≤ 65535 → (x = 0 ↔ y = 0) → y mod 65535 = x mod 65535 → y = ones x.
Proof.
  intros Hx Hy H0 Hm. unfold ones. case_match; bool_prop; [tauto|].
  assert (y ≠ 0) by tauto. Z.div_mod_to_equations. lia.
Qed.

Lemma ones_spec x : 0 ≤ x → (ones x = 0 ↔ x = 0) ∧ ones x mod 65535 = x mod 65535.
Proof.
  intros Hx. unfold ones. case_match; bool_prop; [by subst|].
  pose proof (Z.mod_pos_bound (x - 1) 65535 ltac:(lia)). split; [lia|].
  Z.div_mod_to_equations. lia.
Qed.

Lemma ones_small x : 0 ≤ x ≤ 65535 → ones x = x.
Proof. intros. symmetry. apply ones_unique; lia. Qed.

Lemma ones_cong x y :
  0 ≤ x → 0 ≤ y → (x = 0 ↔ y = 0) → x mod 65535 = y mod 65535 → ones x = ones y.
Proof.
  intros Hx Hy H0 Hm. apply ones_unique; [done|apply ones_range| |].
  - destruct (ones_spec x Hx) as [-> _]. tauto.
  - destruct (ones_spec x Hx) as [_ ->]. done.
Qed.

Lemma fold_ones u : 0 ≤ u < 2 ^ 32 → ones (FOLD_U32T u) = ones u.
Proof.
  intros Hu. rewrite fold_eq by done. bounds. apply ones_cong; [wrap_lia|lia| |].
  - wrap_lia.
  - rewrite (Z.div_mod u 65536) at 3 by lia. Z.div_mod_to_equations. lia.
Qed.

Lemma fold_small u : 0 ≤ u ≤ 131070 → FOLD_U32T u = ones u.
Proof.
  intros Hu. rewrite <- fold_ones by (bounds; lia). symmetry. apply ones_small.
  rewrite fold_eq by (bounds; lia). Z.div_mod_to_equations. lia.
Qed.

Lemma fold_fold u : 0 ≤ u < 2 ^ 32 → FOLD_U32T (FOLD_U32T u) = ones u.
Proof.
  intros Hu. rewrite fold_small; [by apply fold_ones|]. rewrite fold_eq by done.
  bounds. Z.div_mod_to_equations. lia.
Qed.

Lemma swap_ones x : 0 ≤ x → SWAP_BYTES_IN_WORD (ones x) = ones (256 * x).
Proof.
  intros Hx. pose proof (ones_range x). destruct (ones_spec x Hx) as [H0 Hm].
  rewrite swap_eq by (bounds; lia). apply ones_unique; [lia|Z.div_mod_to_equations; lia| |].
  - split; intros H'.
    + assert (x = 0) as Hx0 by lia. rewrite (proj2 H0 Hx0). done.
    + assert (ones x = 0) as Hy by (Z.div_mod_to_equations; lia). apply H0 in Hy. lia.
  - rewrite <- Z.mul_mod_idemp_r, <- Hm, Z.mul_mod_idemp_r by lia.
    Z.div_mod_to_equations. lia.
Qed.

Lemma ones_add_l x y : 0 ≤ x → 0 ≤ y → ones (ones x + y) = ones (x + y).
Proof.
  intros Hx Hy. pose proof (ones_range x). destruct (ones_spec x Hx) as [H0 Hm].
  apply ones_cong; [lia|lia|lia|]. rewrite <- Z.add_mod_idemp_l, Hm, Z.add_mod_idemp_l by lia. done.
Qed.

(** ** One buffer *)

Lemma le_nonneg d : Forall is_u8 d → 0 ≤ le d.
Proof.
  induction 1 as [|b d Hb _ IH]; [done|]. unfold is_u8 in Hb. cbn [le]. lia.
Qed.

(** Induction on lists two elements at a time. *)
Lemma list_two_ind {A} (P : list A → Prop) :
  P [] → (∀ a, P [a]) → (∀ a b d, P d → P (a :: b :: d)) → ∀ d, P d.
Proof.
  intros H0 H1 H2 d. assert (P d ∧ ∀ a, P (a :: d)) as [? _]; [|done].
  induction d as [|b d [IH1 IH2]]; [auto|]. split; [apply IH2|]. intros a. by apply H2.
Qed.

Lemma word_sum_range d : Forall is_u8 d → 0 ≤ word_sum d ≤ 65535 * ((zlen d + 1) / 2).
Proof.
  induction d as [|a|a b d IH] using list_two_ind; intros H; cbn [word_sum]; [done| |].
  - apply Forall_cons in H as [H _]. bounds. change (zlen [a]) with 1. change ((1 + 1) / 2) with 1.
    lia.
  - apply Forall_cons in H as [Ha [Hb Hd]%Forall_cons]. specialize (IH Hd). bounds.
    rewrite !zlen_cons. Z.div_mod_to_equations. lia.
Qed.

(** The words' sum and the number agree modulo 65535, 2^16 being 1 there. *)
Lemma word_sum_le d :
  Forall is_u8 d → word_sum d mod 65535 = le d mod 65535 ∧ (word_sum d = 0 ↔ le d = 0).
Proof.
  induction d as [|a|a b d IH] using list_two_ind; intros H; cbn [word_sum le]; [done| |].
  - split; [f_equal; lia|lia].
  - apply Forall_cons in H as [Ha [Hb Hd]%Forall_cons]. destruct (IH Hd) as [Hm H0].
    pose proof (le_nonneg d Hd). pose proof (word_sum_range d Hd). bounds. split.
    + replace (a + 256 * (b + 256 * le d)) with (a + 256 * b + le d + le d * 65535) by lia.
      rewrite Z_mod_plus_full. rewrite <- Z.add_mod_idemp_r, Hm, Z.add_mod_idemp_r by lia. done.
    + lia.
Qed.

Lemma ones_word_sum d : Forall is_u8 d → ones (word_sum d) = ones (le d).
Proof.
  intros H. destruct (word_sum_le d H). pose proof (le_nonneg d H). pose proof (word_sum_range d H).
  apply ones_cong; done || lia.
Qed.

Lemma add_words_spec d : ∀ sum,
  Forall is_u8 d → 0 ≤ sum → sum + 65535 * ((zlen d + 1) / 2) < 2 ^ 32 →
  ∃ r rest, add_words sum d = (r, rest) ∧ 0 ≤ r ∧ Forall is_u8 rest ∧
    r + match rest with b :: _ => b | [] => 0 end = sum + word_sum d.
Proof.
  induction d as [|a|a b d IH] using list_two_ind; intros sum H Hs Hb; cbn [word_sum add_words].
  - exists sum, []. split_and!; done || lia.
  - exists sum, [a]. split_and!; done || lia.
  - apply Forall_cons in H as [Ha [Hb' Hd]%Forall_cons]. pose proof (zlen_nonneg d).
    rewrite !zlen_cons in Hb. unfold is_u8 in *.
    assert (sum + (a + 256 * b) + 65535 * ((zlen d + 1) / 2) < 2 ^ 32) as Hlt
      by (bounds; Z.div_mod_to_equations; lia).
    assert (0 ≤ (zlen d + 1) / 2) by (Z.div_mod_to_equations; lia).
    rewrite u32_small by (bounds; lia).
    destruct (IH (sum + (a + 256 * b)) Hd ltac:(bounds; lia) Hlt) as (r & rest & -> & ? & ? & Hr).
    exists r, rest. split_and!; done || lia.
Qed.

Lemma chksum_odd_cong b d :
  Forall is_u8 (b :: d) → ones (256 * (word_sum d + 256 * b)) = ones (word_sum (b :: d)).
Proof.
  intros H. rewrite ones_word_sum by done. apply Forall_cons in H as [Hb Hd].
  destruct (word_sum_le d Hd) as [Hm H0]. pose proof (le_nonneg d Hd). pose proof (word_sum_range d Hd).
  unfold is_u8 in Hb. cbn [le]. apply ones_cong; [lia|lia|lia|].
  replace (256 * (word_sum d + 256 * b)) with (b + 256 * word_sum d + b * 65535) by lia.
  rewrite Z_mod_plus_full. rewrite <- Z.add_mod_idemp_r, <- Z.mul_mod_idemp_r, Hm by lia.
  by rewrite Z.mul_mod_idemp_r, Z.add_mod_idemp_r by lia.
Qed.

(** The routine on a buffer at any alignment. *)
Lemma standard_chksum_spec odd d :
  Forall is_u8 d → zlen d ≤ 131072 → lwip_standard_chksum odd d = ones (word_sum d).
Proof.
  intros Hd Hlen. unfold lwip_standard_chksum. pose proof (zlen_nonneg d).
  set (pb := match d with b :: d' => if odd then d' else d | [] => [] end).
  set (t1 := match d with b :: d' => if odd then b else 0 | [] => 0 end).
  replace (match d with b :: d' => if odd then (b, d') else (0, d) | [] => (0, []) end) with (t1, pb)
    by (unfold t1, pb; by destruct d, odd).
  assert (Forall is_u8 pb ∧ 0 ≤ t1 < 256 ∧ (pb = d ∧ t1 = 0 ∨ odd = true ∧ d = t1 :: pb)) as (Hpb & Ht1 & Hcase).
  { unfold pb, t1. destruct d as [|b d']; [split_and!; [done|lia|lia|by left]|].
    apply Forall_cons in Hd as H'. destruct H' as [Hb Hd']. unfold is_u8 in Hb. change (2 ^ 8) with 256 in Hb.
    destruct odd; split_and!; try done; try lia; [by right|by left]. }
  assert (zlen pb ≤ 131072 ∧ 65535 * ((zlen pb + 1) / 2) + 256 * t1 < 2 ^ 32) as [Hl1 Hl2].
  { bounds. destruct Hcase as [[-> ->]|[_ Hd']]; [Z.div_mod_to_equations; lia|].
    rewrite Hd', zlen_cons in Hlen. Z.div_mod_to_equations. lia. }
  destruct (add_words_spec pb 0 Hpb ltac:(lia) ltac:(lia)) as (r & rest & -> & Hr & Hrest & Hsum).
  set (t0 := match rest with b :: _ => b | [] => 0 end) in *.
  pose proof (word_sum_range pb Hpb) as Hw.
  replace (r + (t0 + 256 * t1)) with (word_sum pb + 256 * t1) by lia.
  assert (0 ≤ word_sum pb + 256 * t1 < 2 ^ 32) as Hall by lia.
  rewrite u32_small by done. rewrite fold_fold by done.
  set (x := word_sum pb + 256 * t1) in *. pose proof (ones_range x).
  destruct Hcase as [[Hpd Ht]|[-> Hdd]].
  - assert (x = word_sum d) as Hx by (unfold x; rewrite Hpd, Ht; lia).
    destruct odd; [|rewrite Hx in *; apply u16_small; bounds; lia].
    destruct d as [|b d']; [done|]. exfalso. subst pb. apply (f_equal length) in Hpd. simpl in Hpd. lia.
  - rewrite swap_ones by lia. pose proof (ones_range (256 * x)). rewrite u16_small by (bounds; lia).
    unfold x. rewrite Hdd. apply chksum_odd_cong. by rewrite <- Hdd.
Qed.

(** ** A chain of buffers *)

(** [x ≈ y]: the same one's complement value. *)
Definition ceq (x y : Z) : Prop :=
  0 ≤ x ∧ 0 ≤ y ∧ (x = 0 ↔ y = 0) ∧ x mod 65535 = y mod 65535.

Lemma ceq_refl x : 0 ≤ x → ceq x x.
Proof. intros. by split_and!. Qed.
Lemma ceq_sym x y : ceq x y → ceq y x.
Proof. intros (? & ? & ? & ?). split_and!; tauto || done. Qed.
Lemma ceq_trans x y z : ceq x y → ceq y z → ceq x z.
Proof. intros (? & ? & ? & ?) (? & ? & ? & ?). split_and!; tauto || lia. Qed.
Lemma ceq_add x x' y y' : ceq x x' → ceq y y' → ceq (x + y) (x' + y').
Proof.
  intros (? & ? & ? & Hx) (? & ? & ? & Hy). split_and!; [lia|lia|lia|].
  rewrite Z.add_mod, Hx, Hy, <- Z.add_mod by lia. done.
Qed.
Lemma ceq_mul k x x' : 0 < k → ceq x x' → ceq (k * x) (k * x').
Proof.
  intros Hk (? & ? & ? & Hx). split_and!; [lia|lia|nia|].
  rewrite Z.mul_mod, Hx, <- Z.mul_mod by lia. done.
Qed.
Lemma ceq_carry k x y : 0 ≤ x → 0 ≤ y → 0 ≤ k → (x = 0 ↔ y = 0) → x = y + k * 65535 → ceq x y.
Proof. intros ? ? ? ? ->. split_and!; [lia|done|done|]. apply Z_mod_plus_full. Qed.
Lemma ceq_ones x y : ceq x y → ones x = ones y.
Proof. intros (? & ? & ? & ?). by apply ones_cong. Qed.
Lemma ones_ceq x : 0 ≤ x → ceq (ones x) x.
Proof.
  intros H. destruct (ones_spec x H) as [? ?]. pose proof (ones_range x). split_and!; done || lia.
Qed.

(** What the byte position weighs: 256 at an odd one, 1 at an even one. *)
Definition weight (odd : bool) : Z := if odd then 256 else 1.

Lemma weight_pos b : 0 < weight b.
Proof. by destruct b. Qed.
Lemma weight_xorb a b x : 0 ≤ x → ceq (weight a * (weight b * x)) (weight (xorb a b) * x).
Proof.
  intros Hx. destruct a, b; cbn [weight xorb];
    [apply (ceq_carry x); lia|rewrite Z.mul_1_l; apply ceq_refl; lia..].
Qed.

Lemma le_app d r :
  Forall is_u8 d → Forall is_u8 r → ceq (le (d ++ r)) (le d + weight (Z.odd (zlen d)) * le r).
Proof.
  intros Hd Hr. pose proof (le_nonneg r Hr). induction Hd as [|b d Hb Hd IH]; [simpl le at 1 2; rewrite Z.add_0_l; change (weight _) with 1; rewrite Z.mul_1_l; by apply ceq_refl|].
  pose proof (le_nonneg d Hd). unfold is_u8 in Hb. cbn [app le]. rewrite zlen_cons.
  eapply ceq_trans; [apply (ceq_add b b); [apply ceq_refl; lia|apply (ceq_mul 256); [lia|exact IH]]|].
  rewrite Z.mul_add_distr_l, Z.add_assoc. apply ceq_add; [apply ceq_refl; lia|].
  eapply ceq_trans; [apply (weight_xorb true (Z.odd (zlen d))); done|].
  rewrite Z.odd_add. change (Z.odd 1) with true. apply ceq_refl. pose proof (weight_pos (xorb true (Z.odd (zlen d)))). lia.
Qed.

Lemma chksum_chain_spec s cs : ∀ fuel q acc sw p,
  lseg s q cs None → Forall is_u8 (bytes cs) → total cs < 2 ^ 16 → (length cs < fuel)%nat →
  0 ≤ p → acc = ones (weight sw * p) →
  let sw' := xorb sw (Z.odd (total cs)) in
  chksum_chain fuel s q acc sw = Val (ones (weight sw' * (p + weight sw * le (bytes cs))), sw').
Proof.
  induction cs as [|c cs IH]; intros fuel q acc sw p Hs Hu Hz Hfuel Hp ->.
  { simpl in Hs. subst q. destruct fuel; simpl; rewrite Z.mul_0_r, Z.add_0_r, xorb_false_r; done. }
  destruct fuel as [|fuel]; [simpl in *; lia|]. destruct Hs as (-> & Hl & [Hlen Hrd] & Hs).
  rewrite bytes_cons, Forall_app in Hu. destruct Hu as [Hd Hu]. rewrite total_cons in *.
  set (d := c_data c) in *. pose proof (zlen_nonneg d). pose proof (total_nonneg cs). simpl in Hfuel.
  pose proof (le_nonneg d Hd) as Hled. pose proof (le_nonneg _ Hu) as Hler. pose proof (weight_pos sw) as Hw.
  simpl chksum_chain. unfold get_pbuf. rewrite Hl. cbn [deref rbind]. unfold LWIP_CHKSUM. rewrite Hrd. cbn [rbind].
  rewrite standard_chksum_spec by (done || (bounds; lia)). rewrite ones_word_sum by done. rewrite <- Hlen.
  pose proof (ones_range (weight sw * p)). pose proof (ones_range (le d)).
  rewrite u32_small, fold_small by (bounds; lia).
  assert (ones (ones (weight sw * p) + ones (le d)) = ones (weight sw * (p + weight sw * le d))) as ->.
  { apply ceq_ones. rewrite Z.mul_add_distr_l.
    apply ceq_add; [apply ones_ceq; lia|]. eapply ceq_trans; [by apply ones_ceq|].
    apply ceq_sym. eapply ceq_trans; [by apply weight_xorb|]. rewrite xorb_nilpotent.
    change (weight false) with 1. rewrite Z.mul_1_l. by apply ceq_refl. }
  set (p1 := p + weight sw * le d). assert (0 ≤ p1) by (unfold p1; nia).
  assert (negb (zlen d mod 2 =? 0) = Z.odd (zlen d)) as Hodd.
  { rewrite Zmod_odd. by destruct (Z.odd (zlen d)). }
  rewrite Hodd, bytes_cons. fold d.
  assert (∀ sw1, sw1 = xorb sw (Z.odd (zlen d)) →
    chksum_chain fuel s (pb_next (c_pbuf c)) (ones (weight sw1 * p1)) sw1 =
    Val (ones (weight (xorb sw (Z.odd (zlen d + total cs))) * (p + weight sw * le (d ++ bytes cs))),
         xorb sw (Z.odd (zlen d + total cs)))) as Hgo.
  { intros sw1 ->. rewrite (IH _ _ _ _ p1) by (done || lia).
    rewrite Z.odd_add, xorb_assoc. do 2 f_equal. apply ceq_ones, ceq_mul; [apply weight_pos|].
    unfold p1. rewrite <- Z.add_assoc. apply ceq_add; [by apply ceq_refl|].
    apply ceq_sym. eapply ceq_trans; [apply ceq_mul, le_app; done|].
    rewrite Z.mul_add_distr_l. apply ceq_add; [apply ceq_refl; lia|by apply weight_xorb]. }
  destruct (Z.odd (zlen d)) eqn:Eo.
  - rewrite swap_ones by nia.
    assert (ones (256 * (weight sw * p1)) = ones (weight (negb sw) * p1)) as ->;
      [apply ceq_ones, (weight_xorb true sw); done|apply Hgo; by destruct sw].
  - apply Hgo. by destruct sw.
Qed.

Lemma not16_eq x : 0 ≤ x ≤ 65535 → lwip_not16 (Z.land x 65535) = 65535 - x.
Proof.
  intros Hx. change 65535 with (Z.ones 16) at 1. rewrite land_low by done. change (2 ^ 16) with 65536.
  rewrite Z.mod_small by lia. unfold lwip_not16, u16, Z.lnot. bounds. Z.div_mod_to_equations. lia.
Qed.

Lemma not16_ones x : lwip_not16 (ones x) = 65535 - ones x.
Proof.
  pose proof (ones_range x) as Hr. rewrite <- (not16_eq _ Hr). f_equal.
  change 65535 with (Z.ones 16). rewrite land_low by done. symmetry. apply Z.mod_small. bounds. lia.
Qed.

(** The end of the walk: the swaps are undone. *)
Lemma chain_unswap (sw : bool) x : 0 ≤ x →
  (if sw then SWAP_BYTES_IN_WORD (ones (weight sw * x)) else ones (weight sw * x)) = ones x.
Proof.
  intros Hx. destruct sw; [|by rewrite Z.mul_1_l]. rewrite swap_ones by (simpl; lia).
  apply ceq_ones. eapply ceq_trans; [by apply (weight_xorb true true)|]. rewrite Z.mul_1_l. by apply ceq_refl.
Qed.

Lemma inet_chksum_pbuf_eq s p cs :
  packet s p cs → Forall is_u8 (bytes cs) →
  inet_chksum_pbuf s p = Val (65535 - ones (word_sum (bytes cs))).
Proof.
  intros Hpk Hu. pose proof (packet_seg _ _ _ Hpk) as Hs. unfold inet_chksum_pbuf.
  pose proof (packet_size _ _ _ Hpk). pose proof (lseg_fuel _ _ _ Hs).
  rewrite (chksum_chain_spec s cs _ _ _ false 0) by done.
  cbn [rbind]. rewrite Z.add_0_l, Z.mul_1_l, xorb_false_l.
  pose proof (le_nonneg _ Hu). rewrite chain_unswap by done.
  rewrite not16_eq by apply ones_range. by rewrite ones_word_sum.
Qed.

(** C34: [inet_chksum_pbuf] is the Internet checksum of the packet's bytes: the
    16-bit complement of the one's complement sum of the words, however the
    bytes are divided into pbufs and at whatever addresses, odd lengths and odd
    addresses included. *)
Theorem inet_chksum_pbuf_spec s p cs :
  packet s p cs → Forall is_u8 (bytes cs) →
  inet_chksum_pbuf s p = Val (65535 - ones (word_sum (bytes cs))).
Proof. apply inet_chksum_pbuf_eq. Qed.

(** The pseudo header of UDP and TCP over IPv4, addresses in memory order. *)
Definition pseudo_header (src dest proto len : Z) : list Z :=
  addr_bytes src ++ addr_bytes dest ++ [0; proto; len / 256; len mod 256].

Lemma addr_words a : 0 ≤ a < 2 ^ 32 →
  Z.land a 65535 + Z.land (Z.shiftr a 16) 65535 = word_sum (addr_bytes a).
Proof.
  intros Ha. change 65535 with (Z.ones 16). rewrite !land_low, Z.shiftr_div_pow2 by done.
  cbn [word_sum addr_bytes]. bounds. Z.div_mod_to_equations. lia.
Qed.

Lemma addr_word_range a : 0 ≤ a < 2 ^ 32 → 0 ≤ word_sum (addr_bytes a) ≤ 131070.
Proof. intros Ha. cbn [word_sum addr_bytes]. bounds. Z.div_mod_to_equations. lia. Qed.

Lemma pseudo_addrs_eq src dest :
  0 ≤ src < 2 ^ 32 → 0 ≤ dest < 2 ^ 32 →
  pseudo_addrs src dest = ones (word_sum (addr_bytes src) + word_sum (addr_bytes dest)).
Proof.
  intros Hs Hd. unfold pseudo_addrs.
  assert (∀ x, 0 ≤ Z.land x 65535 ≤ 65535) as Hl.
  { intros x. change 65535 with (Z.ones 16). rewrite land_low by done. bounds.
    pose proof (Z.mod_pos_bound x 65536 ltac:(lia)). change (Z.ones 16) with 65535. lia. }
  pose proof (Hl src). pose proof (Hl (Z.shiftr src 16)). pose proof (Hl dest). pose proof (Hl (Z.shiftr dest 16)).
  rewrite !u32_small by (rewrite ?u32_small; bounds; rewrite ?u32_small; bounds; lia).
  rewrite fold_fold by (bounds; lia). rewrite <- !addr_words by done. f_equal. lia.
Qed.

Lemma word_pair a x y : word_sum (x :: y :: a) = x + 256 * y + word_sum a.
Proof. done. Qed.

Lemma pseudo_header_sum src dest proto len d :
  0 ≤ src < 2 ^ 32 → 0 ≤ dest < 2 ^ 32 → is_u8 proto → is_u16 len →
  word_sum (pseudo_header src dest proto len ++ d) =
  word_sum (addr_bytes src) + word_sum (addr_bytes dest) +
  (lwip_htons (u16 proto) + lwip_htons len) + word_sum d.
Proof.
  intros Hs Hd Hp Hl. unfold is_u8, is_u16 in *. rewrite u16_small by (bounds; lia).
  rewrite !htons_eq by (bounds; lia). unfold pseudo_header, addr_bytes.
  cbn [app word_sum]. bounds. rewrite (Z.mod_small proto), (Z.div_small proto) by lia. lia.
Qed.

Lemma inet_chksum_pseudo_eq s p cs proto len src dest :
  packet s p cs → Forall is_u8 (bytes cs) →
  0 ≤ src < 2 ^ 32 → 0 ≤ dest < 2 ^ 32 → is_u8 proto → is_u16 len →
  inet_chksum_pseudo s p proto len src dest =
  Val (65535 - ones (word_sum (pseudo_header src dest proto len ++ bytes cs))).
Proof.
  intros Hpk Hu Hs Hd Hp Hl. pose proof (packet_seg _ _ _ Hpk) as Hsg.
  unfold inet_chksum_pseudo, inet_cksum_pseudo_base. rewrite pseudo_addrs_eq by done.
  pose proof (packet_size _ _ _ Hpk). pose proof (lseg_fuel _ _ _ Hsg).
  pose proof (addr_word_range _ Hs). pose proof (addr_word_range _ Hd). pose proof (le_nonneg _ Hu).
  rewrite (chksum_chain_spec s cs _ _ _ false (word_sum (addr_bytes src) + word_sum (addr_bytes dest)))
    by (done || lia || (f_equal; cbn [weight]; lia)).
  cbn [rbind]. rewrite Z.mul_1_l, xorb_false_l. rewrite chain_unswap by lia.
  rewrite pseudo_header_sum by done. pose proof (word_sum_range _ Hu) as Hw. pose proof (zlen_nonneg (bytes cs)).
  set (A := word_sum (addr_bytes src) + word_sum (addr_bytes dest)) in *.
  assert (0 ≤ lwip_htons (u16 proto) ≤ 65535 ∧ 0 ≤ lwip_htons len ≤ 65535) as [Hb1 Hb2].
  { unfold lwip_htons, u16. bounds. split; Z.div_mod_to_equations; lia. }
  set (b1 := lwip_htons (u16 proto)) in *. set (b2 := lwip_htons len) in *.
  pose proof (ones_range (A + le (bytes cs))).
  rewrite (u32_small (_ + b1)) by (bounds; lia). rewrite u32_small by (bounds; lia).
  rewrite fold_fold by (bounds; lia). rewrite not16_eq by apply ones_range.
  do 2 f_equal. apply ceq_ones. rewrite <- Z.add_assoc.
  eapply ceq_trans; [apply ceq_add; [apply ones_ceq; lia|apply ceq_refl; lia]|].
  rewrite <- !Z.add_assoc. destruct (word_sum_le _ Hu) as [? ?].
  rewrite !Z.add_assoc. replace (A + le (bytes cs) + b1 + b2) with (A + b1 + b2 + le (bytes cs)) by lia.
  apply ceq_add; [apply ceq_refl; lia|]. split_and!; try lia. 
Qed.

(** C35: the checksum of a UDP datagram or TCP segment is the complement of the
    one's complement sum of the pseudo header (addresses, protocol, length)
    followed by the packet's bytes. *)
Theorem inet_chksum_pseudo_spec s p cs proto len src dest :
  packet s p cs → Forall is_u8 (bytes cs) →
  0 ≤ src < 2 ^ 32 → 0 ≤ dest < 2 ^ 32 → is_u8 proto → is_u16 len →
  inet_chksum_pseudo s p proto len src dest =
  Val (65535 - ones (word_sum (pseudo_header src dest proto len ++ bytes cs))).
Proof. apply inet_chksum_pseudo_eq. Qed.

(** ** Storing a checksum *)

Lemma word_sum_app d e : Z.even (zlen d) = true → word_sum (d ++ e) = word_sum d + word_sum e.
Proof.
  induction d as [|a|a b d IH] using list_two_ind; intros He; cbn [word_sum app]; [done|done|].
  rewrite IH; [lia|]. rewrite !zlen_cons in He. replace (1 + (1 + zlen d)) with (zlen d + 2) in He by lia.
  by rewrite Z.even_add_even in He by (by exists 1).
Qed.

(** What a field of two bytes contributes. *)
Lemma word_sum_splice o c d :
  Z.even o = true → 0 ≤ o → o + 2 ≤ zlen d → zslice o 2 d = [0; 0] →
  word_sum (zsplice o [c mod 256; c / 256] d) = word_sum d + c.
Proof.
  intros He Ho Hl Hz. unfold zsplice. change (zlen [_; _]) with 2.
  rewrite <- (ztake_zdrop o d) at 3. rewrite <- (ztake_zdrop 2 (zdrop o d)).
  change (ztake 2 (zdrop o d)) with (zslice o 2 d). rewrite Hz, zdrop_zdrop by lia.
  rewrite !word_sum_app by (rewrite ?zlen_ztake by lia; done). cbn [word_sum].
  rewrite (Z.add_comm 2 o). pose proof (Z.div_mod c 256 ltac:(lia)). lia.
Qed.

Lemma inet_chksum_bytes s p n d :
  mem_read s p 0 n = Val d → Forall is_u8 d → zlen d ≤ 131072 →
  inet_chksum s p n = Val (65535 - ones (word_sum d)).
Proof.
  intros Hrd Hu Hl. unfold inet_chksum, LWIP_CHKSUM. rewrite Hrd. cbn [rbind].
  rewrite standard_chksum_spec by done. by rewrite not16_ones.
Qed.

(** The checksum a sender stores satisfies the receiver.  When the checksum
    of [n] bytes, taken while an aligned two-byte field of them is zero, is
    written into that field, [inet_chksum] over the same bytes returns 0. *)
Theorem inet_chksum_verifies s p n o d :
  mem_read s p 0 n = Val d → zlen d = n → n ≤ 65535 → Forall is_u8 d →
  Z.even o = true → 0 ≤ o → o + 2 ≤ n → zslice o 2 d = [0; 0] →
  ∃ c s', inet_chksum s p n = Val c ∧ mem_write p o [c mod 256; c / 256] s = Val (tt, s') ∧
    inet_chksum s' p n = Val 0.
Proof.
  intros Hrd Hd Hn Hu He Ho Hon Hz. pose proof (word_sum_range d Hu) as Hw. pose proof (ones_range (word_sum d)).
  set (c := 65535 - ones (word_sum d)).
  destruct (runs_inv _ _ _ (mem_write_read s p n d o [c mod 256; c / 256] Hrd Hd Ho Hon ltac:(done)))
    as ([] & s' & Hwr & Hrd' & _).
  exists c, s'. split_and!; [apply inet_chksum_bytes; done || lia|done|].
  rewrite (inet_chksum_bytes _ _ _ _ Hrd').
  - rewrite word_sum_splice by (done || lia). f_equal.
    assert (ones (word_sum d + c) = 65535) as ->; [|done].
    destruct (ones_spec (word_sum d)) as [? ?]; [lia|]. symmetry. apply ones_unique; [lia|lia|lia|].
    unfold c. Z.div_mod_to_equations. lia.
  - unfold zsplice. apply Forall_app_2; [|apply Forall_app_2].
    + by apply Forall_take.
    + repeat constructor; unfold is_u8, c; bounds; Z.div_mod_to_equations; lia.
    + by apply Forall_drop.
  - rewrite zlen_zsplice; [lia|done|]. change (zlen [_; _]) with 2. lia.
Qed.

(** ** Instances *)

Ltac u8_list := cbv [bytes concat map app ex_cell1 ex_cell2 c_data fmap list_fmap mjoin list_join];
  repeat (apply Forall_cons_2; [unfold is_u8; lia|]); apply Forall_nil_2.

Lemma inet_chksum_pbuf_spec_witness :
  inet_chksum_pbuf ex_store (Some 1%positive) = Val 63990.
Proof.
  rewrite (inet_chksum_pbuf_spec _ _ _ ex_packet); [by vm_compute|].
  u8_list.
Defined.

(** A UDP datagram of five bytes from 1.0.0.127 to 2.0.0.127. *)
Lemma inet_chksum_pseudo_spec_witness :
  inet_chksum_pseudo ex_store (Some 1%positive) 17 5 16777343 33554559 = Val 57336.
Proof.
  rewrite (inet_chksum_pseudo_spec _ _ _ 17 5 16777343 33554559 ex_packet); [by vm_compute|..];
    try (unfold is_u8, is_u16; lia). u8_list.
Defined.

Definition ex_header : store :=
  mk_store ∅ {[1%positive := [69; 0; 0; 0; 1; 2; 255]]} 2 [] ∅ sys_mbox_new false.
Lemma inet_chksum_verifies_witness :
  ∃ c s', inet_chksum ex_header (Some (mk_ptr 1 0)) 7 = Val c ∧
    mem_write (Some (mk_ptr 1 0)) 2 [c mod 256; c / 256] ex_header = Val (tt, s') ∧
    inet_chksum s' (Some (mk_ptr 1 0)) 7 = Val 0.
Proof.
  apply (inet_chksum_verifies ex_header (Some (mk_ptr 1 0)) 7 2 [69; 0; 0; 0; 1; 2; 255]); try done || lia.
  u8_list.
Defined.
