(* ===== verification/Addr.v ===== *)
(** * IPv4 addresses and their text form ([core/ipv4/ip4_addr.c])

    An address is the 32-bit word in network order as the little-endian machine
    holds it: its lowest byte is the first of the dotted quad. *)

From S2P Require Import Prelude Def.

Definition IPADDR_ANY : Z := 0.
Definition IPADDR_BROADCAST : Z := 4294967295.
Definition IPADDR_NONE : Z := 4294967295.
Definition IP4ADDR_STRLEN_MAX : Z := 16.

Definition ip4_addr_netcmp (addr1 addr2 mask : Z) : bool := Z.land addr1 mask =? Z.land addr2 mask.
Definition ip4_addr_isany (addr : Z) : bool := addr =? IPADDR_ANY.
Definition ip4_addr_ismulticast (addr : Z) : bool :=
  Z.land addr (lwip_htonl 4026531840) =? lwip_htonl 3758096384.

(** [~x] on 32 bits *)
Definition not32 (x : Z) : Z := u32 (Z.lnot x).

Definition NETIF_FLAG_UP : Z := 1.
Definition NETIF_FLAG_BROADCAST : Z := 2.
Definition NETIF_FLAG_LINK_UP : Z := 4.

(** [struct netif], the fields of this configuration the stack reads
    ([include/lwip/netif.h]). *)
Record netif := mk_netif {
  ni_ip_addr : Z;
  ni_netmask : Z;
  ni_gw : Z;
  ni_mtu : Z;
  ni_flags : Z;
  ni_num : Z
}.
#[export] Instance eta_netif : Eta netif := λ r,
  mk_netif (ni_ip_addr r) (ni_netmask r) (ni_gw r) (ni_mtu r) (ni_flags r) (ni_num r).

Definition ip4_addr_isbroadcast_u32 (addr : Z) (n : netif) : bool :=
  if (not32 addr =? IPADDR_ANY) || (addr =? IPADDR_ANY) then true
  else if Z.land (ni_flags n) NETIF_FLAG_BROADCAST =? 0 then false
  else if addr =? ni_ip_addr n then false
  else ip4_addr_netcmp addr (ni_ip_addr n) (ni_netmask n)
       && (Z.land addr (not32 (ni_netmask n)) =? Z.land IPADDR_BROADCAST (not32 (ni_netmask n))).

(** The two loops of [ip4_addr_netmask_valid]; [mask] runs through the bits from
    the highest, [fuel] bits are left. *)
Fixpoint first_zero (fuel : nat) (nm mask : Z) : Z :=
  match fuel with
  | O => mask
  | S fuel => if negb (mask =? 0)
              then if Z.land nm mask =? 0 then mask else first_zero fuel nm (Z.shiftr mask 1)
              else mask
  end.
Fixpoint no_more_ones (fuel : nat) (nm mask : Z) : bool :=
  match fuel with
  | O => true
  | S fuel => if negb (mask =? 0)
              then if negb (Z.land nm mask =? 0) then false else no_more_ones fuel nm (Z.shiftr mask 1)
              else true
  end.
Definition ip4_addr_netmask_valid (netmask : Z) : bool :=
  let nm_hostorder := lwip_htonl netmask in
  no_more_ones 33 nm_hostorder (first_zero 33 nm_hostorder (2 ^ 31)).

(** ** Reading text *)

(** The inner loop: [cp] is the text from the character [c] on. *)
Fixpoint aton_number (base val : Z) (cp : list Z) : res (Z * list Z) :=
  match cp with
  | [] => Err Undefined
  | c :: cp' =>
    if lwip_isdigit c then aton_number base (u32 (val * base + u32 (c - 48))) cp'
    else if (base =? 16) && lwip_isxdigit c
    then aton_number base (Z.lor (u32 (Z.shiftl val 4)) (u32 (c + 10 - (if lwip_islower c then 97 else 65)))) cp'
    else Val (val, cp)
  end.

(** One round of the outer loop: the base, then the number. *)
Definition aton_part (cp : list Z) : res (option (Z * list Z)) :=
  let* '(c, cp') := next_char cp in
  if negb (lwip_isdigit c) then Val None else
  let* '(base, cp) :=
    if c =? 48 then
      let* '(c, cp'') := next_char cp' in
      if (c =? 120) || (c =? 88) then Val (16, cp'') else Val (8, cp')
    else Val (10, cp) in
  let* r := aton_number base 0 cp in Val (Some r).

(** The outer loop; [parts] are the numbers stored so far ([pp - parts] of
    them), so four rounds are the most there can be. *)
Fixpoint aton_loop (fuel : nat) (cp : list Z) (parts : list Z) : res (option (Z * list Z * list Z)) :=
  match fuel with
  | O => Err OutOfFuel
  | S fuel =>
    let* r := aton_part cp in
    match r with
    | None => Val None
    | Some (val, cp) =>
      let* '(c, cp') := next_char cp in
      if c =? 46 then
        if 3 <=? zlen parts then Val None else aton_loop fuel cp' (parts ++ [val])
      else Val (Some (val, parts, cp))
    end
  end.

(** "Concoct the address according to the number of parts specified." *)
Definition aton_concoct (val : Z) (parts : list Z) : res (option Z) :=
  match parts with
  | [] => Val (Some val)
  | [a] =>
    if 16777215 <? val then Val None else if 255 <? a then Val None
    else Val (Some (Z.lor val (u32 (Z.shiftl a 24))))
  | [a; b] =>
    if 65535 <? val then Val None else if (255 <? a) || (255 <? b) then Val None
    else Val (Some (Z.lor val (Z.lor (u32 (Z.shiftl a 24)) (u32 (Z.shiftl b 16)))))
  | [a; b; c] =>
    if 255 <? val then Val None else if (255 <? a) || (255 <? b) || (255 <? c) then Val None
    else Val (Some (Z.lor val (Z.lor (Z.lor (u32 (Z.shiftl a 24)) (u32 (Z.shiftl b 16))) (u32 (Z.shiftl c 8)))))
  | _ => Err AssertFailed
  end.

(** [Some addr] stands for the result 1 and the address stored. *)
Definition ip4addr_aton (cp : list Z) : res (option Z) :=
  let* r := aton_loop 4 cp [] in
  match r with
  | None => Val None
  | Some (val, parts, cp) =>
    let* '(c, cp') := next_char cp in
    if negb (c =? 0) && negb (lwip_isspace c) then Val None
    else
      let* a := aton_concoct val parts in
      Val (option_map lwip_htonl a)
  end.

Definition ipaddr_addr (cp : list Z) : res Z :=
  let* a := ip4addr_aton cp in
  Val (match a with Some a => a | None => IPADDR_NONE end).

(** ** Writing text *)

(** [do … while]: the decimal digits of a byte, the lowest first, into [inv];
    [fuel] is the room left in [inv[3]]. *)
Fixpoint ntoa_digits (fuel : nat) (ap : Z) (inv : list Z) : res (list Z) :=
  match fuel with
  | O => Err Undefined
  | S fuel =>
    let rem := ap mod 10 in
    let ap := ap / 10 in
    let inv := inv ++ [48 + rem] in
    if negb (ap =? 0) then ntoa_digits fuel ap inv else Val inv
  end.

(** [rp - buf], [len] and the buffer. *)
Definition ntoa_state : Type := Z * Z * list Z.

(** [if (len++ >= buflen) return NULL; *rp++ = c]; [inl]: returned. *)
Definition ntoa_put (buflen c : Z) (st : ntoa_state) : res (list Z + ntoa_state) :=
  let '(rp, len, buf) := st in
  if buflen <=? len then Val (inl buf)
  else let* buf := buf_write buf rp [c] in Val (inr (rp + 1, len + 1, buf)).

Fixpoint ntoa_puts (buflen : Z) (cs : list Z) (st : ntoa_state) : res (list Z + ntoa_state) :=
  match cs with
  | [] => Val (inr st)
  | c :: cs =>
    let* r := ntoa_put buflen c st in
    match r with
    | inl buf => Val (inl buf)
    | inr st => ntoa_puts buflen cs st
    end
  end.

(** The loop over the bytes of [s_addr]. *)
Fixpoint ntoa_loop (aps : list Z) (buflen : Z) (st : ntoa_state) : res (list Z + ntoa_state) :=
  match aps with
  | [] => Val (inr st)
  | ap :: aps =>
    let* inv := ntoa_digits 3 ap [] in
    let* r := ntoa_puts buflen (rev inv) st in
    match r with
    | inl buf => Val (inl buf)
    | inr st =>
      let* r := ntoa_put buflen 46 st in
      match r with
      | inl buf => Val (inl buf)
      | inr st => ntoa_loop aps buflen st
      end
    end
  end.

(** The result is whether [buf] (not null) is returned, and the buffer. *)
Definition ip4addr_ntoa_r (addr : Z) (buf : list Z) (buflen : Z) : res (bool * list Z) :=
  let* r := ntoa_loop (addr_bytes addr) buflen (0, 0, buf) in
  match r with
  | inl buf => Val (false, buf)
  | inr (rp, _, buf) => let* buf := buf_write buf (rp - 1) [0] in Val (true, buf)
  end.

(** The static buffer [str]. *)
Definition ip4addr_ntoa (addr : Z) (str : list Z) : res (bool * list Z) :=
  ip4addr_ntoa_r addr str IP4ADDR_STRLEN_MAX.

(** ** Netmasks *)

Definition bit (i : Z) : Z := if i <? 0 then 0 else 2 ^ i.

Lemma bit_zero i : -1 ≤ i → (bit i =? 0) = (i =? -1).
Proof.
  intros Hi. unfold bit. destruct (Z.ltb_spec i 0); [assert (i = -1) as -> by lia; done|].
  pose proof (Z.pow_pos_nonneg 2 i). rewrite !(proj2 (Z.eqb_neq _ _)) by lia. done.
Qed.
Lemma bit_shift i : 0 ≤ i → Z.shiftr (bit i) 1 = bit (i - 1).
Proof.
  intros Hi. unfold bit. rewrite (proj2 (Z.ltb_ge i 0)), Z.shiftr_div_pow2 by lia. destruct (Z.ltb_spec (i - 1) 0).
  - assert (i = 0) as -> by lia. done.
  - replace i with (i - 1 + 1) at 1 by lia. rewrite Z.pow_add_r by lia. apply Z.div_mul. lia.
Qed.
Lemma land_bit nm i : 0 ≤ i → (Z.land nm (bit i) =? 0) = negb (Z.testbit nm i).
Proof.
  intros Hi. unfold bit. rewrite (proj2 (Z.ltb_ge i 0)) by lia. destruct (Z.testbit nm i) eqn:E; cbn [negb].
  - apply Z.eqb_neq. intros H. assert (Z.testbit (Z.land nm (2 ^ i)) i = true) as Ht.
    { by rewrite Z.land_spec, E, Z.pow2_bits_true. }
    by rewrite H, Z.testbit_0_l in Ht.
  - apply Z.eqb_eq, Z.bits_inj'. intros j Hj. rewrite Z.land_spec, Z.testbit_0_l, Z.pow2_bits_eqb by lia.
    destruct (Z.eqb_spec i j) as [->|]; [by rewrite E|by rewrite andb_false_r].
Qed.

(** The first loop stops at the highest zero. *)
Lemma first_zero_spec fuel : ∀ nm i, -1 ≤ i < Z.of_nat fuel → ∃ j,
  first_zero fuel nm (bit i) = bit j ∧ -1 ≤ j ≤ i ∧ (∀ k, j < k ≤ i → Z.testbit nm k = true) ∧
  (0 ≤ j → Z.testbit nm j = false).
Proof.
  induction fuel as [|fuel IH]; intros nm i Hi; [exists i; split_and!; [done|lia|lia|lia|lia]|].
  cbn [first_zero]. rewrite bit_zero by lia. destruct (Z.eqb_spec i (-1)) as [->|]; cbn [negb].
  { exists (-1). split_and!; done || lia. }
  rewrite land_bit by lia. destruct (Z.testbit nm i) eqn:E; cbn [negb].
  - rewrite bit_shift by lia. destruct (IH nm (i - 1)) as (j & -> & Hj & Hk & Hz); [lia|].
    exists j. split_and!; [done|lia|lia| |done]. intros k Hk'.
    destruct (decide (k = i)) as [->|]; [done|]. apply Hk. lia.
  - exists i. split_and!; [done|lia|lia| |done]. lia.
Qed.

(** The second accepts when only zeros remain. *)
Lemma no_more_ones_spec fuel : ∀ nm j, -1 ≤ j < Z.of_nat fuel →
  no_more_ones fuel nm (bit j) = true ↔ ∀ k, 0 ≤ k ≤ j → Z.testbit nm k = false.
Proof.
  induction fuel as [|fuel IH]; intros nm j Hj; [split; [lia|done]|].
  cbn [no_more_ones]. rewrite bit_zero by lia. destruct (Z.eqb_spec j (-1)) as [->|]; cbn [negb].
  { split; [lia|done]. }
  rewrite land_bit by lia. destruct (Z.testbit nm j) eqn:E; cbn [negb].
  - split; [done|]. intros H. rewrite (H j) in E by lia. done.
  - rewrite bit_shift, IH by lia. split; intros H k Hk; [|apply H; lia].
    destruct (decide (k = j)) as [->|]; [done|]. apply H. lia.
Qed.

(** A run of ones followed by zeros. *)
Lemma mask_bits k i : 0 ≤ k ≤ 32 → 0 ≤ i → Z.testbit (2 ^ 32 - 2 ^ k) i = (k <=? i) && (i <? 32).
Proof.
  intros Hk Hi. replace (2 ^ 32 - 2 ^ k) with (Z.shiftl (Z.ones (32 - k)) k).
  - rewrite Z.shiftl_spec by done. destruct (Z.leb_spec k i); cbn [andb].
    + destruct (Z.ltb_spec i 32).
      * apply Z.ones_spec_low. lia.
      * apply Z.ones_spec_high. lia.
    + apply Z.testbit_neg_r. lia.
  - rewrite Z.shiftl_mul_pow2, Z.ones_equiv by lia.
    replace (2 ^ 32) with (2 ^ (32 - k) * 2 ^ k) by (rewrite <- Z.pow_add_r by lia; f_equal; lia). lia.
Qed.

Lemma u32_bits x i : 0 ≤ x < 2 ^ 32 → 32 ≤ i → Z.testbit x i = false.
Proof.
  intros Hx Hi. destruct (decide (x = 0)) as [->|]; [apply Z.testbit_0_l|].
  apply Z.bits_above_log2; [lia|]. apply Z.log2_lt_pow2; [lia|].
  assert (2 ^ 32 ≤ 2 ^ i) by (apply Z.pow_le_mono_r; lia). lia.
Qed.

(** [ip4_addr_netmask_valid] accepts exactly the netmasks that, in host
    order, are a run of ones followed by a run of zeros: for each prefix length
    from 0 to 32 the one mask it denotes, and no other word. *)
Theorem netmask_valid_spec m :
  0 ≤ m < 2 ^ 32 →
  ip4_addr_netmask_valid m = true ↔ ∃ len, 0 ≤ len ≤ 32 ∧ m = lwip_htonl (2 ^ 32 - 2 ^ (32 - len)).
Proof.
  intros Hm. unfold ip4_addr_netmask_valid. set (nm := lwip_htonl m).
  assert (0 ≤ nm < 2 ^ 32) as Hnm by (by apply htonl_range).
  change (2 ^ 31) with (bit 31). destruct (first_zero_spec 33 nm 31) as (j & -> & Hj & Hones & Hz); [lia|].
  rewrite no_more_ones_spec by lia. split.
  - intros Hzeros. exists (31 - j). split; [lia|]. rewrite <- (htonl_involutive m) by done. fold nm. f_equal.
    apply Z.bits_inj'. intros i Hi. rewrite mask_bits by lia.
    destruct (Z.leb_spec (32 - (31 - j)) i); cbn [andb].
    + destruct (Z.ltb_spec i 32); [apply Hones; lia|by apply u32_bits].
    + apply Hzeros. lia.
  - intros (len & Hlen & ->) k Hk. assert (nm = 2 ^ 32 - 2 ^ (32 - len)) as Hnm'.
    { unfold nm. apply htonl_involutive. pose proof (Z.pow_pos_nonneg 2 (32 - len)).
      assert (2 ^ (32 - len) ≤ 2 ^ 32) by (apply Z.pow_le_mono_r; lia). lia. }
    specialize (Hz ltac:(lia)). rewrite Hnm', mask_bits in Hz by lia.
    rewrite Hnm', mask_bits by lia.
    apply andb_false_iff in Hz. apply andb_false_iff. left. apply Z.leb_gt.
    destruct Hz as [Hz|Hz]; bool_prop; lia.
Qed.

(** ** Text *)

Definition is_digit (c : Z) : Prop := 48 ≤ c ≤ 57.

Lemma isdigit_true c : is_digit c → lwip_isdigit c = true.
Proof. unfold is_digit, lwip_isdigit, in_range. intros. by rewrite !(proj2 (Z.leb_le _ _)) by lia. Qed.

(** What ends a number: the end, a dot or a blank. *)
Definition number_end (c : Z) : Prop := c = 0 ∨ c = 46 ∨ lwip_isspace c = true.

Lemma number_end_spec c : number_end c →
  lwip_isdigit c = false ∧ lwip_isxdigit c = false ∧ (c =? 120) || (c =? 88) = false.
Proof.
  unfold number_end, lwip_isspace, in_range. intros H.
  assert (c = 0 ∨ c = 46 ∨ c = 32 ∨ 9 ≤ c ≤ 13) as Hc.
  { destruct H as [?|[?|H]]; [lia|lia|]. apply orb_prop in H as [H|H]; bool_prop; lia. }
  clear H. unfold lwip_isxdigit, lwip_isdigit, in_range.
  repeat split; repeat match goal with
    | |- context [?x <=? ?y] => destruct (Z.leb_spec x y); try lia
    | |- context [?x =? ?y] => destruct (Z.eqb_spec x y); try lia
    end; done.
Qed.

(** Reading digits is a fold. *)
Definition fold_digits (base val : Z) (ds : list Z) : Z :=
  fold_left (λ val c, u32 (val * base + u32 (c - 48))) ds val.

Lemma aton_number_digits base ds : ∀ val c rest,
  Forall is_digit ds → number_end c →
  aton_number base val (ds ++ c :: rest) = Val (fold_digits base val ds, c :: rest).
Proof.
  induction ds as [|d ds IH]; intros val c rest Hd Hc.
  - destruct (number_end_spec c Hc) as (H1 & H2 & _). cbn [app aton_number]. by rewrite H1, H2, andb_false_r.
  - apply Forall_cons in Hd as [Hd Hds]. cbn [app aton_number]. rewrite isdigit_true by done. by apply IH.
Qed.

Lemma fold_digits_decimal fuel : ∀ n,
  0 ≤ n < 10 ^ Z.of_nat fuel → n < 2 ^ 32 → fold_digits 10 0 (digits fuel n) = n.
Proof.
  induction fuel as [|fuel IH]; intros n Hn H32.
  { change (10 ^ Z.of_nat 0) with 1 in Hn. assert (n = 0) as -> by lia. done. }
  rewrite Nat2Z.inj_succ, Z.pow_succ_r in Hn by lia. cbn [digits].
  destruct (Z.eqb_spec n 0) as [->|]; [done|]. unfold fold_digits. rewrite fold_left_app. fold (fold_digits 10 0 (digits fuel (n / 10))).
  rewrite IH by (Z.div_mod_to_equations; lia). cbn [fold_left]. pose proof (Z.mod_pos_bound n 10).
  replace (48 + n mod 10 - 48) with (n mod 10) by lia. rewrite (u32_small (n mod 10)) by (bounds; lia).
  pose proof (Z_div_mod_eq_full n 10). rewrite u32_small by (bounds; lia). lia.
Qed.

Lemma digits_head fuel : ∀ n, 0 < n < 10 ^ Z.of_nat fuel → ∃ c r, digits fuel n = c :: r ∧ 49 ≤ c ≤ 57.
Proof.
  induction fuel as [|fuel IH]; intros n Hn; [change (10 ^ Z.of_nat 0) with 1 in Hn; lia|].
  rewrite Nat2Z.inj_succ, Z.pow_succ_r in Hn by lia. cbn [digits]. rewrite (proj2 (Z.eqb_neq _ _)) by lia.
  destruct (decide (n < 10)).
  - rewrite Z.div_small, Z.mod_small by lia. exists (48 + n), [].
    destruct fuel; cbn [digits Z.eqb app]; split; done || lia.
  - destruct (IH (n / 10)) as (c & r & -> & Hc); [Z.div_mod_to_equations; lia|]. by exists c, (r ++ [48 + n mod 10]).
Qed.

(** A number in decimal is read as what it is. *)
Lemma aton_part_decimal n c rest :
  0 ≤ n < 2 ^ 32 → number_end c → aton_part (decimal n ++ c :: rest) = Val (Some (n, c :: rest)).
Proof.
  intros Hn Hc. unfold aton_part, decimal. destruct (Z.eqb_spec n 0) as [->|].
  - destruct (number_end_spec c Hc) as (H1 & H2 & H3). cbn [app next_char rbind].
    change (lwip_isdigit 48) with true. cbn [negb Z.eqb Pos.eqb]. rewrite H3. cbn [rbind aton_number].
    by rewrite H1.
  - destruct (digits_head 10 n) as (d & r & E & Hd); [lia|].
    pose proof (digits_range 10 n ltac:(lia)) as Hr. rewrite E in *. cbn [app next_char rbind].
    rewrite isdigit_true by (unfold is_digit; lia). cbn [negb]. rewrite (proj2 (Z.eqb_neq d 48)) by lia. cbn [rbind].
    change (d :: r ++ c :: rest) with ((d :: r) ++ c :: rest). rewrite aton_number_digits by done. cbn [rbind].
    rewrite <- E, fold_digits_decimal by lia. done.
Qed.

(** Numbers separated by dots. *)
Definition dotted (ps : list Z) (v : Z) : list Z := concat (map (λ p, decimal p ++ [46]) ps) ++ decimal v.

Lemma aton_loop_dotted v c rest ps : ∀ fuel acc,
  Forall is_u32 ps → is_u32 v → number_end c → c ≠ 46 → (length acc + fuel = 4)%nat → (length acc ≤ 3)%nat →
  aton_loop fuel (dotted ps v ++ c :: rest) acc =
  Val (if zlen (acc ++ ps) <=? 3 then Some (v, acc ++ ps, c :: rest) else None).
Proof.
  induction ps as [|p ps IH]; intros fuel acc Hps Hv Hc Hdot Hfuel Hacc; (destruct fuel as [|fuel]; [lia|]);
    cbn [aton_loop].
  - unfold dotted. cbn [map concat app]. rewrite aton_part_decimal by done. cbn [rbind next_char].
    rewrite (proj2 (Z.eqb_neq c 46)) by done. rewrite app_nil_r, (proj2 (Z.leb_le _ _)) by (unfold zlen; lia). done.
  - apply Forall_cons in Hps as [Hp Hps]. unfold dotted. cbn [map concat]. rewrite <- !app_assoc. cbn [app].
    rewrite aton_part_decimal by (done || by right; left). cbn [rbind next_char Z.eqb Pos.eqb].
    destruct (Z.leb_spec 3 (zlen acc)).
    + rewrite (proj2 (Z.leb_gt _ _)); [done|]. rewrite zlen_app, zlen_cons. pose proof (zlen_nonneg ps). lia.
    + fold (dotted ps v). rewrite app_assoc. fold (dotted ps v).
      rewrite (IH fuel (acc ++ [p])) by (try done; rewrite ?length_app; simpl; unfold zlen in *; lia).
      by rewrite <- app_assoc.
Qed.

(** The number the parts denote: 8 bits for each but the last. *)
Fixpoint ip_value (shift : Z) (ps : list Z) (v : Z) : Z :=
  match ps with [] => v | p :: ps => p * 2 ^ shift + ip_value (shift - 8) ps v end.
Definition ip_valid (ps : list Z) (v : Z) : bool :=
  (zlen ps <=? 3) && forallb (λ p, p <=? 255) ps && (v <? 2 ^ (32 - 8 * zlen ps)).

Lemma shl_small a k : 0 ≤ a → 0 ≤ k → a * 2 ^ k < 2 ^ 32 → u32 (Z.shiftl a k) = a * 2 ^ k.
Proof. intros. rewrite Z.shiftl_mul_pow2 by done. apply u32_small. nia. Qed.

Lemma lor_shl x a k : 0 ≤ k → 0 ≤ x < 2 ^ k → Z.lor x (a * 2 ^ k) = a * 2 ^ k + x.
Proof. intros. rewrite Z.lor_comm. by apply lor_add. Qed.

Lemma lor_2 a b v : 0 ≤ b < 256 → 0 ≤ v < 2 ^ 16 →
  Z.lor v (Z.lor (a * 2 ^ 24) (b * 2 ^ 16)) = a * 2 ^ 24 + (b * 2 ^ 16 + v).
Proof.
  intros. rewrite lor_add by lia. replace (a * 2 ^ 24 + b * 2 ^ 16) with ((a * 256 + b) * 2 ^ 16) by lia.
  rewrite lor_shl by lia. lia.
Qed.
Lemma lor_3 a b c v : 0 ≤ b < 256 → 0 ≤ c < 256 → 0 ≤ v < 2 ^ 8 →
  Z.lor v (Z.lor (Z.lor (a * 2 ^ 24) (b * 2 ^ 16)) (c * 2 ^ 8)) = a * 2 ^ 24 + (b * 2 ^ 16 + (c * 2 ^ 8 + v)).
Proof.
  intros. rewrite (lor_add 24) by lia. replace (a * 2 ^ 24 + b * 2 ^ 16) with ((a * 256 + b) * 2 ^ 16) by lia.
  rewrite (lor_add 16) by lia. replace ((a * 256 + b) * 2 ^ 16 + c * 2 ^ 8) with (((a * 256 + b) * 256 + c) * 2 ^ 8) by lia.
  rewrite lor_shl by lia. lia.
Qed.

Lemma aton_concoct_spec ps v : zlen ps ≤ 3 → Forall is_u32 ps → is_u32 v →
  aton_concoct v ps = Val (if ip_valid ps v then Some (ip_value 24 ps v) else None).
Proof.
  intros Hl Hps Hv. unfold ip_valid. rewrite (proj2 (Z.leb_le _ _)) by done. unfold is_u32 in *.
  destruct ps as [|a [|b [|c [|d ps]]]]; [..|rewrite !zlen_cons in Hl; pose proof (zlen_nonneg ps); lia];
    unfold zlen; cbn [length forallb andb aton_concoct ip_value].
  - change (32 - 8 * Z.of_nat 0) with 32. by rewrite (proj2 (Z.ltb_lt _ _)) by lia.
  - apply Forall_cons in Hps as [? _]. change (2 ^ (32 - 8 * Z.of_nat 1)) with 16777216.
    repeat case_match; bool_prop; try lia; try done. by rewrite shl_small, lor_shl by lia.
  - apply Forall_cons in Hps as [? [? _]%Forall_cons]. change (2 ^ (32 - 8 * Z.of_nat 2)) with 65536.
    repeat case_match; bool_prop; try lia; try done. by rewrite !shl_small, lor_2 by lia.
  - apply Forall_cons in Hps as [? [? [? _]%Forall_cons]%Forall_cons]. change (2 ^ (32 - 8 * Z.of_nat 3)) with 256.
    repeat case_match; bool_prop; try lia; try done. by rewrite !shl_small, lor_3 by lia.
Qed.

Lemma aton_dotted ps v c rest :
  Forall is_u32 ps → is_u32 v → c = 0 ∨ lwip_isspace c = true →
  ip4addr_aton (dotted ps v ++ c :: rest) =
  Val (if ip_valid ps v then Some (lwip_htonl (ip_value 24 ps v)) else None).
Proof.
  intros Hps Hv Hc. unfold ip4addr_aton.
  assert (number_end c) as He by (unfold number_end; tauto).
  assert (c ≠ 46) as Hdot by (by destruct Hc as [->|Hc]; [|intros ->]).
  rewrite (aton_loop_dotted v c rest ps 4 []) by (done || simpl; lia). cbn [rbind app].
  destruct (Z.leb_spec (zlen ps) 3) as [Hl|Hl].
  - cbn [next_char rbind].
    assert (negb (c =? 0) && negb (lwip_isspace c) = false) as ->.
    { destruct Hc as [->| ->]; [done|by rewrite andb_false_r]. }
    rewrite aton_concoct_spec by done. cbn [rbind]. by case_match.
  - unfold ip_valid. by rewrite (proj2 (Z.leb_gt _ _)) by lia.
Qed.

(** [ip4addr_aton] on numbers in decimal separated by dots, followed by the
    end of the string or a blank: up to four are accepted, each but the last at
    most 255 and the last within the bits that remain, and the address is the
    one they denote, in network order. *)
Theorem ip4addr_aton_spec ps v c rest :
  Forall is_u32 ps → is_u32 v → c = 0 ∨ lwip_isspace c = true →
  ip4addr_aton (dotted ps v ++ c :: rest) =
  Val (if ip_valid ps v then Some (lwip_htonl (ip_value 24 ps v)) else None).
Proof. apply aton_dotted. Qed.

(** ** Writing *)

Lemma ntoa_digits_spec b : is_u8 b → ntoa_digits 3 b [] = Val (rev (decimal b)).
Proof.
  intros Hb%in_all_bytes.
  assert (forallb (λ b, match ntoa_digits 3 b [] with
                        | Val d => bool_decide (d = rev (decimal b)) | Err _ => false end) all_bytes = true) as H
    by (vm_compute; reflexivity).
  rewrite forallb_forall in H. specialize (H _ Hb). destruct (ntoa_digits 3 b []); [|done].
  by apply bool_decide_eq_true in H as ->.
Qed.

(** The loops write the bytes' texts one character after the other. *)
Lemma ntoa_puts_app buflen cs1 : ∀ cs2 st,
  ntoa_puts buflen (cs1 ++ cs2) st =
  let* r := ntoa_puts buflen cs1 st in
  match r with inl buf => Val (inl buf) | inr st => ntoa_puts buflen cs2 st end.
Proof.
  induction cs1 as [|c cs1 IH]; intros cs2 st; [done|]. cbn [app ntoa_puts].
  destruct (ntoa_put buflen c st) as [[buf|st']|]; cbn [rbind]; done.
Qed.

Lemma ntoa_loop_puts buflen aps : ∀ st, Forall is_u8 aps →
  ntoa_loop aps buflen st = ntoa_puts buflen (concat (map (λ p, decimal p ++ [46]) aps)) st.
Proof.
  induction aps as [|ap aps IH]; intros st H; [done|]. apply Forall_cons in H as [Ha H].
  cbn [ntoa_loop map concat]. rewrite ntoa_digits_spec by done. cbn [rbind]. rewrite rev_involutive.
  rewrite <- app_assoc, ntoa_puts_app. destruct (ntoa_puts buflen (decimal ap) st) as [[buf|st']|]; cbn [rbind]; [done| |done].
  cbn [app ntoa_puts]. destruct (ntoa_put buflen 46 st') as [[buf|st'']|]; cbn [rbind]; [done| |done]. by apply IH.
Qed.

Lemma ntoa_puts_spec buflen cs : ∀ k buf,
  0 ≤ k ≤ buflen → buflen ≤ zlen buf →
  if k + zlen cs <=? buflen
  then ntoa_puts buflen cs (k, k, buf) = Val (inr (k + zlen cs, k + zlen cs, zsplice k cs buf))
  else ∃ buf', ntoa_puts buflen cs (k, k, buf) = Val (inl buf') ∧ zlen buf' = zlen buf ∧
         zdrop buflen buf' = zdrop buflen buf.
Proof.
  induction cs as [|c cs IH]; intros k buf Hk Hb.
  { rewrite zlen_nil, Z.add_0_r, (proj2 (Z.leb_le _ _)) by lia. cbn [ntoa_puts]. by rewrite zsplice_nil by lia. }
  assert (∀ v : Z, zlen [v] = 1) as H1 by done. rewrite zlen_cons. pose proof (zlen_nonneg cs).
  cbn [ntoa_puts]. unfold ntoa_put. destruct (Z.leb_spec buflen k) as [Hf|Hf].
  { rewrite (proj2 (Z.leb_gt _ _)) by lia. by exists buf. }
  rewrite buf_write_ok by (rewrite ?H1; lia). cbn [rbind].
  assert (zlen (zsplice k [c] buf) = zlen buf) as Hl by (apply zlen_zsplice; rewrite ?H1; lia).
  specialize (IH (k + 1) (zsplice k [c] buf) ltac:(lia) ltac:(lia)). rewrite Z.add_assoc.
  destruct (Z.leb_spec (k + 1 + zlen cs) buflen).
  - rewrite IH. do 3 f_equal. rewrite <- (H1 c) at 1. rewrite zsplice_app by (rewrite ?H1; lia). done.
  - destruct IH as (buf' & -> & Hl' & Hd). exists buf'. split_and!; [done|lia|]. rewrite Hd.
    unfold zsplice. rewrite H1, app_assoc. assert (zlen (ztake k buf ++ [c]) = k + 1) as Hk1 by (rewrite zlen_app, zlen_ztake, H1; lia).
    rewrite zdrop_app_ge by lia. rewrite Hk1, zdrop_zdrop by lia. f_equal. lia.
Qed.

(** The dotted quad of an address. *)
Definition quad (addr : Z) : list Z :=
  dotted [addr mod 256; addr / 256 mod 256; addr / 65536 mod 256] (addr / 16777216).

Lemma addr_bytes_u8 addr : is_u32 addr → Forall is_u8 (addr_bytes addr).
Proof.
  intros H. unfold addr_bytes. bounds. change (2 ^ 8) with 256.
  repeat (apply Forall_cons; split; [try (apply Z.mod_pos_bound; lia)|]); [|constructor].
  split; [apply Z.div_pos; lia|apply Z.div_lt_upper_bound; lia].
Qed.

Lemma quad_text addr :
  concat (map (λ p, decimal p ++ [46]) (addr_bytes addr)) = quad addr ++ [46].
Proof. unfold quad, dotted, addr_bytes. cbn [map concat]. rewrite <- !app_assoc. cbn [app]. by rewrite ?app_nil_r. Qed.

Lemma ip4addr_ntoa_r_runs addr buf buflen :
  is_u32 addr → 0 ≤ buflen ≤ zlen buf →
  if zlen (quad addr) <? buflen
  then ip4addr_ntoa_r addr buf buflen = Val (true, zsplice 0 (quad addr ++ [0]) buf)
  else ∃ buf', ip4addr_ntoa_r addr buf buflen = Val (false, buf') ∧ zlen buf' = zlen buf ∧
         zdrop buflen buf' = zdrop buflen buf.
Proof.
  intros Ha Hb. unfold ip4addr_ntoa_r. rewrite ntoa_loop_puts, quad_text by (by apply addr_bytes_u8).
  pose proof (ntoa_puts_spec buflen (quad addr ++ [46]) 0 buf ltac:(lia) ltac:(lia)) as H.
  assert (zlen (quad addr ++ [46]) = zlen (quad addr) + 1) as Hq by (by rewrite zlen_app).
  rewrite Hq, Z.add_0_l in H. pose proof (zlen_nonneg (quad addr)).
  destruct (Z.leb_spec (zlen (quad addr) + 1) buflen).
  - rewrite (proj2 (Z.ltb_lt _ _)), H by lia. cbn [rbind].
    replace (zlen (quad addr) + 1 - 1) with (zlen (quad addr)) by lia.
    assert (∀ v : Z, zlen [v] = 1) as Hone by done.
    rewrite buf_write_ok by (rewrite ?zlen_zsplice; rewrite ?Hq, ?Hone; lia). cbn [rbind].
    do 2 f_equal.
    assert (∀ d l, zlen (quad addr) + zlen d ≤ zlen l →
      zsplice (zlen (quad addr)) d (zsplice 0 (quad addr) l) = zsplice 0 (quad addr ++ d) l) as Happ.
    { intros d l Hdl. apply (zsplice_app 0 (quad addr)); lia. }
    rewrite <- !Happ by (rewrite ?Hone; lia). apply zsplice_again; rewrite ?zlen_zsplice; rewrite ?Hone; lia || done.
  - rewrite (proj2 (Z.ltb_ge _ _)) by lia. destruct H as (buf' & -> & ? & ?). by exists buf'.
Qed.

Lemma zlen_decimal b : is_u8 b → zlen (decimal b) ≤ 3.
Proof.
  intros Hb%in_all_bytes.
  assert (forallb (λ b, zlen (decimal b) <=? 3) all_bytes = true) as H by (vm_compute; reflexivity).
  rewrite forallb_forall in H. apply Z.leb_le, H, Hb.
Qed.

Lemma zlen_quad addr : is_u32 addr → zlen (quad addr) < IP4ADDR_STRLEN_MAX.
Proof.
  intros Ha. pose proof (addr_bytes_u8 addr Ha) as Hb. unfold addr_bytes in Hb.
  apply Forall_cons in Hb as [Ba [Bb [Bc [Bd _]%Forall_cons]%Forall_cons]%Forall_cons].
  unfold quad, dotted, IP4ADDR_STRLEN_MAX. cbn [map concat]. rewrite !zlen_app. assert (∀ v : Z, zlen [v] = 1) as Hone by done.
  rewrite !Hone. apply zlen_decimal in Ba, Bb, Bc, Bd. change (zlen (@nil Z)) with 0. lia.
Qed.

Lemma aton_quad addr rest : is_u32 addr → ip4addr_aton (quad addr ++ 0 :: rest) = Val (Some addr).
Proof.
  intros Ha. pose proof (addr_bytes_u8 addr Ha) as Hb. unfold addr_bytes in Hb.
  apply Forall_cons in Hb as [Ba [Bb [Bc [Bd _]%Forall_cons]%Forall_cons]%Forall_cons].
  unfold quad. rewrite aton_dotted; [|repeat apply Forall_cons_2; [..|constructor]|..|by left];
    try (bounds; lia).
  unfold ip_valid. change (zlen [_; _; _]) with 3. cbn [forallb Z.leb Z.compare Pos.compare Pos.compare_cont].
  bounds. change (2 ^ 8) with 256 in *. change (2 ^ (32 - 8 * 3)) with 256.
  rewrite !(proj2 (Z.leb_le _ _)) by lia. rewrite (proj2 (Z.ltb_lt _ _)) by lia. cbn [andb].
  do 2 f_equal. destruct (word_of addr ltac:(bounds; lia)) as (a & b & c & d & Ha' & Hb' & Hc' & Hd' & ->).
  cbn [ip_value]. replace (word a b c d / 16777216) with (word a b c d / 256 / 256 / 256) by (rewrite !Z.div_div by lia; done).
  replace (word a b c d / 65536) with (word a b c d / 256 / 256) by (rewrite !Z.div_div by lia; done).
  unfold word at 1 2 3 4. rewrite (proj1 (word_step a _ Ha')), !(proj2 (word_step a _ Ha')), (proj1 (word_step b _ Hb')),
    !(proj2 (word_step b _ Hb')), (proj1 (word_step c _ Hc')), (proj2 (word_step c _ Hc')).
  rewrite <- (htonl_word d c b a) by done. f_equal. unfold word. lia.
Qed.

(** [ip4addr_ntoa_r] writes the dotted quad and a terminator when they fit
    into [buflen] bytes and returns null when they do not, and in both cases
    leaves the memory beyond [buflen] alone.  16 bytes always suffice. *)
Theorem ip4addr_ntoa_r_spec addr buf buflen :
  is_u32 addr → 0 ≤ buflen ≤ zlen buf →
  zlen (quad addr) < IP4ADDR_STRLEN_MAX ∧
  if zlen (quad addr) <? buflen
  then ip4addr_ntoa_r addr buf buflen = Val (true, zsplice 0 (quad addr ++ [0]) buf)
  else ∃ buf', ip4addr_ntoa_r addr buf buflen = Val (false, buf') ∧ zlen buf' = zlen buf ∧
         zdrop buflen buf' = zdrop buflen buf.
Proof. intros Ha Hb. split; [by apply zlen_quad|by apply ip4addr_ntoa_r_runs]. Qed.

(** C36: reading back what [ip4addr_ntoa] wrote gives the address. *)
Theorem ip4addr_roundtrip addr str :
  is_u32 addr → zlen str = IP4ADDR_STRLEN_MAX →
  ∃ str', ip4addr_ntoa addr str = Val (true, str') ∧ zlen str' = zlen str ∧
    ip4addr_aton str' = Val (Some addr).
Proof.
  intros Ha Hl. pose proof (zlen_quad addr Ha) as Hq. unfold ip4addr_ntoa.
  pose proof (ip4addr_ntoa_r_runs addr str IP4ADDR_STRLEN_MAX Ha ltac:(unfold IP4ADDR_STRLEN_MAX in *; lia)) as H.
  rewrite (proj2 (Z.ltb_lt _ _) Hq) in H. eexists. split; [exact H|].
  assert (zlen (quad addr ++ [0]) = zlen (quad addr) + 1) as Hq0 by (by rewrite zlen_app).
  split; [apply zlen_zsplice; lia|]. rewrite zsplice_0 by lia. rewrite <- app_assoc. cbn [app].
  by apply aton_quad.
Qed.

(** A part of 2^32 or more wraps: the text of a value that is out of range is
    accepted ("1.2.3.4294967296" reads as 1.2.3.0). *)
Lemma ip4addr_aton_wraps :
  ip4addr_aton ([49; 46; 50; 46; 51; 46] ++ decimal 4294967296 ++ [0]) = Val (Some (word 1 2 3 0)).
Proof. vm_compute. reflexivity. Qed.

(** ** Instances *)

Lemma netmask_valid_spec_witness :
  ip4_addr_netmask_valid 16777215 = true ∧ ∃ len, 0 ≤ len ≤ 32 ∧ 16777215 = lwip_htonl (2 ^ 32 - 2 ^ (32 - len)).
Proof.
  assert (ip4_addr_netmask_valid 16777215 = true) as H by reflexivity. split; [exact H|].
  exact (proj1 (netmask_valid_spec 16777215 ltac:(lia)) H).
Defined.

(** "172.16.1 " is 172.16.0.1. *)
Lemma ip4addr_aton_spec_witness :
  ip4addr_aton [49; 55; 50; 46; 49; 54; 46; 49; 32] = Val (Some (word 172 16 0 1)).
Proof.
  apply (ip4addr_aton_spec [172; 16] 1 32 []); [|unfold is_u32; lia|by right].
  repeat (apply Forall_cons; split; [unfold is_u32; lia|]); constructor.
Defined.

Lemma ip4addr_ntoa_r_spec_witness :
  zlen (quad (word 10 0 0 1)) < IP4ADDR_STRLEN_MAX ∧
  ip4addr_ntoa_r (word 10 0 0 1) (replicate 9 7) 9 = Val (true, [49; 48; 46; 48; 46; 48; 46; 49; 0]).
Proof.
  apply (ip4addr_ntoa_r_spec (word 10 0 0 1) (replicate 9 7) 9); [unfold is_u32; by vm_compute|by vm_compute].
Defined.

Lemma ip4addr_roundtrip_witness :
  ∃ str', ip4addr_ntoa (word 192 168 0 255) (replicate 16 0) = Val (true, str') ∧
    zlen str' = zlen (replicate 16 0) ∧ ip4addr_aton str' = Val (Some (word 192 168 0 255)).
Proof. apply (ip4addr_roundtrip (word 192 168 0 255) (replicate 16 0)); [unfold is_u32; by vm_compute|done]. Defined.
