(* ===== verification/Timeouts.v ===== *)
(** * Timeouts ([core/timeouts.c])

    The list of pending one-shot timers, sorted by their due time on a 32-bit
    millisecond clock that wraps, and the TCP timer that re-arms itself while
    there are connections.  The timer functions run in the whole stack's state
    [W], of which the timers are a part; what they do besides is given by the
    interface [timer_client]. *)

From Stdlib Require Import Sorted.
From S2P Require Import Prelude Heap.

Definition LWIP_MAX_TIMEOUT : Z := 2147483647.
Definition LWIP_UINT32_MAX : Z := 4294967295.
Definition SYS_TIMEOUTS_SLEEPTIME_INFINITE : Z := 4294967295.
Definition TCP_TMR_INTERVAL : Z := 250.

Definition TIME_LESS_THAN (t compare_to : Z) : bool := LWIP_MAX_TIMEOUT <? u32 (t - compare_to).

(** The functions a timer can call: the two of timeouts.c, and others. *)
Inductive sys_timeout_handler := H_tcpip_tcp_timer | H_lwip_cyclic_timer | H_other (f : positive).
#[export] Instance sys_timeout_handler_eq_dec : EqDecision sys_timeout_handler.
Proof. solve_decision. Defined.

Record sys_timeo := mk_sys_timeo { t_time : Z; t_h : option sys_timeout_handler; t_arg : option loc }.
#[export] Instance eta_sys_timeo : Eta sys_timeo := λ r, mk_sys_timeo (t_time r) (t_h r) (t_arg r).
#[export] Instance sys_timeo_eq_dec : EqDecision sys_timeo.
Proof. solve_decision. Defined.

(** The variables of timeouts.c; [clock] is what [sys_now] returns, and
    [timeo_mem] the allocator's answers to the coming requests for a
    [struct sys_timeo] (used up: success).  The list [next_timeout] is the chain
    of the structs, which nothing else points to. *)
Record timeouts := mk_timeouts {
  next_timeout : list sys_timeo;
  current_timeout_due_time : Z;
  tcpip_tcp_timer_active : bool;
  clock : Z;
  timeo_mem : list bool
}.
#[export] Instance eta_timeouts : Eta timeouts := λ r,
  mk_timeouts (next_timeout r) (current_timeout_due_time r) (tcpip_tcp_timer_active r) (clock r) (timeo_mem r).

Definition sys_now : M timeouts Z := gets clock.

Definition memp_malloc_timeout : M timeouts bool := λ w,
  match timeo_mem w with
  | [] => Val (true, w)
  | b :: rest => Val (b, w <| timeo_mem := rest |>)
  end.

(** ** The list *)

(** [for (t = next_timeout; …)]: after the first [t] whose successor is due later. *)
Fixpoint timeout_insert_after (timeout : sys_timeo) (l : list sys_timeo) : list sys_timeo :=
  match l with
  | [] => []
  | t :: rest =>
    match rest with
    | [] => [t; timeout]
    | n :: _ => if TIME_LESS_THAN (t_time timeout) (t_time n) then t :: timeout :: rest
                else t :: timeout_insert_after timeout rest
    end
  end.

Definition timeout_insert (timeout : sys_timeo) (l : list sys_timeo) : list sys_timeo :=
  match l with
  | [] => [timeout]
  | t :: _ => if TIME_LESS_THAN (t_time timeout) (t_time t) then timeout :: l else timeout_insert_after timeout l
  end.

Definition sys_timeout_abs (abs_time : Z) (handler : option sys_timeout_handler) (a : option loc)
    : M timeouts unit :=
  let! ok := memp_malloc_timeout in
  do! lwip_assert ok;
  modify (λ w, w <| next_timeout := timeout_insert (mk_sys_timeo abs_time handler a) (next_timeout w) |>).

Definition sys_timeout (msecs : Z) (handler : option sys_timeout_handler) (a : option loc)
    : M timeouts unit :=
  do! lwip_assert (msecs <=? LWIP_UINT32_MAX / 4);
  let! now := sys_now in
  sys_timeout_abs (u32 (now + msecs)) handler a.

(** The first entry with this handler and argument is unlinked. *)
Fixpoint unlink_timeout (handler : option sys_timeout_handler) (a : option loc) (l : list sys_timeo)
    : list sys_timeo :=
  match l with
  | [] => []
  | t :: rest => if decide (t_h t = handler ∧ t_arg t = a) then rest else t :: unlink_timeout handler a rest
  end.
Definition sys_untimeout (handler : option sys_timeout_handler) (a : option loc) : M timeouts unit :=
  modify (λ w, w <| next_timeout := unlink_timeout handler a (next_timeout w) |>).

Definition sys_restart_timeouts : M timeouts unit :=
  let! l := gets next_timeout in
  match l with
  | [] => ret tt
  | t0 :: _ =>
    let! now := sys_now in
    let base := t_time t0 in
    modify (λ w, w <| next_timeout := map (λ t, t <| t_time := u32 (u32 (t_time t - base) + now) |>) l |>)
  end.

Definition sys_timeouts_sleeptime : M timeouts Z :=
  let! l := gets next_timeout in
  match l with
  | [] => ret SYS_TIMEOUTS_SLEEPTIME_INFINITE
  | t0 :: _ =>
    let! now := sys_now in
    if TIME_LESS_THAN (t_time t0) now then ret 0
    else
      let r := u32 (t_time t0 - now) in
      do! lwip_assert (r <=? LWIP_MAX_TIMEOUT); ret r
  end.

(** ** The timer functions *)

(** What timeouts.c uses of the rest of the stack: [tcp_tmr], whether
    [tcp_active_pcbs] or [tcp_tw_pcbs] is not empty, the periodic timers
    [lwip_cyclic_timers] points to, and any other timer function. *)
Class timer_client (W : Type) `{!Part timeouts W} := {
  tcp_tmr : M W unit;
  tcp_pcbs_exist : W → bool;
  tcp_pcbs_exist_set p w : tcp_pcbs_exist (part_set p w) = tcp_pcbs_exist w;
  cyclic_interval_ms : option loc → Z;
  cyclic_handler : option loc → M W unit;
  other_timer : positive → option loc → M W unit
}.

Section timers.
Context {W : Type} `{!Part timeouts W} `{!timer_client W}.

Definition tcpip_tcp_timer : M W unit :=
  do! tcp_tmr;
  let! needed := gets tcp_pcbs_exist in
  if needed then lift (sys_timeout TCP_TMR_INTERVAL (Some H_tcpip_tcp_timer) None)
  else lift (modify (λ w, w <| tcpip_tcp_timer_active := false |>)).

Definition tcp_timer_needed : M W unit :=
  let! needed := gets tcp_pcbs_exist in
  let! active := lift (gets tcpip_tcp_timer_active) in
  if negb active && needed then
    do! lift (modify (λ w, w <| tcpip_tcp_timer_active := true |>));
    lift (sys_timeout TCP_TMR_INTERVAL (Some H_tcpip_tcp_timer) None)
  else ret tt.

Definition lwip_cyclic_timer (a : option loc) : M W unit :=
  do! cyclic_handler a;
  let! now := lift sys_now in
  let! due := lift (gets current_timeout_due_time) in
  let next_timeout_time := u32 (due + cyclic_interval_ms a) in
  if TIME_LESS_THAN next_timeout_time now
  then lift (sys_timeout_abs (u32 (now + cyclic_interval_ms a)) (Some H_lwip_cyclic_timer) a)
  else lift (sys_timeout_abs next_timeout_time (Some H_lwip_cyclic_timer) a).

Definition call_timer (handler : option sys_timeout_handler) (a : option loc) : M W unit :=
  match handler with
  | None => ret tt
  | Some H_tcpip_tcp_timer => tcpip_tcp_timer
  | Some H_lwip_cyclic_timer => lwip_cyclic_timer a
  | Some (H_other f) => other_timer f a
  end.

(** The loop of [sys_check_timeouts]. *)
Fixpoint check_timeouts_loop (fuel : nat) (now : Z) : M W unit :=
  let! l := lift (gets next_timeout) in
  match l with
  | [] => ret tt
  | tmptimeout :: rest =>
    if TIME_LESS_THAN now (t_time tmptimeout) then ret tt
    else
      match fuel with
      | O => fail OutOfFuel
      | S fuel =>
        do! lift (modify (λ w, w <| next_timeout := rest |>
                                 <| current_timeout_due_time := t_time tmptimeout |>));
        do! call_timer (t_h tmptimeout) (t_arg tmptimeout);
        check_timeouts_loop fuel now
      end
  end.

Definition sys_check_timeouts (fuel : nat) : M W unit :=
  let! now := lift sys_now in check_timeouts_loop fuel now.
End timers.

(** ** Time on a clock that wraps *)

(** How far ahead of [now] a time is (negative: how long ago). *)
Definition due (now t : Z) : Z := s32 (t - now).

(** The times the list works with: due within a quarter of the clock's range
    around [now].  [sys_timeout] asserts the upper bound. *)
Definition near (now t : Z) : Prop := - 2 ^ 30 ≤ due now t < 2 ^ 30.

Lemma due_mod now t : ∃ k, t - now = due now t + k * 2 ^ 32.
Proof.
  unfold due, s32, signed. pose proof (Z_div_mod_eq_full (t - now) (2 ^ 32)).
  case_match; [exists ((t - now) / 2 ^ 32)|exists ((t - now) / 2 ^ 32 + 1)]; lia.
Qed.

Lemma due_unique now t d : - 2 ^ 31 ≤ d < 2 ^ 31 → (∃ k, t - now = d + k * 2 ^ 32) → due now t = d.
Proof.
  intros Hd [k Hk]. unfold due, s32, signed. rewrite Hk, Z_mod_plus_full.
  destruct (decide (0 ≤ d)).
  - rewrite Z.mod_small by lia. case_match; bool_prop; [done|]. change (2 ^ (32 - 1)) with (2 ^ 31) in *. lia.
  - replace (d mod 2 ^ 32) with (d + 2 ^ 32).
    + case_match; bool_prop; change (2 ^ (32 - 1)) with (2 ^ 31) in *; lia.
    + rewrite <- (Z_mod_plus_full d 1). rewrite Z.mod_small; lia.
Qed.

Lemma time_less_than_due now t1 t2 :
  near now t1 → near now t2 → TIME_LESS_THAN t1 t2 = (due now t1 <? due now t2).
Proof.
  unfold near. intros H1 H2. destruct (due_mod now t1) as [k1 E1], (due_mod now t2) as [k2 E2].
  unfold TIME_LESS_THAN, LWIP_MAX_TIMEOUT, u32.
  assert (t1 - t2 = due now t1 - due now t2 + (k1 - k2) * 2 ^ 32) as -> by lia. rewrite Z_mod_plus_full.
  destruct (Z.ltb_spec (due now t1) (due now t2)).
  - rewrite <- (Z_mod_plus_full _ 1), Z.mod_small by lia. apply Z.ltb_lt. lia.
  - rewrite Z.mod_small by lia. apply Z.ltb_ge. lia.
Qed.

Lemma due_now now : due now now = 0.
Proof. apply due_unique; [lia|]. exists 0. lia. Qed.
Lemma near_now now : near now now.
Proof. unfold near. rewrite due_now. lia. Qed.

Lemma due_add now d : - 2 ^ 31 ≤ d < 2 ^ 31 → due now (u32 (now + d)) = d.
Proof.
  intros Hd. apply due_unique; [done|]. unfold u32. pose proof (Z_div_mod_eq_full (now + d) (2 ^ 32)).
  exists (- ((now + d) / 2 ^ 32)). lia.
Qed.

(** ** The sorted list *)

Definition earlier (now : Z) (a b : sys_timeo) : Prop := due now (t_time a) ≤ due now (t_time b).

(** The invariant: every pending time is near, and the list is sorted. *)
Record ordered (now : Z) (l : list sys_timeo) : Prop := {
  ordered_near : Forall (λ t, near now (t_time t)) l;
  ordered_sorted : StronglySorted (earlier now) l
}.

Lemma ordered_nil now : ordered now [].
Proof. split; constructor. Qed.
Lemma ordered_cons now t l :
  ordered now (t :: l) → near now (t_time t) ∧ Forall (earlier now t) l ∧ ordered now l.
Proof.
  intros [[? ?]%Forall_cons Hs]. apply StronglySorted_inv in Hs as [? ?]. by split_and!.
Qed.

(** Where an insertion puts a timer: after those due no later, before those due later. *)
Definition inserted (now : Z) (t : sys_timeo) (l l' : list sys_timeo) : Prop :=
  ∃ l1 l2, l = l1 ++ l2 ∧ l' = l1 ++ t :: l2 ∧
    Forall (λ x, earlier now x t) l1 ∧ Forall (λ x, due now (t_time t) < due now (t_time x)) l2.

Lemma later_all now t x l :
  due now (t_time t) < due now (t_time x) → Forall (earlier now x) l →
  Forall (λ x, due now (t_time t) < due now (t_time x)) (x :: l).
Proof.
  intros Hx Hl. apply Forall_cons. split; [done|]. eapply Forall_impl; [exact Hl|].
  unfold earlier. intros y Hy. simpl in *. lia.
Qed.

Lemma timeout_insert_after_spec now t : near now (t_time t) → ∀ l x,
  ordered now (x :: l) → earlier now x t → inserted now t (x :: l) (timeout_insert_after t (x :: l)).
Proof.
  intros Ht. induction l as [|y l IH]; intros x Ho Hx.
  { exists [x], []. split_and!; [done|done|by repeat constructor|constructor]. }
  apply ordered_cons in Ho as (Hnx & Hxl & Ho). pose proof (ordered_cons _ _ _ Ho) as (Hny & Hyl & _).
  change (timeout_insert_after t (x :: y :: l)) with
    (if TIME_LESS_THAN (t_time t) (t_time y) then x :: t :: y :: l else x :: timeout_insert_after t (y :: l)).
  rewrite (time_less_than_due now) by done. destruct (Z.ltb_spec (due now (t_time t)) (due now (t_time y))).
  - exists [x], (y :: l). split_and!; [done|done|by repeat constructor|by apply later_all].
  - destruct (IH y Ho) as (l1 & l2 & -> & -> & H1 & H2); [done|].
    exists (x :: l1), l2. split_and!; [done|done|by constructor|done].
Qed.

Lemma timeout_insert_spec now t l :
  near now (t_time t) → ordered now l → inserted now t l (timeout_insert t l).
Proof.
  intros Ht Ho. destruct l as [|x l].
  { exists [], []. split_and!; [done|done|constructor|constructor]. }
  pose proof (ordered_cons _ _ _ Ho) as (Hnx & Hxl & _). unfold timeout_insert.
  rewrite (time_less_than_due now) by done. destruct (Z.ltb_spec (due now (t_time t)) (due now (t_time x))).
  - exists [], (x :: l). split_and!; [done|done|constructor|by apply later_all].
  - by apply timeout_insert_after_spec.
Qed.

Lemma StronglySorted_app_iff {A} (R : A → A → Prop) l1 l2 :
  StronglySorted R (l1 ++ l2) ↔
  StronglySorted R l1 ∧ StronglySorted R l2 ∧ Forall (λ x, Forall (R x) l2) l1.
Proof.
  induction l1 as [|x l1 IH]; simpl.
  - split; [intros; by repeat constructor|tauto].
  - split.
    + intros [Hs Hf]%StronglySorted_inv. apply IH in Hs as (? & ? & ?). apply Forall_app in Hf as [? ?].
      split_and!; [by constructor|done|by constructor].
    + intros ([Hs Hf]%StronglySorted_inv & ? & [? ?]%Forall_cons). constructor; [by apply IH|by apply Forall_app].
Qed.

Lemma inserted_ordered now t l l' :
  near now (t_time t) → ordered now l → inserted now t l l' → ordered now l'.
Proof.
  intros Ht [Hn Hs] (l1 & l2 & -> & -> & H1 & H2). apply Forall_app in Hn as [? ?].
  apply StronglySorted_app_iff in Hs as (? & ? & H3). split.
  - apply Forall_app. split; [done|by constructor].
  - apply StronglySorted_app_iff. split_and!; [done| |].
    + constructor; [done|]. eapply Forall_impl; [exact H2|]. unfold earlier. simpl. lia.
    + rewrite Forall_forall in H1, H3 |- *. intros x Hx. constructor; [by apply H1|by apply H3].
Qed.

Lemma Forall_of_sublist {A} (P : A → Prop) l l' : sublist l' l → Forall P l → Forall P l'.
Proof.
  induction 1 as [|x l' l _ IH|x l' l _ IH]; [done| |]; intros [? ?]%Forall_cons; [constructor|]; auto.
Qed.

Lemma ordered_sublist now l l' : sublist l' l → ordered now l → ordered now l'.
Proof.
  intros Hsub [Hn Hs]. split; [by eapply Forall_of_sublist|]. clear Hn.
  induction Hsub as [|x l1 l2 Hsub IH|x l1 l2 Hsub IH]; [constructor| |];
    apply StronglySorted_inv in Hs as [? ?]; [constructor|]; auto. by eapply Forall_of_sublist.
Qed.

Lemma unlink_sublist hd a l : sublist (unlink_timeout hd a l) l.
Proof.
  induction l as [|t l IH]; simpl; [constructor|]. case_decide; [by apply sublist_cons|by apply sublist_skip].
Qed.

(** ** The operations *)

(** The allocator's next answer is a [struct sys_timeo]. *)
Definition timeo_available (w : timeouts) : Prop :=
  match timeo_mem w with [] => True | b :: _ => b = true end.

(** [now] is any reference time the list is near. *)
Lemma sys_timeout_abs_spec now t hd a w :
  near now t → ordered now (next_timeout w) → timeo_available w →
  runs (sys_timeout_abs t hd a) w (λ _ w',
    inserted now (mk_sys_timeo t hd a) (next_timeout w) (next_timeout w') ∧
    clock w' = clock w ∧ tcpip_tcp_timer_active w' = tcpip_tcp_timer_active w ∧
    current_timeout_due_time w' = current_timeout_due_time w ∧ timeo_mem w' = tail (timeo_mem w)).
Proof.
  intros Ht Ho Hm. pose proof (timeout_insert_spec now (mk_sys_timeo t hd a) _ Ht Ho) as Hi.
  unfold timeo_available in Hm. unfold sys_timeout_abs, runs, mbnd, memp_malloc_timeout, lwip_assert, modify.
  destruct (timeo_mem w) as [|[] rest] eqn:E; simpl; rewrite ?E; done.
Qed.

Lemma due_add_at now c d : near now c → - 2 ^ 30 ≤ d < 2 ^ 30 → due now (u32 (c + d)) = due now c + d.
Proof.
  unfold near. intros Hc Hd. destruct (due_mod now c) as [k Hk]. apply due_unique; [lia|]. unfold u32.
  pose proof (Z_div_mod_eq_full (c + d) (2 ^ 32)). exists (k - (c + d) / 2 ^ 32). lia.
Qed.

Lemma sys_timeout_at now msecs hd a w :
  ordered now (next_timeout w) → 0 ≤ msecs < 2 ^ 30 → near now (clock w) → due now (clock w) + msecs < 2 ^ 30 →
  timeo_available w →
  runs (sys_timeout msecs hd a) w (λ _ w',
    let t := mk_sys_timeo (u32 (clock w + msecs)) hd a in
    due now (t_time t) = due now (clock w) + msecs ∧ inserted now t (next_timeout w) (next_timeout w') ∧
    clock w' = clock w ∧ tcpip_tcp_timer_active w' = tcpip_tcp_timer_active w ∧
    current_timeout_due_time w' = current_timeout_due_time w ∧ timeo_mem w' = tail (timeo_mem w)).
Proof.
  intros Ho Hms Hc Hlt Hm.
  assert (due now (u32 (clock w + msecs)) = due now (clock w) + msecs) as Hd by (apply due_add_at; [done|lia]).
  unfold sys_timeout. apply runs_bind, runs_assert.
  { apply Z.leb_le. change (LWIP_UINT32_MAX / 4) with (2 ^ 30 - 1). lia. }
  apply runs_bind, runs_gets.
  eapply runs_mono; [apply (sys_timeout_abs_spec now); try done; unfold near in *; lia|]. intros [] w' H. by split.
Qed.

(** C30: [sys_timeout] inserts the timer behind those due at the same time or
    earlier and before those due later, across a wrap of the clock too, and the
    list stays sorted by due time. *)
Theorem sys_timeout_spec msecs hd a w :
  ordered (clock w) (next_timeout w) → 0 ≤ msecs < 2 ^ 30 → timeo_available w →
  runs (sys_timeout msecs hd a) w (λ _ w',
    let t := mk_sys_timeo (u32 (clock w + msecs)) hd a in
    due (clock w) (t_time t) = msecs ∧ inserted (clock w) t (next_timeout w) (next_timeout w') ∧
    ordered (clock w) (next_timeout w') ∧ clock w' = clock w).
Proof.
  intros Ho Hms Hm.
  eapply runs_mono; [apply (sys_timeout_at (clock w)); rewrite ?due_now; done || lia || apply near_now|].
  cbv zeta. rewrite due_now. intros [] w' (Hd & Hi & Hc & _). split_and!; try done.
  eapply inserted_ordered; [|done|exact Hi]. unfold near. lia.
Qed.

(** [sys_timeouts_sleeptime] is the time until the first of the pending
    timers is due, zero when one is overdue, and its assertion holds. *)
Theorem sys_timeouts_sleeptime_spec w :
  ordered (clock w) (next_timeout w) →
  runs sys_timeouts_sleeptime w (λ n w', w' = w ∧
    match next_timeout w with
    | [] => n = SYS_TIMEOUTS_SLEEPTIME_INFINITE
    | l => ∃ t, t ∈ l ∧ n = Z.max 0 (due (clock w) (t_time t)) ∧
             ∀ x, x ∈ l → due (clock w) (t_time t) ≤ due (clock w) (t_time x)
    end).
Proof.
  intros Ho. unfold sys_timeouts_sleeptime. apply runs_bind, runs_gets.
  destruct (next_timeout w) as [|t l] eqn:E; [by apply runs_ret|]. apply runs_bind, runs_gets.
  apply ordered_cons in Ho as (Hn & Hl & _). rewrite (time_less_than_due (clock w)), due_now by (done || apply near_now).
  assert (∀ x, x ∈ t :: l → due (clock w) (t_time t) ≤ due (clock w) (t_time x)) as Hmin.
  { intros x [->|Hx]%elem_of_cons; [done|]. rewrite Forall_forall in Hl. by apply Hl. }
  unfold near in Hn. destruct (Z.ltb_spec (due (clock w) (t_time t)) 0).
  - apply runs_ret. split; [done|]. exists t. split_and!; [by left|lia|done].
  - assert (u32 (t_time t - clock w) = due (clock w) (t_time t)) as ->.
    { destruct (due_mod (clock w) (t_time t)) as [k ->]. unfold u32. rewrite Z_mod_plus_full. apply Z.mod_small. lia. }
    apply runs_bind, runs_assert; [unfold LWIP_MAX_TIMEOUT; apply Z.leb_le; lia|]. apply runs_ret.
    split; [done|]. exists t. split_and!; [by left|lia|done].
Qed.

(** ** Running the timers that are due *)

Definition expired (now : Z) (l : list sys_timeo) : list sys_timeo := filter (λ t, due now (t_time t) ≤ 0) l.

Lemma expired_ordered now t l :
  ordered now (t :: l) →
  (due now (t_time t) ≤ 0 ∧ expired now (t :: l) = t :: expired now l) ∨
  (0 < due now (t_time t) ∧ expired now (t :: l) = []).
Proof.
  intros (Hn & Hl & _)%ordered_cons. unfold expired. rewrite filter_cons. case_decide; [by left|right].
  split; [lia|]. induction Hl as [|x l Hx _ IH]; [done|]. rewrite filter_cons, decide_False; [done|].
  unfold earlier in Hx. lia.
Qed.

Lemma expired_inserted now t l l' :
  0 < due now (t_time t) → inserted now t l l' → expired now l' = expired now l.
Proof.
  intros Ht (l1 & l2 & -> & -> & _). unfold expired. rewrite !filter_app, filter_cons, decide_False by lia. done.
Qed.

Section check.
Context {W : Type} `{!Part timeouts W} `{!timer_client W}.

Abbreviation timers w := (part_get (P := timeouts) (w : W)).

(** The reference: the given timers, in order, are taken off the list and called. *)
Fixpoint fire_all (ts : list sys_timeo) : M W unit :=
  match ts with
  | [] => ret tt
  | t :: ts =>
    do! lift (modify (λ w, w <| next_timeout := tail (next_timeout w) |>
                             <| current_timeout_due_time := t_time t |>));
    do! call_timer (t_h t) (t_arg t);
    fire_all ts
  end.

(** Timer functions that leave the timers due at [now] alone: they may start
    others, due later, and cancel those.  [I] is what they rely on. *)
Definition quiet (now : Z) (I : W → Prop) (m : M W unit) : Prop :=
  ∀ w, I w → ordered now (next_timeout (timers w)) →
    runs m w (λ _ w', I w' ∧ ordered now (next_timeout (timers w')) ∧
      expired now (next_timeout (timers w')) = expired now (next_timeout (timers w))).

Lemma check_timeouts_loop_spec now (I : W → Prop) :
  (∀ w p, I w → clock p = clock (timers w) → timeo_mem p = timeo_mem (timers w) → I (part_set p w)) →
  ∀ ts fuel w, I w → ordered now (next_timeout (timers w)) → ts = expired now (next_timeout (timers w)) →
  Forall (λ t, quiet now I (call_timer (t_h t) (t_arg t))) ts → (length ts ≤ fuel)%nat →
  check_timeouts_loop fuel now w = fire_all ts w ∧
  runs (fire_all ts) w (λ _ w', I w' ∧ ordered now (next_timeout (timers w')) ∧
    expired now (next_timeout (timers w')) = []).
Proof.
  intros HI. induction ts as [|t ts IH]; intros fuel w Hw Ho Hts Hq Hf.
  - split; [|by apply runs_ret].
    assert (∀ X : M W unit, match next_timeout (timers w) with
              | [] => ret tt | t :: _ => if TIME_LESS_THAN now (t_time t) then ret tt else X end w = ret tt w) as H.
    { intros X. destruct (next_timeout (timers w)) as [|t l]; [done|].
      pose proof (ordered_cons _ _ _ Ho) as (Hn & _ & _).
      destruct (expired_ordered _ _ _ Ho) as [[_ He]|[Hd _]]; [congruence|].
      rewrite (time_less_than_due now), due_now by (done || apply near_now).
      by rewrite (proj2 (Z.ltb_lt _ _)) by done. }
    destruct fuel; simpl; unfold mbnd, lift, gets; rewrite part_set_get;
      (destruct (next_timeout (timers w)) as [|t l]; [done|]; specialize (H (fail Undefined)));
      cbv beta iota in H; by destruct (TIME_LESS_THAN now (t_time t)).
  - destruct fuel as [|fuel]; [simpl in Hf; lia|]. apply Forall_cons in Hq as [Hqt Hq].
    destruct (next_timeout (timers w)) as [|t' l] eqn:El; [done|].
    pose proof (ordered_cons _ _ _ Ho) as (Hn & _ & Hol).
    destruct (expired_ordered _ _ _ Ho) as [[Hd He]|[_ He]]; [|congruence]. rewrite He in Hts.
    injection Hts as <- Hts.
    set (w1 := part_set ((timers w) <| next_timeout := l |> <| current_timeout_due_time := t_time t |>) w).
    assert (I w1) as Hw1 by (by apply HI).
    assert (next_timeout (timers w1) = l) as Hl1 by (unfold w1; by rewrite part_get_set).
    assert (fire_all (t :: ts) w = mbnd (call_timer (t_h t) (t_arg t)) (λ _, fire_all ts) w1) as Hfire.
    { simpl. unfold mbnd at 1. unfold lift, modify. rewrite El. done. }
    assert (check_timeouts_loop (S fuel) now w =
            mbnd (call_timer (t_h t) (t_arg t)) (λ _, check_timeouts_loop fuel now) w1) as Hchk.
    { simpl. unfold mbnd at 1. unfold lift at 1, gets. rewrite part_set_get, El.
      rewrite (time_less_than_due now), due_now by (done || apply near_now).
      rewrite (proj2 (Z.ltb_ge _ _)) by done. unfold mbnd at 1, lift, modify. done. }
    unfold runs. rewrite Hfire, Hchk. specialize (Hqt w1 Hw1). rewrite Hl1 in Hqt. specialize (Hqt Hol).
    apply runs_inv in Hqt as ([] & w2 & Hrun & Hw2 & Ho2 & He2). unfold mbnd. rewrite Hrun.
    assert (ts = expired now (next_timeout (timers w2))) as Hts2 by (by rewrite He2).
    assert (length ts ≤ fuel)%nat as Hf2 by (simpl in Hf; lia).
    destruct (IH fuel w2 Hw2 Ho2 Hts2 Hq Hf2) as [-> H2]. by split.
Qed.

(** C29: [sys_check_timeouts] returns, and does exactly this: each timer due at
    the time of the call is taken off the list and its function called, in the
    order in which they are due; afterwards none of them is pending.  The
    functions may start and cancel timers that are due later. *)
Theorem sys_check_timeouts_spec (I : W → Prop) fuel w :
  (∀ w p, I w → clock p = clock (timers w) → timeo_mem p = timeo_mem (timers w) → I (part_set p w)) →
  let now := clock (timers w) in
  let ts := expired now (next_timeout (timers w)) in
  I w → ordered now (next_timeout (timers w)) →
  Forall (λ t, quiet now I (call_timer (t_h t) (t_arg t))) ts → (length ts ≤ fuel)%nat →
  sys_check_timeouts fuel w = fire_all ts w ∧
  runs (sys_check_timeouts fuel) w (λ _ w', I w' ∧ ordered now (next_timeout (timers w')) ∧
    expired now (next_timeout (timers w')) = []).
Proof.
  intros HI now ts Hw Ho Hq Hf.
  destruct (check_timeouts_loop_spec now I HI ts fuel w Hw Ho eq_refl Hq Hf) as [Hl Hr].
  assert (sys_check_timeouts fuel w = check_timeouts_loop fuel now w) as E.
  { unfold sys_check_timeouts, mbnd, lift, sys_now, gets. by rewrite part_set_get. }
  split; [congruence|]. unfold runs in *. by rewrite E, Hl.
Qed.

(** What the TCP timer relies on: memory for its [struct sys_timeo], and a clock
    that has not moved by more than 2^29 ms since [now]. *)
Definition calm (now : Z) (w : W) : Prop :=
  0 ≤ due now (clock (timers w)) < 2 ^ 29 ∧ timeo_mem (timers w) = [].

Lemma calm_set now w p :
  calm now w → clock p = clock (timers w) → timeo_mem p = timeo_mem (timers w) → calm now (part_set p w).
Proof. intros [? ?] Hc Hm. unfold calm. rewrite part_get_set, Hc, Hm. done. Qed.

(** Starting a timer that is due later is quiet. *)
Lemma quiet_timeout now msecs hd a :
  0 < msecs < 2 ^ 29 → quiet now (calm now) (lift (sys_timeout msecs hd a)).
Proof.
  intros Hms w [Hc Hm] Ho. apply runs_lift.
  eapply runs_mono; [apply (sys_timeout_at now); [done|lia|unfold near; lia|lia|unfold timeo_available; by rewrite Hm]|].
  cbv zeta. intros [] p (Hd & Hi & Hck & _ & _ & Hmem). rewrite !part_get_set. split_and!.
  - apply calm_set; [done|done|]. by rewrite Hmem, Hm.
  - eapply inserted_ordered; [|done|exact Hi]. unfold near. lia.
  - eapply expired_inserted; [|exact Hi]. lia.
Qed.

Lemma quiet_bind {A} now I (m : M W unit) (f : W → A) (k : A → M W unit) :
  quiet now I m → (∀ a, quiet now I (k a)) → quiet now I (do! m; let! a := gets f in k a).
Proof.
  intros Hm Hk w Hw Ho. apply runs_bind. eapply runs_mono; [by apply Hm|].
  intros [] w1 (Hw1 & Ho1 & He1). apply runs_bind, runs_gets. eapply runs_mono; [by apply Hk|].
  intros [] w2 (Hw2 & Ho2 & He2). split_and!; [done|done|congruence].
Qed.

(** The TCP timer's function is such a function, if [tcp_tmr] is. *)
Lemma tcpip_tcp_timer_quiet now : quiet now (calm now) tcp_tmr → quiet now (calm now) tcpip_tcp_timer.
Proof.
  intros Ht. apply quiet_bind; [done|]. intros [].
  - apply quiet_timeout. unfold TCP_TMR_INTERVAL. lia.
  - intros w Hw Ho. apply runs_lift, runs_modify. rewrite part_get_set. split_and!; [by apply calm_set|done|done].
Qed.

(** ** The TCP timer runs when it is needed *)

(** How many timers with the TCP timer's function are pending. *)
Definition tcp_timers (p : timeouts) : Z := zcount (λ t, bool_decide (t_h t = Some H_tcpip_tcp_timer)) (next_timeout p).

(** The flag says whether it is pending, and it never is twice. *)
Definition timer_flag (p : timeouts) : Prop := tcp_timers p = Z.b2z (tcpip_tcp_timer_active p).

Lemma tcp_timers_inserted now t p p' :
  inserted now t (next_timeout p) (next_timeout p') →
  tcp_timers p' = tcp_timers p + Z.b2z (bool_decide (t_h t = Some H_tcpip_tcp_timer)).
Proof.
  intros (l1 & l2 & E1 & E2 & _). unfold tcp_timers. rewrite E1, E2, !zcount_app. cbn [zcount]. lia.
Qed.

Definition steady (w : W) : Prop :=
  ordered (clock (timers w)) (next_timeout (timers w)) ∧ timeo_mem (timers w) = [].

Lemma arm_spec w :
  steady w → runs (lift (sys_timeout TCP_TMR_INTERVAL (Some H_tcpip_tcp_timer) None)) w (λ _ w',
    steady w' ∧ tcp_timers (timers w') = tcp_timers (timers w) + 1 ∧
    tcpip_tcp_timer_active (timers w') = tcpip_tcp_timer_active (timers w) ∧
    tcp_pcbs_exist w' = tcp_pcbs_exist w).
Proof.
  intros [Ho Hm]. apply runs_lift.
  eapply runs_mono; [apply (sys_timeout_at (clock (timers w))); rewrite ?due_now; try done;
    [apply near_now|unfold timeo_available; by rewrite Hm]|].
  cbv zeta. intros [] p (Hd & Hi & Hck & Ha & _ & Hmem). unfold steady. rewrite !part_get_set, tcp_pcbs_exist_set.
  split_and!; [|by rewrite Hmem, Hm|by rewrite (tcp_timers_inserted _ _ _ _ Hi)|done|done].
  rewrite Hck. eapply inserted_ordered; [|done|exact Hi]. unfold near. rewrite Hd, due_now. done.
Qed.

Lemma tcp_timer_needed_runs w : steady w → timer_flag (timers w) →
  runs tcp_timer_needed w (λ _ w', tcp_pcbs_exist w = true → tcp_timers (timers w') = 1).
Proof.
  intros Hs Hf. unfold timer_flag in Hf. unfold tcp_timer_needed. apply runs_bind, runs_gets. apply runs_bind, runs_lift, runs_gets.
  rewrite part_set_get. destruct (tcpip_tcp_timer_active (timers w)) eqn:Ea; cbn [negb andb]; [by apply runs_ret|].
  destruct (tcp_pcbs_exist w) eqn:En; [|by apply runs_ret].
  apply runs_bind, runs_lift, runs_modify. eapply runs_mono; [apply arm_spec|].
  { unfold steady. rewrite part_get_set. exact Hs. }
  intros [] w' (Hs' & Hc & _) _. rewrite part_get_set in Hc. rewrite Hc. unfold tcp_timers in *. simpl in *. lia.
Qed.

(** *** From one call to the next *)

Lemma zcount_timeout_insert (g : sys_timeo → bool) t l : zcount g (timeout_insert t l) = zcount g l + Z.b2z (g t).
Proof.
  assert (∀ t' l', zcount g (timeout_insert_after t (t' :: l')) = zcount g (t' :: l') + Z.b2z (g t)) as H.
  { intros t' l'. revert t'. induction l' as [|n l' IH]; intros t'; [cbn [timeout_insert_after zcount]; lia|].
    change (timeout_insert_after t (t' :: n :: l')) with
      (if TIME_LESS_THAN (t_time t) (t_time n) then t' :: t :: n :: l' else t' :: timeout_insert_after t (n :: l')).
    specialize (IH n). case_match; cbn [zcount] in *; lia. }
  destruct l as [|t' l]; [cbn [timeout_insert zcount]; lia|]. unfold timeout_insert. case_match; [cbn [zcount]; lia|apply H].
Qed.
Lemma timeout_abs_count t hd a p : yields (sys_timeout_abs t hd a) p (λ _ p',
  tcp_timers p' = tcp_timers p + Z.b2z (bool_decide (hd = Some H_tcpip_tcp_timer)) ∧ tcpip_tcp_timer_active p' = tcpip_tcp_timer_active p).
Proof.
  unfold sys_timeout_abs. apply yields_bind. eapply (yields_mono _ _ (λ _ p', next_timeout p' = next_timeout p ∧
    tcpip_tcp_timer_active p' = tcpip_tcp_timer_active p)).
  { unfold yields, memp_malloc_timeout. by destruct (timeo_mem p) as [|[]]. }
  intros ok p1 [El Ea]. apply yields_bind, yields_assert. intros _. apply yields_modify. split; [|exact Ea].
  unfold tcp_timers. simpl. by rewrite zcount_timeout_insert, El.
Qed.
Lemma timeout_count msecs hd a p : yields (sys_timeout msecs hd a) p (λ _ p',
  tcp_timers p' = tcp_timers p + Z.b2z (bool_decide (hd = Some H_tcpip_tcp_timer)) ∧ tcpip_tcp_timer_active p' = tcpip_tcp_timer_active p).
Proof. unfold sys_timeout. apply yields_bind, yields_assert. intros _. apply yields_bind, yields_gets, timeout_abs_count. Qed.

(** What the rest of the stack does: connections go and other timers come and go; a
    block is put on a list of connections, after which [TCP_REG] calls
    [tcp_timer_needed]. *)
Inductive stack_step : W → W → Prop :=
  | ss_other w w' : tcp_timers (timers w') = tcp_timers (timers w) →
      tcpip_tcp_timer_active (timers w') = tcpip_tcp_timer_active (timers w) →
      (tcp_pcbs_exist w' = true → tcp_pcbs_exist w = true) → stack_step w w'
  | ss_register w w1 w2 : timers w1 = timers w → tcp_timer_needed w1 = Val (tt, w2) → stack_step w w2.
(** Steps of the stack, and calls of [sys_check_timeouts]. *)
Inductive timer_step : W → W → Prop :=
  | ts_stack w w' : stack_step w w' → timer_step w w'
  | ts_check fuel w w' : sys_check_timeouts fuel w = Val (tt, w') → timer_step w w'.
(** The timer functions of the rest of the stack do nothing else. *)
Definition timer_functions_step : Prop :=
  (∀ w, yields tcp_tmr w (λ _, star stack_step w)) ∧ (∀ a w, yields (cyclic_handler a) w (λ _, star stack_step w)) ∧
  (∀ f a w, yields (other_timer f a) w (λ _, star stack_step w)).

(** Pending once if the flag says so, and then at the latest when there is a connection. *)
Definition armed w : Prop := timer_flag (timers w) ∧ (tcp_pcbs_exist w = true → tcpip_tcp_timer_active (timers w) = true).
(** Taken off the list to be called. *)
Definition firing w : Prop := tcp_timers (timers w) = 0 ∧ tcpip_tcp_timer_active (timers w) = true.

Lemma timer_needed_yields w : yields tcp_timer_needed w (λ _ w',
  if tcpip_tcp_timer_active (timers w) then w' = w
  else if tcp_pcbs_exist w then tcp_timers (timers w') = tcp_timers (timers w) + 1 ∧ tcpip_tcp_timer_active (timers w') = true
  else w' = w).
Proof.
  unfold tcp_timer_needed. apply yields_bind, yields_gets. apply yields_bind, yields_gets_lift.
  destruct (tcpip_tcp_timer_active (timers w)) eqn:Ea; cbn [negb andb]; [by apply yields_ret|].
  destruct (tcp_pcbs_exist w); [|by apply yields_ret]. apply yields_bind, yields_lift, yields_modify.
  apply (yields_part _ _ (λ _ p', tcp_timers p' = tcp_timers (timers w) + 1 ∧ tcpip_tcp_timer_active p' = true)). rewrite part_get_set.
  eapply yields_mono; [apply timeout_count|]. intros [] p' [Hc Ha]. rewrite bool_decide_true in Hc by done. done.
Qed.
Lemma armed_step w w' : armed w → stack_step w w' → armed w'.
Proof.
  intros [Hf Hn] Hs. destruct Hs as [w w' Hc Ha Hp|w w1 w2 Et Hrun].
  - unfold armed, timer_flag. rewrite Hc, Ha. split; [exact Hf|auto].
  - pose proof (timer_needed_yields w1) as H. unfold yields in H. rewrite Hrun, Et in H. unfold timer_flag in Hf.
    destruct (tcpip_tcp_timer_active (timers w)) eqn:Ea; [subst; unfold armed, timer_flag; by rewrite Et, Ea|].
    destruct (tcp_pcbs_exist w1) eqn:En; [|subst; unfold armed, timer_flag; by rewrite Et, Ea, En].
    destruct H as [Hc Ha']. unfold armed, timer_flag. rewrite Ha', Hc, Hf. done.
Qed.
Lemma firing_step w w' : firing w → stack_step w w' → firing w'.
Proof.
  intros [Hf Ha] Hs. destruct Hs as [w w' Hc Ha' _|w w1 w2 Et Hrun].
  - unfold firing. by rewrite Hc, Ha'.
  - pose proof (timer_needed_yields w1) as H. unfold yields in H. rewrite Hrun, Et, Ha in H. subst. unfold firing. by rewrite Et.
Qed.
Lemma star_yields {A} (I : W → Prop) (m : M W A) w : (∀ w w', I w → stack_step w w' → I w') →
  yields m w (λ _, star stack_step w) → I w → yields m w (λ _, I).
Proof. intros HI Hm Hw. eapply yields_mono; [exact Hm|]. intros a w' Hs. by eapply (star_invariant stack_step I w). Qed.

Section functions.
Hypothesis (Hfun : timer_functions_step).

Lemma fire_yields w : firing w → yields tcpip_tcp_timer w (λ _ w', armed w' ∧ tcp_timers (timers w') = Z.b2z (tcp_pcbs_exist w')).
Proof.
  intros Hw. unfold tcpip_tcp_timer. eapply yields_then; [by apply (star_yields firing _ _ firing_step (proj1 Hfun w))|].
  intros [] w1 [Hc Ha]. apply yields_bind, yields_gets. destruct (tcp_pcbs_exist w1) eqn:En.
  - apply yields_lift. eapply yields_mono; [apply timeout_count|]. intros [] p' [Hc' Ha']. rewrite bool_decide_true in Hc' by done.
    unfold armed, timer_flag. rewrite !part_get_set, tcp_pcbs_exist_set, En, Hc', Hc, Ha', Ha. done.
  - apply yields_lift, yields_modify. unfold armed, timer_flag. rewrite !part_get_set, tcp_pcbs_exist_set, En. done.
Qed.
Lemma armed_timeout t hd a w : armed w → hd ≠ Some H_tcpip_tcp_timer → yields (lift (sys_timeout_abs t hd a)) w (λ _, armed).
Proof.
  intros [Hf Hn] Hh. apply yields_lift. eapply yields_mono; [apply timeout_abs_count|]. intros [] p' [Hc Ha].
  rewrite bool_decide_false in Hc by done. unfold armed, timer_flag in *. rewrite !part_get_set, tcp_pcbs_exist_set, Ha.
  split; [simpl in Hc; lia|exact Hn].
Qed.
Lemma call_armed t rest w :
  armed w → next_timeout (timers w) = t :: rest →
  yields (call_timer (t_h t) (t_arg t)) (part_set ((timers w) <| next_timeout := rest |> <| current_timeout_due_time := t_time t |>) w) (λ _, armed).
Proof.
  intros [Hf Hn] El. set (w1 := part_set _ w). unfold timer_flag, tcp_timers in Hf. rewrite El in Hf. cbn [zcount] in Hf.
  assert (timers w1 = (timers w) <| next_timeout := rest |> <| current_timeout_due_time := t_time t |>) as E1 by apply part_get_set.
  destruct (decide (t_h t = Some H_tcpip_tcp_timer)) as [Eh|Eh].
  { rewrite Eh. eapply yields_mono; [apply fire_yields|by intros ? ? [? _]]. rewrite bool_decide_true in Hf by done.
    unfold firing, tcp_timers. rewrite E1. simpl. pose proof (zcount_nonneg (λ t, bool_decide (t_h t = Some H_tcpip_tcp_timer)) rest).
    destruct (tcpip_tcp_timer_active (timers w)); simpl in Hf; [split; [lia|done]|lia]. }
  rewrite bool_decide_false in Hf by done. assert (armed w1) as H1.
  { unfold armed, timer_flag, tcp_timers. rewrite E1. unfold w1. rewrite tcp_pcbs_exist_set. split; [simpl in Hf |- *; lia|exact Hn]. }
  unfold call_timer. destruct (t_h t) as [[| |f]|]; [done| | |by apply yields_ret].
  - unfold lwip_cyclic_timer. eapply yields_then; [by apply (star_yields armed _ _ armed_step (proj1 (proj2 Hfun) _ w1))|].
    intros [] w2 H2. apply yields_bind, yields_gets_lift. apply yields_bind, yields_gets_lift. cbv zeta. case_match; by apply armed_timeout.
  - by apply (star_yields armed _ _ armed_step (proj2 (proj2 Hfun) _ _ w1)).
Qed.
Lemma check_armed fuel : ∀ now w, armed w → yields (check_timeouts_loop fuel now) w (λ _, armed).
Proof.
  induction fuel as [|fuel IH]; intros now w Hw; cbn [check_timeouts_loop]; apply yields_bind, yields_gets_lift;
    destruct (next_timeout (timers w)) as [|t rest] eqn:El; try by apply yields_ret.
  all: case_match; [by apply yields_ret|]. { done. } apply yields_bind, yields_lift, yields_modify.
  eapply yields_then; [by apply call_armed|]. intros [] w1 H1. by apply IH.
Qed.
Lemma timer_step_armed w w' : armed w → timer_step w w' → armed w'.
Proof.
  intros Hw Hs. revert Hw. destruct Hs as [w1 w2 Hs|fuel w1 w2 Hrun]; intros Hw; [by eapply armed_step|]. unfold sys_check_timeouts in Hrun.
  pose proof (check_armed fuel (clock (timers w1)) w1 Hw) as H. unfold yields in H. unfold mbnd at 1, lift at 1, sys_now, gets in Hrun.
  rewrite part_set_get in Hrun. by rewrite Hrun in H.
Qed.

(** C31: the TCP timer runs while it is needed.  From a state without connections and
    without the timer, through any sequence of connections that come and go,
    [tcp_timer_needed] being called whenever one is put on a list, other timers, and
    calls of [sys_check_timeouts]: the timer is pending once if
    [tcpip_tcp_timer_active] is set and not at all otherwise; and while there is a
    connection it is pending.  Without connections it may still be pending, until it
    fires: when its function returns, it is pending again exactly if there is a
    connection then.  And [tcp_timer_needed] returns, with the timer pending if there
    is a connection, whenever a timer can be allocated. *)
Theorem tcp_timer_while_needed w0 w :
  tcp_timers (timers w0) = 0 → tcpip_tcp_timer_active (timers w0) = false → tcp_pcbs_exist w0 = false → star timer_step w0 w →
  tcp_timers (timers w) = Z.b2z (tcpip_tcp_timer_active (timers w)) ∧
  (tcp_pcbs_exist w = true → tcp_timers (timers w) = 1) ∧
  (∀ t rest, next_timeout (timers w) = t :: rest → t_h t = Some H_tcpip_tcp_timer →
     yields tcpip_tcp_timer (part_set ((timers w) <| next_timeout := rest |> <| current_timeout_due_time := t_time t |>) w) (λ _ w',
       tcp_timers (timers w') = Z.b2z (tcp_pcbs_exist w'))) ∧
  (∀ w1, timers w1 = timers w → steady w1 →
     runs tcp_timer_needed w1 (λ _ w2, tcp_pcbs_exist w1 = true → tcp_timers (timers w2) = 1)).
Proof.
  intros Hc Ha Hp Hs. assert (armed w) as [Hf Hn].
  { apply (star_invariant timer_step armed w0); [apply timer_step_armed| |exact Hs]. unfold armed, timer_flag. by rewrite Hc, Ha, Hp. }
  split; [exact Hf|]. unfold timer_flag in Hf. split; [intros Hx; by rewrite Hf, Hn|]. split.
  - intros t rest El Eh. eapply yields_mono; [apply fire_yields|by intros ? ? [_ ?]]. unfold tcp_timers in Hf. rewrite El in Hf.
    cbn [zcount] in Hf. rewrite bool_decide_true in Hf by done. unfold firing, tcp_timers. rewrite part_get_set. simpl.
    pose proof (zcount_nonneg (λ t, bool_decide (t_h t = Some H_tcpip_tcp_timer)) rest).
    destruct (tcpip_tcp_timer_active (timers w)); simpl in Hf; [split; [lia|done]|lia].
  - intros w1 Et Hs1. apply tcp_timer_needed_runs; [done|]. unfold timer_flag. by rewrite Et.
Qed.
End functions.
End check.

(** ** Rebasing *)

Lemma due_shift n0 now t base :
  near n0 t → near n0 base → - 2 ^ 31 < due n0 t - due n0 base < 2 ^ 31 →
  due now (u32 (u32 (t - base) + now)) = due n0 t - due n0 base.
Proof.
  intros Ht Hb Hd. destruct (due_mod n0 t) as [k1 E1], (due_mod n0 base) as [k2 E2].
  apply due_unique; [lia|]. unfold u32.
  pose proof (Z_div_mod_eq_full (t - base) (2 ^ 32)). pose proof (Z_div_mod_eq_full ((t - base) mod 2 ^ 32 + now) (2 ^ 32)).
  eexists (k1 - k2 - (t - base) / 2 ^ 32 - ((t - base) mod 2 ^ 32 + now) / 2 ^ 32). lia.
Qed.

(** after a pause of any length, [sys_restart_timeouts] makes the first timer
    due now and keeps the distances between the timers, their order included.
    [n0] is a time before the pause at which no timer was overdue. *)
Theorem sys_restart_timeouts_spec n0 w :
  ordered n0 (next_timeout w) → Forall (λ t, 0 ≤ due n0 (t_time t)) (next_timeout w) →
  runs sys_restart_timeouts w (λ _ w', clock w' = clock w ∧ ordered (clock w) (next_timeout w') ∧
    match next_timeout w with
    | [] => next_timeout w' = []
    | t0 :: _ => Forall2 (λ t t', due (clock w) (t_time t') = due n0 (t_time t) - due n0 (t_time t0) ∧
                   t_h t' = t_h t ∧ t_arg t' = t_arg t) (next_timeout w) (next_timeout w')
    end).
Proof.
  intros Ho Hpos. unfold sys_restart_timeouts. apply runs_bind, runs_gets.
  destruct (next_timeout w) as [|t0 l] eqn:E.
  { apply runs_ret. rewrite E. split_and!; [done|apply ordered_nil|done]. }
  apply runs_bind, runs_gets, runs_modify. cbn [next_timeout clock]. split; [done|].
  set (f := λ t, t <| t_time := u32 (u32 (t_time t - t_time t0) + clock w) |>).
  destruct (ordered_cons _ _ _ Ho) as (Hn0 & Hl & _). apply Forall_cons in Hpos as Hp. destruct Hp as [Hp0 _].
  assert (∀ t, t ∈ t0 :: l → due (clock w) (t_time (f t)) = due n0 (t_time t) - due n0 (t_time t0) ∧
            0 ≤ due n0 (t_time t) - due n0 (t_time t0) < 2 ^ 30) as Hf.
  { intros t Ht. destruct Ho as [Hn _]. rewrite Forall_forall in Hn. specialize (Hn t Ht).
    assert (due n0 (t_time t0) ≤ due n0 (t_time t)) as Hle.
    { apply elem_of_cons in Ht as [->|Ht]; [done|]. rewrite Forall_forall in Hl. by apply Hl. }
    unfold near in Hn, Hn0. split; [|lia]. unfold f. cbn [t_time]. apply due_shift; [done|done|lia]. }
  split.
  - split.
    + apply Forall_map. rewrite Forall_forall. intros t Ht. destruct (Hf t Ht) as [Hd ?]. unfold near, compose. lia.
    + fold f. destruct Ho as [_ Hs]. clear - Hs Hf. revert Hf. generalize (t0 :: l) Hs. intros l' Hs'.
      induction Hs' as [|t l' _ IH Ht]; intros Hf; [constructor|]. cbn [map]. constructor.
      * apply IH. intros x Hx. apply Hf. by right.
      * apply Forall_map. rewrite Forall_forall in Ht |- *. intros x Hx. unfold earlier, compose.
        destruct (Hf t ltac:(by left)) as [-> _]. destruct (Hf x ltac:(by right)) as [-> _].
        specialize (Ht x Hx). unfold earlier in Ht. lia.
  - change (next_timeout _) with (f <$> t0 :: l). apply Forall2_fmap_r, Forall_Forall2_diag.
    rewrite Forall_forall. intros t Ht. destruct (Hf t Ht) as [Hd _]. done.
Qed.

(** ** A world with a log, and the instances *)

Record logged := mk_logged { lg_timers : timeouts; lg_pcbs : bool; lg_log : list positive }.
#[export] Program Instance part_logged : Part timeouts logged := {
  part_get := lg_timers; part_set p w := mk_logged p (lg_pcbs w) (lg_log w)
}.
Next Obligation. done. Qed.
Next Obligation. by intros []. Qed.
Next Obligation. done. Qed.
#[export] Program Instance logged_client : timer_client logged := {
  tcp_tmr := ret tt;
  tcp_pcbs_exist := lg_pcbs;
  cyclic_interval_ms _ := 1000;
  cyclic_handler _ := ret tt;
  other_timer f _ := modify (λ w, mk_logged (lg_timers w) (lg_pcbs w) (lg_log w ++ [f]))
}.
Next Obligation. done. Qed.

(** The clock is about to wrap: 16 ms ago a timer was due, one is due now, one in 20 ms. *)
Definition ex_timeouts : timeouts :=
  mk_timeouts [mk_sys_timeo 4294967270 (Some (H_other 1)) None; mk_sys_timeo 4294967286 (Some H_tcpip_tcp_timer) None;
               mk_sys_timeo 10 (Some (H_other 2)) None] 0 true 4294967286 [].
Definition ex_logged : logged := mk_logged ex_timeouts true [].

Lemma ex_ordered : ordered (clock ex_timeouts) (next_timeout ex_timeouts).
Proof. split; repeat constructor; unfold near, earlier; by vm_compute. Qed.

Lemma sys_timeout_spec_witness :
  runs (sys_timeout 25 (Some (H_other 3)) None) ex_timeouts (λ _ w',
    let t := mk_sys_timeo 15 (Some (H_other 3)) None in
    due 4294967286 (t_time t) = 25 ∧ inserted 4294967286 t (next_timeout ex_timeouts) (next_timeout w') ∧
    ordered 4294967286 (next_timeout w') ∧ clock w' = 4294967286).
Proof. exact (sys_timeout_spec 25 (Some (H_other 3)) None ex_timeouts ex_ordered ltac:(lia) I). Defined.

Lemma sys_timeouts_sleeptime_spec_witness :
  runs sys_timeouts_sleeptime ex_timeouts (λ n w', w' = ex_timeouts ∧
    ∃ t, t ∈ next_timeout ex_timeouts ∧ n = Z.max 0 (due 4294967286 (t_time t)) ∧
      ∀ x, x ∈ next_timeout ex_timeouts → due 4294967286 (t_time t) ≤ due 4294967286 (t_time x)).
Proof. exact (sys_timeouts_sleeptime_spec ex_timeouts ex_ordered). Defined.

Lemma ex_quiet_other now f a : quiet now (calm now) (call_timer (W := logged) (Some (H_other f)) a).
Proof. intros w Hw Ho. apply runs_modify. by split_and!. Qed.
Lemma ex_quiet_tcp now : quiet now (calm now) (call_timer (W := logged) (Some H_tcpip_tcp_timer) None).
Proof. apply tcpip_tcp_timer_quiet. intros w Hw Ho. by apply runs_ret. Qed.

Lemma sys_check_timeouts_spec_witness :
  sys_check_timeouts 2 ex_logged = fire_all (firstn 2 (next_timeout ex_timeouts)) ex_logged ∧
  runs (sys_check_timeouts 2) ex_logged (λ _ w', calm 4294967286 w' ∧
    ordered 4294967286 (next_timeout (lg_timers w')) ∧ expired 4294967286 (next_timeout (lg_timers w')) = []).
Proof.
  assert (expired 4294967286 (next_timeout ex_timeouts) = firstn 2 (next_timeout ex_timeouts)) as E by by vm_compute.
  rewrite <- E. pose proof (sys_check_timeouts_spec (calm 4294967286) 2 ex_logged) as H. cbv zeta in H.
  change (clock (part_get ex_logged)) with 4294967286 in H.
  change (next_timeout (part_get ex_logged)) with (next_timeout ex_timeouts) in H. rewrite E in H |- *.
  apply H; [intros; by apply calm_set|by vm_compute|apply ex_ordered| |done].
  apply Forall_cons. split; [apply ex_quiet_other|]. apply Forall_cons. split; [apply ex_quiet_tcp|constructor].
Defined.

(** A connection is opened at time 1000; at 1250 the timer fires and is started again;
    the connection goes, and at 1500 the timer fires for the last time. *)
Definition lg_with (p : timeouts) (pcbs : bool) : logged := mk_logged p pcbs [].
Definition ex_idle : logged := lg_with (mk_timeouts [] 0 false 1000 []) false.
Definition ex_open : logged := lg_with (mk_timeouts [mk_sys_timeo 1250 (Some H_tcpip_tcp_timer) None] 0 true 1000 []) true.
Definition ex_ticked : logged := lg_with (mk_timeouts [mk_sys_timeo 1500 (Some H_tcpip_tcp_timer) None] 1250 true 1250 []) true.
Definition ex_done : logged := lg_with (mk_timeouts [] 1500 false 1500 []) false.
Lemma logged_functions_step : timer_functions_step (W := logged).
Proof.
  split; [intros w; apply yields_ret, star_refl|]. split; [intros a w; apply yields_ret, star_refl|]. intros f a w. apply yields_modify. eapply star_step; [apply star_refl|]. by apply ss_other.
Qed.
Lemma ex_opened : star timer_step ex_idle ex_open.
Proof. eapply star_cons; [|apply star_refl]. apply ts_stack, (ss_register _ (lg_with (lg_timers ex_idle) true)); [done|vm_compute; reflexivity]. Qed.
Lemma ex_fired : star timer_step ex_open ex_ticked.
Proof.
  eapply star_cons; [apply ts_stack, (ss_other _ (lg_with ((lg_timers ex_open) <| clock := 1250 |>) true)); done|].
  eapply star_cons; [|apply star_refl]. apply (ts_check 5). vm_compute. reflexivity.
Qed.
Lemma ex_ended : star timer_step ex_ticked ex_done.
Proof.
  eapply star_cons; [apply ts_stack, (ss_other _ (lg_with ((lg_timers ex_ticked) <| clock := 1500 |>) false)); done|].
  eapply star_cons; [|apply star_refl]. apply (ts_check 5). vm_compute. reflexivity.
Qed.
Lemma tcp_timer_while_needed_witness :
  tcp_timers (lg_timers ex_ticked) = 1 ∧ tcp_timers (lg_timers ex_done) = 0 ∧
  yields tcpip_tcp_timer (lg_with (mk_timeouts [] 1500 true 1500 []) true) (λ _ w', tcp_timers (lg_timers w') = Z.b2z (lg_pcbs w')) ∧
  runs tcp_timer_needed (lg_with (lg_timers ex_done) true) (λ _ w', true = true → tcp_timers (lg_timers w') = 1).
Proof.
  destruct (tcp_timer_while_needed logged_functions_step ex_idle ex_ticked) as (_ & H1 & _); [done..|by eapply star_trans; [apply ex_opened|apply ex_fired]|].
  destruct (tcp_timer_while_needed logged_functions_step ex_idle ex_done) as (H2 & _ & _ & H4); [done..| |].
  { eapply star_trans; [apply ex_opened|]. eapply star_trans; [apply ex_fired|apply ex_ended]. }
  set (w := lg_with ((lg_timers ex_ticked) <| clock := 1500 |>) true).
  destruct (tcp_timer_while_needed logged_functions_step ex_idle w) as (_ & _ & H3 & _); [done..| |].
  { eapply star_step; [eapply star_trans; [apply ex_opened|apply ex_fired]|]. by apply ts_stack, ss_other. }
  split; [by apply H1|]. split; [exact H2|]. split.
  - exact (H3 _ [] eq_refl eq_refl).
  - apply (H4 (lg_with (lg_timers ex_done) true) eq_refl). split; [|done]. split; constructor.
Defined.

Definition ex_paused : timeouts := ex_timeouts <| clock := 500000 |>.
Lemma sys_restart_timeouts_spec_witness :
  runs sys_restart_timeouts ex_paused (λ _ w', clock w' = 500000 ∧ ordered 500000 (next_timeout w') ∧
    map t_time (next_timeout w') = [500000; 500016; 500036]).
Proof.
  assert (runs sys_restart_timeouts ex_paused (λ _ w', map t_time (next_timeout w') = [500000; 500016; 500036])) as H
    by by vm_compute.
  assert (ordered 4294967200 (next_timeout ex_paused)) as Ho
    by (split; repeat constructor; unfold near, earlier; by vm_compute).
  pose proof (sys_restart_timeouts_spec 4294967200 ex_paused Ho) as R. unfold runs in *.
  destruct (sys_restart_timeouts _) as [[[] w']|]; [|done].
  destruct R as (R1 & R2 & _); [repeat constructor; by vm_compute|]. by split_and!.
Defined.
