(* ===== verification/Header.v ===== *)
(** * Protocol headers in packets

    The fields of the packed header structs ([include/lwip/prot/*.h]): reads and
    writes of 8, 16 and 32 bits at an offset from a data pointer, in the
    machine's byte order, and what they do to a packet. *)

From S2P Require Import Prelude Mbox Heap HeapFacts Pbuf Packet PbufFacts PbufChain Def.

Implicit Types s : store.

Definition rd8 (s : store) (p : option ptr) (o : Z) : res Z :=
  let* d := mem_read s p o 1 in match d with [a] => Val a | _ => Err Undefined end.
Definition rd16 (s : store) (p : option ptr) (o : Z) : res Z :=
  let* d := mem_read s p o 2 in match d with [a; b] => Val (a + 256 * b) | _ => Err Undefined end.
Definition rd32 (s : store) (p : option ptr) (o : Z) : res Z :=
  let* d := mem_read s p o 4 in match d with [a; b; c; d] => Val (word a b c d) | _ => Err Undefined end.

Definition wr8 (p : option ptr) (o v : Z) : M store unit := mem_write p o [u8 v].
Definition wr16 (p : option ptr) (o v : Z) : M store unit := mem_write p o [u16 v mod 256; u16 v / 256].
Definition wr32 (p : option ptr) (o v : Z) : M store unit := mem_write p o (addr_bytes (u32 v)).

(** [p->payload], [p->len], [p->tot_len] *)
Definition payload_of (p : option loc) : M store (option ptr) :=
  ask (λ s, let* l := deref p in let* c := get_pbuf s l in Val (pb_payload c)).
Definition len_of (p : option loc) : M store Z :=
  ask (λ s, let* l := deref p in let* c := get_pbuf s l in Val (pb_len c)).
Definition tot_len_of (p : option loc) : M store Z :=
  ask (λ s, let* l := deref p in let* c := get_pbuf s l in Val (pb_tot_len c)).

(** ** Reading fields of known bytes *)

Section read.
Context (s : store) (p : option ptr) (n : Z) (d : list Z).
Hypothesis (Hrd : mem_read s p 0 n = Val d) (Hd : zlen d = n).

Lemma rd8_at o a : 0 ≤ o → o + 1 ≤ n → zslice o 1 d = [a] → rd8 s p o = Val a.
Proof. intros Ho Hn Ha. unfold rd8. by rewrite (mem_read_sub _ _ _ _ _ _ Hrd), Ha by lia. Qed.
Lemma rd16_at o a b : 0 ≤ o → o + 2 ≤ n → zslice o 2 d = [a; b] → rd16 s p o = Val (a + 256 * b).
Proof. intros Ho Hn Ha. unfold rd16. by rewrite (mem_read_sub _ _ _ _ _ _ Hrd), Ha by lia. Qed.
Lemma rd32_at o a b c e : 0 ≤ o → o + 4 ≤ n → zslice o 4 d = [a; b; c; e] → rd32 s p o = Val (word a b c e).
Proof. intros Ho Hn Ha. unfold rd32. by rewrite (mem_read_sub _ _ _ _ _ _ Hrd), Ha by lia. Qed.
End read.

(** ** Packets *)

Lemma packet_payload s p c cs :
  packet s p (c :: cs) → mem_read s (pb_payload (c_pbuf c)) 0 (zlen (c_data c)) = Val (c_data c).
Proof. intros [(_ & _ & [Hl Hr] & _) _ _ _]. by rewrite Hl. Qed.

Lemma runs_head {A} s p c cs (f : pbuf → A) Q :
  packet s p (c :: cs) → Q (f (c_pbuf c)) s →
  runs (ask (λ s, let* l := deref p in let* c := get_pbuf s l in Val (f c))) s Q.
Proof.
  intros Hpk HQ. pose proof (packet_seg _ _ _ Hpk) as (-> & Hl & _).
  eapply runs_ask; [|exact HQ]. simpl. unfold get_pbuf. rewrite Hl. done.
Qed.

(** The bytes [bs] written into the first pbuf at [o]. *)
Definition overwrite (o : Z) (bs : list Z) (c : cell) : cell :=
  mk_cell (c_loc c) (c_pbuf c) (zsplice o bs (c_data c)).

Lemma packet_write s p c cs o bs :
  packet s p (c :: cs) → Forall own_data (c :: cs) → 0 ≤ o → o + zlen bs ≤ zlen (c_data c) → 0 < zlen bs →
  runs (mem_write (pb_payload (c_pbuf c)) o bs) s (λ _ s',
    packet s' p (overwrite o bs c :: cs) ∧ pbufs s' = pbufs s ∧ same_rest s s' ∧
    tcpip_msgs s' = tcpip_msgs s ∧ (∀ b, b ≠ c_loc c → blocks s' !! b = blocks s !! b) ∧
    (∀ b, is_Some (blocks s !! b) ↔ is_Some (blocks s' !! b))).
Proof.
  intros Hpk [Hc Hown]%Forall_cons Ho Hn Hbs. pose proof (packet_payload _ _ _ _ Hpk) as Hrd.
  pose proof (packet_head_notin _ _ _ _ Hpk) as Hni. destruct (packet_head_len _ _ _ _ Hpk) as (Hlen & Htot & ? & ? & ?).
  eapply runs_mono; [apply (mem_write_read _ _ _ _ _ _ Hrd); lia|].
  intros [] s' (Hrd' & Hp' & a & b & Ha & Hb & ->). destruct Hc as (o' & Ho' & _).
  rewrite Ho' in Ha. injection Ha as <-. simpl in Hb.
  assert (zlen (zsplice o bs (c_data c)) = zlen (c_data c)) as Hl by (by apply zlen_zsplice).
  split; [|split; [done|split; [by split_and!|split; [done|split]]]]; simpl.
  - destruct Hpk as [(-> & Hpl & _ & Hs) [_ Htl] Hz Hok]. split.
    + simpl. split_and!; [done|done| |].
      * split; [simpl; congruence|]. simpl. rewrite Hlen. exact Hrd'.
      * eapply lseg_frame; [exact Hs|done|]. rewrite own_data_blocks by done. intros x Hx. simpl.
        rewrite lookup_insert_ne; [done|]. by intros <-.
    + simpl. split; [|done]. rewrite total_cons. simpl. rewrite Hl. lia.
    + rewrite total_cons in *. simpl. lia.
    + apply Forall_cons in Hok as [? ?]. by constructor.
  - intros x Hx. by rewrite lookup_insert_ne.
  - intros x. destruct (decide (x = c_loc c)) as [->|]; [|by rewrite lookup_insert_ne].
    rewrite lookup_insert_eq, Hb. split; by eexists.
Qed.

(** [n] bytes of the memory before the payload become its first bytes. *)
Definition retreat (n : Z) (junk : list Z) (c : cell) : cell :=
  mk_cell (c_loc c)
    ((c_pbuf c) <| pb_payload := (λ a, ptr_add a (- n)) <$> pb_payload (c_pbuf c) |>
       <| pb_len := pb_len (c_pbuf c) + n |> <| pb_tot_len := pb_tot_len (c_pbuf c) + n |>)
    (junk ++ c_data c).

(** There are [n] bytes between the struct and the payload of [c]. *)
Record headroom s (n : Z) (c : cell) : Prop := {
  hr_place : ∃ o b, pb_payload (c_pbuf c) = Some (mk_ptr (c_loc c) o) ∧ SIZEOF_STRUCT_PBUF + n ≤ o ∧
    blocks s !! c_loc c = Some b ∧ o + zlen (c_data c) ≤ zlen b;
  hr_type : Z.land (pb_type_internal (c_pbuf c)) PBUF_TYPE_FLAG_STRUCT_DATA_CONTIGUOUS ≠ 0
}.

Lemma headroom_own s n c : 0 ≤ n → headroom s n c → own_data c.
Proof. intros Hn [(o & b & Ho & Hle & _) _]. exists o. split; [done|lia]. Qed.

Lemma retreat_own s n junk c : 0 ≤ n → headroom s n c → own_data (retreat n junk c).
Proof.
  intros Hn [(o & b & Ho & Hle & _) _]. exists (o + - n). simpl. rewrite Ho. split; [done|lia].
Qed.

Lemma pbuf_add_header_spec s p c cs n :
  packet s p (c :: cs) → headroom s n c → 0 < n → total (c :: cs) + n < 2 ^ 16 →
  runs (pbuf_add_header p n) s (λ r s', r = 0 ∧ ∃ junk, zlen junk = n ∧
    s' = s <| pbufs := <[c_loc c := c_pbuf (retreat n junk c)]> (pbufs s) |> ∧
    packet s' p (retreat n junk c :: cs)).
Proof.
  intros Hpk [(o & b' & Ho & Hroom & Hb & Hend) Hty] Hn Hz. unfold SIZEOF_STRUCT_PBUF in Hroom.
  destruct (packet_head_len _ _ _ _ Hpk) as (Hlen & Htot & ? & ? & ?). rewrite total_cons in Hz.
  pose proof (packet_seg _ _ _ Hpk) as (-> & Hl & [_ Hrd] & _). rewrite Hlen in Hrd.
  assert (zslice o (zlen (c_data c)) b' = c_data c) as Hdata.
  { rewrite Ho, (mem_read_block _ _ b') in Hrd by (simpl; done || lia). injection Hrd as Hrd.
    simpl in Hrd. by rewrite Z.add_0_r in Hrd. }
  unfold pbuf_add_header, pbuf_add_header_impl. rewrite (proj2 (Z.ltb_ge _ _)), (proj2 (Z.eqb_neq n 0)) by lia.
  apply runs_bind. eapply runs_get_pbuf; [done|]. rewrite (u16_small n) by (bounds; lia).
  rewrite (u16_small (n + _)) by (bounds; lia). rewrite (proj2 (Z.ltb_ge _ _)) by lia.
  rewrite (proj2 (Z.eqb_neq _ 0)) by done. cbn [negb]. rewrite Ho. cbn [fmap option_fmap option_map ptr_add off].
  rewrite (proj2 (Z.ltb_ge _ _)) by (unfold SIZEOF_STRUCT_PBUF; simpl; lia).
  apply runs_bind. eapply runs_set_pbuf; [done|]. apply runs_ret. split; [done|].
  exists (zslice (o - n) n b'). split; [apply zlen_zslice; lia|]. rewrite !u16_small by (bounds; lia).
  assert (∀ q, q = c_pbuf (retreat n (zslice (o - n) n b') c) →
    packet (s <| pbufs := <[c_loc c := q]> (pbufs s) |>) (Some (c_loc c)) (retreat n (zslice (o - n) n b') c :: cs)) as Hpk'.
  { intros q ->. unfold retreat at 2. apply packet_set_head with (c := c); [done|done| | | |].
    - split; simpl; [rewrite zlen_app, zlen_zslice; lia|]. rewrite Ho. simpl.
      rewrite (mem_read_block _ _ b') by (simpl; done || lia). f_equal. simpl. rewrite Z.add_0_r.
      replace (pb_len (c_pbuf c) + n) with (n + zlen (c_data c)) by lia.
      replace (o + - n) with (o - n) by lia.
      rewrite zslice_add by lia. f_equal. replace (o - n + n) with o by lia. done.
    - simpl. rewrite zlen_app, zlen_zslice by lia. lia.
    - rewrite zlen_app, zlen_zslice by lia. lia.
    - simpl. pose proof (packet_cells _ _ _ Hpk) as Hc. by inversion Hc. }
  split; [|apply Hpk'].
  - unfold retreat. simpl. rewrite Ho. done.
  - unfold retreat. simpl. rewrite Ho. done.
Qed.

(** ** Writing a header in place *)

(** Field by field: the packet's first pbuf holds a header of [n] bytes, [d],
    and [rest], and the heap is [s0] but for that pbuf's block. *)
Record hdr_state (n : Z) (s0 s : store) (p : option loc) (c : cell) (cs : list cell) (d rest : list Z) : Prop := {
  hs_packet : packet s p (mk_cell (c_loc c) (c_pbuf c) (d ++ rest) :: cs);
  hs_len : zlen d = n;
  hs_own : Forall own_data (c :: cs);
  hs_pbufs : pbufs s = pbufs s0;
  hs_rest : same_rest s0 s;
  hs_msgs : tcpip_msgs s = tcpip_msgs s0;
  hs_blocks : ∀ b, b ≠ c_loc c → blocks s !! b = blocks s0 !! b;
  hs_alloc : ∀ b, is_Some (blocks s0 !! b) ↔ is_Some (blocks s !! b)
}.

Lemma hdr_state_write n s0 s p c cs d rest o bs :
  hdr_state n s0 s p c cs d rest → 0 ≤ o → o + zlen bs ≤ n → 0 < zlen bs →
  runs (mem_write (pb_payload (c_pbuf c)) o bs) s (λ _ s', hdr_state n s0 s' p c cs (zsplice o bs d) rest).
Proof.
  intros [Hpk Hlen Hown Hp Hr Hm Hb Ha] Ho Hd Hbs. pose proof (zlen_nonneg rest).
  eapply runs_mono; [apply (packet_write s p _ cs o bs Hpk)|].
  - apply Forall_cons in Hown as [? ?]. by constructor.
  - done.
  - simpl. rewrite zlen_app. lia.
  - done.
  - intros [] s' (Hpk' & Hp' & Hr' & Hm' & Hb' & Ha'). split; try congruence.
    + unfold overwrite in Hpk'. simpl in Hpk'. unfold zsplice in Hpk'.
      rewrite ztake_app_le, zdrop_app_le in Hpk' by lia. unfold zsplice. by rewrite <- !app_assoc.
    + by rewrite zlen_zsplice by lia.
    + destruct Hr as (? & ? & ? & ?), Hr' as (? & ? & ? & ?). split_and!; congruence.
    + intros b Hne. rewrite <- Hb by done. by apply Hb'.
    + intros b. rewrite Ha. apply Ha'.
Qed.

Lemma htons_bytes x : is_u16 x → u16 (lwip_htons x) mod 256 = x / 256 ∧ u16 (lwip_htons x) / 256 = x mod 256.
Proof.
  intros Hx. rewrite htons_eq by (bounds; lia). bounds. rewrite u16_small by (bounds; Z.div_mod_to_equations; lia).
  split; Z.div_mod_to_equations; lia.
Qed.
