(* ===== verification/Frame.v ===== *)
(** * What an operation leaves alone

    [stable R m] says that whatever [m] does, the state after it is related by
    [R] to the state before it.  For a preorder [R] this follows from the parts
    of [m], and the tactic [stable_tac] finds the proof from the lemmas of the
    hint database [stable].  The relation [store_grows] is that of the operations
    on the heap: an address, once given out, is not given out again. *)

From S2P Require Import Prelude Mbox Heap Pbuf PbufData Header.

Definition stable {S A} (R : S → S → Prop) (m : M S A) : Prop := ∀ s, yields m s (λ _ s', R s s').

Section stable.
Context {S : Type} (R : S → S → Prop) `{HR : !PreOrder R}.

Lemma stable_ret {A} (a : A) : stable R (ret a).
Proof. intros s. apply yields_ret. reflexivity. Qed.
Lemma stable_fail {A} e : stable R (fail (A := A) e).
Proof. by intros s. Qed.
Lemma stable_bind {A B} (m : M S A) (f : A → M S B) : stable R m → (∀ a, stable R (f a)) → stable R (mbnd m f).
Proof.
  intros Hm Hf s. apply yields_bind. eapply yields_mono; [apply Hm|]. intros a s1 H1. simpl in H1.
  eapply yields_mono; [apply Hf|]. intros b s2 H2. simpl in H2. by etrans.
Qed.
Lemma stable_ask {A} (f : S → res A) : stable R (ask f).
Proof. intros s. apply yields_ask. intros a _. reflexivity. Qed.
Lemma stable_gets {A} (f : S → A) : stable R (gets f).
Proof. intros s. apply yields_gets. reflexivity. Qed.
Lemma stable_assert b : stable R (lwip_assert b).
Proof. intros s. unfold yields, lwip_assert. destruct b; simpl; [reflexivity|done]. Qed.
Lemma stable_error b : stable R (lwip_error b).
Proof. apply stable_assert. Qed.
Lemma stable_valid_ptr {A} (p : option A) : stable R (valid_ptr p).
Proof. destruct p; [apply stable_ret|apply stable_fail]. Qed.
Lemma stable_modify f : (∀ s, R s (f s)) → stable R (modify f).
Proof. intros Hf s. apply yields_modify, Hf. Qed.

Lemma stable_weaken (R' : S → S → Prop) {A} (m : M S A) : (∀ s s', R s s' → R' s s') → stable R m → stable R' m.
Proof. intros Hw Hm s. eapply yields_mono; [apply Hm|]. auto. Qed.

(** What follows a stable operation starts from a related state. *)
Lemma stable_then {A B} (m : M S A) (f : A → M S B) s (Q : B → S → Prop) :
  stable R m → (∀ a s', R s s' → yields (f a) s' Q) → yields (mbnd m f) s Q.
Proof. intros Hm Hf. apply yields_bind. eapply yields_mono; [apply Hm|]. exact Hf. Qed.

(** A stable operation keeps what the relation keeps. *)
Lemma stable_keeps {A} (m : M S A) (I : S → Prop) s :
  stable R m → (∀ s s', R s s' → I s → I s') → I s → yields m s (λ _ s', I s').
Proof. intros Hm HI Hs. eapply yields_mono; [apply Hm|]. intros a s1 Hss. by apply (HI s). Qed.

(** What is related to the state before may be assumed of the state after. *)
Lemma runs_stable {A} (m : M S A) s (Q : A → S → Prop) :
  stable R m → runs m s (λ a s', R s s' → Q a s') → runs m s Q.
Proof. intros Hm. specialize (Hm s). unfold runs, yields in *. destruct (m s) as [[a s']|]; auto. Qed.
End stable.

Lemma stable_lift {P S A} `{HP : Part P S} (RP : P → P → Prop) (R : S → S → Prop) (m : M P A) :
  (∀ s p, RP (part_get s) p → R s (part_set p s)) → stable RP m → stable R (lift m).
Proof. intros HR Hm s. apply yields_lift. eapply yields_mono; [apply Hm|]. intros a p Hp. by apply HR. Qed.

(** The relation of a part, in the whole. *)
Definition on_part {P S} `{HP : Part P S} (R : P → P → Prop) : S → S → Prop := λ s s', R (part_get s) (part_get s').
#[export] Instance on_part_preorder {P S} `{HP : Part P S} (R : P → P → Prop) : PreOrder R → PreOrder (on_part R).
Proof. intros HR. split; [intros s; unfold on_part; reflexivity|intros a b c ? ?; unfold on_part in *; by etrans]. Qed.
Lemma stable_part {P S A} `{HP : Part P S} (R : P → P → Prop) (m : M P A) : stable R m → stable (on_part R) (lift m).
Proof. apply stable_lift. intros s p H. unfold on_part. by rewrite part_get_set. Qed.

Create HintDb stable discriminated.
#[export] Hint Constants Opaque : stable.

#[export] Hint Extern 1 (stable _ (ret _)) => apply stable_ret; typeclasses eauto : stable.
#[export] Hint Extern 1 (stable _ (ask _)) => apply stable_ask; typeclasses eauto : stable.
#[export] Hint Extern 1 (stable _ (gets _)) => apply stable_gets; typeclasses eauto : stable.

(** The head of the operation decides; what it calls is for the hints. *)
Ltac stable_step := lazymatch goal with
  | |- stable _ (ret _) => solve [apply stable_ret; typeclasses eauto]
  | |- stable _ (fail _) => apply stable_fail
  | |- stable _ (ask _) => solve [apply stable_ask; typeclasses eauto]
  | |- stable _ (gets _) => solve [apply stable_gets; typeclasses eauto]
  | |- stable _ (lwip_assert _) => solve [apply stable_assert; typeclasses eauto]
  | |- stable _ (lwip_error _) => solve [apply stable_error; typeclasses eauto]
  | |- stable _ (valid_ptr _) => solve [apply stable_valid_ptr; typeclasses eauto]
  | |- stable _ (mbnd _ _) => refine (stable_bind _ _ _ _ _); [|intros]
  | |- stable _ (modify _) => apply stable_modify; intros ?s
  | |- stable _ (match ?x with _ => _ end) => destruct x eqn:?
  | |- stable _ (let _ := _ in _) => cbv zeta
  | |- stable (on_part _) (lift _) => first [apply stable_part | solve [auto 4 with stable]]
  | |- stable _ _ => solve [auto 4 with stable]
  end.
Ltac stable_tac := repeat stable_step.

(** ** The heap *)

Definition store_grows (s s' : store) : Prop := (next_loc s ≤ next_loc s')%positive.
#[export] Instance store_grows_preorder : PreOrder store_grows.
Proof. split; [intros s; unfold store_grows; lia|intros a b c; unfold store_grows; lia]. Qed.

Lemma grows_malloc n : stable store_grows (malloc n).
Proof.
  intros s. unfold yields, malloc, alloc_block, store_grows. destruct (mallocs s) as [|[j|] l]; simpl; lia.
Qed.
Lemma grows_free l : stable store_grows (free l).
Proof. intros s. unfold yields, free, store_grows. destruct (blocks s !! l); simpl; [lia|done]. Qed.
Lemma grows_mem_free l : stable store_grows (mem_free l).
Proof. destruct l; [apply grows_free|apply stable_fail]. Qed.
#[export] Hint Resolve grows_malloc grows_free grows_mem_free : stable.
Lemma grows_memp_malloc t : stable store_grows (memp_malloc t).
Proof. apply grows_malloc. Qed.
Lemma grows_memp_free t l : stable store_grows (memp_free t l).
Proof. destruct l; unfold memp_free; stable_tac. Qed.
Lemma grows_set_pbuf l q : stable store_grows (set_pbuf l q).
Proof. intros s. unfold yields, set_pbuf, store_grows. destruct (pbufs s !! l); simpl; [lia|done]. Qed.
#[export] Hint Resolve grows_memp_malloc grows_memp_free grows_set_pbuf : stable.
Lemma grows_update_pbuf l f : stable store_grows (update_pbuf l f).
Proof. unfold update_pbuf. stable_tac. Qed.
#[export] Hint Resolve grows_update_pbuf : stable.

(** ** Packets *)

Lemma grows_pbuf_free_loop fuel : ∀ p n, stable store_grows (pbuf_free_loop fuel p n).
Proof. induction fuel; intros p n; simpl; stable_tac. Qed.
#[export] Hint Resolve grows_pbuf_free_loop : stable.
Lemma grows_pbuf_free p : stable store_grows (pbuf_free p).
Proof. unfold pbuf_free. destruct p; [|stable_tac]. intros s. apply grows_pbuf_free_loop. Qed.
Lemma grows_pbuf_ref p : stable store_grows (pbuf_ref p).
Proof. unfold pbuf_ref. stable_tac. Qed.
Lemma grows_pbuf_cat_loop fuel : ∀ l t, stable store_grows (pbuf_cat_loop fuel l t).
Proof. induction fuel; intros l t; simpl; stable_tac. Qed.
#[export] Hint Resolve grows_pbuf_free grows_pbuf_ref grows_pbuf_cat_loop : stable.
Lemma grows_pbuf_cat h t : stable store_grows (pbuf_cat h t).
Proof. unfold pbuf_cat. stable_tac. Qed.
Lemma grows_split_64k_fix fuel : ∀ i r, stable store_grows (split_64k_fix fuel i r).
Proof. induction fuel; intros i r; simpl; stable_tac. Qed.
#[export] Hint Resolve grows_pbuf_cat grows_split_64k_fix : stable.
Lemma grows_pbuf_split_64k p : stable store_grows (pbuf_split_64k p).
Proof. unfold pbuf_split_64k. stable_tac. Qed.
#[export] Hint Resolve grows_pbuf_split_64k : stable.
Lemma grows_tot_len_of p : stable store_grows (tot_len_of p).
Proof. unfold tot_len_of. stable_tac. Qed.
#[export] Hint Resolve grows_tot_len_of : stable.

(** ** The answers of [malloc] to come *)

Definition same_mallocs (s s' : store) : Prop := mallocs s' = mallocs s.
#[export] Instance same_mallocs_preorder : PreOrder same_mallocs.
Proof. split; [by intros s|intros a b c; unfold same_mallocs; congruence]. Qed.

Lemma mallocs_set_pbuf l q : stable same_mallocs (set_pbuf l q).
Proof. intros s. unfold yields, set_pbuf. by destruct (pbufs s !! l). Qed.
Lemma mallocs_mem_write p o bs : stable same_mallocs (mem_write p o bs).
Proof.
  intros s. unfold yields, mem_write, rbind, deref. destruct (_ =? 0); [done|]. destruct p as [p|]; [|done].
  destruct (blocks s !! blk p); [|done]. by destruct (_ && _).
Qed.
Lemma mallocs_free l : stable same_mallocs (free l).
Proof. intros s. unfold yields, free. by destruct (blocks s !! l). Qed.
#[export] Hint Resolve mallocs_set_pbuf mallocs_mem_write mallocs_free : stable.
Lemma mallocs_mem_free l : stable same_mallocs (mem_free l).
Proof. destruct l; unfold mem_free; stable_tac. Qed.
#[export] Hint Resolve mallocs_mem_free : stable.
Lemma mallocs_memp_free t l : stable same_mallocs (memp_free t l).
Proof. destruct l; unfold memp_free; stable_tac. Qed.
#[export] Hint Resolve mallocs_memp_free : stable.
Lemma mallocs_pbuf_free_loop fuel : ∀ p n, stable same_mallocs (pbuf_free_loop fuel p n).
Proof. induction fuel; intros p n; simpl; stable_tac. Qed.
#[export] Hint Resolve mallocs_pbuf_free_loop : stable.
Lemma mallocs_pbuf_free p : stable same_mallocs (pbuf_free p).
Proof. unfold pbuf_free. destruct p; [|stable_tac]. intros s. apply mallocs_pbuf_free_loop. Qed.
#[export] Hint Resolve mallocs_pbuf_free : stable.
Lemma mallocs_pbuf_take_loop fuel : ∀ p d n k, stable same_mallocs (pbuf_take_loop fuel p d n k).
Proof. induction fuel; intros p d n k; simpl; stable_tac. Qed.
#[export] Hint Resolve mallocs_pbuf_take_loop : stable.
Lemma mallocs_pbuf_take p d n : stable same_mallocs (pbuf_take p d n).
Proof. unfold pbuf_take. stable_tac. Qed.
Lemma mallocs_pbuf_add_header p n : stable same_mallocs (pbuf_add_header p n).
Proof. unfold pbuf_add_header, pbuf_add_header_impl. stable_tac. Qed.
#[export] Hint Resolve mallocs_pbuf_take mallocs_pbuf_add_header : stable.
