(* ===== verification/Ip4.v ===== *)
(** * IPv4 ([core/ipv4/ip4.c])

    Routing, input and output of IPv4 packets over the stack's only interface.
    A pointer to a netif is [true] when it is [&global_if] and [false] when it
    is null.  What the interface does with a packet, and the protocols above,
    are interfaces: the classes [netif_driver] and [ip_upper]. *)

From S2P Require Import Prelude Mbox Heap Pbuf PbufData Def Chksum Addr Header.

Definition IP_HLEN : Z := 20.
Definition IP_PROTO_ICMP : Z := 1.
Definition IP_PROTO_TCP : Z := 6.
Definition IP_PROTO_UDP : Z := 17.
Definition IP_PROTO_UDPLITE : Z := 136.
Definition ICMP_DUR_PROTO : Z := 2.
Definition ICMP_DUR_PORT : Z := 3.
Definition IP_OFFMASK : Z := 8191.
Definition IP_MF : Z := 8192.

(** [struct ip_globals] *)
Record ip_globals := mk_ip_globals {
  current_netif : bool;
  current_input_netif : bool;
  current_ip4_header : option ptr;
  current_ip_header_tot_len : Z;
  current_iphdr_src : Z;
  current_iphdr_dest : Z
}.
#[export] Instance eta_ip_globals : Eta ip_globals := λ r,
  mk_ip_globals (current_netif r) (current_input_netif r) (current_ip4_header r)
    (current_ip_header_tot_len r) (current_iphdr_src r) (current_iphdr_dest r).

Definition no_packet : ip_globals := mk_ip_globals false false None 0 0 0.

(** The memory, the interface, [netif_default] and the variables of ip.c and ip4.c. *)
Record ipstate := mk_ipstate {
  ip_store : store;
  global_if : netif;
  netif_default : bool;
  ip_data : ip_globals;
  ip_id : Z
}.
#[export] Instance eta_ipstate : Eta ipstate := λ r,
  mk_ipstate (ip_store r) (global_if r) (netif_default r) (ip_data r) (ip_id r).
#[export] Program Instance part_ipstate : Part store ipstate := {
  part_get := ip_store; part_set st w := w <| ip_store := st |>
}.
Next Obligation. done. Qed.
Next Obligation. by intros []. Qed.
Next Obligation. done. Qed.

Definition netif_is_up (n : netif) : bool := negb (Z.land (ni_flags n) NETIF_FLAG_UP =? 0).
Definition netif_is_link_up (n : netif) : bool := negb (Z.land (ni_flags n) NETIF_FLAG_LINK_UP =? 0).
Definition ip4_addr_isloopback (addr : Z) : bool :=
  Z.land addr (lwip_htonl 4278190080) =? lwip_htonl (Z.shiftl 127 24).

(** ** Routing *)

Definition ip4_route (dest : Z) : M ipstate bool :=
  let! default := gets netif_default in
  let! n := gets global_if in
  if negb default || negb (netif_is_up n) || negb (netif_is_link_up n) || ip4_addr_isloopback dest
  then ret false else ret true.

Definition ip4_route_src (src : option Z) (dest : Z) : M ipstate bool := ip4_route dest.

(** ** The interface by its number *)

Definition NETIF_NO_INDEX : Z := 0.
Definition netif_get_index (n : netif) : Z := u8 (ni_num n + 1).

Definition netif_get_by_index (idx : Z) (w : ipstate) : bool :=
  negb (idx =? NETIF_NO_INDEX) && netif_default w && (idx =? netif_get_index (global_if w)).

(** ** Output *)

Class netif_driver (W : Type) := { netif_output : option loc → Z → M W err_t }.

Section output.
Context {W : Type} `{!Part ipstate W} `{!netif_driver W}.

Abbreviation ip m := (lift (P := ipstate) (S := W) m).
Abbreviation st m := (lift (P := ipstate) (S := W) (lift (P := store) m)).

Definition LWIP_IP_CHECK_PBUF_REF_COUNT_FOR_TX (p : option loc) : M W unit :=
  let! l := st (ask (λ _, deref p)) in
  let! q := st (ask (λ s, get_pbuf s l)) in
  lwip_assert (pb_ref q =? 1).

(** The fields of the header, in the order in which they are set, and the sum
    of the words as it is accumulated on the way. *)
Definition ip4_write_header (p : option loc) (iphdr : option ptr) (src : option Z) (dest ttl tos proto : Z)
    : M ipstate unit :=
  do! lift (wr8 iphdr 8 ttl);
  do! lift (wr8 iphdr 9 proto);
  let chk_sum := lwip_htons (Z.lor proto (Z.shiftl ttl 8)) in
  do! lift (wr32 iphdr 16 dest);
  let chk_sum := u32 (chk_sum + Z.land dest 65535) in
  let chk_sum := u32 (chk_sum + Z.shiftr dest 16) in
  let v_hl := u8 (Z.lor (Z.shiftl 4 4) (IP_HLEN / 4)) in
  do! lift (wr8 iphdr 0 v_hl);
  do! lift (wr8 iphdr 1 tos);
  let chk_sum := u32 (chk_sum + lwip_htons (Z.lor tos (Z.shiftl v_hl 8))) in
  let! tot_len := lift (tot_len_of p) in
  do! lift (wr16 iphdr 2 (lwip_htons tot_len));
  let chk_sum := u32 (chk_sum + lwip_htons tot_len) in
  do! lift (wr16 iphdr 6 0);
  let! id := gets ip_id in
  do! lift (wr16 iphdr 4 (lwip_htons id));
  let chk_sum := u32 (chk_sum + lwip_htons id) in
  do! modify (λ w, w <| ip_id := u16 (id + 1) |>);
  let src := match src with None => IPADDR_ANY | Some src => src end in
  do! lift (wr32 iphdr 12 src);
  let chk_sum := u32 (chk_sum + Z.land src 65535) in
  let chk_sum := u32 (chk_sum + Z.shiftr src 16) in
  let chk_sum := u32 (Z.shiftr chk_sum 16 + Z.land chk_sum 65535) in
  let chk_sum := u32 (Z.shiftr chk_sum 16 + chk_sum) in
  let chk_sum := u32 (Z.lnot chk_sum) in
  lift (wr16 iphdr 10 (u16 chk_sum)).

(** [dest] is [None] for [LWIP_IP_HDRINCL]. *)
Definition ip4_output_if_src (p : option loc) (src dest : option Z) (ttl tos proto : Z) : M W err_t :=
  do! LWIP_IP_CHECK_PBUF_REF_COUNT_FOR_TX p;
  match dest with
  | Some dest =>
    let! e := st (pbuf_add_header p IP_HLEN) in
    if negb (e =? 0) then ret ERR_BUF else
    let! iphdr := st (payload_of p) in
    let! len := st (len_of p) in
    do! lwip_assert (IP_HLEN <=? len);
    do! ip (ip4_write_header p iphdr src dest ttl tos proto);
    netif_output p dest
  | None =>
    let! len := st (len_of p) in
    if len <? IP_HLEN then ret ERR_BUF else
    let! iphdr := st (payload_of p) in
    let! dest := st (ask (λ s, rd32 s iphdr 16)) in
    netif_output p dest
  end.

Definition ip4_output_if (p : option loc) (src dest : option Z) (ttl tos proto : Z) : M W err_t :=
  let! n := ip (gets global_if) in
  let src_used :=
    match dest with
    | None => src
    | Some _ => match src with
                | None => Some (ni_ip_addr n)
                | Some a => if ip4_addr_isany a then Some (ni_ip_addr n) else src
                end
    end in
  ip4_output_if_src p src_used dest ttl tos proto.

Definition ip4_output (p : option loc) (src : option Z) (dest ttl tos proto : Z) : M W err_t :=
  do! LWIP_IP_CHECK_PBUF_REF_COUNT_FOR_TX p;
  let! netif := ip (ip4_route_src src dest) in
  if netif then ip4_output_if p src (Some dest) ttl tos proto else ret ERR_RTE.
End output.

(** ** Input *)

Definition ip4_input_accept (w : ipstate) : bool :=
  let n := global_if w in
  let dest := current_iphdr_dest (ip_data w) in
  if netif_is_up n
  then (dest =? ni_ip_addr n) || ip4_addr_isbroadcast_u32 dest n || ip4_addr_isany (ni_ip_addr n)
  else false.

(** [ip4_addr_isbroadcast(addr, ip_current_netif())]: the netif may be null as
    long as the address alone decides. *)
Definition current_isbroadcast (w : ipstate) : res bool :=
  let d := ip_data w in
  if (not32 (current_iphdr_dest d) =? IPADDR_ANY) || (current_iphdr_dest d =? IPADDR_ANY) then Val true
  else if current_netif d then Val (ip4_addr_isbroadcast_u32 (current_iphdr_dest d) (global_if w))
  else Err Undefined.

(** The protocols above, and ICMP's notice of an unreachable destination. *)
Class ip_upper (W : Type) := {
  to_udp : option loc → M W unit;
  to_tcp : option loc → M W unit;
  to_icmp : option loc → M W unit;
  to_icmp_dest_unreach : option loc → Z → M W unit
}.

Section input.
Context {W : Type} `{!Part ipstate W} `{!ip_upper W}.

Abbreviation ip m := (lift (P := ipstate) (S := W) m).
Abbreviation st m := (lift (P := ipstate) (S := W) (lift (P := store) m)).

Definition set_ip_data (f : ip_globals → ip_globals) : M ipstate unit :=
  modify (λ w, w <| ip_data := f (ip_data w) |>).

(** [pbuf_free(p); return ERR_OK] *)
Definition drop_packet (p : option loc) : M W err_t :=
  let! _ := st (pbuf_free p) in ret ERR_OK.

(** The rest of [ip4_input], from "send to upper layers". *)
Definition ip4_deliver (p : option loc) (iphdr : option ptr) (iphdr_hlen : Z) : M W err_t :=
  do! ip (set_ip_data (λ d, d <| current_netif := true |> <| current_input_netif := true |>
            <| current_ip4_header := iphdr |>));
  let! v_hl := st (ask (λ s, rd8 s iphdr 0)) in
  do! ip (set_ip_data (λ d, d <| current_ip_header_tot_len := u8 (Z.land v_hl 15 * 4) |>));
  let! _ := st (pbuf_remove_header p iphdr_hlen) in
  let! proto := st (ask (λ s, rd8 s iphdr 9)) in
  do! (if (proto =? IP_PROTO_UDP) || (proto =? IP_PROTO_UDPLITE) then to_udp p
       else if proto =? IP_PROTO_TCP then to_tcp p
       else if proto =? IP_PROTO_ICMP then to_icmp p
       else
         let! d := ip (gets ip_data) in
         let! n := ip (gets global_if) in
         do! (if negb (ip4_addr_isbroadcast_u32 (current_iphdr_dest d) n)
                 && negb (ip4_addr_ismulticast (current_iphdr_dest d)) then
                let! _ := st (pbuf_header_force p (s16 iphdr_hlen)) in
                to_icmp_dest_unreach p ICMP_DUR_PROTO
              else ret tt);
         let! _ := st (pbuf_free p) in ret tt);
  do! ip (set_ip_data (λ _, no_packet));
  ret ERR_OK.

(** The part of [ip4_input] from where the packet has its length, with the checks of
    the header. *)
Definition ip4_checked (p : option loc) (iphdr : option ptr) (iphdr_hlen iphdr_len : Z) : M W err_t :=
  let! len := st (len_of p) in
  let! tot_len := st (tot_len_of p) in
  if (len <? iphdr_hlen) || (tot_len <? iphdr_len) || (iphdr_hlen <? IP_HLEN) then drop_packet p else
  let! chk := st (ask (λ s, inet_chksum s iphdr iphdr_hlen)) in
  if negb (chk =? 0) then drop_packet p else
  let! dest := st (ask (λ s, rd32 s iphdr 16)) in
  do! ip (set_ip_data (λ d, d <| current_iphdr_dest := dest |>));
  let! src := st (ask (λ s, rd32 s iphdr 12)) in
  do! ip (set_ip_data (λ d, d <| current_iphdr_src := src |>));
  let! n := ip (gets global_if) in
  let! netif :=
    if ip4_addr_ismulticast dest
    then ret (netif_is_up n && negb (ip4_addr_isany (ni_ip_addr n)))
    else ip (gets ip4_input_accept) in
  if ip4_addr_isbroadcast_u32 src n || ip4_addr_ismulticast src then drop_packet p else
  if negb netif then drop_packet p else
  let! offset := st (ask (λ s, rd16 s iphdr 6)) in
  if negb (Z.land offset (lwip_htons (Z.lor IP_OFFMASK IP_MF)) =? 0) then drop_packet p
  else ip4_deliver p iphdr iphdr_hlen.

Definition ip4_input (p : option loc) : M W err_t :=
  let! iphdr := st (payload_of p) in
  let! v_hl := st (ask (λ s, rd8 s iphdr 0)) in
  if negb (Z.shiftr v_hl 4 =? 4) then drop_packet p else
  let iphdr_hlen := u8 (Z.land v_hl 15 * 4) in
  let! nlen := st (ask (λ s, rd16 s iphdr 2)) in
  let iphdr_len := lwip_htons nlen in
  let! tot_len := st (tot_len_of p) in
  do! (if iphdr_len <? tot_len then st (pbuf_realloc p iphdr_len) else ret tt);
  ip4_checked p iphdr iphdr_hlen iphdr_len.
End input.
