(* ===== verification/Ip4Facts.v ===== *)
(** * What IPv4 output does to a packet

    The header [ip4_output_if_src] puts before a packet, byte by byte, with a
    checksum that verifies. *)

From S2P Require Import Prelude Mbox Heap HeapFacts Pbuf Packet PbufFacts PbufChain Def Chksum Addr Header Ip4.

Implicit Types s : store.

(** ** The header *)

(** The header without options that the code writes; the checksum [chk] is the
    16-bit word as the machine stores it. *)
Definition ip_header (tos len id ttl proto chk src dest : Z) : list Z :=
  [69; tos; len / 256; len mod 256; id / 256; id mod 256; 0; 0; ttl; proto; chk mod 256; chk / 256]
  ++ addr_bytes src ++ addr_bytes dest.

Lemma zlen_ip_header tos len id ttl proto chk src dest : zlen (ip_header tos len id ttl proto chk src dest) = 20.
Proof. done. Qed.

(** The checksum that makes the header's words sum to 65535. *)
Definition ip_checksum (tos len id ttl proto src dest : Z) : Z :=
  65535 - ones (word_sum (ip_header tos len id ttl proto 0 src dest)).

Record header_fields (tos len id ttl proto src dest : Z) : Prop := {
  hf_tos : is_u8 tos; hf_len : is_u16 len; hf_id : is_u16 id; hf_ttl : is_u8 ttl; hf_proto : is_u8 proto;
  hf_src : is_u32 src; hf_dest : is_u32 dest
}.

Lemma ip_header_u8 tos len id ttl proto chk src dest :
  header_fields tos len id ttl proto src dest → is_u16 chk →
  Forall is_u8 (ip_header tos len id ttl proto chk src dest).
Proof.
  intros [] Hchk. unfold ip_header. apply Forall_app. split.
  - assert (∀ x, is_u16 x → is_u8 (x / 256) ∧ is_u8 (x mod 256)) as Hx.
    { intros x Hx. bounds. change (2 ^ 8) with 256. split; [|apply Z.mod_pos_bound; lia].
      split; [apply Z.div_pos; lia|apply Z.div_lt_upper_bound; lia]. }
    destruct (Hx len), (Hx id), (Hx chk); try done.
    repeat (apply Forall_cons; split; [done || (unfold is_u8; lia)|]). constructor.
  - apply Forall_app. by split; apply addr_bytes_u8.
Qed.

Lemma ip_header_sum tos len id ttl proto chk src dest :
  header_fields tos len id ttl proto src dest → is_u16 chk →
  word_sum (ip_header tos len id ttl proto chk src dest) =
  word_sum (ip_header tos len id ttl proto 0 src dest) + chk.
Proof.
  intros _ Hc. unfold ip_header. cbn [app word_sum addr_bytes].
  change (0 mod 256) with 0. change (0 / 256) with 0. pose proof (Z_div_mod_eq_full chk 256). lia.
Qed.

Lemma ip_checksum_range tos len id ttl proto src dest : is_u16 (ip_checksum tos len id ttl proto src dest).
Proof. unfold ip_checksum. pose proof (ones_range (word_sum (ip_header tos len id ttl proto 0 src dest))). bounds. lia. Qed.

(** A header with its checksum verifies. *)
Lemma ip_header_verifies tos len id ttl proto src dest :
  header_fields tos len id ttl proto src dest →
  ones (word_sum (ip_header tos len id ttl proto (ip_checksum tos len id ttl proto src dest) src dest)) = 65535.
Proof.
  intros Hf. rewrite ip_header_sum by (done || apply ip_checksum_range).
  pose proof (word_sum_range _ (ip_header_u8 tos len id ttl proto 0 src dest Hf ltac:(unfold is_u16; lia))) as Hw.
  unfold ip_checksum. set (x := word_sum _) in *. pose proof (ones_range x).
  destruct (ones_spec x) as [? ?]; [lia|]. symmetry. apply ones_unique; [lia|lia|lia|].
  Z.div_mod_to_equations. lia.
Qed.

(** ** The sum the code accumulates *)

Lemma low16 x : Z.land x 65535 = x mod 65536.
Proof. change 65535 with (Z.ones 16). by rewrite land_low. Qed.
Lemma high16 x : Z.shiftr x 16 = x / 65536.
Proof. by rewrite Z.shiftr_div_pow2. Qed.

Lemma be_word x y : is_u8 x → is_u8 y → lwip_htons (Z.lor x (Z.shiftl y 8)) = y + 256 * x.
Proof.
  intros Hx Hy. rewrite Z.shiftl_mul_pow2, Z.lor_comm by lia. bounds.
  rewrite (lor_add 8) by (change (2 ^ 8) with 256; lia). change (2 ^ 8) with 256.
  rewrite htons_eq by (bounds; lia). Z.div_mod_to_equations. lia.
Qed.

Lemma lo_hi a : is_u32 a → Z.land a 65535 + Z.shiftr a 16 = word_sum (addr_bytes a) ∧
  0 ≤ Z.land a 65535 ≤ 65535 ∧ 0 ≤ Z.shiftr a 16 ≤ 65535.
Proof.
  intros Ha. bounds. rewrite low16, high16. cbn [word_sum addr_bytes]. Z.div_mod_to_equations. lia.
Qed.

Lemma fold_carry x : 0 < x < 2 ^ 20 →
  u16 (u32 (Z.lnot (u32 (Z.shiftr (u32 (Z.shiftr x 16 + Z.land x 65535)) 16 +
                         u32 (Z.shiftr x 16 + Z.land x 65535))))) = 65535 - ones x.
Proof.
  intros Hx. rewrite !high16, !low16.
  rewrite (u32_small (x / 65536 + x mod 65536)) by (bounds; Z.div_mod_to_equations; lia).
  set (a := x / 65536 + x mod 65536).
  assert (0 < a ≤ 65535 + 15) as Ha by (unfold a; Z.div_mod_to_equations; lia).
  assert (ones x = if a <? 65536 then a else a - 65535) as Ho.
  { symmetry. apply ones_unique; [lia|case_match; bool_prop; lia|case_match; bool_prop; lia|].
    assert (a mod 65535 = x mod 65535) as <-.
    { unfold a. rewrite (Z.div_mod x 65536) at 3 by lia. Z.div_mod_to_equations. lia. }
    case_match; [done|]. rewrite <- (Z_mod_plus_full (a - 65535) 1). f_equal. lia. }
  rewrite Ho. unfold u16, u32, Z.lnot. bounds. destruct (Z.ltb_spec a 65536).
  - rewrite (Z.div_small a) by lia. rewrite Z.add_0_l, (Z.mod_small a) by lia. Z.div_mod_to_equations. lia.
  - assert (a / 65536 = 1) as -> by (Z.div_mod_to_equations; lia). rewrite (Z.mod_small (1 + a)) by lia.
    Z.div_mod_to_equations. lia.
Qed.

(** The value [ip4_write_header] stores. *)
Definition accumulated (tos len id ttl proto src dest : Z) : Z :=
  let chk_sum := lwip_htons (Z.lor proto (Z.shiftl ttl 8)) in
  let chk_sum := u32 (chk_sum + Z.land dest 65535) in
  let chk_sum := u32 (chk_sum + Z.shiftr dest 16) in
  let chk_sum := u32 (chk_sum + lwip_htons (Z.lor tos (Z.shiftl 69 8))) in
  let chk_sum := u32 (chk_sum + lwip_htons len) in
  let chk_sum := u32 (chk_sum + lwip_htons id) in
  let chk_sum := u32 (chk_sum + Z.land src 65535) in
  let chk_sum := u32 (chk_sum + Z.shiftr src 16) in
  let chk_sum := u32 (Z.shiftr chk_sum 16 + Z.land chk_sum 65535) in
  let chk_sum := u32 (Z.shiftr chk_sum 16 + chk_sum) in
  u16 (u32 (Z.lnot chk_sum)).

Lemma accumulated_eq tos len id ttl proto src dest :
  header_fields tos len id ttl proto src dest →
  accumulated tos len id ttl proto src dest = ip_checksum tos len id ttl proto src dest.
Proof.
  intros []. unfold accumulated, ip_checksum.
  rewrite !be_word by (done || (unfold is_u8; lia)).
  destruct (lo_hi src) as (Es & ? & ?); [done|]. destruct (lo_hi dest) as (Ed & ? & ?); [done|].
  rewrite (htons_eq len), (htons_eq id) by (bounds; lia).
  assert (word_sum (ip_header tos len id ttl proto 0 src dest) =
    (ttl + 256 * proto) + Z.land dest 65535 + Z.shiftr dest 16 + (69 + 256 * tos) + (256 * (len mod 256) + len / 256) +
    (256 * (id mod 256) + id / 256) + Z.land src 65535 + Z.shiftr src 16) as Hsum.
  { rewrite <- !Z.add_assoc, (Z.add_assoc (Z.land dest _)), Ed.
    transitivity (word_sum (addr_bytes src) + word_sum (addr_bytes dest) + (ttl + 256 * proto) + (69 + 256 * tos) +
      (256 * (len mod 256) + len / 256) + (256 * (id mod 256) + id / 256)).
    - unfold ip_header. cbn [app word_sum addr_bytes]. change (0 mod 256) with 0. change (0 / 256) with 0. lia.
    - rewrite <- Es. lia. }
  bounds. assert (0 ≤ 256 * (len mod 256) + len / 256 ≤ 65535) by (Z.div_mod_to_equations; lia).
  assert (0 ≤ 256 * (id mod 256) + id / 256 ≤ 65535) by (Z.div_mod_to_equations; lia).
  rewrite (u32_small (_ + Z.land dest 65535)) by (bounds; lia).
  rewrite (u32_small (_ + Z.shiftr dest 16)) by (bounds; lia).
  rewrite (u32_small (_ + (69 + _))) by (bounds; lia). rewrite (u32_small (_ + (256 * (len mod 256) + _))) by (bounds; lia).
  rewrite (u32_small (_ + (256 * (id mod 256) + _))) by (bounds; lia). rewrite (u32_small (_ + Z.land src 65535)) by (bounds; lia).
  rewrite (u32_small (_ + Z.shiftr src 16)) by (bounds; lia). rewrite Hsum. apply fold_carry. lia.
Qed.

(** ** Writing the header *)

(** The header the writes produce from any 20 bytes. *)
Lemma ip_header_writes (d : list Z) tos len id ttl proto chk src dest :
  zlen d = 20 →
  zsplice 10 [chk mod 256; chk / 256]
   (zsplice 12 (addr_bytes src)
    (zsplice 4 [id / 256; id mod 256]
     (zsplice 6 [0; 0]
      (zsplice 2 [len / 256; len mod 256]
       (zsplice 1 [tos] (zsplice 0 [69] (zsplice 16 (addr_bytes dest) (zsplice 9 [proto] (zsplice 8 [ttl] d))))))))) =
  ip_header tos len id ttl proto chk src dest.
Proof.
  intros Hd. do 20 (destruct d as [|? d]; [discriminate Hd|rewrite zlen_cons in Hd]).
  assert (d = []) as -> by (apply zlen_0_nil; lia). reflexivity.
Qed.

Lemma runs_store {A} (m : M store A) (w : ipstate) (Q : A → ipstate → Prop) :
  runs m (ip_store w) (λ a s, Q a (w <| ip_store := s |>)) → runs (lift m) w Q.
Proof. exact (runs_lift (P := store) m w Q). Qed.

Ltac write_field :=
  apply runs_bind, runs_store;
  eapply runs_mono; [eapply hdr_state_write; [eassumption|lia|cbv [zlen length addr_bytes]; lia..]|];
  let s := fresh "s" in let H := fresh "Hs" in intros [] s H; cbn [ip_store ip_id].

Lemma ip4_write_header_spec w s0 p c cs d rest tos len ttl proto src dest :
  hdr_state 20 s0 (ip_store w) p c cs d rest →
  header_fields tos len (ip_id w) ttl proto src dest → pb_tot_len (c_pbuf c) = len →
  runs (ip4_write_header p (pb_payload (c_pbuf c)) (Some src) dest ttl tos proto) w (λ _ w',
    (∃ s', w' = w <| ip_store := s' |> <| ip_id := u16 (ip_id w + 1) |>) ∧
    hdr_state 20 s0 (ip_store w') p c cs
      (ip_header tos len (ip_id w) ttl proto (ip_checksum tos len (ip_id w) ttl proto src dest) src dest) rest).
Proof.
  intros Hs Hf Htot. unfold ip4_write_header. change (u8 (Z.lor (Z.shiftl 4 4) (IP_HLEN / 4))) with 69.
  do 5 write_field.
  apply runs_bind, runs_store. eapply runs_head; [eapply hs_packet; eassumption|]. cbn [ip_store ip_id c_pbuf].
  rewrite Htot. do 2 write_field. apply runs_bind, runs_gets. cbn [ip_store ip_id].
  write_field. apply runs_bind, runs_modify. cbn [ip_store ip_id]. write_field.
  apply runs_store. eapply runs_mono; [eapply hdr_state_write; [eassumption|lia|cbv [zlen length addr_bytes]; lia..]|].
  intros [] s' Hs'. cbn [ip_store]. split; [by eexists|].
  set (acc := accumulated tos len (ip_id w) ttl proto src dest) in *. set (id := ip_id w) in *.
  assert (hdr_state 20 s0 s' p c cs
    (zsplice 10 [u16 acc mod 256; u16 acc / 256]
     (zsplice 12 (addr_bytes (u32 src))
      (zsplice 4 [u16 (lwip_htons id) mod 256; u16 (lwip_htons id) / 256]
       (zsplice 6 [0; 0]
        (zsplice 2 [u16 (lwip_htons len) mod 256; u16 (lwip_htons len) / 256]
         (zsplice 1 [u8 tos] (zsplice 0 [69] (zsplice 16 (addr_bytes (u32 dest))
          (zsplice 9 [u8 proto] (zsplice 8 [u8 ttl] d)))))))))) rest) as Hw by exact Hs'.
  pose proof (ip_checksum_range tos len id ttl proto src dest) as Hchk.
  assert (acc = ip_checksum tos len id ttl proto src dest) as Hacc by (by apply accumulated_eq).
  destruct Hf. bounds. rewrite (u16_small acc), Hacc in Hw by (bounds; lia).
  rewrite !u8_small, !u32_small in Hw by (bounds; lia).
  destruct (htons_bytes id) as [-> ->] in Hw; [bounds; lia|]. destruct (htons_bytes len) as [-> ->] in Hw; [bounds; lia|].
  rewrite ip_header_writes in Hw by (eapply hs_len; eassumption). exact Hw.
Qed.

(** ** Output *)

(** The checksum of the header at the front of a packet. *)
Lemma header_chksum s p c cs tos len id ttl proto src dest rest :
  packet s p (c :: cs) → header_fields tos len id ttl proto src dest →
  c_data c = ip_header tos len id ttl proto (ip_checksum tos len id ttl proto src dest) src dest ++ rest →
  inet_chksum s (pb_payload (c_pbuf c)) 20 = Val 0.
Proof.
  intros Hpk Hf Hd. pose proof (packet_payload _ _ _ _ Hpk) as Hrd. rewrite Hd in Hrd. pose proof (zlen_nonneg rest).
  rewrite (inet_chksum_bytes _ _ _ (ip_header tos len id ttl proto (ip_checksum tos len id ttl proto src dest) src dest)).
  - by rewrite ip_header_verifies.
  - rewrite (mem_read_sub _ _ _ _ _ _ Hrd) by (rewrite ?zlen_app, ?zlen_ip_header; lia). done.
  - apply ip_header_u8; [done|]. apply ip_checksum_range.
  - done.
Qed.

(** The part a computation works on, in the state it is a part of. *)
Section states.
Context {W : Type} `{!Part ipstate W}.

Lemma runs_st {A} (m : M store A) iw (w : W) (Q : A → W → Prop) :
  runs m (ip_store iw) (λ a s', Q a (part_set (iw <| ip_store := s' |>) w)) →
  runs (lift (lift m)) (part_set iw w) Q.
Proof. intros H. apply runs_part, runs_store. exact H. Qed.
End states.

(** What the rest of the heap keeps while a packet is worked on. *)
Record outside (ls : list loc) (s s' : store) : Prop := {
  out_pbufs : ∀ l, l ∉ ls → pbufs s' !! l = pbufs s !! l;
  out_blocks : ∀ l, l ∉ ls → blocks s' !! l = blocks s !! l;
  out_rest : same_rest s s';
  out_msgs : tcpip_msgs s' = tcpip_msgs s
}.

(** The pbuf of [c], with other contents. *)
Definition same_home (c c' : cell) : Prop :=
  c_loc c' = c_loc c ∧ own_data c' ∧ pb_type_internal (c_pbuf c') = pb_type_internal (c_pbuf c) ∧
  pb_ref (c_pbuf c') = pb_ref (c_pbuf c).

Section output.
Context {W : Type} `{!Part ipstate W} `{!netif_driver W}.

Lemma ip4_output_if_src_calls (w : W) iw p c cs src dest ttl tos proto :
  packet (ip_store iw) p (c :: cs) → headroom (ip_store iw) 20 c → Forall own_data cs →
  pb_ref (c_pbuf c) = 1 → total (c :: cs) + 20 < 2 ^ 16 →
  header_fields tos (total (c :: cs) + 20) (ip_id iw) ttl proto src dest →
  calls (ip4_output_if_src p (Some src) (Some dest) ttl tos proto) (part_set iw w) (netif_output p dest)
    (λ w', ∃ s' c', w' = part_set (iw <| ip_store := s' |> <| ip_id := u16 (ip_id iw + 1) |>) w ∧
      packet s' p (c' :: cs) ∧ same_home c c' ∧ zlen (c_data c') = 20 + zlen (c_data c) ∧
      (∃ chk, is_u16 chk ∧ bytes (c' :: cs) =
        ip_header tos (total (c :: cs) + 20) (ip_id iw) ttl proto chk src dest ++ bytes (c :: cs)) ∧
      inet_chksum s' (pb_payload (c_pbuf c')) 20 = Val 0 ∧
      outside [c_loc c] (ip_store iw) s').
Proof.
  intros Hpk Hroom Hown Href Hsz Hf. pose proof Hf as [].
  pose proof (packet_seg _ _ _ Hpk) as (Hp & Hl & _). pose proof (total_cons c cs) as Htc.
  destruct (packet_head_len _ _ _ _ Hpk) as (Hlen & Htot & ? & ? & _).
  assert (∀ iw' : ipstate, iw' <| ip_store := ip_store iw' |> = iw') as Hsame by by intros [].
  unfold ip4_output_if_src. apply calls_bind. subst p.
  { apply runs_bind, runs_st. eapply runs_ask; [done|]. rewrite Hsame.
    apply runs_bind, runs_st. eapply runs_ask; [unfold get_pbuf; by rewrite Hl|]. rewrite Hsame.
    apply runs_assert; [by rewrite Href|].
    apply calls_bind, runs_st. eapply runs_mono; [by apply pbuf_add_header_spec|].
    intros r s1 (-> & junk & Hj & -> & Hpk1). cbn [Z.eqb negb].
    set (s1 := _ <| pbufs := _ |>) in *. set (c1 := retreat 20 junk c) in *.
    apply calls_bind, runs_st. eapply runs_head; [done|]. cbn [ip_store].
    apply calls_bind, runs_st. eapply runs_head; [done|]. 
    apply calls_bind, runs_assert.
    { apply Z.leb_le. unfold c1, IP_HLEN. simpl. lia. }
    apply calls_bind, runs_part. change IP_HLEN with 20 in *. fold c1 in Hpk1 |- *.
    assert (hdr_state 20 s1 s1 (Some (c_loc c)) c1 cs junk (c_data c)) as Hs1.
    { split; try done. constructor; [|done]. by apply (retreat_own (ip_store iw)). }
    eapply runs_mono; [apply (ip4_write_header_spec (iw <| ip_store := s1 |>) s1 (Some (c_loc c)) c1 cs junk (c_data c)
      tos (total (c :: cs) + 20)); [exact Hs1|done|unfold c1; simpl; lia]|].
    intros [] iw' ((s' & ->) & [Hpk' _ _ Hpb Hrest Hmsg Hblk _]). apply calls_here. cbn [ip_store ip_id] in *.
    pose proof (ip_checksum_range tos (total (c :: cs) + 20) (ip_id iw) ttl proto src dest).
    eexists s', _. split_and!; [done|exact Hpk'|split_and!; [done| |done|done]| | | |].
    - destruct (retreat_own (ip_store iw) 20 junk c ltac:(lia) Hroom) as (o & Ho & Hle). by exists o.
    - cbn [c_data]. rewrite zlen_app, zlen_ip_header. done.
    - eexists. split; [done|]. rewrite !bytes_cons. cbn [c_data]. symmetry. apply app_assoc.
    - eapply header_chksum; [exact Hpk'|exact Hf|done].
    - split; [|by intros l Hn; apply Hblk; intros ->; apply Hn; left|done|done].
      intros l Hn. etransitivity; [exact (f_equal (lookup l) Hpb)|]. simpl. rewrite lookup_insert_ne; [done|]. intros <-. apply Hn. by left. }
Qed.

(** C26: [ip4_output_if_src] hands the driver the packet behind a valid header.
    For a packet with room for 20 bytes and a destination, the call comes down
    to one call of the driver, on the same pbufs, which now hold an IPv4 header
    with the caller's addresses, protocol, TTL and TOS, the packet's length and
    the next identification number, followed by the packet's bytes; the
    header's checksum, which the code accumulates as it stores the fields, is
    the one that makes [inet_chksum] over the header return 0.  The counter of
    identifications is incremented modulo 2^16, and nothing else changes. *)
Theorem ip4_output_if_src_spec (w : W) iw p c cs src dest ttl tos proto :
  packet (ip_store iw) p (c :: cs) → headroom (ip_store iw) 20 c → Forall own_data cs →
  pb_ref (c_pbuf c) = 1 → total (c :: cs) + 20 < 2 ^ 16 →
  header_fields tos (total (c :: cs) + 20) (ip_id iw) ttl proto src dest →
  calls (ip4_output_if_src p (Some src) (Some dest) ttl tos proto) (part_set iw w) (netif_output p dest)
    (λ w', ∃ s' c', w' = part_set (iw <| ip_store := s' |> <| ip_id := u16 (ip_id iw + 1) |>) w ∧
      packet s' p (c' :: cs) ∧ c_loc c' = c_loc c ∧ zlen (c_data c') = 20 + zlen (c_data c) ∧
      (∃ chk, is_u16 chk ∧ bytes (c' :: cs) =
        ip_header tos (total (c :: cs) + 20) (ip_id iw) ttl proto chk src dest ++ bytes (c :: cs)) ∧
      inet_chksum s' (pb_payload (c_pbuf c')) 20 = Val 0 ∧
      outside [c_loc c] (ip_store iw) s').
Proof.
  intros. eapply calls_mono; [by apply ip4_output_if_src_calls|].
  intros w' (s' & c' & ? & ? & [? _] & ?). by exists s', c'.
Qed.
End output.

(** ** A run *)

#[local] Existing Instance part_self.
#[local] Instance ex_driver : netif_driver ipstate := { netif_output _ _ := ret ERR_OK }.

Definition ex_netif : netif := mk_netif 16777482 16777215 0 1500 7 1.
Definition ex_ipstate : ipstate := mk_ipstate ex_store ex_netif true no_packet 65535.

Lemma ip4_output_if_src_spec_witness : ∃ w',
  ip4_output_if_src (W := ipstate) (Some 1%positive) (Some 16777482) (Some 33554698) 64 0 17 ex_ipstate = Val (ERR_OK, w') ∧
  inet_chksum (ip_store w') (Some (mk_ptr 1 44)) 20 = Val 0 ∧ ip_id w' = 0.
Proof.
  destruct (ip4_output_if_src_spec ex_ipstate ex_ipstate (Some 1%positive) ex_cell1 [ex_cell2] 16777482 33554698 64 0 17)
    as (w' & Hrun & s' & c' & -> & _ & _ & _ & (chk & _ & _) & _ & _).
  - exact ex_packet.
  - split; [|done]. exists 64, (replicate 64 0 ++ [1; 2; 3]). split_and!; done.
  - repeat constructor; by eexists.
  - done.
  - done.
  - split; by vm_compute.
  - eexists. split; [vm_compute; reflexivity|]. split; [vm_compute; reflexivity|]. vm_compute; reflexivity.
Defined.
