(* ===== verification/Ip4InFacts.v ===== *)
(** * What IPv4 input does with a packet

    Which packets [ip4_input] accepts, as a function of the header's bytes, and
    that it hands these to the protocol above with exactly the header removed
    and drops the others. *)

From S2P Require Import Prelude Mbox Heap HeapFacts Pbuf Packet PbufFacts PbufChain Def Chksum Addr Header Ip4 Ip4Facts.

Implicit Types s : store.

(** [struct ip_hdr]; the checksum is kept as its two bytes. *)
Record ip_hdr := mk_ip_hdr {
  h_v_hl : Z; h_tos : Z; h_len : Z; h_id : Z; h_offset : Z; h_ttl : Z; h_proto : Z;
  h_chk1 : Z; h_chk2 : Z; h_src : Z; h_dest : Z
}.
Definition ip_hdr_bytes (h : ip_hdr) : list Z :=
  [h_v_hl h; h_tos h; h_len h / 256; h_len h mod 256; h_id h / 256; h_id h mod 256;
   h_offset h / 256; h_offset h mod 256; h_ttl h; h_proto h; h_chk1 h; h_chk2 h]
  ++ addr_bytes (h_src h) ++ addr_bytes (h_dest h).

Definition ip_hdr_ok (h : ip_hdr) : Prop :=
  is_u8 (h_v_hl h) ∧ is_u16 (h_len h) ∧ is_u16 (h_offset h) ∧ is_u32 (h_src h) ∧ is_u32 (h_dest h).

(** The length of the header. *)
Definition hdr_len (h : ip_hdr) : Z := Z.land (h_v_hl h) 15 * 4.

(** The destination is an address of the interface. *)
Definition addressed (n : netif) (h : ip_hdr) : bool :=
  if ip4_addr_ismulticast (h_dest h) then netif_is_up n && negb (ip4_addr_isany (ni_ip_addr n))
  else netif_is_up n && ((h_dest h =? ni_ip_addr n) || ip4_addr_isbroadcast_u32 (h_dest h) n || ip4_addr_isany (ni_ip_addr n)).

(** What the header is checked for: [d] is the data of the first pbuf, which starts
    with the header [h], and [tot] the length of the packet. *)
Definition header_ok (n : netif) (h : ip_hdr) (d : list Z) (tot : Z) : bool :=
  (IP_HLEN <=? hdr_len h) && (hdr_len h <=? zlen d) && (hdr_len h <=? h_len h) && (h_len h <=? tot)
  && (ones (word_sum (ztake (hdr_len h) d)) =? 65535)
  && addressed n h && negb (ip4_addr_isbroadcast_u32 (h_src h) n || ip4_addr_ismulticast (h_src h))
  && (Z.land (h_offset h) 16383 =? 0).
(** The packets accepted. *)
Definition acceptable (n : netif) (h : ip_hdr) (d : list Z) (tot : Z) : bool :=
  (Z.shiftr (h_v_hl h) 4 =? 4) && header_ok n h d tot.

Lemma hdr_len_range h : is_u8 (h_v_hl h) → 0 ≤ hdr_len h ≤ 60.
Proof.
  intros Hu. unfold hdr_len. change 15 with (Z.ones 4). rewrite land_low by lia. bounds.
  pose proof (Z.mod_pos_bound (h_v_hl h) 16). change (2 ^ 4) with 16. lia.
Qed.

Lemma offset_bits x : is_u16 x →
  (Z.land (x / 256 + 256 * (x mod 256)) (lwip_htons (Z.lor IP_OFFMASK IP_MF)) =? 0) = (Z.land x 16383 =? 0).
Proof.
  intros Hx. bounds. assert (is_u8 (x / 256)) as H1%in_all_bytes by (unfold is_u8; Z.div_mod_to_equations; lia).
  assert (is_u8 (x mod 256)) as H2%in_all_bytes by (unfold is_u8; Z.div_mod_to_equations; lia).
  assert (forallb (λ a, forallb (λ b, Bool.eqb (Z.land (a + 256 * b) 65343 =? 0) (Z.land (256 * a + b) 16383 =? 0)) all_bytes)
            all_bytes = true) as H by (vm_compute; reflexivity).
  rewrite forallb_forall in H. specialize (H _ H1). rewrite forallb_forall in H. specialize (H _ H2).
  apply eqb_prop in H. change (lwip_htons (Z.lor IP_OFFMASK IP_MF)) with 65343. rewrite H.
  do 2 f_equal. rewrite <- (Z.div_mod x 256) by lia. done.
Qed.

Lemma be_read x : is_u16 x → lwip_htons (x / 256 + 256 * (x mod 256)) = x.
Proof. intros Hx. bounds. rewrite htons_eq by (Z.div_mod_to_equations; lia). Z.div_mod_to_equations. lia. Qed.

Lemma word_addr a : word (a mod 256) (a / 256 mod 256) (a / 65536 mod 256) (a / 16777216) = a.
Proof. unfold word. Z.div_mod_to_equations. lia. Qed.

(** ** The fields the code reads *)

Record hdr_at s (p : option ptr) (h : ip_hdr) : Prop := {
  at_v_hl : rd8 s p 0 = Val (h_v_hl h);
  at_len : rd16 s p 2 = Val (h_len h / 256 + 256 * (h_len h mod 256));
  at_offset : rd16 s p 6 = Val (h_offset h / 256 + 256 * (h_offset h mod 256));
  at_proto : rd8 s p 9 = Val (h_proto h);
  at_src : rd32 s p 12 = Val (h_src h);
  at_dest : rd32 s p 16 = Val (h_dest h)
}.

Lemma hdr_at_bytes s p n h rest :
  mem_read s p 0 n = Val (ip_hdr_bytes h ++ rest) → zlen (ip_hdr_bytes h ++ rest) = n → hdr_at s p h.
Proof.
  intros Hrd Hn. rewrite zlen_app in Hn. change (zlen (ip_hdr_bytes h)) with 20 in Hn. pose proof (zlen_nonneg rest).
  assert (zlen (ip_hdr_bytes h ++ rest) = n) as Hd by (rewrite zlen_app; done).
  split.
  - by apply (rd8_at _ _ _ _ Hrd Hd); [lia|lia|].
  - by apply (rd16_at _ _ _ _ Hrd Hd); [lia|lia|].
  - by apply (rd16_at _ _ _ _ Hrd Hd); [lia|lia|].
  - by apply (rd8_at _ _ _ _ Hrd Hd); [lia|lia|].
  - rewrite <- (word_addr (h_src h)). by apply (rd32_at _ _ _ _ Hrd Hd); [lia|lia|].
  - rewrite <- (word_addr (h_dest h)). by apply (rd32_at _ _ _ _ Hrd Hd); [lia|lia|].
Qed.

Lemma packet_hdr s p c cs h rest :
  packet s p (c :: cs) → c_data c = ip_hdr_bytes h ++ rest → hdr_at s (pb_payload (c_pbuf c)) h.
Proof.
  intros Hpk Hd. pose proof (packet_payload _ _ _ _ Hpk) as Hrd. rewrite Hd in Hrd. by eapply hdr_at_bytes.
Qed.

(** [p->payload] and its like, in the state the packet is a part of. *)
Lemma runs_field {W A} `{!Part ipstate W} iw (w : W) p c cs (f : pbuf → A) (Q : A → W → Prop) :
  packet (ip_store iw) p (c :: cs) → Q (f (c_pbuf c)) (part_set iw w) →
  runs (lift (lift (ask (λ s, let* l := deref p in let* c := get_pbuf s l in Val (f c))))) (part_set iw w) Q.
Proof. intros Hpk HQ. apply runs_st. eapply runs_head; [done|]. by destruct iw. Qed.

Lemma runs_read {W A} `{!Part ipstate W} iw (w : W) (f : store → res A) a (Q : A → W → Prop) :
  f (ip_store iw) = Val a → Q a (part_set iw w) → runs (lift (lift (ask f))) (part_set iw w) Q.
Proof. intros Hf HQ. apply runs_st. eapply runs_ask; [done|]. by destruct iw. Qed.

Lemma chksum_zero x : (65535 - x =? 0) = (x =? 65535).
Proof. destruct (Z.eqb_spec x 65535), (Z.eqb_spec (65535 - x) 0); lia || done. Qed.

Section input.
Context {W : Type} `{!Part ipstate W} `{!ip_upper W}.

(** What [ip4_input] comes down to: the protocol above, ... *)
Definition upper (proto : Z) (p : option loc) : M W unit :=
  if (proto =? IP_PROTO_UDP) || (proto =? IP_PROTO_UDPLITE) then to_udp p
  else if proto =? IP_PROTO_TCP then to_tcp p else to_icmp p.
Definition known (proto : Z) : bool :=
  (proto =? IP_PROTO_UDP) || (proto =? IP_PROTO_UDPLITE) || (proto =? IP_PROTO_TCP) || (proto =? IP_PROTO_ICMP).
Definition handle (proto : Z) (p : option loc) : M W err_t :=
  do! upper proto p; do! lift (set_ip_data (λ _, no_packet)); ret ERR_OK.
(** ... or, for another protocol, a message to the sender, if one is due, and the end
    of the packet. *)
Definition notify (n : netif) (h : ip_hdr) : bool :=
  negb (ip4_addr_isbroadcast_u32 (h_dest h) n) && negb (ip4_addr_ismulticast (h_dest h)).
Definition reject (tell : bool) (p : option loc) : M W err_t :=
  do! (do! (if tell then to_icmp_dest_unreach p ICMP_DUR_PROTO else ret tt);
       let! _ := lift (P := ipstate) (lift (P := store) (pbuf_free p)) in ret tt);
  do! lift (set_ip_data (λ _, no_packet)); ret ERR_OK.
Definition passed (n : netif) (h : ip_hdr) (p : option loc) : M W err_t :=
  if known (h_proto h) then handle (h_proto h) p else reject (notify n h) p.
(** The message quotes the packet, header and all; otherwise the header is off. *)
Definition quoted (n : netif) (h : ip_hdr) : bool := negb (known (h_proto h)) && notify n h.
Definition front (n : netif) (h : ip_hdr) (c : cell) : cell := if quoted n h then c else advance (hdr_len h) c.

Lemma header_force_back s p c cs k : packet s p (c :: cs) → own_data c → 0 < k ≤ zlen (c_data c) → k < 2 ^ 15 →
  runs (pbuf_header_force p (s16 k)) (s <| pbufs := <[c_loc c := c_pbuf (advance k c)]> (pbufs s) |>) (λ _ s', s' = s).
Proof.
  intros Hpk (o & Ho & Hoo) Hk Hb. destruct (packet_head_len _ _ _ _ Hpk) as (Hlen & Htot & ? & ? & Hz).
  pose proof (packet_seg _ _ _ Hpk) as (-> & Hl & _). assert (s16 k = k) as ->.
  { unfold s16, signed. rewrite Z.mod_small by (bounds; lia). change (16 - 1) with 15. by rewrite (proj2 (Z.ltb_lt _ _)) by lia. }
  unfold pbuf_header_force, pbuf_header_impl, pbuf_add_header_impl.
  rewrite (proj2 (Z.ltb_ge _ _)), (proj2 (Z.ltb_ge 65535 _)), (proj2 (Z.eqb_neq _ _)) by (bounds; lia).
  apply runs_bind. eapply runs_get_pbuf; [simpl; apply lookup_insert_eq|]. simpl. rewrite (u16_small k) by (bounds; lia).
  rewrite (proj2 (Z.ltb_ge _ _)) by (rewrite u16_small by (bounds; lia); lia). rewrite Ho. simpl.
  rewrite (proj2 (Z.ltb_ge _ _)) by lia.
  match goal with |- runs (if ?b then ?m else _) ?s0 ?Q => cut (runs m s0 Q); [intros ?; by destruct b|] end.
  apply runs_bind. eapply runs_set_pbuf; [simpl; apply lookup_insert_eq|]. apply runs_ret. simpl.
  rewrite insert_insert_eq, insert_id; [by destruct s|]. rewrite Hl. f_equal. unfold advance. simpl.
  rewrite !u16_small by (bounds; lia). destruct (c_pbuf c). simpl in *. subst. unfold setter. simpl. unfold ptr_add. simpl. f_equal; try lia.
  do 2 f_equal. lia.
Qed.

Lemma ip4_deliver_spec (w : W) iw p c cs h rest :
  packet (ip_store iw) p (c :: cs) → c_data c = ip_hdr_bytes h ++ rest → ip_hdr_ok h →
  hdr_len h ≤ zlen (c_data c) → current_iphdr_dest (ip_data iw) = h_dest h →
  (quoted (global_if iw) h = true → own_data c ∧ 0 < hdr_len h) →
  calls (ip4_deliver p (pb_payload (c_pbuf c)) (hdr_len h)) (part_set iw w) (passed (global_if iw) h p) (λ w',
    ∃ s', w' = part_set (iw <| ip_store := s' |>
                      <| ip_data := mk_ip_globals true true (pb_payload (c_pbuf c)) (hdr_len h)
                           (current_iphdr_src (ip_data iw)) (current_iphdr_dest (ip_data iw)) |>) w ∧
    s' = (ip_store iw) <| pbufs := <[c_loc c := c_pbuf (front (global_if iw) h c)]> (pbufs (ip_store iw)) |> ∧
    packet s' p (front (global_if iw) h c :: cs)).
Proof.
  intros Hpk Hd Hok Hl Edst Hq. pose proof (packet_hdr _ _ _ _ _ _ Hpk Hd) as Hh. pose proof (hdr_len_range h (proj1 Hok)).
  unfold ip4_deliver. apply calls_bind, runs_part, runs_modify.
  apply calls_bind. eapply runs_read; [apply Hh|]. apply calls_bind, runs_part, runs_modify.
  apply calls_bind, runs_st. eapply runs_mono; [apply pbuf_remove_header_spec; [exact Hpk|lia]|].
  intros r s' (_ & Hs' & Hpk'). apply calls_bind. eapply runs_read.
  { cbn [ip_store]. etransitivity; [|apply (at_proto _ _ _ Hh)]. unfold rd8. erewrite mem_read_ext; [done|].
    by rewrite Hs'. }
  unfold passed, front, quoted in *. destruct (known (h_proto h)) eqn:Hk.
  { match goal with |- calls (mbnd ?m _) _ _ _ => assert (m = upper (h_proto h) p) as -> end.
    { revert Hk. unfold known, upper. by do 4 destruct (h_proto h =? _). }
    apply calls_here. exists s'. split; [|done]. unfold hdr_len in *. rewrite u8_small by (bounds; lia).
    by destruct iw as [? ? ? [] ?]. }
  unfold known in Hk. do 2 (apply orb_false_iff in Hk as [Hk ->]). rewrite Hk. cbn [negb andb]. unfold reject.
  match goal with |- calls _ (part_set ?x w) _ _ => set (iw2 := x) end.
  assert (current_iphdr_dest (ip_data iw2) = h_dest h) as Ed2 by exact Edst. assert (global_if iw2 = global_if iw) as Eg2 by done.
  apply calls_seq. apply calls_bind, runs_part, runs_gets. apply calls_bind, runs_part, runs_gets. rewrite Ed2, Eg2.
  fold (notify (global_if iw) h). cbn [andb negb] in Hq |- *. apply calls_seq.
  assert (hdr_len h = u8 (Z.land (h_v_hl h) 15 * 4)) as Eh by (unfold hdr_len in *; rewrite u8_small by (bounds; lia); done).
  destruct (notify (global_if iw) h) eqn:Hn.
  - destruct (Hq eq_refl) as [Hown Hpos]. apply calls_bind, runs_st. change (ip_store iw2) with s'. rewrite Hs'.
    eapply runs_mono; [apply (header_force_back _ p c cs); [exact Hpk|done|lia|bounds; lia]|]. intros e s2 ->.
    apply calls_here. exists (ip_store iw). pose proof (packet_seg _ _ _ Hpk) as (_ & Hl1 & _).
    rewrite insert_id by done. split; [rewrite Eh; by destruct iw as [? ? ? [] ?]|]. split; [by destruct (ip_store iw)|exact Hpk].
  - apply calls_here. exists s'. split; [|done]. rewrite Eh. by destruct iw as [? ? ? [] ?].
Qed.

Lemma ip4_checked_calls (w : W) iw p c cs h rest :
  packet (ip_store iw) p (c :: cs) → c_data c = ip_hdr_bytes h ++ rest → ip_hdr_ok h → Forall is_u8 (c_data c) →
  total (c :: cs) ≤ h_len h → (quoted (global_if iw) h = true → own_data c) →
  let ok := header_ok (global_if iw) h (c_data c) (total (c :: cs)) in
  calls (ip4_checked p (pb_payload (c_pbuf c)) (hdr_len h) (h_len h)) (part_set iw w)
    (if ok then passed (global_if iw) h p else drop_packet p) (λ w',
    if ok then
      ∃ s', w' = part_set (iw <| ip_store := s' |>
                  <| ip_data := mk_ip_globals true true (pb_payload (c_pbuf c)) (hdr_len h) (h_src h) (h_dest h) |>) w ∧
        s' = (ip_store iw) <| pbufs := <[c_loc c := c_pbuf (front (global_if iw) h c)]> (pbufs (ip_store iw)) |> ∧
        packet s' p (front (global_if iw) h c :: cs)
    else ∃ d, w' = part_set (iw <| ip_data := d |>) w).
Proof.
  intros Hpk Hd Hok Hu8 Hlen Hq ok. pose proof (packet_hdr _ _ _ _ _ _ Hpk Hd) as Hh.
  pose proof Hok as (Hv & Hl & Ho & Hs & Hdst). pose proof (hdr_len_range h Hv) as Hhl.
  destruct (packet_head_len _ _ _ _ Hpk) as (Hplen & Hptot & ? & ? & ?). pose proof (total_cons c cs) as Htc.
  assert (calls (drop_packet p) (part_set iw w) (drop_packet p) (λ w', ∃ d, w' = part_set (iw <| ip_data := d |>) w)) as Hdrop.
  { apply calls_here. exists (ip_data iw). by destruct iw. }
  unfold ip4_checked, ok, header_ok.
  apply calls_bind. eapply runs_field; [done|]. apply calls_bind. eapply runs_field; [done|].
  rewrite Hplen, Hptot, <- Htc. rewrite !Z.ltb_antisym.
  destruct (hdr_len h <=? zlen (c_data c)) eqn:E1; [cbn [negb orb]|by rewrite andb_false_r].
  rewrite (proj2 (Z.leb_le (hdr_len h) (h_len h))) by (bool_prop; lia). rewrite !andb_true_r.
  destruct (h_len h <=? total (c :: cs)) eqn:E2; [cbn [negb orb]|by rewrite !andb_false_r].
  destruct (IP_HLEN <=? hdr_len h) eqn:E3; [cbn [negb orb andb]|done]. bool_prop.
  assert (IP_HLEN = 20) as EH by done.
  apply calls_bind. eapply runs_read.
  { apply (inet_chksum_bytes _ _ _ (ztake (hdr_len h) (c_data c))).
    - pose proof (packet_payload _ _ _ _ Hpk) as Hrd. rewrite (mem_read_sub _ _ _ _ _ _ Hrd) by (done || lia).
      unfold zslice. by rewrite zdrop_0.
    - by apply Forall_take.
    - rewrite zlen_ztake; lia. }
  rewrite chksum_zero. destruct (ones _ =? 65535); [cbn [negb andb]|exact Hdrop].
  apply calls_bind. eapply runs_read; [apply Hh|]. apply calls_bind, runs_part, runs_modify.
  apply calls_bind. eapply runs_read; [apply Hh|]. apply calls_bind, runs_part, runs_modify.
  apply calls_bind, runs_part, runs_gets. cbn [global_if ip_data].
  match goal with |- calls _ (part_set ?x w) _ _ => set (iw2 := x) end.
  apply calls_bind. apply (runs_mono _ _ (λ b w', b = addressed (global_if iw) h ∧ w' = part_set iw2 w)).
  { unfold addressed. destruct (ip4_addr_ismulticast (h_dest h)); [by apply runs_ret|]. apply runs_part, runs_gets.
    split; [|done]. unfold ip4_input_accept. simpl. by destruct (netif_is_up (global_if iw)). }
  intros b w' [-> ->].
  assert (calls (drop_packet p) (part_set iw2 w) (drop_packet p) (λ w', ∃ d, w' = part_set (iw <| ip_data := d |>) w)) as Hdrop2.
  { apply calls_here. exists (ip_data iw2). by destruct iw. }
  destruct (_ || ip4_addr_ismulticast (h_src h)); [by rewrite andb_false_r|]. cbn [negb]. rewrite andb_true_r.
  destruct (addressed (global_if iw) h); [cbn [negb andb]|done].
  apply calls_bind. eapply runs_read; [apply Hh|]. rewrite offset_bits by done.
  destruct (_ =? 0); [cbn [negb]|done].
  eapply calls_mono; [apply (ip4_deliver_spec w iw2 p c cs h rest); try done; intros Hqq; split; [by apply Hq|lia]|].
  intros w' (s' & -> & -> & Hpk'). eexists. split; [|done]. by destruct iw.
Qed.

Lemma ip4_trim_calls iw (w : W) p c cs h rest k (Q : W → Prop) :
  packet (ip_store iw) p (c :: cs) → c_data c = ip_hdr_bytes h ++ rest → ip_hdr_ok h →
  (Z.shiftr (h_v_hl h) 4 =? 4) = true →
  runs (if h_len h <? total (c :: cs) then lift (lift (pbuf_realloc p (h_len h))) else ret tt) (part_set iw w) (λ _ w',
    calls (ip4_checked p (pb_payload (c_pbuf c)) (hdr_len h) (h_len h)) w' k Q) →
  calls (ip4_input p) (part_set iw w) k Q.
Proof.
  intros Hpk Hd Hok Hv4 Hrun. pose proof (packet_hdr _ _ _ _ _ _ Hpk Hd) as Hh.
  pose proof Hok as (Hv & Hl & _). pose proof (hdr_len_range h Hv) as Hhl.
  destruct (packet_head_len _ _ _ _ Hpk) as (_ & Hptot & _). pose proof (total_cons c cs) as Htc.
  unfold ip4_input. apply calls_bind. eapply runs_field; [done|].
  apply calls_bind. eapply runs_read; [apply Hh|]. rewrite Hv4. cbn [negb].
  fold (hdr_len h). rewrite (u8_small (hdr_len h)) by (bounds; lia).
  apply calls_bind. eapply runs_read; [apply Hh|]. rewrite be_read by done.
  apply calls_bind. eapply runs_field; [done|]. rewrite Hptot, <- Htc. apply calls_bind. exact Hrun.
Qed.
Lemma ip4_version_calls iw (w : W) p c cs h rest (Q : W → Prop) :
  packet (ip_store iw) p (c :: cs) → c_data c = ip_hdr_bytes h ++ rest → (Z.shiftr (h_v_hl h) 4 =? 4) = false → Q (part_set iw w) →
  calls (ip4_input p) (part_set iw w) (drop_packet p) Q.
Proof.
  intros Hpk Hd Hv4 HQ. pose proof (packet_hdr _ _ _ _ _ _ Hpk Hd) as Hh. unfold ip4_input. apply calls_bind. eapply runs_field; [done|].
  apply calls_bind. eapply runs_read; [apply Hh|]. rewrite Hv4. by apply calls_here.
Qed.

(** A packet that is no longer than its header says, for a protocol of the stack. *)
Lemma ip4_input_calls (w : W) iw p c cs h rest :
  packet (ip_store iw) p (c :: cs) → c_data c = ip_hdr_bytes h ++ rest → ip_hdr_ok h → Forall is_u8 (c_data c) →
  total (c :: cs) ≤ h_len h → known (h_proto h) = true →
  let ok := acceptable (global_if iw) h (c_data c) (total (c :: cs)) in
  calls (ip4_input p) (part_set iw w) (if ok then handle (h_proto h) p else drop_packet p) (λ w',
    if ok then
      ∃ s', w' = part_set (iw <| ip_store := s' |>
                  <| ip_data := mk_ip_globals true true (pb_payload (c_pbuf c)) (hdr_len h) (h_src h) (h_dest h) |>) w ∧
        s' = (ip_store iw) <| pbufs := <[c_loc c := c_pbuf (advance (hdr_len h) c)]> (pbufs (ip_store iw)) |> ∧
        packet s' p (advance (hdr_len h) c :: cs)
    else ∃ d, w' = part_set (iw <| ip_data := d |>) w).
Proof.
  intros Hpk Hd Hok Hu8 Hlen Hk ok. unfold ok, acceptable. destruct (Z.shiftr (h_v_hl h) 4 =? 4) eqn:Hv4; cbn [andb].
  - eapply ip4_trim_calls; [done..|]. rewrite (proj2 (Z.ltb_ge _ _)) by lia. apply runs_ret.
    pose proof (ip4_checked_calls w iw p c cs h rest Hpk Hd Hok Hu8 Hlen) as H. unfold passed, front, quoted in H. rewrite Hk in H.
    cbn [negb andb] in H. by apply H.
  - eapply ip4_version_calls; [done..|]. exists (ip_data iw). by destruct iw.
Qed.

(** The checks come out the same for the packet before it is trimmed. *)
Lemma header_ok_trim n h d tot : 20 ≤ h_len h → h_len h < tot → header_ok n h (ztake (h_len h) d) (h_len h) = header_ok n h d tot.
Proof.
  intros Hl Ht. unfold header_ok. destruct (IP_HLEN <=? hdr_len h) eqn:E0; [|done]. bool_prop. assert (IP_HLEN = 20) as EH by done.
  pose proof (zlen_nonneg d). rewrite (proj2 (Z.leb_le (h_len h) (h_len h))), (proj2 (Z.leb_le (h_len h) tot)) by lia.
  destruct (Z.leb_spec (hdr_len h) (h_len h)) as [E1|E1]; cbn [andb]; [|by rewrite !andb_false_r].
  destruct (Z.le_gt_cases (zlen d) (h_len h)) as [E2|E2]; [by rewrite (ztake_ge _ d) by lia|].
  rewrite zlen_ztake by lia. rewrite (proj2 (Z.leb_le (hdr_len h) (zlen d))), (proj2 (Z.leb_le (hdr_len h) (h_len h))) by lia.
  assert (ztake (hdr_len h) (ztake (h_len h) d) = ztake (hdr_len h) d) as ->; [|done].
  unfold ztake. rewrite take_take. f_equal. lia.
Qed.
Lemma header_short n h d tot : h_len h < 20 → header_ok n h d tot = false.
Proof.
  intros Hl. unfold header_ok. destruct (IP_HLEN <=? hdr_len h) eqn:E0; [|done]. bool_prop. assert (IP_HLEN = 20) as EH by done.
  rewrite (proj2 (Z.leb_gt (hdr_len h) (h_len h))) by lia. by rewrite andb_false_r.
Qed.

(** The packet as it is handed on. *)
Definition passed_bytes (n : netif) (h : ip_hdr) (bs : list Z) : list Z :=
  if quoted n h then ztake (h_len h) bs else zdrop (hdr_len h) (ztake (h_len h) bs).

Lemma front_bytes n h c cs : hdr_len h ≤ zlen (c_data c) → 0 ≤ hdr_len h →
  bytes (front n h c :: cs) = if quoted n h then bytes (c :: cs) else zdrop (hdr_len h) (bytes (c :: cs)).
Proof.
  intros Hl Hp. unfold front. destruct (quoted n h); [done|]. rewrite !bytes_cons. unfold advance. cbn [c_data].
  by rewrite zdrop_app_le by lia.
Qed.
Lemma front_cut n h s s1 cs0 c cs : cut_down s cs0 s1 (c :: cs) →
  cut_down s cs0 (s1 <| pbufs := <[c_loc c := c_pbuf (front n h c)]> (pbufs s1) |>) (front n h c :: cs).
Proof.
  intros [Hp Hf Ho]. assert (locs (front n h c :: cs) = locs (c :: cs)) as El by (unfold front; by case_match).
  assert (c_loc c ∈ locs cs0) as Hin by (destruct Hp as [k ->]; by left).
  split; rewrite ?El; [done| |].
  - intros Hs l Hl Hn. simpl. rewrite lookup_insert_ne by (intros <-; apply Hn; by left). by apply Hf.
  - intros l Hl. simpl. rewrite lookup_insert_ne by (by intros <-). by apply Ho.
Qed.


(** From the checks on, for a packet that was cut down to its length. *)
Lemma ip4_cut_calls (w : W) iw s1 p cs0 c cs h rest :
  let n := global_if iw in
  packet s1 p (c :: cs) → c_data c = ip_hdr_bytes h ++ rest → ip_hdr_ok h → Forall is_u8 (c_data c) →
  total (c :: cs) ≤ h_len h → own_data c → cut_down (ip_store iw) cs0 s1 (c :: cs) → bytes (c :: cs) = ztake (h_len h) (bytes cs0) →
  let ok := header_ok n h (c_data c) (total (c :: cs)) in
  calls (ip4_checked p (pb_payload (c_pbuf c)) (hdr_len h) (h_len h)) (part_set (iw <| ip_store := s1 |>) w)
    (if ok then passed n h p else drop_packet p) (λ w', ∃ s' d cs',
    w' = part_set (iw <| ip_store := s' |> <| ip_data := d |>) w ∧ packet s' p cs' ∧ cut_down (ip_store iw) cs0 s' cs' ∧
    (ok = true → d = mk_ip_globals true true (pb_payload (c_pbuf c)) (hdr_len h) (h_src h) (h_dest h) ∧
                 bytes cs' = passed_bytes n h (bytes cs0))).
Proof.
  intros n Hpk Hd Hok Hu8 Hlen Hown Hcut Hb ok. pose proof (hdr_len_range h (proj1 Hok)) as Hhl.
  pose proof (ip4_checked_calls w (iw <| ip_store := s1 |>) p c cs h rest Hpk Hd Hok Hu8 Hlen (λ _, Hown)) as H.
  cbv zeta in H. change (global_if (iw <| ip_store := s1 |>)) with n in H. fold ok in H.
  eapply calls_mono; [exact H|]. intros w'. clear H. destruct ok eqn:Eok.
  - intros (s' & -> & -> & Hpk'). eexists _, _, (front n h c :: cs). split; [done|]. split; [exact Hpk'|].
    split; [by apply front_cut|]. intros _. split; [done|]. unfold ok, header_ok in Eok. bool_prop.
    rewrite front_bytes by lia. unfold passed_bytes. by rewrite Hb.
  - intros (d & ->). exists s1, d, (c :: cs). by split_and!.
Qed.

(** C10: [ip4_input] is a filter in front of the protocols.  On a packet whose
    first pbuf holds the fixed part [h] of a header, it terminates without failing
    an assertion, and comes down to one of three calls.  If the header is
    [acceptable] (version 4, a length between 20 bytes and the first pbuf's, a
    total length that is there and includes the header, a sum of 65535, a
    destination of the interface, no broadcast or multicast source, and no
    fragment), the packet is cut to the total length in the header and goes to the
    protocol the header names, with exactly the header, options included, removed.
    If that is not a protocol of the stack, the sender is told, unless the packet
    was a broadcast or multicast: the message quotes the packet with its header; and
    the packet is freed.  In both cases the header and its addresses are in
    [ip_data] during the call, and the globals are cleared afterwards.  A packet
    that is not acceptable is freed and nothing else is called.  The pbufs cut off
    are released, and the rest of the memory is as it was. *)
Theorem ip4_input_spec (w : W) iw p c cs h rest :
  packet (ip_store iw) p (c :: cs) → c_data c = ip_hdr_bytes h ++ rest → ip_hdr_ok h → Forall is_u8 (c_data c) →
  Forall own_data (c :: cs) → Forall (freeable (ip_store iw)) (c :: cs) →
  let n := global_if iw in
  let ok := acceptable n h (c_data c) (total (c :: cs)) in
  calls (ip4_input p) (part_set iw w) (if ok then passed n h p else drop_packet p) (λ w', ∃ s' d cs',
    w' = part_set (iw <| ip_store := s' |> <| ip_data := d |>) w ∧ packet s' p cs' ∧ cut_down (ip_store iw) (c :: cs) s' cs' ∧
    (ok = true → d = mk_ip_globals true true (pb_payload (c_pbuf c)) (hdr_len h) (h_src h) (h_dest h) ∧
                 bytes cs' = passed_bytes n h (bytes (c :: cs)))).
Proof.
  intros Hpk Hd Hok Hu8 Hown Hfr n ok. pose proof Hok as (Hv & Hl & _). pose proof (hdr_len_range h Hv) as Hhl.
  assert (Forall own_data (c :: cs)) as [Howc _]%Forall_cons by done.
  unfold ok, acceptable. destruct (Z.shiftr (h_v_hl h) 4 =? 4) eqn:Hv4; cbn [andb].
  2: { eapply ip4_version_calls; [done..|]. exists (ip_store iw), (ip_data iw), (c :: cs). split; [by destruct iw|].
       split; [done|]. split; [apply cut_down_refl|done]. }
  eapply ip4_trim_calls; [done..|]. destruct (Z.ltb_spec (h_len h) (total (c :: cs))) as [Hlt|Hge].
  - apply runs_st. eapply runs_mono; [apply (pbuf_realloc_spec _ _ _ _ Hpk); [done..|unfold is_u16 in Hl; lia]|].
    intros [] s1 (cs1 & [Hpk1 Hb1 (c0 & r0 & c1 & cs1' & [= <- <-] & -> & (El & Ep & Ed)) Hcut]).
    assert (total (c1 :: cs1') = h_len h) as Ht1 by (unfold total; rewrite Hb1, zlen_ztake; unfold total, is_u16 in *; lia).
    destruct (Z.le_gt_cases 20 (h_len h)) as [H20|H20].
    + assert (c_data c1 = ip_hdr_bytes h ++ ztake (h_len h - 20) rest) as Hd1 by (by rewrite Ed, Hd, ztake_app_ge).
      assert (own_data c1) as Hown1 by (destruct Howc as (o & Ho & Hoo); exists o; by rewrite Ep, El).
      assert (Forall is_u8 (c_data c1)) as Hu1 by (rewrite Ed; by apply Forall_take).
      pose proof (ip4_cut_calls w iw s1 p (c :: cs) c1 cs1' h _ Hpk1 Hd1 Hok Hu1 ltac:(lia) Hown1 Hcut Hb1) as H.
      cbv zeta in H. rewrite Ht1, Ed, (header_ok_trim _ _ _ _ H20 Hlt), Ep in H. exact H.
    + rewrite header_short by done. destruct (packet_head_len _ _ _ _ Hpk1) as (Hl1 & _).
      assert (zlen (c_data c1) ≤ h_len h) as Hz1 by (rewrite <- Ht1, total_cons; pose proof (total_nonneg cs1'); lia).
      unfold ip4_checked. apply calls_bind. eapply runs_field; [exact Hpk1|]. apply calls_bind. eapply runs_field; [exact Hpk1|].
      rewrite Hl1. replace ((zlen (c_data c1) <? hdr_len h) || _ || _) with true.
      * apply calls_here. exists s1, (ip_data iw), (c1 :: cs1'). split; [by destruct iw|]. by split_and!.
      * symmetry. destruct (Z.ltb_spec (hdr_len h) IP_HLEN) as [|E]; [by rewrite !orb_true_r|].
        unfold IP_HLEN in E. rewrite (proj2 (Z.ltb_lt _ _)) by lia. done.
  - apply runs_ret. replace (part_set iw w) with (part_set (iw <| ip_store := ip_store iw |>) w) by by destruct iw.
    apply (ip4_cut_calls w iw (ip_store iw) p (c :: cs) c cs h rest); try done.
    rewrite ztake_ge; [done|]. unfold total in Hge. lia.
Qed.
End input.

(** ** A run *)

#[local] Existing Instance part_self.
#[local] Instance ex_upper : ip_upper ipstate := {
  to_udp _ := ret tt; to_tcp _ := ret tt; to_icmp _ := ret tt; to_icmp_dest_unreach _ _ := ret tt
}.

(** A UDP packet of 22 bytes from 10.1.0.2 to 10.1.0.1, padded to 25. *)
Definition ex_hdr : ip_hdr := mk_ip_hdr 69 0 22 7 0 64 17 102 204 33554698 16777482.
Definition ex_in_cell : cell :=
  mk_cell 1 (mk_pbuf None (Some (mk_ptr 1 24)) 25 25 130 0 1 0) (ip_hdr_bytes ex_hdr ++ [8; 9; 0; 0; 0]).
Definition ex_in_store : store :=
  mk_store {[1%positive := c_pbuf ex_in_cell]} {[1%positive := replicate 24 0 ++ c_data ex_in_cell]} 2 [] ∅ sys_mbox_new false.
Definition ex_in_state : ipstate := mk_ipstate ex_in_store ex_netif true no_packet 0.

Lemma ip4_input_spec_witness :
  ∃ w' cs', ip4_input (W := ipstate) (Some 1%positive) ex_in_state = Val (ERR_OK, w') ∧
    packet (ip_store w') (Some 1%positive) cs' ∧ bytes cs' = [8; 9].
Proof.
  assert (acceptable (global_if ex_in_state) ex_hdr (c_data ex_in_cell) (total [ex_in_cell]) = true) as Hok
    by (vm_compute; reflexivity).
  destruct (ip4_input_spec ex_in_state ex_in_state (Some 1%positive) ex_in_cell [] ex_hdr [8; 9; 0; 0; 0]) as (w' & Hrun & s' & d & cs' & -> & Hpk & _ & Hb).
  - split; [done|done|done|]. by repeat constructor.
  - done.
  - split_and!; done.
  - repeat (apply Forall_cons_2; [by vm_compute|]). apply Forall_nil_2.
  - repeat constructor. by exists 24.
  - apply Forall_cons_2; [|by apply Forall_nil_2]. split; [by vm_compute; right; right; left|by eexists].
  - rewrite Hok in Hrun, Hb. destruct (Hb eq_refl) as [-> Hbs]. eexists _, cs'. split; [etransitivity; [exact Hrun|reflexivity]|].
    split; [exact Hpk|]. rewrite Hbs. vm_compute. reflexivity.
Defined.
