(* ===== verification/Udp.v ===== *)
(** * UDP ([core/udp.c])

    The protocol control blocks, their binding to local addresses and ports,
    demultiplexing and sending.  The chain [udp_pcbs] is the list of the blocks'
    addresses in the order of the [next] pointers, which nothing else uses.  The
    receive callbacks and ICMP are the interface [udp_env]; a pointer to a netif
    is [true] when it is [&global_if] and [false] when it is null. *)

From S2P Require Import Prelude Mbox Heap Pbuf Def Chksum Addr Header Ip4.

Definition UDP_HLEN : Z := 8.
Definition UDP_TTL : Z := 255.
Definition UDP_LOCAL_PORT_RANGE_START : Z := 49152.
Definition UDP_LOCAL_PORT_RANGE_END : Z := 65535.
(** A block bound to this port receives what is sent to any port. *)
Definition UDP_ACCEPT_ANY_PORT : Z := 1.

Definition UDP_FLAGS_NOCHKSUM : Z := 1.
Definition UDP_FLAGS_UDPLITE : Z := 2.
Definition UDP_FLAGS_CONNECTED : Z := 4.

(** The receive callbacks: that of [native/udp.c], and others. *)
Inductive udp_recv_fn := Recv_udp_on_received | Recv_other (f : positive).
#[export] Instance udp_recv_fn_eq_dec : EqDecision udp_recv_fn.
Proof. solve_decision. Defined.

Record udp_pcb := mk_udp_pcb {
  local_ip : Z;
  remote_ip : Z;
  netif_idx : Z;
  so_options : Z;
  pcb_tos : Z;
  pcb_ttl : Z;
  pcb_flags : Z;
  local_port : Z;
  remote_port : Z;
  chksum_len_rx : Z;
  chksum_len_tx : Z;
  pcb_recv : option udp_recv_fn;
  recv_arg : option loc
}.
#[export] Instance eta_udp_pcb : Eta udp_pcb := λ r,
  mk_udp_pcb (local_ip r) (remote_ip r) (netif_idx r) (so_options r) (pcb_tos r) (pcb_ttl r) (pcb_flags r)
    (local_port r) (remote_port r) (chksum_len_rx r) (chksum_len_tx r) (pcb_recv r) (recv_arg r).

(** The variables of udp.c, the control blocks, and IP underneath. *)
Record ustate := mk_ustate {
  u_ip : ipstate;
  udp_port : Z;
  udp_pcbs : list loc;
  udp_mem : gmap loc udp_pcb;
  udp_data_src : Z;
  udp_data_dst : Z
}.
#[export] Instance eta_ustate : Eta ustate := λ r,
  mk_ustate (u_ip r) (udp_port r) (udp_pcbs r) (udp_mem r) (udp_data_src r) (udp_data_dst r).
#[export] Program Instance part_ustate : Part ipstate ustate := {
  part_get := u_ip; part_set iw u := u <| u_ip := iw |>
}.
Next Obligation. done. Qed.
Next Obligation. by intros []. Qed.
Next Obligation. done. Qed.

Definition get_pcb (u : ustate) (l : loc) : res udp_pcb := deref (udp_mem u !! l).
Definition set_pcb (l : loc) (c : udp_pcb) : M ustate unit := λ u,
  match udp_mem u !! l with
  | None => Err Undefined
  | Some _ => Val (tt, u <| udp_mem := <[l := c]> (udp_mem u) |>)
  end.
Definition update_pcb (l : loc) (f : udp_pcb → udp_pcb) : M ustate unit :=
  let! c := ask (λ u, get_pcb u l) in set_pcb l (f c).

(** [for (pcb = l; pcb != NULL; pcb = pcb->next)], up to the first block with [f]. *)
Fixpoint find_pcb (f : loc → udp_pcb → bool) (l : list loc) (u : ustate) : res (option loc) :=
  match l with
  | [] => Val None
  | pcb :: l => let* c := get_pcb u pcb in if f pcb c then Val (Some pcb) else find_pcb f l u
  end.

(** ** Ports and bindings *)

Definition UDP_ENSURE_LOCAL_PORT_RANGE (port : Z) : Z :=
  u16 (Z.land port (u16 (Z.lnot UDP_LOCAL_PORT_RANGE_START)) + UDP_LOCAL_PORT_RANGE_START).

(** [rand] is what [LWIP_RAND] returns. *)
Definition udp_init (rand : Z) : M ustate unit :=
  modify (λ u, u <| udp_port := UDP_ENSURE_LOCAL_PORT_RANGE rand |>).

Definition next_port (port : Z) : Z :=
  if port =? UDP_LOCAL_PORT_RANGE_END then UDP_LOCAL_PORT_RANGE_START else u16 (port + 1).

Fixpoint new_port_loop (fuel : nat) (n : Z) : M ustate Z :=
  match fuel with
  | O => fail OutOfFuel
  | S fuel =>
    do! modify (λ u, u <| udp_port := next_port (udp_port u) |>);
    let! port := gets udp_port in
    let! pcbs := gets udp_pcbs in
    let! used := ask (find_pcb (λ _ c, local_port c =? port) pcbs) in
    match used with
    | None => ret port
    | Some _ =>
      let n := u16 (n + 1) in
      if UDP_LOCAL_PORT_RANGE_END - UDP_LOCAL_PORT_RANGE_START <? n then ret 0 else new_port_loop fuel n
    end
  end.
Definition udp_new_port : M ustate Z := new_port_loop (Z.to_nat 16384) 0.

(** Two bindings of a port exclude each other. *)
Definition ip_conflict (a b : Z) : bool := (a =? b) || ip4_addr_isany b || ip4_addr_isany a.

(** [port], or a free one for 0, or 0 when there is none. *)
Definition udp_bind_port (pcb : loc) (ipaddr port : Z) : M ustate Z :=
  if port =? 0 then udp_new_port else
  let! pcbs := gets udp_pcbs in
  let! other := ask (find_pcb (λ ipcb c, bool_decide (pcb ≠ ipcb) && (local_port c =? port)
                                         && ip_conflict (local_ip c) ipaddr) pcbs) in
  match other with Some _ => ret 0 | None => ret port end.

Definition on_list (pcb : loc) : M ustate bool :=
  let! pcbs := gets udp_pcbs in
  let! found := ask (find_pcb (λ ipcb _, bool_decide (pcb = ipcb)) pcbs) in
  ret (bool_decide (found ≠ None)).

Definition udp_bind (pcb : option loc) (ipaddr : option Z) (port : Z) : M ustate err_t :=
  let ipaddr := match ipaddr with None => IPADDR_ANY | Some a => a end in
  let! pcb := valid_ptr pcb in
  let! rebind := on_list pcb in
  let! port := udp_bind_port pcb ipaddr port in
  if port =? 0 then ret ERR_USE else
  do! update_pcb pcb (λ c, c <| local_ip := ipaddr |> <| local_port := port |>);
  do! (if rebind then ret tt else modify (λ u, u <| udp_pcbs := pcb :: udp_pcbs u |>));
  ret ERR_OK.

Definition udp_connect (pcb : option loc) (ipaddr : option Z) (port : Z) : M ustate err_t :=
  let! l := valid_ptr pcb in
  let! ipaddr := valid_ptr ipaddr in
  let! c := ask (λ u, get_pcb u l) in
  let! e := (if local_port c =? 0 then udp_bind pcb (Some (local_ip c)) (local_port c) else ret ERR_OK) in
  if negb (is_ok e) then ret e else
  do! update_pcb l (λ c, c <| remote_ip := ipaddr |> <| remote_port := port |>
                           <| pcb_flags := u8 (Z.lor (pcb_flags c) UDP_FLAGS_CONNECTED) |>);
  let! listed := on_list l in
  do! (if listed then ret tt else modify (λ u, u <| udp_pcbs := l :: udp_pcbs u |>));
  ret ERR_OK.

Definition udp_disconnect (pcb : option loc) : M ustate unit :=
  let! l := valid_ptr pcb in
  update_pcb l (λ c, c <| remote_ip := IPADDR_ANY |> <| remote_port := 0 |> <| netif_idx := NETIF_NO_INDEX |>
                       <| pcb_flags := Z.land (pcb_flags c) (u8 (Z.lnot UDP_FLAGS_CONNECTED)) |>).

Definition udp_bind_netif (pcb : option loc) (netif : bool) : M ustate unit :=
  let! n := gets (λ u, global_if (u_ip u)) in
  let! l := ask (λ _, deref pcb) in
  update_pcb l (λ c, c <| netif_idx := if netif then netif_get_index n else NETIF_NO_INDEX |>).

Definition udp_recv (pcb : option loc) (recv : option udp_recv_fn) (a : option loc) : M ustate unit :=
  let! l := valid_ptr pcb in
  update_pcb l (λ c, c <| pcb_recv := recv |> <| recv_arg := a |>).

(** Unlinking: the first occurrence goes. *)
Fixpoint unlink_pcb (pcb : loc) (l : list loc) : list loc :=
  match l with
  | [] => []
  | a :: l => if decide (a = pcb) then l else a :: unlink_pcb pcb l
  end.

Definition udp_remove (pcb : option loc) : M ustate unit :=
  let! l := valid_ptr pcb in
  do! ask (λ u, get_pcb u l);
  do! modify (λ u, u <| udp_pcbs := unlink_pcb l (udp_pcbs u) |>);
  do! lift (lift (memp_free MEMP_UDP_PCB pcb));
  modify (λ u, u <| udp_mem := delete l (udp_mem u) |>).

Definition new_pcb : udp_pcb := mk_udp_pcb 0 0 0 0 0 UDP_TTL 0 0 0 0 0 None None.

Definition udp_new : M ustate (option loc) :=
  let! pcb := lift (lift (memp_malloc MEMP_UDP_PCB)) in
  match pcb with
  | None => ret None
  | Some l => do! modify (λ u, u <| udp_mem := <[l := new_pcb]> (udp_mem u) |>); ret (Some l)
  end.
Definition udp_new_ip_type (type : Z) : M ustate (option loc) := udp_new.

Fixpoint rebind_pcbs (old_addr new_addr : Z) (l : list loc) : M ustate unit :=
  match l with
  | [] => ret tt
  | pcb :: l =>
    let! c := ask (λ u, get_pcb u pcb) in
    do! (if local_ip c =? old_addr then set_pcb pcb (c <| local_ip := new_addr |>) else ret tt);
    rebind_pcbs old_addr new_addr l
  end.
Definition udp_netif_ip_addr_changed (old_addr new_addr : Z) : M ustate unit :=
  if negb (ip4_addr_isany old_addr) && negb (ip4_addr_isany new_addr)
  then let! l := gets udp_pcbs in rebind_pcbs old_addr new_addr l
  else ret tt.

(** ** Input *)

(** Bound to the destination of the packet being received, on the interface it
    came in by. *)
Definition udp_input_local_match (c : udp_pcb) (broadcast : bool) (u : ustate) : res bool :=
  let d := ip_data (u_ip u) in
  let n := global_if (u_ip u) in
  let* other_if :=
    if netif_idx c =? NETIF_NO_INDEX then Val false
    else if current_input_netif d then Val (negb (netif_idx c =? netif_get_index n)) else Err Undefined in
  if other_if then Val false else
  if broadcast then
    Val (ip4_addr_isany (local_ip c) || (current_iphdr_dest d =? IPADDR_BROADCAST)
         || ip4_addr_netcmp (local_ip c) (current_iphdr_dest d) (ni_netmask n))
  else Val (ip4_addr_isany (local_ip c) || (local_ip c =? current_iphdr_dest d)).

Definition udp_match (dest : Z) (broadcast : bool) (c : udp_pcb) (u : ustate) : res bool :=
  if (local_port c =? dest) || (local_port c =? UDP_ACCEPT_ANY_PORT)
  then udp_input_local_match c broadcast u else Val false.

(** Connected to the sender, or to its port at any address. *)
Definition udp_full_match (src : Z) (c : udp_pcb) (u : ustate) : bool :=
  (remote_port c =? src)
  && (ip4_addr_isany (remote_ip c) || (remote_ip c =? current_iphdr_src (ip_data (u_ip u)))).

(** The unconnected block to fall back on, after the matching [pcb]. *)
Definition udp_uncon (pcb : loc) (c : udp_pcb) (broadcast : bool) (uncon : option loc) (u : ustate)
    : res (option loc) :=
  if negb (Z.land (pcb_flags c) UDP_FLAGS_CONNECTED =? 0) then Val uncon else
  match uncon with
  | None => Val (Some pcb)
  | Some l =>
    if broadcast && (current_iphdr_dest (ip_data (u_ip u)) =? IPADDR_BROADCAST) then
      let* cl := get_pcb u l in
      let addr := ni_ip_addr (global_if (u_ip u)) in
      if negb (local_ip cl =? addr) && (local_ip c =? addr) then Val (Some pcb) else Val uncon
    else Val uncon
  end.

(** The loop over the blocks: [seen] are those before, the last one first.  A
    full match is moved to the front. *)
Fixpoint udp_find (src dest : Z) (broadcast : bool) (seen l : list loc) (uncon : option loc)
    : M ustate (option loc * option loc) :=
  match l with
  | [] => ret (None, uncon)
  | pcb :: l =>
    let! c := ask (λ u, get_pcb u pcb) in
    let! m := ask (udp_match dest broadcast c) in
    if m then
      let! uncon := ask (udp_uncon pcb c broadcast uncon) in
      let! full := gets (udp_full_match src c) in
      if full then
        do! (match seen with
             | [] => ret tt
             | _ => modify (λ u, u <| udp_pcbs := pcb :: rev seen ++ l |>)
             end);
        ret (Some pcb, uncon)
      else udp_find src dest broadcast (pcb :: seen) l uncon
    else udp_find src dest broadcast (pcb :: seen) l uncon
  end.

(** The block the packet goes to. *)
Definition udp_demux (src dest : Z) (broadcast : bool) : M ustate (option loc) :=
  let! pcbs := gets udp_pcbs in
  let! r := udp_find src dest broadcast [] pcbs None in
  ret (match fst r with Some pcb => Some pcb | None => snd r end).

(** The checksum of the datagram [p] with its header at [udphdr]. *)
Definition udp_verify (p : option loc) (udphdr : option ptr) (u : ustate) : res bool :=
  let s := ip_store (u_ip u) in
  let d := ip_data (u_ip u) in
  let* l := deref p in
  let* q := get_pbuf s l in
  let* proto := rd8 s (current_ip4_header d) 9 in
  if proto =? IP_PROTO_UDPLITE then
    let* nlen := rd16 s udphdr 4 in
    let chklen := lwip_htons nlen in
    if (chklen <? UDP_HLEN) && negb (chklen =? 0) then Val false else
    let chklen := if chklen =? 0 then pb_tot_len q else chklen in
    let* c := ip_chksum_pseudo_partial s p IP_PROTO_UDPLITE (pb_tot_len q) chklen
                (current_iphdr_src d) (current_iphdr_dest d) in
    Val (c =? 0)
  else
    let* chksum := rd16 s udphdr 6 in
    if chksum =? 0 then Val true else
    let* c := ip_chksum_pseudo s p IP_PROTO_UDP (pb_tot_len q) (current_iphdr_src d) (current_iphdr_dest d) in
    Val (c =? 0).

(** The receive callbacks, and ICMP. *)
Class udp_env (W : Type) := {
  udp_callback : udp_recv_fn → option loc → loc → option loc → Z → Z → M W unit;
  icmp_port_unreach : option loc → M W unit
}.

Section udp.
Context {W : Type} `{!Part ustate W} `{!udp_env W} `{!netif_driver W}.

Abbreviation ud m := (lift (P := ustate) (S := W) m).
Abbreviation st m := (lift (P := ustate) (S := W) (lift (P := ipstate) (lift (P := store) m))).

Definition udp_drop (p : option loc) : M W unit := let! _ := st (pbuf_free p) in ret tt.

(** What follows the demultiplexing: [for_us] and on. *)
Definition udp_deliver (p : option loc) (udphdr : option ptr) (pcb : option loc) (broadcast : bool) (src : Z)
    : M W unit :=
  let! w := ud (gets u_ip) in
  let dest_addr := current_iphdr_dest (ip_data w) in
  let for_us := match pcb with Some _ => true | None => ni_ip_addr (global_if w) =? dest_addr end in
  if negb for_us then udp_drop p else
  let! chk := ud (ask (udp_verify p udphdr)) in
  if negb chk then udp_drop p else
  let! r := st (pbuf_remove_header p UDP_HLEN) in
  do! lwip_assert (r =? 0);
  match pcb with
  | Some pcb =>
    let! c := ud (ask (λ u, get_pcb u pcb)) in
    match pcb_recv c with
    | Some recv => udp_callback recv (recv_arg c) pcb p (current_iphdr_src (ip_data w)) src
    | None => udp_drop p
    end
  | None =>
    do! (if negb broadcast && negb (ip4_addr_ismulticast dest_addr) then
           let! _ := st (pbuf_header_force p (s16 (current_ip_header_tot_len (ip_data w) + UDP_HLEN))) in
           icmp_port_unreach p
         else ret tt);
    udp_drop p
  end.

Definition udp_input (p : option loc) : M W unit :=
  do! lwip_assert (bool_decide (p ≠ None));
  let! len := st (len_of p) in
  if len <? UDP_HLEN then udp_drop p else
  let! udphdr := st (payload_of p) in
  let! broadcast := ud (lift (ask current_isbroadcast)) in
  let! nsrc := st (ask (λ s, rd16 s udphdr 0)) in
  let! ndest := st (ask (λ s, rd16 s udphdr 2)) in
  let src := lwip_htons nsrc in
  let dest := lwip_htons ndest in
  do! ud (modify (λ u, u <| udp_data_src := src |> <| udp_data_dst := dest |>));
  let! pcb := ud (udp_demux src dest broadcast) in
  udp_deliver p udphdr pcb broadcast src.

(** ** Output *)

(** Room for the UDP header: before the packet, or in a pbuf of its own. *)
Definition udp_header_room (p : option loc) : M store (option loc) :=
  let! r := pbuf_add_header p UDP_HLEN in
  if r =? 0 then ret p else
  let! q := pbuf_alloc PBUF_IP UDP_HLEN PBUF_RAM in
  match q with
  | None => ret None
  | Some _ =>
    let! tot_len := tot_len_of p in
    do! (if negb (tot_len =? 0) then pbuf_chain q p else ret tt);
    ret q
  end.

(** The header's fields; the protocol number is returned. *)
Definition udp_write_header (c : udp_pcb) (q : option loc) (udphdr : option ptr) (src_ip dst_ip src_port dst_port : Z)
    : M store Z :=
  do! wr16 udphdr 0 (lwip_htons src_port);
  do! wr16 udphdr 2 (lwip_htons dst_port);
  do! wr16 udphdr 6 0;
  let! tot_len := tot_len_of q in
  if negb (Z.land (pcb_flags c) UDP_FLAGS_UDPLITE =? 0) then
    let chklen := chksum_len_tx c in
    let illegal := (chklen <? UDP_HLEN) || (tot_len <? chklen) in
    let chklen_hdr := if illegal then 0 else chklen in
    let chklen := if illegal then tot_len else chklen in
    do! wr16 udphdr 4 (lwip_htons chklen_hdr);
    let! chk := ask (λ s, ip_chksum_pseudo_partial s q IP_PROTO_UDPLITE tot_len chklen src_ip dst_ip) in
    do! wr16 udphdr 6 (if chk =? 0 then 65535 else chk);
    ret IP_PROTO_UDPLITE
  else
    do! wr16 udphdr 4 (lwip_htons tot_len);
    do! (if Z.land (pcb_flags c) UDP_FLAGS_NOCHKSUM =? 0 then
           let! chk := ask (λ s, ip_chksum_pseudo s q IP_PROTO_UDP tot_len src_ip dst_ip) in
           wr16 udphdr 6 (if chk =? 0 then 65535 else chk)
         else ret tt);
    ret IP_PROTO_UDP.

#[local] Instance ip_part : Part ipstate W := part_trans ipstate ustate W.

Definition udp_sendto_if_src_port (pcb p : option loc) (dst_ip : option Z) (dst_port : Z) (netif : bool)
    (src_ip : option Z) (src_port : Z) : M W err_t :=
  let! l := valid_ptr pcb in
  do! lwip_error (bool_decide (p ≠ None));
  let! dst := valid_ptr dst_ip in
  let! src := valid_ptr src_ip in
  do! lwip_error netif;
  let! c := ud (ask (λ u, get_pcb u l)) in
  let! e := (if (src_port =? 0) && (local_port c =? 0)
             then ud (udp_bind pcb (Some (local_ip c)) (local_port c)) else ret ERR_OK) in
  if negb (is_ok e) then ret e else
  let! c := ud (ask (λ u, get_pcb u l)) in
  let src_port := if src_port =? 0 then local_port c else src_port in
  let! tot_len := st (tot_len_of p) in
  if u16 (tot_len + UDP_HLEN) <? tot_len then ret ERR_MEM else
  let! q := st (udp_header_room p) in
  match q with
  | None => ret ERR_MEM
  | Some _ =>
    let! len := st (len_of q) in
    do! lwip_assert (UDP_HLEN <=? len);
    let! udphdr := st (payload_of q) in
    let! ip_proto := st (udp_write_header c q udphdr src dst src_port dst_port) in
    let! e := ip4_output_if_src q src_ip dst_ip (pcb_ttl c) (pcb_tos c) ip_proto in
    do! (if bool_decide (q = p) then ret tt else udp_drop q);
    ret e
  end.

Definition udp_sendto_if_src (pcb p : option loc) (dst_ip : option Z) (dst_port : Z) (netif : bool) (src_ip : option Z)
    : M W err_t :=
  let! l := ud (ask (λ _, deref pcb)) in
  let! c := ud (ask (λ u, get_pcb u l)) in
  udp_sendto_if_src_port pcb p dst_ip dst_port netif src_ip (local_port c).

Definition udp_sendto_if (pcb p : option loc) (dst_ip : option Z) (dst_port : Z) (netif : bool) : M W err_t :=
  let! l := valid_ptr pcb in
  do! lwip_error (bool_decide (p ≠ None));
  do! lwip_error (bool_decide (dst_ip ≠ None));
  do! lwip_error netif;
  let! c := ud (ask (λ u, get_pcb u l)) in
  let! n := ud (gets (λ u, global_if (u_ip u))) in
  if ip4_addr_isany (local_ip c) || ip4_addr_ismulticast (local_ip c)
  then udp_sendto_if_src pcb p dst_ip dst_port netif (Some (ni_ip_addr n))
  else if negb (local_ip c =? ni_ip_addr n) then ret ERR_RTE
  else udp_sendto_if_src pcb p dst_ip dst_port netif (Some (local_ip c)).

Definition udp_sendto (pcb p : option loc) (dst_ip : option Z) (dst_port : Z) : M W err_t :=
  let! l := valid_ptr pcb in
  do! lwip_error (bool_decide (p ≠ None));
  let! dst := valid_ptr dst_ip in
  let! c := ud (ask (λ u, get_pcb u l)) in
  let! netif := ud (lift (if negb (netif_idx c =? NETIF_NO_INDEX) then gets (netif_get_by_index (netif_idx c))
                          else ip4_route_src (Some (local_ip c)) dst)) in
  if negb netif then ret ERR_RTE else udp_sendto_if pcb p dst_ip dst_port netif.

Definition udp_send (pcb p : option loc) : M W err_t :=
  let! l := valid_ptr pcb in
  do! lwip_error (bool_decide (p ≠ None));
  let! c := ud (ask (λ u, get_pcb u l)) in
  udp_sendto pcb p (Some (remote_ip c)) (remote_port c).
End udp.
