(* ===== verification/UdpBind.v ===== *)
(** * UDP bindings

    The search for a free port ends and finds the next one there is; and however
    the application calls the functions of [core/udp.c], no two blocks are bound
    to the same port of the same address, [IP_ANY] standing for every address. *)

From S2P Require Import Prelude Mbox Heap HeapFacts Pbuf Def Addr Ip4 Udp.

Implicit Types u : ustate.

(** ** Looking through the chain *)

Definition known_pcbs u (l : list loc) : Prop := ∀ a, a ∈ l → is_Some (udp_mem u !! a).

Lemma find_pcb_spec f l u : known_pcbs u l →
  (∃ a c, find_pcb f l u = Val (Some a) ∧ a ∈ l ∧ udp_mem u !! a = Some c ∧ f a c = true) ∨
  (find_pcb f l u = Val None ∧ ∀ a c, a ∈ l → udp_mem u !! a = Some c → f a c = false).
Proof.
  induction l as [|a l IH]; intros Hk.
  { right. split; [done|]. by intros ? ? ?%not_elem_of_nil. }
  destruct (Hk a) as [c Hc]; [by left|]. simpl. unfold get_pcb. rewrite Hc. cbn [deref rbind].
  destruct (f a c) eqn:E.
  - left. exists a, c. split_and!; [done|by left|done|done].
  - destruct IH as [(b & cb & -> & Hin & ?)|[-> Hno]]; [intros b Hb; apply Hk; by right| |].
    + left. exists b, cb. split_and!; try done; [by right|tauto|tauto].
    + right. split; [done|]. intros b cb [->|Hin]%elem_of_cons Hb; [congruence|by apply (Hno b)].
Qed.

(** ** The search for a free port *)

Definition PORTS : Z := 16384.
Definition local_range (port : Z) : Prop := UDP_LOCAL_PORT_RANGE_START ≤ port ≤ UDP_LOCAL_PORT_RANGE_END.
(** The [k]-th port after [p] in the range, cyclically. *)
Definition port_after (p k : Z) : Z := UDP_LOCAL_PORT_RANGE_START + (p - UDP_LOCAL_PORT_RANGE_START + k) mod PORTS.
Definition port_used u (port : Z) : Prop :=
  ∃ l c, l ∈ udp_pcbs u ∧ udp_mem u !! l = Some c ∧ local_port c = port.

Lemma port_after_range p k : local_range (port_after p k).
Proof.
  unfold local_range, port_after, UDP_LOCAL_PORT_RANGE_START, UDP_LOCAL_PORT_RANGE_END, PORTS.
  pose proof (Z.mod_pos_bound (p - 49152 + k) 16384). lia.
Qed.
Lemma port_after_0 p : local_range p → port_after p 0 = p.
Proof.
  unfold local_range, port_after, UDP_LOCAL_PORT_RANGE_START, UDP_LOCAL_PORT_RANGE_END, PORTS.
  intros. rewrite Z.mod_small; lia.
Qed.
Lemma next_port_after p k : next_port (port_after p k) = port_after p (k + 1).
Proof.
  pose proof (port_after_range p k) as Hr. unfold next_port.
  unfold local_range, port_after, UDP_LOCAL_PORT_RANGE_START, UDP_LOCAL_PORT_RANGE_END, PORTS in *.
  destruct (Z.eqb_spec (49152 + (p - 49152 + k) mod 16384) 65535); [Z.div_mod_to_equations; lia|].
  rewrite u16_small by (bounds; lia). Z.div_mod_to_equations; lia.
Qed.
(** Every port of the range is one of the 16384 after [p]. *)
Lemma port_after_onto p q : local_range q → ∃ k, 0 < k ≤ PORTS ∧ port_after p k = q.
Proof.
  unfold local_range, port_after, UDP_LOCAL_PORT_RANGE_START, UDP_LOCAL_PORT_RANGE_END, PORTS.
  intros Hq. exists ((q - p - 1) mod 16384 + 1). split; Z.div_mod_to_equations; lia.
Qed.

Lemma new_port_loop_spec u p fuel : ∀ n,
  known_pcbs u (udp_pcbs u) → 0 ≤ n → n + Z.of_nat fuel = PORTS → (0 < fuel)%nat →
  (∀ k, 0 < k ≤ n → port_used u (port_after p k)) →
  runs (new_port_loop fuel n) (u <| udp_port := port_after p n |>) (λ r u', ∃ k, 0 < k ≤ PORTS ∧
    u' = u <| udp_port := port_after p k |> ∧ (∀ j, 0 < j < k → port_used u (port_after p j)) ∧
    (r = port_after p k ∧ ¬ port_used u r ∨
     r = 0 ∧ ∀ q, local_range q → port_used u q)).
Proof.
  induction fuel as [|fuel IH]; intros n Hk Hn Hf Hpos Hused; [lia|]. cbn [new_port_loop].
  set (u1 := u <| udp_port := port_after p (n + 1) |>).
  apply runs_bind, runs_modify. change (udp_port (u <| udp_port := port_after p n |>)) with (port_after p n).
  rewrite next_port_after. change (setter udp_port (λ _, port_after p (n + 1)) (u <| udp_port := port_after p n |>)) with u1.
  apply runs_bind, runs_gets. apply runs_bind, runs_gets.
  change (udp_port u1) with (port_after p (n + 1)). change (udp_pcbs u1) with (udp_pcbs u).
  destruct (find_pcb_spec (λ _ c, local_port c =? port_after p (n + 1)) (udp_pcbs u) u1 Hk)
    as [(a & c & E & Ha & Hc & Hp)|[E Hno]]; apply runs_bind; (eapply runs_ask; [exact E|]).
  - bool_prop. assert (port_used u (port_after p (n + 1))) as Hu by (by exists a, c).
    assert (∀ k, 0 < k ≤ n + 1 → port_used u (port_after p k)) as Hall.
    { intros k Hkk. destruct (decide (k = n + 1)) as [->|]; [done|]. apply Hused. lia. }
    unfold PORTS in Hf. rewrite u16_small by (bounds; lia). case_match eqn:En; bool_prop;
      unfold UDP_LOCAL_PORT_RANGE_END, UDP_LOCAL_PORT_RANGE_START in En.
    + apply runs_ret. exists (n + 1). unfold PORTS. split_and!; [lia|lia|done|intros; apply Hall; lia|].
      right. split; [done|]. intros q Hq. destruct (port_after_onto p q Hq) as (k & Hk1 & <-). apply Hall.
      unfold PORTS in Hk1. lia.
    + apply IH; [done|lia|unfold PORTS; lia|lia|done].
  - apply runs_ret. exists (n + 1). unfold PORTS in *. split_and!; [lia|lia|done|intros; apply Hused; lia|].
    left. split; [done|]. intros (a & c & Ha & Hc & Hp). specialize (Hno a c Ha Hc). bool_prop. done.
Qed.

Lemma udp_new_port_runs u : known_pcbs u (udp_pcbs u) → local_range (udp_port u) →
  runs udp_new_port u (λ r u', ∃ k, 0 < k ≤ PORTS ∧ u' = u <| udp_port := port_after (udp_port u) k |> ∧
    (∀ j, 0 < j < k → port_used u (port_after (udp_port u) j)) ∧
    (r = port_after (udp_port u) k ∧ ¬ port_used u r ∨ r = 0 ∧ ∀ q, local_range q → port_used u q)).
Proof.
  intros Hk Hr. pose proof (new_port_loop_spec u (udp_port u) (Z.to_nat 16384) 0 Hk) as H.
  rewrite port_after_0 in H by done. replace (u <| udp_port := udp_port u |>) with u in H by by destruct u.
  apply H; try done; lia.
Qed.

(** [udp_new_port] ends, after at most the 16384 ports of the range: it
    returns the first port after the last one given out, cyclically, that no
    block on the chain is bound to, or 0 when every port of the range is taken. *)
Theorem udp_new_port_spec u : known_pcbs u (udp_pcbs u) → local_range (udp_port u) →
  runs udp_new_port u (λ r u', ∃ k, 0 < k ≤ PORTS ∧ u' = u <| udp_port := port_after (udp_port u) k |> ∧
    (∀ j, 0 < j < k → port_used u (port_after (udp_port u) j)) ∧
    (r = port_after (udp_port u) k ∧ ¬ port_used u r ∨ r = 0 ∧ ∀ q, local_range q → port_used u q)).
Proof. apply udp_new_port_runs. Qed.

(** ** Exclusive bindings *)

(** The chain visits allocated blocks, once each, and those that are bound; two
    on it do not have the same port at conflicting addresses. *)
Record udp_ok u : Prop := {
  ok_nodup : NoDup (udp_pcbs u);
  ok_known : known_pcbs u (udp_pcbs u);
  ok_bound : ∀ l c, udp_mem u !! l = Some c → local_port c ≠ 0 ↔ l ∈ udp_pcbs u;
  ok_excl : ∀ a b ca cb, a ∈ udp_pcbs u → b ∈ udp_pcbs u → a ≠ b →
    udp_mem u !! a = Some ca → udp_mem u !! b = Some cb →
    local_port ca = local_port cb → ip_conflict (local_ip ca) (local_ip cb) = false;
  ok_range : local_range (udp_port u);
  ok_fresh : ∀ l, is_Some (udp_mem u !! l) → (l < next_loc (ip_store (u_ip u)))%positive
}.

Lemma ip_conflict_sym a b : ip_conflict a b = ip_conflict b a.
Proof.
  unfold ip_conflict. rewrite (Z.eqb_sym a b).
  by destruct (b =? a), (ip4_addr_isany a), (ip4_addr_isany b).
Qed.

(** A block changed in other respects than its binding. *)
Lemma udp_ok_update u l c c' :
  udp_ok u → udp_mem u !! l = Some c → local_ip c' = local_ip c → local_port c' = local_port c →
  udp_ok (u <| udp_mem := <[l := c']> (udp_mem u) |>).
Proof.
  intros [Hnd Hk Hb He Hr Hf] Hl Hip Hport. split; simpl; try done.
  - intros a Ha. simpl. destruct (decide (a = l)) as [->|]; [rewrite lookup_insert_eq; by eexists|].
    rewrite lookup_insert_ne by done. by apply Hk.
  - intros a ca. destruct (decide (a = l)) as [->|]; [|rewrite lookup_insert_ne by done; apply Hb].
    rewrite lookup_insert_eq. intros [= <-]. rewrite Hport. by apply Hb.
  - assert (∀ a ca, <[l:=c']> (udp_mem u) !! a = Some ca → ∃ c0, udp_mem u !! a = Some c0 ∧
      local_ip c0 = local_ip ca ∧ local_port c0 = local_port ca) as Hback.
    { intros a ca. destruct (decide (a = l)) as [->|]; [|rewrite lookup_insert_ne by done; by eauto].
      rewrite lookup_insert_eq. intros [= <-]. eauto. }
    intros a b ca cb Ha Hb' Hne (xa & Hxa & <- & <-)%Hback (xb & Hxb & <- & <-)%Hback. by apply (He a b).
  - intros a Ha. apply Hf. destruct (decide (a = l)) as [->|]; [by eexists|]. by rewrite lookup_insert_ne in Ha.
Qed.

Lemma yields_update_pcb u l g (Q : unit → ustate → Prop) :
  (∀ c, udp_mem u !! l = Some c → Q tt (u <| udp_mem := <[l := g c]> (udp_mem u) |>)) →
  yields (update_pcb l g) u Q.
Proof.
  intros HQ. apply yields_bind, yields_ask. intros c Hc. unfold get_pcb in Hc.
  destruct (udp_mem u !! l) as [c'|] eqn:E; [|done]. injection Hc as <-. unfold yields, set_pcb. rewrite E. by apply HQ.
Qed.

(** [pcb] bound to [port] at [ip], which no other block excludes. *)
Lemma udp_ok_bound u l c ip port :
  udp_ok u → udp_mem u !! l = Some c → port ≠ 0 →
  (∀ a ca, a ∈ udp_pcbs u → a ≠ l → udp_mem u !! a = Some ca → local_port ca = port → ip_conflict (local_ip ca) ip = false) →
  udp_ok (u <| udp_mem := <[l := c <| local_ip := ip |> <| local_port := port |>]> (udp_mem u) |>
            <| udp_pcbs := if decide (l ∈ udp_pcbs u) then udp_pcbs u else l :: udp_pcbs u |>).
Proof.
  intros [Hnd Hk Hb He Hr Hf] Hl Hport Hfree.
  assert (∀ a, a ∈ (if decide (l ∈ udp_pcbs u) then udp_pcbs u else l :: udp_pcbs u) ↔ a = l ∨ a ∈ udp_pcbs u) as Hin.
  { intros a. case_decide; [|apply elem_of_cons]. naive_solver. }
  split; simpl; try done.
  - case_decide; [done|]. by constructor.
  - intros a [->|Ha]%Hin; simpl; [rewrite lookup_insert_eq; by eexists|].
    destruct (decide (a = l)) as [->|]; [rewrite lookup_insert_eq; by eexists|]. rewrite lookup_insert_ne by done. by apply Hk.
  - intros a ca. rewrite Hin. destruct (decide (a = l)) as [->|].
    + rewrite lookup_insert_eq. intros [= <-]. simpl. tauto.
    + rewrite lookup_insert_ne by done. intros Ha. rewrite (Hb _ _ Ha). tauto.
  - intros a b ca cb Ha%Hin Hb'%Hin Hne. destruct (decide (a = l)) as [->|], (decide (b = l)) as [->|]; try done.
    + rewrite lookup_insert_eq, lookup_insert_ne by done. intros [= <-] Hcb Hp. simpl in *.
      rewrite ip_conflict_sym. destruct Hb' as [->|Hb']; [done|]. by apply (Hfree b).
    + rewrite lookup_insert_eq, lookup_insert_ne by done. intros Hca [= <-] Hp. simpl in *.
      destruct Ha as [->|Ha]; [done|]. by apply (Hfree a).
    + rewrite !lookup_insert_ne by done. destruct Ha as [->|Ha], Hb' as [->|Hb']; try done. by apply He.
  - intros a Ha. apply Hf. destruct (decide (a = l)) as [->|]; [by eexists|]. by rewrite lookup_insert_ne in Ha.
Qed.

Lemma on_list_runs u l (Q : bool → ustate → Prop) :
  known_pcbs u (udp_pcbs u) → Q (bool_decide (l ∈ udp_pcbs u)) u → runs (on_list l) u Q.
Proof.
  intros Hk HQ. apply runs_bind, runs_gets.
  destruct (find_pcb_spec (λ ipcb _, bool_decide (l = ipcb)) _ _ Hk) as [(a & c & E & Ha & _ & Hp)|[E Hno]];
    apply runs_bind; (eapply runs_ask; [exact E|]); apply runs_ret.
  - apply bool_decide_eq_true in Hp. subst a. by rewrite bool_decide_eq_true_2 in HQ by done.
  - assert (l ∉ udp_pcbs u) as Hl.
    { intros Hl. destruct (Hk _ Hl) as [c Hc]. specialize (Hno _ _ Hl Hc). by rewrite bool_decide_eq_true_2 in Hno. }
    by rewrite bool_decide_eq_false_2 in HQ by naive_solver.
Qed.

(** Some other block on the chain is bound to [port] at an address that excludes [ip]. *)
Definition excluded u (l : loc) (ip port : Z) : Prop :=
  ∃ a ca, a ∈ udp_pcbs u ∧ a ≠ l ∧ udp_mem u !! a = Some ca ∧ local_port ca = port ∧ ip_conflict (local_ip ca) ip = true.

(** [udp_bind_port] finds the port asked for, or a free one. *)
Lemma udp_bind_port_runs u l ip port :
  udp_ok u →
  runs (udp_bind_port l ip port) u (λ r u', ∃ p, local_range p ∧ u' = u <| udp_port := p |> ∧
    (r ≠ 0 ∧ ¬ excluded u l ip r ∧ (port ≠ 0 → r = port) ∧ (port = 0 → local_range r ∧ ¬ port_used u r) ∨
     r = 0 ∧ (port ≠ 0 → excluded u l ip port) ∧ (port = 0 → ∀ q, local_range q → port_used u q))).
Proof.
  intros Hok. unfold udp_bind_port. destruct (Z.eqb_spec port 0) as [->|Hp].
  - eapply runs_mono; [apply udp_new_port_runs; apply Hok|].
    intros r u' (k & Hk & -> & _ & Hr). exists (port_after (udp_port u) k). split_and!; [apply port_after_range|done|].
    destruct Hr as [[-> Hr]|[-> Hr]]; [left|by right].
    pose proof (port_after_range (udp_port u) k) as Hran. split_and!; try done.
    + unfold local_range, UDP_LOCAL_PORT_RANGE_START in Hran. lia.
    + intros (a & ca & Ha & _ & Hca & Hpa & _). apply Hr. by exists a, ca.
  - assert (u = u <| udp_port := udp_port u |>) as Hu by by destruct u.
    apply runs_bind, runs_gets.
    destruct (find_pcb_spec (λ ipcb c, bool_decide (l ≠ ipcb) && (local_port c =? port) && ip_conflict (local_ip c) ip) _ _ (ok_known _ Hok))
      as [(a & c & E & Ha & Hc & Hm)|[E Hno]]; apply runs_bind; (eapply runs_ask; [exact E|]); apply runs_ret;
      exists (udp_port u); (split; [apply Hok|split; [done|]]).
    + bool_prop. right. split_and!; try done. intros _. exists a, c.
      match goal with H : bool_decide _ = true |- _ => apply bool_decide_eq_true in H end. split_and!; congruence || done.
    + left. split_and!; try done. intros (a & ca & Ha & Hne & Hca & Hpa & Hx). specialize (Hno _ _ Ha Hca).
      rewrite bool_decide_eq_true_2, Hpa, Z.eqb_refl, Hx in Hno by auto. done.
Qed.

Lemma udp_ok_port u p : udp_ok u → local_range p → udp_ok (u <| udp_port := p |>).
Proof. intros [] ?. by split. Qed.

Lemma udp_bind_runs u l c ipaddr port :
  let ip := default IPADDR_ANY ipaddr in
  udp_ok u → udp_mem u !! l = Some c →
  runs (udp_bind (Some l) ipaddr port) u (λ e u', udp_ok u' ∧
    (e = ERR_OK ∧ (∃ p p', local_range p ∧ p' ≠ 0 ∧ ¬ excluded u l ip p' ∧
       (port ≠ 0 → p' = port) ∧ (port = 0 → local_range p' ∧ ¬ port_used u p') ∧
       u' = u <| udp_port := p |> <| udp_mem := <[l := c <| local_ip := ip |> <| local_port := p' |>]> (udp_mem u) |>
              <| udp_pcbs := if decide (l ∈ udp_pcbs u) then udp_pcbs u else l :: udp_pcbs u |>) ∨
     e = ERR_USE ∧ (∃ p, u' = u <| udp_port := p |>) ∧
       (port ≠ 0 → excluded u l ip port) ∧ (port = 0 → ∀ q, local_range q → port_used u q))).
Proof.
  intros ip Hok Hc. unfold udp_bind. apply runs_bind, runs_ret. apply runs_bind, on_list_runs; [apply Hok|].
  apply runs_bind. eapply runs_mono; [by apply (udp_bind_port_runs u l ip)|].
  intros r u' (p & Hp & -> & [(Hr & Hex & Hpo & Hze)|(-> & Hex & Hze)]).
  - rewrite (proj2 (Z.eqb_neq _ _)) by done. apply runs_bind. unfold update_pcb.
    apply runs_bind. eapply runs_ask; [unfold get_pcb; simpl; by rewrite Hc|].
    unfold set_pcb. eapply runs_eq; [simpl; by rewrite Hc|]. apply runs_bind.
    assert (udp_ok (u <| udp_port := p |> <| udp_mem := <[l := c <| local_ip := ip |> <| local_port := r |>]> (udp_mem u) |>
              <| udp_pcbs := if decide (l ∈ udp_pcbs u) then udp_pcbs u else l :: udp_pcbs u |>)) as Hok'.
    { pose proof (udp_ok_bound (u <| udp_port := p |>) l c ip r) as H. apply H; [by apply udp_ok_port|done|done|].
      intros a ca Ha Hne Hca Hpa. apply not_true_iff_false. intros Hx. apply Hex. by exists a, ca. }
    case_bool_decide as Hin; [rewrite decide_True in Hok' |- * by done|rewrite decide_False in Hok' |- * by done].
    + do 2 apply runs_ret. split; [by destruct u|]. left. split; [done|]. exists p, r. split_and!; try done; try naive_solver.
    + apply runs_modify, runs_ret. split; [exact Hok'|]. left. split; [done|]. exists p, r. by split_and!; try naive_solver.
  - rewrite Z.eqb_refl. apply runs_ret. split; [by apply udp_ok_port|]. right. split_and!; try done. by exists p.
Qed.

(** ** The invariant *)

Lemma unlink_pcb_in pcb l a : NoDup l → a ∈ unlink_pcb pcb l ↔ a ∈ l ∧ a ≠ pcb.
Proof.
  induction 1 as [|b l Hb Hnd IH]; simpl; [rewrite elem_of_nil; tauto|]. case_decide; subst.
  - rewrite elem_of_cons. naive_solver.
  - rewrite !elem_of_cons, IH. naive_solver.
Qed.
Lemma unlink_pcb_nodup pcb l : NoDup l → NoDup (unlink_pcb pcb l).
Proof.
  induction 1 as [|b l Hb Hnd IH]; simpl; [constructor|]. case_decide; [done|]. constructor; [|done].
  rewrite unlink_pcb_in by done. by intros [? _].
Qed.

Lemma udp_bind_ok u pcb ipaddr port : udp_ok u → yields (udp_bind pcb ipaddr port) u (λ _, udp_ok).
Proof.
  intros Hok. destruct pcb as [l|]; [|done]. destruct (udp_mem u !! l) as [c|] eqn:Hc.
  { apply runs_yields. eapply runs_mono; [by apply udp_bind_runs|]. by intros ? ? [? _]. }
  unfold udp_bind. apply yields_bind, yields_ret, yields_bind, runs_yields, on_list_runs; [apply Hok|].
  apply yields_bind, runs_yields. eapply runs_mono; [by apply (udp_bind_port_runs u l (default IPADDR_ANY ipaddr))|].
  intros r u' (p & Hp & -> & _). case_match.
  - by apply yields_ret, udp_ok_port.
  - apply yields_bind, yields_update_pcb. intros c'. simpl. by rewrite Hc.
Qed.

Lemma udp_connect_ok u pcb ipaddr port : udp_ok u → yields (udp_connect pcb ipaddr port) u (λ _, udp_ok).
Proof.
  intros Hok. apply yields_bind, yields_valid_ptr. intros l ->. apply yields_bind, yields_valid_ptr. intros a _.
  apply yields_bind, yields_ask. intros c Hc.
  unfold get_pcb in Hc. destruct (udp_mem u !! l) as [c'|] eqn:Hl; [injection Hc as ->|done].
  apply yields_bind. eapply (yields_mono _ _ (λ e u', udp_ok u' ∧ (is_ok e = true → l ∈ udp_pcbs u'))).
  - destruct (Z.eqb_spec (local_port c) 0) as [Hz|Hz].
    + apply runs_yields. eapply runs_mono; [by apply udp_bind_runs|].
      intros e u' [Hok' [(_ & p & p' & _ & _ & _ & _ & _ & ->)|(-> & _)]]; (split; [done|]); [|done].
      intros _. simpl. case_decide; [done|by left].
    + apply yields_ret. split; [done|]. intros _. by apply (ok_bound _ Hok l c).
  - intros e u1 [Hok1 Hin]. destruct (is_ok e); simpl; [|by apply yields_ret].
    apply yields_bind, yields_update_pcb. intros c1 Hc1. apply yields_bind, runs_yields.
    assert (udp_ok (u1 <| udp_mem := <[l := c1 <| remote_ip := a |> <| remote_port := port |>
                      <| pcb_flags := u8 (Z.lor (pcb_flags c1) UDP_FLAGS_CONNECTED) |>]> (udp_mem u1) |>)) as Hok2
      by by eapply udp_ok_update.
    apply on_list_runs; [apply Hok2|]. rewrite bool_decide_eq_true_2 by by apply Hin. exact Hok2.
Qed.

Lemma yields_memp_free t mem s (Q : unit → store → Prop) :
  (∀ s', next_loc s' = next_loc s → Q tt s') → yields (memp_free t mem) s Q.
Proof.
  intros HQ. destruct mem as [l|]; [|by apply HQ]. unfold yields, memp_free, mem_free, free.
  by destruct (blocks s !! l); [apply HQ|].
Qed.

Lemma udp_remove_ok u pcb : udp_ok u → yields (udp_remove pcb) u (λ _, udp_ok).
Proof.
  intros [Hnd Hk Hb He Hr Hf]. apply yields_bind, yields_valid_ptr. intros l ->.
  apply yields_bind, yields_ask. intros c _. apply yields_bind, yields_modify.
  apply yields_bind, yields_lift, yields_lift, yields_memp_free. intros s' Hnext.
  apply yields_modify. simpl in *. split; simpl; try done.
  - by apply unlink_pcb_nodup.
  - intros a [Ha Hne]%unlink_pcb_in; [|done]. simpl. rewrite lookup_delete_ne by done. by apply Hk.
  - intros a ca. destruct (decide (a = l)) as [->|]; [by rewrite lookup_delete_eq|]. rewrite lookup_delete_ne by done.
    intros Ha. rewrite unlink_pcb_in, (Hb _ _ Ha) by done. naive_solver.
  - intros a b ca cb [Ha Hal]%unlink_pcb_in [Hb' Hbl]%unlink_pcb_in Hne; [|done..]. rewrite !lookup_delete_ne by done. by apply He.
  - intros a [ca Ha]. rewrite Hnext. apply Hf. destruct (decide (a = l)) as [->|]; [by rewrite lookup_delete_eq in Ha|].
    rewrite lookup_delete_ne in Ha by done. by eexists.
Qed.

Lemma udp_new_ok u : udp_ok u → yields udp_new u (λ _, udp_ok).
Proof.
  intros [Hnd Hk Hb He Hr Hf]. apply yields_bind, yields_lift, yields_lift, runs_yields, runs_malloc.
  - by vm_compute.
  - apply yields_ret. by split.
  - intros d _. apply yields_bind, yields_modify, yields_ret. simpl.
    assert (udp_mem u !! next_loc (ip_store (u_ip u)) = None) as Hnew.
    { apply eq_None_not_Some. intros ?%Hf. lia. }
    assert (∀ a, a ∈ udp_pcbs u → a ≠ next_loc (ip_store (u_ip u))) as Hne.
    { intros a Ha ->. apply Hk in Ha as [c Hc]. congruence. }
    split; simpl; try done.
    + intros a Ha. simpl. rewrite lookup_insert_ne by (apply not_eq_sym; auto). by apply Hk.
    + intros a ca. destruct (decide (a = next_loc (ip_store (u_ip u)))) as [->|].
      * rewrite lookup_insert_eq. intros [= <-]. split; [done|]. by intros ?%Hne.
      * rewrite lookup_insert_ne by done. apply Hb.
    + intros a b ca cb Ha Hb' Hab. rewrite !lookup_insert_ne by (apply not_eq_sym; auto). by apply He.
    + intros a Ha. destruct (decide (a = next_loc (ip_store (u_ip u)))) as [->|]; [lia|].
      rewrite lookup_insert_ne in Ha by done. apply Hf in Ha. lia.
Qed.

(** *** A change of address *)

(** The address of the block after the change. *)
Definition readdressed (old_addr new_addr : Z) (c : udp_pcb) : udp_pcb :=
  if local_ip c =? old_addr then c <| local_ip := new_addr |> else c.
(** No block bound to [old_addr] has the port of another that is bound to [new_addr]. *)
Definition no_clash (old_addr new_addr : Z) u : Prop :=
  ∀ a b ca cb, a ∈ udp_pcbs u → b ∈ udp_pcbs u → a ≠ b → udp_mem u !! a = Some ca → udp_mem u !! b = Some cb →
    local_port ca = local_port cb → local_ip ca = old_addr → local_ip cb ≠ new_addr.

Lemma readdressed_port o n c : local_port (readdressed o n c) = local_port c.
Proof. unfold readdressed. by case_match. Qed.
Lemma rebind_pcbs_yields o n l : ∀ u, NoDup l → yields (rebind_pcbs o n l) u (λ _ u', ∃ m, u' = u <| udp_mem := m |> ∧
  ∀ a, m !! a = if decide (a ∈ l) then readdressed o n <$> udp_mem u !! a else udp_mem u !! a).
Proof.
  induction l as [|x l IH]; intros u Hnd; cbn [rebind_pcbs].
  { apply yields_ret. exists (udp_mem u). split; [by destruct u|]. intros a. by rewrite decide_False by apply not_elem_of_nil. }
  apply NoDup_cons in Hnd as [Hx Hnd]. apply yields_bind, yields_ask. intros c Hc. unfold get_pcb in Hc.
  destruct (udp_mem u !! x) as [c'|] eqn:E; [injection Hc as ->|done].
  eapply (yields_then _ _ _ (λ _ u', u' = u <| udp_mem := <[x := readdressed o n c]> (udp_mem u) |>)).
  { unfold readdressed. case_match; [unfold yields, set_pcb; by rewrite E|]. apply yields_ret. rewrite insert_id by done. by destruct u. }
  intros [] u1 ->. eapply yields_mono; [by apply IH|]. intros [] u2 (m & -> & Hm). exists m. split; [done|]. intros a. rewrite Hm. simpl.
  destruct (decide (a = x)) as [->|Hne].
  - rewrite lookup_insert_eq, decide_False by done. rewrite decide_True by (by left). by rewrite E.
  - rewrite lookup_insert_ne by done. case_decide as Hin; [rewrite decide_True by (by right)|rewrite decide_False by (rewrite elem_of_cons; tauto)]; done.
Qed.
Lemma readdressed_ok o n u m : udp_ok u → no_clash o n u → ip4_addr_isany n = false →
  (∀ a, m !! a = if decide (a ∈ udp_pcbs u) then readdressed o n <$> udp_mem u !! a else udp_mem u !! a) → udp_ok (u <| udp_mem := m |>).
Proof.
  intros [Hnd Hk Hb He Hr Hf] Hcl Hn Hm.
  assert (∀ a c, m !! a = Some c → ∃ c0, udp_mem u !! a = Some c0 ∧ local_port c0 = local_port c ∧ (a ∈ udp_pcbs u → c = readdressed o n c0)) as Hback.
  { intros a c. rewrite Hm. case_decide; [|intros Hc; exists c; by split_and!]. destruct (udp_mem u !! a) as [c0|]; simpl; [|done]. intros [= <-].
    exists c0. by rewrite readdressed_port. }
  split; simpl; try done.
  - intros a Ha. simpl. rewrite Hm, decide_True by done. destruct (Hk a Ha) as [c ->]. by eexists.
  - intros a c (c0 & Hc0 & <- & _)%Hback. by apply Hb.
  - intros a b ca cb Ha Hb' Hne (xa & Hxa & Pa & Ea)%Hback (xb & Hxb & Pb & Eb)%Hback Hp.
    rewrite (Ea Ha), (Eb Hb'). assert (local_port xa = local_port xb) as Hpp by congruence.
    pose proof (He a b xa xb Ha Hb' Hne Hxa Hxb Hpp) as Hx.
    pose proof (Hcl a b xa xb Ha Hb' Hne Hxa Hxb Hpp) as C1. pose proof (Hcl b a xb xa Hb' Ha (not_eq_sym Hne) Hxb Hxa (eq_sym Hpp)) as C2.
    unfold readdressed, ip_conflict in *. destruct (Z.eqb_spec (local_ip xa) o), (Z.eqb_spec (local_ip xb) o); simpl; bool_prop; subst.
    + congruence.
    + rewrite !orb_false_iff, Z.eqb_neq. split_and!; try done. by apply not_eq_sym, C1.
    + rewrite !orb_false_iff, Z.eqb_neq. split_and!; try done. by apply C2.
    + by rewrite !orb_false_iff, Z.eqb_neq.
  - intros a [c (c0 & Hc0 & _)%Hback]. apply Hf. by exists c0.
Qed.
Lemma udp_addr_changed_ok o n u : udp_ok u → no_clash o n u → yields (udp_netif_ip_addr_changed o n) u (λ _, udp_ok).
Proof.
  intros Hok Hcl. unfold udp_netif_ip_addr_changed. destruct (ip4_addr_isany o), (ip4_addr_isany n) eqn:En; simpl; try by apply yields_ret.
  apply yields_bind, yields_gets. eapply yields_mono; [apply rebind_pcbs_yields, Hok|]. intros [] u' (m & -> & Hm). by eapply readdressed_ok.
Qed.

(** Receiving reorders the chain. *)
Lemma udp_ok_perm u l : udp_ok u → l ≡ₚ udp_pcbs u → udp_ok (u <| udp_pcbs := l |>).
Proof.
  intros [Hnd Hk Hb He Hr Hf] Hp. split; simpl; try done.
  - by rewrite Hp.
  - intros a Ha. rewrite Hp in Ha. by apply Hk.
  - intros a c Ha. rewrite Hp. by apply Hb.
  - intros a b ca cb Ha Hb'. rewrite Hp in Ha, Hb'. by apply He.
Qed.

Lemma udp_find_perm src dest bc l u : ∀ seen uncon, udp_pcbs u = rev seen ++ l →
  yields (udp_find src dest bc seen l uncon) u (λ _ u', ∃ l', u' = u <| udp_pcbs := l' |> ∧ l' ≡ₚ udp_pcbs u).
Proof.
  assert (∃ l', u = u <| udp_pcbs := l' |> ∧ l' ≡ₚ udp_pcbs u) as Hsame by (exists (udp_pcbs u); by destruct u).
  induction l as [|pcb l IH]; intros seen uncon Hl; [by apply yields_ret|].
  assert (udp_pcbs u = rev (pcb :: seen) ++ l) as Hl' by (rewrite Hl; simpl; by rewrite <- app_assoc).
  apply yields_bind, yields_ask. intros c _. apply yields_bind, yields_ask. intros [|] _; [|by apply IH].
  apply yields_bind, yields_ask. intros uncon' _. apply yields_bind, yields_gets. case_match; [|by apply IH].
  apply yields_bind. destruct seen as [|b seen]; [by apply yields_ret|]. apply yields_modify, yields_ret.
  eexists. split; [done|]. rewrite Hl. apply Permutation_middle.
Qed.

Lemma udp_demux_ok u src dest bc : udp_ok u → yields (udp_demux src dest bc) u (λ _, udp_ok).
Proof.
  intros Hok. apply yields_bind, yields_gets, yields_bind. eapply yields_mono; [by apply udp_find_perm|].
  intros r u' (l & -> & Hl). apply yields_ret. by apply udp_ok_perm.
Qed.

(** The calls of [core/udp.c] that touch the control blocks. *)
Inductive udp_call :=
  | Call_init (rand : Z)
  | Call_new
  | Call_bind (pcb : option loc) (ipaddr : option Z) (port : Z)
  | Call_connect (pcb : option loc) (ipaddr : option Z) (port : Z)
  | Call_disconnect (pcb : option loc)
  | Call_bind_netif (pcb : option loc) (netif : bool)
  | Call_recv (pcb : option loc) (recv : option udp_recv_fn) (a : option loc)
  | Call_remove (pcb : option loc)
  | Call_demux (src dest : Z) (broadcast : bool)
  | Call_addr_changed (old_addr new_addr : Z).

Definition run_call (c : udp_call) : M ustate unit :=
  match c with
  | Call_init rand => udp_init rand
  | Call_new => let! _ := udp_new in ret tt
  | Call_bind pcb ipaddr port => let! _ := udp_bind pcb ipaddr port in ret tt
  | Call_connect pcb ipaddr port => let! _ := udp_connect pcb ipaddr port in ret tt
  | Call_disconnect pcb => udp_disconnect pcb
  | Call_bind_netif pcb netif => udp_bind_netif pcb netif
  | Call_recv pcb recv a => udp_recv pcb recv a
  | Call_remove pcb => udp_remove pcb
  | Call_demux src dest broadcast => let! _ := udp_demux src dest broadcast in ret tt
  | Call_addr_changed old_addr new_addr => udp_netif_ip_addr_changed old_addr new_addr
  end.

(** A change of address binds blocks without looking at the others. *)
Definition call_allowed (c : udp_call) u : Prop :=
  match c with Call_addr_changed old_addr new_addr => no_clash old_addr new_addr u | _ => True end.
(** The calls, and a step of the rest of the stack, which only allocates addresses
    not used before. *)
Inductive udp_step : ustate → ustate → Prop :=
  | step_call c u u' : call_allowed c u → run_call c u = Val (tt, u') → udp_step u u'
  | step_stack u iw : (next_loc (ip_store (u_ip u)) ≤ next_loc (ip_store iw))%positive →
      udp_step u (u <| u_ip := iw |>).

Lemma ensure_range x : local_range (UDP_ENSURE_LOCAL_PORT_RANGE x).
Proof.
  unfold UDP_ENSURE_LOCAL_PORT_RANGE. change (u16 (Z.lnot UDP_LOCAL_PORT_RANGE_START)) with (Z.ones 14).
  rewrite land_low by lia. unfold local_range, UDP_LOCAL_PORT_RANGE_START, UDP_LOCAL_PORT_RANGE_END.
  pose proof (Z.mod_pos_bound x (2 ^ 14) ltac:(lia)). rewrite u16_small by (bounds; lia). bounds; lia.
Qed.

Lemma yields_update_ok u l g : udp_ok u →
  (∀ c, local_ip (g c) = local_ip c) → (∀ c, local_port (g c) = local_port c) → yields (update_pcb l g) u (λ _, udp_ok).
Proof. intros Hok Hip Hp. apply yields_update_pcb. intros c Hc. by eapply udp_ok_update. Qed.

Lemma run_call_ok c u : udp_ok u → call_allowed c u → yields (run_call c) u (λ _, udp_ok).
Proof.
  intros Hok Hal. destruct c; simpl.
  - apply yields_modify, udp_ok_port; [done|apply ensure_range].
  - by apply yields_discard, udp_new_ok.
  - by apply yields_discard, udp_bind_ok.
  - by apply yields_discard, udp_connect_ok.
  - apply yields_bind, yields_valid_ptr. intros l _. by apply yields_update_ok.
  - apply yields_bind, yields_gets, yields_bind, yields_ask. intros l _. by apply yields_update_ok.
  - apply yields_bind, yields_valid_ptr. intros l _. by apply yields_update_ok.
  - by apply udp_remove_ok.
  - by apply yields_discard, udp_demux_ok.
  - by apply udp_addr_changed_ok.
Qed.

Lemma udp_step_ok u u' : udp_ok u → udp_step u u' → udp_ok u'.
Proof.
  intros Hok Hs. revert Hok. destruct Hs as [c w w' Hal Hrun|w iw Hle]; intros Hok.
  - pose proof (run_call_ok c w Hok Hal) as H. unfold yields in H. by rewrite Hrun in H.
  - destruct Hok as [Hnd Hk Hb He Hr Hf]. split; simpl; try done. intros l Hl%Hf. lia.
Qed.

(** C18: no two UDP blocks share a binding.  However [udp_new], [udp_bind],
    [udp_connect], [udp_disconnect], [udp_bind_netif], [udp_recv], [udp_remove],
    the reordering of the chain by incoming packets and changes of the address of
    the interface ([udp_netif_ip_addr_changed]) follow each other, from the empty
    chain, provided that no change of address gives a block the address and port
    of another, which the code does not look at: two blocks on the chain with the same local port have
    different local addresses, neither of them [IP_ANY]; and a block has a local
    port exactly while it is on the chain. *)
Theorem udp_bindings_exclusive u0 u :
  udp_pcbs u0 = [] → udp_mem u0 = ∅ → local_range (udp_port u0) → star udp_step u0 u →
  (∀ l c, udp_mem u !! l = Some c → local_port c ≠ 0 ↔ l ∈ udp_pcbs u) ∧
  (∀ a b ca cb, a ∈ udp_pcbs u → b ∈ udp_pcbs u → a ≠ b →
     udp_mem u !! a = Some ca → udp_mem u !! b = Some cb → local_port ca = local_port cb →
     local_ip ca ≠ local_ip cb ∧ local_ip ca ≠ IPADDR_ANY ∧ local_ip cb ≠ IPADDR_ANY).
Proof.
  intros Hl Hm Hr Hs.
  assert (udp_ok u) as [Hnd Hk Hb He _ _].
  { apply (star_invariant udp_step udp_ok u0 u); [intros; by eapply udp_step_ok| |done].
    split; rewrite ?Hl, ?Hm; try done.
    - constructor.
    - intros a Ha. by apply not_elem_of_nil in Ha.
    - intros a [c Ha]. by rewrite lookup_empty in Ha. }
  split; [done|]. intros a b ca cb Ha Hb' Hne Hca Hcb Hp.
  specialize (He a b ca cb Ha Hb' Hne Hca Hcb Hp). unfold ip_conflict, ip4_addr_isany in He. bool_prop. done.
Qed.

(** C28: [udp_bind] on a block, in any state the functions of udp.c lead to.  It
    returns; with [ERR_OK] the block is on the chain, bound to the address and to
    the port asked for, or for port 0 to one of the local range that was free,
    and no other block excluded that; with [ERR_USE], the block and the chain
    are as before and another block excluded the binding, or for port 0 the whole
    local range was taken. *)
Theorem udp_bind_spec u l c ipaddr port :
  let ip := default IPADDR_ANY ipaddr in
  udp_ok u → udp_mem u !! l = Some c →
  runs (udp_bind (Some l) ipaddr port) u (λ e u', udp_ok u' ∧
    (e = ERR_OK ∧ (∃ p p', local_range p ∧ p' ≠ 0 ∧ ¬ excluded u l ip p' ∧
       (port ≠ 0 → p' = port) ∧ (port = 0 → local_range p' ∧ ¬ port_used u p') ∧
       u' = u <| udp_port := p |> <| udp_mem := <[l := c <| local_ip := ip |> <| local_port := p' |>]> (udp_mem u) |>
              <| udp_pcbs := if decide (l ∈ udp_pcbs u) then udp_pcbs u else l :: udp_pcbs u |>) ∨
     e = ERR_USE ∧ (∃ p, u' = u <| udp_port := p |>) ∧
       (port ≠ 0 → excluded u l ip port) ∧ (port = 0 → ∀ q, local_range q → port_used u q))).
Proof. apply udp_bind_runs. Qed.

(** ** Runs *)

Definition ex_udp : ustate :=
  mk_ustate (mk_ipstate (init_store []) (mk_netif 0 0 0 1500 5 0) true no_packet 0) 65535 [] ∅ 0 0.

(** Two blocks, the first bound to port 53 at every address; binding the second
    to port 53 fails, binding it to port 0 gives it the first port of the range. *)
Definition ex_calls : list udp_call :=
  [Call_new; Call_new; Call_bind (Some 1%positive) None 53; Call_bind (Some 2%positive) (Some 16777482) 53;
   Call_bind (Some 2%positive) None 0].
(** Two more bound to port 7, at different addresses; the interface changes from one
    of these addresses to a third. *)
Definition ex_more_calls : list udp_call :=
  [Call_new; Call_bind (Some 3%positive) (Some 16777482) 7; Call_new; Call_bind (Some 4%positive) (Some 33554698) 7;
   Call_addr_changed 16777482 50331914].

Definition clash (old_addr new_addr : Z) u (a b : loc) : bool :=
  match udp_mem u !! a, udp_mem u !! b with
  | Some ca, Some cb => negb (a =? b)%positive && (local_port ca =? local_port cb) && (local_ip ca =? old_addr) && (local_ip cb =? new_addr)
  | _, _ => false
  end.
Definition allowed (c : udp_call) u : bool :=
  match c with
  | Call_addr_changed old_addr new_addr => negb (existsb (λ a, existsb (clash old_addr new_addr u a) (udp_pcbs u)) (udp_pcbs u))
  | _ => true
  end.
Lemma allowed_call c u : allowed c u = true → call_allowed c u.
Proof.
  destruct c; try done. simpl. intros H%negb_true_iff a b ca cb Ha Hb Hne Hca Hcb Hp Hold Hnew.
  apply not_true_iff_false in H. apply H. apply existsb_exists. exists a. split; [by apply list_elem_of_In|].
  apply existsb_exists. exists b. split; [by apply list_elem_of_In|]. unfold clash. rewrite Hca, Hcb, Hp, Hold, Hnew, !Z.eqb_refl.
  rewrite (proj2 (Pos.eqb_neq a b)) by done. done.
Qed.
Fixpoint run_calls (l : list udp_call) : M ustate unit :=
  match l with [] => ret tt | c :: l => λ u, if allowed c u then (do! run_call c; run_calls l) u else Err Undefined end.

Lemma run_calls_star l : ∀ u u', run_calls l u = Val (tt, u') → star udp_step u u'.
Proof.
  induction l as [|c l IH]; intros u u'; simpl; [intros [= ->]; apply star_refl|].
  destruct (allowed c u) eqn:Ha; [|done]. unfold mbnd. destruct (run_call c u) as [[[] u1]|] eqn:E; [|done]. intros H.
  eapply star_cons; [eapply step_call; [by apply allowed_call|exact E]|]. by apply IH.
Qed.

Definition ex_udp2 : ustate := match run_calls ex_calls ex_udp with Val (_, u) => u | Err _ => ex_udp end.

Lemma ex_udp2_reached : star udp_step ex_udp ex_udp2.
Proof. apply (run_calls_star ex_calls). vm_compute. reflexivity. Qed.

Definition ex_udp4 : ustate := match run_calls (ex_calls ++ ex_more_calls) ex_udp with Val (_, u) => u | Err _ => ex_udp end.
Lemma ex_udp4_reached : star udp_step ex_udp ex_udp4.
Proof. apply (run_calls_star (ex_calls ++ ex_more_calls)). vm_compute. reflexivity. Qed.
Definition bindings u : list (option (Z * Z)) := (λ l, (λ c, (local_ip c, local_port c)) <$> udp_mem u !! l) <$> udp_pcbs u.
(** Had the interface changed to the address of the other block, both would be bound alike. *)
Lemma ex_address_clash :
  match (do! run_calls ex_calls; do! run_calls (take 4 ex_more_calls); run_call (Call_addr_changed 16777482 33554698)) ex_udp with
  | Val (_, u) => take 2 (bindings u)
  | Err _ => []
  end = [Some (33554698, 7); Some (33554698, 7)].
Proof. vm_compute. reflexivity. Qed.

Lemma udp_bindings_exclusive_witness :
  bindings ex_udp4 = [Some (33554698, 7); Some (50331914, 7); Some (0, 49152); Some (0, 53)] ∧
  (∀ a b ca cb, a ∈ udp_pcbs ex_udp4 → b ∈ udp_pcbs ex_udp4 → a ≠ b →
     udp_mem ex_udp4 !! a = Some ca → udp_mem ex_udp4 !! b = Some cb → local_port ca = local_port cb →
     local_ip ca ≠ local_ip cb).
Proof.
  split; [vm_compute; reflexivity|].
  destruct (udp_bindings_exclusive ex_udp ex_udp4) as [_ H];
    [reflexivity|reflexivity|by vm_compute|exact ex_udp4_reached|].
  intros a b ca cb Ha Hb Hne Hca Hcb Hp. by destruct (H a b ca cb Ha Hb Hne Hca Hcb Hp).
Defined.

Lemma ex_udp_ok : udp_ok ex_udp2.
Proof.
  apply (star_invariant udp_step udp_ok ex_udp); [intros; by eapply udp_step_ok| |exact ex_udp2_reached].
  split; try done; [constructor|by intros a ?%not_elem_of_nil|by intros a [c Ha]].
Qed.

Lemma udp_new_port_spec_witness : runs udp_new_port ex_udp2 (λ r u', r = 49153).
Proof.
  eapply runs_mono; [apply (udp_new_port_spec ex_udp2); apply ex_udp_ok|].
  intros r u' (k & Hk & _ & Hused & [[-> Hr]|[_ Hall]]).
  - assert (k = 1) as ->; [|by vm_compute]. destruct (decide (k = 1)) as [|Hk1]; [done|]. exfalso.
    destruct (Hused 1) as (l & c & Hl & Hc & Hp); [lia|].
    apply list_elem_of_In in Hl. destruct Hl as [<-|[<-|[]]]; vm_compute in Hc; injection Hc as <-; by vm_compute in Hp.
  - exfalso. destruct (Hall 60000) as (l & c & Hl & Hc & Hp); [by vm_compute|].
    apply list_elem_of_In in Hl. destruct Hl as [<-|[<-|[]]]; vm_compute in Hc; injection Hc as <-; by vm_compute in Hp.
Defined.

Lemma udp_bind_spec_witness : runs (udp_bind (Some 2%positive) (Some 16777482) 53) ex_udp2 (λ e u', e = ERR_USE).
Proof.
  eapply runs_mono; [apply (udp_bind_spec ex_udp2 2%positive (mk_udp_pcb 0 0 0 0 0 255 0 49152 0 0 0 None None));
    [exact ex_udp_ok|vm_compute; reflexivity]|].
  intros e u' [_ [(-> & p & p' & _ & _ & Hex & Hp' & _ & _)|[-> _]]]; [|done].
  exfalso. apply Hex. rewrite Hp' by done. exists 1%positive, (mk_udp_pcb 0 0 0 0 0 255 0 53 0 0 0 None None).
  split_and!; try done. vm_compute. by right; left.
Defined.
