(* ===== verification/UdpInput.v ===== *)
(** * UDP input

    Which block [udp_input] chooses for a datagram, and that the block's
    callback gets the datagram without its header when the checksum is right. *)

From S2P Require Import Prelude Mbox Heap HeapFacts Pbuf Packet PbufFacts PbufChain Def Chksum Addr Header Ip4 Ip4Facts Ip4InFacts.
From S2P Require Import Udp UdpBind.

Implicit Types u : ustate.

(** ** The choice, as a function of the chain *)

Section choice.
Context (u : ustate) (src dest : Z) (broadcast : bool).

Definition at_port_and_addr (c : udp_pcb) : bool :=
  let d := ip_data (u_ip u) in
  let n := global_if (u_ip u) in
  ((local_port c =? dest) || (local_port c =? UDP_ACCEPT_ANY_PORT))
  && ((netif_idx c =? NETIF_NO_INDEX) || (netif_idx c =? netif_get_index n))
  && (ip4_addr_isany (local_ip c)
      || if broadcast then (current_iphdr_dest d =? IPADDR_BROADCAST)
                           || ip4_addr_netcmp (local_ip c) (current_iphdr_dest d) (ni_netmask n)
         else local_ip c =? current_iphdr_dest d).

Definition perfect (c : udp_pcb) : bool := at_port_and_addr c && udp_full_match src c u.
Definition candidate (c : udp_pcb) : bool :=
  at_port_and_addr c && (Z.land (pcb_flags c) UDP_FLAGS_CONNECTED =? 0).
Definition test (f : udp_pcb → bool) (a : loc) : bool := match udp_mem u !! a with Some c => f c | None => false end.

(** The first of the candidates, but for a packet to 255.255.255.255 the first
    bound to the interface's own address, if there is one. *)
Definition best (l : list loc) : option loc :=
  if broadcast && (current_iphdr_dest (ip_data (u_ip u)) =? IPADDR_BROADCAST) then
    match List.find (test (λ c, local_ip c =? ni_ip_addr (global_if (u_ip u)))) l with
    | Some a => Some a
    | None => hd_error l
    end
  else hd_error l.

Lemma udp_match_eq c : current_input_netif (ip_data (u_ip u)) = true →
  udp_match dest broadcast c u = Val (at_port_and_addr c).
Proof.
  intros Hin. unfold udp_match, at_port_and_addr, udp_input_local_match. rewrite Hin.
  destruct ((local_port c =? dest) || _); [|done].
  destruct (netif_idx c =? NETIF_NO_INDEX), (netif_idx c =? netif_get_index _), broadcast; simpl; rewrite ?orb_assoc; done.
Qed.

Lemma best_none l : best l = None ↔ l = [].
Proof.
  unfold best. destruct l as [|a l]; [by destruct (_ && _)|]. split; [|done]. simpl. destruct (_ && _); [|done].
  destruct (test _ a); [done|]. by destruct (List.find _ l).
Qed.

Lemma hd_snoc {A} (l : list A) a : l ≠ [] → hd_error (l ++ [a]) = hd_error l.
Proof. by destruct l. Qed.
Lemma find_app {A} (f : A → bool) l l' :
  List.find f (l ++ l') = match List.find f l with Some a => Some a | None => List.find f l' end.
Proof. induction l as [|a l IH]; simpl; [done|]. by destruct (f a). Qed.

(** One step of the search for the fallback. *)
Lemma udp_uncon_step l pcb c :
  known_pcbs u l → udp_mem u !! pcb = Some c →
  udp_uncon pcb c broadcast (best l) u =
  Val (best (l ++ if Z.land (pcb_flags c) UDP_FLAGS_CONNECTED =? 0 then [pcb] else [])).
Proof.
  intros Hk Hc. unfold udp_uncon. destruct (Z.land _ _ =? 0); [cbn [negb]|by rewrite app_nil_r].
  destruct (best l) as [b|] eqn:Eb.
  - assert (l ≠ []) as Hne by (intros Hl%best_none; congruence).
    unfold best in *. set (gb := broadcast && _) in *. destruct gb; [|by rewrite hd_snoc, Eb].
    rewrite find_app. destruct (List.find _ l) as [a|] eqn:Ef.
    + injection Eb as ->. apply find_some in Ef as [Hin Ht]. unfold test in Ht.
      unfold get_pcb. destruct (udp_mem u !! b); [|done]. cbn [deref rbind]. by rewrite Ht.
    + assert (In b l) as Hin by (destruct l; [done|]; injection Eb as ->; by left).
      pose proof (find_none _ _ Ef _ Hin) as Ht. unfold test in Ht. unfold get_pcb.
      destruct (Hk b) as [cb Hcb]; [by apply list_elem_of_In|]. rewrite Hcb in *. cbn [deref rbind]. rewrite Ht. cbn [negb andb].
      simpl. unfold test. rewrite Hc. destruct (local_ip c =? _); [done|]. rewrite hd_snoc by done. by destruct l; [|injection Eb as ->].
  - apply best_none in Eb as ->. simpl. unfold best. destruct (_ && _); [|done]. simpl. by destruct (test _ pcb).
Qed.
End choice.

(** The blocks of the chain that match without being connected. *)
Definition candidates u (dest : Z) (bc : bool) (l : list loc) : list loc := List.filter (test u (candidate u dest bc)) l.

Definition no_perfect u (src dest : Z) (bc : bool) (l : list loc) : Prop :=
  ∀ a, a ∈ l → test u (perfect u src dest bc) a = false.

Lemma udp_find_spec u src dest bc l : ∀ seen,
  current_input_netif (ip_data (u_ip u)) = true → known_pcbs u (rev seen ++ l) → no_perfect u src dest bc (rev seen) →
  udp_pcbs u = rev seen ++ l →
  runs (udp_find src dest bc seen l (best u bc (candidates u dest bc (rev seen)))) u (λ r u',
    (∃ pre pcb c post, udp_pcbs u = pre ++ pcb :: post ∧ udp_mem u !! pcb = Some c ∧ perfect u src dest bc c = true ∧
       no_perfect u src dest bc pre ∧ fst r = Some pcb ∧ u' = u <| udp_pcbs := pcb :: pre ++ post |>) ∨
    (no_perfect u src dest bc (rev seen ++ l) ∧ r = (None, best u bc (candidates u dest bc (rev seen ++ l))) ∧ u' = u)).
Proof.
  induction l as [|pcb l IH]; intros seen Hin Hk Hno Hl; cbn [udp_find].
  { apply runs_ret. right. by rewrite app_nil_r. }
  assert (rev seen ++ pcb :: l = rev (pcb :: seen) ++ l) as Hmove by (simpl; by rewrite <- app_assoc).
  destruct (Hk pcb) as [c Hc]; [apply elem_of_app; right; by left|].
  apply runs_bind. eapply runs_ask; [unfold get_pcb; by rewrite Hc|]. cbn [deref].
  apply runs_bind. eapply runs_ask; [by apply udp_match_eq|].
  assert (known_pcbs u (candidates u dest bc (rev seen))) as Hkc.
  { intros a [Ha _]%list_elem_of_In%List.filter_In. apply Hk, elem_of_app. left. by apply list_elem_of_In. }
  destruct (at_port_and_addr u dest bc c) eqn:Em.
  - apply runs_bind. eapply runs_ask; [by apply udp_uncon_step|]. apply runs_bind, runs_gets.
    assert (candidates u dest bc (rev seen) ++ (if Z.land (pcb_flags c) UDP_FLAGS_CONNECTED =? 0 then [pcb] else []) =
            candidates u dest bc (rev (pcb :: seen))) as ->.
    { unfold candidates. simpl. rewrite List.filter_app. f_equal. simpl. unfold test, candidate. rewrite Hc, Em. done. }
    destruct (udp_full_match src c u) eqn:Ef.
    + apply runs_bind. assert (no_perfect u src dest bc (rev seen) ∧ perfect u src dest bc c = true) as [? ?]
        by (split; [done|unfold perfect; by rewrite Em, Ef]).
      assert (∀ u', u' = u <| udp_pcbs := pcb :: rev seen ++ l |> →
        ∃ pre pcb' c' post, udp_pcbs u = pre ++ pcb' :: post ∧ udp_mem u !! pcb' = Some c' ∧ perfect u src dest bc c' = true ∧
          no_perfect u src dest bc pre ∧ Some pcb = Some pcb' ∧ u' = u <| udp_pcbs := pcb' :: pre ++ post |>) as Hend.
      { intros u' ->. by exists (rev seen), pcb, c, l. }
      destruct seen as [|b seen].
      * do 2 apply runs_ret. left. apply Hend. simpl in Hl |- *. rewrite <- Hl. by destruct u.
      * apply runs_modify, runs_ret. left. by apply Hend.
    + rewrite Hmove in *. apply IH; try done.
      intros a Ha. simpl in Ha. apply elem_of_app in Ha as [Ha| ->%list_elem_of_singleton]; [by apply Hno|].
      unfold test, perfect. by rewrite Hc, Em, Ef.
  - assert (candidates u dest bc (rev seen) = candidates u dest bc (rev (pcb :: seen))) as ->.
    { unfold candidates. simpl. rewrite List.filter_app. simpl. unfold test at 3, candidate. rewrite Hc, Em. by rewrite app_nil_r. }
    rewrite Hmove in *. apply IH; try done.
    intros a Ha. simpl in Ha. apply elem_of_app in Ha as [Ha| ->%list_elem_of_singleton]; [by apply Hno|].
    unfold test, perfect. by rewrite Hc, Em.
Qed.

(** What the search returns: the block and the chain afterwards. *)
Definition chosen u (src dest : Z) (bc : bool) (r : option loc) (l : list loc) : Prop :=
  (∃ pre pcb c post, udp_pcbs u = pre ++ pcb :: post ∧ udp_mem u !! pcb = Some c ∧ perfect u src dest bc c = true ∧
     no_perfect u src dest bc pre ∧ r = Some pcb ∧ l = pcb :: pre ++ post) ∨
  (no_perfect u src dest bc (udp_pcbs u) ∧ r = best u bc (candidates u dest bc (udp_pcbs u)) ∧ l = udp_pcbs u).

Lemma udp_demux_runs u src dest bc :
  current_input_netif (ip_data (u_ip u)) = true → known_pcbs u (udp_pcbs u) →
  runs (udp_demux src dest bc) u (λ r u', ∃ l, u' = u <| udp_pcbs := l |> ∧ chosen u src dest bc r l).
Proof.
  intros Hin Hk. assert (u = u <| udp_pcbs := udp_pcbs u |>) as Hu by by destruct u.
  assert (None = best u bc (candidates u dest bc (rev []))) as Hbest by (unfold best; simpl; by destruct (_ && _)).
  apply runs_bind, runs_gets, runs_bind. rewrite Hbest.
  eapply runs_mono; [apply (udp_find_spec u src dest bc (udp_pcbs u) []); try done; by intros a ?%not_elem_of_nil|].
  intros r u' [(pre & pcb & c & post & Hl & Hc & Hp & Hno & Hr & ->)|(Hno & -> & ->)]; apply runs_ret.
  - exists (pcb :: pre ++ post). split; [done|]. left. exists pre, pcb, c, post. by rewrite Hr.
  - exists (udp_pcbs u). split; [done|]. by right.
Qed.

(** C27: [udp_input]'s choice.  The search returns, and picks the first block on
    the chain bound to the datagram's port (or to every port) and address and
    connected to its sender, moving it to the front of the chain; if there is
    none, the first unconnected block that is bound so, except that for the
    address 255.255.255.255 one bound to the interface's own address goes first,
    and the chain stays as it is. *)
Theorem udp_demux_spec u src dest bc :
  current_input_netif (ip_data (u_ip u)) = true → known_pcbs u (udp_pcbs u) →
  runs (udp_demux src dest bc) u (λ r u', ∃ l, u' = u <| udp_pcbs := l |> ∧ chosen u src dest bc r l).
Proof. apply udp_demux_runs. Qed.

(** ** The datagram *)

(** [struct udp_hdr]; the checksum is the word as the machine stores it. *)
Definition udp_header (src dest len chk : Z) : list Z :=
  [src / 256; src mod 256; dest / 256; dest mod 256; len / 256; len mod 256; chk mod 256; chk / 256].

Definition chksum_ok (src dest chk : Z) (d : list Z) : bool :=
  (chk =? 0) || (ones (word_sum (pseudo_header src dest IP_PROTO_UDP (zlen d) ++ d)) =? 65535).

Definition set_store (u : ustate) (s : store) : ustate := u <| u_ip := (u_ip u) <| ip_store := s |> |>.

Section input.
Context {W : Type} `{!Part ustate W} `{!udp_env W} `{!netif_driver W}.

Lemma runs_ust {A} (m : M store A) u (w : W) (Q : A → W → Prop) :
  runs m (ip_store (u_ip u)) (λ a s', Q a (part_set (set_store u s') w)) →
  runs (lift (P := ustate) (lift (P := ipstate) (lift m))) (part_set u w) Q.
Proof. intros H. apply runs_part. apply (runs_lift (P := ipstate)). by apply (runs_lift (P := store)). Qed.

Lemma runs_uread {A} (f : store → res A) a u (w : W) (Q : A → W → Prop) :
  f (ip_store (u_ip u)) = Val a → Q a (part_set u w) →
  runs (lift (P := ustate) (lift (P := ipstate) (lift (P := store) (ask f)))) (part_set u w) Q.
Proof. intros Hf HQ. apply runs_ust. eapply runs_ask; [exact Hf|]. by destruct u as [[]]. Qed.

Lemma runs_ufield {A} u (w : W) p c cs (f : pbuf → A) (Q : A → W → Prop) :
  packet (ip_store (u_ip u)) p (c :: cs) → Q (f (c_pbuf c)) (part_set u w) →
  runs (lift (P := ustate) (lift (P := ipstate) (lift (P := store)
    (ask (λ s, let* l := deref p in let* c := get_pbuf s l in Val (f c)))))) (part_set u w) Q.
Proof. intros Hpk HQ. apply runs_ust. eapply runs_head; [exact Hpk|]. by destruct u as [[]]. Qed.

Lemma udp_verify_eq u p c cs sport dport len chk rest :
  let d := ip_data (u_ip u) in
  packet (ip_store (u_ip u)) p (c :: cs) → c_data c = udp_header sport dport len chk ++ rest →
  Forall is_u8 (bytes (c :: cs)) → is_u16 chk → is_u32 (current_iphdr_src d) → is_u32 (current_iphdr_dest d) →
  rd8 (ip_store (u_ip u)) (current_ip4_header d) 9 = Val IP_PROTO_UDP →
  udp_verify p (pb_payload (c_pbuf c)) u = Val (chksum_ok (current_iphdr_src d) (current_iphdr_dest d) chk (bytes (c :: cs))).
Proof.
  intros d Hpk Hd Hu8 Hchk Hs Hdst Hproto. subst d. pose proof (packet_seg _ _ _ Hpk) as (-> & Hl & _).
  destruct (packet_head_len _ _ _ _ Hpk) as (Hplen & Htot & ? & ? & Hz).
  unfold udp_verify. cbn [deref rbind]. unfold get_pbuf. rewrite Hl. cbn [deref rbind]. rewrite Hproto. cbn [rbind].
  change (IP_PROTO_UDP =? IP_PROTO_UDPLITE) with false. cbv iota.
  pose proof (packet_payload _ _ _ _ Hpk) as Hrd. rewrite Hd in Hrd. pose proof (zlen_nonneg rest).
  assert (rd16 (ip_store (u_ip u)) (pb_payload (c_pbuf c)) 6 = Val chk) as ->.
  { rewrite (rd16_at _ _ _ _ Hrd eq_refl 6 (chk mod 256) (chk / 256)); [f_equal; Z.div_mod_to_equations; lia|lia| |done].
    rewrite zlen_app. change (zlen (udp_header _ _ _ _)) with 8. lia. }
  cbn [rbind]. unfold chksum_ok. destruct (chk =? 0); [done|]. cbn [orb]. unfold ip_chksum_pseudo.
  rewrite (inet_chksum_pseudo_eq _ _ _ _ _ _ _ Hpk Hu8 Hs Hdst) by (unfold is_u8, is_u16, IP_PROTO_UDP; bounds; lia).
  cbn [rbind]. rewrite chksum_zero, Htot, <- (total_cons c cs). done.
Qed.

Lemma calls_drop p u (w : W) (Q : W → Prop) : Q (part_set u w) → calls (udp_drop p) (part_set u w) (udp_drop p) Q.
Proof. apply calls_here. Qed.

(** The stage of [udp_input] a datagram reaches: the checksum is looked at, the
    header goes, and the block's callback is called. *)
Lemma udp_deliver_spec u (w : W) p c cs sport dport len chk rest pcb cb bc :
  let d := ip_data (u_ip u) in
  packet (ip_store (u_ip u)) p (c :: cs) → c_data c = udp_header sport dport len chk ++ rest →
  Forall is_u8 (bytes (c :: cs)) → is_u16 chk → is_u32 (current_iphdr_src d) → is_u32 (current_iphdr_dest d) →
  rd8 (ip_store (u_ip u)) (current_ip4_header d) 9 = Val IP_PROTO_UDP →
  udp_mem u !! pcb = Some cb →
  let s' := (ip_store (u_ip u)) <| pbufs := <[c_loc c := c_pbuf (advance 8 c)]> (pbufs (ip_store (u_ip u))) |> in
  let m := udp_deliver p (pb_payload (c_pbuf c)) (Some pcb) bc sport in
  if chksum_ok (current_iphdr_src d) (current_iphdr_dest d) chk (bytes (c :: cs)) then
    packet s' p (advance 8 c :: cs) ∧
    calls m (part_set u w)
      (match pcb_recv cb with
       | Some f => udp_callback f (recv_arg cb) pcb p (current_iphdr_src d) sport
       | None => udp_drop p
       end) (λ w', w' = part_set (set_store u s') w)
  else calls m (part_set u w) (udp_drop p) (λ w', w' = part_set u w).
Proof.
  intros d Hpk Hd Hu8 Hchk Hs Hdst Hproto Hcb s' m. unfold m, udp_deliver.
  assert (8 ≤ zlen (c_data c)) as Hlen.
  { rewrite Hd, zlen_app. change (zlen (udp_header _ _ _ _)) with 8. pose proof (zlen_nonneg rest). lia. }
  pose proof (pbuf_remove_header_spec _ _ _ _ 8 Hpk ltac:(lia)) as Hrm.
  destruct (runs_inv _ _ _ Hrm) as (r & s1 & Hr & -> & -> & Hpk'). fold s' in Hr, Hpk'.
  destruct (chksum_ok _ _ _ _) eqn:Eok; [split; [done|]|].
  all: apply calls_bind, runs_part, runs_gets; cbn [negb].
  all: apply calls_bind, runs_part; (eapply runs_ask; [by eapply udp_verify_eq|]); unfold d in Eok; rewrite Eok; cbn [negb].
  - apply calls_bind, runs_ust. eapply runs_eq; [exact Hr|]. apply calls_bind, runs_assert; [done|].
    apply calls_bind, runs_part. eapply runs_ask; [unfold get_pcb; simpl; by rewrite Hcb|]. cbn [deref].
    destruct (pcb_recv cb); by apply calls_here.
  - by apply calls_here.
Qed.
Lemma best_in u bc l a : best u bc l = Some a → a ∈ l.
Proof.
  unfold best. intros H. apply list_elem_of_In. destruct (_ && _).
  - destruct (List.find _ l) eqn:E; [injection H as ->; by apply find_some in E as [? _]|].
    destruct l; [done|]. injection H as ->. by left.
  - destruct l; [done|]. injection H as ->. by left.
Qed.

Lemma chosen_known u src dest bc pcb l :
  known_pcbs u (udp_pcbs u) → chosen u src dest bc (Some pcb) l → ∃ cb, udp_mem u !! pcb = Some cb.
Proof.
  intros Hk [(pre & pcb' & cb & post & _ & Hc & _ & _ & [= ->] & _)|(_ & Hb & _)]; [eauto|].
  symmetry in Hb. apply best_in, list_elem_of_In, List.filter_In in Hb as [Hb _].
  apply (Hk pcb). by apply list_elem_of_In.
Qed.

(** The stages before: the header is read and a block chosen. *)
Lemma udp_input_stages u (w : W) p c cs sport dport len chk rest r l (k : M W unit) (Q : W → Prop) :
  let d := ip_data (u_ip u) in
  let n := global_if (u_ip u) in
  let bc := ip4_addr_isbroadcast_u32 (current_iphdr_dest d) n in
  let u0 := u <| udp_data_src := sport |> <| udp_data_dst := dport |> in
  packet (ip_store (u_ip u)) p (c :: cs) → c_data c = udp_header sport dport len chk ++ rest →
  is_u16 sport → is_u16 dport → current_netif d = true →
  udp_demux sport dport bc u0 = Val (r, u0 <| udp_pcbs := l |>) →
  calls (udp_deliver p (pb_payload (c_pbuf c)) r bc sport) (part_set (u0 <| udp_pcbs := l |>) w) k Q →
  calls (udp_input p) (part_set u w) k Q.
Proof.
  intros d n bc u0 Hpk Hd Hsp Hdp Hcn Hrun Hcalls. pose proof (packet_seg _ _ _ Hpk) as (-> & Hl & _).
  destruct (packet_head_len _ _ _ _ Hpk) as (Hplen & _). pose proof (zlen_nonneg rest).
  pose proof (packet_payload _ _ _ _ Hpk) as Hrd. rewrite Hd in Hrd.
  assert (8 ≤ zlen (udp_header sport dport len chk ++ rest)) as Hlen
    by (rewrite zlen_app; change (zlen (udp_header _ _ _ _)) with 8; lia).
  unfold udp_input. apply calls_bind, runs_assert; [done|].
  apply calls_bind. eapply runs_uread; [cbn [deref rbind]; unfold get_pbuf; rewrite Hl; done|]. cbn [deref rbind].
  rewrite (proj2 (Z.ltb_ge _ _)) by (rewrite Hplen, Hd; unfold UDP_HLEN; lia).
  apply calls_bind. eapply runs_uread; [cbn [deref rbind]; unfold get_pbuf; rewrite Hl; done|]. cbn [deref rbind].
  apply calls_bind, runs_part, runs_lift. eapply (runs_ask _ _ bc).
  { unfold current_isbroadcast, bc, ip4_addr_isbroadcast_u32. fold d n.
    change (current_netif (ip_data (part_get u))) with (current_netif d). rewrite Hcn.
    change (ip_data (part_get u)) with d. change (global_if (part_get u)) with n.
    unfold ip4_addr_isbroadcast_u32. by destruct (_ || _). }
  replace (part_set (part_get u) u) with u by by destruct u.
  apply calls_bind. eapply runs_uread; [by apply (rd16_at _ _ _ _ Hrd eq_refl 0 (sport / 256) (sport mod 256)); [lia|lia|]|].
  apply calls_bind. eapply runs_uread; [by apply (rd16_at _ _ _ _ Hrd eq_refl 2 (dport / 256) (dport mod 256)); [lia|lia|]|].
  rewrite !be_read by done. apply calls_bind, runs_part, runs_modify. fold u0.
  apply calls_bind, runs_part. eapply runs_eq; [exact Hrun|]. exact Hcalls.
Qed.

Lemma udp_input_calls u (w : W) p c cs sport dport len chk rest :
  let d := ip_data (u_ip u) in
  let n := global_if (u_ip u) in
  let bc := ip4_addr_isbroadcast_u32 (current_iphdr_dest d) n in
  packet (ip_store (u_ip u)) p (c :: cs) → c_data c = udp_header sport dport len chk ++ rest →
  Forall is_u8 (bytes (c :: cs)) → is_u16 sport → is_u16 dport → is_u16 chk →
  is_u32 (current_iphdr_src d) → is_u32 (current_iphdr_dest d) →
  rd8 (ip_store (u_ip u)) (current_ip4_header d) 9 = Val IP_PROTO_UDP →
  known_pcbs u (udp_pcbs u) → current_netif d = true → current_input_netif d = true →
  ∃ r l, chosen u sport dport bc r l ∧
    let u1 := u <| udp_data_src := sport |> <| udp_data_dst := dport |> <| udp_pcbs := l |> in
    let s' := (ip_store (u_ip u)) <| pbufs := <[c_loc c := c_pbuf (advance 8 c)]> (pbufs (ip_store (u_ip u))) |> in
    match r with
    | Some pcb => ∃ cb, udp_mem u !! pcb = Some cb ∧
        if chksum_ok (current_iphdr_src d) (current_iphdr_dest d) chk (bytes (c :: cs)) then
          packet s' p (advance 8 c :: cs) ∧
          calls (udp_input p) (part_set u w)
            (match pcb_recv cb with
             | Some f => udp_callback f (recv_arg cb) pcb p (current_iphdr_src d) sport
             | None => udp_drop p
             end) (λ w', w' = part_set (set_store u1 s') w)
        else calls (udp_input p) (part_set u w) (udp_drop p) (λ w', w' = part_set u1 w)
    | None => ni_ip_addr n ≠ current_iphdr_dest d →
        calls (udp_input p) (part_set u w) (udp_drop p) (λ w', w' = part_set u1 w)
    end.
Proof.
  intros d n bc Hpk Hd Hu8 Hsp Hdp Hchk Hs Hdst Hproto Hk Hcn Hin.
  set (u0 := u <| udp_data_src := sport |> <| udp_data_dst := dport |>).
  destruct (runs_inv _ _ _ (udp_demux_runs u0 sport dport bc Hin Hk)) as (r & u1 & Hrun & l & -> & Hch).
  exists r, l. split; [exact Hch|]. cbv zeta.
  pose proof (udp_input_stages u w p c cs sport dport len chk rest r l) as Hpre.
  cbv zeta in Hpre. fold d n bc u0 in Hpre.
  destruct r as [pcb|].
  - destruct (chosen_known _ _ _ _ _ _ Hk Hch) as [cb Hcb]. exists cb. split; [exact Hcb|].
    set (u1 := u0 <| udp_pcbs := l |>) in *.
    pose proof (udp_deliver_spec u1 w p c cs sport dport len chk rest pcb cb bc Hpk Hd Hu8 Hchk Hs Hdst Hproto Hcb) as H.
    cbv zeta in H. change (ip_data (u_ip u1)) with d in H.
    destruct (chksum_ok _ _ _ _); [destruct H as [H1 H2]; split; [exact H1|]; by apply Hpre|by apply Hpre].
  - intros Hne. apply Hpre; try done. unfold udp_deliver. apply calls_bind, runs_part, runs_gets. fold d n.
    change (ni_ip_addr (global_if (u_ip (u0 <| udp_pcbs := l |>)))) with (ni_ip_addr n).
    change (current_iphdr_dest (ip_data (u_ip (u0 <| udp_pcbs := l |>)))) with (current_iphdr_dest d).
    rewrite (proj2 (Z.eqb_neq _ _)) by done. by apply calls_here.
Qed.

(** C11: [udp_input] on a datagram received from IP.  Its ports are recorded for
    the callbacks, and the datagram goes to the block the search chooses.  If its
    checksum is 0 (none) or the sum over pseudo header and datagram is 65535, the
    call comes down to one call of that block's callback, with the block's
    argument, the sender's address and port, and the packet without its UDP
    header; a block without callback, or a wrong checksum, or no block for an
    address that is not the interface's, means that the packet is freed. *)
Theorem udp_input_spec u (w : W) p c cs sport dport len chk rest :
  let d := ip_data (u_ip u) in
  let n := global_if (u_ip u) in
  let bc := ip4_addr_isbroadcast_u32 (current_iphdr_dest d) n in
  packet (ip_store (u_ip u)) p (c :: cs) → c_data c = udp_header sport dport len chk ++ rest →
  Forall is_u8 (bytes (c :: cs)) → is_u16 sport → is_u16 dport → is_u16 chk →
  is_u32 (current_iphdr_src d) → is_u32 (current_iphdr_dest d) →
  rd8 (ip_store (u_ip u)) (current_ip4_header d) 9 = Val IP_PROTO_UDP →
  known_pcbs u (udp_pcbs u) → current_netif d = true → current_input_netif d = true →
  ∃ r l, chosen u sport dport bc r l ∧
    let u1 := u <| udp_data_src := sport |> <| udp_data_dst := dport |> <| udp_pcbs := l |> in
    let s' := (ip_store (u_ip u)) <| pbufs := <[c_loc c := c_pbuf (advance 8 c)]> (pbufs (ip_store (u_ip u))) |> in
    match r with
    | Some pcb => ∃ cb, udp_mem u !! pcb = Some cb ∧
        if chksum_ok (current_iphdr_src d) (current_iphdr_dest d) chk (bytes (c :: cs)) then
          packet s' p (advance 8 c :: cs) ∧
          calls (udp_input p) (part_set u w)
            (match pcb_recv cb with
             | Some f => udp_callback f (recv_arg cb) pcb p (current_iphdr_src d) sport
             | None => udp_drop p
             end) (λ w', w' = part_set (set_store u1 s') w)
        else calls (udp_input p) (part_set u w) (udp_drop p) (λ w', w' = part_set u1 w)
    | None => ni_ip_addr n ≠ current_iphdr_dest d →
        calls (udp_input p) (part_set u w) (udp_drop p) (λ w', w' = part_set u1 w)
    end.
Proof. apply udp_input_calls. Qed.
End input.

(** ** A run *)

#[local] Existing Instance part_self.
#[local] Instance ex_env : udp_env ustate := {
  udp_callback _ _ _ _ _ port := modify (λ u, u <| udp_port := port |>); icmp_port_unreach _ := ret tt
}.
#[local] Instance ex_driver : netif_driver ustate := { netif_output _ _ := ret ERR_OK }.

(** A datagram of two bytes from 10.1.0.2:5353 to 10.1.0.1:53, and a block that
    listens on every port; the example's callback notes the sender's port. *)
Definition ex_dgram : cell :=
  mk_cell 1 (mk_pbuf None (Some (mk_ptr 1 44)) 10 10 130 0 1 0) (udp_header 5353 53 10 0 ++ [8; 9]).
Definition ex_dgram_store : store :=
  mk_store {[1%positive := c_pbuf ex_dgram]}
    {[1%positive := replicate 24 0 ++ ip_hdr_bytes ex_hdr ++ c_data ex_dgram]} 3 [] ∅ sys_mbox_new false.
Definition ex_listener : udp_pcb := mk_udp_pcb 0 0 1 0 0 255 0 1 0 0 0 (Some Recv_udp_on_received) (Some 9%positive).
Definition ex_udp_in : ustate :=
  mk_ustate (mk_ipstate ex_dgram_store (mk_netif 0 0 0 1500 5 0) true
      (mk_ip_globals true true (Some (mk_ptr 1 24)) 20 33554698 16777482) 0)
    50000 [2%positive] {[2%positive := ex_listener]} 0 0.

Lemma ex_udp_in_known : known_pcbs ex_udp_in (udp_pcbs ex_udp_in).
Proof. intros a ->%list_elem_of_singleton. by eexists. Qed.

Lemma udp_demux_spec_witness : runs (udp_demux 5353 53 false) ex_udp_in (λ r u', r = Some 2%positive).
Proof.
  eapply runs_mono; [apply (udp_demux_spec ex_udp_in 5353 53 false); [reflexivity|exact ex_udp_in_known]|].
  intros r u' (l & -> & [(pre & pcb & c & post & _ & Hc & Hp & _)|(_ & -> & _)]); [|by vm_compute].
  exfalso. assert (pcb = 2%positive) as ->.
  { destruct (decide (pcb = 2%positive)) as [|Hne]; [done|]. simpl in Hc. by rewrite lookup_singleton_ne in Hc. }
  simpl in Hc. rewrite lookup_singleton_eq in Hc. injection Hc as <-. by vm_compute in Hp.
Defined.

Lemma udp_input_spec_witness : ∃ u', udp_input (W := ustate) (Some 1%positive) ex_udp_in = Val (tt, u') ∧
  udp_port u' = 5353 ∧ pbufs (ip_store (u_ip u')) !! 1%positive = Some (c_pbuf (advance 8 ex_dgram)).
Proof.
  destruct (udp_input_spec ex_udp_in ex_udp_in (Some 1%positive) ex_dgram [] 5353 53 10 0 [8; 9])
    as (r & l & Hch & Hr).
  - split; [done|done|done|]. by repeat constructor.
  - done.
  - repeat (apply Forall_cons_2; [by vm_compute|]). apply Forall_nil_2.
  - by vm_compute.
  - by vm_compute.
  - by vm_compute.
  - by vm_compute.
  - by vm_compute.
  - by vm_compute.
  - exact ex_udp_in_known.
  - done.
  - done.
  - destruct Hch as [(pre & pcb & c & post & _ & Hc & Hp & _)|(_ & -> & ->)].
    + exfalso. destruct (decide (pcb = 2%positive)) as [->|Hne]; simpl in Hc; [|by rewrite lookup_singleton_ne in Hc].
      rewrite lookup_singleton_eq in Hc. injection Hc as <-. by vm_compute in Hp.
    + assert (best ex_udp_in false (candidates ex_udp_in 53 false (udp_pcbs ex_udp_in)) = Some 2%positive) as Hb by (vm_compute; reflexivity).
      change (ip4_addr_isbroadcast_u32 (current_iphdr_dest (ip_data (u_ip ex_udp_in))) (global_if (u_ip ex_udp_in))) with false in Hr.
      rewrite Hb in Hr. destruct Hr as (cb & Hcb & Hok & w' & Hrun & ->).
      simpl in Hcb. rewrite lookup_singleton_eq in Hcb. injection Hcb as <-.
      eexists. split; [etransitivity; [exact Hrun|reflexivity]|]. split; vm_compute; reflexivity.
Defined.
