(* ===== verification/UdpOutput.v ===== *)
(** * UDP output

    The datagram [udp_sendto_if_src_port] puts on the wire: IP header, UDP
    header and data, with both checksums right. *)

From S2P Require Import Prelude Mbox Heap HeapFacts Pbuf Packet PbufFacts PbufChain Def Chksum Addr Header Ip4 Ip4Facts Ip4InFacts.
From S2P Require Import Udp UdpBind UdpInput.

Implicit Types s : store.

(** ** The header *)

(** The checksum the code stores: never 0, which means none. *)
Definition udp_checksum (src dst sport dport len : Z) (data : list Z) : Z :=
  let v := 65535 - ones (word_sum (pseudo_header src dst IP_PROTO_UDP len ++ udp_header sport dport len 0 ++ data)) in
  if v =? 0 then 65535 else v.

Lemma udp_checksum_range src dst sport dport len data : is_u16 (udp_checksum src dst sport dport len data).
Proof.
  unfold udp_checksum. set (x := word_sum _). pose proof (ones_range x). bounds. destruct (_ =? 0); lia.
Qed.

Lemma udp_header_u8 sport dport len chk :
  is_u16 sport → is_u16 dport → is_u16 len → is_u16 chk → Forall is_u8 (udp_header sport dport len chk).
Proof.
  intros Hs Hd Hl Hc. assert (∀ x, is_u16 x → is_u8 (x / 256) ∧ is_u8 (x mod 256)) as Hx.
  { intros x Hx. unfold is_u8. bounds. Z.div_mod_to_equations. lia. }
  destruct (Hx sport), (Hx dport), (Hx len), (Hx chk); try done.
  repeat (apply Forall_cons; split; [done|]). apply Forall_nil_2.
Qed.

Lemma udp_header_sum src dst sport dport len chk data :
  is_u16 chk →
  word_sum (pseudo_header src dst IP_PROTO_UDP len ++ udp_header sport dport len chk ++ data) =
  word_sum (pseudo_header src dst IP_PROTO_UDP len ++ udp_header sport dport len 0 ++ data) + chk.
Proof.
  intros Hc. rewrite !word_sum_app by done. unfold udp_header. cbn [word_sum].
  change (0 mod 256) with 0. change (0 / 256) with 0. pose proof (Z_div_mod_eq_full chk 256). lia.
Qed.

Lemma pseudo_header_u8 src dst proto len :
  is_u32 src → is_u32 dst → is_u8 proto → is_u16 len → Forall is_u8 (pseudo_header src dst proto len).
Proof.
  intros Hs Hd Hp Hl. unfold pseudo_header. repeat (apply Forall_app; split); try by apply addr_bytes_u8.
  unfold is_u8 in *. bounds. repeat (apply Forall_cons; split; [unfold is_u8; bounds; Z.div_mod_to_equations; lia|]). apply Forall_nil_2.
Qed.

(** A datagram with this checksum passes the receiver's test. *)
Lemma udp_checksum_ok src dst sport dport data :
  let len := 8 + zlen data in
  let chk := udp_checksum src dst sport dport len data in
  is_u32 src → is_u32 dst → is_u16 sport → is_u16 dport → is_u16 len → Forall is_u8 data →
  chk ≠ 0 ∧ chksum_ok src dst chk (udp_header sport dport len chk ++ data) = true.
Proof.
  intros len chk Hs Hd Hsp Hdp Hl Hu. pose proof (udp_checksum_range src dst sport dport len data) as Hr. fold chk in Hr.
  assert (0 ≤ word_sum (pseudo_header src dst IP_PROTO_UDP len ++ udp_header sport dport len 0 ++ data)) as Hx.
  { apply word_sum_range. apply Forall_app; split; [by apply pseudo_header_u8|]. apply Forall_app; split; [|done].
    by apply udp_header_u8. }
  unfold chksum_ok. assert (zlen (udp_header sport dport len chk ++ data) = len) as -> by by rewrite zlen_app.
  rewrite udp_header_sum by done. unfold chk, udp_checksum in *. set (x := word_sum _) in *.
  pose proof (ones_range x). destruct (ones_spec x) as [Hz Hm]; [lia|].
  destruct (Z.eqb_spec (65535 - ones x) 0) as [E|E].
  - split; [done|]. apply orb_true_iff. right. apply Z.eqb_eq. symmetry. apply ones_unique; [lia|lia|lia|].
    assert (ones x = 65535) as H1 by lia. rewrite H1 in Hm. Z.div_mod_to_equations. lia.
  - split; [done|]. apply orb_true_iff. right. apply Z.eqb_eq. symmetry. apply ones_unique; [lia|lia|lia|].
    Z.div_mod_to_equations. lia.
Qed.

Lemma udp_header_writes (d : list Z) sport dport len chk :
  zlen d = 8 →
  zsplice 6 [chk mod 256; chk / 256] (zsplice 4 [len / 256; len mod 256] (zsplice 6 [0; 0]
    (zsplice 2 [dport / 256; dport mod 256] (zsplice 0 [sport / 256; sport mod 256] d)))) =
  udp_header sport dport len chk.
Proof.
  intros Hd. do 8 (destruct d as [|? d]; [discriminate Hd|rewrite zlen_cons in Hd]).
  assert (d = []) as -> by (apply zlen_0_nil; lia). reflexivity.
Qed.
Lemma udp_header_zero (d : list Z) sport dport len :
  zlen d = 8 →
  zsplice 4 [len / 256; len mod 256] (zsplice 6 [0; 0]
    (zsplice 2 [dport / 256; dport mod 256] (zsplice 0 [sport / 256; sport mod 256] d))) =
  udp_header sport dport len 0.
Proof.
  intros Hd. rewrite <- (udp_header_writes d sport dport len 0 Hd).
  do 8 (destruct d as [|? d]; [discriminate Hd|rewrite zlen_cons in Hd]).
  assert (d = []) as -> by (apply zlen_0_nil; lia). reflexivity.
Qed.

(** One 16-bit field in network order. *)
Lemma hdr_state_wr16 n s0 s p c cs d rest o v :
  hdr_state n s0 s p c cs d rest → 0 ≤ o → o + 2 ≤ n → is_u16 v →
  runs (wr16 (pb_payload (c_pbuf c)) o (lwip_htons v)) s (λ _ s',
    hdr_state n s0 s' p c cs (zsplice o [v / 256; v mod 256] d) rest).
Proof.
  intros Hs Ho Hn Hv. unfold wr16. destruct (htons_bytes v Hv) as [-> ->].
  eapply hdr_state_write; [exact Hs|done|done|done].
Qed.

Lemma udp_write_header_spec cb s0 s p c cs d rest src dst sport dport :
  let len := 8 + zlen (rest ++ bytes cs) in
  hdr_state 8 s0 s p c cs d rest → pb_tot_len (c_pbuf c) = len → is_u16 len →
  is_u32 src → is_u32 dst → is_u16 sport → is_u16 dport → Forall is_u8 (rest ++ bytes cs) →
  Z.land (pcb_flags cb) UDP_FLAGS_UDPLITE = 0 → Z.land (pcb_flags cb) UDP_FLAGS_NOCHKSUM = 0 →
  runs (udp_write_header cb p (pb_payload (c_pbuf c)) src dst sport dport) s (λ proto s', proto = IP_PROTO_UDP ∧
    hdr_state 8 s0 s' p c cs
      (udp_header sport dport len (udp_checksum src dst sport dport len (rest ++ bytes cs))) rest).
Proof.
  intros len Hs Htot Hlen Hsrc Hdst Hsp Hdp Hu Hlite Hno. unfold udp_write_header.
  pose proof (hs_len _ _ _ _ _ _ _ _ Hs) as Hd.
  apply runs_bind. eapply runs_mono; [by eapply hdr_state_wr16|]. intros [] s1 Hs1.
  apply runs_bind. eapply runs_mono; [by eapply hdr_state_wr16|]. intros [] s2 Hs2.
  apply runs_bind. eapply runs_mono; [by apply (hdr_state_write _ _ _ _ _ _ _ _ 6 [0; 0] Hs2)|]. intros [] s3 Hs3.
  apply runs_bind. eapply runs_head; [eapply hs_packet; exact Hs3|]. cbn [c_pbuf]. rewrite Htot, Hlite, Hno. cbn [Z.eqb negb].
  apply runs_bind. eapply runs_mono; [eapply hdr_state_wr16; [exact Hs3|lia|lia|done]|]. intros [] s4 Hs4.
  rewrite udp_header_zero in Hs4 by done.
  assert (is_u16 0) as H0 by (unfold is_u16; lia).
  apply runs_bind, runs_bind. eapply runs_ask.
  { unfold ip_chksum_pseudo. eapply inet_chksum_pseudo_eq; [exact (hs_packet _ _ _ _ _ _ _ _ Hs4)| |done|done| |done].
    - rewrite bytes_cons. cbn [c_data]. rewrite <- app_assoc. apply Forall_app. split; [by apply udp_header_u8|done].
    - unfold is_u8, IP_PROTO_UDP. lia. }
  rewrite bytes_cons. cbn [c_data]. rewrite <- app_assoc.
  match goal with |- runs (wr16 _ _ ?v) _ _ =>
    change v with (udp_checksum src dst sport dport len (rest ++ bytes cs)) end.
  pose proof (udp_checksum_range src dst sport dport len (rest ++ bytes cs)) as Hr.
  set (chk := udp_checksum _ _ _ _ _ _) in *. unfold wr16. rewrite u16_small by (bounds; lia).
  eapply runs_mono; [by apply (hdr_state_write _ _ _ _ _ _ _ _ 6 [chk mod 256; chk / 256] Hs4)|].
  intros [] s5 Hs5. apply runs_ret. split; [done|]. rewrite <- udp_header_zero with (d := d) in Hs5 by done.
  by rewrite udp_header_writes in Hs5.
Qed.

(** ** The datagram on the wire *)

Lemma packet_headroom s p c cs n o :
  packet s p (c :: cs) → pb_payload (c_pbuf c) = Some (mk_ptr (c_loc c) o) → SIZEOF_STRUCT_PBUF + n ≤ o →
  Z.land (pb_type_internal (c_pbuf c)) PBUF_TYPE_FLAG_STRUCT_DATA_CONTIGUOUS ≠ 0 → 0 < zlen (c_data c) →
  headroom s n c.
Proof.
  intros Hpk Ho Hn Hty Hd. split; [|done]. pose proof (packet_payload _ _ _ _ Hpk) as Hrd. rewrite Ho in Hrd.
  apply mem_read_inv in Hrd as (a & b & [= <-] & Hb & _ & _ & _ & Hlen); [|lia]. simpl in Hb, Hlen.
  exists o, b. split_and!; [done|done|done|lia].
Qed.

Section output.
Context {W : Type} `{!Part ustate W} `{!udp_env W} `{!netif_driver W}.
#[local] Existing Instance ip_part.


(** The last stage: IP. *)
Definition udp_sent (u : ustate) (w : W) (c : cell) (cs : list cell) (src dst sport dst_port ttl tos : Z) (w' : W) : Prop :=
  let data := bytes (c :: cs) in
  let len := 8 + zlen data in
  ∃ s' c' chk ipchk,
    w' = part_set (u <| u_ip := (u_ip u) <| ip_store := s' |> <| ip_id := u16 (ip_id (u_ip u) + 1) |> |>) w ∧
    packet s' (Some (c_loc c)) (c' :: cs) ∧ same_home c c' ∧ is_u16 ipchk ∧
    bytes (c' :: cs) = ip_header tos (len + 20) (ip_id (u_ip u)) ttl IP_PROTO_UDP ipchk src dst
      ++ udp_header sport dst_port len chk ++ data ∧
    inet_chksum s' (pb_payload (c_pbuf c')) 20 = Val 0 ∧
    chk ≠ 0 ∧ chksum_ok src dst chk (udp_header sport dst_port len chk ++ data) = true ∧
    outside [c_loc c] (ip_store (u_ip u)) s'.

Lemma udp_datagram_ip u (w : W) c cs src dst sport dst_port ttl tos junk s1 s2 :
  let s := ip_store (u_ip u) in
  let data := bytes (c :: cs) in
  let len := 8 + zlen data in
  let chk := udp_checksum src dst sport dst_port len data in
  let c1 := retreat 8 junk c in
  headroom s 28 c → pb_ref (c_pbuf c) = 1 → s1 = s <| pbufs := <[c_loc c := c_pbuf c1]> (pbufs s) |> →
  hdr_state 8 s1 s2 (Some (c_loc c)) c1 cs (udp_header sport dst_port len chk) (c_data c) → Forall own_data cs →
  len + 20 < 2 ^ 16 → Forall is_u8 data → is_u16 sport → is_u16 dst_port →
  header_fields tos (len + 20) (ip_id (u_ip u)) ttl IP_PROTO_UDP src dst →
  calls (ip4_output_if_src (Some (c_loc c)) (Some src) (Some dst) ttl tos IP_PROTO_UDP) (part_set (set_store u s2) w)
    (netif_output (Some (c_loc c)) dst) (udp_sent u w c cs src dst sport dst_port ttl tos).
Proof.
  intros s data len chk c1 Hroom Href Hs1 [Hpk2 _ Hown2 Hpb2 Hrest2 Hmsg2 Hblk2 _] Hown Hlen Hu Hsp16 Hdp Hf.
  pose proof Hf as []. subst s.
  set (c2 := mk_cell _ _ _) in Hpk2.
  destruct (udp_checksum_ok src dst sport dst_port data) as [Hc0 Hcok]; try done.
  { pose proof (zlen_nonneg data). unfold is_u16. fold len. lia. }
  assert (bytes (c2 :: cs) = udp_header sport dst_port len chk ++ data) as Hb2.
  { rewrite bytes_cons. simpl. symmetry. apply (app_assoc (udp_header _ _ _ _)). }
  assert (total (c2 :: cs) + 20 = len + 20) as Hlen2.
  { unfold total. rewrite Hb2, zlen_app. done. }
  assert (headroom s2 20 c2) as Hroom2.
  { destruct Hroom as [(o & b & Ho & Hle & _) Hty]. apply (packet_headroom s2 (Some (c_loc c)) c2 cs 20 (o + - 8)); try done.
    - simpl. rewrite Ho. done.
    - lia. }
  set (iw := (u_ip u) <| ip_store := s2 |>). fold len in Hc0, Hcok. fold chk in Hc0, Hcok.
  pose proof (@ip4_output_if_src_calls W ip_part _ (part_set u w) iw (Some (c_loc c)) c2 cs src dst
    ttl tos IP_PROTO_UDP Hpk2 Hroom2 ltac:(done) Href) as Hip.
  rewrite Hlen2 in Hip. specialize (Hip Hlen Hf).
  change (part_set iw (part_set u w)) with (part_set (P := ustate) (part_set iw (part_get (part_set u w))) (part_set u w)) in Hip.
  rewrite part_get_set, part_set_set in Hip.
  eapply calls_mono; [exact Hip|].
  intros w' (s' & c' & -> & Hpk' & Hloc & _ & (ipchk & Hipchk & Hb) & Hchk & Hout). exists s', c', chk, ipchk.
  split_and!; try done.
  - change (part_set ?x (part_set u w)) with (part_set (P := ustate) (part_set x (part_get (part_set u w))) (part_set u w)).
      by rewrite part_get_set, part_set_set.
  - destruct Hout as [Ho1 Ho2 Ho3 Ho4]. split.
    + intros b Hn. rewrite Ho1 by done. change (pbufs (ip_store iw)) with (pbufs s2). rewrite Hpb2, Hs1. simpl.
        rewrite lookup_insert_ne; [done|]. intros <-. apply Hn. by left.
    + intros b Hn. rewrite Ho2 by done. change (blocks (ip_store iw)) with (blocks s2). rewrite Hblk2, Hs1; [done|].
        intros ->. apply Hn. by left.
    + destruct Hrest2 as (? & ? & ? & ?), Ho3 as (? & ? & ? & ?). subst s1. by split_and!; etransitivity.
    + etransitivity; [exact Ho4|]. etransitivity; [exact Hmsg2|by rewrite Hs1].
Qed.

Lemma udp_sendto_calls u (w : W) l cb p c cs dst dst_port src src_port :
  let s := ip_store (u_ip u) in
  let sport := if src_port =? 0 then local_port cb else src_port in
  let data := bytes (c :: cs) in
  let len := 8 + zlen data in
  udp_mem u !! l = Some cb → packet s p (c :: cs) → Forall own_data cs →
  headroom s 28 c → pb_ref (c_pbuf c) = 1 → len + 20 < 2 ^ 16 → Forall is_u8 data →
  sport ≠ 0 → is_u16 sport → is_u16 dst_port →
  header_fields (pcb_tos cb) (len + 20) (ip_id (u_ip u)) (pcb_ttl cb) IP_PROTO_UDP src dst →
  Z.land (pcb_flags cb) UDP_FLAGS_UDPLITE = 0 → Z.land (pcb_flags cb) UDP_FLAGS_NOCHKSUM = 0 →
  calls (udp_sendto_if_src_port (Some l) p (Some dst) dst_port true (Some src) src_port) (part_set u w) (netif_output p dst)
    (udp_sent u w c cs src dst sport dst_port (pcb_ttl cb) (pcb_tos cb)).
Proof.
  intros s sport data len Hcb Hpk Hown Hroom Href Hlen Hu Hsp Hsp16 Hdp Hf Hlite Hno.
  pose proof Hf as []. pose proof (packet_seg _ _ _ Hpk) as (Hp & Hl & _). subst p.
  destruct (packet_head_len _ _ _ _ Hpk) as (Hplen & Htot & ? & ? & Hz).
  assert (pb_tot_len (c_pbuf c) = len - 8) as Htot' by (rewrite Htot, <- total_cons; unfold len, data, total; lia).
  assert (8 ≤ len) by (unfold len; pose proof (zlen_nonneg data); lia). unfold udp_sendto_if_src_port. subst s.
  apply calls_bind, runs_ret. apply calls_bind, runs_assert; [done|]. do 2 apply calls_bind, runs_ret.
  apply calls_bind, runs_assert; [done|].
  apply calls_bind, runs_part. eapply runs_ask; [unfold get_pcb; by rewrite Hcb|]. cbn [deref].
  assert ((src_port =? 0) && (local_port cb =? 0) = false) as ->.
  { unfold sport in Hsp. destruct (src_port =? 0); [|done]. by apply Z.eqb_neq. }
  apply calls_bind, runs_ret. change (negb (is_ok ERR_OK)) with false. cbv iota.
  apply calls_bind, runs_part. eapply runs_ask; [unfold get_pcb; by rewrite Hcb|]. cbn [deref]. fold sport.
  apply calls_bind. eapply runs_ufield; [done|]. rewrite Htot'.
  rewrite u16_small, (proj2 (Z.ltb_ge _ _)) by (unfold UDP_HLEN; bounds; lia).
  assert (headroom (ip_store (u_ip u)) 8 c) as Hroom8.
  { destruct Hroom as [(o & b & Ho & Hle & ? & ?) Hty]. split; [|done]. exists o, b. split_and!; try done. lia. }
  apply calls_bind, runs_ust, runs_bind. eapply runs_mono.
  { apply (pbuf_add_header_spec _ _ _ _ 8 Hpk Hroom8); [lia|]. unfold total. fold data. lia. }
  intros r s1 (-> & junk & Hj & Hs1 & Hpk1). apply runs_ret. set (c1 := retreat 8 junk c) in *.
  apply calls_bind. eapply runs_ufield; [exact Hpk1|].
  apply calls_bind, runs_assert; [apply Z.leb_le; unfold UDP_HLEN; simpl; lia|].
  apply calls_bind. eapply runs_ufield; [exact Hpk1|].
  assert (hdr_state 8 s1 s1 (Some (c_loc c)) c1 cs junk (c_data c)) as Hst.
  { split; try done. constructor; [|done]. apply (retreat_own (ip_store (u_ip u))); [lia|done]. }
  apply calls_bind, runs_ust. eapply runs_mono.
  { apply (udp_write_header_spec cb s1 s1 (Some (c_loc c)) c1 cs junk (c_data c) src dst sport dst_port Hst); try done.
    - change (c_data c ++ bytes cs) with data. fold len. simpl. lia.
    - change (c_data c ++ bytes cs) with data. fold len. unfold is_u16. lia. }
  intros proto s2 [-> Hs2]. change (c_data c ++ bytes cs) with data in Hs2. fold len in Hs2.
  eapply calls_same; [apply calls_seq|].
  - change (set_store (set_store u s1) s2) with (set_store u s2).
    by apply (udp_datagram_ip u w c cs src dst sport dst_port _ _ junk s1 s2).
  - intros w'. unfold mbnd. destruct (netif_output _ _ w') as [[e w2]|]; [|done]. by rewrite bool_decide_eq_true_2.
Qed.

(** C12: a datagram sent is a valid IPv4 packet.  For a packet with room for both
    headers, a block without UDP-Lite that does not disable checksums, and a
    source port (the caller's, or the block's), [udp_sendto_if_src_port] comes
    down to one call of the driver, on the same pbufs.  These now hold an IPv4
    header for protocol 17 from the source to the destination address, whose
    [inet_chksum] is 0; a UDP header with the ports, the length and a checksum
    that is not 0 and passes the receiver's test; and the caller's data. *)
Theorem udp_sendto_spec u (w : W) l cb p c cs dst dst_port src src_port :
  let s := ip_store (u_ip u) in
  let sport := if src_port =? 0 then local_port cb else src_port in
  let data := bytes (c :: cs) in
  let len := 8 + zlen data in
  udp_mem u !! l = Some cb → packet s p (c :: cs) → Forall own_data cs →
  headroom s 28 c → pb_ref (c_pbuf c) = 1 → len + 20 < 2 ^ 16 → Forall is_u8 data →
  sport ≠ 0 → is_u16 sport → is_u16 dst_port →
  header_fields (pcb_tos cb) (len + 20) (ip_id (u_ip u)) (pcb_ttl cb) IP_PROTO_UDP src dst →
  Z.land (pcb_flags cb) UDP_FLAGS_UDPLITE = 0 → Z.land (pcb_flags cb) UDP_FLAGS_NOCHKSUM = 0 →
  calls (udp_sendto_if_src_port (Some l) p (Some dst) dst_port true (Some src) src_port) (part_set u w) (netif_output p dst)
    (udp_sent u w c cs src dst sport dst_port (pcb_ttl cb) (pcb_tos cb)).
Proof. apply udp_sendto_calls. Qed.
End output.

(** ** A run *)

#[local] Existing Instance part_self.
#[local] Instance ex_env : udp_env ustate := { udp_callback _ _ _ _ _ _ := ret tt; icmp_port_unreach _ := ret tt }.
#[local] Instance ex_driver : netif_driver ustate := { netif_output _ _ := ret ERR_OK }.

Definition ex_out_cell : cell := mk_cell 1 (mk_pbuf None (Some (mk_ptr 1 64)) 2 2 128 0 1 0) [8; 9].
Definition ex_udp_out : ustate :=
  mk_ustate (mk_ipstate (mk_store {[1%positive := c_pbuf ex_out_cell]} {[1%positive := replicate 64 0 ++ [8; 9]]}
        3 [] ∅ sys_mbox_new false) (mk_netif 0 0 0 1500 5 0) true no_packet 7)
    50000 [2%positive] {[2%positive := ex_listener]} 0 0.

Lemma udp_sendto_spec_witness : ∃ u',
  udp_sendto_if_src_port (W := ustate) (Some 2%positive) (Some 1%positive) (Some 33554698) 5353 true (Some 16777482) 53 ex_udp_out
    = Val (ERR_OK, u') ∧ ip_id (u_ip u') = 8.
Proof.
  destruct (udp_sendto_spec ex_udp_out ex_udp_out 2 ex_listener (Some 1%positive) ex_out_cell [] 33554698 5353 16777482 53)
    as (u' & Hrun & s' & c' & chk & ipchk & -> & _).
  - reflexivity.
  - split; [done|done|done|]. by repeat constructor.
  - constructor.
  - split; [|done]. exists 64, (replicate 64 0 ++ [8; 9]). by split_and!.
  - done.
  - done.
  - repeat (apply Forall_cons_2; [by vm_compute|]). apply Forall_nil_2.
  - done.
  - by vm_compute.
  - by vm_compute.
  - split; by vm_compute.
  - done.
  - done.
  - eexists. split; [etransitivity; [exact Hrun|reflexivity]|]. reflexivity.
Defined.
