(* ===== verification/Icmp.v ===== *)
(** * ICMP ([core/ipv4/icmp.c])

    Echo requests are answered in place, other messages ignored; and the
    messages sent in response to a packet that cannot be delivered. *)

From S2P Require Import Prelude Mbox Heap Pbuf PbufData Def Chksum Addr Header Ip4.

Definition ICMP_ER : Z := 0.
Definition ICMP_DUR : Z := 3.
Definition ICMP_ECHO : Z := 8.
Definition ICMP_TTL : Z := 255.
Definition ICMP_DEST_UNREACH_DATASIZE : Z := 8.
Definition SIZEOF_ICMP_ECHO_HDR : Z := 8.
Definition PBUF_LINK_HLEN : Z := 14.

Section icmp.
Context {W : Type} `{!Part ipstate W} `{!netif_driver W}.

Abbreviation ip m := (lift (P := ipstate) (S := W) m).
Abbreviation st m := (lift (P := ipstate) (S := W) (lift (P := store) m)).

Definition icmp_drop (p : option loc) : M W unit := let! _ := st (pbuf_free p) in ret tt.

(** Room for the headers before the echo request [p], in [p] itself or in a copy;
    [None] when that fails. *)
Definition icmp_echo_room (p : option loc) (iphdr_in : option ptr) (hlen : Z) : M store (option loc) :=
  let! e := pbuf_add_header p (hlen + PBUF_LINK_HLEN) in
  if negb (e =? 0) then
    let! tot_len := tot_len_of p in
    let alloc_len := u16 (tot_len + hlen) in
    if alloc_len <? tot_len then ret None else
    let! r := pbuf_alloc PBUF_LINK alloc_len PBUF_RAM in
    match r with
    | None => ret None
    | Some _ =>
      let! len := len_of r in
      if len <? hlen + SIZEOF_ICMP_ECHO_HDR then let! _ := pbuf_free r in ret None else
      let! d := ask (λ s, mem_read s iphdr_in 0 hlen) in
      let! payload := payload_of r in
      do! mem_write payload 0 d;
      let! e := pbuf_remove_header r hlen in
      do! lwip_assert (e =? 0);
      let! e := pbuf_copy r p in
      if negb (is_ok e) then let! _ := pbuf_free r in ret None else
      let! _ := pbuf_free p in
      ret r
    end
  else
    let! e := pbuf_remove_header p (hlen + PBUF_LINK_HLEN) in
    do! lwip_assert (e =? 0);
    ret p.

(** [iecho->chksum], adjusted to the change of the type from 8 to 0. *)
Definition icmp_adjust (chksum : Z) : Z :=
  if lwip_htons (65535 - Z.shiftl ICMP_ECHO 8) <? chksum
  then u16 (chksum + lwip_htons (u16 (Z.shiftl ICMP_ECHO 8)) + 1)
  else u16 (chksum + lwip_htons (Z.shiftl ICMP_ECHO 8)).

(** The request [p], its payload at the ICMP header [iecho], made the reply. *)
Definition icmp_make_reply (p : option loc) (iecho iphdr : option ptr) (src dest hlen : Z) : M store unit :=
  do! wr32 iphdr 12 src;
  do! wr32 iphdr 16 dest;
  do! wr8 iecho 0 ICMP_ER;
  let! chksum := ask (λ s, rd16 s iecho 2) in
  do! wr16 iecho 2 (icmp_adjust chksum);
  do! wr8 iphdr 8 ICMP_TTL;
  do! wr16 iphdr 10 0;
  let! c := ask (λ s, inet_chksum s iphdr hlen) in
  wr16 iphdr 10 c.

Definition icmp_echo (p : option loc) (iphdr_in : option ptr) (hlen : Z) : M W unit :=
  let! d := ip (gets ip_data) in
  let src := current_iphdr_dest d in
  if ip4_addr_ismulticast src then icmp_drop p else
  let! broadcast := ip (ask current_isbroadcast) in
  if broadcast then icmp_drop p else
  let! tot_len := st (tot_len_of p) in
  if tot_len <? SIZEOF_ICMP_ECHO_HDR then icmp_drop p else
  let! chk := st (ask (λ s, inet_chksum_pbuf s p)) in
  if negb (chk =? 0) then icmp_drop p else
  let! r := st (icmp_echo_room p iphdr_in hlen) in
  match r with
  | None => icmp_drop p
  | Some _ =>
    let! iecho := st (payload_of r) in
    let! e := st (pbuf_add_header r hlen) in
    do! (if negb (e =? 0) then ret tt else
         let! iphdr := st (payload_of r) in
         do! st (icmp_make_reply r iecho iphdr src (current_iphdr_src d) hlen);
         let! _ := ip4_output_if r (Some src) None ICMP_TTL 0 IP_PROTO_ICMP in
         ret tt);
    icmp_drop r
  end.

Definition icmp_input (p : option loc) : M W unit :=
  let! d := ip (gets ip_data) in
  let iphdr_in := current_ip4_header d in
  let! v_hl := st (ask (λ s, rd8 s iphdr_in 0)) in
  let hlen := u8 (Z.land v_hl 15 * 4) in
  if hlen <? IP_HLEN then icmp_drop p else
  let! len := st (len_of p) in
  if len <? 2 * 2 then icmp_drop p else
  let! payload := st (payload_of p) in
  let! type := st (ask (λ s, rd8 s payload 0)) in
  if type =? ICMP_ECHO then icmp_echo p iphdr_in hlen else icmp_drop p.

Definition icmp_send_response (p : option loc) (type code : Z) : M W unit :=
  let! q := st (pbuf_alloc PBUF_IP (SIZEOF_ICMP_ECHO_HDR + IP_HLEN + ICMP_DEST_UNREACH_DATASIZE) PBUF_RAM) in
  match q with
  | None => ret tt
  | Some _ =>
    let! len := st (len_of q) in
    do! lwip_assert (SIZEOF_ICMP_ECHO_HDR + IP_HLEN + ICMP_DEST_UNREACH_DATASIZE <=? len);
    let! iphdr := st (payload_of p) in
    let! icmphdr := st (payload_of q) in
    do! st (wr8 icmphdr 0 type);
    do! st (wr8 icmphdr 1 code);
    do! st (wr16 icmphdr 4 0);
    do! st (wr16 icmphdr 6 0);
    let! d := st (ask (λ s, mem_read s iphdr 0 (IP_HLEN + ICMP_DEST_UNREACH_DATASIZE))) in
    do! st (mem_write icmphdr SIZEOF_ICMP_ECHO_HDR d);
    let! iphdr_src := st (ask (λ s, rd32 s iphdr 12)) in
    let! netif := ip (ip4_route iphdr_src) in
    do! (if netif then
           do! st (wr16 icmphdr 2 0);
           let! c := st (ask (λ s, inet_chksum s icmphdr len)) in
           do! st (wr16 icmphdr 2 c);
           let! _ := ip4_output_if q None (Some iphdr_src) ICMP_TTL 0 IP_PROTO_ICMP in
           ret tt
         else ret tt);
    icmp_drop q
  end.

Definition icmp_dest_unreach (p : option loc) (t : Z) : M W unit := icmp_send_response p ICMP_DUR t.
End icmp.
