(* ===== verification/IcmpFacts.v ===== *)
(** * What an echo request is answered with *)

From S2P Require Import Prelude Mbox Heap HeapFacts Pbuf Packet PbufFacts PbufChain Def Chksum Addr Header Ip4 Ip4Facts Ip4InFacts Icmp.

Implicit Types s : store.

(** ** The checksum of the reply *)

Lemma icmp_adjust_spec k code r :
  is_u16 k → is_u8 code → 0 ≤ r → ones (8 + 256 * code + k + r) = 65535 →
  is_u16 (icmp_adjust k) ∧ ones (0 + 256 * code + icmp_adjust k + r) = 65535.
Proof.
  intros Hk Hc Hr Ho. unfold icmp_adjust. change (lwip_htons (65535 - Z.shiftl ICMP_ECHO 8)) with 65527.
  change (lwip_htons (u16 (Z.shiftl ICMP_ECHO 8))) with 8. change (lwip_htons (Z.shiftl ICMP_ECHO 8)) with 8. bounds.
  destruct (ones_spec (8 + 256 * code + k + r)) as [_ Hm]; [lia|]. rewrite Ho in Hm.
  destruct (Z.ltb_spec 65527 k).
  - assert (u16 (k + 8 + 1) = k + 9 - 65536) as -> by wrap_lia. split; [lia|].
    symmetry. apply ones_unique; [lia|lia| |]; Z.div_mod_to_equations; lia.
  - rewrite u16_small by (bounds; lia). split; [lia|]. symmetry. apply ones_unique; [lia|lia|lia|].
    Z.div_mod_to_equations. lia.
Qed.

(** ** Memory before a packet *)

Lemma mem_write_shift p n o bs s : mem_write ((λ a, ptr_add a n) <$> p) o bs s = mem_write p (n + o) bs s.
Proof.
  unfold mem_write. destruct (zlen bs =? 0); [done|]. destruct p as [a|]; simpl; [|done].
  by replace (off a + n + o) with (off a + (n + o)) by lia.
Qed.

Lemma advance_retreat n junk c s p cs :
  packet s p (c :: cs) → zlen junk = n → is_Some (pb_payload (c_pbuf c)) →
  advance n (retreat n junk c) = c.
Proof.
  intros Hpk Hj [a Ha]. destruct c as [l q d]. unfold advance, retreat. simpl in *.
  rewrite zdrop_app_ge, Hj, Z.sub_diag, zdrop_0 by lia. f_equal.
  destruct q as [nx pl tl ln ty fl rf ix]. simpl in *. subst pl. unfold setter. simpl.
  rewrite ptr_add_undo. f_equal; lia.
Qed.

(** ** The reply *)

(** The header [h] turned around. *)
Definition reply_hdr (h : ip_hdr) (src dest chk : Z) : ip_hdr :=
  mk_ip_hdr (h_v_hl h) (h_tos h) (h_len h) (h_id h) (h_offset h) ICMP_TTL (h_proto h) (chk mod 256) (chk / 256) src dest.

Lemma reply_hdr_sum h src dest chk opts :
  word_sum (ip_hdr_bytes (reply_hdr h src dest chk) ++ opts) =
  word_sum (ip_hdr_bytes (reply_hdr h src dest 0) ++ opts) + chk.
Proof.
  rewrite !word_sum_app by done. unfold ip_hdr_bytes, reply_hdr. cbn [app word_sum addr_bytes h_chk1 h_chk2].
  change (0 mod 256) with 0. change (0 / 256) with 0. cbn -[Z.mul Z.add Z.modulo Z.div word_sum].
  pose proof (Z_div_mod_eq_full chk 256). lia.
Qed.

Definition ip_hdr_u8 (h : ip_hdr) : Prop := Forall is_u8 (ip_hdr_bytes h).

Lemma reply_hdr_u8 h src dest chk :
  ip_hdr_u8 h → is_u32 src → is_u32 dest → is_u16 chk → ip_hdr_u8 (reply_hdr h src dest chk).
Proof.
  intros Hu Hs Hd Hc. unfold ip_hdr_u8, ip_hdr_bytes in *. apply Forall_app in Hu as [Hu _].
  apply Forall_app; split; [|apply Forall_app; split; by apply addr_bytes_u8]. simpl in *.
  repeat match goal with H : Forall _ (_ :: _) |- _ => apply Forall_cons in H as [? H] end.
  repeat (apply Forall_cons; split; [done || (unfold is_u8, ICMP_TTL; bounds; Z.div_mod_to_equations; lia)|]).
  apply Forall_nil_2.
Qed.

(** The state while the reply is made: [d] the IP header, [e] the start of the
    ICMP header, of which the rest is in [rest]. *)
Section reply.
Context (s0 : store) (p : option loc) (c1 : cell) (cs : list cell) (hl : Z) (opts rest : list Z).
Hypothesis (Hhl : hl = 20 + zlen opts).

Definition reply_state s (d e : list Z) : Prop := hdr_state (hl + 4) s0 s p c1 cs ((d ++ opts) ++ e) rest.
Let P1 := pb_payload (c_pbuf c1).

Lemma reply_write_ip s d e o bs :
  reply_state s d e → zlen d = 20 → 0 ≤ o → o + zlen bs ≤ 20 → 0 < zlen bs →
  runs (mem_write P1 o bs) s (λ _ s', reply_state s' (zsplice o bs d) e).
Proof.
  intros Hs Hd Ho Hb Hz. pose proof (zlen_nonneg opts).
  eapply runs_mono; [apply (hdr_state_write _ _ _ _ _ _ _ _ o bs Hs); lia|].
  intros [] s' Hs'. unfold reply_state. by rewrite !zsplice_app_l in Hs' by (rewrite ?zlen_app; lia).
Qed.

Lemma reply_write_icmp s d e o bs :
  reply_state s d e → zlen d = 20 → zlen e = 4 → 0 ≤ o → o + zlen bs ≤ 4 → 0 < zlen bs →
  runs (mem_write ((λ a, ptr_add a hl) <$> P1) o bs) s (λ _ s', reply_state s' d (zsplice o bs e)).
Proof.
  intros Hs Hd He Ho Hb Hz. pose proof (zlen_nonneg opts). unfold runs. rewrite mem_write_shift. fold (runs (mem_write P1 (hl + o) bs) s
    (λ _ s', reply_state s' d (zsplice o bs e))).
  eapply runs_mono; [apply (hdr_state_write _ _ _ _ _ _ _ _ (hl + o) bs Hs); lia|].
  intros [] s' Hs'. unfold reply_state. rewrite zsplice_app_r in Hs' by (rewrite zlen_app; lia).
  rewrite zlen_app in Hs'. by replace (hl + o - (zlen d + zlen opts)) with o in Hs' by lia.
Qed.

Lemma reply_read s d e :
  reply_state s d e → zlen d = 20 → zlen e = 4 →
  mem_read s P1 0 hl = Val (d ++ opts) ∧ mem_read s ((λ a, ptr_add a hl) <$> P1) 0 4 = Val e.
Proof.
  intros Hs Hd He. pose proof (packet_payload _ _ _ _ (hs_packet _ _ _ _ _ _ _ _ Hs)) as Hrd.
  cbn [c_pbuf c_data] in Hrd. fold P1 in Hrd. pose proof (zlen_nonneg opts). pose proof (zlen_nonneg rest).
  split.
  - rewrite (mem_read_sub _ _ _ _ _ _ Hrd) by (rewrite ?zlen_app; lia). f_equal. unfold zslice. rewrite zdrop_0.
    rewrite <- app_assoc, ztake_app_le by (rewrite zlen_app; lia). apply ztake_ge. rewrite zlen_app. lia.
  - rewrite mem_read_shift, (mem_read_sub _ _ _ _ _ _ Hrd) by (rewrite ?zlen_app; lia). f_equal.
    rewrite <- app_assoc, zslice_app_r by (rewrite zlen_app; lia). rewrite zlen_app.
    replace (hl - (zlen d + zlen opts)) with 0 by lia. rewrite zslice_app_l by lia. rewrite <- He. apply zslice_all.
Qed.

Lemma icmp_make_reply_spec s h code k1 k2 src dest :
  reply_state s (ip_hdr_bytes h) [ICMP_ECHO; code; k1; k2] → ip_hdr_u8 h → Forall is_u8 opts → hl ≤ 60 →
  is_u32 src → is_u32 dest → is_u16 (icmp_adjust (k1 + 256 * k2)) →
  let k := icmp_adjust (k1 + 256 * k2) in
  runs (icmp_make_reply p ((λ a, ptr_add a hl) <$> P1) P1 src dest hl) s (λ _ s', ∃ chk, is_u16 chk ∧
    reply_state s' (ip_hdr_bytes (reply_hdr h src dest chk)) [ICMP_ER; code; k mod 256; k / 256] ∧
    inet_chksum s' P1 hl = Val 0).
Proof.
  intros Hs Hu Ho Hl Hsrc Hdest Hk k. pose proof (zlen_nonneg opts). unfold icmp_make_reply.
  unfold wr32. rewrite !u32_small by (bounds; lia).
  apply runs_bind. eapply runs_mono; [apply (reply_write_ip _ _ _ 12 (addr_bytes src) Hs); done|]. intros [] s1 Hs1.
  apply runs_bind. eapply runs_mono; [apply (reply_write_ip _ _ _ 16 (addr_bytes dest) Hs1); done|]. intros [] s2 Hs2.
  apply runs_bind. eapply runs_mono; [apply (reply_write_icmp _ _ _ 0 [ICMP_ER] Hs2); done|]. intros [] s3 Hs3.
  apply runs_bind. eapply runs_ask.
  { eapply rd16_at; [apply (reply_read _ _ _ Hs3); done|done|lia|lia|reflexivity]. }
  fold k. unfold wr16. rewrite (u16_small k) by done.
  apply runs_bind. eapply runs_mono; [apply (reply_write_icmp _ _ _ 2 [k mod 256; k / 256] Hs3); done|]. intros [] s4 Hs4.
  apply runs_bind. eapply runs_mono; [apply (reply_write_ip _ _ _ 8 [ICMP_TTL] Hs4); done|]. intros [] s5 Hs5.
  apply runs_bind. eapply runs_mono; [apply (reply_write_ip _ _ _ 10 [0; 0] Hs5); done|]. intros [] s6 Hs6.
  change (reply_state s6 (ip_hdr_bytes (reply_hdr h src dest 0)) [ICMP_ER; code; k mod 256; k / 256]) in Hs6.
  assert (∀ chk, is_u16 chk → Forall is_u8 (ip_hdr_bytes (reply_hdr h src dest chk) ++ opts)) as Hru.
  { intros chk Hchk. apply Forall_app. split; [by apply reply_hdr_u8|done]. }
  assert (is_u16 0) as H0 by (unfold is_u16; lia).
  apply runs_bind. eapply runs_ask.
  { apply (inet_chksum_bytes _ _ _ _ (proj1 (reply_read _ _ _ Hs6 ltac:(done) ltac:(done)))); [by apply Hru|].
    rewrite zlen_app. change (zlen (ip_hdr_bytes _)) with 20. lia. }
  set (x := word_sum _). pose proof (ones_range x). set (chk := 65535 - ones x).
  assert (is_u16 chk) as Hchk by (unfold chk; bounds; lia). rewrite (u16_small chk) by done.
  eapply runs_mono; [apply (reply_write_ip _ _ _ 10 [chk mod 256; chk / 256] Hs6); done|]. intros [] s7 Hs7.
  change (reply_state s7 (ip_hdr_bytes (reply_hdr h src dest chk)) [ICMP_ER; code; k mod 256; k / 256]) in Hs7.
  exists chk. split_and!; [done|done|].
  rewrite (inet_chksum_bytes _ _ _ _ (proj1 (reply_read _ _ _ Hs7 ltac:(done) ltac:(done)))).
  - f_equal. rewrite reply_hdr_sum. fold x. enough (ones (x + chk) = 65535) by lia.
    pose proof (word_sum_range _ (Hru 0 H0)) as Hw. fold x in Hw. destruct (ones_spec x) as [Hz Hm]; [lia|].
    symmetry. apply ones_unique; [lia|unfold chk; lia|unfold chk; lia|]. unfold chk. Z.div_mod_to_equations. lia.
  - by apply Hru.
  - rewrite zlen_app. change (zlen (ip_hdr_bytes _)) with 20. lia.
Qed.
End reply.

(** Adding a header and taking it off again. *)
Lemma icmp_echo_room_runs s p c cs iphdr_in hlen :
  packet s p (c :: cs) → 0 < hlen → headroom s (hlen + PBUF_LINK_HLEN) c → total (c :: cs) + hlen + PBUF_LINK_HLEN < 2 ^ 16 →
  runs (icmp_echo_room p iphdr_in hlen) s (λ r s', r = p ∧ s' = s).
Proof.
  intros Hpk Hl Hroom Hz. unfold PBUF_LINK_HLEN in *. unfold icmp_echo_room, PBUF_LINK_HLEN.
  pose proof (pbuf_header_undo s p c cs (hlen + 14) Hpk (headroom_own s (hlen + 14) c ltac:(lia) Hroom) ltac:(lia)) as Hundo.
  pose proof (pbuf_add_header_spec s p c cs (hlen + 14) Hpk Hroom ltac:(lia) ltac:(lia)) as Hadd.
  apply runs_bind. apply runs_inv in Hundo as (r & s1 & E1 & H1). eapply runs_eq; [exact E1|].
  unfold runs in Hadd. rewrite E1 in Hadd. destruct Hadd as (-> & _). destruct H1 as [[? _]|[_ H1]]; [done|].
  cbn [Z.eqb negb]. apply runs_bind. eapply runs_mono; [exact H1|]. intros r s2 [-> ->].
  apply runs_bind, runs_assert; [done|]. by apply runs_ret.
Qed.

Section echo.
Context {W : Type} `{!Part ipstate W} `{!netif_driver W}.

(** The packet [bs] behind its IP header answers an echo request of [rest]. *)
Definition echo_reply iw (w : W) p c cs h opts code rest (w' : W) : Prop :=
  let d := ip_data iw in
  ∃ s' c' chk k, w' = part_set (iw <| ip_store := s' |>) w ∧ packet s' p (c' :: cs) ∧ c_loc c' = c_loc c ∧
    let icmp := [ICMP_ER; code; k mod 256; k / 256] ++ rest ++ bytes cs in
    bytes (c' :: cs) = ip_hdr_bytes (reply_hdr h (current_iphdr_dest d) (current_iphdr_src d) chk) ++ opts ++ icmp ∧
    inet_chksum s' (pb_payload (c_pbuf c')) (20 + zlen opts) = Val 0 ∧ ones (word_sum icmp) = 65535 ∧
    outside [c_loc c] (ip_store iw) s'.

Lemma icmp_answer_calls iw (w : W) p c cs h opts code k1 k2 rest src :
  let s := ip_store iw in
  let d := ip_data iw in
  let hl := 20 + zlen opts in
  let k := icmp_adjust (k1 + 256 * k2) in
  packet s p (c :: cs) → Forall own_data cs → headroom s hl c → pb_ref (c_pbuf c) = 1 → total (c :: cs) + hl < 2 ^ 16 →
  c_data c = [ICMP_ECHO; code; k1; k2] ++ rest → hl ≤ 60 →
  mem_read s ((λ a, ptr_add a (- hl)) <$> pb_payload (c_pbuf c)) 0 hl = Val (ip_hdr_bytes h ++ opts) →
  ip_hdr_u8 h → Forall is_u8 opts → src = current_iphdr_dest d → is_u32 src → is_u32 (current_iphdr_src d) →
  is_u16 k → ones (word_sum ([ICMP_ER; code; k mod 256; k / 256] ++ rest ++ bytes cs)) = 65535 →
  calls (let! iecho := lift (lift (payload_of p)) in
         let! e := lift (lift (pbuf_add_header p hl)) in
         if negb (e =? 0) then ret tt else
         let! iphdr := lift (lift (payload_of p)) in
         do! lift (lift (icmp_make_reply p iecho iphdr src (current_iphdr_src d) hl));
         let! _ := ip4_output_if p (Some src) None ICMP_TTL 0 IP_PROTO_ICMP in ret tt)
    (part_set iw w) (let! _ := netif_output p (current_iphdr_src d) in ret tt)
    (echo_reply iw w p c cs h opts code rest).
Proof.
  intros s d hl k Hpk Hown Hroom Href Hz Hd Hl60 Hih Hu Hou Esrc Hsrc Hdst Hk Hok. pose proof (zlen_nonneg opts).
  pose proof Hroom as [(o & b & Ho & _) _].
  apply calls_bind. eapply runs_field; [done|]. apply calls_bind, runs_st.
  eapply runs_mono; [apply (pbuf_add_header_spec _ _ _ _ hl Hpk Hroom); lia|].
  intros r s1 (-> & junk & Hj & Hs1 & Hpk1). cbn [Z.eqb negb].
  set (c1 := retreat hl junk c) in *.
  assert (pb_payload (c_pbuf c) = (λ a, ptr_add a hl) <$> pb_payload (c_pbuf c1)) as Hpay.
  { unfold c1. simpl. rewrite Ho. simpl. f_equal. symmetry. apply ptr_add_undo. }
  assert (junk = ip_hdr_bytes h ++ opts) as Hjunk.
  { pose proof (packet_payload _ _ _ _ Hpk1) as Hrd.
    assert (mem_read s1 (pb_payload (c_pbuf c1)) 0 hl = Val junk) as Hjr.
    { rewrite (mem_read_sub _ _ _ _ _ _ Hrd) by (unfold c1; simpl; rewrite ?zlen_app; pose proof (zlen_nonneg (c_data c)); lia).
      unfold c1, zslice. simpl. by rewrite zdrop_0, ztake_app_le, ztake_ge by lia. }
    rewrite (mem_read_ext s s1) in Hjr by (by rewrite Hs1). pose proof (eq_trans (eq_sym Hih) Hjr) as E.
    by injection E. }
  assert (reply_state s1 p c1 cs hl opts rest s1 (ip_hdr_bytes h) [ICMP_ECHO; code; k1; k2]) as Hs.
  { split; try done.
    - unfold c1, retreat in Hpk1 |- *. simpl in Hpk1 |- *. rewrite Hd, Hjunk, app_assoc in Hpk1. exact Hpk1.
    - rewrite zlen_app, <- Hjunk, Hj. done.
    - constructor; [|done]. apply (retreat_own s); [lia|done]. }
  apply calls_bind. eapply runs_field; [exact Hpk1|]. rewrite Hpay.
  apply calls_bind, runs_st. eapply runs_mono.
  { apply (icmp_make_reply_spec s1 p c1 cs hl opts rest eq_refl s1 h code k1 k2 src (current_iphdr_src d) Hs); done. }
  intros [] s2 (chk & Hchk & [Hpk2 _ Hown2 Hpb2 Hrest2 Hmsg2 Hblk2 _] & Hcs). cbn [ip_store] in *.
  fold k in Hpk2. set (c2 := mk_cell _ _ _) in Hpk2. set (iw2 := setter ip_store (λ _, s2) _).
  pose proof (packet_seg _ _ _ Hpk2) as (Hp & Hlk & _). destruct (packet_head_len _ _ _ _ Hpk2) as (Hlen2 & _).
  assert (20 ≤ zlen (c_data c2)) as H20.
  { unfold c2. cbn [c_data]. rewrite !zlen_app. change (zlen (ip_hdr_bytes _)) with 20. rewrite !zlen_cons.
    pose proof (zlen_nonneg rest). pose proof (zlen_nonneg (@nil Z)). lia. }
  apply calls_seq. unfold ip4_output_if. apply calls_bind, runs_part, runs_gets. unfold ip4_output_if_src.
  apply calls_bind. unfold LWIP_IP_CHECK_PBUF_REF_COUNT_FOR_TX.
  apply runs_bind. eapply runs_read; [by rewrite Hp|].
  apply runs_bind. eapply runs_read; [change (ip_store iw2) with s2; unfold get_pbuf; by rewrite Hlk|].
  apply runs_assert; [unfold c2, c1; simpl; by rewrite Href|].
  apply calls_bind. eapply runs_field; [exact Hpk2|]. rewrite Hlen2, (proj2 (Z.ltb_ge _ _)) by (unfold IP_HLEN; lia).
  apply calls_bind. eapply runs_field; [exact Hpk2|].
  assert (hdr_at s2 (pb_payload (c_pbuf c2)) (reply_hdr h src (current_iphdr_src d) chk)) as Hat.
  { eapply packet_hdr; [exact Hpk2|]. unfold c2. cbn [c_data]. by rewrite <- !app_assoc. }
  apply calls_bind. eapply runs_read; [apply Hat|]. apply calls_here.
  exists s2, c2, chk, k. cbv zeta. split_and!; try done.
  - rewrite bytes_cons. unfold c2. cbn [c_data]. rewrite <- !app_assoc. by rewrite Esrc.
  - split.
    + intros b' Hn. rewrite Hpb2, Hs1. simpl. rewrite lookup_insert_ne; [done|]. intros <-. apply Hn. by left.
    + intros b' Hn. rewrite Hblk2, Hs1; [done|]. intros ->. apply Hn. by left.
    + destruct Hrest2 as (? & ? & ? & ?). subst s1. by split_and!.
    + rewrite Hmsg2. by rewrite Hs1.
Qed.
End echo.


Lemma headroom_le s m n c : m ≤ n → headroom s n c → headroom s m c.
Proof. intros Hm [(o & b & ? & ? & ? & ?) ?]. split; [|done]. exists o, b. split_and!; done || lia. Qed.

(** The sum of the message, without the words of the type and the checksum. *)
Lemma echo_sum t code k1 k2 l :
  word_sum ([t; code; k1; k2] ++ l) = t + 256 * code + (k1 + 256 * k2) + word_sum l.
Proof. cbn [app word_sum]. lia. Qed.

Section ping.
Context {W : Type} `{!Part ipstate W} `{!netif_driver W}.

Lemma icmp_echo_calls iw (w : W) p c cs h opts code k1 k2 rest :
  let s := ip_store iw in
  let d := ip_data iw in
  let hl := 20 + zlen opts in
  packet s p (c :: cs) → Forall own_data cs → headroom s (hl + PBUF_LINK_HLEN) c → pb_ref (c_pbuf c) = 1 →
  total (c :: cs) + hl + PBUF_LINK_HLEN < 2 ^ 16 → SIZEOF_ICMP_ECHO_HDR ≤ total (c :: cs) →
  c_data c = [ICMP_ECHO; code; k1; k2] ++ rest → Forall is_u8 (bytes (c :: cs)) →
  ones (word_sum (bytes (c :: cs))) = 65535 →
  current_ip4_header d = (λ a, ptr_add a (- hl)) <$> pb_payload (c_pbuf c) →
  mem_read s (current_ip4_header d) 0 hl = Val (ip_hdr_bytes h ++ opts) → hdr_len h = hl → Forall is_u8 (ip_hdr_bytes h ++ opts) →
  ip4_addr_ismulticast (current_iphdr_dest d) = false → current_isbroadcast iw = Val false →
  is_u32 (current_iphdr_dest d) → is_u32 (current_iphdr_src d) →
  calls (icmp_input p) (part_set iw w)
    (do! (let! _ := netif_output p (current_iphdr_src d) in ret tt); icmp_drop p)
    (echo_reply iw w p c cs h opts code rest).
Proof.
  intros s d hl Hpk Hown Hroom Href Hz H8 Hd Hu8 Hsum Hih Hrd Hhl Hu Hmc Hbc Hdst Hsrc. subst s.
  apply Forall_app in Hu as [Hu Hou]. pose proof (zlen_nonneg opts) as Hopt. unfold PBUF_LINK_HLEN in *.
  assert (is_u8 (h_v_hl h)) as Hv by (unfold ip_hdr_bytes in Hu; by inversion Hu).
  pose proof (hdr_len_range h Hv). destruct (packet_head_len _ _ _ _ Hpk) as (Hlen & Htot & ? & ? & ?).
  pose proof (total_cons c cs) as Htc. pose proof (zlen_nonneg rest).
  assert (zlen (c_data c) = 4 + zlen rest) as Hdl by (rewrite Hd, zlen_app; done).
  pose proof (packet_payload _ _ _ _ Hpk) as Hpay. pose proof Hu8 as Hu8'.
  rewrite bytes_cons, Hd, <- app_assoc in Hsum, Hu8.
  apply Forall_app in Hu8 as [Hu4 Hurest].
  repeat match goal with H : Forall _ (_ :: _) |- _ => apply Forall_cons in H as [? H] end.
  rewrite echo_sum in Hsum. pose proof (word_sum_range _ Hurest) as Hw.
  destruct (icmp_adjust_spec (k1 + 256 * k2) code (word_sum (rest ++ bytes cs))) as [Hk Hok];
    [bounds; lia|done|lia|unfold ICMP_ECHO in Hsum; rewrite <- Hsum; f_equal; lia|].
  set (k := icmp_adjust (k1 + 256 * k2)) in *.
  unfold icmp_input. apply calls_bind, runs_part, runs_gets. fold d.
  apply calls_bind. eapply runs_read.
  { apply (rd8_at _ _ _ _ Hrd) with (a := h_v_hl h); [rewrite zlen_app; done|lia|lia|done]. }
  fold (hdr_len h). rewrite Hhl, u8_small by (bounds; lia). rewrite (proj2 (Z.ltb_ge _ _)) by (unfold IP_HLEN; lia).
  apply calls_bind. eapply runs_field; [done|]. rewrite Hlen, Hdl, (proj2 (Z.ltb_ge _ _)) by lia.
  apply calls_bind. eapply runs_field; [done|]. apply calls_bind. eapply runs_read.
  { apply (rd8_at _ _ _ _ Hpay) with (a := ICMP_ECHO); [done|lia|lia|by rewrite Hd]. }
  cbn [Z.eqb ICMP_ECHO]. unfold icmp_echo. apply calls_bind, runs_part, runs_gets. fold d. rewrite Hmc.
  apply calls_bind, runs_part. eapply runs_ask; [exact Hbc|].
  apply calls_bind. eapply runs_field; [done|]. rewrite Htot, <- Htc, (proj2 (Z.ltb_ge _ _)) by lia.
  apply calls_bind. eapply runs_read.
  { rewrite (inet_chksum_pbuf_eq _ _ _ Hpk), bytes_cons, Hd, <- app_assoc, echo_sum, Hsum; done. }
  cbn [Z.sub Z.eqb negb]. apply calls_bind, runs_st. eapply runs_mono.
  { apply (icmp_echo_room_runs _ p c cs); [done|lia|done|unfold PBUF_LINK_HLEN; lia]. }
  intros r s' [-> ->]. pose proof (packet_seg _ _ _ Hpk) as (Hp & _).
  assert (part_set (iw <| ip_store := ip_store iw |>) w = part_set iw w) as -> by by destruct iw.
  assert (headroom (ip_store iw) hl c) as Hroom' by (by eapply headroom_le; [|exact Hroom]; lia).
  pose proof (icmp_answer_calls iw w p c cs h opts code k1 k2 rest (current_iphdr_dest d)) as Hans.
  cbv zeta in Hans. fold d hl k in Hans. rewrite Hih in Hrd.
  specialize (Hans Hpk Hown Hroom' Href ltac:(lia) Hd ltac:(lia) Hrd Hu Hou eq_refl Hdst Hsrc Hk).
  specialize (Hans ltac:(rewrite echo_sum, <- Hok; f_equal; unfold ICMP_ER; pose proof (Z.div_mod k 256 ltac:(lia)); lia)).
  subst p. destruct (calls_seq _ _ (λ _, icmp_drop (Some (c_loc c))) _ _ Hans) as (w' & Hrun & Hpost).
  exists w'. split; [|exact Hpost]. rewrite <- Hrun. cbn [deref]. unfold mbnd.
  destruct (lift (lift (payload_of _)) _) as [[iecho w1]|]; [|done].
  destruct (lift (lift (pbuf_add_header _ _)) w1) as [[e w2]|]; done.
Qed.

(** C19: an echo request is answered with its own data.  When [icmp_input] gets an
    echo request to a unicast address whose checksum is right, in a packet that
    still holds its IP header (options included) before the payload and room for
    a link header before that, it comes down to one call of the driver followed
    by freeing the packet.  The packet handed over goes to the sender: its
    header is the request's with the addresses exchanged, TTL 255 and a checksum
    that makes [inet_chksum] return 0; its ICMP message has type 0, the
    request's code and data, and a checksum that verifies, though the code only
    adjusts the old one.  Nothing outside the first pbuf changes. *)
Theorem icmp_echo_reply iw (w : W) p c cs h opts code k1 k2 rest :
  let s := ip_store iw in
  let d := ip_data iw in
  let hl := 20 + zlen opts in
  packet s p (c :: cs) → Forall own_data cs → headroom s (hl + PBUF_LINK_HLEN) c → pb_ref (c_pbuf c) = 1 →
  total (c :: cs) + hl + PBUF_LINK_HLEN < 2 ^ 16 → SIZEOF_ICMP_ECHO_HDR ≤ total (c :: cs) →
  c_data c = [ICMP_ECHO; code; k1; k2] ++ rest → Forall is_u8 (bytes (c :: cs)) →
  ones (word_sum (bytes (c :: cs))) = 65535 →
  current_ip4_header d = (λ a, ptr_add a (- hl)) <$> pb_payload (c_pbuf c) →
  mem_read s (current_ip4_header d) 0 hl = Val (ip_hdr_bytes h ++ opts) → hdr_len h = hl → Forall is_u8 (ip_hdr_bytes h ++ opts) →
  ip4_addr_ismulticast (current_iphdr_dest d) = false → current_isbroadcast iw = Val false →
  is_u32 (current_iphdr_dest d) → is_u32 (current_iphdr_src d) →
  calls (icmp_input p) (part_set iw w)
    (do! (let! _ := netif_output p (current_iphdr_src d) in ret tt); icmp_drop p)
    (echo_reply iw w p c cs h opts code rest).
Proof. apply icmp_echo_calls. Qed.
End ping.

(** ** A run *)

#[local] Existing Instance part_self.
#[local] Instance ex_driver : netif_driver ipstate := { netif_output _ _ := ret ERR_OK }.

(** A ping of 10 bytes, from 10.1.0.2 to 10.1.0.1, as [ip4_input] passes it on. *)
Definition ex_ping_hdr : ip_hdr := mk_ip_hdr 69 0 30 7 0 64 1 102 212 33554698 16777482.
Definition ex_ping_cell : cell :=
  mk_cell 1 (mk_pbuf None (Some (mk_ptr 1 58)) 10 10 128 0 1 0) [8; 0; 238; 251; 0; 1; 0; 1; 9; 2].
Definition ex_ping : ipstate :=
  mk_ipstate (mk_store {[1%positive := c_pbuf ex_ping_cell]}
      {[1%positive := replicate 38 0 ++ ip_hdr_bytes ex_ping_hdr ++ c_data ex_ping_cell]} 2 [] ∅ sys_mbox_new false)
    ex_netif true (mk_ip_globals true true (Some (mk_ptr 1 38)) 20 33554698 16777482) 0.

Lemma icmp_echo_reply_witness : ∃ w', icmp_input (W := ipstate) (Some 1%positive) ex_ping = Val (tt, w').
Proof.
  destruct (icmp_echo_reply ex_ping ex_ping (Some 1%positive) ex_ping_cell [] ex_ping_hdr [] 0 238 251 [0; 1; 0; 1; 9; 2])
    as (w' & Hrun & s' & c' & chk & k & -> & Hpk & Hloc & _).
  - split; [done|done|done|]. by repeat constructor.
  - constructor.
  - split; [|done]. eexists 58, _. by split_and!.
  - done.
  - done.
  - done.
  - done.
  - repeat (apply Forall_cons_2; [by vm_compute|]). apply Forall_nil_2.
  - by vm_compute.
  - done.
  - done.
  - done.
  - repeat (apply Forall_cons_2; [by vm_compute|]). apply Forall_nil_2.
  - done.
  - by vm_compute.
  - by vm_compute.
  - by vm_compute.
  - eexists. vm_compute. reflexivity.
Defined.
