(* ===== verification/UdpConn.v ===== *)
(** * Datagrams for the application ([native/udp.c])

    A [udp_conn_t] is a UDP block bound to every port and a pair of packet
    queues.  Each packet in the queues starts with a [struct udp_metadata_t],
    the two addresses and ports.  As in [Link], a function is translated as the
    sequence of its sections under a mutex and the code between them. *)

From S2P Require Import Prelude Mbox Heap Pbuf PbufData Queues Def Chksum Addr Header Ip4 Udp.

(** [struct udp_metadata_t]; the ports are in the machine's byte order. *)
Record udp_metadata_t := mk_udp_metadata { src_addr : Z; dst_addr : Z; src_port : Z; dst_port : Z }.
Definition SIZEOF_UDP_METADATA_T : Z := 12.

Definition metadata_bytes (m : udp_metadata_t) : list Z :=
  addr_bytes (src_addr m) ++ addr_bytes (dst_addr m) ++
  [src_port m mod 256; src_port m / 256; dst_port m mod 256; dst_port m / 256].

(** [struct udp_conn_t], without the mutexes and the condition variable. *)
Record udp_conn_t := mk_udp_conn {
  conn_pcb : option loc;
  conn_rx : pbuf_queue_t;
  conn_tx : pbuf_queue_t;
  conn_tx_polling : bool
}.
#[export] Instance eta_udp_conn : Eta udp_conn_t := λ r,
  mk_udp_conn (conn_pcb r) (conn_rx r) (conn_tx r) (conn_tx_polling r).
Definition SIZEOF_UDP_CONN_T : Z := 4272.

(** UDP and the live connections. *)
Record cstate := mk_cstate { c_udp : ustate; c_conns : gmap loc udp_conn_t }.
#[export] Instance eta_cstate : Eta cstate := λ r, mk_cstate (c_udp r) (c_conns r).
#[export] Program Instance part_cstate : Part ustate cstate := {
  part_get := c_udp; part_set u w := w <| c_udp := u |>
}.
Next Obligation. done. Qed.
Next Obligation. by intros []. Qed.
Next Obligation. done. Qed.

Definition get_conn (w : cstate) (conn : loc) : res udp_conn_t := deref (c_conns w !! conn).
Definition set_conn (conn : loc) (c : udp_conn_t) : M cstate unit :=
  modify (λ w, w <| c_conns := <[conn := c]> (c_conns w) |>).

Abbreviation ud m := (lift (P := ustate) (S := cstate) m).
Abbreviation st m := (lift (P := ustate) (S := cstate) (lift (P := ipstate) (lift (P := store) m))).

(** ** From the stack *)

(** The packet for the application: the metadata in a pbuf of its own before [p];
    [None] when there is no memory for that. *)
Definition udp_prepend_metadata (header : udp_metadata_t) (p : option loc) : M store (option loc) :=
  let! buffer := pbuf_alloc PBUF_RAW SIZEOF_UDP_METADATA_T PBUF_RAM in
  match buffer with
  | None => ret None
  | Some _ =>
    let! _ := pbuf_take buffer (Some (metadata_bytes header)) SIZEOF_UDP_METADATA_T in
    do! pbuf_cat buffer p;
    ret buffer
  end.

(** The section under [rx_lock]. *)
Definition udp_on_received_section (conn : loc) (buffer : option loc) : M cstate unit :=
  let! c := ask (λ w, get_conn w conn) in
  let! '(n, rx) := st (pbuf_queue_append (conn_rx c) [buffer] 1) in
  set_conn conn (c <| conn_rx := rx |>).

Definition udp_on_received (arg pcb p : option loc) (src_addr src_port : Z) : M cstate unit :=
  let! u := ud (gets id) in
  let header := mk_udp_metadata src_addr (current_iphdr_dest (ip_data (u_ip u))) src_port (udp_data_dst u) in
  let! buffer := st (udp_prepend_metadata header p) in
  match buffer with
  | None => ret tt
  | Some _ => let! conn := ask (λ _, deref arg) in udp_on_received_section conn buffer
  end.

(** ** To the stack *)

(** The section under [tx_lock]. *)
Definition udp_poll_tx_section (conn : loc) : M cstate (list (option loc)) :=
  let! c := ask (λ w, get_conn w conn) in
  let! '(out, tx) := ask (λ _, pbuf_queue_pop (conn_tx c) 32) in
  do! set_conn conn (c <| conn_tx_polling := false |> <| conn_tx := tx |>);
  ret out.

(** [buf->payload] as a [struct udp_metadata_t]. *)
Definition read_metadata (buf : option loc) : M store udp_metadata_t :=
  let! payload := payload_of buf in
  let! d := ask (λ s, mem_read s payload 0 SIZEOF_UDP_METADATA_T) in
  match d with
  | [a0; a1; a2; a3; b0; b1; b2; b3; p0; p1; q0; q1] =>
    ret (mk_udp_metadata (word a0 a1 a2 a3) (word b0 b1 b2 b3) (p0 + 256 * p1) (q0 + 256 * q1))
  | _ => fail Undefined
  end.

Section poll.
Context {W : Type} `{!Part cstate W} `{!netif_driver W}.
#[local] Instance ustate_part : Part ustate W := part_trans ustate cstate W.
Abbreviation wst m := (lift (P := ustate) (S := W) (lift (P := ipstate) (lift (P := store) m))).

(** One packet; [global_interface_get()] is never null. *)
Definition udp_poll_one (conn : loc) (buf : option loc) : M W unit :=
  let! m := wst (read_metadata buf) in
  let! r := wst (pbuf_remove_header buf SIZEOF_UDP_METADATA_T) in
  if negb (r =? 0) then let! _ := wst (pbuf_free buf) in ret tt else
  let! c := lift (P := cstate) (ask (λ w, get_conn w conn)) in
  do! (if bool_decide (conn_pcb c ≠ None) then
         let! _ := udp_sendto_if_src_port (conn_pcb c) buf (Some (dst_addr m)) (dst_port m) true
                     (Some (src_addr m)) (src_port m) in
         ret tt
       else ret tt);
  let! _ := wst (pbuf_free buf) in ret tt.

Fixpoint udp_poll_all (conn : loc) (bufs : list (option loc)) : M W unit :=
  match bufs with
  | [] => ret tt
  | buf :: bufs => do! udp_poll_one conn buf; udp_poll_all conn bufs
  end.

Definition udp_poll_tx (conn : loc) : M W unit :=
  let! array := lift (udp_poll_tx_section conn) in udp_poll_all conn array.
End poll.

(** ** The application's calls *)

Definition udp_conn_listen : M cstate (option loc) :=
  let! pcb := ud udp_new in
  let! e := ud (udp_bind pcb (Some IPADDR_ANY) UDP_ACCEPT_ANY_PORT) in
  if negb (is_ok e) then do! ud (udp_remove pcb); ret None else
  let! conn := st (malloc SIZEOF_UDP_CONN_T) in
  match conn with
  | None => fail Undefined   (* memset on the null pointer *)
  | Some l =>
    do! ud (udp_bind_netif pcb true);
    do! ud (udp_recv pcb (Some Recv_udp_on_received) conn);
    do! set_conn l (mk_udp_conn pcb zeroed_queue zeroed_queue false);
    ret conn
  end.

(** The readers asleep on [rx_cond] are those of [Waiters]. *)
Definition udp_conn_close (conn : loc) : M cstate unit :=
  let! c := ask (λ w, get_conn w conn) in
  do! (if bool_decide (conn_pcb c ≠ None) then ud (udp_remove (conn_pcb c)) else ret tt);
  set_conn conn (c <| conn_pcb := None |>).

Definition udp_conn_free (conn : loc) : M cstate unit :=
  do! udp_conn_close conn;
  do! st (free conn);
  modify (λ w, w <| c_conns := delete conn (c_conns w) |>).

(** The section under [rx_lock]. *)
Definition udp_conn_recv_section (conn : loc) : M cstate waited :=
  let! c := ask (λ w, get_conn w conn) in
  let! '(x, rx) := ask (λ _, recv_wait (conn_rx c) (bool_decide (conn_pcb c = None))) in
  do! set_conn conn (c <| conn_rx := rx |>);
  ret x.

(** The rest of [udp_conn_recv]: the result, the metadata and the buffer.  The
    comparison is between unsigned numbers of 64 bits. *)
Definition udp_conn_recv_finish (buf : option loc) (metadata buffer : list Z) (size : Z)
    : M store (Z * list Z * list Z) :=
  match buf with
  | None => ret (-1, metadata, buffer)
  | Some _ =>
    let! tot_len := tot_len_of buf in
    if u64 size <? u64 (tot_len - SIZEOF_UDP_METADATA_T) then
      let! _ := pbuf_free buf in ret (-1, metadata, buffer)
    else
      let data_length := u32 (tot_len - SIZEOF_UDP_METADATA_T) in
      let! '(n, metadata) := ask (λ s, pbuf_copy_partial s buf (Some metadata) SIZEOF_UDP_METADATA_T 0) in
      let! '(n, buffer) := ask (λ s, pbuf_copy_partial s buf (Some buffer) (u16 data_length) SIZEOF_UDP_METADATA_T) in
      let! _ := pbuf_free buf in
      ret (s32 data_length, metadata, buffer)
  end.

(** [None]: the caller waits for a packet. *)
Definition udp_conn_recv (conn : loc) (metadata buffer : list Z) (size : Z) : M cstate (option (Z * list Z * list Z)) :=
  let! x := udp_conn_recv_section conn in
  match x with
  | Blocks => ret None
  | Closed => ret (Some (-1, metadata, buffer))
  | Took buf => let! r := st (udp_conn_recv_finish buf metadata buffer size) in ret (Some r)
  end.

(** The packet for the stack; [None] when there is no memory for it.  [size], an
    [int], becomes a [u16_t] argument. *)
Definition udp_conn_pack (metadata buffer : list Z) (size : Z) : M store (option loc) :=
  let! buf := pbuf_alloc PBUF_TRANSPORT (u16 size) PBUF_RAM in
  match buf with
  | None => ret None
  | Some _ =>
    let! _ := pbuf_take buf (Some buffer) (u16 size) in
    let! r := pbuf_add_header buf SIZEOF_UDP_METADATA_T in
    if negb (r =? 0) then let! _ := pbuf_free buf in ret None else
    let! _ := pbuf_take buf (Some metadata) SIZEOF_UDP_METADATA_T in
    ret buf
  end.

(** The section under [tx_lock]. *)
Definition udp_conn_sendto_section (conn : loc) (buf : option loc) (size : Z) : M cstate Z :=
  let! c := ask (λ w, get_conn w conn) in
  let! '(n, tx) := st (pbuf_queue_append (conn_tx c) [buf] 1) in
  do! set_conn conn (c <| conn_tx := tx |>);
  do! (if conn_tx_polling c then ret tt
       else
         let! e := st (tcpip_try_callback Cb_udp_poll_tx (Some conn)) in
         if is_ok e
         then let! c := ask (λ w, get_conn w conn) in set_conn conn (c <| conn_tx_polling := true |>)
         else ret tt);
  ret size.

Definition udp_conn_sendto (conn : loc) (metadata buffer : list Z) (size : Z) : M cstate Z :=
  let! c := ask (λ w, get_conn w conn) in
  if bool_decide (conn_pcb c = None) then ret (-1) else
  let! buf := st (udp_conn_pack metadata buffer size) in
  match buf with
  | None => ret (-1)
  | Some _ => udp_conn_sendto_section conn buf size
  end.
