(* ===== verification/UdpConnFacts.v ===== *)
(** * What the application's UDP connections guarantee

    A datagram handed to [udp_on_received] is what a later [udp_conn_recv]
    delivers, with its addresses and ports; a datagram given to
    [udp_conn_sendto] reaches [udp_sendto_if_src_port] unchanged. *)

From S2P Require Import Prelude Mbox Heap HeapFacts Pbuf PbufData Packet PbufFacts PbufAlloc PbufChain PbufDataFacts.
From S2P Require Import Queues LinkFacts Def Chksum Addr Header Frame Ip4 Ip4Facts Ip4InFacts Udp UdpBind UdpInput UdpOutput UdpConn.

Implicit Types s : store.

(** A packet with its data in its own blocks, that can be freed. *)
Record good s (p : option loc) (cs : list cell) : Prop := {
  gd_packet : packet s p cs;
  gd_own : Forall own_data cs;
  gd_freeable : Forall (freeable s) cs;
  gd_some : cs ≠ []
}.

(** [s'] has what [s] has at the addresses [ls]. *)
Definition agree (ls : list loc) s s' : Prop :=
  ∀ l, l ∈ ls → pbufs s' !! l = pbufs s !! l ∧ blocks s' !! l = blocks s !! l.

Lemma packet_agree s s' p cs : packet s p cs → Forall own_data cs → agree (locs cs) s s' → packet s' p cs.
Proof.
  intros [Hs ? ? ?] Hown Ha. split; try done. eapply lseg_frame; [exact Hs|by intros l ?; apply Ha|].
  intros b Hb. rewrite own_data_blocks in Hb by done. by apply Ha.
Qed.

Lemma good_agree s s' p cs : good s p cs → agree (locs cs) s s' → good s' p cs.
Proof.
  intros [Hp Ho Hf Hn] Ha. split; [by eapply packet_agree|done| |done].
  apply Forall_forall. intros c Hc. rewrite Forall_forall in Hf. destruct (Hf c Hc) as [? Hb]. split; [done|].
  destruct (Ha (c_loc c)) as [_ ->]; [|done]. apply list_elem_of_fmap. by exists c.
Qed.

Lemma good_locs_used s p cs l : heap_ok s → good s p cs → l ∈ locs cs → (l < next_loc s)%positive.
Proof.
  intros Hok [Hp _ _ _] (c & -> & Hc)%list_elem_of_fmap. eapply heap_ok_used; [done|]. left.
  rewrite (lseg_in _ _ _ _ _ (packet_seg _ _ _ Hp) Hc). by eexists.
Qed.

Lemma good_at s p cs : good s p cs → p ≠ None.
Proof. intros [Hp _ _ Hn]. by destruct (packet_some _ _ _ Hp Hn) as [l ->]. Qed.

Definition metadata_ok (m : udp_metadata_t) : Prop :=
  is_u32 (src_addr m) ∧ is_u32 (dst_addr m) ∧ is_u16 (src_port m) ∧ is_u16 (dst_port m).

Lemma zlen_metadata m : zlen (metadata_bytes m) = 12.
Proof. done. Qed.

(** ** Packets built in fresh memory *)

(** The packet for the application. *)
Record prepended s s' (m : udp_metadata_t) (cs : list cell) (r : option loc) (cs' : list cell) : Prop := {
  pp_good : good s' r cs';
  pp_bytes : bytes cs' = metadata_bytes m ++ bytes cs;
  pp_locs : locs cs' = next_loc s :: locs cs;
  pp_heap : heap_ok s';
  pp_next : (next_loc s ≤ next_loc s')%positive;
  pp_mbox : tcpip_mbox s' = tcpip_mbox s;
  pp_msgs : tcpip_msgs s' = tcpip_msgs s;
  pp_rest l : l ∉ locs cs' → pbufs s' !! l = pbufs s !! l ∧ blocks s' !! l = blocks s !! l
}.

Lemma udp_prepend_spec s m p cs :
  heap_ok s → good s p cs → total cs + 12 < 2 ^ 16 →
  runs (udp_prepend_metadata m p) s (λ r s',
    match r with
    | None => no_leak s s' ∧ memory_left s = false
    | Some _ => memory_left s = true ∧ ∃ cs', prepended s s' m cs r cs'
    end).
Proof.
  intros Hok Hgd Hz. pose proof (λ l, good_locs_used s p cs l Hok Hgd) as Hused. unfold udp_prepend_metadata.
  apply runs_bind. eapply runs_mono; [by apply (alloc_ram_one s PBUF_RAW SIZEOF_UDP_METADATA_T)|].
  change (ram_fits PBUF_RAW SIZEOF_UDP_METADATA_T) with true. rewrite andb_true_r.
  intros [l|] s1 Hr; [|apply runs_ret; by destruct Hr as (? & _ & ?)]. destruct Hr as (d & [Hleft _] & -> & Hblk & Hd & Hf).
  change (24 + LWIP_MEM_ALIGN_SIZE (u16 (layer_offset PBUF_RAW))) with 24 in *. unfold SIZEOF_UDP_METADATA_T in *.
  set (c0 := new_cell (next_loc s) d 24 12 12 PBUF_RAM) in *.
  assert (total [c0] = 12) as Ht0 by (rewrite total_cons, total_nil; simpl; rewrite zlen_zslice; lia).
  apply runs_bind. eapply runs_mono; [apply (built_fill s s1 _ [c0] 12 (metadata_bytes m)); [apply built_fresh; [exact Hf|rewrite Ht0; done]|done|rewrite Ht0; lia|done]|].
  intros e s2 (cs2 & Hbu & Hb & Hl & Hp). rewrite zdrop_ge, app_nil_r in Hb by (fold (total [c0]); lia).
  change (ztake 12 (metadata_bytes m)) with (metadata_bytes m) in Hb.
  assert (∀ x, x ∈ locs cs → x ≠ next_loc s) as Hne by (intros x Hx ->; apply Hused in Hx; lia).
  assert (good s2 p cs) as Hgd2.
  { eapply good_agree; [exact Hgd|]. intros x Hx. apply Hne in Hx.
    assert (x ∉ locs cs2) by (rewrite Hl; by intros ?%list_elem_of_singleton).
    split; [by apply (bu_pbufs _ _ _ _ Hbu)|by apply (bu_blocks _ _ _ _ Hbu)]. }
  assert (total cs2 = 12) as Ht2 by (unfold total; by rewrite Hb).
  apply runs_bind. eapply runs_mono.
  { apply (pbuf_cat_spec_runs s2 (Some (next_loc s)) p cs2 cs (bu_packet _ _ _ _ Hbu) (gd_packet _ _ _ Hgd2)).
    - intros ->. simpl in Ht2. by rewrite total_nil in Ht2.
    - apply Hgd.
    - intros x Hx Hx'. rewrite Hl in Hx. apply list_elem_of_singleton in Hx. by apply (Hne _ Hx').
    - lia. }
  intros _ s3 (cs3 & Hpk3 & Hb3 & Hl3 & [Hs3 Hpl] & Hout). apply runs_ret. split; [done|]. exists cs3.
  destruct Hgd2 as [_ Hown Hfree Hsome]. split.
  - split; [done| | |].
    + apply (same_place_cells (λ l pl _ _, ∃ o, pl = Some (mk_ptr l o) ∧ SIZEOF_STRUCT_PBUF ≤ o) _ _ Hpl).
      apply Forall_app; split; [apply (bu_own _ _ _ _ Hbu)|done].
    + apply (same_place_cells (λ l _ ty _, Z.land ty PBUF_TYPE_ALLOC_SRC_MASK ∈ [0; 1; 2] ∧ is_Some (blocks s3 !! l)) _ _ Hpl).
      rewrite Hs3. apply Forall_app; split; [apply (bu_freeable _ _ _ _ Hbu)|done].
    + intros ->. apply (f_equal length) in Hb3. rewrite Hb in Hb3. simpl in Hb3. discriminate Hb3.
  - by rewrite Hb3, Hb.
  - by rewrite Hl3, Hl.
  - rewrite Hs3. intros x Hx. change (next_loc s2 ≤ x)%positive in Hx.
    destruct (bu_heap _ _ _ _ Hbu x Hx) as (Hxp & ? & ?).
    split_and!; [|done|done]. simpl. rewrite Hout; [done|]. rewrite Hl. intros ->%list_elem_of_singleton.
    destruct cs2 as [|c2 cs2]; [done|]. injection Hl as Hl _. change (c_loc c2 = next_loc s) in Hl.
    destruct (bu_packet _ _ _ _ Hbu) as [(_ & Hlk & _) _ _ _]. rewrite Hl in Hlk. change (c_loc c0) with (next_loc s) in Hxp. congruence.
  - rewrite Hs3. apply (bu_next _ _ _ _ Hbu).
  - rewrite Hs3. apply (bu_mbox _ _ _ _ Hbu).
  - rewrite Hs3. apply (bu_msgs _ _ _ _ Hbu).
  - intros x Hx. rewrite Hl3 in Hx. apply not_elem_of_app in Hx as [Hx _]. rewrite Hout by done. rewrite Hs3. simpl.
    split; [by apply (bu_pbufs _ _ _ _ Hbu)|by apply (bu_blocks _ _ _ _ Hbu)].
Qed.

(** ** Receiving *)

Definition store_of (w : cstate) : store := ip_store (u_ip (c_udp w)).
Definition set_cstore (w : cstate) (s : store) : cstate := w <| c_udp := set_store (c_udp w) s |>.

Lemma runs_cst {A} (m : M store A) w (Q : A → cstate → Prop) :
  runs m (store_of w) (λ a s', Q a (set_cstore w s')) →
  runs (lift (P := ustate) (lift (P := ipstate) (lift m))) w Q.
Proof. intros H. apply (runs_lift (P := ustate)), (runs_lift (P := ipstate)), (runs_lift (P := store)). exact H. Qed.

(** What [udp_on_received] does to a connection's queue: with memory for the
    metadata the packet is put at its end, without, nothing happens. *)
Definition received w conn c (q : list (option loc)) (m : udp_metadata_t) (cs : list cell) w' : Prop :=
  if memory_left (store_of w) then ∃ s' r cs' rx,
    w' = (set_cstore w s') <| c_conns := <[conn := c <| conn_rx := rx |>]> (c_conns w) |> ∧
    prepended (store_of w) s' m cs (Some r) cs' ∧ holds rx (q ++ [Some r])
  else ∃ s', w' = set_cstore w s' ∧ no_leak (store_of w) s'.

Lemma udp_on_received_runs w conn c q pcb p cs src sport :
  c_conns w !! conn = Some c → holds (conn_rx c) q → zlen q < PBUF_QUEUE_LENGTH →
  heap_ok (store_of w) → good (store_of w) p cs → total cs + 12 < 2 ^ 16 →
  runs (udp_on_received (Some conn) pcb p src sport) w (λ _ w',
    received w conn c q (mk_udp_metadata src (current_iphdr_dest (ip_data (u_ip (c_udp w)))) sport (udp_data_dst (c_udp w))) cs w').
Proof.
  intros Hc Hq Hroom Hok Hgd Hz. unfold udp_on_received. apply runs_bind, (runs_lift (P := ustate)), runs_gets.
  set (m := mk_udp_metadata _ _ _ _). assert (part_set (part_get w) w = w) as -> by by destruct w.
  apply runs_bind, runs_cst. eapply runs_mono; [by apply (udp_prepend_spec (store_of w) m p cs)|].
  unfold received. intros [r|] s' Hr; [|apply runs_ret; destruct Hr as [? ->]; by exists s']. destruct Hr as (-> & cs' & Hpp).
  apply runs_bind. eapply runs_ask; [done|]. apply runs_bind. eapply runs_ask; [unfold get_conn; simpl; by rewrite Hc|].
  cbn [deref]. apply runs_bind, runs_cst, runs_bind, runs_bind. eapply runs_eq; [by eapply append_one_room|].
  apply runs_ret, runs_ret, runs_modify. exists s', r, cs', (stored (conn_rx c) (Some r)). split_and!; [|done|by apply stored_room].
  by destruct w as [[[]]].
Qed.

(** Taking the bytes of a packet out of it. *)
Lemma udp_conn_recv_finish_spec s p cs m data metadata buffer size :
  good s p cs → bytes cs = metadata_bytes m ++ data → zlen metadata = 12 → 0 ≤ size < 2 ^ 31 → size ≤ zlen buffer →
  runs (udp_conn_recv_finish p metadata buffer size) s (λ r s',
    r = (if zlen data <=? size then (zlen data, metadata_bytes m, data ++ zdrop (zlen data) buffer) else (-1, metadata, buffer)) ∧
    same_rest s s' ∧ (heap_ok s → heap_ok s') ∧
    ∀ l, l ∉ locs cs → pbufs s' !! l = pbufs s !! l ∧ blocks s' !! l = blocks s !! l).
Proof.
  intros Hgd Hb Hmd Hsz Hbuf. pose proof (good_at _ _ _ Hgd) as Hp. destruct p as [l|]; [|done].
  destruct Hgd as [Hpk _ Hfr _]. destruct (packet_get _ _ _ Hpk) as (qb & Hqb & Ht).
  assert (total cs = 12 + zlen data) as Htot by (unfold total; by rewrite Hb, zlen_app).
  pose proof (packet_size _ _ _ Hpk) as Hz. pose proof (zlen_nonneg data). unfold SIZEOF_UDP_METADATA_T.
  unfold udp_conn_recv_finish, SIZEOF_UDP_METADATA_T.
  apply runs_bind. eapply runs_ask; [cbn [deref rbind]; rewrite Hqb; cbn [rbind]; done|].
  rewrite Ht, Htot. replace (12 + zlen data - 12) with (zlen data) by lia.
  rewrite !u64_small, u32_small by (bounds; lia). rewrite Z.ltb_antisym.
  assert (∀ (r : Z * list Z * list Z), runs (let! _ := pbuf_free (Some l) in ret r) s (λ r' s', r' = r ∧ same_rest s s' ∧
    (heap_ok s → heap_ok s') ∧ ∀ l, l ∉ locs cs → pbufs s' !! l = pbufs s !! l ∧ blocks s' !! l = blocks s !! l)) as Hfree.
  { intros r. apply runs_bind. eapply runs_mono.
    { apply (pbuf_free_frame s (Some l) cs); try done; [apply (packet_seg _ _ _ Hpk)|apply (packet_cells _ _ _ Hpk)]. }
    intros n s' (? & ? & ? & _). by apply runs_ret. }
  destruct (Z.leb_spec (zlen data) size); cbn [negb]; [|apply Hfree].
  assert (ztake 12 (zdrop 0 (bytes cs)) = metadata_bytes m) as Hm by (by rewrite Hb).
  apply runs_bind. eapply runs_ask.
  { apply (pbuf_copy_partial_spec_runs _ _ cs); rewrite ?Hm; try done. rewrite Hmd. done. }
  rewrite Hm, zlen_metadata, (zdrop_ge 12 metadata) by lia. rewrite app_nil_r.
  assert (ztake (zlen data) (zdrop 12 (bytes cs)) = data) as Hd.
  { rewrite Hb, zdrop_app_ge by (rewrite zlen_metadata; lia). rewrite zlen_metadata. change (12 - 12) with 0.
    rewrite zdrop_0. by apply ztake_ge. }
  apply runs_bind. rewrite u16_small by (bounds; lia). eapply runs_ask.
  { apply (pbuf_copy_partial_spec_runs _ _ cs); rewrite ?Hd; try done; bounds; lia. }
  rewrite Hd. assert (s32 (zlen data) = zlen data) as ->.
  { unfold s32, signed. change (32 - 1) with 31. rewrite Z.mod_small by (bounds; lia).
    rewrite (proj2 (Z.ltb_lt _ _)) by (bounds; lia). done. }
  apply Hfree.
Qed.

(** ** Sending *)

(** A change of the first struct alone. *)
Lemma built_head s0 s s' p c c' cs :
  built s0 s p (c :: cs) → s' = s <| pbufs := <[c_loc c := c_pbuf c']> (pbufs s) |> → packet s' p (c' :: cs) →
  c_loc c' = c_loc c → own_data c' → pb_ref (c_pbuf c') = 1 →
  pb_type_internal (c_pbuf c') = pb_type_internal (c_pbuf c) → built s0 s' p (c' :: cs).
Proof.
  intros [bpk bown bfree bref bfresh bheap bnext bmb bmsg bpb bbl] -> Hpk Hl Hown Href Hty.
  apply Forall_cons in bown as [_ bown], bfree as [[Hf1 Hf2] bfree], bref as [_ bref], bfresh as [[Hfr1 Hfr2] bfresh].
  split; simpl; try done.
  - by constructor.
  - constructor; [|done]. split; [|by rewrite Hl]. unfold pbuf_get_allocsrc in *. by rewrite Hty.
  - by constructor.
  - constructor; [by rewrite Hl|done].
  - by apply heap_ok_set_pbuf.
  - intros l Hn. rewrite Hl in Hn. rewrite lookup_insert_ne; [by apply bpb|]. intros <-. apply Hn. by left.
  - intros l Hn. rewrite Hl in Hn. by apply bbl.
Qed.

(** The packet on its way to the stack: metadata and data, the room before them. *)
Record packed s s' (r : option loc) (c : cell) (metadata data : list Z) : Prop := {
  pk_built : built s s' r [c];
  pk_bytes : c_data c = metadata ++ data;
  pk_payload : pb_payload (c_pbuf c) = Some (mk_ptr (c_loc c) 68);
  pk_type : pb_type_internal (c_pbuf c) = u8 (type_code PBUF_RAM)
}.

Lemma pbuf_take_zero s l q data :
  pbufs s !! l = Some q → 0 ≤ pb_tot_len q → pbuf_take (Some l) (Some data) 0 s = Val (ERR_OK, s).
Proof.
  intros Hl Ht. unfold pbuf_take, mbnd at 1, ask, get_pbuf. rewrite Hl. cbn [deref rbind].
  unfold mbnd, lwip_error, lwip_assert. rewrite (proj2 (Z.leb_le _ _)) by done. unfold gets.
  by destruct (chain_fuel s).
Qed.

(** Fresh memory filled, with the room of the layer before it. *)
Lemma pack_data_spec s s1 l d size buffer :
  let c0 := new_cell l d 80 size size PBUF_RAM in
  fresh_chain s s1 (Some l) [c0] 0 → blocks s1 !! l = Some d → 80 + size ≤ zlen d → 0 ≤ size < 2 ^ 16 → size ≤ zlen buffer →
  runs (pbuf_take (Some l) (Some buffer) size) s1 (λ _ s2, ∃ c2, built s s2 (Some l) [c2] ∧ c_loc c2 = l ∧
    c_pbuf c2 = c_pbuf c0 ∧ c_data c2 = ztake size buffer ∧ headroom s2 12 c2).
Proof.
  intros c0 Hf Hblk Hd Hsz Hbuf.
  assert (total [c0] = size) as Ht0 by (rewrite total_cons, total_nil; simpl; rewrite zlen_zslice; lia).
  pose proof (built_fresh _ _ _ _ Hf ltac:(lia)) as Hbu0.
  destruct (decide (size = 0)) as [->|Hne].
  - eapply runs_eq; [eapply pbuf_take_zero; [apply (bu_packet _ _ _ _ Hbu0)|simpl; lia]|]. exists c0.
    split_and!; [done|done|done|done|]. split; [|by vm_compute]. exists 80, d. split_and!; [done|done|done|]. simpl. rewrite zlen_zslice; lia.
  - eapply runs_mono; [apply (built_fill s s1 _ [c0] size buffer); [done|done|lia|done]|].
    intros e s2 (cs2 & Hbu & Hb & Hl & Hp). rewrite zdrop_ge, app_nil_r in Hb by (fold (total [c0]); lia).
    destruct cs2 as [|c2 [|? ?]]; [done| |done]. injection Hl as Hl. injection Hp as Hp.
    assert (c_data c2 = ztake size buffer) as Hd2 by (rewrite <- Hb; unfold bytes; simpl; by rewrite app_nil_r).
    exists c2. split_and!; [done|done|done|done|].
    apply (packet_headroom s2 (Some l) c2 [] 12 80); [apply (bu_packet _ _ _ _ Hbu)|by rewrite Hp, Hl|done|rewrite Hp; by vm_compute|].
    rewrite Hd2, zlen_ztake; lia.
Qed.

Lemma udp_conn_pack_spec s metadata buffer size :
  heap_ok s → zlen metadata = 12 → 0 ≤ size < 2 ^ 16 - 12 → size ≤ zlen buffer →
  runs (udp_conn_pack metadata buffer size) s (λ r s',
    match r with
    | None => no_leak s s' ∧ tcpip_mbox s' = tcpip_mbox s ∧ (memory_left s && ram_fits PBUF_TRANSPORT size) = false
    | Some _ => (memory_left s && ram_fits PBUF_TRANSPORT size) = true ∧ mallocs s' = tl (mallocs s) ∧
        ∃ c, packed s s' r c metadata (ztake size buffer)
    end).
Proof.
  intros Hok Hmd Hsz Hbuf. unfold udp_conn_pack, SIZEOF_UDP_METADATA_T. rewrite u16_small by lia.
  apply runs_bind. eapply runs_mono; [apply (alloc_ram_one s PBUF_TRANSPORT size Hok); lia|].
  intros [l|] s1 Hr; [|by apply runs_ret]. destruct Hr as (d & (Hleft & Hml) & -> & Hblk & Hd & Hf).
  change (24 + LWIP_MEM_ALIGN_SIZE (u16 (layer_offset PBUF_TRANSPORT))) with 80 in *. set (l := next_loc s) in *.
  apply (runs_stable same_mallocs); [stable_tac|].
  apply runs_bind. eapply runs_mono; [apply (pack_data_spec s s1 l d size buffer Hf Hblk Hd ltac:(lia) Hbuf)|].
  intros e s2 (c2 & Hbu & Hl & Hp & Hd2 & Hroom).
  assert (total [c2] = size) as Ht2 by (rewrite total_cons, total_nil, Hd2, zlen_ztake; lia).
  apply runs_bind. eapply runs_mono; [apply (pbuf_add_header_spec _ _ _ _ 12 (bu_packet _ _ _ _ Hbu) Hroom); lia|].
  intros r s3 (-> & junk & Hj & Hs3 & Hpk3). cbn [Z.eqb negb]. set (c3 := retreat 12 junk c2) in *.
  assert (built s s3 (Some l) [c3]) as Hbu3.
  { apply (built_head s s2 s3 (Some l) c2); try done; [by apply (retreat_own s2)|].
    unfold c3. simpl. pose proof (bu_ref _ _ _ _ Hbu) as Hr. by inversion Hr. }
  apply runs_bind. eapply runs_mono.
  { apply (built_fill s s3 (Some l) [c3] 12 metadata Hbu3); [done| |lia].
    rewrite total_cons, total_nil. unfold c3. simpl. rewrite zlen_app, Hj. pose proof (zlen_nonneg (c_data c2)). lia. }
  intros e' s4 (cs4 & Hbu4 & Hb4 & Hl4 & Hp4). apply runs_ret.
  destruct cs4 as [|c4 [|? ?]]; [done| |done]. injection Hl4 as Hl4. injection Hp4 as Hp4.
  intros Hsame. split; [done|]. split; [by rewrite <- Hml|]. exists c4. split; [done| | |].
  - unfold bytes in Hb4. simpl in Hb4. rewrite !app_nil_r in Hb4. rewrite Hb4, <- Hd2, (ztake_ge 12 metadata) by lia.
    f_equal. rewrite zdrop_app_ge, Hj, Z.sub_diag by lia. apply zdrop_0.
  - rewrite Hp4, Hl4. unfold c3. simpl. rewrite Hp. simpl. by rewrite Hl.
  - rewrite Hp4. unfold c3. simpl. by rewrite Hp.
Qed.

Lemma read_metadata_runs s p c cs m data :
  packet s p (c :: cs) → c_data c = metadata_bytes m ++ data → metadata_ok m →
  runs (read_metadata p) s (λ r s', r = m ∧ s' = s).
Proof.
  intros Hpk Hd (Hs & Hds & Hp & Hq). pose proof (packet_payload _ _ _ _ Hpk) as Hrd. rewrite Hd in Hrd.
  pose proof (zlen_nonneg data). unfold read_metadata, SIZEOF_UDP_METADATA_T.
  apply runs_bind. eapply runs_head; [exact Hpk|]. apply runs_bind. eapply runs_ask.
  { rewrite (mem_read_sub _ _ _ _ 0 12 Hrd eq_refl) by (rewrite ?zlen_app, ?zlen_metadata; lia).
    rewrite zslice_app_l by (rewrite ?zlen_metadata; lia). done. }
  destruct m as [sa da sp dp]. unfold metadata_bytes, addr_bytes, zslice, ztake, zdrop. simpl. apply runs_ret. split; [|done].
  rewrite !word_addr. f_equal; Z.div_mod_to_equations; lia.
Qed.

Section poll.
Context {W : Type} `{!Part cstate W} `{!netif_driver W} `{!udp_env W}.
#[local] Existing Instance ustate_part.

(** What a packet of the application comes down to. *)
Lemma udp_poll_one_calls (w : W) conn cc pl cb p c cs m data o :
  let u := c_udp (part_get w) in
  let s := ip_store (u_ip u) in
  let c1 := advance 12 c in
  let s1 := s <| pbufs := <[c_loc c := c_pbuf c1]> (pbufs s) |> in
  let sport := if src_port m =? 0 then local_port cb else src_port m in
  c_conns (part_get w) !! conn = Some cc → conn_pcb cc = Some pl → udp_mem u !! pl = Some cb →
  packet s p (c :: cs) → c_data c = metadata_bytes m ++ data → metadata_ok m → Forall own_data cs →
  pb_payload (c_pbuf c) = Some (mk_ptr (c_loc c) o) → SIZEOF_STRUCT_PBUF + 28 ≤ o + 12 →
  Z.land (pb_type_internal (c_pbuf c)) PBUF_TYPE_FLAG_STRUCT_DATA_CONTIGUOUS ≠ 0 →
  pb_ref (c_pbuf c) = 1 → zlen data + total cs + 28 < 2 ^ 16 → Forall is_u8 (data ++ bytes cs) → sport ≠ 0 → is_u16 sport →
  header_fields (pcb_tos cb) (8 + (zlen data + total cs) + 20) (ip_id (u_ip u)) (pcb_ttl cb) IP_PROTO_UDP (src_addr m) (dst_addr m) →
  Z.land (pcb_flags cb) UDP_FLAGS_UDPLITE = 0 → Z.land (pcb_flags cb) UDP_FLAGS_NOCHKSUM = 0 →
  calls (udp_poll_one conn p) w
    (do! (let! _ := netif_output p (dst_addr m) in ret tt);
     let! _ := lift (P := ustate) (lift (P := ipstate) (lift (P := store) (pbuf_free p))) in ret tt)
    (udp_sent (set_store u s1) w c1 cs (src_addr m) (dst_addr m) sport (dst_port m) (pcb_ttl cb) (pcb_tos cb)).
Proof.
  intros u s c1 s1 sport Hcc Hpl Hcb Hpk Hd Hm Hown Ho Hroom Hty Href Hz Hu8 Hsp Hsp16 Hf Hlite Hno.
  pose proof (zlen_nonneg data). assert (zlen (c_data c) = 12 + zlen data) as Hdl by (rewrite Hd, zlen_app; done).
  assert (part_set (P := ustate) u w = w) as Hw by exact (part_set_get (P := ustate) w).
  rewrite <- Hw at 1. clear Hw.
  pose proof Hm as (_ & _ & _ & Hdp).
  unfold udp_poll_one. apply calls_bind, runs_ust. eapply runs_mono; [by apply (read_metadata_runs _ p c cs m data)|].
  intros r s0 [-> ->]. apply calls_bind, runs_ust.
  eapply runs_mono; [apply (pbuf_remove_header_spec _ p c cs 12); [exact Hpk|lia]|].
  intros r s2 (-> & Hs2 & Hpk2). cbn [Z.eqb negb].
  assert (s2 = s1) as -> by exact Hs2. clear Hs2. fold c1 in Hpk2. set (u1 := set_store u s1).
  change (set_store (set_store u _) s1) with u1.
  assert (zdrop 12 (c_data c) = data) as Hdd.
  { rewrite Hd, zdrop_app_ge by (rewrite zlen_metadata; lia). rewrite zlen_metadata. change (12 - 12) with 0. apply zdrop_0. }
  assert (headroom s1 28 c1) as Hhr.
  { pose proof (packet_payload _ _ _ _ Hpk) as Hrd. rewrite Ho in Hrd.
    apply mem_read_inv in Hrd as (a & b & [= <-] & Hb & _ & _ & _ & Hlen); [|lia]. simpl in Hb, Hlen.
    split; [|done]. exists (o + 12), b. unfold c1, advance. simpl. rewrite Ho, Hdd. split_and!; [done|lia|done|lia]. }
  assert (bytes (c1 :: cs) = data ++ bytes cs) as Hb1 by (rewrite bytes_cons; unfold c1; simpl; by rewrite Hdd).
  apply calls_bind. apply (runs_part (P := cstate) _ ((part_get w) <| c_udp := u1 |>) w). eapply runs_ask.
  { unfold get_conn. simpl. by rewrite Hcc. }
  cbn [deref]. rewrite Hpl. cbn [bool_decide].
  apply calls_seq. rewrite bool_decide_eq_true_2 by done. apply calls_seq.
  pose proof (udp_sendto_calls u1 w pl cb p c1 cs (dst_addr m) (dst_port m) (src_addr m) (src_port m)) as Hsend.
  cbv zeta in Hsend. rewrite Hb1, zlen_app in Hsend. unfold total in Hz, Hf.
  apply Hsend; try done. lia.
Qed.
End poll.
