(* ===== verification/Netif.v ===== *)
(** * The network interface ([core/netif.c], [native/interface.c])

    [struct netif] in the configuration with one interface, [global_if].  A
    pointer to a netif is [true] when it is [&global_if] and [false] when it is
    null.  The callbacks for status and link changes, IGMP, ARP and IPv6 are
    compiled out; what TCP does when an address changes is the variable
    [tcp_netif_ip_addr_changed]. *)

From S2P Require Import Prelude Mbox Heap Pbuf Link Def Chksum Addr Header Ip4 Udp.

Definition NETIF_REPORT_TYPE_IPV4 : Z := 1.
Definition NETIF_REPORT_TYPE_IPV6 : Z := 2.

(** What is reported is compiled out; the assertion on the pointer is left. *)
Definition netif_issue_reports (netif : bool) (report_type : Z) : M ustate unit := lwip_assert netif.

Definition update_netif (f : netif → netif) : M ustate unit :=
  modify (λ u, u <| u_ip := (u_ip u) <| global_if := f (global_if (u_ip u)) |> |>).

Definition netif_set_default (netif : bool) : M ustate unit :=
  modify (λ u, u <| u_ip := (u_ip u) <| netif_default := netif |> |>).

Definition netif_set_flags (f : Z) : M ustate unit :=
  update_netif (λ n, n <| ni_flags := u8 (Z.lor (ni_flags n) f) |>).
Definition netif_clear_flags (f : Z) : M ustate unit :=
  update_netif (λ n, n <| ni_flags := u8 (Z.land (ni_flags n) (u8 (Z.lnot f))) |>).
Definition has_flag (f : Z) : M ustate bool :=
  gets (λ u, negb (Z.land (ni_flags (global_if (u_ip u))) f =? 0)).

Definition netif_set_up (netif : bool) : M ustate unit :=
  do! lwip_error netif;
  let! up := has_flag NETIF_FLAG_UP in
  if up then ret tt else
  do! netif_set_flags NETIF_FLAG_UP;
  netif_issue_reports netif (Z.lor NETIF_REPORT_TYPE_IPV4 NETIF_REPORT_TYPE_IPV6).

Definition netif_set_down (netif : bool) : M ustate unit :=
  do! lwip_error netif;
  let! up := has_flag NETIF_FLAG_UP in
  if up then netif_clear_flags NETIF_FLAG_UP else ret tt.

Definition netif_set_link_up (netif : bool) : M ustate unit :=
  do! lwip_error netif;
  let! up := has_flag NETIF_FLAG_LINK_UP in
  if up then ret tt else
  do! netif_set_flags NETIF_FLAG_LINK_UP;
  netif_issue_reports netif (Z.lor NETIF_REPORT_TYPE_IPV4 NETIF_REPORT_TYPE_IPV6).

Definition netif_set_link_down (netif : bool) : M ustate unit :=
  do! lwip_error netif;
  let! up := has_flag NETIF_FLAG_LINK_UP in
  if up then netif_clear_flags NETIF_FLAG_LINK_UP else ret tt.

Section netif.
Variable tcp_netif_ip_addr_changed : Z → Z → M ustate unit.

(** A null [new_addr] is passed as [IPADDR_ANY], which is treated alike. *)
Definition netif_do_ip_addr_changed (old_addr new_addr : Z) : M ustate unit :=
  do! tcp_netif_ip_addr_changed old_addr new_addr;
  udp_netif_ip_addr_changed old_addr new_addr.

(** The results tell whether something changed. *)
Definition netif_do_set_ipaddr (ipaddr : Z) : M ustate bool :=
  let! n := gets (λ u, global_if (u_ip u)) in
  if ipaddr =? ni_ip_addr n then ret false else
  do! netif_do_ip_addr_changed (ni_ip_addr n) ipaddr;
  do! update_netif (λ n, n <| ni_ip_addr := ipaddr |>);
  do! netif_issue_reports true NETIF_REPORT_TYPE_IPV4;
  ret true.

Definition netif_do_set_netmask (netmask : Z) : M ustate bool :=
  let! n := gets (λ u, global_if (u_ip u)) in
  if netmask =? ni_netmask n then ret false else
  do! update_netif (λ n, n <| ni_netmask := netmask |>); ret true.

Definition netif_do_set_gw (gw : Z) : M ustate bool :=
  let! n := gets (λ u, global_if (u_ip u)) in
  if gw =? ni_gw n then ret false else
  do! update_netif (λ n, n <| ni_gw := gw |>); ret true.

Definition addr_or_any (a : option Z) : Z := match a with None => IPADDR_ANY | Some a => a end.

Definition netif_set_ipaddr (netif : bool) (ipaddr : option Z) : M ustate unit :=
  do! lwip_error netif; let! _ := netif_do_set_ipaddr (addr_or_any ipaddr) in ret tt.
Definition netif_set_netmask (netif : bool) (netmask : option Z) : M ustate unit :=
  do! lwip_error netif; let! _ := netif_do_set_netmask (addr_or_any netmask) in ret tt.
Definition netif_set_gw (netif : bool) (gw : option Z) : M ustate unit :=
  do! lwip_error netif; let! _ := netif_do_set_gw (addr_or_any gw) in ret tt.

Definition netif_set_addr (ipaddr netmask gw : option Z) : M ustate unit :=
  let ipaddr := addr_or_any ipaddr in
  let remove := ip4_addr_isany ipaddr in
  let! _ := (if remove then netif_do_set_ipaddr ipaddr else ret false) in
  let! _ := netif_do_set_netmask (addr_or_any netmask) in
  let! _ := netif_do_set_gw (addr_or_any gw) in
  let! _ := (if remove then ret false else netif_do_set_ipaddr ipaddr) in
  ret tt.

(** [init] is the driver's function; the result is [netif] or null. *)
Definition netif_add (netif : bool) (ipaddr netmask gw : option Z) (init : option (M ustate err_t)) : M ustate bool :=
  let! default := gets (λ u, netif_default (u_ip u)) in
  do! lwip_assert (negb default);
  do! lwip_error netif;
  let! init := valid_ptr init in
  do! update_netif (λ n, n <| ni_ip_addr := 0 |> <| ni_netmask := 0 |> <| ni_gw := 0 |> <| ni_mtu := 0 |>
                           <| ni_flags := 0 |> <| ni_num := 0 |>);
  do! netif_set_addr ipaddr netmask gw;
  let! e := init in
  if is_ok e then ret netif else ret false.

Definition netif_remove (netif : bool) : M ustate unit :=
  if negb netif then ret tt else
  let! n := gets (λ u, global_if (u_ip u)) in
  do! (if ip4_addr_isany (ni_ip_addr n) then ret tt else netif_do_ip_addr_changed (ni_ip_addr n) IPADDR_ANY);
  let! up := has_flag NETIF_FLAG_UP in
  do! (if up then netif_set_down netif else ret tt);
  let! default := gets (λ u, netif_default (u_ip u)) in
  if default then netif_set_default false else ret tt.

(** ** native/interface.c *)

(** It sets the interface's name and its [output] function, [global_if_output]. *)
Definition global_if_init : M ustate err_t := ret ERR_OK.

Definition global_interface_init : M ustate unit :=
  let! created := netif_add true (Some IPADDR_ANY) (Some IPADDR_ANY) (Some IPADDR_ANY) (Some global_if_init) in
  do! lwip_assert created;
  do! update_netif (λ n, n <| ni_mtu := DEFAULT_MTU |>);
  do! netif_set_up created;
  do! netif_set_link_up created;
  netif_set_default created.
End netif.

(** ** Facts *)

(** The interface the program starts with.  On a stack without interface,
    [global_interface_init] returns, without touching the memory or the UDP
    blocks; afterwards the interface is the default one, up, without address,
    with the MTU 1500.  From then on [ip4_input_accept] holds of every destination
    (only multicast ones are not put to it), and every destination but a loopback
    address has a route.  A second call fails the assertion in [netif_add]. *)
Theorem global_interface_init_spec tcp_changed u :
  netif_default (u_ip u) = false →
  ∃ u', global_interface_init tcp_changed u = Val (tt, u') ∧
    u' = u <| u_ip := (u_ip u) <| global_if := mk_netif 0 0 0 DEFAULT_MTU 5 0 |> <| netif_default := true |> |> ∧
    (∀ d, ip4_input_accept ((u_ip u') <| ip_data := d |>) = true) ∧
    (∀ dest, ip4_addr_isloopback dest = false → ip4_route dest (u_ip u') = Val (true, u_ip u')) ∧
    global_interface_init tcp_changed u' = Err AssertFailed.
Proof.
  intros Hd. destruct u as [[s n d ipd id] port pcbs mem src dst]. simpl in Hd. subst d.
  eexists. split; [reflexivity|]. split; [reflexivity|]. split_and!.
  - intros d. unfold ip4_input_accept. simpl. by rewrite orb_true_r.
  - intros dest Hl. unfold ip4_route, mbnd, gets, ret. simpl. by rewrite Hl.
  - reflexivity.
Qed.

Definition ex_unset : ustate :=
  mk_ustate (mk_ipstate (init_store []) (mk_netif 0 0 0 0 0 0) false no_packet 0) 50000 [] ∅ 0 0.

Lemma global_interface_init_spec_witness :
  ∃ u', global_interface_init (λ _ _, ret tt) ex_unset = Val (tt, u') ∧ ni_flags (global_if (u_ip u')) = 5.
Proof.
  destruct (global_interface_init_spec (λ _ _, ret tt) ex_unset eq_refl) as (u' & Hrun & -> & _).
  eexists. split; [exact Hrun|reflexivity].
Defined.
