(* ===== verification/World.v ===== *)
(** * The stack put together

    The components' states in one: the connections of [native/udp.c] over UDP
    over IPv4 over the interface, the link of [native/link.c] beside them.  Here
    the interfaces of [Ip4], [Udp] and [Link] meet their implementations, and
    [tcpip_thread] handles the messages posted to it ([api/tcpip.c]).  TCP
    appears as variables: it is modelled over a state of its own ([Tcp] on). *)

From S2P Require Import Prelude Mbox Heap Pbuf Queues Link Def Chksum Addr Header Ip4 Udp Icmp UdpConn.

Record world := mk_world {
  w_conn : cstate;
  w_links : gmap loc link_t;
  w_output_func : option output_fn;
  w_output_context : option loc
}.
#[export] Instance eta_world : Eta world := λ r,
  mk_world (w_conn r) (w_links r) (w_output_func r) (w_output_context r).

#[export] Program Instance part_world : Part cstate world := {
  part_get := w_conn; part_set c w := w <| w_conn := c |>
}.
Next Obligation. done. Qed.
Next Obligation. by intros []. Qed.
Next Obligation. done. Qed.

Definition w_ip (w : world) : ipstate := u_ip (c_udp (w_conn w)).
Definition w_store (w : world) : store := ip_store (w_ip w).
Definition set_w_ip (iw : ipstate) (w : world) : world :=
  w <| w_conn := (w_conn w) <| c_udp := (c_udp (w_conn w)) <| u_ip := iw |> |> |>.

(** The state of [Link], whose MTU is that of [global_if]. *)
Definition link_view (w : world) : lworld :=
  mk_lworld (w_store w) (w_links w) (w_output_func w) (w_output_context w) (ni_mtu (global_if (w_ip w))).
Definition set_link_view (l : lworld) (w : world) : world :=
  (set_w_ip ((w_ip w) <| ip_store := lw_store l |>
               <| global_if := (global_if (w_ip w)) <| ni_mtu := lw_mtu l |> |>) w)
    <| w_links := lw_links l |> <| w_output_func := lw_output_func l |>
    <| w_output_context := lw_output_context l |>.
#[export] Program Instance part_link : Part lworld world := {
  part_get := link_view; part_set := set_link_view
}.
Next Obligation. by intros []. Qed.
Next Obligation. by intros [[[[? [] ? ? ?]]]]. Qed.
Next Obligation. done. Qed.

#[export] Instance part_world_udp : Part ustate world := ustate_part.
#[export] Instance part_world_ip : Part ipstate world := ip_part.

#[export] Instance world_driver : netif_driver world := {
  netif_output p ipaddr := lift (P := lworld) (global_if_output p)
}.

Section world.
(** What TCP does: its input, and the release of its out-of-order segments. *)
Variable tcp_input : option loc → M world unit.
Variable pbuf_free_ooseq : M world unit.
(** Receive callbacks other than that of [native/udp.c]; the program has none. *)
Variable other_recv : positive → option loc → loc → option loc → Z → Z → M world unit.

#[local] Instance world_udp_env : udp_env world := {
  udp_callback f arg pcb p addr port :=
    match f with
    | Recv_udp_on_received => lift (P := cstate) (udp_on_received arg (Some pcb) p addr port)
    | Recv_other g => other_recv g arg pcb p addr port
    end;
  icmp_port_unreach p := icmp_dest_unreach p ICMP_DUR_PORT
}.

#[local] Instance world_upper : ip_upper world := {
  to_udp := udp_input;
  to_tcp := tcp_input;
  to_icmp := icmp_input;
  to_icmp_dest_unreach := icmp_dest_unreach
}.

(** [ip_input] is [ip4_input] without IPv6. *)
Definition ip_input : option loc → M world err_t := ip4_input.

(** The functions posted as messages. *)
Definition run_callback (m : tcpip_msg) : M world unit :=
  match cb_function m with
  | Cb_poll_tx => let! ctx := ask (λ _, deref (cb_ctx m)) in poll_tx ip_input ctx
  | Cb_udp_poll_tx => let! ctx := ask (λ _, deref (cb_ctx m)) in udp_poll_tx ctx
  | Cb_pbuf_free_int =>
      let! _ := lift (P := lworld) (lift (pbuf_free (cb_ctx m))) in ret tt
  | Cb_pbuf_free_ooseq =>
      do! lift (P := lworld) (lift (modify (λ s, s <| pbuf_free_ooseq_pending := false |>)));
      pbuf_free_ooseq
  end.

(** All messages posted are of the type [TCPIP_MSG_CALLBACK]. *)
Definition tcpip_thread_handle_msg (msg : loc) : M world unit :=
  let! m := ask (λ w, deref (tcpip_msgs (w_store w) !! msg)) in
  do! run_callback m;
  lift (P := lworld) (lift (memp_free MEMP_TCPIP_MSG_API (Some msg))).

(** One turn of [tcpip_thread], without the timers; [false] when no message waits. *)
Definition tcpip_thread_turn : M world bool :=
  let! x := lift (P := lworld) (lift (λ s,
    let* '(x, mb) := Seq.sys_arch_mbox_tryfetch (tcpip_mbox s) in Val (x, s <| tcpip_mbox := mb |>))) in
  match x with
  | None => ret false
  | Some None => fail AssertFailed
  | Some (Some msg) => do! tcpip_thread_handle_msg msg; ret true
  end.
End world.
