(* ===== verification/WorldRx.v ===== *)
(** * A datagram's way to the application

    From [global_interface_inject_packet] through IPv4 and UDP into the queue of
    a connection, and out of it by [udp_conn_recv]. *)

From S2P Require Import Prelude Mbox Heap HeapFacts Pbuf PbufData Packet PbufFacts PbufAlloc PbufChain Queues Link LinkFacts.
From S2P Require Import Def Chksum Addr Header Ip4 Ip4Facts Ip4InFacts Udp UdpBind UdpInput Icmp UdpConn UdpConnFacts World.

Implicit Types w : world.

Definition w_udp w : ustate := c_udp (w_conn w).

(** A connection that is the only UDP block: what [udp_conn_listen] sets up. *)
Record listening w (conn : loc) (cc : udp_conn_t) (l : loc) (q : list (option loc)) : Prop := {
  ls_pcbs : udp_pcbs (w_udp w) = [l];
  ls_pcb : ∃ cb, udp_mem (w_udp w) !! l = Some cb ∧ local_ip cb = 0 ∧ local_port cb = UDP_ACCEPT_ANY_PORT ∧
    netif_idx cb = netif_get_index (global_if (w_ip w)) ∧ pcb_flags cb = 0 ∧
    pcb_recv cb = Some Recv_udp_on_received ∧ recv_arg cb = Some conn;
  ls_conn : c_conns (w_conn w) !! conn = Some cc;
  ls_open : conn_pcb cc = Some l;
  ls_rx : holds (conn_rx cc) q
}.

(** A packet of the link that IPv4 accepts and whose datagram is right: header [h]
    with options, UDP header in the same pbuf, and [data], which may go on in
    further pbufs. *)
Record udp_packet w (p : option loc) (c : cell) (cs : list cell) (h : ip_hdr) (sport dport len chk : Z) (data : list Z)
    : Prop := {
  up_good : good (w_store w) p (c :: cs);
  up_data : ∃ opts d, c_data c = (ip_hdr_bytes h ++ opts) ++ udp_header sport dport len chk ++ d ∧
    hdr_len h = 20 + zlen opts ∧ data = d ++ bytes cs;
  up_hdr : ip_hdr_ok h;
  up_u8 : Forall is_u8 (bytes (c :: cs));
  up_proto : h_proto h = IP_PROTO_UDP;
  up_len : total (c :: cs) ≤ h_len h;
  up_accept : acceptable (global_if (w_ip w)) h (c_data c) (total (c :: cs)) = true;
  up_ports : is_u16 sport ∧ is_u16 dport ∧ is_u16 chk;
  up_chk : chksum_ok (h_src h) (h_dest h) chk (udp_header sport dport len chk ++ data) = true
}.

Definition datagram (h : ip_hdr) (sport dport : Z) : udp_metadata_t := mk_udp_metadata (h_src h) (h_dest h) sport dport.

(** The search finds the only block. *)
Lemma chosen_only u l cb sport dport bc r ls :
  udp_pcbs u = [l] → udp_mem u !! l = Some cb → at_port_and_addr u dport bc cb = true → pcb_flags cb = 0 →
  chosen u sport dport bc r ls → r = Some l ∧ ls = [l].
Proof.
  intros Hl Hcb Hat Hfl [(pre & pcb & c & post & Hs & Hc & _ & _ & -> & ->)|(_ & -> & ->)]; rewrite Hl in *.
  - destruct pre as [|? [|? ?]]; try discriminate Hs. injection Hs as -> <-. done.
  - split; [|done]. unfold candidates. simpl. unfold test at 1. rewrite Hcb. unfold candidate. rewrite Hat, Hfl. simpl.
    unfold best. destruct (_ && _); [|done]. simpl. by destruct (test u _ l).
Qed.

(** Removing a header leaves a packet good, and the heap as it was. *)
Lemma good_advance s p c cs n :
  good s p (c :: cs) → 0 ≤ n ≤ zlen (c_data c) →
  let s' := s <| pbufs := <[c_loc c := c_pbuf (advance n c)]> (pbufs s) |> in
  packet s' p (advance n c :: cs) → good s' p (advance n c :: cs).
Proof.
  intros [Hpk Hown Hfr _] Hn s' Hpk'. apply Forall_cons in Hown as [(o & Ho & Hle) Hown], Hfr as [Hf Hfr]. split; [done| | |done].
  - constructor; [|done]. exists (o + n). unfold advance. simpl. rewrite Ho. split; [done|lia].
  - by constructor.
Qed.

Lemma heap_ok_advance s p c cs q : heap_ok s → packet s p (c :: cs) → heap_ok (s <| pbufs := <[c_loc c := q]> (pbufs s) |>).
Proof.
  intros Hok [(_ & Hl & _) _ _ _]. apply heap_ok_set_pbuf; [done|]. eapply heap_ok_used; [done|]. left. by eexists.
Qed.

(** What becomes of the datagram [data]: a packet for the application at the end
    of the connection's queue; but if the next [malloc], the one for its metadata,
    returns null, nothing, and then [p] is never freed. *)
Definition delivered w w' (conn : loc) (cc : udp_conn_t) (q : list (option loc)) (m : udp_metadata_t) (data : list Z) : Prop :=
  ∃ r cs' rx, good (w_store w') (Some r) cs' ∧ bytes cs' = metadata_bytes m ++ data ∧ holds rx (q ++ [Some r]) ∧
    c_conns (w_conn w') = <[conn := cc <| conn_rx := rx |>]> (c_conns (w_conn w)).
Definition leaked w w' (c : cell) : Prop :=
  c_conns (w_conn w') = c_conns (w_conn w) ∧ is_Some (pbufs (w_store w') !! c_loc c).
Definition arrived w w' conn cc q m data c : Prop :=
  heap_ok (w_store w') ∧ if memory_left (w_store w) then delivered w w' conn cc q m data else leaked w w' c.

Section rx.
Variable tcp_input : option loc → M world unit.
Variable other_recv : positive → option loc → loc → option loc → Z → Z → M world unit.
#[local] Instance env : udp_env world := world_udp_env other_recv.
#[local] Instance up : ip_upper world := world_upper tcp_input other_recv.

Lemma udp_input_runs w p c cs sport dport len chk d conn cc l q :
  let ipd := ip_data (w_ip w) in
  let data := d ++ bytes cs in
  good (w_store w) p (c :: cs) → c_data c = udp_header sport dport len chk ++ d → Forall is_u8 (bytes (c :: cs)) →
  is_u16 sport → is_u16 dport → is_u16 chk → is_u32 (current_iphdr_src ipd) → is_u32 (current_iphdr_dest ipd) →
  rd8 (w_store w) (current_ip4_header ipd) 9 = Val IP_PROTO_UDP → current_netif ipd = true → current_input_netif ipd = true →
  chksum_ok (current_iphdr_src ipd) (current_iphdr_dest ipd) chk (udp_header sport dport len chk ++ data) = true →
  listening w conn cc l q → heap_ok (w_store w) → zlen q < PBUF_QUEUE_LENGTH → total (c :: cs) + 4 < 2 ^ 16 →
  runs (udp_input p) w (λ _ w',
    arrived w w' conn cc q (mk_udp_metadata (current_iphdr_src ipd) (current_iphdr_dest ipd) sport dport) data c).
Proof.
  intros ipd data Hgd Hd Hu8 Hsp Hdp Hchk Hsrc Hdst Hproto Hcn Hin Hok [Hpcbs (cb & Hcb & Hlip & Hlp & Hidx & Hfl & Hrecv & Harg) Hconn Hopen Hrx]
    Hheap Hroom Hz.
  pose proof (gd_packet _ _ _ Hgd) as Hpk. pose proof (zlen_nonneg d).
  assert (zlen (c_data c) = 8 + zlen d) as Hdl by (rewrite Hd, zlen_app; done).
  assert (zdrop 8 (c_data c) = d) as Hdd.
  { rewrite Hd, zdrop_app_ge by (change (zlen (udp_header _ _ _ _)) with 8; lia).
    change (zlen (udp_header _ _ _ _)) with 8. change (8 - 8) with 0. apply zdrop_0. }
  set (u := w_udp w) in *. assert (part_set (P := ustate) u w = w) as Hw by by destruct w as [[] ? ? ?].
  destruct (udp_input_calls u w p c cs sport dport len chk d) as (r & ls & Hch & Hr); try done.
  { intros a Ha. rewrite Hpcbs in Ha. apply list_elem_of_singleton in Ha as ->. by eexists. }
  assert (at_port_and_addr u dport (ip4_addr_isbroadcast_u32 (current_iphdr_dest (ip_data (u_ip u))) (global_if (u_ip u))) cb = true) as Hat.
  { unfold at_port_and_addr. change (u_ip u) with (w_ip w). rewrite Hlip, Hlp, Hidx, Z.eqb_refl.
    change (UDP_ACCEPT_ANY_PORT =? UDP_ACCEPT_ANY_PORT) with true. by rewrite Z.eqb_refl, !orb_true_r. }
  destruct (chosen_only _ _ _ _ _ _ _ _ Hpcbs Hcb Hat Hfl Hch) as [-> ->]. clear Hch Hat.
  destruct Hr as (cb' & Hcb' & Hr). rewrite Hcb in Hcb'. injection Hcb' as <-.
  assert (bytes (c :: cs) = udp_header sport dport len chk ++ data) as Hb by (by rewrite bytes_cons, Hd, <- app_assoc).
  rewrite Hb in Hr. change (u_ip u) with (w_ip w) in Hr. fold ipd in Hr. rewrite Hok, Hrecv, Harg in Hr.
  destruct Hr as [Hpk1 Hcalls]. change (ip_store (w_ip w)) with (w_store w) in *.
  set (s1 := (w_store w) <| pbufs := _ |>) in *. rewrite Hw in Hcalls.
  pose proof (good_advance _ _ _ _ 8 Hgd ltac:(lia) Hpk1) as Hgd1. fold s1 in Hgd1.
  eapply calls_runs; [exact Hcalls|]. intros w1 ->. set (u1 := set_store _ s1).
  cbn [udp_callback env world_udp_env].
  apply (runs_part (P := cstate) _ ((w_conn w) <| c_udp := u1 |>) w).
  assert (total (advance 8 c :: cs) = total (c :: cs) - 8) as Ht.
  { rewrite !total_cons. unfold advance. simpl. rewrite Hdd. lia. }
  assert (bytes (advance 8 c :: cs) = data) as Hb1 by (rewrite bytes_cons; unfold advance; simpl; by rewrite Hdd).
  eapply runs_mono.
  { apply (udp_on_received_runs _ conn cc q (Some l) p (advance 8 c :: cs)); [exact Hconn|done|done| |exact Hgd1|lia].
    apply (heap_ok_advance (w_store w) p c cs); done. }
  intros [] w' Hrec. change (store_of _) with s1 in Hrec.
  unfold received in Hrec. change (memory_left (store_of _)) with (memory_left (w_store w)) in Hrec. unfold arrived.
  destruct (memory_left (w_store w)).
  2: { destruct Hrec as (s' & -> & Hpb & Hok' & _). split; [exact Hok'|]. split; [done|]. change (is_Some (pbufs s' !! c_loc c)). rewrite Hpb. simpl.
    rewrite lookup_insert_eq. by eexists. }
  destruct Hrec as (s' & r & cs' & rx & -> & [] & Hrx').
  split; [exact pp_heap|]. exists r, cs', rx. rewrite Hb1 in pp_bytes. by split_and!.
Qed.

Lemma ip_input_runs w p c cs h sport dport len chk data conn cc l q :
  udp_packet w p c cs h sport dport len chk data → listening w conn cc l q →
  heap_ok (w_store w) → zlen q < PBUF_QUEUE_LENGTH →
  runs (ip_input tcp_input other_recv p) w (λ e w', e = ERR_OK ∧ arrived w w' conn cc q (datagram h sport dport) data c).
Proof.
  intros [Hgd (opts & d & Hd & Hhl & ->) Hh Hu8 Hproto Hlen Hacc (Hsp & Hdp & Hchk) Hok] Hls Hheap Hroom.
  pose proof (gd_packet _ _ _ Hgd) as Hpk. pose proof (packet_size _ _ _ Hpk) as Hsz. pose proof (zlen_nonneg opts).
  set (iw := w_ip w) in *. assert (part_set (P := ipstate) iw w = w) as Hw by by destruct w as [[[]] ? ? ?].
  assert (Forall is_u8 (c_data c)) as Hu8c by (rewrite bytes_cons in Hu8; by apply Forall_app in Hu8 as [? _]).
  assert (known (h_proto h) = true) as Hk by by rewrite Hproto.
  pose proof (ip4_input_calls w iw p c cs h (opts ++ udp_header sport dport len chk ++ d)) as Hcalls.
  specialize (Hcalls Hpk ltac:(by rewrite Hd, <- app_assoc) Hh Hu8c Hlen Hk). cbv zeta in Hcalls.
  rewrite Hacc, Hw in Hcalls. eapply calls_runs; [exact Hcalls|].
  intros w1 (s1 & -> & Hs1 & Hpk1). unfold handle. rewrite Hproto. clear Hcalls Hw.
  set (ipd := mk_ip_globals _ _ _ _ _ _). set (iw1 := setter ip_data (λ _, ipd) _).
  change (part_set iw1 w) with (set_w_ip iw1 w). change (upper IP_PROTO_UDP p) with (udp_input p).
  destruct (hdr_len_range h (proj1 Hh)) as [Hhl0 _]. assert (zlen (c_data c) = hdr_len h + 8 + zlen d) as Hdl.
  { rewrite Hd, !zlen_app, Hhl. change (zlen (ip_hdr_bytes h)) with 20. change (zlen (udp_header _ _ _ _)) with 8. lia. }
  pose proof (zlen_nonneg d).
  assert (c_data (advance (hdr_len h) c) = udp_header sport dport len chk ++ d) as Hd1.
  { unfold advance. simpl. assert (zlen (ip_hdr_bytes h ++ opts) = hdr_len h) as Hz1 by (rewrite zlen_app, Hhl; done).
    rewrite Hd, <- Hz1, zdrop_app_ge, Z.sub_diag by lia. apply zdrop_0. }
  assert (good s1 p (advance (hdr_len h) c :: cs)) as Hgd1.
  { rewrite Hs1. apply (good_advance (ip_store iw)); [exact Hgd|lia|]. rewrite <- Hs1. exact Hpk1. }
  assert (total (advance (hdr_len h) c :: cs) = total (c :: cs) - hdr_len h) as Ht.
  { rewrite !total_cons, Hd1, zlen_app. change (zlen (udp_header _ _ _ _)) with 8. lia. }
  destruct Hls as [Hpcbs Hpcb Hconn Hopen Hrx]. destruct Hh as (_ & _ & _ & Hsrc & Hdst).
  apply runs_bind. eapply runs_mono.
  { apply (udp_input_runs (set_w_ip iw1 w) p (advance (hdr_len h) c) cs sport dport len chk d conn cc l q); try done.
    - rewrite bytes_cons, Hd1. rewrite bytes_cons, Hd in Hu8. apply Forall_app in Hu8 as [[_ Hu8]%Forall_app ?].
      by apply Forall_app.
    - change (rd8 s1 (pb_payload (c_pbuf c)) 9 = Val IP_PROTO_UDP). rewrite <- Hproto.
      pose proof (packet_hdr _ _ _ _ _ (opts ++ udp_header sport dport len chk ++ d) Hpk ltac:(by rewrite Hd, <- app_assoc)) as Hat.
      rewrite <- (at_proto _ _ _ Hat). unfold rd8. erewrite mem_read_ext; [done|]. by rewrite Hs1.
    - change (heap_ok s1). rewrite Hs1. by apply (heap_ok_advance (ip_store iw) p c cs).
    - rewrite Ht. lia. }
  intros [] w2 [Hh2 Ha]. apply runs_bind, runs_lift, runs_modify, runs_ret. split; [done|]. unfold arrived in *.
  change (memory_left (w_store (set_w_ip iw1 w))) with (memory_left s1) in Ha.
  assert (memory_left s1 = memory_left (w_store w)) as Hml by (by rewrite Hs1). rewrite Hml in Ha.
  by destruct w2 as [[[[]]]].
Qed.

(** ... and so to the application. *)
Lemma inject_runs w p c cs h sport dport len chk data conn cc l q :
  udp_packet w p c cs h sport dport len chk data → listening w conn cc l q →
  heap_ok (w_store w) → zlen q < PBUF_QUEUE_LENGTH →
  runs (global_interface_inject_packet (ip_input tcp_input other_recv) p) w (λ _ w',
    arrived w w' conn cc q (datagram h sport dport) data c).
Proof.
  intros Hup Hls Hok Hroom. pose proof (good_at _ _ _ (up_good _ _ _ _ _ _ _ _ _ _ Hup)) as Hp. destruct p as [p|]; [|done].
  apply runs_bind. eapply runs_mono; [by eapply ip_input_runs|]. intros e w' [-> Ha]. by apply runs_ret.
Qed.

(** Taking the packet out. *)
Lemma udp_conn_recv_runs (cw : cstate) conn cc r q cs m data metadata buffer size :
  c_conns cw !! conn = Some cc → holds (conn_rx cc) (Some r :: q) → good (store_of cw) (Some r) cs →
  bytes cs = metadata_bytes m ++ data → zlen metadata = 12 → 0 ≤ size < 2 ^ 31 → size ≤ zlen buffer → heap_ok (store_of cw) →
  runs (udp_conn_recv conn metadata buffer size) cw (λ x cw', heap_ok (store_of cw') ∧
    x = Some (if zlen data <=? size then (zlen data, metadata_bytes m, data ++ zdrop (zlen data) buffer) else (-1, metadata, buffer)) ∧
    ∃ rx, holds rx q ∧ c_conns cw' = <[conn := cc <| conn_rx := rx |>]> (c_conns cw)).
Proof.
  intros Hc Hq Hgd Hb Hmd Hsz Hbuf Hok. destruct (recv_wait_cons _ (bool_decide (conn_pcb cc = None)) _ _ Hq) as (rx & Hrx & Hq').
  apply runs_bind, runs_bind. eapply runs_ask; [unfold get_conn; by rewrite Hc|]. cbn [deref].
  apply runs_bind. eapply runs_ask; [done|]. apply runs_bind, runs_modify, runs_ret.
  apply runs_bind, runs_cst. eapply runs_mono; [by eapply (udp_conn_recv_finish_spec _ (Some r) cs)|].
  intros x s' (-> & _ & Hk & _). apply runs_ret. split; [by apply Hk|]. split; [done|]. by exists rx.
Qed.

(** C1: a datagram's way to the application.  When the link injects an acceptable
    UDP packet (any legal IP options, any number of further pbufs), [conn] is the
    listening connection and its queue is empty, then a [udp_conn_recv] with room
    for the data returns the data's length, and stores exactly the data, and a
    [struct udp_metadata_t] of exactly the addresses and ports of the two headers;
    with less room it returns -1 and stores nothing.  It takes one block of
    memory, for the metadata.  Exactly when the C library refuses that block the
    call finds nothing and waits, the connections are as before, and the packet,
    which nobody got, is still allocated. *)
Theorem udp_rx_end_to_end w p c cs h sport dport len chk data conn cc l metadata buffer size :
  udp_packet w p c cs h sport dport len chk data → listening w conn cc l [] → heap_ok (w_store w) →
  zlen metadata = 12 → 0 ≤ size < 2 ^ 31 → size ≤ zlen buffer →
  runs (do! global_interface_inject_packet (ip_input tcp_input other_recv) p;
        lift (P := cstate) (udp_conn_recv conn metadata buffer size)) w (λ r w', heap_ok (w_store w') ∧
    if memory_left (w_store w)
    then r = Some (if zlen data <=? size
                   then (zlen data, metadata_bytes (datagram h sport dport), data ++ zdrop (zlen data) buffer)
                   else (-1, metadata, buffer))
    else r = None ∧ leaked w w' c).
Proof.
  intros Hup Hls Hok Hmd Hsz Hbuf. apply runs_bind. eapply runs_mono; [by eapply inject_runs|].
  intros [] w1 [Hok1 Ha]. destruct (memory_left (w_store w)).
  - destruct Ha as (r & cs' & rx & Hgd & Hb & Hrx & Hconns). apply runs_lift. eapply runs_mono.
    { apply (udp_conn_recv_runs (w_conn w1) conn (cc <| conn_rx := rx |>) r [] cs' (datagram h sport dport) data); try done.
      rewrite Hconns. apply lookup_insert_eq. }
    intros x cw' (Hok' & -> & _). split; [exact Hok'|done].
  - destruct Ha as [Hconns Hp]. apply runs_lift. destruct Hls as [_ _ Hconn Hopen Hrx]. apply runs_bind, runs_bind. eapply runs_ask.
    { unfold get_conn. change (c_conns (part_get w1)) with (c_conns (w_conn w1)). by rewrite Hconns, Hconn. }
    cbn [deref]. apply runs_bind. eapply runs_ask; [by apply recv_wait_empty|]. rewrite bool_decide_eq_false_2 by by rewrite Hopen.
    apply runs_bind, runs_modify, runs_ret, runs_ret. split; [exact Hok1|]. split; [done|]. split; [|exact Hp].
    simpl. rewrite Hconns. apply insert_id. rewrite Hconn. f_equal. by destruct cc.
Qed.
End rx.

(** ** Listening *)

Lemma runs_malloc_ok n s (Q : option loc → store → Prop) :
  mallocs s = [] → (∀ d, Q (Some (next_loc s)) (grown d s)) → runs (malloc n) s Q.
Proof.
  intros Hm HQ. unfold runs, malloc. rewrite Hm. replace (alloc_block n [] s) with (grown (fit n []) s); [done|].
  unfold grown, alloc_block. rewrite Hm. by destruct s; simpl in *; subst.
Qed.

Definition fresh_udp (cw : cstate) : Prop :=
  mallocs (store_of cw) = [] ∧ heap_ok (store_of cw) ∧
  ∀ a, (next_loc (store_of cw) ≤ a)%positive → udp_mem (c_udp cw) !! a = None.

Lemma udp_new_runs (cw : cstate) (Q : option loc → cstate → Prop) :
  fresh_udp cw →
  (∀ d, let l := next_loc (store_of cw) in
     let u := set_store (c_udp cw) (grown d (store_of cw)) in
     let cw' := cw <| c_udp := u <| udp_mem := <[l := new_pcb]> (udp_mem u) |> |> in
     udp_mem (c_udp cw) !! l = None → heap_ok (store_of cw') → Q (Some l) cw') →
  runs (lift (P := ustate) udp_new) cw Q.
Proof.
  intros (Hm & Hok & Hf) HQ. apply (runs_lift (P := ustate)). unfold udp_new.
  apply runs_bind, (runs_lift (P := ipstate)), (runs_lift (P := store)). apply runs_malloc_ok; [exact Hm|].
  intros d. apply runs_bind, runs_modify, runs_ret. apply HQ; [apply Hf; lia|]. by apply heap_ok_grown.
Qed.

Lemma udp_bind_first u l c0 :
  udp_pcbs u = [] → udp_mem u !! l = Some c0 →
  runs (udp_bind (Some l) (Some IPADDR_ANY) UDP_ACCEPT_ANY_PORT) u (λ e u', e = ERR_OK ∧
    u' = u <| udp_mem := <[l := c0 <| local_ip := IPADDR_ANY |> <| local_port := UDP_ACCEPT_ANY_PORT |>]> (udp_mem u) |>
           <| udp_pcbs := [l] |>).
Proof.
  intros Hp Hl. unfold udp_bind. apply runs_bind, runs_ret. apply runs_bind, runs_bind, runs_gets. rewrite Hp.
  apply runs_bind. eapply runs_ask; [done|]. apply runs_ret. apply runs_bind. unfold udp_bind_port.
  change (UDP_ACCEPT_ANY_PORT =? 0) with false. cbv iota. apply runs_bind, runs_gets. rewrite Hp.
  apply runs_bind. eapply runs_ask; [done|]. apply runs_ret. change (UDP_ACCEPT_ANY_PORT =? 0) with false. cbv iota.
  apply runs_bind, runs_bind. eapply runs_ask; [unfold get_pcb; by rewrite Hl|]. cbn [deref].
  unfold runs at 1, set_pcb. rewrite Hl. rewrite bool_decide_eq_false_2 by (intros H; by apply H).
  apply runs_bind, runs_modify, runs_ret. split; [done|]. simpl. by rewrite Hp.
Qed.

Lemma udp_bind_taken u l l0 cb :
  udp_pcbs u = [l0] → udp_mem u !! l0 = Some cb → local_port cb = UDP_ACCEPT_ANY_PORT → local_ip cb = 0 → l ≠ l0 →
  runs (udp_bind (Some l) (Some IPADDR_ANY) UDP_ACCEPT_ANY_PORT) u (λ e u', e = ERR_USE ∧ u' = u).
Proof.
  intros Hp Hl0 Hlp Hlip Hne. unfold udp_bind. apply runs_bind, runs_ret. apply runs_bind, runs_bind, runs_gets. rewrite Hp.
  apply runs_bind. eapply runs_ask.
  { cbn [find_pcb]. unfold get_pcb. rewrite Hl0. cbn [deref rbind]. by rewrite bool_decide_eq_false_2 by done. }
  apply runs_ret. apply runs_bind. unfold udp_bind_port.
  change (UDP_ACCEPT_ANY_PORT =? 0) with false. cbv iota. apply runs_bind, runs_gets. rewrite Hp.
  apply runs_bind. eapply runs_ask.
  { cbn [find_pcb]. unfold get_pcb. rewrite Hl0. cbn [deref rbind]. rewrite Hlp, Hlip, bool_decide_eq_true_2 by done. done. }
  apply runs_ret. by apply runs_ret.
Qed.

Lemma runs_update_pcb u l c f (Q : unit → ustate → Prop) :
  udp_mem u !! l = Some c → Q tt (u <| udp_mem := <[l := f c]> (udp_mem u) |>) → runs (update_pcb l f) u Q.
Proof.
  intros Hc HQ. apply runs_bind. eapply runs_ask; [unfold get_pcb; by rewrite Hc|]. unfold runs, set_pcb. by rewrite Hc.
Qed.

Lemma udp_conn_listen_runs w :
  udp_pcbs (w_udp w) = [] → fresh_udp (w_conn w) →
  runs (lift (P := cstate) udp_conn_listen) w (λ r w1, ∃ conn cc l, r = Some conn ∧ listening w1 conn cc l [] ∧
    fresh_udp (w_conn w1)).
Proof.
  intros Hpcbs Hfresh. apply runs_lift. unfold udp_conn_listen. apply runs_bind, udp_new_runs; [done|].
  intros d l u cw1 Hnone Hok1. destruct Hfresh as (Hm & Hok & Hf).
  apply runs_bind, (runs_lift (P := ustate)). eapply runs_mono; [apply (udp_bind_first _ l new_pcb); [done|simpl; apply lookup_insert_eq]|].
  intros e u2 [-> Hu2]. change (negb (is_ok ERR_OK)) with false. cbv iota.
  set (cw2 := part_set u2 cw1).
  assert (store_of cw2 = grown d (store_of (w_conn w))) as Hst by (unfold cw2; by rewrite Hu2).
  assert (mallocs (store_of cw2) = []) as Hm2 by (rewrite Hst; unfold grown; simpl; by rewrite Hm).
  apply runs_bind, runs_cst, runs_malloc_ok; [exact Hm2|]. intros d2.
  set (conn := next_loc (store_of cw2)). set (cw3 := set_cstore cw2 _).
  assert (udp_mem (c_udp cw3) !! l = Some (new_pcb <| local_ip := IPADDR_ANY |> <| local_port := UDP_ACCEPT_ANY_PORT |>)) as Hl3.
  { unfold cw3, cw2. rewrite Hu2. simpl. apply lookup_insert_eq. }
  apply runs_bind, (runs_lift (P := ustate)). unfold udp_bind_netif. apply runs_bind, runs_gets, runs_bind.
  eapply runs_ask; [done|]. cbn [deref].
  eapply runs_update_pcb; [exact Hl3|]. apply runs_bind, (runs_lift (P := ustate)). unfold udp_recv.
  apply runs_bind, runs_ret. eapply runs_update_pcb; [simpl; apply lookup_insert_eq|].
  apply runs_bind, runs_modify, runs_ret.
  exists conn, (mk_udp_conn (Some l) zeroed_queue zeroed_queue false), l. split; [done|]. split.
  - split; try done.
    + unfold cw3, cw2. rewrite Hu2. done.
    + eexists. split; [simpl; apply lookup_insert_eq|]. unfold cw3, cw2. rewrite Hu2. by split_and!.
    + simpl. apply lookup_insert_eq.
    + apply holds_zeroed.
  - assert (∀ d, mallocs (grown d (store_of cw2)) = []) as Hm3 by (intros d'; unfold grown; simpl; by rewrite Hm2).
    split_and!; [apply Hm3| |].
    + apply (heap_ok_grown d2). unfold cw2. rewrite Hu2. exact Hok1.
    + intros a Ha. change (next_loc (grown d2 (store_of cw2)) ≤ a)%positive in Ha. change (Pos.succ (next_loc (store_of cw2)) ≤ a)%positive in Ha.
      rewrite Hst in Ha. change (Pos.succ (Pos.succ l) ≤ a)%positive in Ha. unfold cw3, cw2. rewrite Hu2. simpl.
      assert (l ≠ a ∧ (l ≤ a)%positive) as [Hla Hle] by (clearbody l; lia).
      rewrite !lookup_insert_ne by exact Hla. apply Hf, Hle.
Qed.

Lemma udp_conn_listen_again w conn cc l :
  listening w conn cc l [] → fresh_udp (w_conn w) →
  runs (lift (P := cstate) udp_conn_listen) w (λ r w1, r = None ∧ listening w1 conn cc l []).
Proof.
  intros [Hpcbs (cb & Hcb & Hlip & Hlp & Hidx & Hfl & Hrecv & Harg) Hconn Hopen Hrx] Hfresh.
  apply runs_lift. unfold udp_conn_listen. apply runs_bind, udp_new_runs; [done|].
  intros d l1 u cw1 Hnone Hok1. assert (l1 ≠ l) as Hne by (intros ->; unfold w_udp in Hcb; simpl in Hnone; unfold w_udp in *; congruence).
  apply runs_bind, (runs_lift (P := ustate)).
  eapply runs_mono; [apply (udp_bind_taken _ l1 l cb); [exact Hpcbs|simpl; by rewrite lookup_insert_ne|done|done|done]|].
  intros e u2 [-> ->]. change (negb (is_ok ERR_USE)) with true. cbv iota.
  apply runs_bind, (runs_lift (P := ustate)). unfold udp_remove. apply runs_bind, runs_ret, runs_bind.
  eapply runs_ask; [unfold get_pcb; simpl; by rewrite lookup_insert_eq|].
  apply runs_bind, runs_modify. apply runs_bind, (runs_lift (P := ipstate)), (runs_lift (P := store)).
  unfold memp_free, mem_free, runs at 1, free. simpl. rewrite lookup_insert_eq. apply runs_modify, runs_ret. split; [done|].
  split; try done.
  - unfold w_udp. simpl. change (unlink_pcb l1 (udp_pcbs (w_udp w)) = [l]). rewrite Hpcbs. simpl.
    by rewrite decide_False by congruence.
  - exists cb. split; [|done]. unfold w_udp. simpl. by rewrite lookup_delete_ne, lookup_insert_ne by done.
Qed.

(** The one listener.  With no UDP block in use and memory to be had,
    [udp_conn_listen] returns a connection that gets the packets to every address
    and port ([listening]); and while it is there, another call returns null and
    leaves it as it is. *)
Theorem udp_conn_listen_spec w :
  udp_pcbs (w_udp w) = [] → fresh_udp (w_conn w) →
  runs (lift (P := cstate) udp_conn_listen) w (λ r w1, ∃ conn cc l, r = Some conn ∧ listening w1 conn cc l [] ∧
    runs (lift (P := cstate) udp_conn_listen) w1 (λ r w2, r = None ∧ listening w2 conn cc l [])).
Proof.
  intros Hp Hf. eapply runs_mono; [by apply udp_conn_listen_runs|].
  intros r w1 (conn & cc & l & -> & Hl & Hf1). exists conn, cc, l. split; [done|]. split; [done|].
  by apply udp_conn_listen_again.
Qed.

(** ** Runs *)

Definition ex_blank : world :=
  mk_world (mk_cstate (mk_ustate (mk_ipstate (init_store []) (mk_netif 0 0 0 1500 5 0) true no_packet 0) 50000 [] ∅ 0 0) ∅) ∅ None None.

Lemma udp_conn_listen_spec_witness : ∃ w1 w2,
  lift (P := cstate) udp_conn_listen ex_blank = Val (Some 2%positive, w1) ∧
  lift (P := cstate) udp_conn_listen w1 = Val (None, w2).
Proof.
  pose proof (udp_conn_listen_spec ex_blank eq_refl) as H.
  assert (fresh_udp (w_conn ex_blank)) as Hf by (split_and!; [reflexivity|intros l Hl; by split_and!|done]).
  destruct (runs_inv _ _ _ (H Hf)) as (r & w1 & Hrun & conn & cc & l & -> & _ & Hagain).
  destruct (runs_inv _ _ _ Hagain) as (r & w2 & Hrun2 & -> & _). exists w1, w2. split; [|exact Hrun2].
  rewrite Hrun. f_equal. f_equal. f_equal. vm_compute in Hrun. congruence.
Defined.

(** The UDP packet of [UdpInput] behind its IP header, for a listener. *)
Definition ex_rx_hdr : ip_hdr := mk_ip_hdr 69 0 30 7 0 64 17 102 196 33554698 16777482.
Definition ex_rx_cell : cell :=
  mk_cell 1 (mk_pbuf None (Some (mk_ptr 1 24)) 30 30 130 0 1 0) (ip_hdr_bytes ex_rx_hdr ++ udp_header 5353 53 10 0 ++ [8; 9]).
Definition ex_rx_world : world :=
  mk_world (mk_cstate (mk_ustate (mk_ipstate
      (mk_store {[1%positive := c_pbuf ex_rx_cell]} {[1%positive := replicate 24 0 ++ c_data ex_rx_cell]} 10 [] ∅ sys_mbox_new false)
      (mk_netif 0 0 0 1500 5 0) true no_packet 0) 50000 [2%positive] {[2%positive := ex_listener]} 0 0)
    {[9%positive := mk_udp_conn (Some 2%positive) zeroed_queue zeroed_queue false]}) ∅ None None.

Lemma ex_rx_packet : udp_packet ex_rx_world (Some 1%positive) ex_rx_cell [] ex_rx_hdr 5353 53 10 0 [8; 9].
Proof.
  split.
  - split; [split; [done|done|done|by repeat constructor]| | |discriminate].
    + apply Forall_singleton. by exists 24.
    + apply Forall_singleton. split; [by vm_compute; repeat constructor|by eexists].
  - exists [], [8; 9]. by split_and!.
  - by split_and!.
  - repeat (apply Forall_cons_2; [by vm_compute|]). apply Forall_nil_2.
  - reflexivity.
  - by vm_compute.
  - vm_compute. reflexivity.
  - split_and!; by vm_compute.
  - vm_compute. reflexivity.
Qed.

Lemma ex_rx_listening :
  listening ex_rx_world 9 (mk_udp_conn (Some 2%positive) zeroed_queue zeroed_queue false) 2 [].
Proof.
  split; [reflexivity| |reflexivity|reflexivity|apply holds_zeroed].
  exists ex_listener. split; [reflexivity|]. split_and!; reflexivity.
Qed.

Lemma ex_rx_heap : heap_ok (w_store ex_rx_world).
Proof. intros l Hl. simpl in *. rewrite !lookup_singleton_ne by lia. done. Qed.

Lemma udp_rx_end_to_end_witness :
  runs (do! global_interface_inject_packet (ip_input (λ _, ret tt) (λ _ _ _ _ _ _, ret tt)) (Some 1%positive);
        lift (P := cstate) (udp_conn_recv 9 (replicate 12 0) [0; 0; 0; 0] 4)) ex_rx_world (λ r w',
    heap_ok (w_store w') ∧ r = Some (2, [10; 1; 0; 2; 10; 1; 0; 1; 233; 20; 53; 0], [8; 9; 0; 0])).
Proof.
  eapply runs_mono.
  { apply (udp_rx_end_to_end (λ _, ret tt) (λ _ _ _ _ _ _, ret tt) ex_rx_world (Some 1%positive) ex_rx_cell [] ex_rx_hdr
      5353 53 10 0 [8; 9] 9 (mk_udp_conn (Some 2%positive) zeroed_queue zeroed_queue false) 2).
    - exact ex_rx_packet.
    - exact ex_rx_listening.
    - exact ex_rx_heap.
    - reflexivity.
    - lia.
    - done. }
  intros r w' [Hok Hr]. split; [exact Hok|]. exact Hr.
Defined.
