(* ===== verification/WorldTx.v ===== *)
(** * A datagram's way from the application

    From [udp_conn_sendto] by way of [tcpip_thread] through UDP and IPv4 into
    the link's queue, and out of it by [link_read]. *)

From S2P Require Import Prelude Mbox Heap HeapFacts Pbuf PbufData Packet PbufFacts PbufAlloc PbufChain Queues Link LinkFacts.
From S2P Require Import Def Chksum Addr Header Ip4 Ip4Facts Ip4InFacts Udp UdpBind UdpInput UdpOutput Icmp UdpConn UdpConnFacts World.

Implicit Types w : world.

(** The link is attached, with [q] waiting for the application. *)
Record attached w (ctx : loc) (lk : link_t) (q : list (option loc)) : Prop := {
  at_func : w_output_func w = Some If_output;
  at_ctx : w_output_context w = Some ctx;
  at_link : w_links w !! ctx = Some lk;
  at_rx : holds (l_rx lk) q
}.

Definition with_link w (ctx : loc) (lk : link_t) : world := w <| w_links := <[ctx := lk]> (w_links w) |>.
Definition set_w_store w (s : store) : world := set_w_ip ((w_ip w) <| ip_store := s |>) w.

Lemma runs_wst {A} (m : M store A) w (Q : A → world → Prop) :
  runs m (w_store w) (λ a s', Q a (set_w_store w s')) →
  runs (lift (P := ustate) (lift (P := ipstate) (lift (P := store) m))) w Q.
Proof. intros H. apply (runs_lift (P := ustate)), (runs_lift (P := ipstate)), (runs_lift (P := store)). exact H. Qed.

(** Counting a reference and giving it back. *)
Lemma pbuf_free_shared s l q :
  pbufs s !! l = Some q → 2 ≤ pb_ref q < 256 →
  runs (pbuf_free (Some l)) s (λ _ s', s' = s <| pbufs := <[l := q <| pb_ref := pb_ref q - 1 |>]> (pbufs s) |>).
Proof.
  intros Hl Hr. unfold pbuf_free, chain_fuel. change (runs (pbuf_free_loop (S (size (pbufs s))) (Some l) 0) s
    (λ _ s', s' = s <| pbufs := <[l := q <| pb_ref := pb_ref q - 1 |>]> (pbufs s) |>)). cbn [pbuf_free_loop].
  apply runs_bind. eapply runs_get_pbuf; [exact Hl|]. apply runs_bind, runs_assert; [apply Z.ltb_lt; lia|].
  rewrite u8_small by (bounds; lia). apply runs_bind. eapply runs_set_pbuf; [exact Hl|].
  rewrite (proj2 (Z.eqb_neq _ _)) by lia. by apply runs_ret.
Qed.

Lemma pbuf_ref_runs s l q :
  pbufs s !! l = Some q → 0 < pb_ref q + 1 < 256 →
  runs (pbuf_ref (Some l)) s (λ _ s', s' = s <| pbufs := <[l := q <| pb_ref := pb_ref q + 1 |>]> (pbufs s) |>).
Proof.
  intros Hl Hr. apply runs_bind. eapply runs_update_pbuf; [exact Hl|]. rewrite u8_small by (bounds; lia).
  apply runs_bind. eapply runs_get_pbuf; [simpl; apply lookup_insert_eq|]. apply runs_assert; [|done].
  apply Z.ltb_lt. simpl. lia.
Qed.

(** The driver takes a reference and queues the packet; the caller gives its own
    reference back. *)
Lemma transmit_runs w l q dst ctx lk fifo :
  attached w ctx lk fifo → zlen fifo < PBUF_QUEUE_LENGTH → pbufs (w_store w) !! l = Some q → pb_ref q = 1 →
  runs (do! (let! _ := netif_output (Some l) dst in ret tt);
        let! _ := lift (P := ustate) (lift (P := ipstate) (lift (P := store) (pbuf_free (Some l)))) in ret tt) w
    (λ _ w', w' = with_link w ctx (lk <| l_rx := stored (l_rx lk) (Some l) |>)).
Proof.
  intros [Hf Hc Hl Hrx] Hroom Hq Href. apply runs_bind, runs_bind. cbn [netif_output world_driver].
  apply runs_lift. unfold global_if_output. apply runs_bind, runs_gets. change (lw_output_func (part_get w)) with (w_output_func w).
  rewrite Hf. apply runs_bind, runs_lift. eapply runs_mono; [apply (pbuf_ref_runs _ l q Hq); lia|]. intros [] s1 ->.
  apply runs_bind, runs_gets. change (lw_output_context (part_set _ (part_get w))) with (w_output_context w). rewrite Hc.
  apply runs_bind. unfold if_output. apply runs_bind. eapply runs_ask; [done|].
  apply runs_bind. eapply runs_ask; [unfold get_link; simpl; by rewrite Hl|]. cbn [deref].
  apply runs_bind, runs_lift, runs_bind, runs_bind. eapply runs_eq; [by eapply append_one_room|]. apply runs_ret, runs_ret, runs_modify.
  apply runs_ret, runs_ret. apply runs_bind, runs_wst.
  set (q1 := q <| pb_ref := pb_ref q + 1 |>).
  match goal with |- runs _ (w_store ?x) _ => set (w1 := x) end.
  assert (w_store w1 = (w_store w) <| pbufs := <[l := q1]> (pbufs (w_store w)) |>) as Hs1 by done.
  eapply runs_mono.
  { apply (pbuf_free_shared _ l q1); [rewrite Hs1; simpl; apply lookup_insert_eq|simpl; lia]. }
  intros n s' ->. apply runs_ret. rewrite Hs1. simpl. rewrite insert_insert_eq, insert_id.
  - by destruct w as [[[[[] [] ? ? ?] ? ? ? ? ?] ?] ? ? ?].
  - rewrite Hq. f_equal. destruct q. unfold q1, setter. simpl in *. f_equal. lia.
Qed.

(** ** The poll *)

(** A block [udp_conn_listen] made, or one like it. *)
Record sender (cb : udp_pcb) : Prop := {
  sd_flags : pcb_flags cb = 0;
  sd_ttl : is_u8 (pcb_ttl cb);
  sd_tos : is_u8 (pcb_tos cb);
  sd_port : local_port cb ≠ 0 ∧ is_u16 (local_port cb)
}.

Definition source_port (m : udp_metadata_t) (cb : udp_pcb) : Z :=
  if src_port m =? 0 then local_port cb else src_port m.

(** The IPv4 packet for [data]. *)
Definition ip_datagram (m : udp_metadata_t) (cb : udp_pcb) (id chk ipchk : Z) (data : list Z) : list Z :=
  let len := 8 + zlen data in
  ip_header (pcb_tos cb) (len + 20) id (pcb_ttl cb) IP_PROTO_UDP ipchk (src_addr m) (dst_addr m) ++
  udp_header (source_port m cb) (dst_port m) len chk ++ data.

(** Both its checksums are right: the header's words sum to 65535, and UDP's sum
    with the pseudo header does. *)
Definition checksums_right (m : udp_metadata_t) (cb : udp_pcb) (id chk ipchk : Z) (data : list Z) : Prop :=
  let len := 8 + zlen data in
  ones (word_sum (ip_header (pcb_tos cb) (len + 20) id (pcb_ttl cb) IP_PROTO_UDP ipchk (src_addr m) (dst_addr m))) = 65535 ∧
  chk ≠ 0 ∧
  chksum_ok (src_addr m) (dst_addr m) chk (udp_header (source_port m cb) (dst_port m) len chk ++ data) = true.

Lemma header_sum s p c cs h rest :
  packet s p (c :: cs) → c_data c = h ++ rest → zlen h = 20 → Forall is_u8 h →
  inet_chksum s (pb_payload (c_pbuf c)) 20 = Val 0 → ones (word_sum h) = 65535.
Proof.
  intros Hpk Hd Hl Hu Hs. pose proof (packet_payload _ _ _ _ Hpk) as Hrd. rewrite Hd in Hrd.
  pose proof (zlen_nonneg rest).
  rewrite (inet_chksum_bytes _ _ _ h) in Hs; [injection Hs; lia| |done|lia].
  rewrite (mem_read_sub _ _ _ _ 0 20 Hrd eq_refl) by (rewrite ?zlen_app; lia).
  f_equal. unfold zslice. rewrite zdrop_0, <- Hl. apply ztake_app_exact.
Qed.

(** A packet in the link's queue for [data]. *)
Definition wire_packet s (r : loc) (c : cell) (m : udp_metadata_t) (cb : udp_pcb) (id : Z) (data : list Z) : Prop :=
  good s (Some r) [c] ∧ ∃ chk ipchk,
    c_data c = ip_datagram m cb id chk ipchk data ∧
    checksums_right m cb id chk ipchk data.

Section tx.
Variable tcp_input : option loc → M world unit.
Variable pbuf_free_ooseq : M world unit.
Variable other_recv : positive → option loc → loc → option loc → Z → Z → M world unit.
#[local] Instance env : udp_env world := world_udp_env other_recv.

Lemma packet_block s p c cs o :
  packet s p (c :: cs) → pb_payload (c_pbuf c) = Some (mk_ptr (c_loc c) o) → c_data c ≠ [] → is_Some (blocks s !! c_loc c).
Proof.
  intros Hpk Ho Hd. pose proof (packet_payload _ _ _ _ Hpk) as Hrd. rewrite Ho in Hrd.
  apply mem_read_inv in Hrd as (a & b & [= <-] & Hb & _); [by eexists|]. intros Hz. by apply Hd, zlen_0_nil.
Qed.

Lemma udp_poll_one_runs w conn cc l cb r c m data ctx lk fifo :
  c_conns (w_conn w) !! conn = Some cc → conn_pcb cc = Some l → udp_mem (c_udp (w_conn w)) !! l = Some cb → sender cb →
  packet (w_store w) (Some r) [c] → c_data c = metadata_bytes m ++ data → metadata_ok m → Forall is_u8 data →
  pb_payload (c_pbuf c) = Some (mk_ptr (c_loc c) 68) → pb_type_internal (c_pbuf c) = u8 (type_code PBUF_RAM) →
  pb_ref (c_pbuf c) = 1 → zlen data + 28 < 2 ^ 16 → is_u16 (ip_id (w_ip w)) →
  attached w ctx lk fifo → zlen fifo < PBUF_QUEUE_LENGTH →
  runs (udp_poll_one conn (Some r)) w (λ _ w', ∃ c',
    wire_packet (w_store w') r c' m cb (ip_id (w_ip w)) data ∧ outside [c_loc c] (w_store w) (w_store w') ∧
    attached w' ctx (lk <| l_rx := stored (l_rx lk) (Some r) |>) (fifo ++ [Some r]) ∧ c_conns (w_conn w') = c_conns (w_conn w) ∧
    c_loc c' = r).
Proof.
  intros Hcc Hpl Hcb [Hfl Httl Htos [Hp0 Hp16]] Hpk Hd Hm Hu8 Ho Hty Href Hz Hid Hat Hroom.
  pose proof (packet_seg _ _ _ Hpk) as ([= Hr] & _). pose proof Hm as (Hsa & Hda & Hsp & Hdp). pose proof (zlen_nonneg data).
  assert (source_port m cb ≠ 0 ∧ is_u16 (source_port m cb)) as [Hs0 Hs16].
  { unfold source_port. destruct (Z.eqb_spec (src_port m) 0); done. }
  eapply calls_runs.
  { apply (udp_poll_one_calls w conn cc l cb (Some r) c [] m data 68); try done.
    - rewrite Hty. by vm_compute.
    - rewrite total_nil. lia.
    - by rewrite app_nil_r.
    - rewrite total_nil. split; try done; unfold is_u8, is_u16 in *; try lia; by vm_compute.
    - by rewrite Hfl.
    - by rewrite Hfl. }
  intros w1 (s' & c' & chk & ipchk & Hw1 & Hpk' & (Hl' & (o' & Ho' & Hle') & Hty' & Href') & Hipchk & Hb' & Hsum & Hchk0 & Hchk & Hout).
  assert (w_store w1 = s') as Hs1 by by rewrite Hw1.
  assert (c_conns (w_conn w1) = c_conns (w_conn w)) as Hc1 by by rewrite Hw1.
  assert (bytes [advance 12 c] = data) as Hdata.
  { unfold bytes, advance. simpl. rewrite app_nil_r, Hd, zdrop_app_ge, zlen_metadata by (rewrite zlen_metadata; lia). apply zdrop_0. }
  rewrite Hdata in Hb', Hchk. unfold bytes in Hb' at 1. simpl in Hb'. rewrite app_nil_r in Hb'.
  rewrite Hr in *. simpl in Hl', Href', Hty', Hpk', Hout.
  eapply runs_mono.
  { apply (transmit_runs w1 (c_loc c) (c_pbuf c') (dst_addr m) ctx lk fifo); [|done| |congruence].
    - rewrite Hw1. destruct Hat. by split.
    - rewrite Hs1, <- Hl'. apply (lseg_head _ _ _ _ _ (packet_seg _ _ _ Hpk')). }
  intros [] w' ->. change (w_store (with_link w1 _ _)) with (w_store w1). rewrite Hs1. exists c'. split_and!; try done.
  - split.
    + split; [done|by apply Forall_singleton; exists o'| |done]. apply Forall_singleton.
      split; [unfold pbuf_get_allocsrc; rewrite Hty', Hty; by vm_compute; repeat constructor|].
      apply (packet_block s' _ c' [] o' Hpk' Ho'). by rewrite Hb'.
    + exists chk, ipchk. split; [exact Hb'|]. split; [|done].
      eapply (header_sum s' _ c' []); [exact Hpk'|exact Hb'|done| |exact Hsum]. apply ip_header_u8; [|done].
      split; try done; unfold is_u8, is_u16 in *; try lia; by vm_compute.
  - destruct Hout as [Ho1 Ho2 Ho3 Ho4]. split; [|exact Ho2|exact Ho3|exact Ho4].
    intros x Hx. rewrite Ho1 by done. simpl. apply lookup_insert_ne. intros <-. apply Hx. by left.
  - rewrite Hw1. destruct Hat. split; [done|done|simpl; apply lookup_insert_eq|by apply stored_room].
Qed.

(** ** The application's call *)

(** The allocation of the packet succeeds. *)
Definition room_for_packet (s : store) (size : Z) : bool := memory_left s && (size <=? 65472).

Lemma ram_fits_transport size : 0 ≤ size < 2 ^ 31 → ram_fits PBUF_TRANSPORT size = (size <=? 65472).
Proof.
  intros H. unfold ram_fits. rewrite (align_size_eq size) by done.
  change (LWIP_MEM_ALIGN_SIZE (u16 (layer_offset PBUF_TRANSPORT))) with 56. change (2 ^ 16) with 65536.
  destruct (Z.leb_spec size 65472); [apply Z.ltb_lt|apply Z.ltb_ge]; Z.div_mod_to_equations; lia.
Qed.

(** What [udp_conn_sendto] returning [n] has done on an idle connection: the packet
    is queued, and the result [e] of posting the message kept as the flag; nothing
    when the packet could not be allocated. *)
Definition sent_to (cw : cstate) (conn : loc) (cc : udp_conn_t) (metadata data : list Z) (size n : Z) (cw' : cstate) : Prop :=
  if room_for_packet (store_of cw) size then
    n = size ∧ ∃ r c s1 tx e, packed (store_of cw) s1 (Some r) c metadata data ∧ mallocs s1 = tl (mallocs (store_of cw)) ∧
      holds tx [Some r] ∧ posted Cb_udp_poll_tx (Some conn) s1 [] e (store_of cw') ∧ heap_ok (store_of cw') ∧
      cw' = set_cstore (cw <| c_conns := <[conn := cc <| conn_tx := tx |> <| conn_tx_polling := is_ok e |>]> (c_conns cw) |>)
              (store_of cw')
  else n = -1 ∧ no_leak (store_of cw) (store_of cw') ∧ tcpip_mbox (store_of cw') = tcpip_mbox (store_of cw) ∧
    cw' = set_cstore cw (store_of cw').

Lemma udp_conn_sendto_runs (cw : cstate) conn cc pl metadata buffer size :
  c_conns cw !! conn = Some cc → conn_pcb cc = Some pl → holds (conn_tx cc) [] → conn_tx_polling cc = false →
  heap_ok (store_of cw) → mbox_holds (store_of cw) [] → zlen metadata = 12 → 0 ≤ size < 2 ^ 16 - 12 → size ≤ zlen buffer →
  runs (udp_conn_sendto conn metadata buffer size) cw (sent_to cw conn cc metadata (ztake size buffer) size).
Proof.
  intros Hcc Hpl Htx Hpoll Hok [Hring Hcnt] Hmd Hsz Hbuf. apply runs_bind. eapply runs_ask; [unfold get_conn; by rewrite Hcc|].
  cbn [deref]. rewrite bool_decide_eq_false_2 by by rewrite Hpl. apply runs_bind, runs_cst.
  eapply runs_mono; [by apply udp_conn_pack_spec|]. unfold sent_to, room_for_packet.
  rewrite <- ram_fits_transport by (bounds; lia). intros [r|] s1 Hr.
  2: { apply runs_ret. destruct Hr as (? & ? & ->). by split_and!. }
  destruct Hr as (-> & Hml & c & Hpacked). pose proof (pk_built _ _ _ _ _ _ Hpacked) as Hbu. unfold udp_conn_sendto_section.
  apply runs_bind. eapply runs_ask; [unfold get_conn; simpl; by rewrite Hcc|]. cbn [deref].
  apply runs_bind, runs_cst, runs_bind, runs_bind. eapply runs_eq; [by eapply append_one_room|].
  apply runs_ret, runs_ret, runs_bind, runs_modify. apply runs_bind. rewrite Hpoll.
  apply runs_bind, runs_cst. set (cw1 := set_cstore cw s1). set (tx := stored (conn_tx cc) (Some r)).
  assert (holds tx [Some r]) as Htx' by (by apply (stored_room _ [])).
  eapply runs_mono; [apply (tcpip_try_callback_spec Cb_udp_poll_tx (Some conn) s1 [] (bu_heap _ _ _ _ Hbu))|].
  { unfold mbox_holds. by rewrite (bu_mbox _ _ _ _ Hbu). }
  intros e s2 [Hok2 Hpost]. destruct (is_ok e) eqn:He.
  - apply runs_bind. eapply runs_ask; [unfold get_conn; simpl; by rewrite lookup_insert_eq|]. cbn [deref].
    apply runs_modify, runs_ret. split; [done|]. exists r, c, s1, tx, e. split_and!; try done.
    unfold cw1, set_cstore. simpl. rewrite insert_insert_eq. by rewrite He.
  - apply runs_ret, runs_ret. split; [done|]. exists r, c, s1, tx, e. split_and!; try done.
    assert (cc <| conn_tx := tx |> <| conn_tx_polling := is_ok e |> = cc <| conn_tx := tx |>) as ->; [|done].
    rewrite He. destruct cc; simpl in *; by subst.
Qed.

(** ** The thread's turn *)

Abbreviation turn := (tcpip_thread_turn tcp_input pbuf_free_ooseq other_recv).

Lemma turn_empty w : Seq.ring (tcpip_mbox (w_store w)) [] → runs turn w (λ b w', b = false ∧ w' = w).
Proof.
  intros Hr. apply runs_bind, (runs_lift (P := lworld)), (runs_lift (P := store)). eapply runs_eq.
  { change (part_get (part_get w)) with (w_store w). by rewrite Seq.mbox_tryfetch_empty. }
  cbn [rbind]. apply runs_ret. split; [done|]. by destruct w as [[[[[] [] ? ? ?] ? ? ? ? ?] ?] ? ? ?].
Qed.

Definition sends w w' r m cb data ctx lk fifo : Prop :=
  ∃ c', wire_packet (w_store w') r c' m cb (ip_id (w_ip w)) data ∧
    attached w' ctx (lk <| l_rx := stored (l_rx lk) (Some r) |>) (fifo ++ [Some r]).

Lemma turn_poll w msg conn cc l cb r c m data ctx lk fifo :
  Seq.ring (tcpip_mbox (w_store w)) [msg] → tcpip_msgs (w_store w) !! msg = Some (mk_tcpip_msg Cb_udp_poll_tx (Some conn)) →
  is_Some (blocks (w_store w) !! msg) → msg ≠ r → holds (conn_tx cc) [Some r] →
  c_conns (w_conn w) !! conn = Some cc → conn_pcb cc = Some l → udp_mem (c_udp (w_conn w)) !! l = Some cb → sender cb →
  packet (w_store w) (Some r) [c] → c_data c = metadata_bytes m ++ data → metadata_ok m → Forall is_u8 data →
  pb_payload (c_pbuf c) = Some (mk_ptr (c_loc c) 68) → pb_type_internal (c_pbuf c) = u8 (type_code PBUF_RAM) →
  pb_ref (c_pbuf c) = 1 → zlen data + 28 < 2 ^ 16 → is_u16 (ip_id (w_ip w)) →
  attached w ctx lk fifo → zlen fifo < PBUF_QUEUE_LENGTH →
  runs turn w (λ b w', b = true ∧ sends w w' r m cb data ctx lk fifo).
Proof.
  intros Hring Hmsg Hblk Hne Htx Hcc Hpl Hcb Hsd Hpk Hd Hm Hu8 Ho Hty Href Hz Hid Hat Hroom.
  pose proof (packet_seg _ _ _ Hpk) as ([= Hr] & _).
  destruct (Seq.mbox_tryfetch_spec _ _ _ Hring) as (mb & Hf & _).
  apply runs_bind, (runs_lift (P := lworld)), (runs_lift (P := store)). eapply runs_eq.
  { change (part_get (part_get w)) with (w_store w). by rewrite Hf. }
  cbn [rbind]. match goal with |- runs _ ?x _ => set (w1 := x) end.
  assert (w_store w1 = (w_store w) <| tcpip_mbox := mb |>) as Hs1 by done.
  assert (attached w1 ctx lk fifo) as Hat1 by (destruct Hat; by split).
  apply runs_bind. unfold tcpip_thread_handle_msg. apply runs_bind. eapply runs_ask.
  { rewrite Hs1. simpl. by rewrite Hmsg. }
  cbn [deref]. apply runs_bind. unfold run_callback. cbn [cb_function cb_ctx]. apply runs_bind. eapply runs_ask; [done|]. cbn [deref].
  unfold udp_poll_tx. destruct (pop_loop_spec (Z.to_nat 32) _ _ [] Htx) as (tx & Hpop & _).
  apply runs_bind, (runs_lift (P := cstate)). unfold udp_poll_tx_section. apply runs_bind.
  eapply runs_ask; [unfold get_conn; simpl; by rewrite Hcc|]. cbn [deref].
  apply runs_bind. eapply runs_ask; [exact Hpop|]. apply runs_bind, runs_modify, runs_ret.
  match goal with |- runs _ ?x _ => set (w2 := x) end. cbn [udp_poll_all take app].
  apply runs_bind. eapply runs_mono.
  { apply (udp_poll_one_runs w2 conn (cc <| conn_tx_polling := false |> <| conn_tx := tx |>) l cb r c m data ctx lk fifo); try done.
    - unfold w2. simpl. apply lookup_insert_eq.
    - eapply packet_agree; [exact Hpk| |by intros x Hx]. apply Forall_singleton. exists 68. split; [done|]. by vm_compute.
    - destruct Hat1. by split. }
  intros [] w3 (c' & [Hgd Hwire] & Hout & Hat3 & _ & Hl'). apply runs_ret.
  apply (runs_lift (P := lworld)), (runs_lift (P := store)). unfold memp_free, mem_free, runs at 1, free.
  change (part_get (P := store) (part_get (P := lworld) w3)) with (w_store w3).
  rewrite (out_blocks _ _ _ Hout msg) by (rewrite <- Hr; by intros ->%list_elem_of_singleton).
  change (blocks (w_store w2)) with (blocks (w_store w)). destruct Hblk as [d ->]. apply runs_ret. split; [done|]. exists c'. split.
  - split; [|exact Hwire]. eapply good_agree; [exact Hgd|]. intros x ->%list_elem_of_singleton. simpl. rewrite Hl'.
    by rewrite !lookup_delete_ne by done.
  - destruct Hat3. by split.
Qed.

(** ** From one end to the other *)

(** An idle stack with an open connection and an attached link. *)
Record idle w (conn : loc) (cc : udp_conn_t) (l : loc) (cb : udp_pcb) (ctx : loc) (lk : link_t) : Prop := {
  id_conn : c_conns (w_conn w) !! conn = Some cc;
  id_open : conn_pcb cc = Some l;
  id_pcb : udp_mem (c_udp (w_conn w)) !! l = Some cb;
  id_sender : sender cb;
  id_tx : holds (conn_tx cc) [];
  id_poll : conn_tx_polling cc = false;
  id_attached : attached w ctx lk [];
  id_closed : l_closed lk = false;
  id_heap : heap_ok (w_store w);
  id_mbox : mbox_holds (w_store w) [];
  id_ident : is_u16 (ip_id (w_ip w))
}.

(** What [link_read] into [out] returns for [pkt]. *)
Definition read_into (pkt out : list Z) (room : Z) : Z * list Z :=
  if zlen pkt <=? room then (zlen pkt, pkt ++ zdrop (zlen pkt) out) else (0, out).

(** The three outcomes.  The first [malloc] is for the packet and the second for
    the message: without the packet, nothing; without the message, the packet
    waits; with both, the packet is on the wire. *)
Definition tx_outcome w (conn : loc) (cc : udp_conn_t) (cb : udp_pcb) m (data out : list Z) (room : Z)
    (x : Z * option (Z * list Z)) w' : Prop :=
  if room_for_packet (w_store w) (zlen data) then
    if memory_left (refused (w_store w)) then
      ∃ chk ipchk, x = (zlen data, Some (read_into (ip_datagram m cb (ip_id (w_ip w)) chk ipchk data) out room)) ∧
        checksums_right m cb (ip_id (w_ip w)) chk ipchk data
    else x = (zlen data, None) ∧ ∃ tx r, holds tx [Some r] ∧
      c_conns (w_conn w') !! conn = Some (cc <| conn_tx := tx |> <| conn_tx_polling := false |>)
  else x = (-1, None) ∧ c_conns (w_conn w') !! conn = Some cc.

Lemma turn_then_read w ctx lk out room n (Q : Z * option (Z * list Z) → world → Prop) :
  Seq.ring (tcpip_mbox (w_store w)) [] → attached w ctx lk [] → l_closed lk = false → Q (n, None) w →
  runs (let! _ := turn in let! r := lift (P := lworld) (link_read ctx out room) in ret (n, r)) w Q.
Proof.
  intros Hring [_ _ Hlk Hrx] Hcl HQ. apply runs_bind. eapply runs_mono; [by apply turn_empty|]. intros b w' [-> ->].
  apply runs_bind, runs_lift. eapply runs_eq; [by apply (link_read_empty _ ctx lk)|]. rewrite Hcl. apply runs_ret.
  by rewrite (part_set_get (P := lworld) w).
Qed.

Lemma read_sent w r m cb data ctx lk w' out room :
  sends w w' r m cb data ctx lk [] → room ≤ zlen out →
  runs (lift (P := lworld) (link_read ctx out room)) w' (λ x _, ∃ chk ipchk,
    x = Some (read_into (ip_datagram m cb (ip_id (w_ip w)) chk ipchk data) out room) ∧
    checksums_right m cb (ip_id (w_ip w)) chk ipchk data).
Proof.
  intros (c' & (Hgd & chk & ipchk & Hd & Hok) & [_ _ Hlk Hrx]) Hroom. apply runs_lift.
  eapply runs_mono; [apply (link_read_cons (link_view w') ctx _ r [] [c'] out room Hlk Hrx Hroom); apply Hgd|].
  intros x lw (-> & _). exists chk, ipchk. split; [|done].
  assert (bytes [c'] = c_data c') as Hb by (unfold bytes; simpl; apply app_nil_r).
  unfold total. by rewrite Hb, Hd.
Qed.

Lemma udp_tx_runs w conn cc l cb ctx lk m buffer size out room :
  idle w conn cc l cb ctx lk → metadata_ok m → 0 ≤ size < 2 ^ 16 - 28 → size ≤ zlen buffer → Forall is_u8 (ztake size buffer) →
  room ≤ zlen out →
  runs (let! n := lift (P := cstate) (udp_conn_sendto conn (metadata_bytes m) buffer size) in
        let! _ := turn in
        let! r := lift (P := lworld) (link_read ctx out room) in
        ret (n, r)) w (tx_outcome w conn cc cb m (ztake size buffer) out room).
Proof.
  intros [Hcc Hpl Hcb Hsd Htx Hpoll Hat Hcl Hok Hmb Hid] Hm Hsz Hbuf Hu8 Hroom.
  assert (zlen (ztake size buffer) = size) as Hzd by (rewrite zlen_ztake; lia).
  apply runs_bind, runs_lift. eapply runs_mono; [by apply (udp_conn_sendto_runs _ conn cc l); try done; lia|].
  unfold sent_to, tx_outcome. change (store_of (part_get w)) with (w_store w). rewrite Hzd.
  intros n cw'. destruct (room_for_packet (w_store w) size).
  - intros (-> & r & c & s1 & tx & e & Hpk & Hml & Htx' & Hpost & Hok' & Hcw).
    set (w1 := part_set cw' w). change (store_of cw') with (w_store w1) in *.
    pose proof (pk_built _ _ _ _ _ _ Hpk) as Hbu.
    pose proof (built_posted _ _ _ _ _ _ _ _ _ Hbu Hpost) as Hpk2.
    assert (memory_left s1 = memory_left (refused (w_store w))) as Hleft by (unfold memory_left; by rewrite Hml).
    destruct Hpost as (He & Hpb & _ & _ & Hpost). rewrite Hleft in He. change (zlen (@nil loc) <? SYS_MBOX_SIZE - 1) with true in He.
    rewrite andb_true_r in He. destruct (memory_left (refused (w_store w))).
    + destruct Hpost as [(_ & _ & Hring & (d & Hblk) & Hmsg)|(-> & _)]; [|discriminate He]. rewrite He in *.
      apply runs_bind. eapply runs_mono.
      { apply (turn_poll w1 (next_loc s1) conn (cc <| conn_tx := tx |> <| conn_tx_polling := is_ok ERR_OK |>) l cb r c m
          (ztake size buffer) ctx lk []); try done.
        - rewrite Hmsg. apply lookup_insert_eq.
        - rewrite Hblk, lookup_insert_eq. by eexists.
        - intros Hn. pose proof (bu_fresh _ _ _ _ Hbu) as Hf. rewrite Forall_singleton in Hf.
          pose proof (packet_seg _ _ _ Hpk2) as ([= Hr] & _). destruct Hf as [_ Hf]. rewrite Hn, Hr in Hf. lia.
        - simpl. rewrite Hcw. simpl. apply lookup_insert_eq.
        - simpl. by rewrite Hcw.
        - apply (pk_bytes _ _ _ _ _ _ Hpk).
        - apply (pk_payload _ _ _ _ _ _ Hpk).
        - apply (pk_type _ _ _ _ _ _ Hpk).
        - pose proof (bu_ref _ _ _ _ Hbu) as Hr. by inversion Hr.
        - lia.
        - unfold w_ip. simpl. rewrite Hcw. exact Hid.
        - destruct Hat. by split. }
      intros b w2 [-> Hsend]. apply runs_bind. eapply runs_mono; [by apply (read_sent _ _ _ _ _ _ _ _ out room Hsend)|].
      intros x w3 (chk & ipchk & -> & Hchk). apply runs_ret. exists chk, ipchk.
      assert (ip_id (w_ip w1) = ip_id (w_ip w)) as <- by (unfold w_ip; simpl; by rewrite Hcw). done.
    + destruct Hpost as [(-> & _)|(_ & Hring & _)]; [discriminate He|]. rewrite He in *.
      apply (turn_then_read w1 ctx lk); [done|destruct Hat; by split|done|].
      split; [done|]. exists tx, r. split; [done|]. simpl. rewrite Hcw. simpl. apply lookup_insert_eq.
  - intros (-> & _ & Hmbox & Hcw). set (w1 := part_set cw' w). apply (turn_then_read w1 ctx lk).
    + change (w_store w1) with (store_of cw'). rewrite Hmbox. apply Hmb.
    + destruct Hat; by split.
    + done.
    + split; [done|]. simpl. by rewrite Hcw.
Qed.
(** C2: a datagram's way from the application.  On an idle stack with an attached
    link, [udp_conn_sendto], one turn of [tcpip_thread] and a [link_read] with
    enough room end with exactly one IPv4 packet in the reader's buffer: the
    addresses and ports the application gave (the connection's port for a source
    port 0), the connection's TTL and TOS, the stack's next identification, the
    data unchanged, and both checksums right.  It takes two blocks of memory.
    Exactly when the C library refuses the first, the packet's, or the data is
    longer than 65,472 bytes, the application gets -1 and nothing is sent; exactly
    when it refuses the second, the message's, the application gets the full
    length although the packet stays in the connection's queue, where nothing
    polls for it. *)
Theorem udp_tx_end_to_end w conn cc l cb ctx lk m buffer size out room :
  idle w conn cc l cb ctx lk → metadata_ok m → 0 ≤ size < 2 ^ 16 - 28 → size ≤ zlen buffer → Forall is_u8 (ztake size buffer) →
  room ≤ zlen out →
  runs (let! n := lift (P := cstate) (udp_conn_sendto conn (metadata_bytes m) buffer size) in
        let! _ := tcpip_thread_turn tcp_input pbuf_free_ooseq other_recv in
        let! r := lift (P := lworld) (link_read ctx out room) in
        ret (n, r)) w (tx_outcome w conn cc cb m (ztake size buffer) out room).
Proof. apply udp_tx_runs. Qed.
End tx.

(** ** A run *)

Definition ex_sender : udp_pcb := new_pcb <| local_port := 1 |> <| netif_idx := 1 |>.
Definition ex_idle : world :=
  mk_world (mk_cstate (mk_ustate (mk_ipstate (mk_store ∅ ∅ 10 [] ∅ sys_mbox_new false) (mk_netif 0 0 0 1500 5 0) true no_packet 7)
      50000 [2%positive] {[2%positive := ex_sender]} 0 0)
    {[9%positive := mk_udp_conn (Some 2%positive) zeroed_queue zeroed_queue false]})
    {[8%positive := mk_link zeroed_queue zeroed_queue false false 1500]} (Some If_output) (Some 8%positive).
Definition ex_meta : udp_metadata_t := mk_udp_metadata 16777482 33554698 53 5353.

Lemma ex_idle_ok :
  idle ex_idle 9 (mk_udp_conn (Some 2%positive) zeroed_queue zeroed_queue false) 2 ex_sender 8
    (mk_link zeroed_queue zeroed_queue false false 1500).
Proof.
  split; try reflexivity; try apply holds_zeroed.
  - split; try reflexivity; by vm_compute.
  - split; try reflexivity. apply holds_zeroed.
  - intros l Hl. by split_and!.
  - split; [apply Seq.ring_new|done].
  - by vm_compute.
Qed.

Definition ex_run : M world (Z * option (Z * list Z)) :=
  let! n := lift (P := cstate) (udp_conn_sendto 9 (metadata_bytes ex_meta) [1; 2; 3] 3) in
  let! _ := tcpip_thread_turn (λ _, ret tt) (ret tt) (λ _ _ _ _ _ _, ret tt) in
  let! r := lift (P := lworld) (link_read 8 (replicate 32 0) 32) in
  ret (n, r).
Definition ex_packet : list Z :=
  [69; 0; 0; 31; 0; 7; 0; 0; 255; 17; 167; 194; 10; 1; 0; 1; 10; 1; 0; 2; 0; 53; 20; 233; 0; 11; 210; 179; 1; 2; 3].

Lemma udp_tx_end_to_end_witness : ∃ w', ex_run ex_idle = Val ((3, Some (31, ex_packet ++ [0])), w').
Proof.
  assert (metadata_ok ex_meta) as Hm by (unfold metadata_ok, ex_meta, is_u32, is_u16; simpl; lia).
  assert (Forall is_u8 (ztake 3 [1; 2; 3])) as Hu by (repeat (apply Forall_cons_2; [by vm_compute|]); apply Forall_nil_2).
  assert (0 ≤ 3 < 2 ^ 16 - 28) as Hsz by lia.
  assert (3 ≤ zlen [1; 2; 3]) as Hb by done.
  assert (32 ≤ zlen (replicate 32 0)) as Ho by by vm_compute.
  pose proof (udp_tx_end_to_end (λ _, ret tt) (ret tt) (λ _ _ _ _ _ _, ret tt) ex_idle 9
    (mk_udp_conn (Some 2%positive) zeroed_queue zeroed_queue false) 2 ex_sender 8
    (mk_link zeroed_queue zeroed_queue false false 1500) ex_meta [1; 2; 3] 3 (replicate 32 0) 32 ex_idle_ok) as H.
  specialize (H Hm Hsz Hb Hu Ho). apply runs_inv in H as (x & w' & Hrun & _).
  assert (match ex_run ex_idle with Val (x, _) => Some x | Err _ => None end = Some (3, Some (31, ex_packet ++ [0]))) as Hx.
  { vm_compute. reflexivity. }
  unfold ex_run in *. rewrite Hrun in Hx. injection Hx as Hx. exists w'. by rewrite Hrun, Hx.
Defined.
