(* ===== verification/Tcp.v ===== *)
(** * TCP: the control blocks ([core/tcp.c], [include/lwip/tcp.h])

    The connections' state, the four lists they are on, and the operations of
    [core/tcp.c].  What TCP sends ([core/tcp_out.c]) is the interface [tcp_out],
    and what it calls back is the interface [tcp_client].

    A list of blocks is the list of their addresses in the order of the [next]
    pointers; a queue of segments is the list of theirs.  A block is on one list
    at most: where the code would put it on a second one, the model stops with
    [Undefined].  A pointer to a netif is [true] when it is [&global_if] and
    [false] when it is null. *)

From S2P Require Import Prelude Mbox Heap Pbuf Def Chksum Addr Timeouts Header Ip4.

(** ** Constants of the configuration *)

Definition TCP_MSS : Z := 9000.
Definition INITIAL_MSS : Z := 536.
Definition TCP_WND : Z := 65535.
Definition TCP_SND_BUF : Z := 65535.
Definition TCP_TTL : Z := 255.
Definition TCP_MAXRTX : Z := 2.
Definition TCP_SYNMAXRTX : Z := 2.
Definition TCP_HLEN : Z := 20.
Definition TCP_SLOW_INTERVAL : Z := 500.
Definition TCP_FIN_WAIT_TIMEOUT : Z := 20000.
Definition TCP_SYN_RCVD_TIMEOUT : Z := 20000.
Definition TCP_OOSEQ_TIMEOUT : Z := 6.
Definition TCP_MSL : Z := 60000.
Definition TCP_KEEPIDLE_DEFAULT : Z := 7200000.
Definition TCP_KEEPINTVL_DEFAULT : Z := 75000.
Definition TCP_MAXIDLE : Z := 9 * TCP_KEEPINTVL_DEFAULT.
Definition TCP_WND_UPDATE_THRESHOLD : Z := Z.min (TCP_WND / 4) (TCP_MSS * 4).
Definition TCP_PRIO_NORMAL : Z := 64.
Definition TCP_PRIO_MAX : Z := 127.
Definition TCP_LOCAL_PORT_RANGE_START : Z := 49152.
Definition TCP_LOCAL_PORT_RANGE_END : Z := 65535.
(** A listener bound to this port gets the connections to any port. *)
Definition TCP_ACCEPT_ANY_PORT : Z := 1.
Definition SOF_KEEPALIVE : Z := 8.
Definition tcp_backoff : list Z := [1; 2; 3; 4; 5; 6; 7; 7; 7; 7; 7; 7; 7].
Definition tcp_persist_backoff : list Z := [3; 6; 12; 24; 48; 96; 120].

Definition TF_ACK_DELAY : Z := 1.
Definition TF_ACK_NOW : Z := 2.
Definition TF_INFR : Z := 4.
Definition TF_CLOSEPEND : Z := 8.
Definition TF_RXCLOSED : Z := 16.
Definition TF_FIN : Z := 32.
Definition TF_NODELAY : Z := 64.
Definition TF_NAGLEMEMERR : Z := 128.
Definition TF_WND_SCALE : Z := 256.
Definition TF_BACKLOGPEND : Z := 512.
Definition TF_RTO : Z := 2048.
Definition TF_SACK : Z := 4096.

Definition TCP_FIN : Z := 1.
Definition TCP_SYN : Z := 2.
Definition TCP_RST : Z := 4.
Definition TCP_PSH : Z := 8.
Definition TCP_ACK : Z := 16.

(** Flags of the variable [recv_flags] of tcp_in.c. *)
Definition TF_RESET : Z := 8.
Definition TF_CLOSED : Z := 16.
Definition TF_GOT_FIN : Z := 32.

(** Comparison of sequence numbers. *)
Definition TCP_SEQ_LT (a b : Z) : bool := s32 (u32 (a - b)) <? 0.
Definition TCP_SEQ_LEQ (a b : Z) : bool := s32 (u32 (a - b)) <=? 0.
Definition TCP_SEQ_GT (a b : Z) : bool := 0 <? s32 (u32 (a - b)).
Definition TCP_SEQ_GEQ (a b : Z) : bool := 0 <=? s32 (u32 (a - b)).
Definition TCP_SEQ_BETWEEN (a b c : Z) : bool := TCP_SEQ_GEQ a b && TCP_SEQ_LEQ a c.

(** ** The data *)

Inductive tcp_state :=
  | CLOSED | LISTEN | SYN_SENT | SYN_RCVD | ESTABLISHED | FIN_WAIT_1 | FIN_WAIT_2
  | CLOSE_WAIT | CLOSING | LAST_ACK | TIME_WAIT.
#[export] Instance tcp_state_eq_dec : EqDecision tcp_state.
Proof. solve_decision. Defined.

(** The callbacks the program installs: those of [api/api_msg.c] and the defaults. *)
Inductive tcp_recv_fn := Recv_tcp | Tcp_recv_null.
Inductive tcp_accept_fn := Accept_function | Tcp_accept_null.
Inductive tcp_sent_fn := Sent_tcp.
Inductive tcp_poll_fn := Poll_tcp.
Inductive tcp_err_fn := Err_tcp.
Inductive tcp_connected_fn := Do_connected.

Record tcp_seg := mk_tcp_seg {
  seg_p : option loc;
  seg_len : Z;
  seg_flags : Z;
  seg_tcphdr : option ptr
}.
#[export] Instance eta_tcp_seg : Eta tcp_seg := λ r,
  mk_tcp_seg (seg_p r) (seg_len r) (seg_flags r) (seg_tcphdr r).

Record tcp_pcb := mk_tcp_pcb {
  tp_local_ip : Z; tp_remote_ip : Z; tp_netif_idx : Z; tp_so_options : Z; tp_tos : Z; tp_ttl : Z;
  tp_callback_arg : option loc; tp_state : tcp_state; tp_prio : Z; tp_local_port : Z;
  tp_remote_port : Z; tp_flags : Z;
  tp_polltmr : Z; tp_pollinterval : Z; tp_last_timer : Z; tp_tmr : Z;
  tp_rcv_nxt : Z; tp_rcv_wnd : Z; tp_rcv_ann_wnd : Z; tp_rcv_ann_right_edge : Z;
  tp_rcv_sacks : list (Z * Z);
  tp_rtime : Z; tp_mss : Z; tp_rttest : Z; tp_rtseq : Z; tp_sa : Z; tp_sv : Z; tp_rto : Z; tp_nrtx : Z;
  tp_dupacks : Z; tp_lastack : Z;
  tp_cwnd : Z; tp_ssthresh : Z; tp_rto_end : Z;
  tp_snd_nxt : Z; tp_snd_wl1 : Z; tp_snd_wl2 : Z; tp_snd_lbb : Z; tp_snd_wnd : Z; tp_snd_wnd_max : Z;
  tp_snd_buf : Z; tp_snd_queuelen : Z; tp_unsent_oversize : Z; tp_bytes_acked : Z;
  tp_unsent : list loc; tp_unacked : list loc; tp_ooseq : list loc;
  tp_refused_data : option loc; tp_listener : option loc;
  tp_sent : option tcp_sent_fn; tp_recv : option tcp_recv_fn; tp_connected : option tcp_connected_fn;
  tp_poll : option tcp_poll_fn; tp_errf : option tcp_err_fn;
  tp_keep_idle : Z; tp_persist_cnt : Z; tp_persist_backoff : Z; tp_persist_probe : Z; tp_keep_cnt_sent : Z;
  tp_snd_scale : Z; tp_rcv_scale : Z
}.
#[export] Instance eta_tcp_pcb : Eta tcp_pcb := λ r,
  mk_tcp_pcb (tp_local_ip r) (tp_remote_ip r) (tp_netif_idx r) (tp_so_options r) (tp_tos r) (tp_ttl r)
    (tp_callback_arg r) (tp_state r) (tp_prio r) (tp_local_port r) (tp_remote_port r) (tp_flags r)
    (tp_polltmr r) (tp_pollinterval r) (tp_last_timer r) (tp_tmr r)
    (tp_rcv_nxt r) (tp_rcv_wnd r) (tp_rcv_ann_wnd r) (tp_rcv_ann_right_edge r) (tp_rcv_sacks r)
    (tp_rtime r) (tp_mss r) (tp_rttest r) (tp_rtseq r) (tp_sa r) (tp_sv r) (tp_rto r) (tp_nrtx r)
    (tp_dupacks r) (tp_lastack r) (tp_cwnd r) (tp_ssthresh r) (tp_rto_end r)
    (tp_snd_nxt r) (tp_snd_wl1 r) (tp_snd_wl2 r) (tp_snd_lbb r) (tp_snd_wnd r) (tp_snd_wnd_max r)
    (tp_snd_buf r) (tp_snd_queuelen r) (tp_unsent_oversize r) (tp_bytes_acked r)
    (tp_unsent r) (tp_unacked r) (tp_ooseq r) (tp_refused_data r) (tp_listener r)
    (tp_sent r) (tp_recv r) (tp_connected r) (tp_poll r) (tp_errf r)
    (tp_keep_idle r) (tp_persist_cnt r) (tp_persist_backoff r) (tp_persist_probe r) (tp_keep_cnt_sent r)
    (tp_snd_scale r) (tp_rcv_scale r).

Record tcp_pcb_listen := mk_tcp_pcb_listen {
  tl_local_ip : Z; tl_remote_ip : Z; tl_netif_idx : Z; tl_so_options : Z; tl_tos : Z; tl_ttl : Z;
  tl_callback_arg : option loc; tl_state : tcp_state; tl_prio : Z; tl_local_port : Z;
  tl_accept : option tcp_accept_fn; tl_backlog : Z; tl_accepts_pending : Z
}.
#[export] Instance eta_tcp_pcb_listen : Eta tcp_pcb_listen := λ r,
  mk_tcp_pcb_listen (tl_local_ip r) (tl_remote_ip r) (tl_netif_idx r) (tl_so_options r) (tl_tos r) (tl_ttl r)
    (tl_callback_arg r) (tl_state r) (tl_prio r) (tl_local_port r) (tl_accept r) (tl_backlog r) (tl_accepts_pending r).

(** What a [struct tcp_pcb *] points to; the two structs share their first fields. *)
Inductive pcb_block := Conn_pcb (c : tcp_pcb) | Listen_pcb (c : tcp_pcb_listen).
Definition blk_state (b : pcb_block) : tcp_state := match b with Conn_pcb c => tp_state c | Listen_pcb c => tl_state c end.
Definition blk_local_ip (b : pcb_block) : Z := match b with Conn_pcb c => tp_local_ip c | Listen_pcb c => tl_local_ip c end.
Definition blk_local_port (b : pcb_block) : Z := match b with Conn_pcb c => tp_local_port c | Listen_pcb c => tl_local_port c end.

Definition blk_netif_idx (b : pcb_block) : Z := match b with Conn_pcb c => tp_netif_idx c | Listen_pcb c => tl_netif_idx c end.
Definition blk_ttl (b : pcb_block) : Z := match b with Conn_pcb c => tp_ttl c | Listen_pcb c => tl_ttl c end.
Definition blk_tos (b : pcb_block) : Z := match b with Conn_pcb c => tp_tos c | Listen_pcb c => tl_tos c end.

(** The variables of tcp_in.c about the segment being received. *)
Record in_vars := mk_in_vars {
  inseg : tcp_seg;
  tcphdr : option ptr; tcphdr_optlen : Z; tcphdr_opt1len : Z; tcphdr_opt2 : option ptr; tcp_optidx : Z;
  in_seqno : Z; in_ackno : Z; recv_acked : Z; in_tcplen : Z; in_flags : Z;
  recv_data : option loc
}.
#[export] Instance eta_in_vars : Eta in_vars := λ r,
  mk_in_vars (inseg r) (tcphdr r) (tcphdr_optlen r) (tcphdr_opt1len r) (tcphdr_opt2 r) (tcp_optidx r)
    (in_seqno r) (in_ackno r) (recv_acked r) (in_tcplen r) (in_flags r) (recv_data r).
Definition no_segment : in_vars := mk_in_vars (mk_tcp_seg None 0 0 None) None 0 0 None 0 0 0 0 0 0 None.

(** The variables of tcp.c and tcp_in.c, and IP underneath. *)
Record tstate := mk_tstate {
  t_ip : ipstate;
  tcp_mem : gmap loc pcb_block;
  tcp_segs : gmap loc tcp_seg;
  tcp_listen_pcbs : list loc;
  tcp_bound_pcbs : list loc;
  tcp_active_pcbs : list loc;
  tcp_tw_pcbs : list loc;
  tcp_active_pcbs_changed : bool;
  tcp_port : Z;
  tcp_ticks : Z;
  tcp_timer : Z;
  tcp_timer_ctr : Z;
  tcp_iss : Z;
  tcp_input_pcb : option loc;
  recv_flags : Z;
  t_in : in_vars
}.
#[export] Instance eta_tstate : Eta tstate := λ r,
  mk_tstate (t_ip r) (tcp_mem r) (tcp_segs r) (tcp_listen_pcbs r) (tcp_bound_pcbs r) (tcp_active_pcbs r) (tcp_tw_pcbs r)
    (tcp_active_pcbs_changed r) (tcp_port r) (tcp_ticks r) (tcp_timer r) (tcp_timer_ctr r) (tcp_iss r)
    (tcp_input_pcb r) (recv_flags r) (t_in r).
#[export] Program Instance part_tstate : Part ipstate tstate := {
  part_get := t_ip; part_set iw t := t <| t_ip := iw |>
}.
Next Obligation. done. Qed.
Next Obligation. by intros []. Qed.
Next Obligation. done. Qed.

(** ** Access *)

Definition get_blk (t : tstate) (l : loc) : res pcb_block := deref (tcp_mem t !! l).
Definition get_tcp (t : tstate) (l : loc) : res tcp_pcb :=
  match tcp_mem t !! l with Some (Conn_pcb c) => Val c | _ => Err Undefined end.
Definition get_lpcb (t : tstate) (l : loc) : res tcp_pcb_listen :=
  match tcp_mem t !! l with Some (Listen_pcb c) => Val c | _ => Err Undefined end.
Definition put_blk (l : loc) (b : pcb_block) (t : tstate) : tstate := t <| tcp_mem := <[l := b]> (tcp_mem t) |>.
Definition update_tcp (l : loc) (f : tcp_pcb → tcp_pcb) : M tstate unit := λ t,
  let* c := get_tcp t l in Val (tt, put_blk l (Conn_pcb (f c)) t).
Definition update_lpcb (l : loc) (f : tcp_pcb_listen → tcp_pcb_listen) : M tstate unit := λ t,
  let* c := get_lpcb t l in Val (tt, put_blk l (Listen_pcb (f c)) t).
Definition get_seg (t : tstate) (l : loc) : res tcp_seg := deref (tcp_segs t !! l).

(** A field of the block. *)
Definition field {A} (f : tcp_pcb → A) (l : loc) : M tstate A := ask (λ t, let* c := get_tcp t l in Val (f c)).

Definition tcp_set_flags (pcb : loc) (flags : Z) : M tstate unit :=
  update_tcp pcb (λ c, c <| tp_flags := u16 (Z.lor (tp_flags c) flags) |>).
Definition tcp_clear_flags (pcb : loc) (flags : Z) : M tstate unit :=
  update_tcp pcb (λ c, c <| tp_flags := Z.land (tp_flags c) (u16 (Z.lnot flags)) |>).
Definition tcp_is_flag_set (c : tcp_pcb) (flag : Z) : bool := negb (Z.land (tp_flags c) flag =? 0).
Definition tcp_ack_now (pcb : loc) : M tstate unit := tcp_set_flags pcb TF_ACK_NOW.
Definition tcp_ack (pcb : loc) : M tstate unit :=
  let! c := ask (λ t, get_tcp t pcb) in
  if tcp_is_flag_set c TF_ACK_DELAY
  then do! tcp_clear_flags pcb TF_ACK_DELAY; tcp_ack_now pcb
  else tcp_set_flags pcb TF_ACK_DELAY.

Definition TCPWND16 (x : Z) : Z := Z.min x 65535.
Definition TCPWND_MIN16 (x : Z) : Z := u16 (Z.min x 65535).
Definition TCP_WND_MAX (c : tcp_pcb) : Z := if tcp_is_flag_set c TF_WND_SCALE then TCP_WND else TCPWND16 TCP_WND.
Definition TCP_WND_INC (wnd inc : Z) : Z := let w := u32 (wnd + inc) in if wnd <=? w then w else u32 (-1).
Definition tcp_sndbuf (c : tcp_pcb) : Z := TCPWND16 (tp_snd_buf c).

(** ** The lists *)

(** [tcp_pcb_lists], in its order. *)
Inductive pcb_list := L_listen | L_bound | L_active | L_tw.
#[export] Instance pcb_list_eq_dec : EqDecision pcb_list.
Proof. solve_decision. Defined.
Definition pcbs_of (w : pcb_list) (t : tstate) : list loc :=
  match w with
  | L_listen => tcp_listen_pcbs t | L_bound => tcp_bound_pcbs t
  | L_active => tcp_active_pcbs t | L_tw => tcp_tw_pcbs t
  end.
Definition set_pcbs (w : pcb_list) (l : list loc) (t : tstate) : tstate :=
  match w with
  | L_listen => t <| tcp_listen_pcbs := l |> | L_bound => t <| tcp_bound_pcbs := l |>
  | L_active => t <| tcp_active_pcbs := l |> | L_tw => t <| tcp_tw_pcbs := l |>
  end.
Definition all_pcbs (t : tstate) : list loc :=
  tcp_listen_pcbs t ++ tcp_bound_pcbs t ++ tcp_active_pcbs t ++ tcp_tw_pcbs t.

Fixpoint remove_pcb (npcb : loc) (l : list loc) : list loc :=
  match l with [] => [] | a :: l => if decide (a = npcb) then l else a :: remove_pcb npcb l end.
(** [npcb->next = NULL] for the list [npcb] is on. *)
Fixpoint cut_after (npcb : loc) (l : list loc) : list loc :=
  match l with [] => [] | a :: l => if decide (a = npcb) then [a] else a :: cut_after npcb l end.
(** [pcb->next] *)
Fixpoint next_in (pcb : loc) (l : list loc) : option loc :=
  match l with [] => None | a :: l => if decide (a = pcb) then head l else next_in pcb l end.

Definition TCP_RMV (w : pcb_list) (npcb : loc) : M tstate unit :=
  do! ask (λ t, get_blk t npcb);
  modify (λ t,
    if decide (npcb ∈ pcbs_of w t) then set_pcbs w (remove_pcb npcb (pcbs_of w t)) t
    else t <| tcp_listen_pcbs := cut_after npcb (tcp_listen_pcbs t) |>
           <| tcp_bound_pcbs := cut_after npcb (tcp_bound_pcbs t) |>
           <| tcp_active_pcbs := cut_after npcb (tcp_active_pcbs t) |>
           <| tcp_tw_pcbs := cut_after npcb (tcp_tw_pcbs t) |>).
Definition set_changed (b : bool) : M tstate unit := modify (λ t, t <| tcp_active_pcbs_changed := b |>).
Definition TCP_RMV_ACTIVE (npcb : loc) : M tstate unit := do! TCP_RMV L_active npcb; set_changed true.

(** Putting a block on a list, but for [tcp_timer_needed].  As in the code nothing is
    checked.  A block that is on a list already would make that list circular; here
    it would be listed twice. *)
Definition tcp_reg_link (w : pcb_list) (npcb : loc) : M tstate unit :=
  do! ask (λ t, get_blk t npcb);
  modify (λ t, set_pcbs w (npcb :: pcbs_of w t) t).

(** The first block on [l] with [f]. *)
Fixpoint find_blk (f : pcb_block → bool) (l : list loc) (t : tstate) : res (option loc) :=
  match l with
  | [] => Val None
  | pcb :: l => let* b := get_blk t pcb in if f b then Val (Some pcb) else find_blk f l t
  end.

(** ** Segments *)

Abbreviation tst m := (lift (P := ipstate) (S := tstate) (lift (P := store) m)).

Definition tcp_seg_free (seg : option loc) : M tstate unit :=
  match seg with
  | None => ret tt
  | Some l =>
    let! s := ask (λ t, get_seg t l) in
    do! (match seg_p s with None => ret tt | Some _ => let! _ := tst (pbuf_free (seg_p s)) in ret tt end);
    do! tst (memp_free MEMP_TCP_SEG seg);
    modify (λ t, t <| tcp_segs := delete l (tcp_segs t) |>)
  end.

Fixpoint tcp_segs_free (segs : list loc) : M tstate unit :=
  match segs with
  | [] => ret tt
  | seg :: segs => do! tcp_seg_free (Some seg); tcp_segs_free segs
  end.

(** Of the segment that is being received, [seg] is what the pointer points to. *)
Definition tcp_seg_copy (seg : tcp_seg) : M tstate (option loc) :=
  let! cseg := tst (memp_malloc MEMP_TCP_SEG) in
  match cseg with
  | None => ret None
  | Some l =>
    do! modify (λ t, t <| tcp_segs := <[l := seg]> (tcp_segs t) |>);
    do! tst (pbuf_ref (seg_p seg));
    ret (Some l)
  end.

Definition no_sacks : list (Z * Z) := replicate 4 (0, 0).

Definition tcp_free_ooseq (pcb : loc) : M tstate unit :=
  let! c := ask (λ t, get_tcp t pcb) in
  match tp_ooseq c with
  | [] => ret tt
  | segs =>
    do! tcp_segs_free segs;
    update_tcp pcb (λ c, c <| tp_ooseq := [] |> <| tp_rcv_sacks := no_sacks |>)
  end.

(** ** Small operations *)

(** [rand] is what [LWIP_RAND] returns. *)
Definition TCP_ENSURE_LOCAL_PORT_RANGE (port : Z) : Z :=
  u16 (Z.land port (u16 (Z.lnot TCP_LOCAL_PORT_RANGE_START)) + TCP_LOCAL_PORT_RANGE_START).
Definition tcp_init (rand : Z) : M tstate unit :=
  modify (λ t, t <| tcp_port := TCP_ENSURE_LOCAL_PORT_RANGE rand |>).

Definition release_pcb (t : memp_t) (pcb : loc) : M tstate unit :=
  do! tst (memp_free t (Some pcb));
  modify (λ t, t <| tcp_mem := delete pcb (tcp_mem t) |>).
Definition tcp_free (pcb : loc) : M tstate unit :=
  let! b := ask (λ t, get_blk t pcb) in
  do! lwip_assert (bool_decide (blk_state b ≠ LISTEN));
  release_pcb MEMP_TCP_PCB pcb.
Definition tcp_free_listen (pcb : loc) : M tstate unit :=
  let! b := ask (λ t, get_blk t pcb) in
  do! lwip_assert (bool_decide (blk_state b ≠ LISTEN));
  release_pcb MEMP_TCP_PCB_LISTEN pcb.

Fixpoint tcp_remove_listener (l : list loc) (lpcb : loc) : M tstate unit :=
  match l with
  | [] => ret tt
  | pcb :: l =>
    do! update_tcp pcb (λ c, if decide (tp_listener c = Some lpcb) then c <| tp_listener := None |> else c);
    tcp_remove_listener l lpcb
  end.
Definition tcp_listen_closed (pcb : loc) : M tstate unit :=
  let! b := ask (λ t, get_blk t pcb) in
  do! lwip_assert (bool_decide (blk_state b = LISTEN));
  let! t := gets id in
  do! tcp_remove_listener (tcp_bound_pcbs t) pcb;
  do! tcp_remove_listener (tcp_active_pcbs t) pcb;
  tcp_remove_listener (tcp_tw_pcbs t) pcb.

Definition tcp_backlog_delayed (pcb : loc) : M tstate unit :=
  let! c := ask (λ t, get_tcp t pcb) in
  if tcp_is_flag_set c TF_BACKLOGPEND then ret tt else
  match tp_listener c with
  | None => ret tt
  | Some lp =>
    do! update_lpcb lp (λ c, c <| tl_accepts_pending := u8 (tl_accepts_pending c + 1) |>);
    let! l := ask (λ t, get_lpcb t lp) in
    do! lwip_assert (negb (tl_accepts_pending l =? 0));
    tcp_set_flags pcb TF_BACKLOGPEND
  end.

Definition tcp_backlog_accepted (pcb : loc) : M tstate unit :=
  let! c := ask (λ t, get_tcp t pcb) in
  if negb (tcp_is_flag_set c TF_BACKLOGPEND) then ret tt else
  match tp_listener c with
  | None => ret tt
  | Some lp =>
    let! l := ask (λ t, get_lpcb t lp) in
    do! lwip_assert (negb (tl_accepts_pending l =? 0));
    do! update_lpcb lp (λ c, c <| tl_accepts_pending := u8 (tl_accepts_pending c - 1) |>);
    tcp_clear_flags pcb TF_BACKLOGPEND
  end.

Definition tcp_backlog_set (pcb : loc) (new_backlog : Z) : M tstate unit :=
  let! b := ask (λ t, get_blk t pcb) in
  do! lwip_assert (bool_decide (blk_state b = LISTEN));
  update_lpcb pcb (λ c, c <| tl_backlog := if new_backlog =? 0 then 1 else new_backlog |>).

Definition tcp_bind_netif (pcb : loc) (netif : bool) : M tstate unit :=
  let! n := gets (λ t, global_if (t_ip t)) in
  update_tcp pcb (λ c, c <| tp_netif_idx := if netif then netif_get_index n else NETIF_NO_INDEX |>).

Definition tcp_setprio (pcb : option loc) (prio : Z) : M tstate unit :=
  let! l := valid_ptr pcb in update_tcp l (λ c, c <| tp_prio := prio |>).

(** A setter of a callback: nothing for a null pointer, and no listener. *)
Definition set_callback (f : tcp_pcb → tcp_pcb) (pcb : option loc) : M tstate unit :=
  match pcb with
  | None => ret tt
  | Some l =>
    let! b := ask (λ t, get_blk t l) in
    do! lwip_assert (bool_decide (blk_state b ≠ LISTEN));
    update_tcp l f
  end.
Definition tcp_arg (pcb : option loc) (a : option loc) : M tstate unit :=
  match pcb with
  | None => ret tt
  | Some l =>
    let! b := ask (λ t, get_blk t l) in
    match b with
    | Conn_pcb _ => update_tcp l (λ c, c <| tp_callback_arg := a |>)
    | Listen_pcb _ => update_lpcb l (λ c, c <| tl_callback_arg := a |>)
    end
  end.
Definition tcp_recv (pcb : option loc) (recv : option tcp_recv_fn) : M tstate unit :=
  set_callback (λ c, c <| tp_recv := recv |>) pcb.
Definition tcp_sent (pcb : option loc) (sent : option tcp_sent_fn) : M tstate unit :=
  set_callback (λ c, c <| tp_sent := sent |>) pcb.
Definition tcp_err (pcb : option loc) (err : option tcp_err_fn) : M tstate unit :=
  set_callback (λ c, c <| tp_errf := err |>) pcb.
Definition tcp_accept (pcb : option loc) (accept : option tcp_accept_fn) : M tstate unit :=
  match pcb with
  | None => ret tt
  | Some l =>
    let! b := ask (λ t, get_blk t l) in
    if decide (blk_state b = LISTEN) then update_lpcb l (λ c, c <| tl_accept := accept |>) else ret tt
  end.
Definition tcp_poll (pcb : option loc) (poll : option tcp_poll_fn) (interval : Z) : M tstate unit :=
  let! l := valid_ptr pcb in
  set_callback (λ c, c <| tp_poll := poll |> <| tp_pollinterval := interval |>) (Some l).

Definition tcp_update_rcv_ann_wnd (pcb : loc) : M tstate Z :=
  let! c := ask (λ t, get_tcp t pcb) in
  let new_right_edge := u32 (tp_rcv_nxt c + tp_rcv_wnd c) in
  if TCP_SEQ_GEQ new_right_edge (u32 (tp_rcv_ann_right_edge c + Z.min (TCP_WND / 2) (tp_mss c))) then
    do! update_tcp pcb (λ c, c <| tp_rcv_ann_wnd := tp_rcv_wnd c |>);
    ret (u32 (new_right_edge - tp_rcv_ann_right_edge c))
  else
    do! (if TCP_SEQ_GT (tp_rcv_nxt c) (tp_rcv_ann_right_edge c)
         then update_tcp pcb (λ c, c <| tp_rcv_ann_wnd := 0 |>)
         else update_tcp pcb (λ c, c <| tp_rcv_ann_wnd := u32 (tp_rcv_ann_right_edge c - tp_rcv_nxt c) |>));
    ret 0.

Definition tcp_next_iss (pcb : option loc) : M tstate Z :=
  do! lwip_assert (bool_decide (pcb ≠ None));
  do! modify (λ t, t <| tcp_iss := u32 (tcp_iss t + tcp_ticks t) |>);
  gets tcp_iss.

(** [dest] is never null. *)
Definition tcp_eff_send_mss_netif (sendmss : Z) (outif : bool) (n : netif) : Z :=
  if negb outif then sendmss else
  let mtu := ni_mtu n in
  if mtu =? 0 then sendmss else
  let offset := IP_HLEN + TCP_HLEN in
  let mss_s := if offset <? mtu then u16 (mtu - offset) else 0 in
  Z.min sendmss mss_s.

Definition tcp_tcp_get_tcp_addrinfo (pcb : option loc) (local : bool) : M tstate (option (Z * Z)) :=
  match pcb with
  | None => ret None
  | Some l =>
    let! c := ask (λ t, get_tcp t l) in
    ret (Some (if local then (tp_local_ip c, tp_local_port c) else (tp_remote_ip c, tp_remote_port c)))
  end.

(** ** What TCP sends, and what it calls back *)

Class tcp_out (W : Type) := {
  tcp_output : loc → M W err_t;
  tcp_send_fin : loc → M W err_t;
  tcp_enqueue_flags : loc → Z → M W err_t;
  tcp_rst : option loc → Z → Z → Z → Z → Z → Z → M W unit;
  tcp_zero_window_probe : loc → M W err_t;
  tcp_split_unsent_seg : loc → Z → M W err_t;
  tcp_keepalive : loc → M W err_t;
  tcp_rexmit_rto_prepare : loc → M W err_t;
  tcp_rexmit_rto_commit : loc → M W unit
}.

(** The callbacks of [api/api_msg.c]; the first argument is [callback_arg]. *)
Class tcp_client (W : Type) := {
  recv_tcp : option loc → loc → option loc → err_t → M W err_t;
  sent_tcp : option loc → loc → Z → M W err_t;
  poll_tcp : option loc → loc → M W err_t;
  err_tcp : option loc → err_t → M W unit;
  accept_function : option loc → option loc → err_t → M W err_t;
  do_connected : option loc → loc → err_t → M W err_t
}.

Section tcp.
Context {W : Type} `{!Part tstate W} `{!tcp_out W} `{!tcp_client W}.

Abbreviation tc m := (lift (P := tstate) (S := W) m).
Abbreviation st m := (lift (P := tstate) (S := W) (lift (P := ipstate) (lift (P := store) m))).

Definition TCP_EVENT_ERR (errf : option tcp_err_fn) (a : option loc) (err : err_t) : M W unit :=
  match errf with None => ret tt | Some Err_tcp => err_tcp a err end.
Definition TCP_EVENT_POLL (pcb : loc) : M W err_t :=
  let! c := tc (ask (λ t, get_tcp t pcb)) in
  match tp_poll c with None => ret ERR_OK | Some Poll_tcp => poll_tcp (tp_callback_arg c) pcb end.
Definition TCP_EVENT_SENT (pcb : loc) (space : Z) : M W err_t :=
  let! c := tc (ask (λ t, get_tcp t pcb)) in
  match tp_sent c with None => ret ERR_OK | Some Sent_tcp => sent_tcp (tp_callback_arg c) pcb space end.
Definition TCP_EVENT_CONNECTED (pcb : loc) (err : err_t) : M W err_t :=
  let! c := tc (ask (λ t, get_tcp t pcb)) in
  match tp_connected c with None => ret ERR_OK | Some Do_connected => do_connected (tp_callback_arg c) pcb err end.

Definition tcp_pcb_purge (pcb : loc) : M tstate unit :=
  let! b := ask (λ t, get_blk t pcb) in
  if bool_decide (blk_state b = CLOSED) || bool_decide (blk_state b = TIME_WAIT) || bool_decide (blk_state b = LISTEN)
  then ret tt else
  do! tcp_backlog_accepted pcb;
  let! c := ask (λ t, get_tcp t pcb) in
  do! (match tp_refused_data c with
       | None => ret tt
       | Some _ =>
         let! _ := tst (pbuf_free (tp_refused_data c)) in
         update_tcp pcb (λ c, c <| tp_refused_data := None |>)
       end);
  do! tcp_free_ooseq pcb;
  do! update_tcp pcb (λ c, c <| tp_rtime := -1 |>);
  let! c := ask (λ t, get_tcp t pcb) in
  do! tcp_segs_free (tp_unsent c);
  do! tcp_segs_free (tp_unacked c);
  update_tcp pcb (λ c, c <| tp_unacked := [] |> <| tp_unsent := [] |> <| tp_unsent_oversize := 0 |>).

Definition tcp_pcb_remove (w : pcb_list) (pcb : loc) : M W unit :=
  do! tc (TCP_RMV w pcb);
  do! tc (tcp_pcb_purge pcb);
  let! b := tc (ask (λ t, get_blk t pcb)) in
  do! (match b with
       | Conn_pcb c =>
         if bool_decide (tp_state c ≠ TIME_WAIT) && bool_decide (tp_state c ≠ LISTEN) && tcp_is_flag_set c TF_ACK_DELAY
         then do! tc (tcp_ack_now pcb); let! _ := tcp_output pcb in ret tt
         else ret tt
       | Listen_pcb _ => ret tt
       end);
  let! b := tc (ask (λ t, get_blk t pcb)) in
  match b with
  | Conn_pcb c =>
    do! (if bool_decide (tp_state c ≠ LISTEN) then
           do! lwip_assert (bool_decide (tp_unsent c = []));
           do! lwip_assert (bool_decide (tp_unacked c = []));
           lwip_assert (bool_decide (tp_ooseq c = []))
         else ret tt);
    tc (update_tcp pcb (λ c, c <| tp_state := CLOSED |> <| tp_local_port := 0 |>))
  | Listen_pcb _ => tc (update_lpcb pcb (λ c, c <| tl_state := CLOSED |> <| tl_local_port := 0 |>))
  end.
Definition TCP_PCB_REMOVE_ACTIVE (pcb : loc) : M W unit :=
  do! tcp_pcb_remove L_active pcb; tc (set_changed true).

(** ** Closing *)

(** tcp_in.c *)
Definition tcp_trigger_input_pcb_close : M tstate unit :=
  modify (λ t, t <| recv_flags := u8 (Z.lor (recv_flags t) TF_CLOSED) |>).

Definition tcp_rst_pcb (pcb : loc) (seqno ackno local_port : Z) : M W unit :=
  let! c := tc (ask (λ t, get_tcp t pcb)) in
  tcp_rst (Some pcb) seqno ackno (tp_local_ip c) (tp_remote_ip c) local_port (tp_remote_port c).

(** The FIN by which the connection goes on to [next], or no memory for it. *)
Definition send_fin_to (pcb : loc) (accepted : bool) (next : tcp_state) : M W err_t :=
  let! err := tcp_send_fin pcb in
  do! (if is_ok err then
         do! (if accepted then tc (tcp_backlog_accepted pcb) else ret tt);
         tc (update_tcp pcb (λ c, c <| tp_state := next |>))
       else ret tt);
  ret err.

Definition tcp_close_shutdown_fin (pcb : loc) : M W err_t :=
  let! c := tc (ask (λ t, get_tcp t pcb)) in
  let finish (err : err_t) : M W err_t :=
    match err with
    | ERR_OK => let! _ := tcp_output pcb in ret err
    | ERR_MEM => do! tc (tcp_set_flags pcb TF_CLOSEPEND); ret ERR_OK
    | _ => ret err
    end in
  match tp_state c with
  | SYN_RCVD => let! err := send_fin_to pcb true FIN_WAIT_1 in finish err
  | ESTABLISHED => let! err := send_fin_to pcb false FIN_WAIT_1 in finish err
  | CLOSE_WAIT => let! err := send_fin_to pcb false LAST_ACK in finish err
  | _ => ret ERR_OK
  end.

(** Data that the application has not read: the peer gets a reset. *)
Definition must_reset (rst_on_unacked_data : bool) (b : pcb_block) : bool :=
  match b with
  | Conn_pcb c =>
    rst_on_unacked_data && (bool_decide (tp_state c = ESTABLISHED) || bool_decide (tp_state c = CLOSE_WAIT))
    && (bool_decide (tp_refused_data c ≠ None) || negb (tp_rcv_wnd c =? TCP_WND_MAX c))
  | Listen_pcb _ => false
  end.

Definition tcp_close_shutdown (pcb : loc) (rst_on_unacked_data : bool) : M W err_t :=
  let! b := tc (ask (λ t, get_blk t pcb)) in
  if must_reset rst_on_unacked_data b then
    let! c := tc (ask (λ t, get_tcp t pcb)) in
    do! lwip_assert (tcp_is_flag_set c TF_RXCLOSED);
    do! tcp_rst_pcb pcb (tp_snd_nxt c) (tp_rcv_nxt c) (tp_local_port c);
    do! tc (tcp_pcb_purge pcb);
    do! tc (TCP_RMV_ACTIVE pcb);
    let! input_pcb := tc (gets tcp_input_pcb) in
    do! (if decide (input_pcb = Some pcb) then tc tcp_trigger_input_pcb_close else tc (tcp_free pcb));
    ret ERR_OK
  else
  match blk_state b with
  | CLOSED =>
    do! (if blk_local_port b =? 0 then ret tt else tc (TCP_RMV L_bound pcb));
    do! tc (tcp_free pcb); ret ERR_OK
  | LISTEN =>
    do! tc (tcp_listen_closed pcb);
    do! tcp_pcb_remove L_listen pcb;
    do! tc (tcp_free_listen pcb); ret ERR_OK
  | SYN_SENT =>
    do! TCP_PCB_REMOVE_ACTIVE pcb;
    do! tc (tcp_free pcb); ret ERR_OK
  | _ => tcp_close_shutdown_fin pcb
  end.

Definition tcp_close (pcb : option loc) : M W err_t :=
  let! l := valid_ptr pcb in
  let! b := tc (ask (λ t, get_blk t l)) in
  do! (if bool_decide (blk_state b ≠ LISTEN) then tc (tcp_set_flags l TF_RXCLOSED) else ret tt);
  tcp_close_shutdown l true.

Definition tcp_shutdown (pcb : option loc) (shut_rx shut_tx : bool) : M W err_t :=
  let! l := valid_ptr pcb in
  let! b := tc (ask (λ t, get_blk t l)) in
  if bool_decide (blk_state b = LISTEN) then ret ERR_CONN else
  do! (if shut_rx then tc (tcp_set_flags l TF_RXCLOSED) else ret tt);
  if shut_rx && shut_tx then tcp_close_shutdown l true else
  do! (if shut_rx then
         let! c := tc (ask (λ t, get_tcp t l)) in
         match tp_refused_data c with
         | None => ret tt
         | Some _ =>
           let! _ := st (pbuf_free (tp_refused_data c)) in
           tc (update_tcp l (λ c, c <| tp_refused_data := None |>))
         end
       else ret tt);
  if shut_tx then
    let! b := tc (ask (λ t, get_blk t l)) in
    match blk_state b with
    | SYN_RCVD | ESTABLISHED | CLOSE_WAIT => tcp_close_shutdown l shut_rx
    | _ => ret ERR_CONN
    end
  else ret ERR_OK.

(** [reset]: whether the peer is told. *)
Definition tcp_abandon (pcb : option loc) (reset : bool) : M W unit :=
  let! l := valid_ptr pcb in
  let! b := tc (ask (λ t, get_blk t l)) in
  do! lwip_assert (bool_decide (blk_state b ≠ LISTEN));
  let! c := tc (ask (λ t, get_tcp t l)) in
  if bool_decide (tp_state c = TIME_WAIT) then
    do! tcp_pcb_remove L_tw l;
    tc (tcp_free l)
  else
    let! '(send_rst, local_port) :=
      (if bool_decide (tp_state c = CLOSED) then
         do! (if tp_local_port c =? 0 then ret tt else tc (TCP_RMV L_bound l));
         ret (false, 0)
       else
         do! TCP_PCB_REMOVE_ACTIVE l;
         ret (reset, tp_local_port c)) in
    let! c' := tc (ask (λ t, get_tcp t l)) in
    do! tc (tcp_segs_free (tp_unacked c'));
    do! tc (tcp_segs_free (tp_unsent c'));
    do! tc (tcp_segs_free (tp_ooseq c'));
    do! tc (tcp_backlog_accepted l);
    do! (if send_rst then tcp_rst_pcb l (tp_snd_nxt c) (tp_rcv_nxt c) local_port else ret tt);
    do! tc (tcp_free l);
    TCP_EVENT_ERR (tp_errf c) (tp_callback_arg c) ERR_ABRT.

Definition tcp_abort (pcb : option loc) : M W unit := tcp_abandon pcb true.

Definition tcp_accept_null (pcb : option loc) : M W err_t :=
  do! lwip_assert (bool_decide (pcb ≠ None));
  do! tcp_abort pcb;
  ret ERR_ABRT.
Definition TCP_EVENT_ACCEPT (lpcb : loc) (pcb : option loc) (a : option loc) (err : err_t) : M W err_t :=
  let! l := tc (ask (λ t, get_lpcb t lpcb)) in
  match tl_accept l with
  | None => ret ERR_ARG
  | Some Accept_function => accept_function a pcb err
  | Some Tcp_accept_null => tcp_accept_null pcb
  end.

(** ** The receive window *)

Definition tcp_recved (pcb : option loc) (len : Z) : M W unit :=
  let! l := valid_ptr pcb in
  let! b := tc (ask (λ t, get_blk t l)) in
  do! lwip_assert (bool_decide (blk_state b ≠ LISTEN));
  do! tc (update_tcp l (λ c,
    let rcv_wnd := u32 (tp_rcv_wnd c + len) in
    c <| tp_rcv_wnd := if (TCP_WND_MAX c <? rcv_wnd) || (rcv_wnd <? tp_rcv_wnd c) then TCP_WND_MAX c else rcv_wnd |>));
  let! wnd_inflation := tc (tcp_update_rcv_ann_wnd l) in
  if TCP_WND_UPDATE_THRESHOLD <=? wnd_inflation then
    do! tc (tcp_ack_now l); let! _ := tcp_output l in ret tt
  else ret tt.

Definition tcp_recv_null (pcb : option loc) (p : option loc) (err : err_t) : M W err_t :=
  do! lwip_error (bool_decide (pcb ≠ None));
  match p with
  | Some _ =>
    let! tot_len := st (tot_len_of p) in
    do! tcp_recved pcb tot_len;
    let! _ := st (pbuf_free p) in ret ERR_OK
  | None => if is_ok err then tcp_close pcb else ret ERR_OK
  end.

Definition TCP_EVENT_RECV (pcb : loc) (p : option loc) (err : err_t) : M W err_t :=
  let! c := tc (ask (λ t, get_tcp t pcb)) in
  match tp_recv c with
  | Some Recv_tcp => recv_tcp (tp_callback_arg c) pcb p err
  | Some Tcp_recv_null | None => tcp_recv_null (Some pcb) p err
  end.
Definition TCP_EVENT_CLOSED (pcb : loc) : M W err_t :=
  let! c := tc (ask (λ t, get_tcp t pcb)) in
  match tp_recv c with
  | Some Recv_tcp => recv_tcp (tp_callback_arg c) pcb None ERR_OK
  | Some Tcp_recv_null => tcp_recv_null (Some pcb) None ERR_OK
  | None => ret ERR_OK
  end.

(** Data the application refused is offered again, in parts of at most 64K. *)
Fixpoint process_refused_loop (fuel : nat) (pcb : loc) : M W err_t :=
  match fuel with
  | O => fail OutOfFuel
  | S fuel =>
    let! c := tc (ask (λ t, get_tcp t pcb)) in
    match tp_refused_data c with
    | None => ret ERR_OK
    | Some p =>
      let! q := st (ask (λ s, get_pbuf s p)) in
      let! rest := st (pbuf_split_64k (Some p)) in
      do! tc (update_tcp pcb (λ c, c <| tp_refused_data := rest |>));
      let! err := TCP_EVENT_RECV pcb (Some p) ERR_OK in
      match err with
      | ERR_OK =>
        if negb (Z.land (pb_flags q) PBUF_FLAG_TCP_FIN =? 0) && bool_decide (rest = None) then
          do! tc (update_tcp pcb (λ c,
                 if tp_rcv_wnd c =? TCP_WND_MAX c then c else c <| tp_rcv_wnd := u32 (tp_rcv_wnd c + 1) |>));
          let! err := TCP_EVENT_CLOSED pcb in
          match err with ERR_ABRT => ret ERR_ABRT | _ => process_refused_loop fuel pcb end
        else process_refused_loop fuel pcb
      | ERR_ABRT => ret ERR_ABRT
      | _ =>
        do! (match rest with None => ret tt | Some _ => st (pbuf_cat (Some p) rest) end);
        do! tc (update_tcp pcb (λ c, c <| tp_refused_data := Some p |>));
        ret ERR_INPROGRESS
      end
    end
  end.

(** Each turn but the last takes a pbuf of the chain. *)
Definition tcp_process_refused_data (pcb : option loc) : M W err_t :=
  let! l := valid_ptr pcb in
  let! fuel := st (gets chain_fuel) in
  process_refused_loop (S fuel) l.

(** ** Ports and addresses *)

Definition tcp_next_port (port : Z) : Z :=
  let p := u16 (port + 1) in if p =? TCP_LOCAL_PORT_RANGE_END then TCP_LOCAL_PORT_RANGE_START else p.

Fixpoint tcp_new_port_loop (fuel : nat) (n : Z) : M tstate Z :=
  match fuel with
  | O => fail OutOfFuel
  | S fuel =>
    do! modify (λ t, t <| tcp_port := tcp_next_port (tcp_port t) |>);
    let! port := gets tcp_port in
    let! pcbs := gets all_pcbs in
    let! used := ask (find_blk (λ b, blk_local_port b =? port) pcbs) in
    match used with
    | None => ret port
    | Some _ =>
      let n := u16 (n + 1) in
      if TCP_LOCAL_PORT_RANGE_END - TCP_LOCAL_PORT_RANGE_START <? n then ret 0 else tcp_new_port_loop fuel n
    end
  end.
Definition tcp_new_port : M tstate Z := tcp_new_port_loop (Z.to_nat 16384) 0.

(** Two bindings of a port exclude each other. *)
Definition tcp_ip_conflict (a b : Z) : bool := ip4_addr_isany a || ip4_addr_isany b || (a =? b).

(** ** Walking over the lists *)

(** [pcb->next] *)
Definition pcb_next (pcb : loc) (t : tstate) : res (option loc) :=
  let* _ := get_blk t pcb in
  Val (match next_in pcb (tcp_active_pcbs t) with Some l => Some l | None =>
       match next_in pcb (tcp_tw_pcbs t) with Some l => Some l | None =>
       match next_in pcb (tcp_bound_pcbs t) with Some l => Some l | None =>
       next_in pcb (tcp_listen_pcbs t) end end end).

(** [body] gives the next block. *)
Fixpoint for_pcbs (fuel : nat) (body : loc → M W (option loc)) (pcb : option loc) : M W unit :=
  match fuel, pcb with
  | _, None => ret tt
  | O, _ => fail OutOfFuel
  | S fuel, Some pcb => let! next := body pcb in for_pcbs fuel body next
  end.
(** Over all the blocks on the list at the start. *)
Definition for_list (w : pcb_list) (body : loc → M W (option loc)) : M W unit :=
  let! pcbs := tc (gets (pcbs_of w)) in for_pcbs (length pcbs) body (head pcbs).

Definition tcp_txnow : M W unit :=
  for_list L_active (λ pcb,
    let! c := tc (ask (λ t, get_tcp t pcb)) in
    do! (if tcp_is_flag_set c TF_NAGLEMEMERR then let! _ := tcp_output pcb in ret tt else ret tt);
    tc (ask (pcb_next pcb))).

(** A close that had no memory for its FIN is tried again. *)
Definition retry_close (pcb : loc) : M W unit :=
  let! c := tc (ask (λ t, get_tcp t pcb)) in
  if tcp_is_flag_set c TF_CLOSEPEND then
    do! tc (tcp_clear_flags pcb TF_CLOSEPEND);
    let! _ := tcp_close_shutdown_fin pcb in ret tt
  else ret tt.
Definition tcp_handle_closepend : M W unit :=
  for_list L_active (λ pcb, let! next := tc (ask (pcb_next pcb)) in do! retry_close pcb; ret next).

Definition tcp_netif_ip_addr_changed_pcblist (old_addr : Z) (w : pcb_list) : M W unit :=
  for_list w (λ pcb,
    let! b := tc (ask (λ t, get_blk t pcb)) in
    let! next := tc (ask (pcb_next pcb)) in
    do! (if blk_local_ip b =? old_addr then tcp_abort (Some pcb) else ret tt);
    ret next).

Fixpoint listeners_readdress (old_addr new_addr : Z) (l : list loc) : M tstate unit :=
  match l with
  | [] => ret tt
  | lpcb :: l =>
    do! update_lpcb lpcb (λ c, if tl_local_ip c =? old_addr then c <| tl_local_ip := new_addr |> else c);
    listeners_readdress old_addr new_addr l
  end.
Definition tcp_netif_ip_addr_changed (old_addr new_addr : Z) : M W unit :=
  if ip4_addr_isany old_addr then ret tt else
  do! tcp_netif_ip_addr_changed_pcblist old_addr L_active;
  do! tcp_netif_ip_addr_changed_pcblist old_addr L_bound;
  if ip4_addr_isany new_addr then ret tt else
  let! l := tc (gets tcp_listen_pcbs) in
  tc (listeners_readdress old_addr new_addr l).

(** ** Making room for a block *)

(** How long nothing has been received for the block. *)
Definition inactivity (t : tstate) (c : tcp_pcb) : Z := u32 (tcp_ticks t - tp_tmr c).

(** The last of those with [f] that has been inactive longest, if as long as [most]. *)
Fixpoint find_inactive (f : tcp_pcb → bool) (l : list loc) (most : Z) (found : option loc) (t : tstate) : res (option loc) :=
  match l with
  | [] => Val found
  | pcb :: l =>
    let* c := get_tcp t pcb in
    if f c && (most <=? inactivity t c) then find_inactive f l (inactivity t c) (Some pcb) t
    else find_inactive f l most found t
  end.
Fixpoint find_prio (l : list loc) (mprio most : Z) (found : option loc) (t : tstate) : res (option loc) :=
  match l with
  | [] => Val found
  | pcb :: l =>
    let* c := get_tcp t pcb in
    if (tp_prio c <? mprio) || ((tp_prio c =? mprio) && (most <=? inactivity t c))
    then find_prio l (tp_prio c) (inactivity t c) (Some pcb) t
    else find_prio l mprio most found t
  end.

Definition tcp_kill_prio (prio : Z) : M W unit :=
  let mprio := Z.min TCP_PRIO_MAX prio in
  if mprio =? 0 then ret tt else
  let! inactive := tc (ask (λ t, find_prio (tcp_active_pcbs t) (mprio - 1) 0 None t)) in
  match inactive with None => ret tt | Some _ => tcp_abort inactive end.
Definition tcp_kill_state (state : tcp_state) : M W unit :=
  do! lwip_assert (bool_decide (state = CLOSING) || bool_decide (state = LAST_ACK));
  let! inactive := tc (ask (λ t, find_inactive (λ c, bool_decide (tp_state c = state)) (tcp_active_pcbs t) 0 None t)) in
  match inactive with None => ret tt | Some _ => tcp_abandon inactive false end.
Definition tcp_kill_timewait : M W unit :=
  let! inactive := tc (ask (λ t, find_inactive (λ _, true) (tcp_tw_pcbs t) 0 None t)) in
  match inactive with None => ret tt | Some _ => tcp_abort inactive end.

Definition fresh_pcb (prio ticks timer_ctr : Z) : tcp_pcb := {|
  tp_local_ip := 0; tp_remote_ip := 0; tp_netif_idx := 0; tp_so_options := 0; tp_tos := 0; tp_ttl := TCP_TTL;
  tp_callback_arg := None; tp_state := CLOSED; tp_prio := prio; tp_local_port := 0; tp_remote_port := 0; tp_flags := 0;
  tp_polltmr := 0; tp_pollinterval := 0; tp_last_timer := timer_ctr; tp_tmr := ticks;
  tp_rcv_nxt := 0; tp_rcv_wnd := TCPWND_MIN16 TCP_WND; tp_rcv_ann_wnd := TCPWND_MIN16 TCP_WND; tp_rcv_ann_right_edge := 0;
  tp_rcv_sacks := no_sacks;
  tp_rtime := -1; tp_mss := INITIAL_MSS; tp_rttest := 0; tp_rtseq := 0; tp_sa := 0; tp_sv := 3000 / TCP_SLOW_INTERVAL;
  tp_rto := 3000 / TCP_SLOW_INTERVAL; tp_nrtx := 0; tp_dupacks := 0; tp_lastack := 0;
  tp_cwnd := 1; tp_ssthresh := TCP_SND_BUF; tp_rto_end := 0;
  tp_snd_nxt := 0; tp_snd_wl1 := 0; tp_snd_wl2 := 0; tp_snd_lbb := 0; tp_snd_wnd := 0; tp_snd_wnd_max := 0;
  tp_snd_buf := TCP_SND_BUF; tp_snd_queuelen := 0; tp_unsent_oversize := 0; tp_bytes_acked := 0;
  tp_unsent := []; tp_unacked := []; tp_ooseq := []; tp_refused_data := None; tp_listener := None;
  tp_sent := None; tp_recv := Some Tcp_recv_null; tp_connected := None; tp_poll := None; tp_errf := None;
  tp_keep_idle := TCP_KEEPIDLE_DEFAULT; tp_persist_cnt := 0; tp_persist_backoff := 0; tp_persist_probe := 0;
  tp_keep_cnt_sent := 0; tp_snd_scale := 0; tp_rcv_scale := 0 |}.

(** Each of the measures is taken when there is no memory, and then a block is asked for again. *)
Fixpoint alloc_or (measures : list (M W unit)) : M W (option loc) :=
  let! pcb := st (memp_malloc MEMP_TCP_PCB) in
  match pcb, measures with
  | None, measure :: measures => do! measure; alloc_or measures
  | _, _ => ret pcb
  end.
Definition tcp_alloc (prio : Z) : M W (option loc) :=
  let! pcb := alloc_or [ (do! tcp_handle_closepend; tcp_kill_timewait); tcp_kill_state LAST_ACK;
                         tcp_kill_state CLOSING; tcp_kill_prio prio ] in
  do! (match pcb with
       | None => ret tt
       | Some l => tc (modify (λ t, put_blk l (Conn_pcb (fresh_pcb prio (tcp_ticks t) (tcp_timer_ctr t))) t))
       end);
  ret pcb.
Definition tcp_new : M W (option loc) := tcp_alloc TCP_PRIO_NORMAL.
Definition tcp_new_ip_type (type : Z) : M W (option loc) := tcp_alloc TCP_PRIO_NORMAL.

Context `{!Part timeouts W} `{!timer_client W}.

Definition TCP_REG (w : pcb_list) (npcb : loc) : M W unit := do! tc (tcp_reg_link w npcb); tcp_timer_needed.
Definition TCP_REG_ACTIVE (npcb : loc) : M W unit := do! TCP_REG L_active npcb; tc (set_changed true).

(** The port to bind to, or the error. *)
Definition tcp_bind_port (ipaddr port : Z) : M tstate (Z + err_t) :=
  if port =? 0 then
    let! port := tcp_new_port in
    ret (if port =? 0 then inr ERR_BUF else inl port)
  else
    let! pcbs := gets all_pcbs in
    let! other := ask (find_blk (λ b, (blk_local_port b =? port) && tcp_ip_conflict (blk_local_ip b) ipaddr) pcbs) in
    ret (match other with Some _ => inr ERR_USE | None => inl port end).

Definition tcp_bind (pcb : option loc) (ipaddr : option Z) (port : Z) : M W err_t :=
  let ipaddr := match ipaddr with None => IPADDR_ANY | Some a => a end in
  let! l := valid_ptr pcb in
  let! b := tc (ask (λ t, get_blk t l)) in
  do! lwip_error (bool_decide (blk_state b = CLOSED));
  let! r := tc (tcp_bind_port ipaddr port) in
  match r with
  | inr err => ret err
  | inl port =>
    do! tc (update_tcp l (λ c,
      (if ip4_addr_isany ipaddr then c else c <| tp_local_ip := ipaddr |>) <| tp_local_port := port |>));
    do! TCP_REG L_bound l;
    ret ERR_OK
  end.

Definition new_listener (c : tcp_pcb) (backlog : Z) : tcp_pcb_listen :=
  mk_tcp_pcb_listen (tp_local_ip c) 0 NETIF_NO_INDEX (tp_so_options c) (tp_tos c) (tp_ttl c)
    (tp_callback_arg c) LISTEN (tp_prio c) (tp_local_port c) (Some Tcp_accept_null)
    (if backlog =? 0 then 1 else backlog) 0.

(** [pcb] becomes a listener, which takes less memory.  The state is [CLOSED] when
    it is compared with [LISTEN].  The result is the listener and the error. *)
Definition tcp_listen_with_backlog_and_err (pcb : option loc) (backlog : Z) : M W (option loc * err_t) :=
  let! l := valid_ptr pcb in
  let! b := tc (ask (λ t, get_blk t l)) in
  do! lwip_error (bool_decide (blk_state b = CLOSED));
  let! lpcb := st (memp_malloc MEMP_TCP_PCB_LISTEN) in
  match lpcb with
  | None => ret (None, ERR_MEM)
  | Some lp =>
    let! c := tc (ask (λ t, get_tcp t l)) in
    do! tc (modify (put_blk lp (Listen_pcb (new_listener c backlog))));
    do! (if tp_local_port c =? 0 then ret tt else tc (TCP_RMV L_bound l));
    do! tc (tcp_free l);
    do! TCP_REG L_listen lp;
    ret (Some lp, ERR_OK)
  end.
Definition tcp_listen_with_backlog (pcb : option loc) (backlog : Z) : M W (option loc) :=
  let! '(l, err) := tcp_listen_with_backlog_and_err pcb backlog in ret l.

(** The sequence numbers and windows of a connection to be opened. *)
Definition connect_vars (iss mss : Z) (connected : option tcp_connected_fn) (c : tcp_pcb) : tcp_pcb :=
  c <| tp_rcv_nxt := 0 |> <| tp_snd_nxt := iss |> <| tp_lastack := u32 (iss - 1) |> <| tp_snd_wl2 := u32 (iss - 1) |>
    <| tp_snd_lbb := u32 (iss - 1) |> <| tp_rcv_wnd := TCPWND_MIN16 TCP_WND |> <| tp_rcv_ann_wnd := TCPWND_MIN16 TCP_WND |>
    <| tp_rcv_ann_right_edge := 0 |> <| tp_snd_wnd := TCP_WND |> <| tp_mss := mss |> <| tp_cwnd := 1 |>
    <| tp_connected := connected |>.

Definition tcp_connect (pcb : option loc) (ipaddr : option Z) (port : Z) (connected : option tcp_connected_fn) : M W err_t :=
  let! l := valid_ptr pcb in
  let! ipaddr := valid_ptr ipaddr in
  let! b := tc (ask (λ t, get_blk t l)) in
  do! lwip_error (bool_decide (blk_state b = CLOSED));
  do! tc (update_tcp l (λ c, c <| tp_remote_ip := ipaddr |> <| tp_remote_port := port |>));
  let! c := tc (ask (λ t, get_tcp t l)) in
  let! netif :=
    (if tp_netif_idx c =? NETIF_NO_INDEX then tc (lift (P := ipstate) (ip4_route_src (Some (tp_local_ip c)) ipaddr))
     else tc (gets (λ t, netif_get_by_index (tp_netif_idx c) (t_ip t)))) in
  if negb netif then ret ERR_RTE else
  let! n := tc (gets (λ t, global_if (t_ip t))) in
  do! (if ip4_addr_isany (tp_local_ip c) then tc (update_tcp l (λ c, c <| tp_local_ip := ni_ip_addr n |>)) else ret tt);
  let old_local_port := tp_local_port c in
  let! has_port :=
    (if old_local_port =? 0 then
       let! port := tc tcp_new_port in
       do! tc (update_tcp l (λ c, c <| tp_local_port := port |>));
       ret (negb (port =? 0))
     else ret true) in
  if negb has_port then ret ERR_BUF else
  let! iss := tc (tcp_next_iss (Some l)) in
  do! tc (update_tcp l (connect_vars iss (tcp_eff_send_mss_netif INITIAL_MSS netif n) connected));
  let! err := tcp_enqueue_flags l TCP_SYN in
  do! (if is_ok err then
         do! tc (update_tcp l (λ c, c <| tp_state := SYN_SENT |>));
         do! (if old_local_port =? 0 then ret tt else tc (TCP_RMV L_bound l));
         do! TCP_REG_ACTIVE l;
         let! _ := tcp_output l in ret tt
       else ret tt);
  ret err.

End tcp.
