(* ===== verification/TcpOut.v ===== *)
(** * TCP: output ([core/tcp_out.c])

    Segments are made, queued on [tp_unsent], sent, kept on [tp_unacked] until
    they are acknowledged, and moved back to be sent again.  [tcp_write] takes the
    application's data by its address in the heap.

    The header is the packed [struct tcp_hdr] ([include/lwip/prot/tcp.h]): source
    and destination port at 0 and 2, sequence number at 4, acknowledgement at 8,
    the length with the flags at 12, window at 14, checksum at 16, urgent pointer
    at 18, options from 20. *)

From S2P Require Import Prelude Mbox Heap Pbuf PbufData Def Chksum Addr Timeouts Header Ip4 Tcp.

(** ** Constants of the configuration *)

Definition TCP_OVERSIZE : Z := TCP_MSS.
Definition TCP_SND_QUEUELEN : Z := 64.
Definition TCP_SNDQUEUELEN_OVERFLOW : Z := 65535 - 3.
Definition TCP_RCV_SCALE : Z := 8.
Definition LWIP_TCP_MAX_SACK_NUM : nat := 4.
Definition TCP_MAX_OPTION_BYTES : Z := 40.
Definition TCP_FLAGS : Z := 63.
Definition PBUF_TYPE_FLAG_DATA_VOLATILE : Z := 64.
Definition TCP_WRITE_FLAG_COPY : Z := 1.
Definition TCP_WRITE_FLAG_MORE : Z := 2.

Definition TF_SEG_OPTS_MSS : Z := 1.
Definition TF_SEG_OPTS_WND_SCALE : Z := 8.
Definition TF_SEG_OPTS_SACK_PERM : Z := 16.

Definition has_bits (flags bits : Z) : bool := negb (Z.land flags bits =? 0).

(** [LWIP_TCP_OPT_LENGTH_SEGMENT] *)
Definition LWIP_TCP_OPT_LENGTH (flags : Z) : Z :=
  (if has_bits flags TF_SEG_OPTS_MSS then 4 else 0) + (if has_bits flags TF_SEG_OPTS_WND_SCALE then 4 else 0)
  + (if has_bits flags TF_SEG_OPTS_SACK_PERM then 4 else 0).

Definition RCV_WND_SCALE (c : tcp_pcb) (wnd : Z) : Z := Z.shiftr wnd (tp_rcv_scale c).
Definition LWIP_TCP_SACK_VALID (s : Z * Z) : bool := negb (fst s =? snd s).

(** ** The header *)

Definition TCPH_HDRLEN (s : store) (h : option ptr) : res Z := let* f := rd16 s h 12 in Val (Z.shiftr (lwip_htons f) 12).
Definition TCPH_FLAGS (s : store) (h : option ptr) : res Z := let* f := rd16 s h 12 in Val (Z.land (lwip_htons f) TCP_FLAGS).
Definition TCPH_HDRLEN_FLAGS_SET (h : option ptr) (len flags : Z) : M store unit :=
  wr16 h 12 (lwip_htons (Z.lor (u16 (Z.shiftl len 12)) flags)).
Definition TCPH_SET_FLAG (h : option ptr) (flags : Z) : M store unit :=
  let! f := ask (λ s, rd16 s h 12) in wr16 h 12 (Z.lor f (lwip_htons flags)).
Definition TCPH_UNSET_FLAG (h : option ptr) (flags : Z) : M store unit :=
  let! f := ask (λ s, rd16 s h 12) in wr16 h 12 (Z.land f (Z.lnot (lwip_htons flags))).
Definition TCPH_FLAGS_SET (h : option ptr) (flags : Z) : M store unit :=
  let! f := ask (λ s, rd16 s h 12) in
  wr16 h 12 (Z.lor (Z.land f (lwip_htons (u16 (Z.lnot TCP_FLAGS)))) (lwip_htons flags)).

(** Of a segment in the queues. *)
Definition seg_flag_bits (t : tstate) (seg : loc) : res Z :=
  let* g := get_seg t seg in TCPH_FLAGS (ip_store (t_ip t)) (seg_tcphdr g).
Definition seg_seqno (t : tstate) (seg : loc) : res Z :=
  let* g := get_seg t seg in
  let* n := rd32 (ip_store (t_ip t)) (seg_tcphdr g) 4 in Val (lwip_htonl n).
Definition TCP_TCPLEN (t : tstate) (g : tcp_seg) : res Z :=
  let* f := TCPH_FLAGS (ip_store (t_ip t)) (seg_tcphdr g) in
  Val (seg_len g + (if has_bits f (Z.lor TCP_FIN TCP_SYN) then 1 else 0)).
Definition seg_tcplen (t : tstate) (seg : loc) : res Z := let* g := get_seg t seg in TCP_TCPLEN t g.
Definition set_seg_flag (seg : loc) (flags : Z) : M tstate unit :=
  let! g := ask (λ t, get_seg t seg) in tst (TCPH_SET_FLAG (seg_tcphdr g) flags).
Definition update_seg (seg : loc) (f : tcp_seg → tcp_seg) : M tstate unit :=
  let! g := ask (λ t, get_seg t seg) in modify (λ t, t <| tcp_segs := <[seg := f g]> (tcp_segs t) |>).

(** ** Making segments *)

Definition tcp_route (pcb : option loc) (src : option Z) (dst : Z) : M tstate bool :=
  match pcb with
  | None => lift (P := ipstate) (ip4_route_src src dst)
  | Some l =>
    let! b := ask (λ t, get_blk t l) in
    if negb (blk_netif_idx b =? NETIF_NO_INDEX) then gets (λ t, netif_get_by_index (blk_netif_idx b) (t_ip t))
    else lift (P := ipstate) (ip4_route_src src dst)
  end.

(** [p] is the segment's, or freed when there is none. *)
Definition tcp_create_segment (pcb : loc) (p : option loc) (hdrflags seqno optflags : Z) : M tstate (option loc) :=
  do! lwip_assert (bool_decide (p ≠ None));
  let optlen := LWIP_TCP_OPT_LENGTH optflags in
  let! seg := tst (memp_malloc MEMP_TCP_SEG) in
  match seg with
  | None => let! _ := tst (pbuf_free p) in ret None
  | Some l =>
    let! tot_len := tst (tot_len_of p) in
    do! lwip_assert (optlen <=? tot_len);
    do! modify (λ t, t <| tcp_segs := <[l := mk_tcp_seg p (u16 (tot_len - optlen)) optflags None]> (tcp_segs t) |>);
    let! e := tst (pbuf_add_header p TCP_HLEN) in
    if negb (e =? 0) then do! tcp_seg_free seg; ret None else
    let! h := tst (payload_of p) in
    do! update_seg l (λ g, g <| seg_tcphdr := h |>);
    let! c := ask (λ t, get_tcp t pcb) in
    do! tst (wr16 h 0 (lwip_htons (tp_local_port c)));
    do! tst (wr16 h 2 (lwip_htons (tp_remote_port c)));
    do! tst (wr32 h 4 (lwip_htonl (u32 seqno)));
    do! tst (TCPH_HDRLEN_FLAGS_SET h (5 + optlen / 4) hdrflags);
    do! tst (wr16 h 18 0);
    ret seg
  end.

(** Room for more data is allocated when the segment will probably not be sent at
    once.  The result is the pbuf and the room left in it. *)
Definition tcp_pbuf_prealloc (layer : pbuf_layer) (length max_length : Z) (pcb : loc) (apiflags : Z) (first_seg : bool)
    : M tstate (option (loc * Z)) :=
  let! c := ask (λ t, get_tcp t pcb) in
  let alloc :=
    if (length <? max_length)
       && (has_bits apiflags TCP_WRITE_FLAG_MORE
           || (negb (tcp_is_flag_set c TF_NODELAY)
               && (negb first_seg || negb (bool_decide (tp_unsent c = [])) || negb (bool_decide (tp_unacked c = [])))))
    then u16 (Z.min max_length (LWIP_MEM_ALIGN_SIZE (length + TCP_OVERSIZE)))
    else length in
  let! p := tst (pbuf_alloc layer alloc PBUF_RAM) in
  match p with
  | None => ret None
  | Some l =>
    let! q := tst (ask (λ s, get_pbuf s l)) in
    do! lwip_assert (bool_decide (pb_next q = None));
    do! tst (update_pbuf l (λ q, q <| pb_len := length |> <| pb_tot_len := length |>));
    ret (Some (l, u16 (pb_len q - length)))
  end.

(** ** Writing *)

Definition tcp_write_checks (pcb : loc) (len : Z) : M tstate err_t :=
  let! c := ask (λ t, get_tcp t pcb) in
  match tp_state c with
  | ESTABLISHED | CLOSE_WAIT | SYN_SENT | SYN_RCVD =>
    if len =? 0 then ret ERR_OK else
    if tp_snd_buf c <? len then do! tcp_set_flags pcb TF_NAGLEMEMERR; ret ERR_MEM else
    if Z.min TCP_SND_QUEUELEN (TCP_SNDQUEUELEN_OVERFLOW + 1) <=? tp_snd_queuelen c
    then do! tcp_set_flags pcb TF_NAGLEMEMERR; ret ERR_MEM else
    do! lwip_assert (if tp_snd_queuelen c =? 0
                     then bool_decide (tp_unacked c = []) && bool_decide (tp_unsent c = [])
                     else negb (bool_decide (tp_unacked c = [])) || negb (bool_decide (tp_unsent c = [])));
    ret ERR_OK
  | _ => ret ERR_CONN
  end.

(** [memcpy(p + o, src + from, n)] *)
Definition copy_mem (p : option ptr) (o : Z) (src : ptr) (from n : Z) : M store unit :=
  let! bs := ask (λ s, mem_read s (Some src) from n) in mem_write p o bs.

(** The last pbuf of a chain. *)
Fixpoint last_pbuf (fuel : nat) (s : store) (p : loc) : res loc :=
  match fuel with
  | O => Err OutOfFuel
  | S fuel =>
    let* q := get_pbuf s p in
    match pb_next q with None => Val p | Some n => last_pbuf fuel s n end
  end.

(** What the first two phases of [tcp_write] come to: how much of the data goes to
    the last unsent segment ([last_unsent]), and where. *)
Record write_plan := mk_write_plan {
  wp_pos : Z;                   (* bytes placed so far *)
  wp_queuelen : Z;
  wp_oversize : Z;
  wp_oversize_used : Z;         (* at the end of its last pbuf *)
  wp_concat_p : option loc;     (* in a pbuf to be chained to it *)
  wp_extendlen : Z;             (* by extending its last pbuf, which refers to the data before *)
  wp_seg : option loc           (* the segment written to last *)
}.
#[export] Instance eta_write_plan : Eta write_plan := λ r,
  mk_write_plan (wp_pos r) (wp_queuelen r) (wp_oversize r) (wp_oversize_used r) (wp_concat_p r) (wp_extendlen r) (wp_seg r).

(** Phase 2: the rest of the room in the segment. *)
Definition tcp_write_concat (pcb : loc) (a : ptr) (len apiflags space : Z) (last_unsent : loc) (w : write_plan)
    : M tstate (option write_plan) :=
  let! g := ask (λ t, get_seg t last_unsent) in
  let pos := wp_pos w in
  if negb ((pos <? len) && (0 <? space) && (0 <? seg_len g)) then ret (Some w) else
  let seglen := u16 (Z.min space (len - pos)) in
  let w' := w <| wp_pos := u16 (pos + seglen) |> <| wp_seg := Some last_unsent |> in
  if has_bits apiflags TCP_WRITE_FLAG_COPY then
    let! r := tcp_pbuf_prealloc PBUF_RAW seglen space pcb apiflags true in
    match r with
    | None => ret None
    | Some (concat_p, oversize) =>
      let! payload := tst (payload_of (Some concat_p)) in
      do! tst (copy_mem payload 0 a pos seglen);
      let! n := tst (ask (λ s, pbuf_clen s (Some concat_p))) in
      ret (Some (w' <| wp_oversize := oversize |> <| wp_concat_p := Some concat_p |>
                    <| wp_queuelen := u16 (wp_queuelen w + n) |>))
    end
  else
    let! fuel := tst (gets chain_fuel) in
    let! first := ask (λ _, deref (seg_p g)) in
    let! p := tst (ask (λ s, last_pbuf fuel s first)) in
    let! q := tst (ask (λ s, get_pbuf s p)) in
    if (Z.land (pb_type_internal q) (Z.lor PBUF_TYPE_FLAG_STRUCT_DATA_CONTIGUOUS PBUF_TYPE_FLAG_DATA_VOLATILE) =? 0)
       && bool_decide ((λ d, ptr_add d (pb_len q)) <$> pb_payload q = Some a) then
      do! lwip_assert (pos =? 0);
      ret (Some (w' <| wp_extendlen := seglen |>))
    else
      let! r := tst (pbuf_alloc PBUF_RAW seglen PBUF_ROM) in
      match r with
      | None => ret None
      | Some concat_p =>
        do! tst (update_pbuf concat_p (λ q, q <| pb_payload := Some (ptr_add a pos) |>));
        let! n := tst (ask (λ s, pbuf_clen s (Some concat_p))) in
        ret (Some (w' <| wp_concat_p := Some concat_p |> <| wp_queuelen := u16 (wp_queuelen w + n) |>))
      end.

(** Phases 1 and 2; [None] when memory is missing. *)
Definition tcp_write_tail (pcb : loc) (a : ptr) (len apiflags mss_local : Z) : M tstate (option write_plan) :=
  let! c := ask (λ t, get_tcp t pcb) in
  let w := mk_write_plan 0 (tp_snd_queuelen c) 0 0 None 0 None in
  match list.last (tp_unsent c) with
  | None =>
    do! lwip_assert (tp_unsent_oversize c =? 0);
    ret (Some w)
  | Some last_unsent =>
    let! g := ask (λ t, get_seg t last_unsent) in
    let unsent_len := seg_len g + LWIP_TCP_OPT_LENGTH (seg_flags g) in
    do! lwip_assert (unsent_len <=? mss_local);
    let space := u16 (mss_local - unsent_len) in
    let oversize := tp_unsent_oversize c in
    do! lwip_assert ((oversize <=? 0) || (oversize <=? space));
    let used := if 0 <? oversize then Z.min space (Z.min oversize len) else 0 in
    let w := w <| wp_pos := used |> <| wp_oversize := u16 (oversize - used) |> <| wp_oversize_used := used |>
               <| wp_seg := if 0 <? oversize then Some last_unsent else None |> in
    do! lwip_assert ((wp_oversize w =? 0) || (used =? len));
    tcp_write_concat pcb a len apiflags (u16 (space - used)) last_unsent w
  end.

(** The pbuf of a new segment with [seglen] bytes of the data from [pos], and the room left in it. *)
Definition tcp_write_pbuf (pcb : loc) (a : ptr) (pos seglen optlen mss_local apiflags oversize : Z) (first : bool)
    : M tstate (option (loc * Z)) :=
  if has_bits apiflags TCP_WRITE_FLAG_COPY then
    let! r := tcp_pbuf_prealloc PBUF_TRANSPORT (u16 (seglen + optlen)) mss_local pcb apiflags first in
    match r with
    | None => ret None
    | Some (p, oversize) =>
      let! q := tst (ask (λ s, get_pbuf s p)) in
      do! lwip_assert (seglen <=? pb_len q);
      do! tst (copy_mem (pb_payload q) optlen a pos seglen);
      ret r
    end
  else
    do! lwip_assert (oversize =? 0);
    let! p2 := tst (pbuf_alloc PBUF_TRANSPORT seglen PBUF_ROM) in
    match p2 with
    | None => ret None
    | Some l2 =>
      do! tst (update_pbuf l2 (λ q, q <| pb_payload := Some (ptr_add a pos) |>));
      let! p := tst (pbuf_alloc PBUF_TRANSPORT optlen PBUF_RAM) in
      match p with
      | None => let! _ := tst (pbuf_free p2) in ret None
      | Some l => do! tst (pbuf_cat p p2); ret (Some (l, oversize))
      end
    end.

(** Phase 3: new segments for the data from [pos] on.  The result is whether there
    was memory, the segments, the number of pbufs and the room left in the last. *)
Fixpoint tcp_write_segs (fuel : nat) (pcb : loc) (a : ptr) (len apiflags mss_local pos queuelen oversize : Z) (queue : list loc)
    : M tstate (bool * list loc * Z * Z) :=
  if len <=? pos then ret (true, queue, queuelen, oversize) else
  match fuel with
  | O => fail OutOfFuel
  | S fuel =>
    let optlen := LWIP_TCP_OPT_LENGTH 0 in
    let seglen := Z.min (u16 (len - pos)) (u16 (mss_local - optlen)) in
    let! r := tcp_write_pbuf pcb a pos seglen optlen mss_local apiflags oversize (bool_decide (queue = [])) in
    match r with
    | None => ret (false, queue, queuelen, oversize)
    | Some (p, oversize) =>
      let! n := tst (ask (λ s, pbuf_clen s (Some p))) in
      let queuelen := u16 (queuelen + n) in
      if Z.min TCP_SND_QUEUELEN TCP_SNDQUEUELEN_OVERFLOW <? queuelen
      then let! _ := tst (pbuf_free (Some p)) in ret (false, queue, queuelen, oversize) else
      let! c := ask (λ t, get_tcp t pcb) in
      let! seg := tcp_create_segment pcb (Some p) 0 (u32 (tp_snd_lbb c + pos)) 0 in
      match seg with
      | None => ret (false, queue, queuelen, oversize)
      | Some l => tcp_write_segs fuel pcb a len apiflags mss_local (u16 (pos + seglen)) queuelen oversize (queue ++ [l])
      end
    end
  end.

(** [n] more bytes in a chain, at the end of its last pbuf; [copy] puts them there. *)
Fixpoint extend_chain (fuel : nat) (copy : pbuf → M store unit) (n : Z) (p : loc) : M store unit :=
  match fuel with
  | O => fail OutOfFuel
  | S fuel =>
    do! update_pbuf p (λ q, q <| pb_tot_len := u16 (pb_tot_len q + n) |>);
    let! q := ask (λ s, get_pbuf s p) in
    match pb_next q with
    | Some l => extend_chain fuel copy n l
    | None => do! copy q; update_pbuf p (λ q, q <| pb_len := u16 (pb_len q + n) |>)
    end
  end.
Definition extend_seg (copy : pbuf → M store unit) (n : Z) (seg : loc) : M tstate unit :=
  let! g := ask (λ t, get_seg t seg) in
  let! p := ask (λ _, deref (seg_p g)) in
  let! fuel := tst (gets chain_fuel) in
  do! tst (extend_chain fuel copy n p);
  update_seg seg (λ g, g <| seg_len := u16 (seg_len g + n) |>).

(** Nothing can fail any more: the data goes into the last unsent segment. *)
Definition tcp_write_commit_tail (pcb : loc) (a : ptr) (last_unsent : option loc) (w : write_plan) (oversize : Z) : M tstate unit :=
  let used := wp_oversize_used w in
  do! (if 0 <? used then
         let! l := ask (λ _, deref last_unsent) in extend_seg (λ q, copy_mem (pb_payload q) (pb_len q) a 0 used) used l
       else ret tt);
  do! update_tcp pcb (λ c, c <| tp_unsent_oversize := oversize |>);
  match wp_concat_p w with
  | Some p =>
    let! l := valid_ptr last_unsent in
    let! g := ask (λ t, get_seg t l) in
    do! tst (pbuf_cat (seg_p g) (Some p));
    let! n := tst (tot_len_of (Some p)) in
    update_seg l (λ g, g <| seg_len := u16 (seg_len g + n) |>)
  | None =>
    if 0 <? wp_extendlen w then let! l := valid_ptr last_unsent in extend_seg (λ _, ret tt) (wp_extendlen w) l
    else ret tt
  end.

Definition mss_local_of (c : tcp_pcb) : Z :=
  let m := Z.min (tp_mss c) (TCPWND_MIN16 (tp_snd_wnd_max c / 2)) in if m =? 0 then tp_mss c else m.

Definition check_queue (pcb : loc) : M tstate unit :=
  let! c := ask (λ t, get_tcp t pcb) in
  lwip_assert ((tp_snd_queuelen c =? 0) || negb (bool_decide (tp_unacked c = [])) || negb (bool_decide (tp_unsent c = []))).

(** [memerr:] *)
Definition tcp_write_memerr (pcb : loc) (concat_p : option loc) (queue : list loc) : M tstate err_t :=
  do! tcp_set_flags pcb TF_NAGLEMEMERR;
  do! (match concat_p with None => ret tt | Some _ => let! _ := tst (pbuf_free concat_p) in ret tt end);
  do! tcp_segs_free queue;
  do! check_queue pcb;
  ret ERR_MEM.

(** Every turn of phase 3 takes a byte at least. *)
Definition tcp_write (pcb : option loc) (data : option ptr) (len apiflags : Z) : M tstate err_t :=
  let! pcb := valid_ptr pcb in
  let! c := ask (λ t, get_tcp t pcb) in
  let mss_local := mss_local_of c in
  let! a := valid_ptr data in
  let! err := tcp_write_checks pcb len in
  if negb (is_ok err) then ret err else
  let! plan := tcp_write_tail pcb a len apiflags mss_local in
  match plan with
  | None => tcp_write_memerr pcb None []
  | Some w =>
    let! '(ok, queue, queuelen, oversize) :=
      tcp_write_segs (S (Z.to_nat len)) pcb a len apiflags mss_local (wp_pos w) (wp_queuelen w) (wp_oversize w) [] in
    if negb ok then tcp_write_memerr pcb (wp_concat_p w) queue else
    do! tcp_write_commit_tail pcb a (list.last (tp_unsent c)) w oversize;
    do! update_tcp pcb (λ c, c <| tp_unsent := tp_unsent c ++ queue |> <| tp_snd_lbb := u32 (tp_snd_lbb c + len) |>
                               <| tp_snd_buf := u32 (tp_snd_buf c - len) |> <| tp_snd_queuelen := queuelen |>);
    do! check_queue pcb;
    do! (match (match list.last queue with None => wp_seg w | l => l end) with
         | Some seg =>
           let! g := ask (λ t, get_seg t seg) in
           if bool_decide (seg_tcphdr g ≠ None) && negb (has_bits apiflags TCP_WRITE_FLAG_MORE)
           then set_seg_flag seg TCP_PSH else ret tt
         | None => ret tt
         end);
    ret ERR_OK
  end.

(** ** Splitting, and segments without data *)

(** [pbuf_copy_partial] to [dst + o] *)
Definition copy_from_chain (p : option loc) (dst : option ptr) (o len offset : Z) : M store Z :=
  let! '(n, d) := ask (λ s, pbuf_copy_partial s p (Some (replicate (Z.to_nat len) 0)) len offset) in
  do! mem_write dst o (ztake n d);
  ret n.

Definition clear_bit (flags bit : Z) : Z := Z.land flags (Z.lnot bit).

(** The first unsent segment is cut after [split] bytes.  When there is no memory
    for the second segment, [tcp_create_segment] has freed [p], which is freed
    once more. *)
Definition tcp_split_unsent_seg (pcb : loc) (split : Z) : M tstate err_t :=
  let! c := ask (λ t, get_tcp t pcb) in
  match tp_unsent c with
  | [] => ret ERR_MEM
  | useg :: rest =>
    do! lwip_assert (negb (split =? 0));
    let! g := ask (λ t, get_seg t useg) in
    if seg_len g <=? split then ret ERR_OK else
    do! lwip_assert (split <=? tp_mss c);
    do! lwip_assert (0 <? seg_len g);
    let optflags := seg_flags g in
    let optlen := LWIP_TCP_OPT_LENGTH optflags in
    let remainder := u16 (seg_len g - split) in
    let! p := tst (pbuf_alloc PBUF_TRANSPORT (u16 (remainder + optlen)) PBUF_RAM) in
    match p with
    | None => ret ERR_MEM
    | Some l =>
      let! tot_len := tst (tot_len_of (seg_p g)) in
      let offset := u16 (tot_len - seg_len g + split) in
      let! payload := tst (payload_of p) in
      let! n := tst (copy_from_chain (seg_p g) payload optlen remainder offset) in
      if negb (n =? remainder) then let! _ := tst (pbuf_free p) in ret ERR_MEM else
      let! flags := ask (λ t, seg_flag_bits t useg) in
      let! seqno := ask (λ t, seg_seqno t useg) in
      let moved := Z.lor (Z.land flags TCP_PSH) (Z.land flags TCP_FIN) in
      let split_flags := clear_bit (clear_bit flags TCP_PSH) TCP_FIN in
      let! seg := tcp_create_segment pcb p moved (u32 (seqno + split)) optflags in
      match seg with
      | None => let! _ := tst (pbuf_free p) in ret ERR_MEM
      | Some sl =>
        let! n := tst (ask (λ s, pbuf_clen s (seg_p g))) in
        do! update_tcp pcb (λ c, c <| tp_snd_queuelen := u16 (tp_snd_queuelen c - n) |>);
        do! tst (pbuf_realloc (seg_p g) (u16 (tot_len - remainder)));
        do! update_seg useg (λ g, g <| seg_len := u16 (seg_len g - remainder) |>);
        do! set_seg_flag useg split_flags;
        let! n := tst (ask (λ s, pbuf_clen s (seg_p g))) in
        let! gs := ask (λ t, get_seg t sl) in
        let! m := tst (ask (λ s, pbuf_clen s (seg_p gs))) in
        do! update_tcp pcb (λ c, c <| tp_snd_queuelen := u16 (u16 (tp_snd_queuelen c + n) + m) |>
                                   <| tp_unsent := useg :: sl :: rest |>);
        do! (match rest with [] => update_tcp pcb (λ c, c <| tp_unsent_oversize := 0 |>) | _ => ret tt end);
        ret ERR_OK
      end
    end
  end.

(** The options of a segment with [flags]. *)
Definition syn_optflags (c : tcp_pcb) (flags : Z) : Z :=
  if has_bits flags TCP_SYN then
    let opt (f bit : Z) := if bool_decide (tp_state c ≠ SYN_RCVD) || tcp_is_flag_set c f then bit else 0 in
    Z.lor (Z.lor TF_SEG_OPTS_MSS (opt TF_WND_SCALE TF_SEG_OPTS_WND_SCALE)) (opt TF_SACK TF_SEG_OPTS_SACK_PERM)
  else 0.

Definition tcp_enqueue_flags (pcb : loc) (flags : Z) : M tstate err_t :=
  do! lwip_assert (has_bits flags (Z.lor TCP_SYN TCP_FIN));
  let! c := ask (λ t, get_tcp t pcb) in
  let optflags := syn_optflags c flags in
  let optlen := LWIP_TCP_OPT_LENGTH optflags in
  let! p := tst (pbuf_alloc PBUF_TRANSPORT optlen PBUF_RAM) in
  match p with
  | None => do! tcp_set_flags pcb TF_NAGLEMEMERR; ret ERR_MEM
  | Some l =>
    let! len := tst (len_of p) in
    do! lwip_assert (optlen <=? len);
    let! seg := tcp_create_segment pcb p flags (tp_snd_lbb c) optflags in
    match seg with
    | None => do! tcp_set_flags pcb TF_NAGLEMEMERR; ret ERR_MEM
    | Some sl =>
      let! g := ask (λ t, get_seg t sl) in
      do! lwip_assert (match seg_tcphdr g with Some h => off h mod 4 =? 0 | None => true end);
      do! lwip_assert (seg_len g =? 0);
      do! update_tcp pcb (λ c, c <| tp_unsent := tp_unsent c ++ [sl] |> <| tp_unsent_oversize := 0 |>
                                 <| tp_snd_lbb := u32 (tp_snd_lbb c + 1) |>);
      do! (if has_bits flags TCP_FIN then tcp_set_flags pcb TF_FIN else ret tt);
      let! n := tst (ask (λ s, pbuf_clen s (seg_p g))) in
      do! update_tcp pcb (λ c, c <| tp_snd_queuelen := u16 (tp_snd_queuelen c + n) |>);
      do! check_queue pcb;
      ret ERR_OK
    end
  end.

Definition tcp_send_fin (pcb : loc) : M tstate err_t :=
  let! c := ask (λ t, get_tcp t pcb) in
  match list.last (tp_unsent c) with
  | None => tcp_enqueue_flags pcb TCP_FIN
  | Some last_unsent =>
    let! flags := ask (λ t, seg_flag_bits t last_unsent) in
    if has_bits flags (Z.lor (Z.lor TCP_SYN TCP_FIN) TCP_RST) then tcp_enqueue_flags pcb TCP_FIN
    else do! set_seg_flag last_unsent TCP_FIN; do! tcp_set_flags pcb TF_FIN; ret ERR_OK
  end.

(** ** Sending again *)

Definition tcp_output_segment_busy (seg : loc) : M tstate bool :=
  let! g := ask (λ t, get_seg t seg) in
  let! p := ask (λ _, deref (seg_p g)) in
  let! q := tst (ask (λ s, get_pbuf s p)) in
  ret (negb (pb_ref q =? 1)).

(** Whether the driver still holds one of the segments. *)
Fixpoint any_busy (segs : list loc) : M tstate bool :=
  match segs with
  | [] => ret false
  | seg :: segs => let! busy := tcp_output_segment_busy seg in if busy then ret true else any_busy segs
  end.

Definition tcp_rexmit_rto_prepare (pcb : loc) : M tstate err_t :=
  let! c := ask (λ t, get_tcp t pcb) in
  match list.last (tp_unacked c) with
  | None => ret ERR_VAL
  | Some seg =>
    let! busy := any_busy (tp_unacked c) in
    if busy then ret ERR_VAL else
    do! update_tcp pcb (λ c, c <| tp_unsent := tp_unacked c ++ tp_unsent c |> <| tp_unacked := [] |>);
    do! tcp_set_flags pcb TF_RTO;
    let! seqno := ask (λ t, seg_seqno t seg) in
    let! n := ask (λ t, seg_tcplen t seg) in
    do! update_tcp pcb (λ c, c <| tp_rto_end := u32 (seqno + n) |> <| tp_rttest := 0 |>);
    ret ERR_OK
  end.

(** [seg] before the first segment of a higher sequence number. *)
Fixpoint insert_by_seqno (seg : loc) (seqno : Z) (segs : list loc) (t : tstate) : res (list loc) :=
  match segs with
  | [] => Val [seg]
  | cur :: segs' =>
    let* n := seg_seqno t cur in
    if TCP_SEQ_LT n seqno then let* l := insert_by_seqno seg seqno segs' t in Val (cur :: l)
    else Val (seg :: segs)
  end.

Definition incr_nrtx (c : tcp_pcb) : tcp_pcb := if tp_nrtx c <? 255 then c <| tp_nrtx := tp_nrtx c + 1 |> else c.

Definition tcp_rexmit (pcb : loc) : M tstate err_t :=
  let! c := ask (λ t, get_tcp t pcb) in
  match tp_unacked c with
  | [] => ret ERR_VAL
  | seg :: rest =>
    let! busy := tcp_output_segment_busy seg in
    if busy then ret ERR_VAL else
    do! update_tcp pcb (λ c, c <| tp_unacked := rest |>);
    let! seqno := ask (λ t, seg_seqno t seg) in
    let! unsent := ask (insert_by_seqno seg seqno (tp_unsent c)) in
    do! update_tcp pcb (λ c, c <| tp_unsent := unsent |>);
    do! (if decide (list.last unsent = Some seg) then update_tcp pcb (λ c, c <| tp_unsent_oversize := 0 |>) else ret tt);
    do! update_tcp pcb (λ c, (incr_nrtx c) <| tp_rttest := 0 |>);
    ret ERR_OK
  end.

(** Three acknowledgements in a row of the same segment: fast retransmission. *)
Definition enter_fast_recovery (c : tcp_pcb) : tcp_pcb :=
  let ssthresh := Z.min (tp_cwnd c) (tp_snd_wnd c) / 2 in
  let ssthresh := if ssthresh <? 2 * tp_mss c then 2 * tp_mss c else ssthresh in
  c <| tp_ssthresh := ssthresh |> <| tp_cwnd := u32 (ssthresh + 3 * tp_mss c) |>.
Definition tcp_rexmit_fast (pcb : loc) : M tstate unit :=
  let! c := ask (λ t, get_tcp t pcb) in
  if bool_decide (tp_unacked c ≠ []) && negb (tcp_is_flag_set c TF_INFR) then
    let! err := tcp_rexmit pcb in
    if is_ok err then
      do! update_tcp pcb enter_fast_recovery;
      do! tcp_set_flags pcb TF_INFR;
      update_tcp pcb (λ c, c <| tp_rtime := 0 |>)
    else ret tt
  else ret tt.
