(* ===== verification/TcpSend.v ===== *)
(** * TCP: sending ([core/tcp_out.c])

    The segments of the queue go out as the windows and Nagle's algorithm allow,
    and segments without data (acknowledgements, resets, probes) as they are made.
    With this the interface [tcp_out] of [Tcp] is an instance. *)

From S2P Require Import Prelude Mbox Heap Pbuf PbufData Def Chksum Addr Timeouts Header Ip4 Tcp TcpOut.

(** ** Headers *)

(** [seqno_be] is in network order. *)
Definition tcp_output_alloc_header_common (ackno optlen datalen seqno_be src_port dst_port flags wnd : Z) : M store (option loc) :=
  let! p := pbuf_alloc PBUF_IP (u16 (TCP_HLEN + optlen + datalen)) PBUF_RAM in
  match p with
  | None => ret None
  | Some _ =>
    let! len := len_of p in
    do! lwip_assert (TCP_HLEN + optlen <=? len);
    let! h := payload_of p in
    do! wr16 h 0 (lwip_htons src_port);
    do! wr16 h 2 (lwip_htons dst_port);
    do! wr32 h 4 seqno_be;
    do! wr32 h 8 (lwip_htonl ackno);
    do! TCPH_HDRLEN_FLAGS_SET h (5 + optlen / 4) flags;
    do! wr16 h 14 (lwip_htons wnd);
    do! wr16 h 16 0;
    do! wr16 h 18 0;
    ret p
  end.

(** The window the connection announces. *)
Definition ann_wnd (c : tcp_pcb) : Z := TCPWND_MIN16 (RCV_WND_SCALE c (tp_rcv_ann_wnd c)).

Definition tcp_output_alloc_header (pcb : loc) (optlen datalen seqno_be : Z) : M tstate (option loc) :=
  let! c := ask (λ t, get_tcp t pcb) in
  let! p := tst (tcp_output_alloc_header_common (tp_rcv_nxt c) optlen datalen seqno_be (tp_local_port c) (tp_remote_port c)
                   TCP_ACK (ann_wnd c)) in
  do! (match p with
       | None => ret tt
       | Some _ => update_tcp pcb (λ c, c <| tp_rcv_ann_right_edge := u32 (tp_rcv_nxt c + tp_rcv_ann_wnd c) |>)
       end);
  ret p.

(** ** Options *)

Fixpoint count_sacks (sacks : list (Z * Z)) (optlen : Z) : Z :=
  match sacks with
  | [] => 0
  | s :: sacks =>
    if (optlen <=? TCP_MAX_OPTION_BYTES) && LWIP_TCP_SACK_VALID s then 1 + count_sacks sacks (u8 (optlen + 8)) else 0
  end.
Definition tcp_get_num_sacks (c : tcp_pcb) (optlen : Z) : Z :=
  if tcp_is_flag_set c TF_SACK then count_sacks (take LWIP_TCP_MAX_SACK_NUM (tp_rcv_sacks c)) (u8 (optlen + 12)) else 0.

Fixpoint write_sacks (h : option ptr) (o : Z) (sacks : list (Z * Z)) : M store unit :=
  match sacks with
  | [] => ret tt
  | s :: sacks =>
    do! wr32 h o (lwip_htonl (fst s));
    do! wr32 h (o + 4) (lwip_htonl (snd s));
    write_sacks h (o + 8) sacks
  end.
(** [o] is where the options start. *)
Definition tcp_build_sack_option (c : tcp_pcb) (h : option ptr) (o num_sacks : Z) : M store unit :=
  do! wr32 h o (lwip_htonl (0x01010500 + 2 + num_sacks * 8));
  write_sacks h (o + 4) (ztake num_sacks (tp_rcv_sacks c)).
Definition tcp_build_wnd_scale_option (h : option ptr) (o : Z) : M store unit :=
  wr32 h o (lwip_htonl (Z.lor 0x01030300 TCP_RCV_SCALE)).

(** [optflags] is always 0 here. *)
Definition tcp_output_fill_options (pcb : option loc) (p : option loc) (optflags num_sacks : Z) : M tstate unit :=
  do! lwip_assert (bool_decide (p ≠ None));
  let! h := tst (payload_of p) in
  let! sacks_len :=
    (match pcb with
     | Some l =>
       if 0 <? num_sacks then
         let! c := ask (λ t, get_tcp t l) in
         do! tst (tcp_build_sack_option c h TCP_HLEN num_sacks);
         ret (1 + num_sacks * 2)
       else ret 0
     | None => ret 0
     end) in
  lwip_assert (TCP_HLEN + sacks_len * 4 =? TCP_HLEN + sacks_len * 4 + LWIP_TCP_OPT_LENGTH optflags).

(** The options of a SYN segment: the offset after the last is the result. *)
Definition write_syn_options (h : option ptr) (flags mss : Z) : M store Z :=
  let! o := (if has_bits flags TF_SEG_OPTS_MSS
             then do! wr32 h TCP_HLEN (lwip_htonl (Z.lor 0x02040000 (Z.land mss 65535))); ret (TCP_HLEN + 4) else ret TCP_HLEN) in
  let! o := (if has_bits flags TF_SEG_OPTS_WND_SCALE then do! tcp_build_wnd_scale_option h o; ret (o + 4) else ret o) in
  if has_bits flags TF_SEG_OPTS_SACK_PERM then do! wr32 h o (lwip_htonl 0x01010402); ret (o + 4) else ret o.

(** ** Output *)

Section output.
Context {W : Type} `{!Part tstate W} `{!netif_driver W}.
#[local] Instance tcp_ip_part : Part ipstate W := part_trans ipstate tstate W.

Abbreviation tc m := (lift (P := tstate) (S := W) m).
Abbreviation st m := (tc (lift (P := ipstate) (lift (P := store) m))).

(** The connection's TTL and TOS, or the defaults. *)
Definition ttl_tos (pcb : option loc) : M tstate (Z * Z) :=
  match pcb with
  | Some l => let! b := ask (λ t, get_blk t l) in ret (blk_ttl b, blk_tos b)
  | None => ret (TCP_TTL, 0)
  end.

Definition tcp_output_control_segment (pcb : option loc) (p : option loc) (src dst : Z) : M W err_t :=
  do! lwip_assert (bool_decide (p ≠ None));
  let! netif := tc (tcp_route pcb (Some src) dst) in
  let! err :=
    (if negb netif then ret ERR_RTE else
     let! h := st (payload_of p) in
     let! tot_len := st (tot_len_of p) in
     let! chksum := st (ask (λ s, ip_chksum_pseudo s p IP_PROTO_TCP tot_len src dst)) in
     do! st (wr16 h 16 chksum);
     let! '(ttl, tos) := tc (ttl_tos pcb) in
     ip4_output_if p (Some src) (Some dst) ttl tos IP_PROTO_TCP) in
  let! _ := st (pbuf_free p) in
  ret err.

(** The window is swapped here and again in [tcp_output_alloc_header_common]. *)
Definition tcp_rst (pcb : option loc) (seqno ackno local_ip remote_ip local_port remote_port : Z) : M W unit :=
  let wnd := lwip_htons (Z.land (Z.shiftr TCP_WND TCP_RCV_SCALE) 65535) in
  let optlen := LWIP_TCP_OPT_LENGTH 0 in
  let! p := st (tcp_output_alloc_header_common ackno optlen 0 (lwip_htonl seqno) local_port remote_port
                  (Z.lor TCP_RST TCP_ACK) wnd) in
  match p with
  | None => ret tt
  | Some _ =>
    do! tc (tcp_output_fill_options pcb p 0 optlen);
    let! _ := tcp_output_control_segment pcb p local_ip remote_ip in ret tt
  end.

Definition tcp_send_empty_ack (pcb : loc) : M W err_t :=
  let! c := tc (ask (λ t, get_tcp t pcb)) in
  let num_sacks := tcp_get_num_sacks c (LWIP_TCP_OPT_LENGTH 0) in
  let optlen := LWIP_TCP_OPT_LENGTH 0 + (if 0 <? num_sacks then 4 + num_sacks * 8 else 0) in
  let! p := tc (tcp_output_alloc_header pcb optlen 0 (lwip_htonl (tp_snd_nxt c))) in
  match p with
  | None => do! tc (tcp_set_flags pcb (Z.lor TF_ACK_DELAY TF_ACK_NOW)); ret ERR_BUF
  | Some _ =>
    do! tc (tcp_output_fill_options (Some pcb) p 0 num_sacks);
    let! err := tcp_output_control_segment (Some pcb) p (tp_local_ip c) (tp_remote_ip c) in
    do! (if is_ok err then tc (tcp_clear_flags pcb (Z.lor TF_ACK_DELAY TF_ACK_NOW))
         else tc (tcp_set_flags pcb (Z.lor TF_ACK_DELAY TF_ACK_NOW)));
    ret err
  end.

Definition tcp_keepalive (pcb : loc) : M W err_t :=
  let! c := tc (ask (λ t, get_tcp t pcb)) in
  let optlen := LWIP_TCP_OPT_LENGTH 0 in
  let! p := tc (tcp_output_alloc_header pcb optlen 0 (lwip_htonl (u32 (tp_snd_nxt c - 1)))) in
  match p with
  | None => ret ERR_MEM
  | Some _ =>
    do! tc (tcp_output_fill_options (Some pcb) p 0 optlen);
    tcp_output_control_segment (Some pcb) p (tp_local_ip c) (tp_remote_ip c)
  end.

Definition tcp_zero_window_probe (pcb : loc) : M W err_t :=
  let! c := tc (ask (λ t, get_tcp t pcb)) in
  let optlen := LWIP_TCP_OPT_LENGTH 0 in
  match tp_unsent c with
  | [] => ret ERR_OK
  | seg :: _ =>
    do! tc (update_tcp pcb (λ c, if tp_persist_probe c <? 255 then c <| tp_persist_probe := tp_persist_probe c + 1 |> else c));
    let! g := tc (ask (λ t, get_seg t seg)) in
    let! flags := tc (ask (λ t, seg_flag_bits t seg)) in
    let is_fin := has_bits flags TCP_FIN && (seg_len g =? 0) in
    let len := if is_fin then 0 else 1 in
    let! seqno_be := st (ask (λ s, rd32 s (seg_tcphdr g) 4)) in
    let! p := tc (tcp_output_alloc_header pcb optlen len seqno_be) in
    match p with
    | None => ret ERR_MEM
    | Some _ =>
      let! h := st (payload_of p) in
      do! (if is_fin then st (TCPH_FLAGS_SET h (Z.lor TCP_ACK TCP_FIN)) else
           let! tot_len := st (tot_len_of (seg_p g)) in
           let! _ := st (copy_from_chain (seg_p g) h TCP_HLEN 1 (u16 (tot_len - seg_len g))) in ret tt);
      let! seqno := tc (ask (λ t, seg_seqno t seg)) in
      let snd_nxt := u32 (seqno + 1) in
      do! tc (update_tcp pcb (λ c, if TCP_SEQ_LT (tp_snd_nxt c) snd_nxt then c <| tp_snd_nxt := snd_nxt |> else c));
      do! tc (tcp_output_fill_options (Some pcb) p 0 optlen);
      tcp_output_control_segment (Some pcb) p (tp_local_ip c) (tp_remote_ip c)
    end
  end.

(** *** The segments of the queue *)

(** What precedes the TCP header when the segment has been sent before is taken off. *)
Definition uncover_header (g : tcp_seg) : M store unit :=
  let! p := ask (λ _, deref (seg_p g)) in
  let! q := ask (λ s, get_pbuf s p) in
  match seg_tcphdr g, pb_payload q with
  | Some h, Some a =>
    if decide (blk h = blk a) then
      let len := u16 (off h - off a) in
      set_pbuf p (q <| pb_len := u16 (pb_len q - len) |> <| pb_tot_len := u16 (pb_tot_len q - len) |> <| pb_payload := Some h |>)
    else fail Undefined
  | _, _ => fail Undefined
  end.

(** What the header says at the time it is sent; the result is where the options end. *)
Definition tcp_fill_header (seg : loc) (pcb : loc) (netif : bool) : M tstate Z :=
  let! g := ask (λ t, get_seg t seg) in
  let! c := ask (λ t, get_tcp t pcb) in
  let h := seg_tcphdr g in
  do! tst (wr32 h 8 (lwip_htonl (tp_rcv_nxt c)));
  do! tst (wr16 h 14 (lwip_htons (if has_bits (seg_flags g) TF_SEG_OPTS_WND_SCALE then TCPWND_MIN16 (tp_rcv_ann_wnd c)
                                  else ann_wnd c)));
  do! update_tcp pcb (λ c, c <| tp_rcv_ann_right_edge := u32 (tp_rcv_nxt c + tp_rcv_ann_wnd c) |>);
  let! n := gets (λ t, global_if (t_ip t)) in
  let! o := tst (write_syn_options h (seg_flags g) (u16 (tcp_eff_send_mss_netif TCP_MSS netif n))) in
  do! update_tcp pcb (λ c, if tp_rtime c <? 0 then c <| tp_rtime := 0 |> else c);
  do! (if tp_rttest c =? 0 then
         let! ticks := gets tcp_ticks in
         let! seqno := ask (λ t, seg_seqno t seg) in
         update_tcp pcb (λ c, c <| tp_rttest := ticks |> <| tp_rtseq := seqno |>)
       else ret tt);
  ret o.

(** The segment begins with its TCP header, and gets its checksum. *)
Definition tcp_finish_segment (seg : loc) (pcb : loc) (o : Z) : M tstate unit :=
  let! g := ask (λ t, get_seg t seg) in
  let h := seg_tcphdr g in
  do! tst (uncover_header g);
  do! tst (wr16 h 16 0);
  do! lwip_assert (o =? TCP_HLEN + LWIP_TCP_OPT_LENGTH (seg_flags g));
  let! tot_len := tst (tot_len_of (seg_p g)) in
  let! c := ask (λ t, get_tcp t pcb) in
  let! chksum := tst (ask (λ s, ip_chksum_pseudo s (seg_p g) IP_PROTO_TCP tot_len (tp_local_ip c) (tp_remote_ip c))) in
  tst (wr16 h 16 chksum).

Definition tcp_output_segment (seg : loc) (pcb : loc) (netif : bool) : M W err_t :=
  do! lwip_assert netif;
  let! busy := tc (tcp_output_segment_busy seg) in
  if busy then ret ERR_OK else
  let! o := tc (tcp_fill_header seg pcb netif) in
  do! tc (tcp_finish_segment seg pcb o);
  let! g := tc (ask (λ t, get_seg t seg)) in
  let! c := tc (ask (λ t, get_tcp t pcb)) in
  ip4_output_if (seg_p g) (Some (tp_local_ip c)) (Some (tp_remote_ip c)) (tp_ttl c) (tp_tos c) IP_PROTO_TCP.

(** Nagle's algorithm lets the first unsent segment go. *)
Definition tcp_do_output_nagle (c : tcp_pcb) (t : tstate) : res bool :=
  let* full :=
    match tp_unsent c with
    | [] => Val false
    | [seg] => let* g := get_seg t seg in Val (tp_mss c <=? seg_len g)
    | _ => Val true
    end in
  Val (bool_decide (tp_unacked c = []) || tcp_is_flag_set c (Z.lor TF_NODELAY TF_INFR) || full
       || (tcp_sndbuf c =? 0) || (TCP_SND_QUEUELEN <=? tp_snd_queuelen c)).

(** The segment that was sent leaves the queue: to [tp_unacked], or freed when it
    takes no sequence numbers. *)
Definition tcp_segment_sent (pcb seg : loc) : M tstate unit :=
  do! update_tcp pcb (λ c, c <| tp_unsent := tail (tp_unsent c) |>);
  do! update_tcp pcb (λ c, if bool_decide (tp_state c ≠ SYN_SENT)
                           then c <| tp_flags := Z.land (tp_flags c) (u16 (Z.lnot (Z.lor TF_ACK_DELAY TF_ACK_NOW))) |> else c);
  let! seqno := ask (λ t, seg_seqno t seg) in
  let! n := ask (λ t, seg_tcplen t seg) in
  let snd_nxt := u32 (seqno + n) in
  do! update_tcp pcb (λ c, if TCP_SEQ_LT (tp_snd_nxt c) snd_nxt then c <| tp_snd_nxt := snd_nxt |> else c);
  if 0 <? n then
    let! c := ask (λ t, get_tcp t pcb) in
    let! unacked :=
      (match list.last (tp_unacked c) with
       | None => ret [seg]
       | Some useg =>
         let! m := ask (λ t, seg_seqno t useg) in
         if TCP_SEQ_LT seqno m then ask (insert_by_seqno seg seqno (tp_unacked c)) else ret (tp_unacked c ++ [seg])
       end) in
    update_tcp pcb (λ c, c <| tp_unacked := unacked |>)
  else tcp_seg_free (Some seg).

(** The segment lies in the window [wnd]. *)
Definition in_send_window (c : tcp_pcb) (seg : loc) (wnd : Z) (t : tstate) : res bool :=
  let* g := get_seg t seg in
  let* seqno := seg_seqno t seg in
  Val (u32 (u32 (seqno - tp_lastack c) + seg_len g) <=? wnd).

(** Every turn sends a segment; the result is the error that ended it. *)
Fixpoint tcp_output_loop (fuel : nat) (pcb : loc) (netif : bool) (wnd : Z) : M W err_t :=
  let! c := tc (ask (λ t, get_tcp t pcb)) in
  match tp_unsent c with
  | [] => ret ERR_OK
  | seg :: _ =>
    let! ok := tc (ask (in_send_window c seg wnd)) in
    if negb ok then ret ERR_OK else
    match fuel with
    | O => fail OutOfFuel
    | S fuel =>
      let! flags := tc (ask (λ t, seg_flag_bits t seg)) in
      do! lwip_assert (negb (has_bits flags TCP_RST));
      let! nagle := tc (ask (tcp_do_output_nagle c)) in
      if negb nagle && negb (tcp_is_flag_set c (Z.lor TF_NAGLEMEMERR TF_FIN)) then ret ERR_OK else
      do! (if bool_decide (tp_state c ≠ SYN_SENT) then tc (set_seg_flag seg TCP_ACK) else ret tt);
      let! err := tcp_output_segment seg pcb netif in
      if negb (is_ok err) then do! tc (tcp_set_flags pcb TF_NAGLEMEMERR); ret err else
      do! tc (tcp_segment_sent pcb seg);
      tcp_output_loop fuel pcb netif wnd
    end
  end.

Definition ack_or_done (pcb : loc) (c : tcp_pcb) : M W err_t :=
  if tcp_is_flag_set c TF_ACK_NOW then tcp_send_empty_ack pcb
  else do! tc (tcp_clear_flags pcb TF_NAGLEMEMERR); ret ERR_OK.

(** The peer's window is closed: from now on it is probed. *)
Definition start_persist (wnd : Z) (c : tcp_pcb) : tcp_pcb :=
  if (wnd =? tp_snd_wnd c) && bool_decide (tp_unacked c = []) && (tp_persist_backoff c =? 0)
  then c <| tp_persist_cnt := 0 |> <| tp_persist_backoff := 1 |> <| tp_persist_probe := 0 |> else c.

Definition tcp_output (pcb : loc) : M W err_t :=
  let! b := tc (ask (λ t, get_blk t pcb)) in
  do! lwip_assert (bool_decide (blk_state b ≠ LISTEN));
  let! c := tc (ask (λ t, get_tcp t pcb)) in
  let! input_pcb := tc (gets tcp_input_pcb) in
  if bool_decide (input_pcb = Some pcb) then ret ERR_OK else
  let wnd := Z.min (tp_snd_wnd c) (tp_cwnd c) in
  match tp_unsent c with
  | [] => ack_or_done pcb c
  | seg :: _ =>
    let! netif := tc (tcp_route (Some pcb) (Some (tp_local_ip c)) (tp_remote_ip c)) in
    if negb netif then ret ERR_RTE else
    let! n := tc (gets (λ t, global_if (t_ip t))) in
    do! (if ip4_addr_isany (tp_local_ip c) then tc (update_tcp pcb (λ c, c <| tp_local_ip := ni_ip_addr n |>)) else ret tt);
    let! ok := tc (ask (in_send_window c seg wnd)) in
    if negb ok then
      do! tc (update_tcp pcb (start_persist wnd));
      ack_or_done pcb c
    else
      do! tc (update_tcp pcb (λ c, c <| tp_persist_backoff := 0 |>));
      let! err := tcp_output_loop (length (tp_unsent c)) pcb netif wnd in
      if negb (is_ok err) then ret err else
      do! tc (update_tcp pcb (λ c, if bool_decide (tp_unsent c = []) then c <| tp_unsent_oversize := 0 |> else c));
      do! tc (tcp_clear_flags pcb TF_NAGLEMEMERR);
      ret ERR_OK
  end.

Definition tcp_rexmit_rto_commit (pcb : loc) : M W unit :=
  do! tc (update_tcp pcb incr_nrtx);
  let! _ := tcp_output pcb in ret tt.
Definition tcp_rexmit_rto (pcb : loc) : M W unit :=
  let! err := tc (tcp_rexmit_rto_prepare pcb) in
  if is_ok err then tcp_rexmit_rto_commit pcb else ret tt.

#[export] Instance tcp_out_lwip : tcp_out W := {
  Tcp.tcp_output := tcp_output;
  Tcp.tcp_send_fin l := tc (tcp_send_fin l);
  Tcp.tcp_enqueue_flags l flags := tc (tcp_enqueue_flags l flags);
  Tcp.tcp_rst := tcp_rst;
  Tcp.tcp_zero_window_probe := tcp_zero_window_probe;
  Tcp.tcp_split_unsent_seg l n := tc (tcp_split_unsent_seg l n);
  Tcp.tcp_keepalive := tcp_keepalive;
  Tcp.tcp_rexmit_rto_prepare l := tc (tcp_rexmit_rto_prepare l);
  Tcp.tcp_rexmit_rto_commit := tcp_rexmit_rto_commit
}.
End output.
