(* ===== verification/TcpIn.v ===== *)
(** * TCP: input ([core/tcp_in.c])

    A segment arrives ([tcp_input]), is handed to the connection or the listener
    it is for, and drives the state machine ([tcp_process]): acknowledgements take
    segments off the queues, data is put in order and handed to the application.

    The variables of the file are [in_vars], a field of the state.  In the headers
    of segments that were received, the ports, numbers and the window are in the
    byte order of the host. *)

From S2P Require Import Prelude Mbox Heap Pbuf Def Chksum Addr Timeouts Header Ip4 Tcp TcpOut TcpSend.

Definition LWIP_TCP_OPT_EOL : Z := 0.
Definition LWIP_TCP_OPT_NOP : Z := 1.
Definition LWIP_TCP_OPT_MSS : Z := 2.
Definition LWIP_TCP_OPT_WS : Z := 3.
Definition LWIP_TCP_OPT_SACK_PERM : Z := 4.
Definition SOF_INHERITED : Z := 12.
Definition PBUF_FLAG_PUSH : Z := 1.
Definition TCP_ACCEPT_ANY_PORT : Z := 1.

Definition LWIP_TCP_CALC_INITIAL_CWND (mss : Z) : Z := Z.min (4 * mss) (Z.max (2 * mss) 4380).
Definition SND_WND_SCALE (c : tcp_pcb) (wnd : Z) : Z := u32 (Z.shiftl wnd (tp_snd_scale c)).
Definition TCPWND_CHECK16 {S} (x : Z) : M S unit := lwip_assert (x <=? 65535).

(** The value of the enum. *)
Definition state_num (s : tcp_state) : Z :=
  match s with
  | CLOSED => 0 | LISTEN => 1 | SYN_SENT => 2 | SYN_RCVD => 3 | ESTABLISHED => 4 | FIN_WAIT_1 => 5 | FIN_WAIT_2 => 6
  | CLOSE_WAIT => 7 | CLOSING => 8 | LAST_ACK => 9 | TIME_WAIT => 10
  end.

(** ** The variables *)

Definition in_var {A} (f : in_vars → A) : M tstate A := gets (λ t, f (t_in t)).
Definition set_in (f : in_vars → in_vars) : M tstate unit := modify (λ t, t <| t_in := f (t_in t) |>).
Definition set_inseg (f : tcp_seg → tcp_seg) : M tstate unit := set_in (λ v, v <| inseg := f (inseg v) |>).
Definition set_recv_flag (flag : Z) : M tstate unit := modify (λ t, t <| recv_flags := u8 (Z.lor (recv_flags t) flag) |>).

(** [tcphdr->wnd], [tcphdr->src], [tcphdr->dest] *)
Definition hdr_field16 (o : Z) : M tstate Z := let! h := in_var tcphdr in tst (ask (λ s, rd16 s h o)).
(** [seg->tcphdr->seqno] of a segment that was received. *)
Definition host_seqno (t : tstate) (g : tcp_seg) : res Z := rd32 (ip_store (t_ip t)) (seg_tcphdr g) 4.
Definition host_seg_seqno (t : tstate) (seg : loc) : res Z := let* g := get_seg t seg in host_seqno t g.
(** [TCPH_FLAGS(inseg.tcphdr)] *)
Definition inseg_flag_bits : M tstate Z :=
  let! g := in_var inseg in tst (ask (λ s, TCPH_FLAGS s (seg_tcphdr g))).
(** [tcplen = TCP_TCPLEN(&inseg)] *)
Definition set_tcplen : M tstate unit :=
  let! g := in_var inseg in
  let! n := ask (λ t, TCP_TCPLEN t g) in
  set_in (λ v, v <| in_tcplen := u16 n |>).

(** ** Options *)

Definition tcp_get_next_optbyte : M tstate Z :=
  let! v := in_var id in
  let optidx := tcp_optidx v in
  do! set_in (λ v, v <| tcp_optidx := u16 (optidx + 1) |>);
  if bool_decide (tcphdr_opt2 v = None) || (optidx <? tcphdr_opt1len v)
  then tst (ask (λ s, rd8 s (tcphdr v) (TCP_HLEN + optidx)))
  else tst (ask (λ s, rd8 s (tcphdr_opt2 v) (u8 (optidx - tcphdr_opt1len v)))).

(** The length of an option: the byte has to be [len], and the option to end
    within the others. *)
Definition opt_length_ok (len : Z) : M tstate bool :=
  let! data := tcp_get_next_optbyte in
  if negb (data =? len) then ret false else
  let! v := in_var id in
  ret (negb (tcphdr_optlen v <? tcp_optidx v - 2 + len)).

Definition opt_mss (pcb : loc) : M tstate unit :=
  let! hi := tcp_get_next_optbyte in
  let! lo := tcp_get_next_optbyte in
  let mss := Z.lor (u16 (Z.shiftl hi 8)) lo in
  update_tcp pcb (λ c, c <| tp_mss := if (TCP_MSS <? mss) || (mss =? 0) then TCP_MSS else mss |>).

Definition opt_wnd_scale (pcb : loc) : M tstate unit :=
  let! data := tcp_get_next_optbyte in
  let! flags := in_var in_flags in
  let! c := ask (λ t, get_tcp t pcb) in
  if has_bits flags TCP_SYN && negb (tcp_is_flag_set c TF_WND_SCALE) then
    do! update_tcp pcb (λ c, c <| tp_snd_scale := if 14 <? data then 14 else data |> <| tp_rcv_scale := TCP_RCV_SCALE |>);
    do! tcp_set_flags pcb TF_WND_SCALE;
    do! lwip_assert (tp_rcv_wnd c =? TCPWND_MIN16 TCP_WND);
    do! lwip_assert (tp_rcv_ann_wnd c =? TCPWND_MIN16 TCP_WND);
    update_tcp pcb (λ c, c <| tp_rcv_wnd := TCP_WND |> <| tp_rcv_ann_wnd := TCP_WND |>)
  else ret tt.

Definition opt_sack_perm (pcb : loc) : M tstate unit :=
  let! flags := in_var in_flags in
  if has_bits flags TCP_SYN then tcp_set_flags pcb TF_SACK else ret tt.

(** One option; the result says whether to go on. *)
Definition parse_one_opt (pcb : loc) : M tstate bool :=
  let! opt := tcp_get_next_optbyte in
  let known (len : Z) (m : M tstate unit) : M tstate bool :=
    let! ok := opt_length_ok len in if ok then do! m; ret true else ret false in
  if opt =? LWIP_TCP_OPT_EOL then ret false
  else if opt =? LWIP_TCP_OPT_NOP then ret true
  else if opt =? LWIP_TCP_OPT_MSS then known 4 (opt_mss pcb)
  else if opt =? LWIP_TCP_OPT_WS then known 3 (opt_wnd_scale pcb)
  else if opt =? LWIP_TCP_OPT_SACK_PERM then known 2 (opt_sack_perm pcb)
  else
    let! data := tcp_get_next_optbyte in
    if data <? 2 then ret false else
    do! set_in (λ v, v <| tcp_optidx := u16 (tcp_optidx v + (data - 2)) |>);
    ret true.

Fixpoint tcp_parseopt_loop (fuel : nat) (pcb : loc) : M tstate unit :=
  match fuel with
  | O => fail OutOfFuel
  | S fuel =>
    let! v := in_var id in
    if tcp_optidx v <? tcphdr_optlen v then
      let! go_on := parse_one_opt pcb in
      if go_on then tcp_parseopt_loop fuel pcb else ret tt
    else ret tt
  end.

(** Every option takes a byte at least. *)
Definition tcp_parseopt (pcb : loc) : M tstate unit :=
  let! optlen := in_var tcphdr_optlen in
  if optlen =? 0 then ret tt else
  do! set_in (λ v, v <| tcp_optidx := 0 |>);
  tcp_parseopt_loop (S (Z.to_nat optlen)) pcb.

(** ** Selective acknowledgements *)

(** The entries before the first that is not valid, each kept as [f] says. *)
Fixpoint sacks_kept (f : Z * Z → option (Z * Z)) (sacks : list (Z * Z)) : list (Z * Z) :=
  match sacks with
  | [] => []
  | s :: sacks =>
    if LWIP_TCP_SACK_VALID s
    then match f s with Some s' => s' :: sacks_kept f sacks | None => sacks_kept f sacks end
    else []
  end.
(** The array with these entries, and zeros after them. *)
Definition sack_array (l : list (Z * Z)) : list (Z * Z) := take LWIP_TCP_MAX_SACK_NUM (l ++ no_sacks).

Definition add_sack (left right : Z) (sacks : list (Z * Z)) : list (Z * Z) :=
  sack_array ((left, right) ::
    sacks_kept (λ s, if TCP_SEQ_LEQ (snd s) left || TCP_SEQ_LEQ right (fst s) then Some s else None) sacks).
Definition tcp_add_sack (pcb : loc) (left right : Z) : M tstate unit :=
  let! c := ask (λ t, get_tcp t pcb) in
  if negb (tcp_is_flag_set c TF_SACK) || negb (TCP_SEQ_LT left right) then ret tt else
  update_tcp pcb (λ c, c <| tp_rcv_sacks := add_sack left right (tp_rcv_sacks c) |>).

Definition remove_sacks_lt (seq : Z) (sacks : list (Z * Z)) : list (Z * Z) :=
  sack_array (sacks_kept (λ s, if TCP_SEQ_GT (snd s) seq
                               then Some (if TCP_SEQ_LT (fst s) seq then seq else fst s, snd s) else None) sacks).
Definition tcp_remove_sacks_lt (pcb : loc) (seq : Z) : M tstate unit :=
  update_tcp pcb (λ c, c <| tp_rcv_sacks := remove_sacks_lt seq (tp_rcv_sacks c) |>).

(** ** Acknowledgements *)

(** Takes the acknowledged segments off the head of a queue; the result is what is
    left of it.  [other]: whether the other queue holds segments. *)
Fixpoint tcp_free_acked_segments (pcb : loc) (seg_list : list loc) (other : bool) : M tstate (list loc) :=
  match seg_list with
  | [] => ret []
  | next :: rest =>
    let! seqno := ask (λ t, seg_seqno t next) in
    let! len := ask (λ t, seg_tcplen t next) in
    let! ackno := in_var in_ackno in
    if TCP_SEQ_LEQ (u32 (seqno + len)) ackno then
      let! g := ask (λ t, get_seg t next) in
      let! clen := tst (ask (λ s, pbuf_clen s (seg_p g))) in
      let! c := ask (λ t, get_tcp t pcb) in
      do! lwip_assert (clen <=? tp_snd_queuelen c);
      do! update_tcp pcb (λ c, c <| tp_snd_queuelen := u16 (tp_snd_queuelen c - clen) |>);
      do! set_in (λ v, v <| recv_acked := u32 (recv_acked v + seg_len g) |>);
      do! tcp_seg_free (Some next);
      do! lwip_assert ((u16 (tp_snd_queuelen c - clen) =? 0) || negb (bool_decide (rest = [])) || other);
      tcp_free_acked_segments pcb rest other
    else ret seg_list
  end.

(** The peer's window, from the newest segment. *)
Definition rcv_update_snd_wnd (pcb : loc) : M tstate unit :=
  let! v := in_var id in
  let! wnd := hdr_field16 14 in
  let seqno := in_seqno v in let ackno := in_ackno v in
  update_tcp pcb (λ c,
    let snd_wnd := SND_WND_SCALE c wnd in
    if TCP_SEQ_LT (tp_snd_wl1 c) seqno
       || ((tp_snd_wl1 c =? seqno) && TCP_SEQ_LT (tp_snd_wl2 c) ackno)
       || ((tp_snd_wl2 c =? ackno) && (tp_snd_wnd c <? snd_wnd))
    then c <| tp_snd_wnd := snd_wnd |> <| tp_snd_wnd_max := if tp_snd_wnd_max c <? snd_wnd then snd_wnd else tp_snd_wnd_max c |>
           <| tp_snd_wl1 := seqno |> <| tp_snd_wl2 := ackno |>
    else c).

(** A duplicate of the last acknowledgement, by the five clauses of the comment. *)
Definition is_dupack (c : tcp_pcb) (v : in_vars) (right_wnd_edge : Z) : bool :=
  (in_tcplen v =? 0) && (u32 (tp_snd_wl2 c + tp_snd_wnd c) =? right_wnd_edge) && (0 <=? tp_rtime c)
  && (tp_lastack c =? in_ackno v).
Definition count_dupack (c : tcp_pcb) : tcp_pcb :=
  let c := if tp_dupacks c <? u8 (tp_dupacks c + 1) then c <| tp_dupacks := u8 (tp_dupacks c + 1) |> else c in
  if 3 <? tp_dupacks c then c <| tp_cwnd := TCP_WND_INC (tp_cwnd c) (tp_mss c) |> else c.
Definition rcv_old_ack (pcb : loc) (right_wnd_edge : Z) : M tstate unit :=
  let! v := in_var id in
  let! c := ask (λ t, get_tcp t pcb) in
  if is_dupack c v right_wnd_edge then
    do! update_tcp pcb count_dupack;
    let! c := ask (λ t, get_tcp t pcb) in
    if 3 <=? tp_dupacks c then tcp_rexmit_fast pcb else ret tt
  else update_tcp pcb (λ c, c <| tp_dupacks := 0 |>).

(** The congestion window after [acked] more bytes: slow start or congestion avoidance. *)
Definition grow_cwnd (acked : Z) (c : tcp_pcb) : tcp_pcb :=
  if tp_cwnd c <? tp_ssthresh c then
    let num_seg := if tcp_is_flag_set c TF_RTO then 1 else 2 in
    c <| tp_cwnd := TCP_WND_INC (tp_cwnd c) (Z.min acked (num_seg * tp_mss c)) |>
  else
    let c := c <| tp_bytes_acked := TCP_WND_INC (tp_bytes_acked c) acked |> in
    if tp_cwnd c <=? tp_bytes_acked c
    then c <| tp_bytes_acked := u32 (tp_bytes_acked c - tp_cwnd c) |> <| tp_cwnd := TCP_WND_INC (tp_cwnd c) (tp_mss c) |>
    else c.

(** What a new acknowledgement does to the connection before the queues are looked at. *)
Definition ack_progress (ackno : Z) (c : tcp_pcb) : tcp_pcb :=
  let c := if tcp_is_flag_set c TF_INFR
           then c <| tp_flags := Z.land (tp_flags c) (u16 (Z.lnot TF_INFR)) |> <| tp_cwnd := tp_ssthresh c |> <| tp_bytes_acked := 0 |>
           else c in
  let c := c <| tp_nrtx := 0 |> <| tp_rto := s16 (Z.shiftr (tp_sa c) 3 + tp_sv c) |> in
  let acked := u32 (ackno - tp_lastack c) in
  let c := c <| tp_dupacks := 0 |> <| tp_lastack := ackno |> in
  if state_num ESTABLISHED <=? state_num (tp_state c) then grow_cwnd acked c else c.

(** Whether the retransmission of what was in flight has ended. *)
Definition rto_done (pcb : loc) : M tstate unit :=
  let! c := ask (λ t, get_tcp t pcb) in
  if negb (tcp_is_flag_set c TF_RTO) then ret tt else
  let past (seg : loc) : M tstate unit :=
    let! seqno := ask (λ t, seg_seqno t seg) in
    if TCP_SEQ_LEQ (tp_rto_end c) seqno then tcp_clear_flags pcb TF_RTO else ret tt in
  match tp_unacked c, tp_unsent c with
  | [], [] => tcp_clear_flags pcb TF_RTO
  | [], seg :: _ => past seg
  | seg :: _, _ => past seg
  end.

Definition rcv_new_ack (pcb : loc) : M tstate unit :=
  let! ackno := in_var in_ackno in
  do! update_tcp pcb (ack_progress ackno);
  let! c := ask (λ t, get_tcp t pcb) in
  let! unacked := tcp_free_acked_segments pcb (tp_unacked c) (negb (bool_decide (tp_unsent c = []))) in
  do! update_tcp pcb (λ c, c <| tp_unacked := unacked |>);
  let! unsent := tcp_free_acked_segments pcb (tp_unsent c) (negb (bool_decide (unacked = []))) in
  do! update_tcp pcb (λ c, c <| tp_unsent := unsent |>);
  let! acked := in_var recv_acked in
  do! update_tcp pcb (λ c,
    (if bool_decide (unsent = []) then c <| tp_unsent_oversize := 0 |> else c)
      <| tp_rtime := if bool_decide (unacked = []) then -1 else 0 |> <| tp_polltmr := 0 |>
      <| tp_snd_buf := u32 (tp_snd_buf c + acked) |>);
  rto_done pcb.

(** Jacobson's estimate of the round trip, from a measurement that has ended. *)
Definition estimate_rtt (ticks : Z) (c : tcp_pcb) : tcp_pcb :=
  let m := s16 (u32 (ticks - tp_rttest c)) in
  let m := s16 (m - Z.shiftr (tp_sa c) 3) in
  let sa := s16 (tp_sa c + m) in
  let m := if m <? 0 then s16 (- m) else m in
  let m := s16 (m - Z.shiftr (tp_sv c) 2) in
  let sv := s16 (tp_sv c + m) in
  c <| tp_sa := sa |> <| tp_sv := sv |> <| tp_rto := s16 (Z.shiftr sa 3 + sv) |> <| tp_rttest := 0 |>.
Definition rcv_rtt (pcb : loc) : M tstate unit :=
  let! ackno := in_var in_ackno in
  let! ticks := gets tcp_ticks in
  update_tcp pcb (λ c, if negb (tp_rttest c =? 0) && TCP_SEQ_LT (tp_rtseq c) ackno then estimate_rtt ticks c else c).

(** ** Data *)

(** The pbufs before the one that holds byte [off] become empty. *)
Fixpoint skip_front (fuel : nat) (p : loc) (off new_tot_len : Z) : M store unit :=
  match fuel with
  | O => fail OutOfFuel
  | S fuel =>
    let! q := ask (λ s, get_pbuf s p) in
    if pb_len q <? off then
      do! set_pbuf p (q <| pb_tot_len := new_tot_len |> <| pb_len := 0 |>);
      let! n := ask (λ _, deref (pb_next q)) in
      skip_front fuel n (u16 (off - pb_len q)) new_tot_len
    else let! _ := pbuf_remove_header (Some p) off in ret tt
  end.

(** What was received before is cut off the front of the segment. *)
Definition trim_front (pcb : loc) : M tstate unit :=
  let! c := ask (λ t, get_tcp t pcb) in
  let! v := in_var id in
  let off32 := u32 (tp_rcv_nxt c - in_seqno v) in
  let! p := valid_ptr (seg_p (inseg v)) in
  do! lwip_assert (off32 <? 65535);
  let off := u16 off32 in
  let! tot_len := tst (tot_len_of (Some p)) in
  do! lwip_assert (off <=? tot_len);
  do! set_inseg (λ g, g <| seg_len := u16 (seg_len g - off) |>);
  let! fuel := tst (gets chain_fuel) in
  do! tst (skip_front fuel p off (u16 (tot_len - off)));
  do! tst (wr32 (seg_tcphdr (inseg v)) 4 (tp_rcv_nxt c));
  set_in (λ v, v <| in_seqno := tp_rcv_nxt c |>).

(** [inseg] is cut to [n] bytes, its SYN included. *)
Definition trim_inseg (n : Z) : M tstate unit :=
  do! set_inseg (λ g, g <| seg_len := u16 n |>);
  let! flags := inseg_flag_bits in
  do! (if has_bits flags TCP_SYN then set_inseg (λ g, g <| seg_len := u16 (seg_len g - 1) |>) else ret tt);
  let! g := in_var inseg in
  do! tst (pbuf_realloc (seg_p g) (seg_len g));
  set_tcplen.

(** No more than the window is taken. *)
Definition trim_to_window (pcb : loc) : M tstate unit :=
  let! c := ask (λ t, get_tcp t pcb) in
  let! tcplen := in_var in_tcplen in
  if tp_rcv_wnd c <? tcplen then
    let! h := (let! g := in_var inseg in ret (seg_tcphdr g)) in
    let! flags := inseg_flag_bits in
    do! (if has_bits flags TCP_FIN then tst (TCPH_FLAGS_SET h (clear_bit flags TCP_FIN)) else ret tt);
    do! TCPWND_CHECK16 (tp_rcv_wnd c);
    do! trim_inseg (tp_rcv_wnd c);
    let! v := in_var id in
    lwip_assert (u32 (in_seqno v + in_tcplen v) =? u32 (tp_rcv_nxt c + tp_rcv_wnd c))
  else ret tt.

(** The segments received early that [inseg] covers are dropped; a FIN of theirs
    passes to it.  The rest of the queue is returned. *)
Fixpoint drop_covered (l : list loc) : M tstate (list loc) :=
  match l with
  | [] => ret []
  | next :: rest =>
    let! g := ask (λ t, get_seg t next) in
    let! nseqno := ask (λ t, host_seqno t g) in
    let! v := in_var id in
    if TCP_SEQ_GEQ (u32 (in_seqno v + in_tcplen v)) (u32 (nseqno + seg_len g)) then
      let! nflags := ask (λ t, seg_flag_bits t next) in
      let! flags := inseg_flag_bits in
      do! (if has_bits nflags TCP_FIN && negb (has_bits flags TCP_SYN)
           then do! tst (TCPH_SET_FLAG (seg_tcphdr (inseg v)) TCP_FIN); set_tcplen else ret tt);
      do! tcp_seg_free (Some next);
      drop_covered rest
    else ret l
  end.

(** The queue of early segments, when [inseg] is the next in order. *)
Definition adjust_ooseq (pcb : loc) : M tstate unit :=
  let! c := ask (λ t, get_tcp t pcb) in
  match tp_ooseq c with
  | [] => ret tt
  | ooseq =>
    let! flags := inseg_flag_bits in
    if has_bits flags TCP_FIN then
      do! tcp_segs_free ooseq;
      update_tcp pcb (λ c, c <| tp_ooseq := [] |>)
    else
      let! rest := drop_covered ooseq in
      do! (match rest with
           | [] => ret tt
           | next :: _ =>
             let! nseqno := ask (λ t, host_seg_seqno t next) in
             let! v := in_var id in
             if TCP_SEQ_GT (u32 (in_seqno v + in_tcplen v)) nseqno then
               do! trim_inseg (nseqno - in_seqno v);
               let! v := in_var id in
               lwip_assert (u32 (in_seqno v + in_tcplen v) =? nseqno)
             else ret tt
           end);
      update_tcp pcb (λ c, c <| tp_ooseq := rest |>)
  end.

(** [n] more bytes are in order. *)
Definition advance_rcv (pcb : loc) (rcv_nxt n : Z) : M tstate unit :=
  do! update_tcp pcb (λ c, c <| tp_rcv_nxt := rcv_nxt |>);
  let! c := ask (λ t, get_tcp t pcb) in
  do! lwip_assert (n <=? tp_rcv_wnd c);
  do! update_tcp pcb (λ c, c <| tp_rcv_wnd := u32 (tp_rcv_wnd c - n) |>);
  let! _ := tcp_update_rcv_ann_wnd pcb in ret tt.

(** The data of [inseg] goes to the application. *)
Definition take_inseg : M tstate unit :=
  let! g := in_var inseg in
  let! tot_len := tst (tot_len_of (seg_p g)) in
  do! (if 0 <? tot_len then set_in (λ v, v <| recv_data := seg_p g |> <| inseg := (inseg v) <| seg_p := None |> |>)
       else ret tt);
  let! flags := inseg_flag_bits in
  if has_bits flags TCP_FIN then set_recv_flag TF_GOT_FIN else ret tt.

(** The data of an early segment that is now in order follows it. *)
Definition take_ooseq (pcb cseg : loc) : M tstate unit :=
  let! g := ask (λ t, get_seg t cseg) in
  let! tot_len := tst (tot_len_of (seg_p g)) in
  do! (if 0 <? tot_len then
         let! data := in_var recv_data in
         do! (match data with
              | Some _ => tst (pbuf_cat data (seg_p g))
              | None => set_in (λ v, v <| recv_data := seg_p g |>)
              end);
         update_seg cseg (λ g, g <| seg_p := None |>)
       else ret tt);
  let! flags := ask (λ t, seg_flag_bits t cseg) in
  if has_bits flags TCP_FIN then
    do! set_recv_flag TF_GOT_FIN;
    update_tcp pcb (λ c, if bool_decide (tp_state c = ESTABLISHED) then c <| tp_state := CLOSE_WAIT |> else c)
  else ret tt.

(** [l] is the queue of early segments. *)
Fixpoint deliver_ooseq (pcb : loc) (l : list loc) : M tstate unit :=
  match l with
  | [] => ret tt
  | cseg :: rest =>
    let! seqno := ask (λ t, host_seg_seqno t cseg) in
    let! c := ask (λ t, get_tcp t pcb) in
    if seqno =? tp_rcv_nxt c then
      do! set_in (λ v, v <| in_seqno := seqno |>);
      let! n := ask (λ t, seg_tcplen t cseg) in
      do! advance_rcv pcb (u32 (tp_rcv_nxt c + n)) n;
      do! take_ooseq pcb cseg;
      do! update_tcp pcb (λ c, c <| tp_ooseq := rest |>);
      do! tcp_seg_free (Some cseg);
      deliver_ooseq pcb rest
    else ret tt
  end.

Definition sacks_valid (c : tcp_pcb) : bool := match tp_rcv_sacks c with s :: _ => LWIP_TCP_SACK_VALID s | [] => false end.
(** The selective acknowledgements, after data in order. *)
Definition adjust_sacks (pcb : loc) : M tstate unit :=
  let! c := ask (λ t, get_tcp t pcb) in
  if negb (tcp_is_flag_set c TF_SACK) then ret tt else
  match tp_ooseq c with
  | next :: _ => let! seqno := ask (λ t, host_seg_seqno t next) in tcp_remove_sacks_lt pcb seqno
  | [] => if sacks_valid c then update_tcp pcb (λ c, c <| tp_rcv_sacks := no_sacks |>) else ret tt
  end.

(** ** Early segments *)

(** A queued segment is cut to [n] bytes. *)
Definition trim_seg (seg : loc) (n : Z) : M tstate unit :=
  do! update_seg seg (λ g, g <| seg_len := u16 n |>);
  let! g := ask (λ t, get_seg t seg) in
  tst (pbuf_realloc (seg_p g) (seg_len g)).

(** Drops those of [next] that [cseg] covers; the result is what follows [cseg]. *)
Fixpoint oos_drop (cseg : loc) (next : list loc) : M tstate (list loc) :=
  match next with
  | [] => ret []
  | old_seg :: rest =>
    let! seqno := in_var in_seqno in
    let! cg := ask (λ t, get_seg t cseg) in
    let! g := ask (λ t, get_seg t old_seg) in
    let! nseqno := ask (λ t, host_seqno t g) in
    if TCP_SEQ_GEQ (u32 (seqno + seg_len cg)) (u32 (nseqno + seg_len g)) then
      let! flags := ask (λ t, seg_flag_bits t old_seg) in
      do! (if has_bits flags TCP_FIN then set_seg_flag cseg TCP_FIN else ret tt);
      do! tcp_seg_free (Some old_seg);
      oos_drop cseg rest
    else ret next
  end.
(** The result is the list that begins with [cseg]. *)
Definition tcp_oos_insert_segment (cseg : loc) (next : list loc) : M tstate (list loc) :=
  let! flags := ask (λ t, seg_flag_bits t cseg) in
  if has_bits flags TCP_FIN then do! tcp_segs_free next; ret [cseg] else
  let! next := oos_drop cseg next in
  do! (match next with
       | [] => ret tt
       | n :: _ =>
         let! seqno := in_var in_seqno in
         let! cg := ask (λ t, get_seg t cseg) in
         let! nseqno := ask (λ t, host_seg_seqno t n) in
         if TCP_SEQ_GT (u32 (seqno + seg_len cg)) nseqno then trim_seg cseg (nseqno - seqno) else ret tt
       end);
  ret (cseg :: next).

(** A copy of [inseg] before [next]; without memory there is none. *)
Definition oos_copy_before (next : list loc) : M tstate (list loc) :=
  let! g := in_var inseg in
  let! cseg := tcp_seg_copy g in
  match cseg with Some cseg => tcp_oos_insert_segment cseg next | None => ret next end.

(** [seg] ends where [inseg] begins, if it went on. *)
Definition oos_trim_prev (seg : loc) : M tstate unit :=
  let! seqno := in_var in_seqno in
  let! g := ask (λ t, get_seg t seg) in
  let! pseqno := ask (λ t, host_seqno t g) in
  if TCP_SEQ_GT (u32 (pseqno + seg_len g)) seqno then trim_seg seg (seqno - pseqno) else ret tt.

(** A copy of [inseg] at the end of the queue, after [last]. *)
Definition oos_append (pcb last : loc) : M tstate (list loc) :=
  let! flags := ask (λ t, seg_flag_bits t last) in
  if has_bits flags TCP_FIN then ret [] else
  let! g := in_var inseg in
  let! cseg := tcp_seg_copy g in
  match cseg with
  | None => ret []
  | Some cseg =>
    do! oos_trim_prev last;
    let! v := in_var id in
    let! c := ask (λ t, get_tcp t pcb) in
    let edge := u32 (tp_rcv_nxt c + tp_rcv_wnd c) in
    do! (if TCP_SEQ_GT (u32 (in_tcplen v + in_seqno v)) edge then
           let! cg := ask (λ t, get_seg t cseg) in
           let! flags := ask (λ t, seg_flag_bits t cseg) in
           do! (if has_bits flags TCP_FIN then tst (TCPH_FLAGS_SET (seg_tcphdr cg) (clear_bit flags TCP_FIN)) else ret tt);
           do! trim_seg cseg (edge - in_seqno v);
           let! n := ask (λ t, seg_tcplen t cseg) in
           do! set_in (λ v, v <| in_tcplen := u16 n |>);
           lwip_assert (u32 (in_seqno v + u16 n) =? edge)
         else ret tt);
    ret [cseg]
  end.

(** Where the queue has a hole before [next], the range that [inseg] belongs to
    begins after it. *)
Definition hole_before (prev : option loc) (next : loc) (sackbeg : Z) (t : tstate) : res Z :=
  match prev with
  | None => Val sackbeg
  | Some prev =>
    let* g := get_seg t prev in
    let* pseqno := host_seqno t g in
    let* nseqno := host_seg_seqno t next in
    Val (if u32 (pseqno + seg_len g) =? nseqno then sackbeg else nseqno)
  end.

(** Walks over the queue, of which [seen] is behind, to where [inseg] belongs.
    The result is the queue before and after that place, and where the range of
    [inseg] begins. *)
Fixpoint oos_place (pcb : loc) (seen l : list loc) (sackbeg : Z) : M tstate (list loc * list loc * Z) :=
  match l with
  | [] => ret (seen, [], sackbeg)
  | next :: rest =>
    let! seqno := in_var in_seqno in
    let! ng := ask (λ t, get_seg t next) in
    let! nseqno := ask (λ t, host_seqno t ng) in
    if seqno =? nseqno then
      let! g := in_var inseg in
      let! after := (if seg_len ng <? seg_len g then oos_copy_before l else ret l) in
      ret (seen, after, sackbeg)
    else
      let! here :=
        (match list.last seen with
         | None => ret (TCP_SEQ_LT seqno nseqno)
         | Some prev =>
           let! pseqno := ask (λ t, host_seg_seqno t prev) in
           ret (TCP_SEQ_BETWEEN seqno (u32 (pseqno + 1)) (u32 (nseqno - 1)))
         end) in
      if here then
        let! g := in_var inseg in
        let! cseg := tcp_seg_copy g in
        match cseg with
        | None => ret (seen, l, sackbeg)
        | Some cseg =>
          do! (match list.last seen with None => ret tt | Some prev => oos_trim_prev prev end);
          let! after := tcp_oos_insert_segment cseg l in
          ret (seen, after, sackbeg)
        end
      else
        let! sackbeg := ask (hole_before (list.last seen) next sackbeg) in
        match rest with
        | [] =>
          let! after := (if TCP_SEQ_GT seqno nseqno then oos_append pcb next else ret []) in
          ret (seen ++ [next], after, sackbeg)
        | _ => oos_place pcb (seen ++ [next]) rest sackbeg
        end
  end.

(** The end of the run of segments that begins at [sackend]. *)
Fixpoint run_end (l : list loc) (sackend : Z) (t : tstate) : res Z :=
  match l with
  | [] => Val sackend
  | next :: rest =>
    let* g := get_seg t next in
    let* nseqno := host_seqno t g in
    if sackend =? nseqno then run_end rest (u32 (sackend + seg_len g)) t else Val sackend
  end.

(** The range of [inseg] is acknowledged selectively. *)
Definition oos_sack (pcb : loc) (before after : list loc) (sackbeg : Z) : M tstate unit :=
  let! c := ask (λ t, get_tcp t pcb) in
  if negb (tcp_is_flag_set c TF_SACK) then ret tt else
  match after with
  | [] => ret tt
  | next :: _ =>
    let! sackbeg := ask (hole_before (list.last before) next sackbeg) in
    let! sackend := ask (λ t, host_seg_seqno t next) in
    let! sackend := ask (run_end after sackend) in
    tcp_add_sack pcb sackbeg sackend
  end.

Definition queue_ooseq (pcb : loc) : M tstate unit :=
  let! c := ask (λ t, get_tcp t pcb) in
  let! v := in_var id in
  let seqno := in_seqno v in
  match tp_ooseq c with
  | [] =>
    let! cseg := tcp_seg_copy (inseg v) in
    update_tcp pcb (λ c,
      let c := c <| tp_ooseq := match cseg with Some l => [l] | None => [] end |> in
      if tcp_is_flag_set c TF_SACK
      then c <| tp_rcv_sacks := (seqno, u32 (seqno + seg_len (inseg v))) :: tail (tp_rcv_sacks c) |> else c)
  | first :: _ =>
    let! fseqno := ask (λ t, host_seg_seqno t first) in
    let! '(before, after, sackbeg) :=
      oos_place pcb [] (tp_ooseq c) (if TCP_SEQ_LT seqno fseqno then seqno else fseqno) in
    do! update_tcp pcb (λ c, c <| tp_ooseq := before ++ after |>);
    oos_sack pcb before after sackbeg
  end.

Definition is_abrt (err : err_t) : bool := match err with ERR_ABRT => true | _ => false end.

Section input.
Context {W : Type} `{!Part tstate W} `{!netif_driver W} `{!tcp_client W} `{!Part timeouts W} `{!timer_client W}.

Abbreviation tc m := (lift (P := tstate) (S := W) m).
Abbreviation st m := (lift (P := tstate) (S := W) (lift (P := ipstate) (lift (P := store) m))).
Abbreviation void m := (let! _ := m in ret tt).

(** ** [tcp_receive] *)

Definition rcv_ack (pcb : loc) : M W unit :=
  let! v := tc (in_var id) in
  if negb (has_bits (in_flags v) TCP_ACK) then ret tt else
  let! c := tc (ask (λ t, get_tcp t pcb)) in
  let right_wnd_edge := u32 (tp_snd_wnd c + tp_snd_wl2 c) in
  do! tc (rcv_update_snd_wnd pcb);
  let! c := tc (ask (λ t, get_tcp t pcb)) in
  do! (if TCP_SEQ_LEQ (in_ackno v) (tp_lastack c) then tc (rcv_old_ack pcb right_wnd_edge)
       else if TCP_SEQ_BETWEEN (in_ackno v) (u32 (tp_lastack c + 1)) (tp_snd_nxt c) then tc (rcv_new_ack pcb)
       else void (tcp_send_empty_ack pcb));
  tc (rcv_rtt pcb).

(** [inseg] is the next in order. *)
Definition rcv_in_order (pcb : loc) : M W unit :=
  do! tc set_tcplen;
  do! tc (trim_to_window pcb);
  do! tc (adjust_ooseq pcb);
  let! v := tc (in_var id) in
  do! tc (advance_rcv pcb (u32 (in_seqno v + in_tcplen v)) (in_tcplen v));
  do! tc take_inseg;
  let! c := tc (ask (λ t, get_tcp t pcb)) in
  do! tc (deliver_ooseq pcb (tp_ooseq c));
  do! tc (adjust_sacks pcb);
  do! tc (tcp_ack pcb);
  let! c := tc (ask (λ t, get_tcp t pcb)) in
  if sacks_valid c then void (tcp_send_empty_ack pcb) else ret tt.

(** What overlaps with what was received is cut off; a segment that is all old is
    acknowledged. *)
Definition rcv_trim (pcb : loc) : M tstate unit :=
  let! c := ask (λ t, get_tcp t pcb) in
  let! v := in_var id in
  if TCP_SEQ_BETWEEN (tp_rcv_nxt c) (u32 (in_seqno v + 1)) (u32 (in_seqno v + in_tcplen v - 1)) then trim_front pcb
  else if TCP_SEQ_LT (in_seqno v) (tp_rcv_nxt c) then tcp_ack_now pcb else ret tt.

Definition in_rcv_window (c : tcp_pcb) (seqno : Z) : bool :=
  TCP_SEQ_BETWEEN seqno (tp_rcv_nxt c) (u32 (tp_rcv_nxt c + tp_rcv_wnd c - 1)).

Definition rcv_data (pcb : loc) : M W unit :=
  let! v := tc (in_var id) in
  let! c := tc (ask (λ t, get_tcp t pcb)) in
  if (0 <? in_tcplen v) && (state_num (tp_state c) <? state_num CLOSE_WAIT) then
    do! tc (rcv_trim pcb);
    let! c := tc (ask (λ t, get_tcp t pcb)) in
    let! seqno := tc (in_var in_seqno) in
    if in_rcv_window c seqno then
      if tp_rcv_nxt c =? seqno then rcv_in_order pcb
      else do! tc (queue_ooseq pcb); void (tcp_send_empty_ack pcb)
    else void (tcp_send_empty_ack pcb)
  else if negb (in_rcv_window c (in_seqno v)) then tc (tcp_ack_now pcb) else ret tt.

Definition tcp_receive (pcb : loc) : M W unit :=
  let! c := tc (ask (λ t, get_tcp t pcb)) in
  do! lwip_assert (state_num ESTABLISHED <=? state_num (tp_state c));
  do! rcv_ack pcb;
  rcv_data pcb.

(** ** The state machine *)

(** A reset in answer to the segment. *)
Definition reset_segment (pcb : option loc) : M W unit :=
  let! t := tc (gets id) in
  let v := t_in t in
  let d := ip_data (t_ip t) in
  let! dest := tc (hdr_field16 2) in
  let! src := tc (hdr_field16 0) in
  tcp_rst pcb (in_ackno v) (u32 (in_seqno v + in_tcplen v)) (current_iphdr_dest d) (current_iphdr_src d) dest src.

(** [tcp_eff_send_mss] *)
Definition set_eff_mss (pcb : loc) : M tstate unit :=
  let! c := ask (λ t, get_tcp t pcb) in
  let! netif := tcp_route None (Some (tp_local_ip c)) (tp_remote_ip c) in
  let! n := gets (λ t, global_if (t_ip t)) in
  update_tcp pcb (λ c, c <| tp_mss := u16 (tcp_eff_send_mss_netif (tp_mss c) netif n) |>).

Definition process_rst (pcb : loc) : M tstate err_t :=
  let! v := in_var id in
  let! c := ask (λ t, get_tcp t pcb) in
  let acceptable := if bool_decide (tp_state c = SYN_SENT) then in_ackno v =? tp_snd_nxt c else in_seqno v =? tp_rcv_nxt c in
  if acceptable then
    do! lwip_assert (bool_decide (tp_state c ≠ CLOSED));
    do! set_recv_flag TF_RESET;
    do! tcp_clear_flags pcb TF_ACK_DELAY;
    ret ERR_RST
  else
    do! (if bool_decide (tp_state c ≠ SYN_SENT)
            && TCP_SEQ_BETWEEN (in_seqno v) (tp_rcv_nxt c) (u32 (tp_rcv_nxt c + tp_rcv_wnd c))
         then tcp_ack_now pcb else ret tt);
    ret ERR_OK.

(** The SYN has been acknowledged: it leaves the queue. *)
Definition drop_syn (pcb : loc) : M tstate unit :=
  let! c := ask (λ t, get_tcp t pcb) in
  do! lwip_assert (0 <? tp_snd_queuelen c);
  do! update_tcp pcb (λ c, c <| tp_snd_queuelen := u16 (tp_snd_queuelen c - 1) |>);
  do! (match tp_unacked c, tp_unsent c with
       | rseg :: rest, _ => do! update_tcp pcb (λ c, c <| tp_unacked := rest |>); tcp_seg_free (Some rseg)
       | [], rseg :: rest => do! update_tcp pcb (λ c, c <| tp_unsent := rest |>); tcp_seg_free (Some rseg)
       | [], [] => lwip_assert false
       end);
  update_tcp pcb (λ c, match tp_unacked c with
                       | [] => c <| tp_rtime := -1 |>
                       | _ => c <| tp_rtime := 0 |> <| tp_nrtx := 0 |>
                       end).

Definition process_syn_sent (pcb : loc) : M W err_t :=
  let! v := tc (in_var id) in
  let! c := tc (ask (λ t, get_tcp t pcb)) in
  if has_bits (in_flags v) TCP_ACK && has_bits (in_flags v) TCP_SYN && (in_ackno v =? u32 (tp_lastack c + 1)) then
    let! wnd := tc (hdr_field16 14) in
    do! tc (update_tcp pcb (λ c, c <| tp_rcv_nxt := u32 (in_seqno v + 1) |> <| tp_rcv_ann_right_edge := u32 (in_seqno v + 1) |>
              <| tp_lastack := in_ackno v |> <| tp_snd_wnd := wnd |> <| tp_snd_wnd_max := wnd |>
              <| tp_snd_wl1 := u32 (in_seqno v - 1) |> <| tp_state := ESTABLISHED |>));
    do! tc (set_eff_mss pcb);
    do! tc (update_tcp pcb (λ c, c <| tp_cwnd := LWIP_TCP_CALC_INITIAL_CWND (tp_mss c) |>));
    do! tc (drop_syn pcb);
    let! err := TCP_EVENT_CONNECTED pcb ERR_OK in
    match err with
    | ERR_ABRT => ret ERR_ABRT
    | _ => do! tc (tcp_ack_now pcb); ret ERR_OK
    end
  else if has_bits (in_flags v) TCP_ACK then
    do! reset_segment (Some pcb);
    let! c := tc (ask (λ t, get_tcp t pcb)) in
    do! (if tp_nrtx c <? TCP_SYNMAXRTX then do! tc (update_tcp pcb (λ c, c <| tp_rtime := 0 |>)); tcp_rexmit_rto pcb
         else ret tt);
    ret ERR_OK
  else ret ERR_OK.

(** The application accepts the connection, or it is aborted. *)
Definition accept_connection (pcb : loc) : M W err_t :=
  let! c := tc (ask (λ t, get_tcp t pcb)) in
  match tp_listener c with
  | None => ret ERR_VAL
  | Some lp =>
    let! l := tc (ask (λ t, get_lpcb t lp)) in
    do! lwip_assert (bool_decide (tl_accept l ≠ None));
    do! tc (tcp_backlog_accepted pcb);
    TCP_EVENT_ACCEPT lp (Some pcb) (tp_callback_arg c) ERR_OK
  end.

Definition fin_received : M tstate bool := gets (λ t, has_bits (recv_flags t) TF_GOT_FIN).

Definition process_syn_rcvd (pcb : loc) : M W err_t :=
  let! v := tc (in_var id) in
  let! c := tc (ask (λ t, get_tcp t pcb)) in
  if has_bits (in_flags v) TCP_ACK then
    if TCP_SEQ_BETWEEN (in_ackno v) (u32 (tp_lastack c + 1)) (tp_snd_nxt c) then
      do! tc (update_tcp pcb (λ c, c <| tp_state := ESTABLISHED |>));
      let! err := accept_connection pcb in
      match err with
      | ERR_OK =>
        do! tcp_receive pcb;
        do! tc (set_in (λ v, if recv_acked v =? 0 then v else v <| recv_acked := recv_acked v - 1 |>));
        do! tc (update_tcp pcb (λ c, c <| tp_cwnd := LWIP_TCP_CALC_INITIAL_CWND (tp_mss c) |>));
        let! fin := tc fin_received in
        do! (if fin then do! tc (tcp_ack_now pcb); tc (update_tcp pcb (λ c, c <| tp_state := CLOSE_WAIT |>)) else ret tt);
        ret ERR_OK
      | ERR_ABRT => ret ERR_ABRT
      | _ => do! tcp_abort (Some pcb); ret ERR_ABRT
      end
    else do! reset_segment (Some pcb); ret ERR_OK
  else if has_bits (in_flags v) TCP_SYN && (in_seqno v =? u32 (tp_rcv_nxt c - 1)) then
    do! tc (let! _ := tcp_rexmit pcb in ret tt); ret ERR_OK
  else ret ERR_OK.

Definition to_time_wait (pcb : loc) : M W unit :=
  do! tc (tcp_pcb_purge pcb);
  do! tc (TCP_RMV_ACTIVE pcb);
  do! tc (update_tcp pcb (λ c, c <| tp_state := TIME_WAIT |>));
  TCP_REG L_tw pcb.

(** Everything sent, the FIN included, is acknowledged by this segment. *)
Definition all_acked (pcb : loc) : M tstate bool :=
  let! v := in_var id in
  let! c := ask (λ t, get_tcp t pcb) in
  ret (has_bits (in_flags v) TCP_ACK && (in_ackno v =? tp_snd_nxt c) && bool_decide (tp_unsent c = [])).

Definition process_state (pcb : loc) : M W err_t :=
  let! c := tc (ask (λ t, get_tcp t pcb)) in
  match tp_state c with
  | SYN_SENT => process_syn_sent pcb
  | SYN_RCVD => process_syn_rcvd pcb
  | CLOSE_WAIT | ESTABLISHED =>
    do! tcp_receive pcb;
    let! fin := tc fin_received in
    do! (if fin then do! tc (tcp_ack_now pcb); tc (update_tcp pcb (λ c, c <| tp_state := CLOSE_WAIT |>)) else ret tt);
    ret ERR_OK
  | FIN_WAIT_1 =>
    do! tcp_receive pcb;
    let! fin := tc fin_received in
    let! acked := tc (all_acked pcb) in
    do! (if fin then
           do! tc (tcp_ack_now pcb);
           if acked then to_time_wait pcb else tc (update_tcp pcb (λ c, c <| tp_state := CLOSING |>))
         else if acked then tc (update_tcp pcb (λ c, c <| tp_state := FIN_WAIT_2 |>)) else ret tt);
    ret ERR_OK
  | FIN_WAIT_2 =>
    do! tcp_receive pcb;
    let! fin := tc fin_received in
    do! (if fin then do! tc (tcp_ack_now pcb); to_time_wait pcb else ret tt);
    ret ERR_OK
  | CLOSING =>
    do! tcp_receive pcb;
    let! acked := tc (all_acked pcb) in
    do! (if acked then to_time_wait pcb else ret tt);
    ret ERR_OK
  | LAST_ACK =>
    do! tcp_receive pcb;
    let! acked := tc (all_acked pcb) in
    do! (if acked then tc (set_recv_flag TF_CLOSED) else ret tt);
    ret ERR_OK
  | _ => ret ERR_OK
  end.

Definition tcp_process (pcb : loc) : M W err_t :=
  let! v := tc (in_var id) in
  if has_bits (in_flags v) TCP_RST then tc (process_rst pcb) else
  let! c := tc (ask (λ t, get_tcp t pcb)) in
  if has_bits (in_flags v) TCP_SYN && bool_decide (tp_state c ≠ SYN_SENT) && bool_decide (tp_state c ≠ SYN_RCVD) then
    do! tc (tcp_ack_now pcb); ret ERR_OK
  else
    let! ticks := tc (gets tcp_ticks) in
    do! tc (update_tcp pcb (λ c,
      (if tcp_is_flag_set c TF_RXCLOSED then c else c <| tp_tmr := ticks |>)
        <| tp_keep_cnt_sent := 0 |> <| tp_persist_probe := 0 |>));
    do! tc (tcp_parseopt pcb);
    process_state pcb.

(** ** Segments for listeners and old connections *)

(** The new connection [npcb], for the SYN that is being received. *)
Definition syn_received (l : tcp_pcb_listen) (lpcb : loc) (t : tstate) (dest src iss : Z) (c : tcp_pcb) : tcp_pcb :=
  let v := t_in t in
  let d := ip_data (t_ip t) in
  c <| tp_local_ip := current_iphdr_dest d |> <| tp_remote_ip := current_iphdr_src d |>
    <| tp_local_port := dest |> <| tp_remote_port := src |> <| tp_state := SYN_RCVD |>
    <| tp_rcv_nxt := u32 (in_seqno v + 1) |> <| tp_rcv_ann_right_edge := u32 (in_seqno v + 1) |>
    <| tp_snd_wl2 := iss |> <| tp_snd_nxt := iss |> <| tp_lastack := iss |> <| tp_snd_lbb := iss |>
    <| tp_snd_wl1 := u32 (in_seqno v - 1) |> <| tp_callback_arg := tl_callback_arg l |> <| tp_listener := Some lpcb |>
    <| tp_so_options := Z.land (tl_so_options l) SOF_INHERITED |> <| tp_netif_idx := tl_netif_idx l |>.

(** The SYN is answered. *)
Definition answer_syn (npcb : loc) : M W unit :=
  do! tc (tcp_parseopt npcb);
  let! wnd := tc (hdr_field16 14) in
  do! tc (update_tcp npcb (λ c, c <| tp_snd_wnd := wnd |> <| tp_snd_wnd_max := wnd |>));
  do! tc (set_eff_mss npcb);
  let! rc := tc (tcp_enqueue_flags npcb (Z.lor TCP_SYN TCP_ACK)) in
  if negb (is_ok rc) then tcp_abandon (Some npcb) false else void (tcp_output npcb).

Definition accept_syn (lpcb : loc) : M W unit :=
  let! l := tc (ask (λ t, get_lpcb t lpcb)) in
  if tl_backlog l <=? tl_accepts_pending l then ret tt else
  let! npcb := tcp_alloc (tl_prio l) in
  match npcb with
  | None => let! l := tc (ask (λ t, get_lpcb t lpcb)) in void (TCP_EVENT_ACCEPT lpcb None (tl_callback_arg l) ERR_MEM)
  | Some npcb =>
    do! tc (update_lpcb lpcb (λ l, l <| tl_accepts_pending := u8 (tl_accepts_pending l + 1) |>));
    do! tc (tcp_set_flags npcb TF_BACKLOGPEND);
    let! dest := tc (hdr_field16 2) in
    let! src := tc (hdr_field16 0) in
    let! iss := tc (tcp_next_iss (Some npcb)) in
    let! l := tc (ask (λ t, get_lpcb t lpcb)) in
    let! t := tc (gets id) in
    do! tc (update_tcp npcb (syn_received l lpcb t dest src iss));
    do! TCP_REG_ACTIVE npcb;
    answer_syn npcb
  end.

Definition tcp_listen_input (lpcb : loc) : M W unit :=
  let! v := tc (in_var id) in
  if has_bits (in_flags v) TCP_RST then ret tt
  else if has_bits (in_flags v) TCP_ACK then reset_segment (Some lpcb)
  else if has_bits (in_flags v) TCP_SYN then accept_syn lpcb
  else ret tt.

Definition tcp_timewait_input (pcb : loc) : M W unit :=
  let! v := tc (in_var id) in
  let! c := tc (ask (λ t, get_tcp t pcb)) in
  if has_bits (in_flags v) TCP_RST then ret tt else
  let ack : M W unit :=
    if 0 <? in_tcplen v then do! tc (tcp_ack_now pcb); void (tcp_output pcb) else ret tt in
  if has_bits (in_flags v) TCP_SYN then
    if TCP_SEQ_BETWEEN (in_seqno v) (tp_rcv_nxt c) (u32 (tp_rcv_nxt c + tp_rcv_wnd c)) then reset_segment (Some pcb) else ack
  else if has_bits (in_flags v) TCP_FIN then
    let! ticks := tc (gets tcp_ticks) in
    do! tc (update_tcp pcb (λ c, c <| tp_tmr := ticks |>)); ack
  else ack.

(** ** The header *)

(** The options and the header are taken off the packet; false when the options
    do not end in the second pbuf. *)
Definition tcp_hide_header (p : loc) (hdrlen : Z) : M tstate bool :=
  let! q := tst (ask (λ s, get_pbuf s p)) in
  let optlen := hdrlen - TCP_HLEN in
  do! set_in (λ v, v <| tcphdr_optlen := optlen |> <| tcphdr_opt2 := None |>);
  if hdrlen <=? pb_len q then
    do! set_in (λ v, v <| tcphdr_opt1len := optlen |>);
    let! _ := tst (pbuf_remove_header (Some p) hdrlen) in ret true
  else
    let! n := valid_ptr (pb_next q) in
    let! _ := tst (pbuf_remove_header (Some p) TCP_HLEN) in
    let! opt1len := tst (len_of (Some p)) in
    do! set_in (λ v, v <| tcphdr_opt1len := opt1len |>);
    let opt2len := u16 (optlen - opt1len) in
    let! _ := tst (pbuf_remove_header (Some p) opt1len) in
    let! nq := tst (ask (λ s, get_pbuf s n)) in
    if pb_len nq <? opt2len then ret false else
    do! set_in (λ v, v <| tcphdr_opt2 := pb_payload nq |>);
    let! _ := tst (pbuf_remove_header (Some n) opt2len) in
    do! tst (update_pbuf p (λ q, q <| pb_tot_len := u16 (pb_tot_len q - opt2len) |>));
    let! q := tst (ask (λ s, get_pbuf s p)) in
    let! nq := tst (ask (λ s, get_pbuf s n)) in
    do! lwip_assert (pb_len q =? 0);
    do! lwip_assert (pb_tot_len q =? pb_tot_len nq);
    ret true.

(** The fields in host order, and the length in sequence numbers; false when that
    does not fit. *)
Definition tcp_read_header (p : loc) : M tstate bool :=
  let! h := in_var tcphdr in
  let swap16 (o : Z) : M tstate unit := let! n := tst (ask (λ s, rd16 s h o)) in tst (wr16 h o (lwip_htons n)) in
  let swap32 (o : Z) : M tstate Z :=
    let! n := tst (ask (λ s, rd32 s h o)) in do! tst (wr32 h o (lwip_htonl n)); ret (lwip_htonl n) in
  do! swap16 0; do! swap16 2;
  let! seqno := swap32 4 in
  let! ackno := swap32 8 in
  do! swap16 14;
  let! flags := tst (ask (λ s, TCPH_FLAGS s h)) in
  let! tot_len := tst (tot_len_of (Some p)) in
  let tcplen := if has_bits flags (Z.lor TCP_FIN TCP_SYN) then u16 (tot_len + 1) else tot_len in
  do! set_in (λ v, v <| in_seqno := seqno |> <| in_ackno := ackno |> <| in_flags := flags |> <| in_tcplen := tcplen |>);
  ret (tot_len <=? tcplen).

(** The checks of the header; false when the packet is dropped. *)
Definition tcp_input_header (p : loc) : M tstate bool :=
  let! q := tst (ask (λ s, get_pbuf s p)) in
  do! set_in (λ v, v <| tcphdr := pb_payload q |>);
  if pb_len q <? TCP_HLEN then ret false else
  let! broadcast := lift (P := ipstate) (ask current_isbroadcast) in
  let! d := gets (λ t, ip_data (t_ip t)) in
  if broadcast || ip4_addr_ismulticast (current_iphdr_dest d) then ret false else
  let! hdrlen := tst (ask (λ s, TCPH_HDRLEN s (pb_payload q))) in
  let hdrlen_bytes := u8 (Z.shiftl hdrlen 2) in
  if (hdrlen_bytes <? TCP_HLEN) || (pb_tot_len q <? hdrlen_bytes) then ret false else
  let! ok := tcp_hide_header p hdrlen_bytes in
  if ok then tcp_read_header p else ret false.

(** ** Finding the connection *)

(** Bound to another interface than the segment came in by. *)
Definition other_netif (idx : Z) (t : tstate) : res bool :=
  if idx =? NETIF_NO_INDEX then Val false
  else if current_input_netif (ip_data (t_ip t)) then Val (negb (idx =? netif_get_index (global_if (t_ip t)))) else Err Undefined.
(** The connection the segment belongs to. *)
Definition conn_match (src dest : Z) (c : tcp_pcb) (t : tstate) : res bool :=
  let* other := other_netif (tp_netif_idx c) t in
  let d := ip_data (t_ip t) in
  Val (negb other && (tp_remote_port c =? src) && (tp_local_port c =? dest)
       && (tp_remote_ip c =? current_iphdr_src d) && (tp_local_ip c =? current_iphdr_dest d)).
Definition listen_match (dest : Z) (l : tcp_pcb_listen) (t : tstate) : res bool :=
  let* other := other_netif (tl_netif_idx l) t in
  Val (negb other && ((tl_local_port l =? TCP_ACCEPT_ANY_PORT) || (tl_local_port l =? dest))
       && ((tl_local_ip l =? current_iphdr_dest (ip_data (t_ip t))) || ip4_addr_isany (tl_local_ip l))).

Fixpoint find_active (src dest : Z) (l : list loc) : M tstate (option loc) :=
  match l with
  | [] => ret None
  | pcb :: l =>
    let! c := ask (λ t, get_tcp t pcb) in
    do! lwip_assert (bool_decide (tp_state c ≠ CLOSED));
    do! lwip_assert (bool_decide (tp_state c ≠ TIME_WAIT));
    do! lwip_assert (bool_decide (tp_state c ≠ LISTEN));
    let! m := ask (conn_match src dest c) in
    if m then ret (Some pcb) else find_active src dest l
  end.
Fixpoint find_tw (src dest : Z) (l : list loc) : M tstate (option loc) :=
  match l with
  | [] => ret None
  | pcb :: l =>
    let! c := ask (λ t, get_tcp t pcb) in
    do! lwip_assert (bool_decide (tp_state c = TIME_WAIT));
    let! m := ask (conn_match src dest c) in
    if m then ret (Some pcb) else find_tw src dest l
  end.
Fixpoint find_listen (dest : Z) (l : list loc) : M tstate (option loc) :=
  match l with
  | [] => ret None
  | lpcb :: l =>
    let! c := ask (λ t, get_lpcb t lpcb) in
    let! m := ask (listen_match dest c) in
    if m then ret (Some lpcb) else find_listen dest l
  end.
(** A block found is moved to the front of its list. *)
Definition to_front (w : pcb_list) (pcb : loc) : M tstate unit :=
  modify (λ t, set_pcbs w (pcb :: remove_pcb pcb (pcbs_of w t)) t).

Inductive tcp_dest := To_active (pcb : loc) | To_tw (pcb : loc) | To_listen (lpcb : loc) | To_none.
Definition tcp_demux (src dest : Z) : M tstate tcp_dest :=
  let! t := gets id in
  let! pcb := find_active src dest (tcp_active_pcbs t) in
  match pcb with
  | Some pcb => do! to_front L_active pcb; ret (To_active pcb)
  | None =>
    let! pcb := find_tw src dest (tcp_tw_pcbs t) in
    match pcb with
    | Some pcb => ret (To_tw pcb)
    | None =>
      let! lpcb := find_listen dest (tcp_listen_pcbs t) in
      match lpcb with
      | Some lpcb => do! to_front L_listen lpcb; ret (To_listen lpcb)
      | None => ret To_none
      end
    end
  end.

(** ** [tcp_input] *)

(** The result says whether the connection is closed and freed. *)
Definition tcp_input_delayed_close (pcb : loc) : M W bool :=
  let! closed := tc (gets (λ t, has_bits (recv_flags t) TF_CLOSED)) in
  if closed then
    let! c := tc (ask (λ t, get_tcp t pcb)) in
    do! (if tcp_is_flag_set c TF_RXCLOSED then ret tt else TCP_EVENT_ERR (tp_errf c) (tp_callback_arg c) ERR_CLSD);
    do! tcp_pcb_remove L_active pcb;
    do! tc (tcp_free pcb);
    ret true
  else ret false.

(** The application is told that [acked] bytes have been received, 65535 at most at
    a time; the result says whether the connection is still there. *)
Fixpoint report_acked (fuel : nat) (pcb : loc) (acked : Z) : M W bool :=
  match fuel with
  | O => fail OutOfFuel
  | S fuel =>
    if acked =? 0 then ret true else
    let acked16 := u16 (Z.min acked 65535) in
    let! err := TCP_EVENT_SENT pcb acked16 in
    match err with ERR_ABRT => ret false | _ => report_acked fuel pcb (u32 (acked - acked16)) end
  end.
(** Every call but the last takes 65535 bytes. *)
Definition tcp_input_sent (pcb : loc) : M W bool :=
  let! acked := tc (in_var recv_acked) in
  if 0 <? acked then
    let! ok := report_acked (Z.to_nat (acked / 65535 + 2)) pcb acked in
    do! (if ok then tc (set_in (λ v, v <| recv_acked := 0 |>)) else ret tt);
    ret ok
  else ret true.

(** What the application cannot take now waits in [refused_data]. *)
Definition refuse_data (pcb : loc) (data rest : option loc) : M tstate unit :=
  do! (match rest with Some _ => tst (pbuf_cat data rest) | None => ret tt end);
  update_tcp pcb (λ c, c <| tp_refused_data := data |>).

(** The data received goes to the application, 64K at most at a time. *)
Fixpoint tcp_input_recv (fuel : nat) (pcb : loc) : M W bool :=
  match fuel with
  | O => fail OutOfFuel
  | S fuel =>
    let! data := tc (in_var recv_data) in
    match data with
    | None => ret true
    | Some _ =>
      let! rest := st (pbuf_split_64k data) in
      let! c := tc (ask (λ t, get_tcp t pcb)) in
      do! lwip_assert (bool_decide (tp_refused_data c = None));
      let free_rest : M W unit := match rest with Some _ => void (st (pbuf_free rest)) | None => ret tt end in
      if tcp_is_flag_set c TF_RXCLOSED then
        let! _ := st (pbuf_free data) in
        do! free_rest;
        do! tcp_abort (Some pcb);
        ret false
      else
        let! err := TCP_EVENT_RECV pcb data ERR_OK in
        match err with
        | ERR_ABRT => do! free_rest; ret false
        | ERR_OK => do! tc (set_in (λ v, v <| recv_data := rest |>)); tcp_input_recv fuel pcb
        | _ => do! tc (refuse_data pcb data rest); ret true
        end
    end
  end.

(** The end of the stream is reported, or waits behind refused data. *)
Definition tcp_input_fin (pcb : loc) : M W bool :=
  let! fin := tc fin_received in
  if fin then
    let! c := tc (ask (λ t, get_tcp t pcb)) in
    match tp_refused_data c with
    | Some p => do! st (update_pbuf p (λ q, q <| pb_flags := Z.lor (pb_flags q) PBUF_FLAG_TCP_FIN |>)); ret true
    | None =>
      do! tc (update_tcp pcb (λ c,
        if tp_rcv_wnd c =? TCP_WND_MAX c then c else c <| tp_rcv_wnd := u32 (tp_rcv_wnd c + 1) |>));
      let! err := TCP_EVENT_CLOSED pcb in
      ret (negb (is_abrt err))
    end
  else ret true.

(** What is left to do when the segment has been processed. *)
Definition tcp_input_finish (pcb : loc) : M W unit :=
  let! ok := tcp_input_sent pcb in
  if negb ok then ret tt else
  let! closed := tcp_input_delayed_close pcb in
  if closed then ret tt else
  let! fuel := st (gets chain_fuel) in
  let! ok := tcp_input_recv (S fuel) pcb in
  if negb ok then ret tt else
  let! ok := tcp_input_fin pcb in
  if negb ok then ret tt else
  do! tc (modify (λ t, t <| tcp_input_pcb := None |>));
  let! closed := tcp_input_delayed_close pcb in
  if closed then ret tt else void (tcp_output pcb).

(** Data the application refused comes first; the result says whether the segment
    is to be processed. *)
Definition tcp_input_refused (pcb : loc) : M W bool :=
  let! c := tc (ask (λ t, get_tcp t pcb)) in
  match tp_refused_data c with
  | None => ret true
  | Some _ =>
    let! err := tcp_process_refused_data (Some pcb) in
    let! drop :=
      (if is_abrt err then ret true else
       let! c := tc (ask (λ t, get_tcp t pcb)) in
       let! v := tc (in_var id) in
       ret (bool_decide (tp_refused_data c ≠ None) && (0 <? in_tcplen v))) in
    if drop then
      let! c := tc (ask (λ t, get_tcp t pcb)) in
      do! (if tp_rcv_ann_wnd c =? 0 then void (tcp_send_empty_ack pcb) else ret tt);
      ret false
    else ret true
  end.

(** A segment of a connection. *)
Definition tcp_input_active (p : option loc) (pcb : loc) : M W unit :=
  let! tot_len := st (tot_len_of p) in
  do! tc (set_in (λ v, v <| inseg := mk_tcp_seg p tot_len (seg_flags (inseg v)) (tcphdr v) |>
                         <| recv_data := None |> <| recv_acked := 0 |>));
  do! tc (modify (λ t, t <| recv_flags := 0 |>));
  let! v := tc (in_var id) in
  do! (if has_bits (in_flags v) TCP_PSH then
         let! l := st (ask (λ _, deref p)) in
         st (update_pbuf l (λ q, q <| pb_flags := Z.lor (pb_flags q) PBUF_FLAG_PUSH |>))
       else ret tt);
  let! go_on := tcp_input_refused pcb in
  do! (if go_on then
         do! tc (modify (λ t, t <| tcp_input_pcb := Some pcb |>));
         let! err := tcp_process pcb in
         if is_abrt err then ret tt else
         let! reset := tc (gets (λ t, has_bits (recv_flags t) TF_RESET)) in
         if reset then
           let! c := tc (ask (λ t, get_tcp t pcb)) in
           do! TCP_EVENT_ERR (tp_errf c) (tp_callback_arg c) ERR_RST;
           do! tcp_pcb_remove L_active pcb;
           tc (tcp_free pcb)
         else tcp_input_finish pcb
       else ret tt);
  do! tc (modify (λ t, t <| tcp_input_pcb := None |>));
  do! tc (set_in (λ v, v <| recv_data := None |>));
  let! g := tc (in_var inseg) in
  match seg_p g with
  | Some _ => let! _ := st (pbuf_free (seg_p g)) in tc (set_inseg (λ g, g <| seg_p := None |>))
  | None => ret tt
  end.

Definition tcp_input (p : option loc) : M W unit :=
  let! l := valid_ptr p in
  let drop : M W unit := void (st (pbuf_free p)) in
  let! ok := tc (tcp_input_header l) in
  if negb ok then drop else
  let! src := tc (hdr_field16 0) in
  let! dest := tc (hdr_field16 2) in
  let! to := tc (tcp_demux src dest) in
  match to with
  | To_tw pcb => do! tcp_timewait_input pcb; drop
  | To_listen lpcb => do! tcp_listen_input lpcb; drop
  | To_active pcb => tcp_input_active p pcb
  | To_none =>
    let! v := tc (in_var id) in
    do! (if has_bits (in_flags v) TCP_RST then ret tt else reset_segment None);
    drop
  end.
End input.
