(* ===== verification/TcpTmr.v ===== *)
(** * TCP: the timers ([tcp_fasttmr], [tcp_slowtmr] and [tcp_tmr] of [core/tcp.c])

    The fast timer sends the delayed acknowledgements and offers again the data
    the application refused; the slow timer retransmits, probes a closed window,
    and removes the connections that have timed out.  Both start again when a
    callback has changed the list of active connections; the blocks that have had
    their turn are recognised by [last_timer].  The number of turns is the
    argument [fuel]. *)

From S2P Require Import Prelude Mbox Heap Pbuf Chksum Addr Timeouts Header Ip4 Tcp.

(** What is left of a list after a block: the list that starts at [pcb->next]. *)
Fixpoint tail_after (pcb : loc) (l : list loc) : list loc :=
  match l with [] => [] | a :: l => if decide (a = pcb) then l else tail_after pcb l end.

(** [prev->next = pcb->next], or the same of the head of the list; the assertions
    are those of the source. *)
Definition unlink (w : pcb_list) (prev : option loc) (pcb : loc) : M tstate unit :=
  let! l := gets (pcbs_of w) in
  match prev with
  | Some q =>
    do! lwip_assert (bool_decide (head l ≠ Some pcb));
    do! ask (λ t, if decide (q ∈ l ∧ pcb ∈ l) then Val tt else Err Undefined);
    modify (set_pcbs w (cut_after q l ++ tail_after pcb l))
  | None =>
    do! lwip_assert (bool_decide (head l = Some pcb));
    modify (set_pcbs w (tail_after pcb l))
  end.

(** [(u32_t)(tcp_ticks - pcb->tmr) > ms / TCP_SLOW_INTERVAL] *)
Definition timed_out (t : tstate) (c : tcp_pcb) (ms : Z) : bool := ms / TCP_SLOW_INTERVAL <? inactivity t c.

Section timers.
Context {W : Type} `{!Part tstate W} `{!tcp_out W} `{!tcp_client W}.

Abbreviation tc m := (lift (P := tstate) (S := W) m).
Abbreviation get pcb := (tc (ask (λ t, get_tcp t pcb))).

(** ** The fast timer *)

Definition delayed_ack (pcb : loc) : M W unit :=
  let! c := get pcb in
  if tcp_is_flag_set c TF_ACK_DELAY then
    do! tc (tcp_ack_now pcb);
    let! _ := tcp_output pcb in
    tc (tcp_clear_flags pcb (Z.lor TF_ACK_DELAY TF_ACK_NOW))
  else ret tt.

(** One block: the next one, or [None] when the loop starts again. *)
Definition fasttmr_pcb (pcb : loc) : M W (option (option loc)) :=
  do! delayed_ack pcb;
  do! retry_close pcb;
  let! next := tc (ask (pcb_next pcb)) in
  let! c := get pcb in
  match tp_refused_data c with
  | None => ret (Some next)
  | Some _ =>
    do! tc (set_changed false);
    let! _ := tcp_process_refused_data (Some pcb) in
    let! changed := tc (gets tcp_active_pcbs_changed) in
    ret (if changed then None else Some next)
  end.

(** One turn of the loop: the next block. *)
Definition fast_turn (pcb : loc) : M W (option loc) :=
  let! c := get pcb in
  let! ctr := tc (gets tcp_timer_ctr) in
  if tp_last_timer c =? ctr then tc (ask (pcb_next pcb))
  else
    do! tc (update_tcp pcb (λ c, c <| tp_last_timer := ctr |>));
    let! r := fasttmr_pcb pcb in
    match r with
    | Some next => ret next
    | None => let! l := tc (gets tcp_active_pcbs) in ret (head l)
    end.
(** The result is whether the loop came to its end. *)
Fixpoint fasttmr_loop (fuel : nat) (pcb : option loc) : M W bool :=
  match pcb, fuel with
  | None, _ => ret true
  | _, O => ret false
  | Some pcb, S fuel => let! next := fast_turn pcb in fasttmr_loop fuel next
  end.
Definition tick_ctr : M tstate unit := modify (λ t, t <| tcp_timer_ctr := u8 (tcp_timer_ctr t + 1) |>).
Definition tcp_fasttmr (fuel : nat) : M W unit :=
  do! tc tick_ctr;
  let! l := tc (gets tcp_active_pcbs) in
  let! ended := fasttmr_loop fuel (head l) in
  if ended then ret tt else fail OutOfFuel.

(** ** The slow timer *)

Definition persist_next_slot (pcb : loc) : M tstate unit :=
  update_tcp pcb (λ c,
    let c := c <| tp_persist_cnt := 0 |> in
    if tp_persist_backoff c <? 7 then c <| tp_persist_backoff := u8 (tp_persist_backoff c + 1) |> else c).

(** The peer's window is too small for the next segment: a probe, or a part of the segment.
    The result is whether the connection is given up. *)
Definition slow_persist (pcb : loc) : M W bool :=
  let! c := get pcb in
  do! lwip_assert (bool_decide (tp_unacked c = []));
  do! lwip_assert (bool_decide (tp_unsent c ≠ []));
  if TCP_MAXRTX <=? tp_persist_probe c then ret true else
  let! backoff_cnt := tc (ask (λ _, deref (tcp_persist_backoff !! Z.to_nat (tp_persist_backoff c - 1)))) in
  let cnt := if tp_persist_cnt c <? backoff_cnt then u8 (tp_persist_cnt c + 1) else tp_persist_cnt c in
  do! tc (update_tcp pcb (λ c, c <| tp_persist_cnt := cnt |>));
  do! (if backoff_cnt <=? cnt then
         let! next_slot :=
           (if tp_snd_wnd c =? 0 then let! err := tcp_zero_window_probe pcb in ret (is_ok err)
            else
              let! err := tcp_split_unsent_seg pcb (u16 (tp_snd_wnd c)) in
              if is_ok err then let! err := tcp_output pcb in ret (negb (is_ok err)) else ret true) in
         if next_slot then tc (persist_next_slot pcb) else ret tt
       else ret tt);
  ret false.

(** The timeout after [nrtx] retransmissions. *)
Definition backed_off_rto (c : tcp_pcb) : M tstate Z :=
  let! b := ask (λ _, deref (tcp_backoff !! Z.to_nat (Z.min (tp_nrtx c) 12))) in
  ret (s16 (Z.min (Z.shiftl (Z.shiftr (tp_sa c) 3 + tp_sv c) b) 32767)).

(** Congestion: the window starts again from one segment. *)
Definition rto_cwnd (c : tcp_pcb) : tcp_pcb :=
  let eff_wnd := Z.min (tp_cwnd c) (tp_snd_wnd c) in
  c <| tp_rtime := 0 |>
    <| tp_ssthresh := Z.max (Z.shiftr eff_wnd 1) (u32 (tp_mss c * 2)) |>
    <| tp_cwnd := tp_mss c |> <| tp_bytes_acked := 0 |>.

Definition slow_rexmit (pcb : loc) : M W unit :=
  do! tc (update_tcp pcb (λ c,
    if (0 <=? tp_rtime c) && (tp_rtime c <? 32767) then c <| tp_rtime := tp_rtime c + 1 |> else c));
  let! c := get pcb in
  if tp_rto c <=? tp_rtime c then
    let! err := tcp_rexmit_rto_prepare pcb in
    let! c := get pcb in
    if is_ok err || (bool_decide (tp_unacked c = []) && bool_decide (tp_unsent c ≠ [])) then
      do! (if decide (tp_state c = SYN_SENT) then ret tt else
             let! rto := tc (backed_off_rto c) in tc (update_tcp pcb (λ c, c <| tp_rto := rto |>)));
      do! tc (update_tcp pcb rto_cwnd);
      tcp_rexmit_rto_commit pcb
    else ret tt
  else ret tt.

(** Too many retransmissions, or the retransmission and persist timers. *)
Definition slow_output (pcb : loc) : M W bool :=
  let! c := get pcb in
  if (bool_decide (tp_state c = SYN_SENT) && (TCP_SYNMAXRTX <=? tp_nrtx c)) || (TCP_MAXRTX <=? tp_nrtx c) then ret true
  else if 0 <? tp_persist_backoff c then slow_persist pcb
  else do! slow_rexmit pcb; ret false.

(** The result is whether the connection is given up. *)
Definition slow_keepalive (pcb : loc) : M W bool :=
  let! c := get pcb in
  if negb (Z.land (tp_so_options c) SOF_KEEPALIVE =? 0)
     && (bool_decide (tp_state c = ESTABLISHED) || bool_decide (tp_state c = CLOSE_WAIT)) then
    let! t := tc (gets id) in
    if timed_out t c (tp_keep_idle c + TCP_MAXIDLE) then ret true
    else if timed_out t c (tp_keep_idle c + tp_keep_cnt_sent c * TCP_KEEPINTVL_DEFAULT) then
      let! err := tcp_keepalive pcb in
      do! (if is_ok err then tc (update_tcp pcb (λ c, c <| tp_keep_cnt_sent := u8 (tp_keep_cnt_sent c + 1) |>)) else ret tt);
      ret false
    else ret false
  else ret false.

Definition fin_wait_over (t : tstate) (c : tcp_pcb) : bool :=
  bool_decide (tp_state c = FIN_WAIT_2) && tcp_is_flag_set c TF_RXCLOSED && timed_out t c TCP_FIN_WAIT_TIMEOUT.
Definition syn_rcvd_over (t : tstate) (c : tcp_pcb) : bool :=
  bool_decide (tp_state c = SYN_RCVD) && timed_out t c TCP_SYN_RCVD_TIMEOUT.
Definition last_ack_over (t : tstate) (c : tcp_pcb) : bool :=
  bool_decide (tp_state c = LAST_ACK) && timed_out t c (2 * TCP_MSL).

(** Out-of-order data is not kept for long. *)
Definition slow_ooseq (pcb : loc) : M tstate unit :=
  let! c := ask (λ t, get_tcp t pcb) in
  let! t := gets id in
  if bool_decide (tp_ooseq c ≠ []) && (u32 (u32 (tp_rto c) * TCP_OOSEQ_TIMEOUT) <=? inactivity t c)
  then tcp_free_ooseq pcb else ret tt.

(** [pcb_remove] and [pcb_reset] *)
Definition slow_checks (pcb : loc) : M W (bool * bool) :=
  let! given_up := slow_output pcb in
  let! c := get pcb in
  let! t := tc (gets id) in
  let fin := fin_wait_over t c in
  let! dead := slow_keepalive pcb in
  do! tc (slow_ooseq pcb);
  let! c := get pcb in
  let! t := tc (gets id) in
  ret (given_up || fin || dead || syn_rcvd_over t c || last_ack_over t c, dead).

(** The next block, or [None] when the loop starts again. *)
Definition slow_remove (prev : option loc) (pcb : loc) (pcb_reset : bool) : M W (option (option loc)) :=
  let! c := get pcb in
  do! tc (tcp_pcb_purge pcb);
  let! next := tc (ask (pcb_next pcb)) in
  do! tc (unlink L_active prev pcb);
  do! (if pcb_reset then
         let! c := get pcb in
         tcp_rst (Some pcb) (tp_snd_nxt c) (tp_rcv_nxt c) (tp_local_ip c) (tp_remote_ip c) (tp_local_port c) (tp_remote_port c)
       else ret tt);
  let! c' := get pcb in
  do! tc (tcp_free pcb);
  do! tc (set_changed false);
  do! TCP_EVENT_ERR (tp_errf c) (tp_callback_arg c') ERR_ABRT;
  let! changed := tc (gets tcp_active_pcbs_changed) in
  ret (if changed then None else Some next).

Definition slow_poll (pcb : loc) : M W (option (option loc)) :=
  let! next := tc (ask (pcb_next pcb)) in
  do! tc (update_tcp pcb (λ c, c <| tp_polltmr := u8 (tp_polltmr c + 1) |>));
  let! c := get pcb in
  if tp_pollinterval c <=? tp_polltmr c then
    do! tc (update_tcp pcb (λ c, c <| tp_polltmr := 0 |>));
    do! tc (set_changed false);
    let! err := TCP_EVENT_POLL pcb in
    let! changed := tc (gets tcp_active_pcbs_changed) in
    if changed then ret None else
    do! (if is_ok err then let! _ := tcp_output pcb in ret tt else ret tt);
    ret (Some next)
  else ret (Some next).

Definition slow_assert (c : tcp_pcb) : M W unit :=
  do! lwip_assert (bool_decide (tp_state c ≠ CLOSED));
  do! lwip_assert (bool_decide (tp_state c ≠ LISTEN));
  lwip_assert (bool_decide (tp_state c ≠ TIME_WAIT)).

(** One turn of the loop over the active connections; [prev] is the block before [pcb].
    The result is the next [prev] and [pcb]. *)
Definition slow_turn (prev : option loc) (pcb : loc) : M W (option loc * option loc) :=
  let! c := get pcb in
  do! slow_assert c;
  let! ctr := tc (gets tcp_timer_ctr) in
  if tp_last_timer c =? ctr then
    let! next := tc (ask (pcb_next pcb)) in ret (Some pcb, next)
  else
    do! tc (update_tcp pcb (λ c, c <| tp_last_timer := ctr |>));
    let! x := slow_checks pcb in
    let! r := (if x.1 then slow_remove prev pcb x.2 else slow_poll pcb) in
    match r with
    | Some next => ret (if x.1 then prev else Some pcb, next)
    | None => let! l := tc (gets tcp_active_pcbs) in ret (None, head l)
    end.
(** The result is whether the loop came to its end. *)
Fixpoint slowtmr_loop (fuel : nat) (prev pcb : option loc) : M W bool :=
  match pcb, fuel with
  | None, _ => ret true
  | _, O => ret false
  | Some pcb, S fuel => let! x := slow_turn prev pcb in slowtmr_loop fuel x.1 x.2
  end.

(** The loop over the connections in TIME-WAIT. *)
Fixpoint tw_loop (fuel : nat) (prev pcb : option loc) : M tstate unit :=
  match fuel, pcb with
  | _, None => ret tt
  | O, _ => fail OutOfFuel
  | S fuel, Some pcb =>
    let! c := ask (λ t, get_tcp t pcb) in
    do! lwip_assert (bool_decide (tp_state c = TIME_WAIT));
    let! t := gets id in
    if timed_out t c (2 * TCP_MSL) then
      do! tcp_pcb_purge pcb;
      let! next := ask (pcb_next pcb) in
      do! unlink L_tw prev pcb;
      do! tcp_free pcb;
      tw_loop fuel prev next
    else
      let! next := ask (pcb_next pcb) in tw_loop fuel (Some pcb) next
  end.

Definition tcp_slowtmr (fuel : nat) : M W unit :=
  do! tc (modify (λ t, t <| tcp_ticks := u32 (tcp_ticks t + 1) |>));
  do! tc tick_ctr;
  let! l := tc (gets tcp_active_pcbs) in
  let! ended := slowtmr_loop fuel None (head l) in
  if negb ended then fail OutOfFuel else
  let! l := tc (gets tcp_tw_pcbs) in
  tc (tw_loop (length l) None (head l)).

Definition tcp_tmr (fuel : nat) : M W unit :=
  do! tcp_fasttmr fuel;
  do! tc (modify (λ t, t <| tcp_timer := u8 (tcp_timer t + 1) |>));
  let! n := tc (gets tcp_timer) in
  if Z.odd n then tcp_slowtmr fuel else ret tt.

End timers.
