(* ===== verification/TcpFrame.v ===== *)
(** * TCP: what the parts of an operation leave alone

    Most of the code of TCP changes only the sequence state, the queues and the
    timers of one connection: [same_tcp] says that the lists of blocks stay as
    they are, and every block its kind, state, port and turn of the timer.  It is what the rest of TCP relies on of [core/tcp_out.c] (the class
    [tcp_out_keeps]). *)

From S2P Require Import Prelude Mbox Heap Pbuf Frame Chksum Addr Timeouts Header Ip4 Tcp.

(** What of a block the lists depend on. *)
Definition conn_sig (c : tcp_pcb) : tcp_state * Z * Z := (tp_state c, tp_local_port c, tp_last_timer c).
Definition listen_sig (c : tcp_pcb_listen) : tcp_state * Z := (tl_state c, tl_local_port c).
Definition blk_sig (b : pcb_block) : tcp_state * Z * Z + tcp_state * Z :=
  match b with Conn_pcb c => inl (conn_sig c) | Listen_pcb c => inr (listen_sig c) end.
(** The listener a connection came in at. *)
Definition blk_listener (b : pcb_block) : option loc := match b with Conn_pcb c => tp_listener c | Listen_pcb _ => None end.
Definition listener_of (t : tstate) (a : loc) : option loc := tcp_mem t !! a ≫= blk_listener.

(** [tcp_input] has been told to free the block whose segment it processes. *)
Definition input_closed (t : tstate) : Prop := Z.testbit (recv_flags t) 4 = true.
(** The other end has reset that connection. *)
Definition input_reset (t : tstate) : Prop := Z.testbit (recv_flags t) 3 = true.
(** A FIN was received. *)
Definition input_fin (t : tstate) : Prop := Z.testbit (recv_flags t) 5 = true.
Definition input_kept (t t' : tstate) : Prop :=
  tcp_input_pcb t' = tcp_input_pcb t ∧ (input_reset t' ↔ input_reset t) ∧ (input_closed t → input_closed t') ∧
  (tcp_input_pcb t = None → input_closed t' → input_closed t).
Definition input_same (t t' : tstate) : Prop :=
  tcp_input_pcb t' = tcp_input_pcb t ∧ (input_reset t' ↔ input_reset t) ∧ (input_closed t' ↔ input_closed t) ∧
  (input_fin t → input_fin t').
#[export] Instance input_kept_preorder : PreOrder input_kept.
Proof.
  split; [by intros t|]. intros t1 t2 t3 (E1 & R1 & H1 & N1) (E2 & R2 & H2 & N2). rewrite E1 in N2. split_and!; [congruence|tauto|tauto|auto].
Qed.
#[export] Instance input_same_preorder : PreOrder input_same.
Proof. split; [by intros t|]. intros t1 t2 t3 (E1 & R1 & H1) (E2 & R2 & H2). split_and!; [congruence|tauto|tauto|tauto]. Qed.
Lemma input_same_kept t t' : input_same t t' → input_kept t t'.
Proof. intros (E & R & H). split_and!; tauto. Qed.

Lemma flags_lor f x k : 0 ≤ k < 8 → Z.testbit (u8 (Z.lor f x)) k = Z.testbit f k || Z.testbit x k.
Proof. intros Hk. unfold u8. rewrite Z.mod_pow2_bits_low by lia. apply Z.lor_spec. Qed.
Definition flags_set (t : tstate) (x : Z) : tstate := t <| recv_flags := u8 (Z.lor (recv_flags t) x) |>.
Lemma closed_set t x : input_closed (flags_set t x) ↔ input_closed t ∨ Z.testbit x 4 = true.
Proof.
  unfold input_closed, flags_set. simpl recv_flags.
  rewrite flags_lor by lia. by rewrite orb_true_iff.
Qed.
Lemma reset_set t x : input_reset (flags_set t x) ↔ input_reset t ∨ Z.testbit x 3 = true.
Proof. unfold input_reset, flags_set. simpl recv_flags. rewrite flags_lor by lia. by rewrite orb_true_iff. Qed.
Lemma input_kept_set t x : Z.testbit x 3 = false → tcp_input_pcb t ≠ None → input_kept t (flags_set t x).
Proof. intros Hx Hn. split; [done|]. rewrite reset_set, closed_set, Hx. intuition done. Qed.
Lemma fin_set t x : input_fin (flags_set t x) ↔ input_fin t ∨ Z.testbit x 5 = true.
Proof. unfold input_fin, flags_set. simpl recv_flags. rewrite flags_lor by lia. by rewrite orb_true_iff. Qed.
Lemma input_same_set t x : Z.testbit x 3 = false → Z.testbit x 4 = false → input_same t (flags_set t x).
Proof. intros H3 H4. split; [done|]. rewrite reset_set, closed_set, fin_set, H3, H4. intuition done. Qed.

Record same_tcp (t t' : tstate) : Prop := {
  same_lists w : pcbs_of w t' = pcbs_of w t;
  same_sig a : blk_sig <$> tcp_mem t' !! a = blk_sig <$> tcp_mem t !! a;
  same_listener a lp : listener_of t' a = Some lp → listener_of t a = Some lp;
  same_changed : tcp_active_pcbs_changed t' = tcp_active_pcbs_changed t;
  same_ctr : tcp_timer_ctr t' = tcp_timer_ctr t;
  same_input : input_same t t';
  same_next : on_part store_grows (t_ip t) (t_ip t')
}.
#[export] Instance same_tcp_preorder : PreOrder same_tcp.
Proof.
  split; [intros t; split; try done; reflexivity|].
  intros t1 t2 t3 [L1 S1 P1 C1 T1 I1 N1] [L2 S2 P2 C2 T2 I2 N2]. split; try congruence; eauto; intros; try congruence; by etrans.
Qed.

(** ** Blocks *)

Lemma same_put t l b b' :
  tcp_mem t !! l = Some b → blk_sig b' = blk_sig b → (blk_listener b' = blk_listener b ∨ blk_listener b' = None) →
  same_tcp t (put_blk l b' t).
Proof.
  intros Hl Hs Hp. split; try done; try reflexivity.

  - intros a. simpl. destruct (decide (a = l)) as [->|]; [|by rewrite lookup_insert_ne].
    rewrite lookup_insert_eq, Hl. simpl. by rewrite Hs.
  - intros a lp. unfold listener_of. simpl. destruct (decide (a = l)) as [->|]; [|by rewrite lookup_insert_ne].
    rewrite lookup_insert_eq, Hl. simpl. destruct Hp as [->| ->]; done.
Qed.

Definition keeps_sig (f : tcp_pcb → tcp_pcb) : Prop := ∀ c, conn_sig (f c) = conn_sig c ∧ (tp_listener (f c) = tp_listener c ∨ tp_listener (f c) = None).
Lemma same_update_tcp l f : keeps_sig f → stable same_tcp (update_tcp l f).
Proof.
  intros Hf t. unfold yields, update_tcp, get_tcp. destruct (tcp_mem t !! l) as [[c|c]|] eqn:Hl; simpl; try done.
  destruct (Hf c) as [Hs Hp]. apply (same_put _ _ (Conn_pcb c)); [done|simpl; by rewrite Hs|done].
Qed.
Lemma same_update_lpcb l f : (∀ c, listen_sig (f c) = listen_sig c) → stable same_tcp (update_lpcb l f).
Proof.
  intros Hf t. unfold yields, update_lpcb, get_lpcb. destruct (tcp_mem t !! l) as [[c|c]|] eqn:Hl; simpl; try done.
  apply (same_put _ _ (Listen_pcb c)); [done|simpl; by rewrite Hf|by left].
Qed.
Lemma same_store {A} (m : M store A) : stable store_grows m →
  stable same_tcp (lift (P := ipstate) (S := tstate) (lift (P := store) m)).
Proof.
  intros Hm. apply (stable_lift (on_part store_grows)); [|by apply stable_part].
  intros t iw H. by split.
Qed.
Lemma same_ip {A} (m : M ipstate A) : stable (on_part store_grows) m → stable same_tcp (lift (P := ipstate) (S := tstate) m).
Proof. apply (stable_lift (on_part store_grows)). intros t iw H. by split. Qed.
Lemma same_segs f : stable same_tcp (modify (λ t, t <| tcp_segs := f t |>)).
Proof. apply stable_modify. intros t. split; try done; reflexivity. Qed.

#[export] Hint Extern 1 (stable same_tcp (lift (lift _))) => apply same_store : stable.
#[export] Hint Extern 2 (stable same_tcp (lift (P := ipstate) _)) => apply same_ip : stable.
#[export] Hint Extern 1 (keeps_sig _) => intros ?c; repeat case_match; by auto : stable.
#[export] Hint Extern 1 (stable same_tcp (update_tcp _ _)) => apply same_update_tcp : stable.
#[export] Hint Extern 1 (stable same_tcp (update_lpcb _ _)) => apply same_update_lpcb; done : stable.
#[export] Hint Extern 1 (stable same_tcp (tcp_set_flags _ _)) => apply same_update_tcp : stable.
#[export] Hint Extern 1 (stable same_tcp (tcp_clear_flags _ _)) => apply same_update_tcp : stable.
#[export] Hint Extern 1 (stable same_tcp (tcp_ack_now _)) => apply same_update_tcp : stable.

(** ** Operations *)

Lemma same_seg_free s : stable same_tcp (tcp_seg_free s).
Proof. unfold tcp_seg_free. stable_tac; split; try done; reflexivity. Qed.
#[export] Hint Resolve same_seg_free : stable.
Lemma same_segs_free l : stable same_tcp (tcp_segs_free l).
Proof. induction l; cbn [tcp_segs_free]; stable_tac. Qed.
Lemma same_seg_copy s : stable same_tcp (tcp_seg_copy s).
Proof. unfold tcp_seg_copy. stable_tac; split; try done; reflexivity. Qed.
#[export] Hint Resolve same_segs_free same_seg_copy : stable.
Lemma same_free_ooseq l : stable same_tcp (tcp_free_ooseq l).
Proof. unfold tcp_free_ooseq. stable_tac. Qed.
Lemma same_backlog_accepted l : stable same_tcp (tcp_backlog_accepted l).
Proof. unfold tcp_backlog_accepted. stable_tac. Qed.
Lemma same_backlog_delayed l : stable same_tcp (tcp_backlog_delayed l).
Proof. unfold tcp_backlog_delayed. stable_tac. Qed.
Lemma same_ack l : stable same_tcp (tcp_ack l).
Proof. unfold tcp_ack. stable_tac. Qed.
Lemma same_update_rcv_ann_wnd l : stable same_tcp (tcp_update_rcv_ann_wnd l).
Proof. unfold tcp_update_rcv_ann_wnd. stable_tac. Qed.
#[export] Hint Resolve same_free_ooseq same_backlog_accepted same_backlog_delayed same_ack same_update_rcv_ann_wnd : stable.
Lemma same_pcb_purge l : stable same_tcp (tcp_pcb_purge l).
Proof. unfold tcp_pcb_purge. stable_tac. Qed.
Lemma same_route src dest : stable same_tcp (lift (P := ipstate) (S := tstate) (ip4_route_src src dest)).
Proof. apply same_ip. unfold ip4_route_src, ip4_route. stable_tac. Qed.
#[export] Hint Resolve same_route : stable.
Lemma same_next_iss p : stable same_tcp (tcp_next_iss p).
Proof. unfold tcp_next_iss. stable_tac; split; try done; reflexivity. Qed.
#[export] Hint Resolve same_pcb_purge same_next_iss : stable.

(** ** The whole state *)

Abbreviation same_w := (on_part same_tcp).

(** What TCP relies on of its output. *)
Class tcp_out_keeps (W : Type) `{!Part tstate W} `{!tcp_out W} : Prop := {
  keeps_output l : stable same_w (tcp_output l);
  keeps_send_fin l : stable same_w (tcp_send_fin l);
  keeps_enqueue_flags l fl : stable same_w (tcp_enqueue_flags l fl);
  keeps_rst l a b c d e f : stable same_w (tcp_rst l a b c d e f);
  keeps_zero_window_probe l : stable same_w (tcp_zero_window_probe l);
  keeps_split_unsent_seg l n : stable same_w (tcp_split_unsent_seg l n);
  keeps_keepalive l : stable same_w (tcp_keepalive l);
  keeps_rexmit_rto_prepare l : stable same_w (tcp_rexmit_rto_prepare l);
  keeps_rexmit_rto_commit l : stable same_w (tcp_rexmit_rto_commit l)
}.
#[export] Hint Resolve keeps_output keeps_send_fin keeps_enqueue_flags keeps_rst keeps_zero_window_probe
  keeps_split_unsent_seg keeps_keepalive keeps_rexmit_rto_prepare keeps_rexmit_rto_commit : stable.

Section whole.
Context {W : Type} `{!Part tstate W} `{!tcp_out W} `{!tcp_client W} `{!tcp_out_keeps W}.

Lemma same_rst_pcb l a b c : stable same_w (tcp_rst_pcb l a b c).
Proof. unfold tcp_rst_pcb. stable_tac. Qed.

End whole.
#[export] Hint Resolve same_rst_pcb : stable.
