(* ===== verification/TcpOutFrame.v ===== *)
(** * TCP: what output leaves alone

    [core/tcp_out.c] keeps what the rest of TCP relies on ([tcp_out_keeps] of
    [TcpFrame]), when the driver underneath does. *)

From S2P Require Import Prelude Mbox Heap HeapFacts Pbuf PbufData Frame Def Chksum Addr Timeouts Header Ip4 Tcp TcpFrame TcpOut TcpSend.

(** ** The heap *)

Lemma grows_mem_write p o bs : stable store_grows (mem_write p o bs).
Proof.
  intros s. unfold yields, mem_write. destruct (zlen bs =? 0); [unfold store_grows; lia|].
  destruct p as [a|]; simpl; [|done]. destruct (blocks s !! blk a); simpl; [|done]. destruct (_ && _); [|done]. unfold store_grows. simpl. lia.
Qed.
#[export] Hint Resolve grows_mem_write : stable.
#[export] Hint Extern 1 (stable store_grows (wr8 _ _ _)) => apply grows_mem_write : stable.
#[export] Hint Extern 1 (stable store_grows (wr16 _ _ _)) => apply grows_mem_write : stable.
#[export] Hint Extern 1 (stable store_grows (wr32 _ _ _)) => apply grows_mem_write : stable.

Ltac grows := stable_tac; unfold store_grows; simpl; lia.

Lemma grows_mbox_trypost m : stable store_grows (mbox_trypost m).
Proof.
  intros s. unfold yields, mbox_trypost. destruct (Seq.sys_mbox_trypost _ _) as [[e mb]|]; simpl; [unfold store_grows; simpl; lia|done].
Qed.
#[export] Hint Resolve grows_mbox_trypost : stable.
Lemma grows_try_callback f a : stable store_grows (tcpip_try_callback f a).
Proof. unfold tcpip_try_callback. grows. Qed.
#[export] Hint Resolve grows_try_callback : stable.
Lemma grows_pool_is_empty : stable store_grows pbuf_pool_is_empty.
Proof. unfold pbuf_pool_is_empty. grows. Qed.
Lemma grows_init_alloced l a n m t f : stable store_grows (pbuf_init_alloced_pbuf l a n m t f).
Proof. unfold pbuf_init_alloced_pbuf. grows. Qed.
#[export] Hint Resolve grows_pool_is_empty grows_init_alloced : stable.
Lemma grows_pool_loop fuel : ∀ p q n o, stable store_grows (pbuf_alloc_pool_loop fuel p q n o).
Proof. induction fuel; intros p q n o; simpl; stable_tac. Qed.
Lemma grows_alloc_reference a n t : stable store_grows (pbuf_alloc_reference a n t).
Proof. unfold pbuf_alloc_reference. stable_tac. Qed.
#[export] Hint Resolve grows_pool_loop grows_alloc_reference : stable.
#[export] Hint Extern 1 (stable store_grows (mem_malloc _)) => apply grows_malloc : stable.
Lemma grows_pbuf_alloc y n t : stable store_grows (pbuf_alloc y n t).
Proof. unfold pbuf_alloc. cbv zeta. destruct t; stable_tac. Qed.
Lemma grows_add_header p n : stable store_grows (pbuf_add_header p n).
Proof. unfold pbuf_add_header, pbuf_add_header_impl. destruct p; stable_tac. Qed.
Lemma grows_realloc_loop fuel : ∀ l n m, stable store_grows (pbuf_realloc_loop fuel l n m).
Proof. induction fuel; intros l n m; simpl; stable_tac. Qed.
#[export] Hint Resolve grows_pbuf_alloc grows_add_header grows_realloc_loop : stable.
#[export] Hint Extern 1 (stable store_grows (mem_trim _ _)) => apply stable_ret; typeclasses eauto : stable.
Lemma grows_realloc p n : stable store_grows (pbuf_realloc p n).
Proof. unfold pbuf_realloc. destruct p; stable_tac. Qed.
#[export] Hint Resolve grows_realloc : stable.

Lemma grows_len_of p : stable store_grows (len_of p).
Proof. unfold len_of. stable_tac. Qed.
Lemma grows_payload_of p : stable store_grows (payload_of p).
Proof. unfold payload_of. stable_tac. Qed.
Lemma grows_set_flag h f : stable store_grows (TCPH_SET_FLAG h f).
Proof. unfold TCPH_SET_FLAG. stable_tac. Qed.
Lemma grows_flags_set h f : stable store_grows (TCPH_FLAGS_SET h f).
Proof. unfold TCPH_FLAGS_SET. stable_tac. Qed.
Lemma grows_hdrlen_flags_set h n f : stable store_grows (TCPH_HDRLEN_FLAGS_SET h n f).
Proof. unfold TCPH_HDRLEN_FLAGS_SET. stable_tac. Qed.
Lemma grows_copy_mem p o a i n : stable store_grows (copy_mem p o a i n).
Proof. unfold copy_mem. stable_tac. Qed.
Lemma grows_copy_from_chain p d o n i : stable store_grows (copy_from_chain p d o n i).
Proof. unfold copy_from_chain. stable_tac. Qed.
#[export] Hint Resolve grows_len_of grows_payload_of grows_set_flag grows_flags_set grows_hdrlen_flags_set
  grows_copy_mem grows_copy_from_chain : stable.
Lemma grows_extend_chain fuel copy n : (∀ q, stable store_grows (copy q)) → ∀ p, stable store_grows (extend_chain fuel copy n p).
Proof. intros Hc. induction fuel; intros p; simpl; stable_tac. Qed.
Lemma grows_alloc_header_common a b c d e f g h : stable store_grows (tcp_output_alloc_header_common a b c d e f g h).
Proof. unfold tcp_output_alloc_header_common. stable_tac. Qed.
Lemma grows_wnd_scale_option h o : stable store_grows (tcp_build_wnd_scale_option h o).
Proof. unfold tcp_build_wnd_scale_option. stable_tac. Qed.
Lemma grows_write_sacks h l : ∀ o, stable store_grows (write_sacks h o l).
Proof. induction l; intros o; simpl; stable_tac. Qed.
#[export] Hint Resolve grows_alloc_header_common grows_wnd_scale_option grows_write_sacks : stable.
Lemma grows_sack_option c h o n : stable store_grows (tcp_build_sack_option c h o n).
Proof. unfold tcp_build_sack_option. stable_tac. Qed.
Lemma grows_syn_options h f m : stable store_grows (write_syn_options h f m).
Proof. unfold write_syn_options. stable_tac. Qed.
Lemma grows_uncover_header g : stable store_grows (uncover_header g).
Proof. unfold uncover_header. stable_tac. Qed.
#[export] Hint Resolve grows_sack_option grows_syn_options grows_uncover_header : stable.

(** ** Segments and queues *)

Lemma same_update_seg l f : stable same_tcp (update_seg l f).
Proof. unfold update_seg. stable_tac. split; try done; reflexivity. Qed.
Lemma same_set_seg_flag l f : stable same_tcp (set_seg_flag l f).
Proof. unfold set_seg_flag. stable_tac. Qed.
Lemma same_tcp_route p s d : stable same_tcp (tcp_route p s d).
Proof. unfold tcp_route. stable_tac. Qed.
#[export] Hint Resolve same_update_seg same_set_seg_flag same_tcp_route : stable.
Lemma same_create_segment l p f n o : stable same_tcp (tcp_create_segment l p f n o).
Proof. unfold tcp_create_segment. stable_tac. split; try done; reflexivity. Qed.
Lemma same_prealloc y n m l f b : stable same_tcp (tcp_pbuf_prealloc y n m l f b).
Proof. unfold tcp_pbuf_prealloc. stable_tac. Qed.
Lemma same_write_checks l n : stable same_tcp (tcp_write_checks l n).
Proof. unfold tcp_write_checks. stable_tac. Qed.
#[export] Hint Resolve same_create_segment same_prealloc same_write_checks : stable.
Lemma same_write_concat l a n f m u w : stable same_tcp (tcp_write_concat l a n f m u w).
Proof. unfold tcp_write_concat. stable_tac. Qed.
#[export] Hint Resolve same_write_concat : stable.
Lemma same_write_tail l a n f m : stable same_tcp (tcp_write_tail l a n f m).
Proof. unfold tcp_write_tail. stable_tac. Qed.
Lemma same_write_pbuf l a i n o m f z b : stable same_tcp (tcp_write_pbuf l a i n o m f z b).
Proof. unfold tcp_write_pbuf. stable_tac. Qed.
#[export] Hint Resolve same_write_tail same_write_pbuf : stable.
Lemma same_write_segs fuel l a n f m : ∀ i k z q, stable same_tcp (tcp_write_segs fuel l a n f m i k z q).
Proof. induction fuel; intros i k z q; cbn [tcp_write_segs]; stable_tac. Qed.
Lemma same_extend_seg copy n l : (∀ q, stable store_grows (copy q)) → stable same_tcp (extend_seg copy n l).
Proof. intros Hc. unfold extend_seg. stable_tac. by apply same_store, grows_extend_chain. Qed.
#[export] Hint Resolve same_write_segs : stable.
Lemma same_commit_tail l a u w z : stable same_tcp (tcp_write_commit_tail l a u w z).
Proof. unfold tcp_write_commit_tail. stable_tac; apply same_extend_seg; intros q; stable_tac. Qed.
Lemma same_check_queue l : stable same_tcp (check_queue l).
Proof. unfold check_queue. stable_tac. Qed.
#[export] Hint Resolve same_commit_tail same_check_queue : stable.
Lemma same_write_memerr l p q : stable same_tcp (tcp_write_memerr l p q).
Proof. unfold tcp_write_memerr. stable_tac. Qed.
#[export] Hint Resolve same_write_memerr : stable.
Lemma same_write l a n f : stable same_tcp (tcp_write l a n f).
Proof. unfold tcp_write. stable_tac. Qed.
Lemma same_split_unsent_seg l n : stable same_tcp (tcp_split_unsent_seg l n).
Proof. unfold tcp_split_unsent_seg. stable_tac. Qed.
Lemma same_enqueue_flags l f : stable same_tcp (tcp_enqueue_flags l f).
Proof. unfold tcp_enqueue_flags. stable_tac. Qed.
#[export] Hint Resolve same_enqueue_flags same_split_unsent_seg : stable.
Lemma same_send_fin l : stable same_tcp (tcp_send_fin l).
Proof. unfold tcp_send_fin. stable_tac. Qed.
Lemma same_segment_busy l : stable same_tcp (tcp_output_segment_busy l).
Proof. unfold tcp_output_segment_busy. stable_tac. Qed.
#[export] Hint Resolve same_send_fin same_segment_busy : stable.
Lemma same_any_busy l : stable same_tcp (any_busy l).
Proof. induction l; simpl; stable_tac. Qed.
#[export] Hint Resolve same_any_busy : stable.
Lemma same_rexmit_rto_prepare l : stable same_tcp (tcp_rexmit_rto_prepare l).
Proof. unfold tcp_rexmit_rto_prepare. stable_tac. Qed.
Lemma same_tcp_rexmit l : stable same_tcp (tcp_rexmit l).
Proof. unfold tcp_rexmit, incr_nrtx. stable_tac. Qed.
#[export] Hint Resolve same_rexmit_rto_prepare same_tcp_rexmit : stable.
Lemma same_rexmit_fast l : stable same_tcp (tcp_rexmit_fast l).
Proof. unfold tcp_rexmit_fast, enter_fast_recovery. stable_tac. Qed.
Lemma same_alloc_header l o n s : stable same_tcp (tcp_output_alloc_header l o n s).
Proof. unfold tcp_output_alloc_header. stable_tac. Qed.
Lemma same_fill_options l p f n : stable same_tcp (tcp_output_fill_options l p f n).
Proof. unfold tcp_output_fill_options. stable_tac. Qed.
Lemma same_ttl_tos l : stable same_tcp (ttl_tos l).
Proof. unfold ttl_tos. stable_tac. Qed.
Lemma same_fill_header s l n : stable same_tcp (tcp_fill_header s l n).
Proof. unfold tcp_fill_header. stable_tac. Qed.
Lemma same_finish_segment s l o : stable same_tcp (tcp_finish_segment s l o).
Proof. unfold tcp_finish_segment. stable_tac. Qed.
Lemma same_segment_sent l s : stable same_tcp (tcp_segment_sent l s).
Proof. unfold tcp_segment_sent. stable_tac. Qed.
#[export] Hint Resolve same_rexmit_fast same_alloc_header same_fill_options same_ttl_tos same_fill_header same_finish_segment same_segment_sent : stable.

(** ** Sending *)

(** What TCP relies on of the driver. *)
Class netif_driver_keeps (W : Type) `{!Part tstate W} `{!netif_driver W} : Prop :=
  keeps_netif_output p d : stable same_w (netif_output p d).
#[export] Hint Resolve keeps_netif_output : stable.

Section output.
Context {W : Type} `{!Part tstate W} `{!netif_driver W} `{!netif_driver_keeps W}.
#[local] Existing Instance tcp_ip_part.

Lemma same_ip_part {A} (m : M ipstate A) : stable (on_part store_grows) m → stable same_w (lift (P := ipstate) (S := W) m).
Proof.
  apply (stable_lift (on_part store_grows)). intros w iw H. unfold on_part.
  change (part_set iw w) with (part_set (P := tstate) (part_set iw (part_get w)) w). rewrite part_get_set. by split.
Qed.
#[local] Hint Extern 1 (stable same_w (lift (P := ipstate) _)) => apply same_ip_part : stable.

Lemma same_write_ip_header p h a b c d e : stable (on_part store_grows) (ip4_write_header p h a b c d e).
Proof. unfold ip4_write_header. stable_tac. unfold on_part, store_grows. simpl. lia. Qed.
#[local] Hint Resolve same_write_ip_header : stable.
Lemma same_check_ref p : stable same_w (LWIP_IP_CHECK_PBUF_REF_COUNT_FOR_TX p).
Proof. unfold LWIP_IP_CHECK_PBUF_REF_COUNT_FOR_TX. stable_tac; apply same_ip_part; stable_tac. Qed.
#[local] Hint Resolve same_check_ref : stable.
Lemma same_ip4_output_if p a b c d e : stable same_w (ip4_output_if p a b c d e).
Proof. unfold ip4_output_if, ip4_output_if_src. stable_tac; apply same_ip_part; stable_tac. Qed.
#[local] Hint Resolve same_ip4_output_if : stable.

Lemma same_control_segment l p a b : stable same_w (tcp_output_control_segment l p a b).
Proof. unfold tcp_output_control_segment. stable_tac. Qed.
#[local] Hint Resolve same_control_segment : stable.
Lemma same_rst l a b c d e f : stable same_w (tcp_rst l a b c d e f).
Proof. unfold tcp_rst. stable_tac. Qed.
Lemma same_send_empty_ack l : stable same_w (tcp_send_empty_ack l).
Proof. unfold tcp_send_empty_ack. stable_tac. Qed.
Lemma same_keepalive l : stable same_w (tcp_keepalive l).
Proof. unfold tcp_keepalive. stable_tac. Qed.
Lemma same_zero_window_probe l : stable same_w (tcp_zero_window_probe l).
Proof. unfold tcp_zero_window_probe. stable_tac. Qed.
Lemma same_output_segment s l n : stable same_w (tcp_output_segment s l n).
Proof. unfold tcp_output_segment. stable_tac. Qed.
#[local] Hint Resolve same_rst same_send_empty_ack same_keepalive same_zero_window_probe same_output_segment : stable.
Lemma same_output_loop fuel : ∀ l n w, stable same_w (tcp_output_loop fuel l n w).
Proof. induction fuel; intros l n w; cbn [tcp_output_loop]; stable_tac. Qed.
#[local] Hint Resolve same_output_loop : stable.
Lemma same_output l : stable same_w (tcp_output l).
Proof. unfold tcp_output, ack_or_done, start_persist. stable_tac. Qed.
#[local] Hint Resolve same_output : stable.
Lemma same_rexmit_rto_commit l : stable same_w (tcp_rexmit_rto_commit l).
Proof. unfold tcp_rexmit_rto_commit, incr_nrtx. stable_tac. Qed.
#[local] Hint Resolve same_rexmit_rto_commit : stable.
Lemma same_rexmit_rto l : stable same_w (tcp_rexmit_rto l).
Proof. unfold tcp_rexmit_rto. stable_tac. Qed.

#[export] Instance tcp_out_lwip_keeps : tcp_out_keeps W.
Proof. split; intros; cbn; stable_tac. Qed.
End output.
