(* ===== verification/TcpInFrame.v ===== *)
(** * TCP: what the input leaves alone

    Receiving a segment changes the lists and states of connections in few places.
    Up to the state machine only the connection itself may go from ESTABLISHED to
    CLOSE_WAIT, when a FIN that came early is now in order ([recv_rel]). *)

From S2P Require Import Prelude Mbox Heap HeapFacts Pbuf Frame Def Chksum Addr Timeouts Header Ip4 Tcp TcpOut TcpSend TcpFrame TcpOutFrame TcpIn.

Implicit Types t : tstate.

(** ** The variables *)

Lemma same_set_in f : stable same_tcp (set_in f).
Proof. unfold set_in. stable_tac. by split. Qed.
Lemma same_got_fin : stable same_tcp (set_recv_flag TF_GOT_FIN).
Proof. apply stable_modify. intros t. split; try done. by apply input_same_set. Qed.
#[export] Hint Resolve same_set_in same_got_fin : stable.
Lemma same_set_inseg f : stable same_tcp (set_inseg f).
Proof. apply same_set_in. Qed.
Lemma same_in_var {A} (f : in_vars → A) : stable same_tcp (in_var f).
Proof. unfold in_var. stable_tac. Qed.
#[export] Hint Resolve same_set_inseg same_in_var : stable.
Lemma same_hdr_field16 o : stable same_tcp (hdr_field16 o).
Proof. unfold hdr_field16. stable_tac. Qed.
Lemma same_inseg_flag_bits : stable same_tcp inseg_flag_bits.
Proof. unfold inseg_flag_bits. stable_tac. Qed.
Lemma same_set_tcplen : stable same_tcp set_tcplen.
Proof. unfold set_tcplen. stable_tac. Qed.
#[export] Hint Resolve same_hdr_field16 same_inseg_flag_bits same_set_tcplen : stable.

(** ** Options and acknowledgements *)

Lemma same_next_optbyte : stable same_tcp tcp_get_next_optbyte.
Proof. unfold tcp_get_next_optbyte. stable_tac. Qed.
#[export] Hint Resolve same_next_optbyte : stable.
Lemma same_opt_length_ok n : stable same_tcp (opt_length_ok n).
Proof. unfold opt_length_ok. stable_tac. Qed.
Lemma same_opt_mss l : stable same_tcp (opt_mss l).
Proof. unfold opt_mss. stable_tac. Qed.
Lemma same_opt_wnd_scale l : stable same_tcp (opt_wnd_scale l).
Proof. unfold opt_wnd_scale. stable_tac. Qed.
Lemma same_opt_sack_perm l : stable same_tcp (opt_sack_perm l).
Proof. unfold opt_sack_perm. stable_tac. Qed.
#[export] Hint Resolve same_opt_length_ok same_opt_mss same_opt_wnd_scale same_opt_sack_perm : stable.
Lemma same_parse_one_opt l : stable same_tcp (parse_one_opt l).
Proof. unfold parse_one_opt. stable_tac. Qed.
#[export] Hint Resolve same_parse_one_opt : stable.
Lemma same_parseopt_loop fuel l : stable same_tcp (tcp_parseopt_loop fuel l).
Proof. induction fuel; cbn [tcp_parseopt_loop]; stable_tac. Qed.
#[export] Hint Resolve same_parseopt_loop : stable.
Lemma same_parseopt l : stable same_tcp (tcp_parseopt l).
Proof. unfold tcp_parseopt. stable_tac. Qed.
#[export] Hint Resolve same_parseopt : stable.

Lemma same_add_sack l a b : stable same_tcp (tcp_add_sack l a b).
Proof. unfold tcp_add_sack. stable_tac. Qed.
Lemma same_remove_sacks_lt l n : stable same_tcp (tcp_remove_sacks_lt l n).
Proof. unfold tcp_remove_sacks_lt. stable_tac. Qed.
#[export] Hint Resolve same_add_sack same_remove_sacks_lt : stable.

Lemma same_free_acked l segs : ∀ b, stable same_tcp (tcp_free_acked_segments l segs b).
Proof. induction segs; intros b; cbn [tcp_free_acked_segments]; stable_tac. Qed.
#[export] Hint Resolve same_free_acked : stable.
Lemma same_update_snd_wnd l : stable same_tcp (rcv_update_snd_wnd l).
Proof. unfold rcv_update_snd_wnd. stable_tac. Qed.
Lemma sig_count_dupack : keeps_sig count_dupack.
Proof. intros c. unfold count_dupack. repeat case_match; by auto. Qed.
Lemma same_rcv_old_ack l e : stable same_tcp (rcv_old_ack l e).
Proof. unfold rcv_old_ack. stable_tac. apply same_update_tcp, sig_count_dupack. Qed.
Lemma sig_grow_cwnd n : keeps_sig (grow_cwnd n).
Proof. intros c. unfold grow_cwnd. repeat case_match; by auto. Qed.
Lemma sig_ack_progress n : keeps_sig (ack_progress n).
Proof.
  intros c. unfold ack_progress. set (c1 := if tcp_is_flag_set c TF_INFR then _ else _).
  assert (conn_sig c1 = conn_sig c ∧ tp_listener c1 = tp_listener c) as [E1 E2] by (unfold c1; by case_match).
  cbv zeta. case_match; [|unfold conn_sig in *; simpl in *; by rewrite E2; auto].
  match goal with |- conn_sig (grow_cwnd ?a ?x) = _ ∧ _ => destruct (sig_grow_cwnd a x) as [-> [-> | ->]] end;
    unfold conn_sig in *; simpl in *; rewrite ?E2; auto.
Qed.
#[export] Hint Resolve same_update_snd_wnd same_rcv_old_ack : stable.
Lemma same_rto_done l : stable same_tcp (rto_done l).
Proof. unfold rto_done. stable_tac. Qed.
#[export] Hint Resolve same_rto_done : stable.
Lemma same_rcv_new_ack l : stable same_tcp (rcv_new_ack l).
Proof.
  unfold rcv_new_ack. stable_tac. apply same_update_tcp, sig_ack_progress.
Qed.
Lemma same_rcv_rtt l : stable same_tcp (rcv_rtt l).
Proof. unfold rcv_rtt. stable_tac. Qed.
#[export] Hint Resolve same_rcv_new_ack same_rcv_rtt : stable.

(** ** Data *)

Lemma grows_remove_header p n : stable store_grows (pbuf_remove_header p n).
Proof. unfold pbuf_remove_header. stable_tac. Qed.
#[export] Hint Resolve grows_remove_header : stable.
Lemma grows_skip_front fuel : ∀ p o n, stable store_grows (skip_front fuel p o n).
Proof. induction fuel; intros p o n; cbn [skip_front]; stable_tac. Qed.
#[export] Hint Resolve grows_skip_front : stable.
Lemma same_trim_front l : stable same_tcp (trim_front l).
Proof. unfold trim_front. stable_tac. Qed.
Lemma same_trim_inseg n : stable same_tcp (trim_inseg n).
Proof. unfold trim_inseg. stable_tac. Qed.
#[export] Hint Resolve same_trim_front same_trim_inseg : stable.
Lemma same_trim_to_window l : stable same_tcp (trim_to_window l).
Proof. unfold trim_to_window, TCPWND_CHECK16. stable_tac. Qed.
Lemma same_drop_covered k : stable same_tcp (drop_covered k).
Proof. induction k; cbn [drop_covered]; stable_tac. Qed.
#[export] Hint Resolve same_trim_to_window same_drop_covered : stable.
Lemma same_adjust_ooseq l : stable same_tcp (adjust_ooseq l).
Proof. unfold adjust_ooseq. stable_tac. Qed.
Lemma same_advance_rcv l a n : stable same_tcp (advance_rcv l a n).
Proof. unfold advance_rcv. stable_tac. Qed.
Lemma same_take_inseg : stable same_tcp take_inseg.
Proof. unfold take_inseg. stable_tac. Qed.
Lemma same_adjust_sacks l : stable same_tcp (adjust_sacks l).
Proof. unfold adjust_sacks. stable_tac. Qed.
#[export] Hint Resolve same_adjust_ooseq same_advance_rcv same_take_inseg same_adjust_sacks : stable.

Lemma same_trim_seg s n : stable same_tcp (trim_seg s n).
Proof. unfold trim_seg. stable_tac. Qed.
Lemma same_oos_drop s k : stable same_tcp (oos_drop s k).
Proof. induction k; cbn [oos_drop]; stable_tac. Qed.
#[export] Hint Resolve same_trim_seg same_oos_drop : stable.
Lemma same_oos_insert s k : stable same_tcp (tcp_oos_insert_segment s k).
Proof. unfold tcp_oos_insert_segment. stable_tac. Qed.
#[export] Hint Resolve same_oos_insert : stable.
Lemma same_oos_copy_before k : stable same_tcp (oos_copy_before k).
Proof. unfold oos_copy_before. stable_tac. Qed.
Lemma same_oos_trim_prev s : stable same_tcp (oos_trim_prev s).
Proof. unfold oos_trim_prev. stable_tac. Qed.
#[export] Hint Resolve same_oos_copy_before same_oos_trim_prev : stable.
Lemma same_oos_append l s : stable same_tcp (oos_append l s).
Proof. unfold oos_append. stable_tac. Qed.
#[export] Hint Resolve same_oos_append : stable.
Lemma same_oos_place l k : ∀ seen n, stable same_tcp (oos_place l seen k n).
Proof. induction k as [|s k IH]; intros seen n; cbn [oos_place]; stable_tac. Qed.
Lemma same_oos_sack l a b n : stable same_tcp (oos_sack l a b n).
Proof. unfold oos_sack. stable_tac. Qed.
#[export] Hint Resolve same_oos_place same_oos_sack : stable.
Lemma same_queue_ooseq l : stable same_tcp (queue_ooseq l).
Proof. unfold queue_ooseq. stable_tac. Qed.
#[export] Hint Resolve same_queue_ooseq : stable.

(** ** A connection that receives *)

(** The connection may have gone from ESTABLISHED to CLOSE_WAIT, because of a FIN;
    nothing else. *)
Definition recv_rel (l : loc) t t' : Prop :=
  same_tcp t t' ∨
  ∃ c, tcp_mem t !! l = Some (Conn_pcb c) ∧ (tp_state c = ESTABLISHED ∧ input_fin t') ∧
    same_tcp (put_blk l (Conn_pcb (c <| tp_state := CLOSE_WAIT |>)) t) t'.

Lemma same_put_put l b b' t t' :
  same_tcp t t' → blk_sig b = blk_sig b' → (blk_listener b' = blk_listener b ∨ blk_listener b' = None) →
  same_tcp (put_blk l b t) (put_blk l b' t').
Proof.
  intros [L S P C T I N] Hs Hl. split; try done.
  - intros a. simpl. destruct (decide (a = l)) as [->|]; [rewrite !lookup_insert_eq; simpl; by rewrite Hs|by rewrite !lookup_insert_ne].
  - intros a lp. unfold listener_of. simpl. destruct (decide (a = l)) as [->|].
    + rewrite !lookup_insert_eq. simpl. destruct Hl as [->| ->]; done.
    + rewrite !lookup_insert_ne by done. apply P.
Qed.
Lemma same_back l t t' c' : same_tcp t t' → tcp_mem t' !! l = Some (Conn_pcb c') →
  ∃ c, tcp_mem t !! l = Some (Conn_pcb c) ∧ conn_sig c' = conn_sig c ∧ (tp_listener c' = tp_listener c ∨ tp_listener c' = None).
Proof.
  intros Hs Hl. pose proof (same_sig _ _ Hs l) as E. rewrite Hl in E. destruct (tcp_mem t !! l) as [[c|c]|] eqn:Hc; try done.
  exists c. split; [done|]. split; [by injection E as E1 E2 E3; unfold conn_sig; congruence|]. destruct (tp_listener c') as [lp|] eqn:El; [left|by right].
  pose proof (same_listener _ _ Hs l lp) as H. unfold listener_of in H. rewrite Hl, Hc in H. simpl in H. by rewrite H.
Qed.
#[export] Instance recv_rel_preorder l : PreOrder (recv_rel l).
Proof.
  split; [intros t; left; reflexivity|]. intros t1 t2 t3 [S1|(c & Hc & [Hs Hf] & S1)] [S2|(c2 & Hc2 & [Hs2 Hf2] & S2)].
  - left. by etrans.
  - right. destruct (same_back _ _ _ _ S1 Hc2) as (c & Hc & E & El). exists c. unfold conn_sig in E. injection E as E1 E2 E3.
    split; [done|]. split; [split; [congruence|done]|]. etrans; [|exact S2]. apply same_put_put; [done| |done].
    simpl. unfold conn_sig. simpl. congruence.
  - right. exists c. split; [done|]. split; [|by etrans]. split; [done|]. by apply (same_input _ _ S2).
  - exfalso. destruct (same_back _ _ _ _ S1 Hc2) as (c' & Hc' & E & _). simpl in Hc'. rewrite lookup_insert_eq in Hc'.
    injection Hc' as <-. unfold conn_sig in E. simpl in E. congruence.
Qed.
Lemma recv_same {A} l (m : M tstate A) : stable same_tcp m → stable (recv_rel l) m.
Proof. apply stable_weaken. by left. Qed.
#[export] Hint Extern 3 (stable (recv_rel _) _) => apply recv_same : stable.

Lemma recv_close_wait l t : input_fin t →
  yields (update_tcp l (λ c, if bool_decide (tp_state c = ESTABLISHED) then c <| tp_state := CLOSE_WAIT |> else c)) t (λ _ t', recv_rel l t t').
Proof.
  intros Hf. unfold yields, update_tcp, get_tcp. destruct (tcp_mem t !! l) as [[c|c]|] eqn:Hc; simpl; try done. case_bool_decide as Hs.
  - right. exists c. split; [done|]. split; [done|reflexivity].
  - left. by apply (same_put _ _ (Conn_pcb c)); [done|..|left].
Qed.
Lemma recv_fin l : stable (recv_rel l) (do! set_recv_flag TF_GOT_FIN;
  update_tcp l (λ c, if bool_decide (tp_state c = ESTABLISHED) then c <| tp_state := CLOSE_WAIT |> else c)).
Proof.
  intros t. apply yields_bind, yields_modify. change (_ <| recv_flags := _ |>) with (flags_set t TF_GOT_FIN).
  eapply yields_mono; [apply recv_close_wait; rewrite fin_set; by right|]. intros [] t' Hr. simpl in Hr. etrans; [|exact Hr].
  left. split; try done. by apply input_same_set.
Qed.
Lemma recv_take_ooseq l s : stable (recv_rel l) (take_ooseq l s).
Proof.
  unfold take_ooseq. do 4 (refine (stable_bind _ _ _ _ _); [stable_tac|intros]).
  destruct (has_bits _ _); [apply recv_fin|stable_tac].
Qed.
#[export] Hint Resolve recv_take_ooseq : stable.
Lemma recv_deliver_ooseq l k : stable (recv_rel l) (deliver_ooseq l k).
Proof. induction k; cbn [deliver_ooseq]; stable_tac. Qed.
#[export] Hint Resolve recv_deliver_ooseq : stable.

Section input.
Context {W : Type} `{!Part tstate W} `{!netif_driver W} `{!netif_driver_keeps W}.

Abbreviation tc m := (lift (P := tstate) (S := W) m).
Abbreviation recv_w l := (on_part (recv_rel l)).

Lemma recv_same_w {A} l (m : M W A) : stable same_w m → stable (recv_w l) m.
Proof. apply stable_weaken. by left. Qed.
#[local] Hint Extern 3 (stable (on_part (recv_rel _)) _) => apply recv_same_w : stable.

Lemma same_rcv_ack l : stable same_w (rcv_ack l).
Proof. unfold rcv_ack. pose proof same_send_empty_ack. stable_tac. Qed.
Lemma recv_in_order l : stable (recv_w l) (rcv_in_order l).
Proof. unfold rcv_in_order. pose proof same_send_empty_ack. stable_tac. Qed.
Lemma same_rcv_trim l : stable same_tcp (rcv_trim l).
Proof. unfold rcv_trim. stable_tac. Qed.
#[local] Hint Resolve same_rcv_ack recv_in_order same_rcv_trim : stable.
Lemma recv_rcv_data l : stable (recv_w l) (rcv_data l).
Proof. unfold rcv_data. pose proof same_send_empty_ack. stable_tac. Qed.
#[local] Hint Resolve recv_rcv_data : stable.
Lemma recv_receive l : stable (recv_w l) (tcp_receive l).
Proof. unfold tcp_receive. stable_tac. Qed.

Lemma same_reset_segment l : stable same_w (reset_segment l).
Proof. unfold reset_segment. pose proof same_rst. stable_tac. Qed.
Lemma same_set_eff_mss l : stable same_tcp (set_eff_mss l).
Proof. unfold set_eff_mss. stable_tac. Qed.
Lemma same_drop_syn l : stable same_tcp (drop_syn l).
Proof. unfold drop_syn. stable_tac. Qed.
Lemma same_fin_received : stable same_tcp fin_received.
Proof. unfold fin_received. stable_tac. Qed.
Lemma same_all_acked l : stable same_tcp (all_acked l).
Proof. unfold all_acked. stable_tac. Qed.
Lemma same_timewait_input l : stable same_w (tcp_timewait_input l).
Proof. unfold tcp_timewait_input. pose proof same_output. pose proof same_reset_segment. stable_tac. Qed.
End input.
#[export] Hint Resolve recv_receive same_reset_segment same_set_eff_mss same_drop_syn same_fin_received same_all_acked same_timewait_input : stable.

(** ** The header *)

Lemma same_hide_header p n : stable same_tcp (tcp_hide_header p n).
Proof. unfold tcp_hide_header. stable_tac. Qed.
Lemma same_read_header p : stable same_tcp (tcp_read_header p).
Proof. unfold tcp_read_header. stable_tac. Qed.
#[export] Hint Resolve same_hide_header same_read_header : stable.
Lemma same_input_header p : stable same_tcp (tcp_input_header p).
Proof. unfold tcp_input_header. stable_tac. Qed.
#[export] Hint Resolve same_input_header : stable.
