(* ===== verification/TcpLists.v ===== *)
(** * TCP: the lists of blocks

    Every block on one of the four lists is allocated and in a state that goes
    with the list, no block is on two lists or twice on one, a block whose state
    asks for a list is on it, and a listed connection's pointer to its listener
    does not dangle.  The exception is the block of the segment being processed,
    which a close takes off its list and leaves to [tcp_input] to free. *)

From S2P Require Import Prelude Mbox Heap HeapFacts Pbuf Frame Chksum Addr Timeouts Header Ip4 Tcp TcpFrame.

Implicit Types t : tstate.

(** ** The invariant *)

(** The list a block of this kind and state has to be on. *)
Definition home (b : pcb_block) : option pcb_list :=
  match b with
  | Listen_pcb _ => Some L_listen
  | Conn_pcb c =>
    match tp_state c with CLOSED => None | LISTEN => Some L_listen | TIME_WAIT => Some L_tw | _ => Some L_active end
  end.
Definition belongs (w : pcb_list) (b : pcb_block) : Prop :=
  match w, b with
  | L_listen, Listen_pcb c => tl_state c = LISTEN
  | L_bound, Conn_pcb c => tp_state c = CLOSED ∧ tp_local_port c ≠ 0
  | L_active, Conn_pcb c => home b = Some L_active
  | L_tw, Conn_pcb c => home b = Some L_tw
  | _, _ => False
  end.
Definition is_conn (b : pcb_block) : bool := match b with Conn_pcb _ => true | Listen_pcb _ => false end.
Definition next_block t : loc := next_loc (ip_store (t_ip t)).

(** [ex]: the blocks that need not be on a list. *)
Record tcp_ok_but (ex : loc → Prop) t : Prop := {
  tk_nodup w : NoDup (pcbs_of w t);
  tk_on w l : l ∈ pcbs_of w t → ∃ b, tcp_mem t !! l = Some b ∧ belongs w b;
  tk_home l b w : tcp_mem t !! l = Some b → home b = Some w → l ∈ pcbs_of w t ∨ ex l;
  tk_listener w a lp : a ∈ pcbs_of w t → listener_of t a = Some lp → lp ∈ tcp_listen_pcbs t;
  tk_closed l b : tcp_mem t !! l = Some b → home b = None → blk_listener b = None;
  tk_fresh l : is_Some (tcp_mem t !! l) → (l < next_block t)%positive
}.
Definition input_of t (l : loc) : Prop := tcp_input_pcb t = Some l ∧ input_closed t.
Lemma input_of_kept t t' l : input_kept t t' → input_of t l → input_of t' l.
Proof. intros (E & _ & H & _) [Hi Hc]. split; [congruence|auto]. Qed.
Definition tcp_ok t : Prop := tcp_ok_but (input_of t) t.

Lemma sig_belongs w b b' : blk_sig b' = blk_sig b → belongs w b → belongs w b'.
Proof.
  destruct b as [c|c], b' as [c'|c']; try done; cbn; unfold conn_sig, listen_sig.
  - intros [= Es Ep _]. destruct w; simpl; by rewrite ?Es, ?Ep.
  - intros [= Es _]. destruct w; simpl; by rewrite ?Es.
Qed.
Lemma sig_home b b' : blk_sig b' = blk_sig b → home b' = home b.
Proof. destruct b as [c|c], b' as [c'|c']; try done; cbn; unfold conn_sig. by intros [= -> ? ?]. Qed.
Lemma belongs_one w w' b : belongs w b → belongs w' b → w = w'.
Proof. destruct b as [c|c], w, w'; simpl; try done; try (intros [-> ?]); try (intros ? [? ?]); destruct (tp_state c); naive_solver. Qed.

Lemma tk_one ex t w w' l : tcp_ok_but ex t → l ∈ pcbs_of w t → l ∈ pcbs_of w' t → w = w'.
Proof.
  intros H Hw Hw'. destruct (tk_on _ _ H _ _ Hw) as (b & Hb & ?), (tk_on _ _ H _ _ Hw') as (b' & Hb' & ?).
  simplify_eq. by eapply belongs_one.
Qed.
Lemma tk_listen_block ex t l : tcp_ok_but ex t → l ∈ tcp_listen_pcbs t → ∃ c, tcp_mem t !! l = Some (Listen_pcb c).
Proof. intros H Hl. destruct (tk_on _ _ H L_listen l Hl) as ([c|c] & Hb & ?); [done|by exists c]. Qed.
Lemma tk_belongs ex t w l b : tcp_ok_but ex t → l ∈ pcbs_of w t → tcp_mem t !! l = Some b → belongs w b.
Proof. intros H Hl Hb. destruct (tk_on _ _ H _ _ Hl) as (b' & Hb' & ?). by simplify_eq. Qed.

Lemma tcp_ok_ex_mono (ex ex' : loc → Prop) t : (∀ l, ex l → ex' l) → tcp_ok_but ex t → tcp_ok_but ex' t.
Proof. intros Hex [N O H L C F]. split; try done. intros l b w Hl Hh. destruct (H l b w Hl Hh); auto. Qed.

(** ** Changes at one block *)

(** What a change at [l] leaves alone. *)
Record others (l : loc) t t' : Prop := {
  ot_in w a : a ≠ l → a ∈ pcbs_of w t' ↔ a ∈ pcbs_of w t;
  ot_nodup : (∀ w, NoDup (pcbs_of w t)) → ∀ w, NoDup (pcbs_of w t');
  ot_sig a : a ≠ l → blk_sig <$> tcp_mem t' !! a = blk_sig <$> tcp_mem t !! a;
  ot_listener a lp : a ≠ l → listener_of t' a = Some lp → listener_of t a = Some lp;
  ot_input : input_kept t t';
  ot_next : (next_block t ≤ next_block t')%positive
}.
#[export] Instance others_preorder l : PreOrder (others l).
Proof.
  split; [intros t; by split|]. intros t1 t2 t3 [I1 N1 S1 L1 P1 X1] [I2 N2 S2 L2 P2 X2]. split; eauto; try congruence.
  - intros w a Ha. by rewrite I2, I1.
  - intros a Ha. by rewrite S2, S1.
  - by etrans.
  - by etrans.
Qed.
Lemma same_others l t t' : same_tcp t t' → others l t t'.
Proof.
  intros [L S P C T I N]. split; eauto; try done.
  - intros w a _. by rewrite L.
  - intros H w. by rewrite L.
  - by apply input_same_kept.
Qed.

(** The invariant after a change at [l]. *)
Lemma tcp_ok_others (ex ex' : loc → Prop) l t t' :
  tcp_ok_but ex t → others l t t' → (∀ a, ex a → a ≠ l → ex' a) →
  (∀ w, l ∈ pcbs_of w t' → ∃ b, tcp_mem t' !! l = Some b ∧ belongs w b ∧
     (∀ lp, blk_listener b = Some lp → lp ∈ tcp_listen_pcbs t')) →
  (∀ b, tcp_mem t' !! l = Some b → (∀ w, home b = Some w → l ∈ pcbs_of w t' ∨ ex' l) ∧
     (home b = None → blk_listener b = None) ∧ (l < next_block t')%positive) →
  (∀ w a, a ≠ l → a ∈ pcbs_of w t → listener_of t' a = Some l → l ∈ tcp_listen_pcbs t') →
  tcp_ok_but ex' t'.
Proof.
  intros Ht Ho Hex Hon Hblk Hls. destruct Ho as [I N S L P X].
  assert (∀ a b', a ≠ l → tcp_mem t' !! a = Some b' → ∃ b, tcp_mem t !! a = Some b ∧ blk_sig b' = blk_sig b) as Hback.
  { intros a b' Ha Hb'. specialize (S a Ha). rewrite Hb' in S. destruct (tcp_mem t !! a) as [b|]; [|done].
    exists b. split; [done|]. by injection S. }
  split.
  - apply N, Ht.
  - intros w a Ha. destruct (decide (a = l)) as [->|Hne]; [destruct (Hon w Ha) as (b & ? & ? & ?); eauto|].
    apply I in Ha; [|done]. destruct (tk_on _ _ Ht _ _ Ha) as (b & Hb & Hbel). specialize (S a Hne). rewrite Hb in S.
    destruct (tcp_mem t' !! a) as [b'|]; [|done]. exists b'. split; [done|]. injection S as S. by eapply sig_belongs.
  - intros a b w Ha Hh. destruct (decide (a = l)) as [->|Hne]; [by apply (Hblk b Ha)|].
    destruct (Hback _ _ Hne Ha) as (b0 & Hb0 & Hs). rewrite (sig_home _ _ Hs) in Hh.
    destruct (tk_home _ _ Ht _ _ _ Hb0 Hh) as [Hin|Hin]; [left; by apply I|right; auto].
  - intros w a lp Ha Hlp. destruct (decide (a = l)) as [->|Hne].
    + destruct (Hon w Ha) as (b & Hb & _ & H). unfold listener_of in Hlp. rewrite Hb in Hlp. by apply H.
    + apply I in Ha; [|done]. destruct (decide (lp = l)) as [->|Hlpne]; [by apply (Hls w a)|].
      apply (I L_listen lp Hlpne). apply (tk_listener _ _ Ht w a); [done|]. by apply L.
  - intros a b Ha Hh. destruct (decide (a = l)) as [->|Hne]; [by apply (Hblk b Ha)|].
    destruct (Hback _ _ Hne Ha) as (b0 & Hb0 & Hs). rewrite (sig_home _ _ Hs) in Hh.
    pose proof (tk_closed _ _ Ht _ _ Hb0 Hh) as Hn. destruct (blk_listener b) as [lp|] eqn:E; [|done].
    specialize (L a lp Hne). unfold listener_of in L. rewrite Ha, Hb0 in L. simpl in L. rewrite E, Hn in L. by specialize (L eq_refl).
  - intros a [b Ha]. destruct (decide (a = l)) as [->|Hne]; [by apply (Hblk b Ha)|].
    destruct (Hback _ _ Hne Ha) as (b0 & Hb0 & _). eapply Pos.lt_le_trans; [|exact X]. apply (tk_fresh _ _ Ht). by exists b0.
Qed.

(** The invariant depends on nothing else of the state. *)
Lemma same_tcp_ok ex t t' : same_tcp t t' → tcp_ok_but ex t → tcp_ok_but ex t'.
Proof.
  intros Hs Ht. assert (∀ a b', tcp_mem t' !! a = Some b' → ∃ b, tcp_mem t !! a = Some b ∧ blk_sig b' = blk_sig b) as Hback.
  { intros a b' Hb'. pose proof (same_sig _ _ Hs a) as E. rewrite Hb' in E. destruct (tcp_mem t !! a) as [b|]; [|done].
    exists b. split; [done|]. by injection E. }
  split.
  - intros w. rewrite (same_lists _ _ Hs). apply Ht.
  - intros w a Ha. rewrite (same_lists _ _ Hs) in Ha. destruct (tk_on _ _ Ht _ _ Ha) as (b & Hb & Hbel).
    pose proof (same_sig _ _ Hs a) as E. rewrite Hb in E. destruct (tcp_mem t' !! a) as [b'|]; [|done].
    exists b'. split; [done|]. injection E as E. by eapply sig_belongs.
  - intros a b w Ha Hh. rewrite (same_lists _ _ Hs). destruct (Hback _ _ Ha) as (b0 & Hb0 & E).
    rewrite (sig_home _ _ E) in Hh. by apply (tk_home _ _ Ht _ _ _ Hb0).
  - intros w a lp Ha Hlp. rewrite (same_lists _ _ Hs) in Ha. apply (same_listener _ _ Hs) in Hlp.
    pose proof (tk_listener _ _ Ht _ _ _ Ha Hlp) as H. pose proof (same_lists _ _ Hs L_listen) as E. simpl in E. by rewrite E.
  - intros a b Ha Hh. destruct (Hback _ _ Ha) as (b0 & Hb0 & E). rewrite (sig_home _ _ E) in Hh.
    pose proof (tk_closed _ _ Ht _ _ Hb0 Hh) as Hn. destruct (blk_listener b) as [lp|] eqn:El; [|done].
    pose proof (same_listener _ _ Hs a lp) as L. unfold listener_of in L. rewrite Ha, Hb0 in L. simpl in L. rewrite El, Hn in L. by specialize (L eq_refl).
  - intros a [b Ha]. destruct (Hback _ _ Ha) as (b0 & Hb0 & _). eapply Pos.lt_le_trans; [|apply (same_next _ _ Hs)].
    apply (tk_fresh _ _ Ht). by exists b0.
Qed.

(** ** Taking a block off its list *)

Definition off (l : loc) t : Prop := ∀ w, l ∉ pcbs_of w t.

Lemma remove_pcb_in l k a : NoDup k → a ∈ remove_pcb l k ↔ a ∈ k ∧ a ≠ l.
Proof.
  induction 1 as [|b k Hb Hnd IH]; simpl; [rewrite elem_of_nil; tauto|]. case_decide; subst.
  - rewrite elem_of_cons. naive_solver.
  - rewrite !elem_of_cons, IH. naive_solver.
Qed.
Lemma remove_pcb_nodup l k : NoDup k → NoDup (remove_pcb l k).
Proof.
  induction 1 as [|b k Hb Hnd IH]; simpl; [constructor|]. case_decide; [done|]. constructor; [|done].
  rewrite remove_pcb_in by done. by intros [? _].
Qed.
Lemma cut_after_id l k : l ∉ k → cut_after l k = k.
Proof.
  induction k as [|a k IH]; intros Hl; simpl; [done|]. apply not_elem_of_cons in Hl as [? ?].
  rewrite decide_False by done. by rewrite IH.
Qed.

Lemma pcbs_of_set w w' k t : pcbs_of w' (set_pcbs w k t) = if decide (w' = w) then k else pcbs_of w' t.
Proof. by destruct w, w'. Qed.

Lemma others_refl_mem l t t' :
  (∀ w, pcbs_of w t' = pcbs_of w t) → (∀ a, a ≠ l → tcp_mem t' !! a = tcp_mem t !! a) →
  input_kept t t' → (next_block t ≤ next_block t')%positive → others l t t'.
Proof.
  intros Hl Hm Hi Hn. split; try done.
  - intros w a _. by rewrite Hl.
  - intros H w. by rewrite Hl.
  - intros a Ha. by rewrite Hm.
  - intros a lp Ha. unfold listener_of. by rewrite Hm.
Qed.
Lemma others_lists l t t' :
  tcp_mem t' = tcp_mem t → (∀ w a, a ≠ l → a ∈ pcbs_of w t' ↔ a ∈ pcbs_of w t) →
  ((∀ w, NoDup (pcbs_of w t)) → ∀ w, NoDup (pcbs_of w t')) →
  input_kept t t' → next_block t' = next_block t → others l t t'.
Proof.
  intros Hm Hin Hnd Hi Hn. split; try done.
  - intros a Ha. by rewrite Hm.
  - intros a lp Ha. unfold listener_of. by rewrite Hm.
  - by rewrite Hn.
Qed.

Lemma rmv_lists_yields w l t :
  (∀ k, NoDup (pcbs_of k t)) → (∀ k, l ∈ pcbs_of k t → k = w) →
  yields (TCP_RMV w l) t (λ _ t', others l t t' ∧ off l t' ∧ tcp_mem t' = tcp_mem t).
Proof.
  intros Hnd Hw. apply yields_bind, yields_ask. intros b _. apply yields_modify. case_decide as Hin.
  - split; [|split].
    + apply others_lists; try (by destruct w).
      * intros w' a Ha. rewrite pcbs_of_set. case_decide; subst; [|done]. rewrite remove_pcb_in by done. tauto.
      * intros _ w'. rewrite pcbs_of_set. case_decide; subst; [by apply remove_pcb_nodup|done].
    + intros w' H. rewrite pcbs_of_set in H. case_decide; subst; [|by specialize (Hw w' H)].
      apply remove_pcb_in in H as [_ ?]; done.
    + by destruct w.
  - assert (off l t) as Hoff by (intros w' H; specialize (Hw w' H); by subst).
    rewrite !cut_after_id by first [exact (Hoff L_listen)|exact (Hoff L_bound)|exact (Hoff L_active)|exact (Hoff L_tw)].
    destruct t. by split; [reflexivity|].
Qed.

Lemma rmv_yields ex w l t :
  tcp_ok_but ex t → (∀ w', l ∈ pcbs_of w' t → w' = w) →
  yields (TCP_RMV w l) t (λ _ t', others l t t' ∧ off l t' ∧ tcp_mem t' = tcp_mem t).
Proof. intros Ht. by apply rmv_lists_yields, (tk_nodup ex). Qed.

Lemma same_off l t t' : same_tcp t t' → off l t → off l t'.
Proof. intros Hs H w. rewrite (same_lists _ _ Hs). apply H. Qed.
Lemma same_conn l t t' c : same_tcp t t' → tcp_mem t !! l = Some (Conn_pcb c) →
  ∃ c', tcp_mem t' !! l = Some (Conn_pcb c') ∧ conn_sig c' = conn_sig c.
Proof.
  intros Hs Hl. pose proof (same_sig _ _ Hs l) as E. rewrite Hl in E. destruct (tcp_mem t' !! l) as [[c'|c']|]; simplify_eq/=.
  exists c'. split; [done|]. unfold conn_sig, listen_sig in *. congruence.
Qed.
Lemma same_lblk l t t' c : same_tcp t t' → tcp_mem t !! l = Some (Listen_pcb c) →
  ∃ c', tcp_mem t' !! l = Some (Listen_pcb c') ∧ listen_sig c' = listen_sig c.
Proof.
  intros Hs Hl. pose proof (same_sig _ _ Hs l) as E. rewrite Hl in E. destruct (tcp_mem t' !! l) as [[c'|c']|]; simplify_eq/=.
  exists c'. split; [done|]. unfold conn_sig, listen_sig in *. congruence.
Qed.

Lemma get_tcp_val t l c : get_tcp t l = Val c → tcp_mem t !! l = Some (Conn_pcb c).
Proof. unfold get_tcp. by destruct (tcp_mem t !! l) as [[?|?]|]; intros [=]; subst. Qed.
Lemma get_lpcb_val t l c : get_lpcb t l = Val c → tcp_mem t !! l = Some (Listen_pcb c).
Proof. unfold get_lpcb. by destruct (tcp_mem t !! l) as [[?|?]|]; intros [=]; subst. Qed.
Lemma get_blk_val t l b : get_blk t l = Val b → tcp_mem t !! l = Some b.
Proof. unfold get_blk, deref. by destruct (tcp_mem t !! l); intros [=]; subst. Qed.

Lemma others_put l b t : others l t (put_blk l b t).
Proof. apply others_refl_mem; try done. intros a Ha. simpl. by rewrite lookup_insert_ne. Qed.
Lemma yields_update_tcp l f t (Q : unit → tstate → Prop) :
  (∀ c, tcp_mem t !! l = Some (Conn_pcb c) → Q tt (put_blk l (Conn_pcb (f c)) t)) → yields (update_tcp l f) t Q.
Proof. unfold yields, update_tcp. intros H. destruct (get_tcp t l) eqn:E; [|done]. apply get_tcp_val in E. by apply H. Qed.
Lemma yields_update_lpcb l f t (Q : unit → tstate → Prop) :
  (∀ c, tcp_mem t !! l = Some (Listen_pcb c) → Q tt (put_blk l (Listen_pcb (f c)) t)) → yields (update_lpcb l f) t Q.
Proof. unfold yields, update_lpcb. intros H. destruct (get_lpcb t l) eqn:E; [|done]. apply get_lpcb_val in E. by apply H. Qed.

(** The block is off its list and closed; its memory is not free yet. *)
Definition removed (l : loc) t t' : Prop :=
  others l t t' ∧ off l t' ∧
  ∃ b b', tcp_mem t !! l = Some b ∧ tcp_mem t' !! l = Some b' ∧ is_conn b' = is_conn b ∧ blk_state b' = CLOSED.
(** The block is gone. *)
Definition dropped (l : loc) t t' : Prop := others l t t' ∧ off l t' ∧ tcp_mem t' !! l = None.

Lemma dropped_ok ex l t t' :
  tcp_ok_but ex t → l ∉ tcp_listen_pcbs t ∨ (∀ w a, a ∈ pcbs_of w t → listener_of t' a ≠ Some l) → dropped l t t' → tcp_ok_but ex t'.
Proof.
  intros Ht Hl (Ho & Hoff & Hnone). eapply (tcp_ok_others ex ex l); try done.
  - intros w H. by destruct (Hoff w).
  - intros b Hb. congruence.
  - intros w a Hne Ha Hlp. exfalso. destruct Hl as [Hl|Hl]; [|by apply (Hl w a)].
    apply Hl. apply (ot_listener _ _ _ Ho) in Hlp; [|done]. by apply (tk_listener _ _ Ht w a).
Qed.
Lemma conn_not_listening ex t l c : tcp_ok_but ex t → tcp_mem t !! l = Some (Conn_pcb c) → l ∉ tcp_listen_pcbs t.
Proof. intros Ht Hl Hin. destruct (tk_listen_block _ _ _ Ht Hin) as [c' ?]. congruence. Qed.
Lemma conn_on ex t l c w : tcp_ok_but ex t → tcp_mem t !! l = Some (Conn_pcb c) → home (Conn_pcb c) = Some w →
  ∀ w', l ∈ pcbs_of w' t → w' = w.
Proof.
  intros Ht Hl Hh w' Hin. pose proof (tk_belongs _ _ _ _ _ Ht Hin Hl) as Hb. destruct w'; simpl in Hb, Hh; try done; try congruence.
  destruct Hb as [E _]. by rewrite E in Hh.
Qed.
(** A listed block is on the list of its state. *)
Definition state_list (s : tcp_state) : pcb_list :=
  match s with CLOSED => L_bound | LISTEN => L_listen | TIME_WAIT => L_tw | _ => L_active end.
Lemma blk_on ex t l b : tcp_ok_but ex t → tcp_mem t !! l = Some b → ∀ k, l ∈ pcbs_of k t → k = state_list (blk_state b).
Proof.
  intros Ht Hl k Hin. pose proof (tk_belongs _ _ _ _ _ Ht Hin Hl) as Hb. destruct b as [c|c], k; simpl in *; try done.
  - destruct Hb as [-> _]. done.
  - destruct (tp_state c); done.
  - destruct (tp_state c); done.
  - by rewrite Hb.
Qed.
Lemma not_listening ex t l b : tcp_ok_but ex t → tcp_mem t !! l = Some b → blk_state b ≠ LISTEN → l ∉ tcp_listen_pcbs t.
Proof. intros Ht Hl Hb Hin. pose proof (blk_on _ _ _ _ Ht Hl L_listen Hin) as E. destruct (blk_state b); done. Qed.

Lemma release_yields ty l t : off l t → yields (release_pcb ty l) t (λ _ t', dropped l t t').
Proof.
  intros Hoff. apply yields_bind, yields_lift, yields_lift. eapply yields_mono; [apply grows_memp_free|].
  intros [] s Hs. apply yields_modify. split; [|split].
  - apply others_refl_mem; try done. intros a Ha. simpl. by rewrite lookup_delete_ne.
  - exact Hoff.
  - simpl. apply lookup_delete_eq.
Qed.
Lemma free_yields l t : off l t → yields (tcp_free l) t (λ _ t', dropped l t t').
Proof. intros Hoff. apply yields_bind, yields_ask. intros b _. apply yields_bind, yields_assert. intros _. by apply release_yields. Qed.
Lemma free_listen_yields l t : off l t → yields (tcp_free_listen l) t (λ _ t', dropped l t t').
Proof. intros Hoff. apply yields_bind, yields_ask. intros b _. apply yields_bind, yields_assert. intros _. by apply release_yields. Qed.
Lemma dropped_trans l t t' t'' : others l t t' → dropped l t' t'' → dropped l t t''.
Proof. intros H (? & ? & ?). split; [by etrans|done]. Qed.

(** The flag for the timers is no matter to the lists. *)
Lemma others_changed l b t : others l t (t <| tcp_active_pcbs_changed := b |>).
Proof. by apply others_refl_mem. Qed.
Lemma rmv_active_yields ex l t :
  tcp_ok_but ex t → (∀ k, l ∈ pcbs_of k t → k = L_active) →
  yields (TCP_RMV_ACTIVE l) t (λ _ t', others l t t' ∧ off l t' ∧ tcp_mem t' = tcp_mem t).
Proof.
  intros Ht Hl. eapply yields_then; [by apply (rmv_yields ex)|]. intros [] t1 (Ho & Hoff & Hm). apply yields_modify.
  split; [|by split]. etrans; [exact Ho|apply others_changed].
Qed.
Lemma tcp_ok_changed ex b t : tcp_ok_but ex t → tcp_ok_but ex (t <| tcp_active_pcbs_changed := b |>).
Proof. by intros [N O H L C F]. Qed.

(** ** A listener that closes *)

Lemma same_remove_listener k lp : stable same_tcp (tcp_remove_listener k lp).
Proof.
  induction k as [|a k IH]; cbn [tcp_remove_listener]; stable_tac.
Qed.
Lemma remove_listener_yields k lp t :
  yields (tcp_remove_listener k lp) t (λ _ t', same_tcp t t' ∧ ∀ a, a ∈ k → listener_of t' a ≠ Some lp).
Proof.
  revert t. induction k as [|a k IH]; intros t; cbn [tcp_remove_listener].
  { apply yields_ret. split; [reflexivity|]. by intros a ?%not_elem_of_nil. }
  apply yields_bind, yields_update_tcp. intros c Hc. set (c' := if decide _ then _ else _).
  assert (same_tcp t (put_blk a (Conn_pcb c') t)) as S1.
  { apply (same_put _ _ (Conn_pcb c)); [done| |]; simpl; unfold c'; case_decide; auto. }
  eapply yields_mono; [apply IH|]. intros [] t' [S2 H2]. split; [by etrans|].
  intros b [->|Hb]%elem_of_cons; [|by apply H2]. intros H%(same_listener _ _ S2).
  unfold listener_of in H. simpl in H. rewrite lookup_insert_eq in H. simpl in H. unfold c' in H. case_decide; simpl in *; congruence.
Qed.
Lemma listen_closed_yields ex l t : tcp_ok_but ex t →
  yields (tcp_listen_closed l) t (λ _ t', same_tcp t t' ∧ ∀ k a, a ∈ pcbs_of k t → listener_of t' a ≠ Some l).
Proof.
  intros Ht. apply yields_bind, yields_ask. intros b _. apply yields_bind, yields_assert. intros _.
  apply yields_bind, yields_gets. change (id t) with t.
  eapply yields_then; [apply remove_listener_yields|]. intros [] t1 [S1 H1].
  eapply yields_then; [apply remove_listener_yields|]. intros [] t2 [S2 H2].
  eapply yields_mono; [apply remove_listener_yields|]. intros [] t3 [S3 H3].
  split; [by do 2 (etrans; [eassumption|])|].
  assert (∀ a lp, listener_of t3 a = Some lp → listener_of t2 a = Some lp) as P3 by apply S3.
  assert (∀ a lp, listener_of t2 a = Some lp → listener_of t1 a = Some lp) as P2 by apply S2.
  intros [] a Ha Hlp; simpl in Ha.
  - destruct (tk_listen_block _ _ _ Ht Ha) as [c Hc]. apply P3, P2, (same_listener _ _ S1) in Hlp.
    unfold listener_of in Hlp. by rewrite Hc in Hlp.
  - by apply (H1 a Ha), P2, P3.
  - by apply (H2 a Ha), P3.
  - by apply (H3 a Ha).
Qed.

(** A block taken off its list, and freed. *)
Lemma freed_ok ex l t0 t1 (m : loc → M tstate unit) :
  tcp_ok_but ex t0 → removed l t0 t1 → (∀ t, off l t → yields (m l) t (λ _, dropped l t)) →
  l ∉ tcp_listen_pcbs t0 ∨ (∀ k a, a ∈ pcbs_of k t0 → listener_of t0 a ≠ Some l) →
  yields (m l) t1 (λ _ t', tcp_ok_but ex t' ∧ input_kept t0 t' ∧ dropped l t0 t').
Proof.
  intros Ht (Ho & Hoff & _) Hm Hl. eapply yields_mono; [by apply Hm|]. intros [] t' Hd.
  pose proof (dropped_trans _ _ _ _ Ho Hd) as Hd'. split; [|split; [apply Hd'|done]].
  apply (dropped_ok _ l t0); [done| |done]. destruct Hl as [Hl|Hl]; [by left|]. right. intros k a Ha Hlp.
  apply (ot_listener _ _ _ (proj1 Hd')) in Hlp; [by apply (Hl k a)|].
  intros ->. destruct Hd' as (_ & _ & Hnone). unfold listener_of in Hlp. by rewrite Hnone in Hlp.
Qed.
Lemma removed_changed b l t t' : removed l t t' → removed l t (t' <| tcp_active_pcbs_changed := b |>).
Proof. intros (Ho & Hoff & H). split; [|by split]. etrans; [exact Ho|apply others_changed]. Qed.
Lemma removed_same l t t1 t2 : removed l t t1 → same_tcp t1 t2 → removed l t t2.
Proof.
  intros (Ho & Hoff & b & b1 & Hb & Hb1 & Hc & Hs) S. split; [etrans; [exact Ho|by apply same_others]|].
  split; [by eapply same_off|]. pose proof (same_sig _ _ S l) as E. rewrite Hb1 in E.
  destruct (tcp_mem t2 !! l) as [b2|]; [|done]. exists b, b2. injection E as E. split_and!; try done.
  - rewrite <- Hc. by destruct b1, b2.
  - rewrite <- Hs. destruct b1, b2; try done; simpl in *; unfold conn_sig, listen_sig in *; congruence.
Qed.
(** A closed block that was bound, or on no list. *)
Lemma unbound_removed ex l b t :
  tcp_ok_but ex t → tcp_mem t !! l = Some b → blk_state b = CLOSED →
  yields (if blk_local_port b =? 0 then ret tt else TCP_RMV L_bound l) t (λ _ t', removed l t t').
Proof.
  intros Ht Hb Hs. pose proof (blk_on _ _ _ _ Ht Hb) as Hon. rewrite Hs in Hon.
  destruct (Z.eqb_spec (blk_local_port b) 0) as [Hz|Hz].
  - apply yields_ret. split; [reflexivity|]. split; [|by exists b, b].
    intros k Hk. pose proof (Hon k Hk) as ->. pose proof (tk_belongs _ _ _ _ _ Ht Hk Hb) as Hbel.
    destruct b as [c|c]; [|done]. by destruct Hbel.
  - eapply yields_mono; [by eapply rmv_yields|].
    intros [] t' (Ho & Hoff & Hm). split; [done|]. split; [done|]. exists b, b. by rewrite Hm.
Qed.
