(* ===== verification/TcpCalls.v ===== *)
(** * TCP: the calls keep the lists

    Every function of the interface of [core/tcp.c] keeps the invariant of
    [TcpLists], whatever the output functions and the callbacks do within what
    the classes [tcp_out_keeps] and [tcp_client_keeps] allow them. *)

From S2P Require Import Prelude Mbox Heap HeapFacts Pbuf Frame Chksum Addr Timeouts Header Ip4 Tcp TcpFrame TcpLists.

(** What TCP relies on of the callbacks of the application: they leave the lists
    well formed. *)
Definition ok_step {W A} `{!Part tstate W} (m : M W A) : Prop :=
  ∀ w, tcp_ok (part_get w) → yields m w (λ _ w', tcp_ok (part_get w')).
Class tcp_client_keeps (W : Type) `{!Part tstate W} `{!tcp_client W} : Prop := {
  ok_recv_tcp a pcb p err : ok_step (recv_tcp a pcb p err);
  ok_sent_tcp a pcb n : ok_step (sent_tcp a pcb n);
  ok_poll_tcp a pcb : ok_step (poll_tcp a pcb);
  ok_err_tcp a err : ok_step (err_tcp a err);
  ok_accept_function a pcb err : ok_step (accept_function a pcb err);
  ok_do_connected a pcb err : ok_step (do_connected a pcb err)
}.

Section calls.
Context {W : Type} `{!Part tstate W} `{!tcp_out W} `{!tcp_client W} `{!tcp_out_keeps W} `{!tcp_client_keeps W}.
Implicit Types w : W.

Abbreviation tc m := (lift (P := tstate) (S := W) m).
Abbreviation st m := (lift (P := tstate) (S := W) (lift (P := ipstate) (lift (P := store) m))).

(** ** Composing steps *)

Lemma tcp_ok_kept t t' : input_kept t t' → tcp_ok_but (input_of t) t' → tcp_ok t'.
Proof. intros Hi. apply tcp_ok_ex_mono. intros l. by apply input_of_kept. Qed.
Lemma ok_ret {A} (a : A) : ok_step (ret a).
Proof. intros w Hw. by apply yields_ret. Qed.
Lemma ok_fail {A} e : ok_step (fail (A := A) e).
Proof. by intros w Hw. Qed.
Lemma ok_bind {A B} (m : M W A) (f : A → M W B) : ok_step m → (∀ a, ok_step (f a)) → ok_step (mbnd m f).
Proof. intros Hm Hf w Hw. eapply yields_then; [by apply Hm|]. intros a w1 H1. by apply Hf. Qed.
Lemma ok_ask {A} (f : tstate → res A) : ok_step (tc (ask f)).
Proof. intros w Hw. by apply yields_ask_lift. Qed.
Lemma ok_same {A} (m : M W A) : stable same_w m → ok_step m.
Proof.
  intros Hm w Hw. eapply yields_mono; [apply Hm|]. intros a w' Hs. apply (tcp_ok_kept (part_get w)), (same_tcp_ok _ _ _ Hs), Hw.
  apply input_same_kept, Hs.
Qed.
(** The state is known when the step is taken. *)
Lemma ok_from {A} (m : M W A) : (∀ w, tcp_ok (part_get w) → yields m w (λ _ w', tcp_ok (part_get w'))) → ok_step m.
Proof. done. Qed.

(** What follows a step on the part. *)
Lemma yields_tc {A B} (m : M tstate A) (f : A → M W B) w (P : A → tstate → Prop) (Q : B → W → Prop) :
  yields m (part_get w) P → (∀ a w', P a (part_get w') → yields (f a) w' Q) → yields (mbnd (tc m) f) w Q.
Proof. intros Hm Hf. eapply yields_then; [by apply yields_part|]. intros a w' H. by apply Hf. Qed.
Lemma tcp_ok_same {t t'} : same_tcp t t' → tcp_ok t → tcp_ok t'.
Proof.
  intros Hs Ht. apply (tcp_ok_kept t); [apply input_same_kept, Hs|by apply (same_tcp_ok _ t)].
Qed.
Lemma tcp_ok_dropped t t' l : tcp_ok t → l ∉ tcp_listen_pcbs t ∨ (∀ k a, a ∈ pcbs_of k t → listener_of t' a ≠ Some l) →
  dropped l t t' → tcp_ok t'.
Proof.
  intros Ht Hl Hd. apply (tcp_ok_kept t); [apply Hd|by apply (dropped_ok _ l t)].
Qed.

(** ** Removing a block *)

Lemma pcb_remove_yields ex wl l w :
  tcp_ok_but ex (part_get w) → (∀ k, l ∈ pcbs_of k (part_get w) → k = wl) →
  yields (tcp_pcb_remove wl l) w (λ _ w', removed l (part_get w) (part_get w')).
Proof.
  intros Hw Hl. set (t := part_get w) in *. eapply yields_tc; [by apply (rmv_yields ex)|]. intros [] w1 (Ho & Hoff & Hm).
  eapply stable_then; [apply stable_part, same_pcb_purge|]. intros [] w2 S2.
  apply yields_bind, yields_ask_lift. intros b Hb. apply get_blk_val in Hb.
  eapply (stable_then same_w); [stable_tac|]. intros [] w3 S3. assert (same_tcp (part_get w1) (part_get w3)) as S by (by etrans).
  apply yields_bind, yields_ask_lift. intros b3 Hb3. apply get_blk_val in Hb3.
  assert (∃ b0, tcp_mem t !! l = Some b0 ∧ is_conn b0 = is_conn b3) as (b0 & Hb0 & Hc).
  { unfold t. rewrite <- Hm. pose proof (same_sig _ _ S l) as E. rewrite Hb3 in E. destruct (tcp_mem (part_get w1) !! l) as [b0|]; [|done].
    exists b0. split; [done|]. by destruct b0, b3; injection E. }
  assert (∀ b', is_conn b' = is_conn b3 → blk_state b' = CLOSED → removed l t (put_blk l b' (part_get w3))) as Hfin.
  { intros b' Hk Hs. split; [|split].
    - etrans; [exact Ho|]. etrans; [by apply same_others|apply others_put].
    - by apply (same_off _ _ _ S).
    - exists b0, b'. simpl. rewrite lookup_insert_eq. split_and!; congruence. }
  destruct b3 as [c|c].
  - eapply (stable_then eq); [stable_tac|].
    + intros [] w4 <-. apply (yields_part _ _ (λ _, removed l t)), yields_update_tcp. intros c' Hc'. by apply Hfin.
  - apply (yields_part _ _ (λ _, removed l t)), yields_update_lpcb. intros c' Hc'. by apply Hfin.
Qed.

Lemma yields_freed (m : loc → M tstate unit) l w t0 :
  tcp_ok t0 → removed l t0 (part_get w) → (∀ t, off l t → yields (m l) t (λ _, dropped l t)) →
  l ∉ tcp_listen_pcbs t0 ∨ (∀ k a, a ∈ pcbs_of k t0 → listener_of t0 a ≠ Some l) →
  yields (tc (m l)) w (λ _ w', tcp_ok (part_get w') ∧ dropped l t0 (part_get w')).
Proof.
  intros Ht Hr Hm Hl. apply (yields_part _ _ (λ _ t', tcp_ok t' ∧ dropped l t0 t')).
  eapply yields_mono; [by eapply freed_ok|]. intros [] t' (H & Hi & Hd). split; [|done].
  by apply (tcp_ok_kept t0).
Qed.
Lemma remove_active_yields ex l w :
  tcp_ok_but ex (part_get w) → (∀ k, l ∈ pcbs_of k (part_get w) → k = L_active) →
  yields (TCP_PCB_REMOVE_ACTIVE l) w (λ _ w', removed l (part_get w) (part_get w')).
Proof.
  intros Hw Hl. eapply yields_then; [by apply (pcb_remove_yields ex)|]. intros [] w1 Hr.
  apply (yields_part _ _ (λ _, removed l (part_get w))), yields_modify, removed_changed, Hr.
Qed.

(** ** A change of state within a list *)

Lemma tcp_ok_put t l c c' :
  tcp_ok t → tcp_mem t !! l = Some (Conn_pcb c) → home (Conn_pcb c') = home (Conn_pcb c) →
  (∀ k, l ∈ pcbs_of k t → belongs k (Conn_pcb c')) → (tp_listener c' = tp_listener c ∨ tp_listener c' = None) →
  tcp_ok (put_blk l (Conn_pcb c') t).
Proof.
  intros Ht Hl Hh Hb Hp. assert (tcp_mem (put_blk l (Conn_pcb c') t) !! l = Some (Conn_pcb c')) as Hnew by apply lookup_insert_eq.
  eapply (tcp_ok_others _ _ l t); [exact Ht|apply others_put|done| | |].
  - intros k Hk. eexists. split; [exact Hnew|]. split; [by apply Hb|]. simpl. intros lp Hlp.
    apply (tk_listener _ _ Ht k l lp Hk). unfold listener_of. rewrite Hl. simpl. destruct Hp as [<-| E]; [done|congruence].
  - intros b Hb'. rewrite Hnew in Hb'. injection Hb' as <-. split; [|split].
    + intros k Hk. rewrite Hh in Hk. by apply (tk_home _ _ Ht _ _ _ Hl).
    + intros Hn. rewrite Hh in Hn. pose proof (tk_closed _ _ Ht _ _ Hl Hn) as E. simpl in *. destruct Hp; congruence.
    + apply (tk_fresh _ _ Ht). by exists (Conn_pcb c).
  - intros k a Hne Ha Hlp. unfold listener_of in Hlp. simpl in Hlp. rewrite lookup_insert_ne in Hlp by done.
    by apply (tk_listener _ _ Ht k a).
Qed.
Lemma tcp_ok_active_state t l c s' :
  tcp_ok t → tcp_mem t !! l = Some (Conn_pcb c) → home (Conn_pcb c) = Some L_active →
  home (Conn_pcb (c <| tp_state := s' |>)) = Some L_active → tcp_ok (put_blk l (Conn_pcb (c <| tp_state := s' |>)) t).
Proof.
  intros Ht Hl Hh Hh'. apply (tcp_ok_put t l c); try done; [congruence| |by left].
  intros k Hk. by rewrite (conn_on _ _ _ _ _ Ht Hl Hh k Hk).
Qed.

(** ** Closing *)

Lemma ok_send_fin_to l acc s' w c :
  tcp_mem (part_get w) !! l = Some (Conn_pcb c) → home (Conn_pcb c) = Some L_active →
  (∀ c, home (Conn_pcb (c <| tp_state := s' |>)) = Some L_active) → tcp_ok (part_get w) →
  yields (send_fin_to l acc s') w (λ _ w', tcp_ok (part_get w')).
Proof.
  intros Hl Hh Hs Hw. unfold send_fin_to. eapply stable_then; [apply keeps_send_fin|]. intros err w1 S1.
  pose proof (tcp_ok_same S1 Hw) as H1. destruct (is_ok err); [|by apply yields_bind, yields_ret, yields_ret].
  apply (yields_then _ _ _ (λ _ w', tcp_ok (part_get w'))); [|intros ? ? H; by apply yields_ret].
  eapply (stable_then same_w); [destruct acc; stable_tac|]. intros [] w2 S2. pose proof (tcp_ok_same S2 H1) as H2.
  apply (yields_part _ _ (λ _, tcp_ok)), yields_update_tcp. intros c2 Hc2.
  assert (same_tcp (part_get w) (part_get w2)) as S by (by etrans). destruct (same_conn _ _ _ _ S Hl) as (c2' & Hc2' & E).
  simplify_eq. apply tcp_ok_active_state; try done. rewrite <- Hh. apply sig_home. simpl. unfold conn_sig in *. congruence.
Qed.

Lemma ok_close_shutdown_fin l : ok_step (tcp_close_shutdown_fin l).
Proof.
  intros w Hw. apply yields_bind, yields_ask_lift. intros c Hc%get_tcp_val.
  assert (∀ err, ok_step (match err with
    | ERR_OK => let! _ := tcp_output l in ret err
    | ERR_MEM => do! tc (tcp_set_flags l TF_CLOSEPEND); ret ERR_OK
    | _ => ret err end)) as Hfin by (intros err; apply ok_same; stable_tac).
  destruct (tp_state c) eqn:E; try (by apply yields_ret);
    (eapply yields_then; [eapply (ok_send_fin_to _ _ _ _ c); simpl; rewrite ?E; done|]; intros err w1 H1; by apply Hfin).
Qed.

(** A connection off its list while its segment is processed. *)
Lemma tcp_ok_input t t' l : tcp_ok t → others l t t' → off l t' → input_of t' l →
  (∃ c, tcp_mem t' !! l = Some (Conn_pcb c) ∧ home (Conn_pcb c) ≠ None) → l ∉ tcp_listen_pcbs t → (l < next_block t')%positive → tcp_ok t'.
Proof.
  intros Ht Ho Hoff Hi (c & Hc & Hh) Hl Hn. unfold tcp_ok. eapply (tcp_ok_others _ _ l t); [exact Ht|done| | | |].
  - intros a Ha _. by apply (input_of_kept t), Ha; apply Ho.
  - intros k Hk. by destruct (Hoff k).
  - intros b Hb. split; [|split; [congruence|done]]. intros k _. by right.
  - intros k a Hne Ha Hlp. exfalso. apply (ot_listener _ _ _ Ho) in Hlp; [|done]. apply Hl. by apply (tk_listener _ _ Ht k a).
Qed.

Lemma must_reset_active b rst : must_reset rst b = true → ∃ c, b = Conn_pcb c ∧ home b = Some L_active.
Proof.
  destruct b as [c|c]; [|done]. simpl. intros H. bool_prop. exists c. split; [done|].
  apply orb_prop in H1 as [H1|H1]; apply bool_decide_eq_true in H1; by rewrite H1.
Qed.

Lemma ok_reset_close l w c :
  tcp_ok (part_get w) → tcp_mem (part_get w) !! l = Some (Conn_pcb c) → home (Conn_pcb c) = Some L_active →
  yields (do! tc (tcp_pcb_purge l); do! tc (TCP_RMV_ACTIVE l);
          let! input_pcb := tc (gets tcp_input_pcb) in
          do! (if decide (input_pcb = Some l) then tc tcp_trigger_input_pcb_close else tc (tcp_free l));
          ret ERR_OK) w (λ _ w', tcp_ok (part_get w')).
Proof.
  intros Hw Hl Hh. eapply stable_then; [apply stable_part, same_pcb_purge|]. intros [] w1 S1.
  pose proof (tcp_ok_same S1 Hw) as H1. destruct (same_conn _ _ _ _ S1 Hl) as (c1 & Hc1 & E1).
  assert (home (Conn_pcb c1) = Some L_active) as Hh1 by (rewrite <- Hh; apply sig_home; simpl; congruence).
  eapply yields_tc; [eapply (rmv_active_yields _ l); [exact H1|by eapply conn_on]|]. intros [] w2 (Ho & Hoff & Hm).
  apply yields_bind, yields_gets_lift. eapply (yields_then _ _ _ (λ _ w', tcp_ok (part_get w'))); [|intros; by apply yields_ret].
  assert (l ∉ tcp_listen_pcbs (part_get w1)) as Hnl by by eapply conn_not_listening.
  case_decide as Hi; apply (yields_part _ _ (λ _, tcp_ok)).
  - apply yields_modify. set (t2 := part_get w2) in *.
    change (t2 <| recv_flags := _ |>) with (flags_set t2 TF_CLOSED).
    assert (others l t2 (flags_set t2 TF_CLOSED)) as Ho2.
    { apply others_refl_mem; try done. apply input_kept_set; [done|]. unfold t2 in *. by rewrite Hi. }
    eapply (tcp_ok_input (part_get w1) _ l); [done|by etrans|exact Hoff| | |done|].
    + split; [exact Hi|]. apply closed_set. by right.
    + exists c1. cbn -[home]. rewrite Hm, Hh1. by split.
    + eapply Pos.lt_le_trans; [|apply (ot_next _ _ _ Ho)]. apply (tk_fresh _ _ H1). by eexists.
  - eapply yields_mono; [by apply free_yields|]. intros [] t' Hd.
    apply (tcp_ok_dropped (part_get w1) _ l); [done|by left|by eapply dropped_trans].
Qed.

Lemma yields_unbound ex l b w :
  tcp_ok_but ex (part_get w) → tcp_mem (part_get w) !! l = Some b → blk_state b = CLOSED →
  yields (if blk_local_port b =? 0 then ret tt else tc (TCP_RMV L_bound l)) w (λ _ w', removed l (part_get w) (part_get w')).
Proof.
  intros Hw Hb Hs. pose proof (unbound_removed _ _ _ _ Hw Hb Hs) as H. case_match; [exact H|].
  by apply (yields_part _ _ (λ _, removed l (part_get w))).
Qed.
Lemma ok_close_shutdown l rst : ok_step (tcp_close_shutdown l rst).
Proof.
  intros w Hw. apply yields_bind, yields_ask_lift. intros b Hb%get_blk_val.
  pose proof (blk_on _ _ _ _ Hw Hb) as Hon. pose proof (not_listening _ _ _ _ Hw Hb) as Hnl.
  destruct (must_reset rst b) eqn:Hr.
  { apply must_reset_active in Hr as (c & -> & Hh). apply yields_bind, yields_ask_lift. intros c' Hc%get_tcp_val. simplify_eq.
    apply yields_bind, yields_assert. intros _. eapply (stable_then same_w); [apply same_rst_pcb|]. intros [] w1 S1.
    destruct (same_conn _ _ _ _ S1 Hb) as (c1 & Hc1 & E1). eapply ok_reset_close; [by eapply tcp_ok_same|exact Hc1|].
    rewrite <- Hh. apply sig_home. simpl. by rewrite E1. }
  clear Hr. destruct (blk_state b) eqn:Hs; try apply ok_close_shutdown_fin, Hw.
  - eapply (yields_then _ _ _ (λ _ w', removed l (part_get w) (part_get w'))).
    { by eapply yields_unbound. }
    intros [] w1 Hr. eapply yields_then; [eapply (yields_freed tcp_free l); [exact Hw|exact Hr|apply free_yields|left; by apply Hnl]|].
    intros [] w2 [H2 _]. by apply yields_ret.
  - eapply yields_tc; [by eapply listen_closed_yields|]. intros [] w1 [S1 Hno]. pose proof (tcp_ok_same S1 Hw) as H1.
    eapply yields_then; [eapply (pcb_remove_yields _ L_listen); [exact H1|]|].
    { intros k Hk. rewrite (same_lists _ _ S1) in Hk. by apply Hon. }
    intros [] w2 Hr. eapply yields_then; [eapply (yields_freed tcp_free_listen l); [exact H1|exact Hr|apply free_listen_yields|right]|].
    { intros k a Ha. rewrite (same_lists _ _ S1) in Ha. by apply (Hno k a). }
    intros [] w3 [H3 _]. by apply yields_ret.
  - eapply yields_then; [eapply remove_active_yields; [exact Hw|exact Hon]|].
    intros [] w1 Hr. eapply yields_then; [eapply (yields_freed tcp_free l); [exact Hw|exact Hr|apply free_yields|left; by apply Hnl]|].
    intros [] w2 [H2 _]. by apply yields_ret.
Qed.

Lemma ok_close pcb : ok_step (tcp_close pcb).
Proof.
  intros w Hw. apply yields_bind, yields_valid_ptr. intros l _. apply yields_bind, yields_ask_lift. intros b _.
  eapply (stable_then same_w); [stable_tac|]. intros [] w1 S1. apply ok_close_shutdown. by eapply tcp_ok_same.
Qed.
Lemma ok_shutdown pcb rx tx : ok_step (tcp_shutdown pcb rx tx).
Proof.
  intros w Hw. apply yields_bind, yields_valid_ptr. intros l _. apply yields_bind, yields_ask_lift. intros b _.
  case_bool_decide; [by apply yields_ret|].
  eapply (stable_then same_w); [stable_tac|]. intros [] w1 S1. pose proof (tcp_ok_same S1 Hw) as H1.
  destruct (rx && tx); [by apply ok_close_shutdown|].
  eapply (stable_then same_w); [stable_tac|]. intros [] w2 S2. pose proof (tcp_ok_same S2 H1) as H2.
  destruct tx; [|by apply yields_ret]. apply yields_bind, yields_ask_lift. intros b' _.
  destruct (blk_state b'); try (by apply yields_ret); by apply ok_close_shutdown.
Qed.

(** ** Aborting *)

Lemma ok_TCP_EVENT_ERR errf a err : ok_step (TCP_EVENT_ERR errf a err).
Proof. destruct errf as [[]|]; [apply ok_err_tcp|apply ok_ret]. Qed.

(** What holds when the block is gone and the application has been told. *)
Lemma abandon_yields l reset w (Q : unit → W → Prop) :
  tcp_ok (part_get w) →
  (∀ w', tcp_ok (part_get w') → tcp_mem (part_get w') !! l = None → Q tt w') →
  (∀ w' errf a, tcp_ok (part_get w') → tcp_mem (part_get w') !! l = None → yields (TCP_EVENT_ERR errf a ERR_ABRT) w' Q) →
  yields (tcp_abandon (Some l) reset) w Q.
Proof.
  intros Hw HQ Herr. apply yields_bind, yields_valid_ptr. intros l' [= <-]. apply yields_bind, yields_ask_lift. intros b Hb%get_blk_val.
  apply yields_bind, yields_assert. intros Hnl%bool_decide_eq_true. apply yields_bind, yields_ask_lift. intros c Hc%get_tcp_val. simplify_eq.
  pose proof (blk_on _ _ _ _ Hw Hb) as Hon. pose proof (not_listening _ _ _ _ Hw Hb Hnl) as Hl. simpl in Hon, Hnl.
  case_bool_decide as Htw.
  { rewrite Htw in Hon. eapply yields_then; [eapply pcb_remove_yields; [exact Hw|exact Hon]|]. intros [] w1 Hr.
    eapply yields_mono; [eapply (yields_freed tcp_free l); [exact Hw|exact Hr|apply free_yields|by left]|].
    intros [] w2 (? & _ & _ & ?). by apply HQ. }
  eapply (yields_then _ _ _ (λ _ w', removed l (part_get w) (part_get w'))).
  { case_bool_decide as Hcl; (apply (yields_then _ _ _ (λ _ w', removed l (part_get w) (part_get w'))); [|intros [] w' H; by apply yields_ret]).
    - by apply (yields_unbound _ l (Conn_pcb c) w Hw Hb).
    - eapply remove_active_yields; [exact Hw|]. intros k Hk. rewrite (Hon k Hk). by destruct (tp_state c). }
  intros [send_rst local_port] w1 Hr. apply yields_bind, yields_ask_lift. intros c' _.
  eapply (stable_then same_w); [stable_tac; apply same_segs_free|]. intros [] w2 S2.
  eapply (stable_then same_w); [stable_tac; apply same_segs_free|]. intros [] w3 S3.
  eapply (stable_then same_w); [stable_tac; apply same_segs_free|]. intros [] w4 S4.
  eapply (stable_then same_w); [stable_tac|]. intros [] w5 S5. eapply (stable_then same_w); [stable_tac|]. intros [] w6 S6.
  assert (removed l (part_get w) (part_get w6)) as Hr6 by (do 5 (eapply removed_same; [|eassumption]); exact Hr).
  eapply yields_then; [eapply (yields_freed tcp_free l); [exact Hw|exact Hr6|apply free_yields|by left]|].
  intros [] w7 (H7 & _ & _ & Hn). by apply Herr.
Qed.
Lemma ok_abandon pcb reset : ok_step (tcp_abandon pcb reset).
Proof.
  intros w Hw. destruct pcb as [l|]; [|done]. apply abandon_yields; [done|done|]. intros w' errf a H' _. by apply ok_TCP_EVENT_ERR.
Qed.
Lemma ok_abort pcb : ok_step (tcp_abort pcb).
Proof. apply ok_abandon. Qed.
Lemma ok_accept_null pcb : ok_step (tcp_accept_null pcb).
Proof. apply ok_bind; [apply ok_same; stable_tac|intros _]. apply ok_bind; [apply ok_abort|intros _; apply ok_ret]. Qed.

(** ** Receiving *)

Lemma same_recved pcb n : stable same_w (tcp_recved pcb n).
Proof. unfold tcp_recved. stable_tac. Qed.
Lemma ok_recv_null pcb p err : ok_step (tcp_recv_null pcb p err).
Proof.
  apply ok_bind; [apply ok_same; stable_tac|intros _]. destruct p as [p|].
  - apply ok_same. pose proof same_recved. stable_tac.
  - destruct (is_ok err); [apply ok_close|apply ok_ret].
Qed.
Lemma ok_TCP_EVENT_RECV l p err : ok_step (TCP_EVENT_RECV l p err).
Proof.
  apply ok_bind; [apply ok_ask|intros c]. destruct (tp_recv c) as [[]|]; [apply ok_recv_tcp|apply ok_recv_null..].
Qed.
Lemma ok_TCP_EVENT_CLOSED l : ok_step (TCP_EVENT_CLOSED l).
Proof.
  apply ok_bind; [apply ok_ask|intros c]. destruct (tp_recv c) as [[]|]; [apply ok_recv_tcp|apply ok_recv_null|apply ok_ret].
Qed.
Lemma ok_TCP_EVENT_POLL l : ok_step (TCP_EVENT_POLL l).
Proof. apply ok_bind; [apply ok_ask|intros c]. destruct (tp_poll c) as [[]|]; [apply ok_poll_tcp|apply ok_ret]. Qed.

Lemma ok_process_refused_loop fuel l : ok_step (process_refused_loop fuel l).
Proof.
  induction fuel as [|fuel IH]; cbn [process_refused_loop]; [apply ok_fail|].
  refine (ok_bind _ _ _ _); [apply ok_ask|intros c]. destruct (tp_refused_data c) as [p|]; [|apply ok_ret].
  refine (ok_bind _ _ _ _); [apply ok_same; stable_tac|intros q]. refine (ok_bind _ _ _ _); [apply ok_same; stable_tac|intros rest].
  refine (ok_bind _ _ _ _); [apply ok_same; stable_tac|intros _]. refine (ok_bind _ _ _ _); [apply ok_TCP_EVENT_RECV|intros err].
  assert (ok_step (W := W) (
    do! match rest with None => ret tt | Some _ => st (pbuf_cat (Some p) rest) end;
    do! tc (update_tcp l (λ c, c <| tp_refused_data := Some p |>)); ret ERR_INPROGRESS)) as Hrest
    by (apply ok_same; stable_tac).
  destruct err; try exact Hrest; [|apply ok_ret]. destruct (_ && _); [|exact IH].
  refine (ok_bind _ _ _ _); [apply ok_same; stable_tac|intros _]. refine (ok_bind _ _ _ _); [apply ok_TCP_EVENT_CLOSED|intros err].
  destruct err; try exact IH. apply ok_ret.
Qed.
Lemma ok_process_refused_data pcb : ok_step (tcp_process_refused_data pcb).
Proof.
  refine (ok_bind _ _ _ _); [apply ok_same; stable_tac|intros l]. refine (ok_bind _ _ _ _); [apply ok_same; stable_tac|intros f].
  apply ok_process_refused_loop.
Qed.
End calls.
