(* ===== verification/TcpOpen.v ===== *)
(** * TCP: opening connections keeps the lists

    [tcp_bind], [tcp_listen_with_backlog], [tcp_connect] and [tcp_alloc], which
    frees other connections when there is no memory; and the reaction to a
    change of address. *)

From S2P Require Import Prelude Mbox Heap HeapFacts Pbuf Frame Chksum Addr Timeouts Header Ip4 Tcp TcpFrame TcpLists TcpCalls.

Implicit Types t : tstate.

(** ** Putting a block on a list *)

Lemma all_pcbs_in t l : l ∈ all_pcbs t ↔ ∃ k, l ∈ pcbs_of k t.
Proof.
  unfold all_pcbs. rewrite !elem_of_app. split.
  - intros [H|[H|[H|H]]]; [by exists L_listen|by exists L_bound|by exists L_active|by exists L_tw].
  - intros [[] H]; simpl in H; tauto.
Qed.
Lemma others_link l k t : off l t → others l t (set_pcbs k (l :: pcbs_of k t) t).
Proof.
  intros Hoff. apply others_lists; try (by destruct k).
  - intros k' a Ha. rewrite pcbs_of_set. case_decide; subst; [|done]. rewrite elem_of_cons. naive_solver.
  - intros Hnd k'. rewrite pcbs_of_set. case_decide; subst; [|done]. by constructor.
Qed.
Lemma reg_link_yields k l t :
  yields (tcp_reg_link k l) t (λ _ t', is_Some (tcp_mem t !! l) ∧ t' = set_pcbs k (l :: pcbs_of k t) t).
Proof. apply yields_bind, yields_ask. intros b Hb%get_blk_val. apply yields_modify. by split; [exists b|]. Qed.

(** The block [l] comes on the list [k]. *)
Lemma linked_ok (ex ex' : loc → Prop) k l t0 t b :
  tcp_ok_but ex t0 → others l t0 t → off l t → tcp_mem t !! l = Some b → belongs k b →
  (∀ lp, blk_listener b = Some lp → home b ≠ None ∧ lp ∈ tcp_listen_pcbs t) →
  (∀ a, ex a → a ≠ l → ex' a) → (home b = None ∨ home b = Some k) →
  (l < next_block t)%positive → l ∉ tcp_listen_pcbs t0 →
  tcp_ok_but ex' (set_pcbs k (l :: pcbs_of k t) t).
Proof.
  intros H0 Ho Hoff Hb Hbel Hlis Hex Hh Hn Hnl. set (t' := set_pcbs k _ t).
  assert (tcp_mem t' = tcp_mem t) as Hm by by destruct k. assert (next_block t' = next_block t) as Hnb by by destruct k.
  assert (∀ k', l ∈ pcbs_of k' t' ↔ k' = k) as Hin.
  { intros k'. unfold t'. rewrite pcbs_of_set. case_decide; subst; [split; [done|by left]|]. split; [|done]. by intros ?%Hoff. }
  assert (others l t t') as Ho' by by apply others_link.
  eapply (tcp_ok_others ex ex' l t0); [exact H0|by etrans|exact Hex| | |].
  - intros k' ->%Hin. exists b. rewrite Hm. split_and!; [done|done|]. intros lp [_ Hlp]%Hlis.
    change (lp ∈ pcbs_of L_listen t'). unfold t'. rewrite pcbs_of_set. case_decide as E; [by rewrite <- E; right|done].
  - intros b' Hb'. rewrite Hm, Hb in Hb'. injection Hb' as <-. rewrite Hnb. split_and!; [| |done].
    + intros k' Hk. left. apply Hin. destruct Hh; congruence.
    + intros Hnone. destruct (blk_listener b) as [lp|]; [|done]. by destruct (Hlis lp eq_refl).
  - intros k' a Hne Ha Hlp. exfalso. apply (ot_listener _ _ _ Ho'), (ot_listener _ _ _ Ho) in Hlp; [|done..].
    apply Hnl. by apply (tk_listener _ _ H0 k' a).
Qed.

Section opening.
Context {W : Type} `{!Part tstate W} `{!tcp_out W} `{!tcp_client W} `{!tcp_out_keeps W} `{!tcp_client_keeps W}.
Context `{!Part timeouts W} `{!timer_client W} `{!Apart tstate timeouts W}.
Implicit Types w : W.

Abbreviation tc m := (lift (P := tstate) (S := W) m).
Abbreviation st m := (lift (P := tstate) (S := W) (lift (P := ipstate) (lift (P := store) m))).

(** The timers are elsewhere. *)
Lemma timer_needed_apart : stable (on_part eq (P := tstate)) (tcp_timer_needed (W := W)).
Proof.
  assert (∀ A (m : M timeouts A), stable (on_part eq (P := tstate)) (lift (S := W) m)) as H.
  { intros A m. apply (stable_lift (λ _ _, True)); [|by intros s; unfold yields; repeat case_match].
    intros s p _. unfold on_part. by rewrite (apart p s). }
  unfold tcp_timer_needed. repeat stable_step; try apply H.
Qed.

Lemma reg_yields k l w :
  yields (TCP_REG k l) w (λ _ w', is_Some (tcp_mem (part_get w) !! l) ∧
    part_get w' = set_pcbs k (l :: pcbs_of k (part_get w)) (part_get w)).
Proof.
  eapply yields_tc; [apply reg_link_yields|]. intros [] w1 (Hm & E).
  eapply yields_mono; [apply timer_needed_apart|]. intros [] w2 E2. split; [done|]. by rewrite <- E, E2.
Qed.

(** ** Binding *)

Lemma same_new_port_loop fuel : ∀ n, stable same_tcp (tcp_new_port_loop fuel n).
Proof.
  induction fuel; intros n; cbn [tcp_new_port_loop]; stable_tac. split; try done; reflexivity.
Qed.
Lemma same_new_port : stable same_tcp tcp_new_port.
Proof. apply same_new_port_loop. Qed.
#[local] Hint Resolve same_new_port : stable.
Lemma bind_port_yields ip port t :
  yields (tcp_bind_port ip port) t (λ r t', same_tcp t t' ∧ match r with inl p => p ≠ 0 | inr _ => True end).
Proof.
  unfold tcp_bind_port. destruct (Z.eqb_spec port 0) as [|Hp].
  - eapply stable_then; [apply same_new_port|]. intros p t' S. apply yields_ret. split; [done|].
    by destruct (Z.eqb_spec p 0).
  - apply yields_bind, yields_gets, yields_bind, yields_ask. intros r _. apply yields_ret. split; [reflexivity|]. by destruct r.
Qed.

(** A block that is not bound yet. *)
Definition unbound (pcb : option loc) t : Prop := ∀ l, pcb = Some l → l ∉ tcp_bound_pcbs t.
Lemma closed_off ex l b t : tcp_ok_but ex t → tcp_mem t !! l = Some b → blk_state b = CLOSED → l ∉ tcp_bound_pcbs t → off l t.
Proof. intros Ht Hl Hs Hn k Hk. pose proof (blk_on _ _ _ _ Ht Hl k Hk) as E. rewrite Hs in E. by subst. Qed.
Lemma bind_yields pcb ipaddr port w : tcp_ok (part_get w) → unbound pcb (part_get w) →
  yields (tcp_bind pcb ipaddr port) w (λ _ w', tcp_ok (part_get w')).
Proof.
  intros Hw Hun. apply yields_bind, yields_valid_ptr. intros l Hpl. apply yields_bind, yields_ask_lift. intros b Hb%get_blk_val.
  apply yields_bind, yields_assert. intros Hcl%bool_decide_eq_true. pose proof (closed_off _ _ _ _ Hw Hb Hcl (Hun l Hpl)) as Hoff.
  eapply yields_tc; [apply bind_port_yields|]. intros r w1 [S1 Hr]. apply (same_off _ _ _ S1) in Hoff. pose proof (tcp_ok_same S1 Hw) as H1.
  destruct r as [p|err]; [|by apply yields_ret].
  eapply yields_tc; [apply (yields_update_tcp _ _ _ (λ _ t', ∃ c, tcp_mem (part_get w1) !! l = Some (Conn_pcb c) ∧
    ∃ c', tp_state c' = tp_state c ∧ tp_listener c' = tp_listener c ∧ tp_local_port c' = p ∧
      t' = put_blk l (Conn_pcb c') (part_get w1)))|].
  { intros c Hc. exists c. split; [done|]. eexists. split_and!; [..|done]; simpl; by repeat case_match. }
  intros [] w2 (c & Hc & c' & Es & El & Ep & E2).
  assert (tp_state c = CLOSED) as Hs.
  { pose proof (same_sig _ _ S1 l) as E. rewrite Hb, Hc in E. destruct b as [b|b]; [|done].
    injection E as E _ _. simpl in Hcl. congruence. }
  eapply yields_then; [apply reg_yields|]. intros [] w3 (_ & E3). apply yields_ret. unfold tcp_ok. rewrite E3.
  assert (off l (part_get w2)) as Hoff2 by (by rewrite E2).
  assert (tcp_mem (part_get w2) !! l = Some (Conn_pcb c')) as Hc2 by (rewrite E2; apply lookup_insert_eq).
  assert (home (Conn_pcb c) = None) as Hh by (simpl; by rewrite Hs).
  eapply (linked_ok (input_of (part_get w1)) _ L_bound l (part_get w1) (part_get w2)); [exact H1| |exact Hoff2|exact Hc2| | | | | |].
  - rewrite E2. apply others_put.
  - simpl. by rewrite Es, Ep.
  - simpl. rewrite El. intros lp Hlp. pose proof (tk_closed _ _ H1 _ _ Hc Hh) as E. simpl in E. congruence.
  - intros a Ha _. apply (input_of_kept (part_get w1)), Ha. by rewrite E2.
  - left. simpl. by rewrite Es, Hs.
  - rewrite E2. apply (tk_fresh _ _ H1). by exists (Conn_pcb c).
  - by eapply conn_not_listening.
Qed.

(** ** Listening *)

Lemma memp_malloc_yields ty w :
  tcp_ok (part_get w) →
  yields (st (memp_malloc ty)) w (λ r w', same_tcp (part_get w) (part_get w') ∧
    tcp_mem (part_get w') = tcp_mem (part_get w) ∧
    ∀ l, r = Some l → tcp_mem (part_get w) !! l = None ∧ (l < next_block (part_get w'))%positive).
Proof.
  intros Hw. set (t := part_get w) in *.
  apply (yields_part _ _ (λ r t', same_tcp t t' ∧ tcp_mem t' = tcp_mem t ∧
    ∀ l, r = Some l → tcp_mem t !! l = None ∧ (l < next_block t')%positive)).
  apply yields_lift, yields_lift. assert (tcp_mem t !! next_block t = None) as Hnew.
  { destruct (tcp_mem t !! next_block t) eqn:E; [|done]. exfalso.
    pose proof (tk_fresh _ _ Hw (next_block t) (ltac:(by eexists))). lia. }
  unfold yields, memp_malloc, mem_malloc, malloc, alloc_block. change (part_get (part_get (part_get w))) with (ip_store (t_ip t)).
  unfold next_block in *.
  destruct (mallocs (ip_store (t_ip t))) as [|[j|] m]; (split; [split; try done|split; [done|]]);
    unfold on_part, store_grows; simpl; try lia; try done; intros l Hl; simplify_eq; (split; [done|lia]).
Qed.

Lemma ok_listen_with_backlog_and_err pcb backlog : ok_step (tcp_listen_with_backlog_and_err pcb backlog).
Proof.
  intros w Hw. apply yields_bind, yields_valid_ptr. intros l _. apply yields_bind, yields_ask_lift. intros b Hb%get_blk_val.
  apply yields_bind, yields_assert. intros Hcl%bool_decide_eq_true.
  eapply yields_then; [by apply memp_malloc_yields|]. intros r w1 (S1 & Hm1 & Hr). pose proof (tcp_ok_same S1 Hw) as H1.
  destruct r as [lp|]; [|by apply yields_ret]. destruct (Hr lp eq_refl) as [Hnew Hlt].
  apply yields_bind, yields_ask_lift. intros c Hc%get_tcp_val. rewrite Hm1, Hb in Hc. injection Hc as ->.
  set (t1 := part_get w1) in *. set (nl := Listen_pcb (new_listener c backlog)).
  assert (l ≠ lp) as Hne by congruence.
  assert (off lp t1) as Hoff.
  { intros k Hk. destruct (tk_on _ _ H1 _ _ Hk) as (x & Hx & _). congruence. }
  eapply yields_tc; [apply (yields_modify _ _ (λ _ t, t = put_blk lp nl t1)); done|]. intros [] w2 E2.
  set (ex := λ a, input_of t1 a ∨ a = lp).
  assert (tcp_ok_but ex (part_get w2)) as H2.
  { rewrite E2. eapply (tcp_ok_others (input_of t1) ex lp t1); [exact H1|apply others_put|by left| | |].
    - intros k Hk. by destruct (Hoff k).
    - intros x Hx. simpl in Hx. rewrite lookup_insert_eq in Hx. injection Hx as <-. split_and!; [by right; right|done|done].
    - intros k a Ha Hin Hlp. exfalso. apply (ot_listener _ _ _ (others_put _ _ _)) in Hlp; [|done].
      apply (tk_listener _ _ H1 _ _ _ Hin) in Hlp. by apply (Hoff L_listen). }
  assert (tcp_mem (part_get w2) !! l = Some (Conn_pcb c)) as Hc2.
  { rewrite E2. simpl. rewrite lookup_insert_ne by done. by rewrite Hm1. }
  assert (l ∉ tcp_listen_pcbs (part_get w2)) as Hl2 by by eapply conn_not_listening.
  eapply yields_then; [by apply (yields_unbound _ _ (Conn_pcb c) _ H2 Hc2)|]. intros [] w3 Hrm.
  eapply yields_tc; [eapply (freed_ok ex l (part_get w2) _ tcp_free); [exact H2|exact Hrm|apply free_yields|by left]|].
  intros [] w4 (H4 & Hi4 & Hd4).
  eapply yields_then; [apply reg_yields|]. intros [] w5 ([x Hx] & E5). apply yields_ret. unfold tcp_ok. rewrite E5.
  assert (blk_sig x = blk_sig nl) as Es.
  { pose proof (ot_sig _ _ _ (proj1 Hd4) lp (not_eq_sym Hne)) as E. rewrite Hx, E2 in E. simpl in E. rewrite lookup_insert_eq in E.
    by injection E. }
  assert (∀ a, input_of t1 a → input_of (part_get w4) a) as Hi.
  { intros a Ha. apply (input_of_kept (part_get w2)); [exact Hi4|]. rewrite E2. exact Ha. }
  assert (off lp (part_get w4)) as Hoff4.
  { intros k Hk. apply (ot_in _ _ _ (proj1 Hd4)) in Hk; [|done]. rewrite E2 in Hk. by apply (Hoff k). }
  eapply (linked_ok ex _ L_listen lp (part_get w4) (part_get w4) x); [exact H4|reflexivity|exact Hoff4|exact Hx| | | | | |].
  - by apply (sig_belongs _ nl).
  - by destruct x.
  - intros a [Ha|Ha] Hal; [by apply Hi|done].
  - right. by rewrite (sig_home _ _ Es).
  - apply (tk_fresh _ _ H4). by exists x.
  - exact (Hoff4 L_listen).
Qed.
Lemma ok_listen_with_backlog pcb backlog : ok_step (tcp_listen_with_backlog pcb backlog).
Proof. apply ok_bind; [apply ok_listen_with_backlog_and_err|]. intros [l err]. apply ok_ret. Qed.

(** ** Connecting *)

(** A connection that is not open yet. *)
Definition closed_conn (l : loc) t : Prop := ∃ c, tcp_mem t !! l = Some (Conn_pcb c) ∧ tp_state c = CLOSED.
Lemma same_closed l t t' : same_tcp t t' → closed_conn l t → closed_conn l t'.
Proof.
  intros S (c & Hc & Hs). destruct (same_conn _ _ _ _ S Hc) as (c' & Hc' & E). exists c'. split; [done|].
  unfold conn_sig in E. congruence.
Qed.

(** The connection goes on the list of the active ones. *)
Lemma connected_yields l port w :
  tcp_ok (part_get w) → closed_conn l (part_get w) → (port = 0 → off l (part_get w)) →
  yields (do! tc (update_tcp l (λ c, c <| tp_state := SYN_SENT |>));
          do! (if port =? 0 then ret tt else tc (TCP_RMV L_bound l));
          do! TCP_REG_ACTIVE l;
          let! _ := tcp_output l in ret tt) w (λ _ w', tcp_ok (part_get w')).
Proof.
  intros Hw (c & Hc & Hs) Hoff. set (t := part_get w) in *. set (b := Conn_pcb (c <| tp_state := SYN_SENT |>)).
  eapply yields_tc; [apply (yields_update_tcp _ _ _ (λ _ t', t' = put_blk l b t)); intros c' Hc'; fold t in Hc'; rewrite Hc in Hc'; by injection Hc' as <-|].
  intros [] w1 E1. assert (∀ k, pcbs_of k (part_get w1) = pcbs_of k t) as El by (intros k; rewrite E1; done).
  assert (tcp_mem (part_get w1) !! l = Some b) as Hb by (rewrite E1; apply lookup_insert_eq).
  eapply (yields_then _ _ _ (λ _ w', others l t (part_get w') ∧ off l (part_get w') ∧ tcp_mem (part_get w') !! l = Some b)).
  { assert (others l t (part_get w1)) as Ho1 by (rewrite E1; apply others_put).
    destruct (Z.eqb_spec port 0); [by apply yields_ret; split_and!; [done|intros k; rewrite El; by apply Hoff|done]|].
    apply (yields_part _ _ (λ _ t', others l t t' ∧ off l t' ∧ tcp_mem t' !! l = Some b)).
    eapply yields_mono; [apply rmv_lists_yields|].
    - intros k. rewrite El. apply Hw.
    - intros k Hk. rewrite El in Hk. rewrite (blk_on _ _ _ _ Hw Hc k Hk). simpl. by rewrite Hs.
    - intros [] t' (Ho & Hof & Hm). split_and!; [by etrans|done|by rewrite Hm]. }
  intros [] w2 (Ho2 & Hoff2 & Hb2). apply yields_bind_assoc. eapply yields_then; [apply reg_yields|]. intros [] w3 (_ & E3).
  eapply yields_tc; [apply (yields_modify _ _ (λ _ t', t' = (part_get w3) <| tcp_active_pcbs_changed := true |>)); done|].
  intros [] w4 E4. apply (ok_same (let! _ := tcp_output l in ret tt)); [stable_tac|]. rewrite E4. apply tcp_ok_changed. rewrite E3.
  apply (linked_ok (input_of t) _ L_active l t (part_get w2) b); try done.
  - intros lp Hlp. pose proof (tk_closed _ _ Hw _ _ Hc) as E. simpl in E, Hlp. rewrite Hs in E. rewrite E in Hlp; done.
  - intros a Ha _. by apply (input_of_kept t); [apply Ho2|].
  - by right.
  - eapply Pos.lt_le_trans; [|apply (ot_next _ _ _ Ho2)]. apply (tk_fresh _ _ Hw). by eexists.
  - by eapply conn_not_listening.
Qed.

Lemma ok_connect_call pcb ipaddr port connected : ok_step (tcp_connect pcb ipaddr port connected).
Proof.
  intros w Hw. apply yields_bind, yields_valid_ptr. intros l _. apply yields_bind, yields_valid_ptr. intros a _.
  apply yields_bind, yields_ask_lift. intros b Hb%get_blk_val. apply yields_bind, yields_assert. intros Hcl%bool_decide_eq_true.
  eapply (stable_then same_w); [stable_tac|]. intros [] w1 S1.
  apply yields_bind, yields_ask_lift. intros c Hc%get_tcp_val.
  assert (tp_state c = CLOSED) as Hs.
  { pose proof (same_sig _ _ S1 l) as E. rewrite Hb, Hc in E. destruct b as [b|b]; [|done]. injection E as E _ _. simpl in Hcl. congruence. }
  eapply (stable_then same_w); [stable_tac|]. intros netif w2 S2. destruct (negb netif).
  { apply yields_ret. by do 2 (eapply tcp_ok_same; [eassumption|]). }
  apply yields_bind, yields_gets_lift. eapply (stable_then same_w); [stable_tac|]. intros [] w3 S3.
  assert (same_tcp (part_get w1) (part_get w3)) as S13 by (by etrans).
  assert (tcp_ok (part_get w3)) as H3 by (do 2 (eapply tcp_ok_same; [eassumption|]); done).
  destruct (same_conn _ _ _ _ S13 Hc) as (c3 & Hc3 & E3). unfold conn_sig in E3. injection E3 as Es3 Ep3 _.
  eapply (yields_then _ _ _ (λ _ w', tcp_ok (part_get w') ∧ closed_conn l (part_get w') ∧ (tp_local_port c = 0 → off l (part_get w')))).
  { destruct (Z.eqb_spec (tp_local_port c) 0) as [Hz|Hz]; simpl.
    - assert (off l (part_get w3)) as Hoff.
      { intros k Hk. pose proof (tk_belongs _ _ _ _ _ H3 Hk Hc3) as Hbel. destruct k; simpl in Hbel; rewrite ?Es3, ?Hs in Hbel; try done.
        destruct Hbel as [_ Hp]. congruence. }
      eapply (stable_then same_w); [apply stable_part, same_new_port|]. intros p w4 S4.
      pose proof (tcp_ok_same S4 H3) as H4. destruct (same_conn _ _ _ _ S4 Hc3) as (c4 & Hc4 & E4). unfold conn_sig in E4. injection E4 as Es4 _ _.
      pose proof (same_off _ _ _ S4 Hoff) as Hoff4.
      eapply yields_tc; [apply (yields_update_tcp _ _ _ (λ _ t', tcp_ok t' ∧ closed_conn l t' ∧ off l t'))|].
      + intros c' Hc'. simplify_eq. split_and!; [|eexists; split; [apply lookup_insert_eq|simpl; congruence]|done].
        apply (tcp_ok_put _ _ c4); try done; [|by left]. by intros k Hk%Hoff4.
      + intros [] w5 (H5 & Hcl5 & Hoff5). by apply yields_ret.
    - apply yields_ret. split_and!; [done|exists c3; split; [done|congruence]|done]. }
  intros ok w4 (H4 & Hcl4 & Hoff4). destruct (negb ok); [by apply yields_ret|].
  eapply (stable_then same_w); [apply stable_part, same_next_iss|]. intros iss w5 S5.
  eapply (stable_then same_w); [unfold connect_vars; stable_tac|]. intros [] w6 S6.
  eapply (stable_then same_w); [apply keeps_enqueue_flags|]. intros err w7 S7.
  assert (same_tcp (part_get w4) (part_get w7)) as S by (do 2 (etrans; [eassumption|]); done).
  pose proof (tcp_ok_same S H4) as H7. eapply (yields_then _ _ _ (λ _ w', tcp_ok (part_get w'))); [|intros; by apply yields_ret].
  destruct (is_ok err); [|by apply yields_ret].
  apply connected_yields; [done|by eapply same_closed|]. intros Hz. by apply (same_off _ _ _ S), Hoff4.
Qed.

(** ** Making room, and walking over a list *)

Lemma ok_for_pcbs fuel body : (∀ l, ok_step (body l)) → ∀ p, ok_step (for_pcbs (W := W) fuel body p).
Proof.
  intros Hb. induction fuel as [|fuel IH]; intros [l|]; cbn [for_pcbs]; try apply ok_ret; [apply ok_fail|].
  refine (ok_bind _ _ _ _); [apply Hb|]. intros next. apply IH.
Qed.
Lemma ok_for_list k body : (∀ l, ok_step (body l)) → ok_step (for_list (W := W) k body).
Proof. intros Hb. refine (ok_bind _ _ _ _); [apply ok_same; stable_tac|]. intros pcbs. by apply ok_for_pcbs. Qed.

Lemma ok_txnow : ok_step tcp_txnow.
Proof. apply ok_for_list. intros l. apply ok_same. stable_tac. Qed.
Lemma ok_retry_close l : ok_step (retry_close l).
Proof.
  refine (ok_bind _ _ _ _); [apply ok_ask|]. intros c. case_match; [|apply ok_ret].
  refine (ok_bind _ _ _ _); [apply ok_same; stable_tac|]. intros _.
  refine (ok_bind _ _ _ _); [apply ok_close_shutdown_fin|]. intros _. apply ok_ret.
Qed.
Lemma ok_handle_closepend : ok_step tcp_handle_closepend.
Proof.
  apply ok_for_list. intros l. refine (ok_bind _ _ _ _); [apply ok_ask|]. intros next.
  refine (ok_bind _ _ _ _); [apply ok_retry_close|]. intros _. apply ok_ret.
Qed.
Lemma ok_kill_prio prio : ok_step (tcp_kill_prio prio).
Proof.
  unfold tcp_kill_prio. cbv zeta. case_match; [apply ok_ret|]. refine (ok_bind _ _ _ _); [apply ok_ask|].
  intros [l|]; [apply ok_abort|apply ok_ret].
Qed.
Lemma ok_kill_state s : ok_step (tcp_kill_state s).
Proof.
  refine (ok_bind _ _ _ _); [apply ok_same; stable_tac|]. intros _. refine (ok_bind _ _ _ _); [apply ok_ask|].
  intros [l|]; [apply ok_abandon|apply ok_ret].
Qed.
Lemma ok_kill_timewait : ok_step tcp_kill_timewait.
Proof. refine (ok_bind _ _ _ _); [apply ok_ask|]. intros [l|]; [apply ok_abort|apply ok_ret]. Qed.

(** A block that was just allocated. *)
Definition new_block (r : option loc) t : Prop := ∀ l, r = Some l → tcp_mem t !! l = None ∧ (l < next_block t)%positive.
Lemma alloc_or_yields measures : Forall ok_step measures → ∀ w, tcp_ok (part_get w) →
  yields (alloc_or measures) w (λ r w', tcp_ok (part_get w') ∧ new_block r (part_get w')).
Proof.
  induction 1 as [|m ms Hm Hms IH]; intros w Hw; cbn [alloc_or].
  all: eapply yields_then; [by apply memp_malloc_yields|]; intros r w1 (S1 & Hm1 & Hr).
  all: pose proof (tcp_ok_same S1 Hw) as H1.
  all: assert (new_block r (part_get w1)) as Hnew by (intros l Hl; rewrite Hm1; by apply Hr).
  all: destruct r as [l|]; try by apply yields_ret.
  eapply yields_then; [by apply Hm|]. intros [] w2 H2. by apply IH.
Qed.
(** A connection that is on no list and belongs to no listener yet. *)
Definition new_conn (l : loc) t : Prop :=
  off l t ∧ ∃ c, tcp_mem t !! l = Some (Conn_pcb c) ∧ tp_state c = CLOSED ∧ tp_listener c = None.
Lemma alloc_yields prio w : tcp_ok (part_get w) →
  yields (tcp_alloc prio) w (λ r w', tcp_ok (part_get w') ∧ ∀ l, r = Some l → new_conn l (part_get w')).
Proof.
  intros Hw. eapply yields_then; [apply alloc_or_yields; [|exact Hw]|].
  { repeat constructor; [|apply ok_kill_state..|apply ok_kill_prio].
    apply ok_bind; [apply ok_handle_closepend|]. intros _. apply ok_kill_timewait. }
  intros r w1 [H1 Hr]. destruct r as [l|]; [|by apply yields_bind, yields_ret, yields_ret]. destruct (Hr l eq_refl) as [Hnew Hlt].
  eapply (yields_then _ _ _ (λ _ w', tcp_ok (part_get w') ∧ new_conn l (part_get w')));
    [|intros [] w' [H Hn]; apply yields_ret; split; [done|]; by intros ? [= <-]].
  set (t := part_get w1) in *. assert (off l t) as Hoff by (intros k Hk; destruct (tk_on _ _ H1 _ _ Hk) as (x & Hx & _); congruence).
  apply (yields_part _ _ (λ _ t', tcp_ok t' ∧ new_conn l t')), yields_modify.
  split; [|split; [exact Hoff|eexists; split; [apply lookup_insert_eq|done]]].
  eapply (tcp_ok_others _ _ l t); [exact H1|apply others_put|done| | |].
  - intros k Hk. by destruct (Hoff k).
  - intros b Hb. simpl in Hb. rewrite lookup_insert_eq in Hb. injection Hb as <-. split_and!; try done.
  - intros k a Hne Ha Hlp. exfalso. apply (ot_listener _ _ _ (others_put _ _ _)) in Hlp; [|done].
    apply (Hoff L_listen). by apply (tk_listener _ _ H1 k a).
Qed.
Lemma ok_alloc prio : ok_step (tcp_alloc prio).
Proof. intros w Hw. eapply yields_mono; [by apply alloc_yields|]. by intros r w' [H _]. Qed.

(** ** A change of address *)

Lemma same_listeners_readdress a b l : stable same_tcp (listeners_readdress a b l).
Proof.
  induction l; cbn [listeners_readdress]; stable_tac. apply same_update_lpcb. intros c. by case_match.
Qed.
Lemma ok_netif_pcblist a k : ok_step (tcp_netif_ip_addr_changed_pcblist a k).
Proof.
  apply ok_for_list. intros l. refine (ok_bind _ _ _ _); [apply ok_ask|]. intros b.
  refine (ok_bind _ _ _ _); [apply ok_ask|]. intros next.
  refine (ok_bind _ _ _ _); [case_match; [apply ok_abort|apply ok_ret]|]. intros _. apply ok_ret.
Qed.
Lemma ok_netif_ip_addr_changed a b : ok_step (tcp_netif_ip_addr_changed a b).
Proof.
  unfold tcp_netif_ip_addr_changed. case_match; [apply ok_ret|].
  refine (ok_bind _ _ _ _); [apply ok_netif_pcblist|]. intros _. refine (ok_bind _ _ _ _); [apply ok_netif_pcblist|]. intros _.
  case_match; [apply ok_ret|]. apply ok_same. stable_tac. apply same_listeners_readdress.
Qed.
End opening.
