(* ===== verification/TcpTmrFacts.v ===== *)
(** * TCP: the timers

    The slow timer unlinks a block through the one before it, and both timers run
    callbacks that may change the list they walk over.  They keep the lists well
    formed, and they end: every time a loop starts again one more block has had
    its turn. *)

From S2P Require Import Prelude Mbox Heap HeapFacts Pbuf Frame Chksum Addr Timeouts Header Ip4 Tcp TcpTmr TcpFrame TcpLists TcpCalls TcpOpen.

Implicit Types t : tstate.

(** ** What happens within a turn *)

(** A connection that has not had its turn. *)
Definition unmarked t (a : loc) : Prop := ∃ c, tcp_mem t !! a = Some (Conn_pcb c) ∧ tp_last_timer c ≠ tcp_timer_ctr t.
(** While [tcp_active_pcbs_changed] is not set the active connections are the
    same; and none is to have another turn. *)
Record turn t t' : Prop := {
  tn_list : tcp_active_pcbs_changed t' = false → tcp_active_pcbs_changed t = false ∧ tcp_active_pcbs t' = tcp_active_pcbs t;
  tn_ctr : tcp_timer_ctr t' = tcp_timer_ctr t;
  tn_unmarked a : unmarked t' a → unmarked t a
}.
#[export] Instance turn_preorder : PreOrder turn.
Proof.
  split; [by intros t; split|]. intros t1 t2 t3 [L1 C1 U1] [L2 C2 U2]. split; [|congruence|auto].
  intros H. destruct (L2 H) as [H2 E2], (L1 H2) as [H1 E1]. split; congruence.
Qed.
Lemma same_active t t' : same_tcp t t' → tcp_active_pcbs t' = tcp_active_pcbs t.
Proof. intros S. apply (same_lists _ _ S L_active). Qed.
Lemma same_turn t t' : same_tcp t t' → turn t t'.
Proof.
  intros S. split; [|apply S|].
  - intros H. rewrite (same_changed _ _ S) in H. split; [done|]. apply (same_lists _ _ S L_active).
  - intros a (c' & Hc' & Hl). pose proof (same_sig _ _ S a) as E. rewrite Hc' in E.
    destruct (tcp_mem t !! a) as [[c|c]|] eqn:Hc; try done. exists c. split; [done|].
    rewrite (same_ctr _ _ S) in Hl. simpl in E. unfold conn_sig in E. congruence.
Qed.

Definition usub t t' : Prop := tcp_timer_ctr t' = tcp_timer_ctr t ∧ ∀ a, unmarked t' a → unmarked t a.
#[export] Instance usub_preorder : PreOrder usub.
Proof. split; [by intros t|]. intros t1 t2 t3 [E1 U1] [E2 U2]. split; [congruence|auto]. Qed.
Lemma turn_usub t t' : turn t t' → usub t t'.
Proof. intros [_ C U]. by split. Qed.
Lemma same_usub t t' : same_tcp t t' → usub t t'.
Proof. intros S. by apply turn_usub, same_turn. Qed.
Lemma mem_usub t t' : tcp_mem t' = tcp_mem t → tcp_timer_ctr t' = tcp_timer_ctr t → usub t t'.
Proof. intros Hm Hc. split; [done|]. unfold unmarked. by rewrite Hm, Hc. Qed.
Lemma delete_usub l t t' : tcp_mem t' = delete l (tcp_mem t) → tcp_timer_ctr t' = tcp_timer_ctr t → usub t t'.
Proof.
  intros Hm Hc. split; [done|]. unfold unmarked. rewrite Hm, Hc. intros a (c & Ha & H). exists c. split; [|done].
  by apply lookup_delete_Some in Ha as [_ ?].
Qed.

(** What the timers rely on of the callbacks besides. *)
Definition turn_step {W A} `{!Part tstate W} (m : M W A) : Prop :=
  ∀ w, tcp_ok (part_get w) → yields m w (λ _ w', turn (part_get w) (part_get w')).
Abbreviation usub_w := (on_part usub).
Class tcp_client_turns (W : Type) `{!Part tstate W} `{!tcp_client W} : Prop := {
  usub_recv_tcp a pcb p err : stable usub_w (recv_tcp a pcb p err);
  usub_err_tcp a err : stable usub_w (err_tcp a err);
  turn_poll_tcp a pcb : turn_step (poll_tcp a pcb);
  turn_err_tcp a err : turn_step (err_tcp a err)
}.

(** ** Positions in a list *)

Section positions.
Implicit Types k : list loc.

Lemma next_in_none l k : l ∉ k → next_in l k = None.
Proof.
  induction k as [|a k IH]; simpl; [done|]. intros [? ?]%not_elem_of_cons. rewrite decide_False by done. by apply IH.
Qed.
Lemma next_in_app l k1 k2 : l ∉ k1 → next_in l (k1 ++ l :: k2) = head k2.
Proof.
  induction k1 as [|a k1 IH]; simpl; [by rewrite decide_True by done|]. intros [? ?]%not_elem_of_cons.
  rewrite decide_False by done. by apply IH.
Qed.
Lemma tail_after_app l k1 k2 : l ∉ k1 → tail_after l (k1 ++ l :: k2) = k2.
Proof.
  induction k1 as [|a k1 IH]; simpl; [by rewrite decide_True by done|]. intros [? ?]%not_elem_of_cons.
  rewrite decide_False by done. by apply IH.
Qed.
Lemma cut_after_app l k1 k2 : l ∉ k1 → cut_after l (k1 ++ l :: k2) = k1 ++ [l].
Proof.
  induction k1 as [|a k1 IH]; simpl; [by rewrite decide_True by done|]. intros [? ?]%not_elem_of_cons.
  rewrite decide_False by done. by rewrite IH.
Qed.

(** [l] is on the list [k], after [prev]. *)
Definition at_list (k : list loc) (prev : option loc) (l : loc) (rest : list loc) : Prop :=
  ∃ k1, k = k1 ++ l :: rest ∧ prev = list.last k1.
Lemma at_in k prev l rest : at_list k prev l rest → l ∈ k.
Proof. intros (k1 & -> & _). apply elem_of_app. right. by left. Qed.
Lemma at_next k prev l a rest : at_list k prev l (a :: rest) → at_list k (Some l) a rest.
Proof. intros (k1 & -> & _). exists (k1 ++ [l]). rewrite <- app_assoc. split; [done|]. by rewrite last_snoc. Qed.
Lemma at_head l k : at_list (l :: k) None l k.
Proof. by exists []. Qed.
Lemma at_nodup k prev l rest : NoDup k → at_list k prev l rest → ∃ k1, k = k1 ++ l :: rest ∧ prev = list.last k1 ∧ (l ∉ k1) ∧ (l ∉ rest).
Proof.
  intros Hnd (k1 & -> & ->). exists k1. split_and!; try done.
  - apply NoDup_app in Hnd as (_ & H & _). intros Hl. apply (H l Hl). by left.
  - apply NoDup_app in Hnd as (_ & _ & H). by inversion H.
Qed.
End positions.

Lemma pcb_next_at ex t k prev l rest :
  tcp_ok_but ex t → at_list (pcbs_of k t) prev l rest → ∀ n, pcb_next l t = Val n → n = head rest.
Proof.
  intros Ht Hat n. destruct (at_nodup _ _ _ _ (tk_nodup _ _ Ht k) Hat) as (k1 & E & _ & Hk1 & _).
  pose proof (at_in _ _ _ _ Hat) as Hin.
  assert (∀ k', next_in l (pcbs_of k' t) = if decide (k' = k) then head rest else None) as H.
  { intros k'. case_decide as Hk; [subst; rewrite E; by apply next_in_app|]. apply next_in_none. intros Hl. apply Hk.
    by eapply tk_one. }
  unfold pcb_next, get_blk. destruct (tcp_mem t !! l); [|done]. simpl.
  pose proof (H L_active) as Ha. pose proof (H L_tw) as Htw. pose proof (H L_bound) as Hb. pose proof (H L_listen) as Hl.
  simpl in Ha, Htw, Hb, Hl. rewrite Ha, Htw, Hb, Hl. destruct k, (head rest); simpl; by intros [=].
Qed.

(** A block is unlinked through the one before it. *)
Lemma unlink_yields ex k prev l rest t :
  tcp_ok_but ex t → at_list (pcbs_of k t) prev l rest →
  yields (unlink k prev l) t (λ _ t', others l t t' ∧ off l t' ∧
    ∃ k1, prev = list.last k1 ∧ t' = set_pcbs k (k1 ++ rest) t).
Proof.
  intros Ht Hat. pose proof (tk_nodup _ _ Ht) as Hnd. pose proof (at_in _ _ _ _ Hat) as Hin.
  destruct (at_nodup _ _ _ _ (Hnd k) Hat) as (k1 & E & Hp & Hk1 & Hr).
  assert (NoDup (k1 ++ rest)) as Hnd'.
  { pose proof (Hnd k) as H. rewrite E in H. apply NoDup_app in H as (H1 & H2 & H3). apply NoDup_app. split_and!; [done| |by inversion H3].
    intros a Ha1 Ha2. apply (H2 a Ha1). by right. }
  assert (∀ t', t' = set_pcbs k (k1 ++ rest) t → others l t t' ∧ off l t' ∧ ∃ k1, prev = list.last k1 ∧ t' = set_pcbs k (k1 ++ rest) t) as Hfin.
  { intros t' ->. split; [|split; [|by exists k1]].
    - apply others_lists; try (by destruct k).
      + intros k' a Ha. rewrite pcbs_of_set. case_decide; subst; [|done]. rewrite E, !elem_of_app, elem_of_cons. naive_solver.
      + intros _ k'. rewrite pcbs_of_set. by case_decide.
    - intros k'. rewrite pcbs_of_set. case_decide as Hk; [rewrite elem_of_app; tauto|]. intros Hl. apply Hk. by eapply tk_one. }
  unfold unlink. apply yields_bind, yields_gets. rewrite E. destruct prev as [q|].
  - apply yields_bind, yields_assert. intros _. apply yields_bind, yields_ask. intros [] _. apply yields_modify, Hfin. f_equal.
    rewrite tail_after_app by done. f_equal. symmetry in Hp. apply last_Some in Hp as [k0 ->].
    rewrite <- app_assoc. apply cut_after_app. pose proof (Hnd k) as H. rewrite E, <- app_assoc in H.
    apply NoDup_app in H as (_ & H & _). intros Hq. apply (H q Hq). by left.
  - apply yields_bind, yields_assert. intros _. apply yields_modify, Hfin. symmetry in Hp. apply last_None in Hp as ->. simpl.
    by rewrite decide_True by done.
Qed.

(** ** The turns *)

(** Where a loop over the active connections stands: [todo] starts at [pcb]. *)
Definition stands t (prev : option loc) (todo : list loc) : Prop :=
  match todo with [] => True | l :: rest => at_list (tcp_active_pcbs t) prev l rest end.
Lemma stands_next t prev l rest : at_list (tcp_active_pcbs t) prev l rest → stands t (Some l) rest.
Proof. destruct rest; [done|]. apply at_next. Qed.
Lemma stands_start t : stands t None (tcp_active_pcbs t).
Proof. unfold stands. destruct (tcp_active_pcbs t) eqn:E; [done|]. apply at_head. Qed.

(** One block more has had its turn. *)
Definition progress t t' : Prop := usub t t' ∧ ∃ a, unmarked t a ∧ ¬ unmarked t' a.
Lemma progress_usub t t1 t2 : progress t t1 → usub t1 t2 → progress t t2.
Proof. intros [U (a & Ha & Hn)] U2. split; [by etrans|]. exists a. split; [done|]. intros H. by apply Hn, U2. Qed.

Lemma mark_yields l c t :
  tcp_ok t → tcp_mem t !! l = Some (Conn_pcb c) → tp_last_timer c ≠ tcp_timer_ctr t →
  yields (update_tcp l (λ c, c <| tp_last_timer := tcp_timer_ctr t |>)) t (λ _ t', tcp_ok t' ∧ progress t t' ∧
    tcp_active_pcbs t' = tcp_active_pcbs t).
Proof.
  intros Ht Hl Hn. apply yields_update_tcp. intros c' Hc'. rewrite Hl in Hc'. injection Hc' as <-.
  split; [|split; [|done]].
  - apply (tcp_ok_put t l c); try done; [|by left]. intros k Hk. pose proof (tk_belongs _ _ _ _ _ Ht Hk Hl). by destruct k.
  - split; [split; [done|]|].
    + intros a (c' & Ha & H). simpl in Ha, H. destruct (decide (a = l)) as [->|Hne]; [by exists c|].
      rewrite lookup_insert_ne in Ha by done. by exists c'.
    + exists l. split; [by exists c|]. intros (c' & Ha & H). simpl in Ha. rewrite lookup_insert_eq in Ha. by injection Ha as <-.
Qed.

(** The loop over the connections in TIME-WAIT. *)
Lemma tcp_ok_same_input ex t t' l : tcp_ok_but ex t → l ∉ tcp_listen_pcbs t → dropped l t t' → tcp_ok_but ex t'.
Proof. intros Ht Hl Hd. by apply (dropped_ok ex l t); [|left|]. Qed.
Lemma tw_remove_yields ex prev l rest t :
  tcp_ok_but ex t → at_list (tcp_tw_pcbs t) prev l rest →
  yields (do! unlink L_tw prev l; tcp_free l) t (λ _ t', tcp_ok_but ex t' ∧
    ∃ k1, prev = list.last k1 ∧ tcp_tw_pcbs t' = k1 ++ rest ∧ input_kept t t').
Proof.
  intros Ht Hat. eapply yields_then; [by apply (unlink_yields _ L_tw _ _ _ _ Ht Hat)|]. intros [] t1 (Ho & Hoff & k1 & Hp & E1).
  eapply yields_mono; [apply (yields_mono _ _ (λ _ t', dropped l t1 t' ∧ tcp_tw_pcbs t' = k1 ++ rest))|].
  - apply yields_bind, yields_ask. intros b _. apply yields_bind, yields_assert. intros _. unfold release_pcb.
    eapply (stable_then same_tcp); [by apply same_store, grows_memp_free|]. intros [] t4 S4. apply yields_modify. split.
    + eapply dropped_trans; [by apply same_others|]. split; [|split].
      * apply others_refl_mem; try done. intros a Ha. simpl. by rewrite lookup_delete_ne.
      * exact (same_off _ _ _ S4 Hoff).
      * apply lookup_delete_eq.
    + simpl. pose proof (same_lists _ _ S4 L_tw) as E4. simpl in E4. rewrite E4, E1. done.
  - intros a t' H. exact H.
  - intros [] t' [Hd El]. pose proof (dropped_trans _ _ _ _ Ho Hd) as Hd'. split; [|exists k1; split_and!; [done|done|apply Hd']].
    eapply tcp_ok_same_input; [exact Ht| |exact Hd']. intros Hl. by apply (tk_one _ _ L_listen L_tw _ Ht) in Hl; [|by eapply at_in].
Qed.
Lemma tw_loop_ok fuel : ∀ ex prev todo t, tcp_ok_but ex t →
  match todo with [] => True | l :: rest => at_list (tcp_tw_pcbs t) prev l rest end →
  yields (tw_loop fuel prev (head todo)) t (λ _ t', tcp_ok_but ex t' ∧ input_kept t t').
Proof.
  induction fuel as [|fuel IH]; intros ex prev [|l rest] t Ht Hat; simpl; [by split|done|by split|].
  apply yields_bind, yields_ask. intros c _. apply yields_bind, yields_assert. intros _. apply yields_bind, yields_gets.
  destruct (timed_out _ _ _).
  - eapply stable_then; [apply same_pcb_purge|]. intros [] t1 S1. pose proof (same_tcp_ok _ _ _ S1 Ht) as H1.
    assert (at_list (tcp_tw_pcbs t1) prev l rest) as Hat1.
    { pose proof (same_lists _ _ S1 L_tw) as E. simpl in E. by rewrite E. }
    apply yields_bind, yields_ask. intros next Hn. apply (pcb_next_at _ _ L_tw _ _ _ H1 Hat1) in Hn as ->.
    apply yields_bind_assoc'. eapply yields_then; [by eapply tw_remove_yields|]. intros [] t2 (H2 & k1 & Hp & E2 & Hi2).
    eapply yields_mono; [apply (IH ex)|]; [done| |].
    + destruct rest as [|a rest]; [done|]. by exists k1.
    + intros [] t3 [H3 Hi3]. split; [done|]. etrans; [apply input_same_kept, S1|by etrans].
  - apply yields_bind, yields_ask. intros next Hn. apply (pcb_next_at _ _ L_tw _ _ _ Ht Hat) in Hn as ->.
    apply IH; [done|]. destruct rest; [done|]. by eapply at_next.
Qed.

(** Nothing the timers call gives a connection another turn. *)
Lemma usub_same {A} (m : M tstate A) : stable same_tcp m → stable usub m.
Proof. apply stable_weaken, same_usub. Qed.
Lemma usub_update_tcp l f : (∀ c, tp_last_timer (f c) = tp_last_timer c) → stable usub (update_tcp l f).
Proof.
  intros Hf t. apply yields_update_tcp. intros c Hc. split; [done|]. intros a (c' & Ha & H). simpl in Ha, H.
  destruct (decide (a = l)) as [->|Hne]; [|rewrite lookup_insert_ne in Ha by done; by exists c'].
  rewrite lookup_insert_eq in Ha. injection Ha as <-. exists c. split; [done|]. by rewrite <- Hf.
Qed.
Lemma usub_update_lpcb l f : stable usub (update_lpcb l f).
Proof.
  intros t. apply yields_update_lpcb. intros c Hc. split; [done|]. intros a (c' & Ha & H). simpl in Ha, H.
  destruct (decide (a = l)) as [->|Hne]; [by rewrite lookup_insert_eq in Ha|]. rewrite lookup_insert_ne in Ha by done. by exists c'.
Qed.
Lemma usub_rmv k l : stable usub (TCP_RMV k l).
Proof. unfold TCP_RMV. stable_tac. apply mem_usub; by case_decide; destruct k. Qed.
Lemma usub_set_changed b : stable usub (set_changed b).
Proof. apply stable_modify. intros t. by apply mem_usub. Qed.
Lemma usub_release ty l : stable usub (release_pcb ty l).
Proof. unfold release_pcb. stable_tac; [by apply usub_same, same_store, grows_memp_free|by eapply delete_usub]. Qed.
Lemma usub_remove_listener k l : stable usub (tcp_remove_listener k l).
Proof. apply usub_same, same_remove_listener. Qed.
#[export] Hint Extern 5 (stable usub _) => apply usub_same : stable.
#[export] Hint Extern 1 (stable usub (update_tcp _ _)) => apply usub_update_tcp; done : stable.
#[export] Hint Resolve usub_update_lpcb usub_rmv usub_set_changed usub_release usub_remove_listener : stable.
Lemma usub_rmv_active l : stable usub (TCP_RMV_ACTIVE l).
Proof. unfold TCP_RMV_ACTIVE. stable_tac. Qed.
Lemma usub_free l : stable usub (tcp_free l).
Proof. unfold tcp_free. stable_tac. Qed.
Lemma usub_free_listen l : stable usub (tcp_free_listen l).
Proof. unfold tcp_free_listen. stable_tac. Qed.
Lemma usub_listen_closed l : stable usub (tcp_listen_closed l).
Proof. unfold tcp_listen_closed. stable_tac. Qed.
Lemma usub_trigger_close : stable usub tcp_trigger_input_pcb_close.
Proof. apply stable_modify. intros t. by apply mem_usub. Qed.
#[export] Hint Resolve usub_rmv_active usub_free usub_free_listen usub_listen_closed usub_trigger_close : stable.

(** The connections that have not had their turn. *)
Definition is_waiting t (b : pcb_block) : Prop := match b with Conn_pcb c => tp_last_timer c ≠ tcp_timer_ctr t | Listen_pcb _ => False end.
#[export] Instance is_waiting_dec t b : Decision (is_waiting t b).
Proof. destruct b; simpl; apply _. Defined.
Definition waiting t : gset loc := dom (filter (λ x, is_waiting t x.2) (tcp_mem t)).
Lemma waiting_in t a : a ∈ waiting t ↔ unmarked t a.
Proof.
  unfold waiting, unmarked. rewrite elem_of_dom. split.
  - intros [b Hb]. apply map_lookup_filter_Some in Hb as [Hb Hw]. destruct b as [c|c]; [by exists c|done].
  - intros (c & Hc & H). exists (Conn_pcb c). by apply map_lookup_filter_Some.
Qed.
Lemma progress_size t t' : progress t t' → (size (waiting t') < size (waiting t))%nat.
Proof.
  intros [[_ U] (a & Ha & Hn)]. apply subset_size. split.
  - intros b. rewrite !waiting_in. apply U.
  - intros H. apply Hn. rewrite <- waiting_in. apply H. by rewrite waiting_in.
Qed.

(** A walk that started anywhere. *)
Definition walk t (todo : list loc) : Prop :=
  match todo with
  | [] => True
  | l :: rest => (∃ k prev, at_list (pcbs_of k t) prev l rest) ∨ off l t ∧ rest = []
  end.
Lemma walk_from t p : ∃ todo, head todo = p ∧ walk t todo.
Proof.
  destruct p as [l|]; [|by exists []]. assert ((∃ k, l ∈ pcbs_of k t) ∨ off l t) as [[k Hk]|Hoff].
  { destruct (decide (l ∈ all_pcbs t)) as [H|H]; [left; by apply all_pcbs_in|right]. intros k Hk. apply H, all_pcbs_in. by exists k. }
  - apply list_elem_of_split in Hk as (k1 & k2 & E). exists (l :: k2). split; [done|]. left. exists k, (list.last k1). by exists k1.
  - exists [l]. split; [done|]. by right.
Qed.
Lemma walk_next t l rest n : tcp_ok t → walk t (l :: rest) → pcb_next l t = Val n → n = head rest ∧ walk t rest.
Proof.
  intros Ht [(k & prev & Hat)|[Hoff ->]] Hn.
  - rewrite (pcb_next_at _ _ _ _ _ _ Ht Hat _ Hn). split; [done|]. destruct rest; [done|]. left. exists k, (Some l). by apply (at_next _ prev).
  - split; [|done]. unfold pcb_next, get_blk in Hn. destruct (tcp_mem t !! l); [|done]. simpl in Hn.
    rewrite !next_in_none in Hn by first [exact (Hoff L_active)|exact (Hoff L_tw)|exact (Hoff L_bound)|exact (Hoff L_listen)].
    by injection Hn.
Qed.

Section loops.
Context {W : Type} `{!Part tstate W} `{!tcp_out W} `{!tcp_client W} `{!tcp_out_keeps W} `{!tcp_client_keeps W} `{!tcp_client_turns W}.
Implicit Types w : W.

Abbreviation tc m := (lift (P := tstate) (S := W) m).

Lemma same_persist l : stable same_w (slow_persist l).
Proof. unfold slow_persist, persist_next_slot. stable_tac. Qed.
Lemma same_rexmit l : stable same_w (slow_rexmit l).
Proof. unfold slow_rexmit, backed_off_rto. stable_tac. Qed.
#[local] Hint Resolve same_persist same_rexmit : stable.
Lemma same_slow_output l : stable same_w (slow_output l).
Proof. unfold slow_output. stable_tac. Qed.
Lemma same_slow_keepalive l : stable same_w (slow_keepalive l).
Proof. unfold slow_keepalive. stable_tac. Qed.
Lemma same_slow_ooseq l : stable same_tcp (slow_ooseq l).
Proof. unfold slow_ooseq. stable_tac. Qed.
#[local] Hint Resolve same_slow_output same_slow_keepalive same_slow_ooseq : stable.
Lemma same_slow_checks l : stable same_w (slow_checks l).
Proof. unfold slow_checks. stable_tac. Qed.

Lemma yields_conj {A} (m : M W A) w (P Q : A → W → Prop) : yields m w P → yields m w Q → yields m w (λ a w', P a w' ∧ Q a w').
Proof. unfold yields. destruct (m w) as [[a w']|]; auto. Qed.

(** What a turn leads to: the list is well formed, and the loop stands before
    what was left of it, or starts again. *)
Definition turned prev rest t (r : option (option loc)) t' : Prop :=
  tcp_ok t' ∧ usub t t' ∧ match r with None => True | Some next => next = head rest ∧ stands t' prev rest end.

(** After the callback of a turn, with the flag clear before it. *)
Lemma turned_after prev rest t t1 t2 next :
  tcp_ok t2 → usub t t1 → turn t1 t2 → tcp_active_pcbs_changed t1 = false →
  next = head rest → stands t1 prev rest →
  turned prev rest t (if tcp_active_pcbs_changed t2 then None else Some next) t2.
Proof.
  intros H2 U T Hc -> Hs. split; [done|]. split; [etrans; [exact U|by apply turn_usub]|].
  destruct (tcp_active_pcbs_changed t2) eqn:E; [done|]. split; [done|]. destruct (tn_list _ _ T E) as [_ El].
  unfold stands. by rewrite El.
Qed.
Lemma stands_same t t' prev todo : tcp_active_pcbs t' = tcp_active_pcbs t → stands t prev todo → stands t' prev todo.
Proof. intros E. unfold stands. by rewrite E. Qed.

Lemma event_err_yields errf a err w : tcp_ok (part_get w) →
  yields (TCP_EVENT_ERR errf a err) w (λ _ w', tcp_ok (part_get w') ∧ turn (part_get w) (part_get w')).
Proof.
  intros Hw. destruct errf as [[]|]; [|by apply yields_ret]. apply yields_conj; [by apply ok_err_tcp|by apply turn_err_tcp].
Qed.
Lemma event_poll_yields l w : tcp_ok (part_get w) →
  yields (TCP_EVENT_POLL l) w (λ _ w', tcp_ok (part_get w') ∧ turn (part_get w) (part_get w')).
Proof.
  intros Hw. apply yields_bind, yields_ask_lift. intros c _. destruct (tp_poll c) as [[]|]; [|by apply yields_ret].
  apply yields_conj; [by apply ok_poll_tcp|by apply turn_poll_tcp].
Qed.

Lemma slow_remove_yields prev l rest reset w :
  tcp_ok (part_get w) → at_list (tcp_active_pcbs (part_get w)) prev l rest →
  yields (slow_remove prev l reset) w (λ r w', turned prev rest (part_get w) r (part_get w')).
Proof.
  intros Hw Hat. apply yields_bind, yields_ask_lift. intros c Hc%get_tcp_val.
  eapply stable_then; [apply stable_part, same_pcb_purge|]. intros [] w1 S1. pose proof (tcp_ok_same S1 Hw) as H1.
  assert (at_list (tcp_active_pcbs (part_get w1)) prev l rest) as Hat1 by by rewrite (same_active _ _ S1).
  apply yields_bind, yields_ask_lift. intros next Hnext. apply (pcb_next_at _ _ L_active _ _ _ H1 Hat1) in Hnext as ->.
  eapply yields_tc; [by apply (unlink_yields _ L_active _ _ _ _ H1 Hat1)|]. intros [] w2 (Ho & Hoff & k1 & Hp & E2).
  eapply (stable_then same_w); [stable_tac|]. intros [] w3 S3. apply yields_bind, yields_ask_lift. intros c' Hc'%get_tcp_val.
  assert (others l (part_get w1) (part_get w3)) as Ho3 by (etrans; [exact Ho|by apply same_others]).
  pose proof (same_off _ _ _ S3 Hoff) as Hoff3. set (t3 := part_get w3) in *.
  assert (tcp_active_pcbs t3 = k1 ++ rest) as El3 by (unfold t3; rewrite (same_active _ _ S3), E2; done).
  eapply yields_tc; [apply (yields_mono _ _ (λ _ t', dropped l (part_get w1) t' ∧ tcp_active_pcbs t' = k1 ++ rest ∧ usub t3 t'))|].
  { apply yields_bind, yields_ask. intros b _. apply yields_bind, yields_assert. intros _. unfold release_pcb.
    eapply (stable_then same_tcp); [by apply same_store, grows_memp_free|]. intros [] t4 S4. apply yields_modify.
    assert (tcp_active_pcbs t4 = k1 ++ rest) as El4 by by rewrite (same_active _ _ S4).
    split_and!; [|exact El4|].
    - eapply dropped_trans; [etrans; [exact Ho3|by apply same_others]|]. split; [|split].
      + apply others_refl_mem; try done. intros a Ha. simpl. by rewrite lookup_delete_ne.
      + exact (same_off _ _ _ S4 Hoff3).
      + apply lookup_delete_eq.
    - etrans; [by apply same_usub|]. by eapply (delete_usub l). }
  { intros a t' H. exact H. }
  intros [] w4 (Hd & El4 & U4).
  assert (l ∉ tcp_listen_pcbs (part_get w1)) as Hnl.
  { intros Hl. by apply (tk_one _ _ L_listen L_active _ H1) in Hl; [|by eapply at_in]. }
  pose proof (tcp_ok_dropped _ _ l H1 (or_introl Hnl) Hd) as H4.
  eapply yields_tc; [apply (yields_modify _ _ (λ _ t', t' = (part_get w4) <| tcp_active_pcbs_changed := false |>)); done|].
  intros [] w5 E5. assert (tcp_ok (part_get w5)) as H5 by (rewrite E5; by apply tcp_ok_changed).
  eapply yields_then; [by apply event_err_yields|]. intros [] w6 [H6 T6]. apply yields_bind, yields_gets_lift, yields_ret.
  apply (turned_after _ _ _ (part_get w5)); try done.
  - etrans; [exact (same_usub _ _ S1)|]. etrans; [apply (mem_usub _ (part_get w2)); by rewrite E2|].
    etrans; [exact (same_usub _ _ S3)|]. etrans; [exact U4|]. rewrite E5. by apply mem_usub.
  - by rewrite E5.
  - apply (stands_same (part_get w4)); [by rewrite E5|]. unfold stands. destruct rest as [|a rest]; [done|]. by exists k1.
Qed.

Lemma slow_poll_yields prev l rest w :
  tcp_ok (part_get w) → at_list (tcp_active_pcbs (part_get w)) prev l rest →
  yields (slow_poll l) w (λ r w', turned (Some l) rest (part_get w) r (part_get w')).
Proof.
  intros Hw Hat. apply yields_bind, yields_ask_lift. intros next Hnext.
  apply (pcb_next_at _ _ L_active _ _ _ Hw Hat) in Hnext as ->.
  eapply (stable_then same_w); [stable_tac|]. intros [] w1 S1. pose proof (tcp_ok_same S1 Hw) as H1.
  pose proof (stands_same _ _ _ _ (same_active _ _ S1) (stands_next _ _ _ _ Hat)) as Hs1.
  apply yields_bind, yields_ask_lift. intros c _. case_match.
  2:{ apply yields_ret. split; [done|]. split; [by apply same_usub|]. done. }
  eapply (stable_then same_w); [stable_tac|]. intros [] w2 S2. pose proof (tcp_ok_same S2 H1) as H2.
  eapply yields_tc; [apply (yields_modify _ _ (λ _ t', t' = (part_get w2) <| tcp_active_pcbs_changed := false |>)); done|].
  intros [] w3 E3. assert (tcp_ok (part_get w3)) as H3 by (rewrite E3; by apply tcp_ok_changed).
  eapply yields_then; [by apply event_poll_yields|]. intros err w4 [H4 T4]. apply yields_bind, yields_gets_lift.
  assert (turned (Some l) rest (part_get w) (if tcp_active_pcbs_changed (part_get w4) then None else Some (head rest)) (part_get w4)) as Hfin.
  { apply (turned_after _ _ _ (part_get w3)); try done.
    - etrans; [exact (same_usub _ _ S1)|]. etrans; [exact (same_usub _ _ S2)|]. rewrite E3. by apply mem_usub.
    - by rewrite E3.
    - apply (stands_same (part_get w1)); [|done]. rewrite E3. exact (same_active _ _ S2). }
  destruct (tcp_active_pcbs_changed (part_get w4)); [by apply yields_ret|].
  eapply (stable_then same_w); [stable_tac|]. intros [] w5 S5. apply yields_ret.
  destruct Hfin as (Hok & U & _ & Hs). split; [by eapply tcp_ok_same|]. split; [etrans; [exact U|by apply same_usub]|].
  split; [done|]. by apply (stands_same _ _ _ _ (same_active _ _ S5)).
Qed.

(** A turn either gives one more block its turn, or passes over one that had it. *)
Definition turn_post rest t (r : option loc * option loc) t' : Prop :=
  tcp_ok t' ∧ ∃ todo, r.2 = head todo ∧ stands t' r.1 todo ∧ (progress t t' ∨ t' = t ∧ todo = rest).

Lemma slow_turn_yields prev l rest w :
  tcp_ok (part_get w) → at_list (tcp_active_pcbs (part_get w)) prev l rest →
  yields (slow_turn prev l) w (λ r w', turn_post rest (part_get w) r (part_get w')).
Proof.
  intros Hw Hat. apply yields_bind, yields_ask_lift. intros c Hc%get_tcp_val.
  eapply (stable_then eq); [unfold slow_assert; stable_tac|]. intros [] w0 <-. apply yields_bind, yields_gets_lift.
  destruct (Z.eqb_spec (tp_last_timer c) (tcp_timer_ctr (part_get w))) as [Hm|Hm].
  { apply yields_bind, yields_ask_lift. intros next Hnext.
    apply (pcb_next_at _ _ L_active _ _ _ Hw Hat) in Hnext as ->. apply yields_ret. split; [done|].
    exists rest. split; [done|]. split; [by eapply stands_next|by right]. }
  eapply yields_tc; [by apply (mark_yields l c)|]. intros [] w1 (H1 & P1 & E1). rewrite <- E1 in Hat.
  eapply (stable_then same_w); [apply same_slow_checks|]. intros [rm reset] w2 S2. pose proof (tcp_ok_same S2 H1) as H2.
  assert (progress (part_get w) (part_get w2)) as P2 by (eapply progress_usub; [exact P1|by apply same_usub]).
  rewrite <- (same_active _ _ S2) in Hat. cbn [fst snd].
  eapply (yields_then _ _ _ (λ r w', turned (if rm then prev else Some l) rest (part_get w2) r (part_get w'))).
  { destruct rm; [by apply slow_remove_yields|by eapply slow_poll_yields]. }
  intros r w3 (H3 & U3 & Hr). pose proof (progress_usub _ _ _ P2 U3) as P3. destruct r as [next|].
  - destruct Hr as [-> Hs]. apply yields_ret. split; [done|]. exists rest. split; [done|]. split; [done|by left].
  - apply yields_bind, yields_gets_lift, yields_ret. split; [done|]. eexists. split; [done|]. split; [apply stands_start|by left].
Qed.

Lemma slowtmr_loop_ok fuel : ∀ prev todo w, tcp_ok (part_get w) → stands (part_get w) prev todo →
  yields (slowtmr_loop fuel prev (head todo)) w (λ _ w', tcp_ok (part_get w')).
Proof.
  induction fuel as [|fuel IH]; intros prev [|l rest] w Hw Hs; simpl; try by apply yields_ret.
  eapply yields_then; [by apply (slow_turn_yields prev l rest)|]. intros [prev' pcb'] w1 (H1 & todo & E & Hs1 & _).
  simpl in E, Hs1 |- *. subst. by apply IH.
Qed.

Lemma ok_tick_ctr : ok_step (tc tick_ctr).
Proof. intros w Hw. apply (yields_part _ _ (λ _, tcp_ok)), yields_modify. by destruct Hw. Qed.

Lemma ok_slowtmr fuel : ok_step (tcp_slowtmr fuel).
Proof.
  apply ok_bind; [|intros _; apply ok_bind; [apply ok_tick_ctr|intros _]].
  { intros w Hw. apply (yields_part _ _ (λ _, tcp_ok)), yields_modify. by destruct Hw. }
  intros w Hw. apply yields_bind, yields_gets_lift. eapply yields_then; [by apply slowtmr_loop_ok, stands_start|].
  intros [] w1 H1; [|done]. apply yields_bind, yields_gets_lift. apply (yields_part _ _ (λ _, tcp_ok)).
  eapply yields_mono; [apply (tw_loop_ok _ (input_of (part_get w1))); [exact H1|]|].
  - destruct (tcp_tw_pcbs (part_get w1)); [done|]. apply at_head.
  - intros [] t [Ht Hi]. by apply (tcp_ok_kept (part_get w1)).
Qed.

Lemma ok_delayed_ack l : ok_step (delayed_ack l).
Proof. apply ok_same. unfold delayed_ack. stable_tac. Qed.
Lemma ok_set_changed b : ok_step (tc (set_changed b)).
Proof. intros w Hw. apply (yields_part _ _ (λ _, tcp_ok)), yields_modify. by apply tcp_ok_changed. Qed.
Lemma ok_fasttmr_pcb l : ok_step (fasttmr_pcb l).
Proof.
  apply ok_bind; [apply ok_delayed_ack|intros _]. apply ok_bind; [apply ok_retry_close|intros _].
  apply ok_bind; [apply ok_ask|intros next]. apply ok_bind; [apply ok_ask|intros c].
  destruct (tp_refused_data c); [|apply ok_ret]. apply ok_bind; [apply ok_set_changed|intros _].
  apply ok_bind; [apply ok_process_refused_data|intros err]. apply ok_bind; [apply ok_same; stable_tac|intros changed]. apply ok_ret.
Qed.
Lemma ok_fast_turn l : ok_step (fast_turn l).
Proof.
  intros w Hw. apply yields_bind, yields_ask_lift. intros c Hc%get_tcp_val. apply yields_bind, yields_gets_lift.
  destruct (Z.eqb_spec (tp_last_timer c) (tcp_timer_ctr (part_get w))) as [Hm|Hm]; [by apply yields_ask_lift|].
  eapply yields_tc; [by apply (mark_yields l c)|]. intros [] w1 (H1 & _).
  eapply yields_then; [by apply ok_fasttmr_pcb|]. intros [next|] w2 H2; [by apply yields_ret|].
  by apply yields_bind, yields_gets_lift, yields_ret.
Qed.
Lemma ok_fasttmr_loop fuel : ∀ p, ok_step (fasttmr_loop fuel p).
Proof.
  induction fuel as [|fuel IH]; intros [l|]; simpl; try apply ok_ret.
  apply ok_bind; [apply ok_fast_turn|]. intros next. apply IH.
Qed.
Lemma ok_fasttmr fuel : ok_step (tcp_fasttmr fuel).
Proof.
  apply ok_bind; [apply ok_tick_ctr|intros _]. apply ok_bind; [apply ok_same; stable_tac|intros l].
  apply ok_bind; [apply ok_fasttmr_loop|]. intros []; [apply ok_ret|apply ok_fail].
Qed.
Lemma ok_tmr fuel : ok_step (tcp_tmr fuel).
Proof.
  apply ok_bind; [apply ok_fasttmr|intros _]. apply ok_bind.
  { intros w Hw. apply (yields_part _ _ (λ _, tcp_ok)), yields_modify. by destruct Hw. }
  intros _. apply ok_bind; [apply ok_same; stable_tac|intros n]. case_match; [apply ok_slowtmr|apply ok_ret].
Qed.

(** ** The loops end *)

Lemma slow_loop_ends n : ∀ m prev todo w, tcp_ok (part_get w) → stands (part_get w) prev todo →
  (size (waiting (part_get w)) < n)%nat → (length todo < m)%nat →
  ∃ fuel, yields (slowtmr_loop fuel prev (head todo)) w (λ ended _, ended = true).
Proof.
  induction n as [|n IHn]; [lia|]. induction m as [|m IHm]; [lia|]. intros prev [|l rest] w Hw Hs Hn Hm; [by exists 0%nat|].
  pose proof (slow_turn_yields prev l rest w Hw Hs) as Ht. unfold yields in Ht.
  destruct (slow_turn prev l w) as [[[prev' pcb'] w1]|e] eqn:E.
  - destruct Ht as (H1 & todo & E1 & Hs1 & Hp). simpl in E1, Hs1. subst pcb'.
    assert (∃ fuel, yields (slowtmr_loop fuel prev' (head todo)) w1 (λ ended _, ended = true)) as [fuel Hf].
    { destruct Hp as [Hp|[Ht ->]].
      - apply progress_size in Hp. apply (IHn (S (length todo))); [done|done|lia|lia].
      - apply IHm; [done|done|by rewrite Ht|simpl in Hm; lia]. }
    exists (S fuel). simpl. unfold yields, mbnd in *. by rewrite E.
  - exists 1%nat. simpl. unfold yields, mbnd. by rewrite E.
Qed.

Lemma usub_same_w {A} (m : M W A) : stable same_w m → stable usub_w m.
Proof. apply stable_weaken. intros s s' H. by apply same_usub. Qed.
Lemma usub_pcb_remove k l : stable usub_w (tcp_pcb_remove k l).
Proof.
  unfold tcp_pcb_remove. stable_tac; try (apply usub_same_w; stable_tac); by apply usub_update_tcp || by apply usub_update_lpcb.
Qed.
Lemma usub_remove_active l : stable usub_w (TCP_PCB_REMOVE_ACTIVE l).
Proof. unfold TCP_PCB_REMOVE_ACTIVE. pose proof usub_pcb_remove. stable_tac. Qed.
#[local] Hint Resolve usub_pcb_remove usub_remove_active : stable.
Lemma usub_close_shutdown_fin l : stable usub_w (tcp_close_shutdown_fin l).
Proof.
  unfold tcp_close_shutdown_fin, send_fin_to. stable_tac; try (apply usub_same_w; stable_tac); by apply usub_update_tcp.
Qed.
#[local] Hint Resolve usub_close_shutdown_fin : stable.
Lemma usub_close_shutdown l rst : stable usub_w (tcp_close_shutdown l rst).
Proof. unfold tcp_close_shutdown. stable_tac; apply usub_same_w; stable_tac. Qed.
#[local] Hint Resolve usub_close_shutdown : stable.
Lemma usub_close p : stable usub_w (tcp_close p).
Proof. unfold tcp_close. stable_tac. Qed.
Lemma usub_recv_null p q err : stable usub_w (tcp_recv_null p q err).
Proof. pose proof usub_close. pose proof same_recved. unfold tcp_recv_null. stable_tac. by apply usub_same_w. Qed.
Lemma usub_process_refused_loop fuel l : stable usub_w (process_refused_loop fuel l).
Proof.
  pose proof usub_recv_null. pose proof usub_recv_tcp.
  induction fuel as [|fuel IH]; cbn [process_refused_loop]; unfold TCP_EVENT_RECV, TCP_EVENT_CLOSED; stable_tac.
Qed.
Lemma usub_fasttmr_pcb l : stable usub_w (fasttmr_pcb l).
Proof.
  pose proof usub_process_refused_loop. unfold fasttmr_pcb, delayed_ack, retry_close, tcp_process_refused_data.
  stable_tac; apply usub_same_w; stable_tac.
Qed.
Lemma fast_turn_yields l rest w : tcp_ok (part_get w) → walk (part_get w) (l :: rest) →
  yields (fast_turn l) w (λ next w', tcp_ok (part_get w') ∧
    (progress (part_get w) (part_get w') ∨ w' = w ∧ next = head rest ∧ walk (part_get w) rest)).
Proof.
  intros Hw Hwalk. apply yields_conj; [by apply ok_fast_turn|].
  apply yields_bind, yields_ask_lift. intros c Hc%get_tcp_val. apply yields_bind, yields_gets_lift.
  destruct (Z.eqb_spec (tp_last_timer c) (tcp_timer_ctr (part_get w))) as [Hm|Hm].
  { apply yields_ask_lift. intros next Hn. right. split; [done|]. by eapply walk_next. }
  eapply yields_tc; [by apply (mark_yields l c)|]. intros [] w1 (_ & P1 & _).
  eapply stable_then; [apply usub_fasttmr_pcb|]. intros r w2 U2. pose proof (progress_usub _ _ _ P1 U2) as P2.
  destruct r as [next|]; [apply yields_ret; by left|]. apply yields_bind, yields_gets_lift, yields_ret. by left.
Qed.
Lemma fast_loop_ends n : ∀ m todo w, tcp_ok (part_get w) → walk (part_get w) todo →
  (size (waiting (part_get w)) < n)%nat → (length todo < m)%nat →
  ∃ fuel, yields (fasttmr_loop fuel (head todo)) w (λ ended _, ended = true).
Proof.
  induction n as [|n IHn]; [lia|]. induction m as [|m IHm]; [lia|]. intros [|l rest] w Hw Hs Hn Hm; [by exists 0%nat|].
  pose proof (fast_turn_yields l rest w Hw Hs) as Ht. unfold yields in Ht.
  destruct (fast_turn l w) as [[next w1]|e] eqn:E.
  - destruct Ht as (H1 & Hp).
    assert (∃ fuel, yields (fasttmr_loop fuel next) w1 (λ ended _, ended = true)) as [fuel Hf].
    { destruct Hp as [Hp|(-> & -> & Hs1)].
      - apply progress_size in Hp. destruct (walk_from (part_get w1) next) as (todo & <- & Hs1).
        apply (IHn (S (length todo))); [done|done|lia|lia].
      - apply IHm; [done|done|done|simpl in Hm; lia]. }
    exists (S fuel). simpl. unfold yields, mbnd in *. by rewrite E.
  - exists 1%nat. simpl. unfold yields, mbnd. by rewrite E.
Qed.
End loops.
