(* ===== verification/TcpKept.v ===== *)
(** * TCP: the connection of the segment being processed

    [tcp_input_pcb] is set by [tcp_input] alone, and only to the end of the
    segment: every function of the interface leaves it as it is, and can at most
    add to what [recv_flags] says about that connection ([input_kept]). *)

From S2P Require Import Prelude Mbox Heap HeapFacts Pbuf Frame Chksum Addr Timeouts Header Ip4 Tcp TcpTmr TcpFrame TcpLists TcpCalls TcpOpen.

Implicit Types t : tstate.
Abbreviation kept_w := (on_part input_kept).

Lemma kept_same {A} (m : M tstate A) : stable same_tcp m → stable input_kept m.
Proof. apply stable_weaken. intros t t' S. apply input_same_kept, S. Qed.
Lemma kept_same_w {W A} `{!Part tstate W} (m : M W A) : stable same_w m → stable kept_w m.
Proof. apply stable_weaken. intros t t' S. apply input_same_kept, S. Qed.
#[export] Hint Extern 3 (stable input_kept _) => apply kept_same : stable.
#[export] Hint Extern 3 (stable kept_w _) => apply kept_same_w : stable.

(** ** The lists and the blocks *)

Lemma kept_update_tcp l f : stable input_kept (update_tcp l f).
Proof. intros t. by apply yields_update_tcp. Qed.
Lemma kept_update_lpcb l f : stable input_kept (update_lpcb l f).
Proof. intros t. by apply yields_update_lpcb. Qed.
#[export] Hint Resolve kept_update_tcp kept_update_lpcb : stable.
Lemma kept_set_pcbs k f : stable input_kept (modify (λ t, set_pcbs k (f t) t)).
Proof. apply stable_modify. intros t. by destruct k. Qed.
Lemma kept_RMV k l : stable input_kept (TCP_RMV k l).
Proof. unfold TCP_RMV. stable_tac. case_decide; by destruct k. Qed.
Lemma kept_set_changed b : stable input_kept (set_changed b).
Proof. by apply stable_modify. Qed.
Lemma kept_reg_link k l : stable input_kept (tcp_reg_link k l).
Proof. unfold tcp_reg_link. stable_tac. by destruct k. Qed.
Lemma kept_release ty l : stable input_kept (release_pcb ty l).
Proof. unfold release_pcb. stable_tac. done. Qed.
#[export] Hint Resolve kept_RMV kept_set_changed kept_reg_link kept_release : stable.
Lemma kept_free l : stable input_kept (tcp_free l).
Proof. unfold tcp_free. stable_tac. Qed.
Lemma kept_free_listen l : stable input_kept (tcp_free_listen l).
Proof. unfold tcp_free_listen. stable_tac. Qed.
Lemma kept_RMV_ACTIVE l : stable input_kept (TCP_RMV_ACTIVE l).
Proof. unfold TCP_RMV_ACTIVE. stable_tac. Qed.
Lemma kept_listen_closed l : stable input_kept (tcp_listen_closed l).
Proof. unfold tcp_listen_closed. pose proof same_remove_listener. stable_tac. Qed.
#[export] Hint Resolve kept_free kept_free_listen kept_RMV_ACTIVE kept_listen_closed : stable.

(** ** The interface *)

(** What the callbacks of the application leave alone. *)
Class tcp_client_kept (W : Type) `{!Part tstate W} `{!tcp_client W} : Prop := {
  kept_recv_tcp a pcb p err : stable kept_w (recv_tcp a pcb p err);
  kept_sent_tcp a pcb n : stable kept_w (sent_tcp a pcb n);
  kept_poll_tcp a pcb : stable kept_w (poll_tcp a pcb);
  kept_err_tcp a err : stable kept_w (err_tcp a err);
  kept_accept_function a pcb err : stable kept_w (accept_function a pcb err);
  kept_do_connected a pcb err : stable kept_w (do_connected a pcb err)
}.
#[export] Hint Resolve kept_recv_tcp kept_sent_tcp kept_poll_tcp kept_err_tcp kept_accept_function kept_do_connected : stable.

Section calls.
Context {W : Type} `{!Part tstate W} `{!tcp_out W} `{!tcp_client W} `{!tcp_out_keeps W} `{!tcp_client_kept W}.
Context `{!Part timeouts W} `{!timer_client W} `{!Apart tstate timeouts W}.

Abbreviation tc m := (lift (P := tstate) (S := W) m).

Lemma kept_pcb_remove k l : stable kept_w (tcp_pcb_remove k l).
Proof. unfold tcp_pcb_remove. stable_tac. Qed.
#[local] Hint Resolve kept_pcb_remove : stable.
Lemma kept_REMOVE_ACTIVE l : stable kept_w (TCP_PCB_REMOVE_ACTIVE l).
Proof. unfold TCP_PCB_REMOVE_ACTIVE. stable_tac. Qed.
#[local] Hint Resolve kept_REMOVE_ACTIVE : stable.
Lemma kept_EVENT_ERR f a err : stable kept_w (TCP_EVENT_ERR f a err).
Proof. unfold TCP_EVENT_ERR. stable_tac. Qed.
Lemma kept_EVENT_POLL l : stable kept_w (TCP_EVENT_POLL l).
Proof. unfold TCP_EVENT_POLL. stable_tac. Qed.
Lemma kept_EVENT_SENT l n : stable kept_w (TCP_EVENT_SENT l n).
Proof. unfold TCP_EVENT_SENT. stable_tac. Qed.
Lemma kept_EVENT_CONNECTED l err : stable kept_w (TCP_EVENT_CONNECTED l err).
Proof. unfold TCP_EVENT_CONNECTED. stable_tac. Qed.
#[local] Hint Resolve kept_EVENT_ERR kept_EVENT_POLL kept_EVENT_SENT kept_EVENT_CONNECTED : stable.

Lemma kept_send_fin_to l acc s : stable kept_w (send_fin_to l acc s).
Proof. unfold send_fin_to. stable_tac. Qed.
#[local] Hint Resolve kept_send_fin_to : stable.
Lemma kept_close_shutdown_fin l : stable kept_w (tcp_close_shutdown_fin l).
Proof. unfold tcp_close_shutdown_fin. stable_tac. Qed.
#[local] Hint Resolve kept_close_shutdown_fin : stable.
(** Only the connection whose segment is processed is left to [tcp_input]. *)
Lemma kept_free_or_trigger l : stable kept_w (
  let! input_pcb := tc (gets tcp_input_pcb) in
  do! (if decide (input_pcb = Some l) then tc tcp_trigger_input_pcb_close else tc (tcp_free l));
  ret ERR_OK).
Proof.
  intros w. apply yields_bind, yields_gets_lift. eapply (yields_then _ _ _ (λ _ w', kept_w w w')); [|intros; by apply yields_ret].
  case_decide as Hi; [|apply (stable_part _ _ (kept_free l))].
  apply (yields_part _ _ (λ _, input_kept (part_get w))), yields_modify, input_kept_set; [done|]. by rewrite Hi.
Qed.
Lemma kept_close_shutdown l r : stable kept_w (tcp_close_shutdown l r).
Proof.
  unfold tcp_close_shutdown. stable_step; [stable_tac|]. stable_step; [|stable_tac].
  do 5 (refine (stable_bind _ _ _ _ _); [stable_tac|intros]). apply kept_free_or_trigger.
Qed.
#[local] Hint Resolve kept_close_shutdown : stable.
Lemma kept_close l : stable kept_w (tcp_close l).
Proof. unfold tcp_close. stable_tac. Qed.
Lemma kept_shutdown l rx tx : stable kept_w (tcp_shutdown l rx tx).
Proof. unfold tcp_shutdown. stable_tac. Qed.
Lemma kept_abandon l r : stable kept_w (tcp_abandon l r).
Proof. unfold tcp_abandon. pose proof same_segs_free. stable_tac. Qed.
#[local] Hint Resolve kept_close kept_shutdown kept_abandon : stable.
Lemma kept_abort l : stable kept_w (tcp_abort l).
Proof. apply kept_abandon. Qed.
#[local] Hint Resolve kept_abort : stable.
Lemma kept_accept_null l : stable kept_w (tcp_accept_null l).
Proof. unfold tcp_accept_null. stable_tac. Qed.
#[local] Hint Resolve kept_accept_null : stable.
Lemma kept_EVENT_ACCEPT l p a err : stable kept_w (TCP_EVENT_ACCEPT l p a err).
Proof. unfold TCP_EVENT_ACCEPT. stable_tac. Qed.
Lemma kept_recv_null l p err : stable kept_w (tcp_recv_null l p err).
Proof. unfold tcp_recv_null. pose proof same_recved. stable_tac. Qed.
#[local] Hint Resolve kept_recv_null : stable.
Lemma kept_EVENT_RECV l p err : stable kept_w (TCP_EVENT_RECV l p err).
Proof. unfold TCP_EVENT_RECV. stable_tac. Qed.
Lemma kept_EVENT_CLOSED l : stable kept_w (TCP_EVENT_CLOSED l).
Proof. unfold TCP_EVENT_CLOSED. stable_tac. Qed.
#[local] Hint Resolve kept_EVENT_ACCEPT kept_EVENT_RECV kept_EVENT_CLOSED : stable.
Lemma kept_refused_loop fuel l : stable kept_w (process_refused_loop fuel l).
Proof. induction fuel; cbn [process_refused_loop]; stable_tac. Qed.
#[local] Hint Resolve kept_refused_loop : stable.
Lemma kept_process_refused_data l : stable kept_w (tcp_process_refused_data l).
Proof. unfold tcp_process_refused_data. stable_tac. Qed.
#[local] Hint Resolve kept_process_refused_data : stable.

Lemma kept_for_list k body : (∀ l, stable kept_w (body l)) → stable kept_w (for_list (W := W) k body).
Proof.
  intros Hb. unfold for_list. stable_tac. match goal with |- stable _ (for_pcbs ?n _ ?p) => generalize n, p end.
  intros fuel. induction fuel; intros [l|]; cbn [for_pcbs]; stable_tac.
Qed.
Lemma kept_txnow : stable kept_w tcp_txnow.
Proof. apply kept_for_list. intros l. stable_tac. Qed.
Lemma kept_retry_close l : stable kept_w (retry_close l).
Proof. unfold retry_close. stable_tac. Qed.
#[local] Hint Resolve kept_retry_close : stable.
Lemma kept_handle_closepend : stable kept_w tcp_handle_closepend.
Proof. apply kept_for_list. intros l. stable_tac. Qed.
Lemma kept_netif_pcblist a k : stable kept_w (tcp_netif_ip_addr_changed_pcblist a k).
Proof. apply kept_for_list. intros l. stable_tac. Qed.
#[local] Hint Resolve kept_netif_pcblist kept_handle_closepend : stable.
Lemma kept_ip_addr_changed a b : stable kept_w (tcp_netif_ip_addr_changed a b).
Proof. unfold tcp_netif_ip_addr_changed. pose proof same_listeners_readdress. stable_tac. Qed.
Lemma kept_kill_prio n : stable kept_w (tcp_kill_prio n).
Proof. unfold tcp_kill_prio. stable_tac. Qed.
Lemma kept_kill_state n : stable kept_w (tcp_kill_state n).
Proof. unfold tcp_kill_state. stable_tac. Qed.
Lemma kept_kill_timewait : stable kept_w tcp_kill_timewait.
Proof. unfold tcp_kill_timewait. stable_tac. Qed.
#[local] Hint Resolve kept_kill_prio kept_kill_state kept_kill_timewait : stable.
Lemma kept_alloc_or l : Forall (stable kept_w) l → stable kept_w (alloc_or l).
Proof. induction 1; cbn [alloc_or]; stable_tac. Qed.
Lemma kept_alloc prio : stable kept_w (tcp_alloc prio).
Proof.
  unfold tcp_alloc. stable_tac; [|done]. apply kept_alloc_or. repeat constructor; stable_tac.
Qed.
Lemma kept_timer_needed : stable kept_w (tcp_timer_needed (W := W)).
Proof. apply (stable_weaken (on_part eq (P := tstate))); [|apply timer_needed_apart]. intros s s' E. unfold on_part in *. by rewrite E. Qed.
#[local] Hint Resolve kept_timer_needed : stable.
Lemma kept_REG k l : stable kept_w (TCP_REG k l).
Proof. unfold TCP_REG. stable_tac. Qed.
#[local] Hint Resolve kept_REG : stable.
Lemma kept_REG_ACTIVE l : stable kept_w (TCP_REG_ACTIVE l).
Proof. unfold TCP_REG_ACTIVE. stable_tac. Qed.
#[local] Hint Resolve kept_REG_ACTIVE : stable.
Lemma kept_bind l ip port : stable kept_w (tcp_bind l ip port).
Proof. unfold tcp_bind, tcp_bind_port. pose proof same_new_port. stable_tac. Qed.
Lemma kept_listen l n : stable kept_w (tcp_listen_with_backlog l n).
Proof. unfold tcp_listen_with_backlog, tcp_listen_with_backlog_and_err. stable_tac. done. Qed.
Lemma kept_connect l ip port f : stable kept_w (tcp_connect l ip port f).
Proof. unfold tcp_connect. pose proof same_new_port. stable_tac. Qed.

(** ** The timers *)

Lemma kept_delayed_ack l : stable kept_w (delayed_ack l).
Proof. unfold delayed_ack. stable_tac. Qed.
#[local] Hint Resolve kept_delayed_ack : stable.
Lemma kept_fasttmr_pcb l : stable kept_w (fasttmr_pcb l).
Proof. unfold fasttmr_pcb. stable_tac. Qed.
#[local] Hint Resolve kept_fasttmr_pcb : stable.
Lemma kept_fast_turn l : stable kept_w (fast_turn l).
Proof. unfold fast_turn. stable_tac. Qed.
#[local] Hint Resolve kept_fast_turn : stable.
Lemma kept_fasttmr_loop fuel : ∀ l, stable kept_w (fasttmr_loop fuel l).
Proof. induction fuel; intros [l|]; cbn [fasttmr_loop]; stable_tac. Qed.
Lemma kept_slow_persist l : stable kept_w (slow_persist l).
Proof. unfold slow_persist, persist_next_slot. stable_tac. Qed.
Lemma kept_slow_rexmit l : stable kept_w (slow_rexmit l).
Proof. unfold slow_rexmit, backed_off_rto. stable_tac. Qed.
#[local] Hint Resolve kept_fasttmr_loop kept_slow_persist kept_slow_rexmit : stable.
Lemma kept_slow_output l : stable kept_w (slow_output l).
Proof. unfold slow_output. stable_tac. Qed.
Lemma kept_slow_keepalive l : stable kept_w (slow_keepalive l).
Proof. unfold slow_keepalive. stable_tac. Qed.
Lemma kept_slow_ooseq l : stable input_kept (slow_ooseq l).
Proof. unfold slow_ooseq. stable_tac. Qed.
#[local] Hint Resolve kept_slow_output kept_slow_keepalive kept_slow_ooseq : stable.
Lemma kept_slow_checks l : stable kept_w (slow_checks l).
Proof. unfold slow_checks. stable_tac. Qed.
Lemma kept_unlink k q l : stable input_kept (unlink k q l).
Proof. unfold unlink. stable_tac; by destruct k. Qed.
#[local] Hint Resolve kept_slow_checks kept_unlink : stable.
Lemma kept_slow_remove q l r : stable kept_w (slow_remove q l r).
Proof. unfold slow_remove. stable_tac. Qed.
Lemma kept_slow_poll l : stable kept_w (slow_poll l).
Proof. unfold slow_poll. stable_tac. Qed.
#[local] Hint Resolve kept_slow_remove kept_slow_poll : stable.
Lemma kept_slow_turn q l : stable kept_w (slow_turn q l).
Proof. unfold slow_turn, slow_assert. stable_tac. Qed.
#[local] Hint Resolve kept_slow_turn : stable.
Lemma kept_slowtmr_loop fuel : ∀ q l, stable kept_w (slowtmr_loop fuel q l).
Proof. induction fuel; intros q [l|]; cbn [slowtmr_loop]; stable_tac. Qed.
Lemma kept_tw_loop fuel : ∀ q l, stable input_kept (tw_loop fuel q l).
Proof. induction fuel; intros q [l|]; cbn [tw_loop]; stable_tac. Qed.
Lemma kept_ticks f : (∀ t, input_kept t (f t)) → stable input_kept (modify f).
Proof. apply stable_modify. Qed.
#[local] Hint Resolve kept_slowtmr_loop kept_tw_loop : stable.
Lemma kept_tmr fuel : stable kept_w (tcp_tmr fuel).
Proof. unfold tcp_tmr, tcp_fasttmr, tcp_slowtmr, tick_ctr. stable_tac; done. Qed.
End calls.
#[export] Hint Resolve kept_pcb_remove kept_REMOVE_ACTIVE kept_close kept_shutdown kept_abandon kept_abort kept_EVENT_ERR kept_EVENT_SENT
  kept_EVENT_CONNECTED kept_EVENT_ACCEPT kept_EVENT_RECV kept_EVENT_CLOSED kept_process_refused_data kept_txnow kept_ip_addr_changed
  kept_alloc kept_REG kept_REG_ACTIVE kept_bind kept_listen kept_connect kept_tmr : stable.
