(* ===== verification/TcpInCalls.v ===== *)
(** * TCP: the input keeps the lists

    [tcp_input] leaves the lists of blocks well formed, whatever segment arrives
    and whatever the application does in the callbacks: the connection it
    processes may be aborted, closed and left to it to free, or moved to the
    connections in TIME-WAIT meanwhile. *)

From S2P Require Import Prelude Mbox Heap HeapFacts Pbuf Frame Def Chksum Addr Timeouts Header Ip4 Tcp TcpOut TcpSend TcpIn TcpTmr TcpFrame TcpOutFrame TcpInFrame TcpLists TcpCalls TcpOpen TcpKept.

Implicit Types t : tstate.

(** ** The connection that is processed *)

(** It is a connection of the list [k], if it has not been freed. *)
Definition alive (k : pcb_list) (pcb : loc) t : Prop :=
  (k = L_active ∨ (k = L_tw ∧ ¬ input_closed t ∧ ¬ input_reset t)) ∧
  ∀ c, tcp_mem t !! pcb = Some (Conn_pcb c) → home (Conn_pcb c) = Some k.
Definition gone (pcb : loc) t : Prop := tcp_mem t !! pcb = None.

Lemma alive_same k pcb t t' : same_tcp t t' → alive k pcb t → alive k pcb t'.
Proof.
  intros S [Hk Ha]. destruct (same_input _ _ S) as (_ & R & C). split; [destruct Hk as [|(? & ? & ?)]; [by left|right; tauto]|].
  intros c' Hc'. destruct (same_back _ _ _ _ S Hc') as (c & Hc & E & _). rewrite <- (Ha c Hc). apply sig_home. simpl. congruence.
Qed.
Lemma gone_same pcb t t' : same_tcp t t' → gone pcb t → gone pcb t'.
Proof. intros S H. pose proof (same_sig _ _ S pcb) as E. rewrite H in E. unfold gone. by destruct (tcp_mem t' !! pcb). Qed.
Lemma gone_alive k pcb t : k = L_active ∨ (k = L_tw ∧ ¬ input_closed t ∧ ¬ input_reset t) → gone pcb t → alive k pcb t.
Proof. intros Hk H. split; [done|]. intros c Hc. unfold gone in H. congruence. Qed.

(** What [tcp_input] relies on of a callback for the connection: it returns
    ERR_ABRT just when it has aborted the connection, and does not bring it to
    another list otherwise. *)
Definition input_step {W} `{!Part tstate W} (pcb : loc) (m : M W err_t) : Prop := ∀ k w,
  tcp_ok (part_get w) → alive k pcb (part_get w) → (∃ c, tcp_mem (part_get w) !! pcb = Some (Conn_pcb c)) →
  yields m w (λ err w', if is_abrt err then gone pcb (part_get w') else alive k pcb (part_get w')).
Class tcp_client_input (W : Type) `{!Part tstate W} `{!tcp_client W} : Prop := {
  input_recv_tcp a pcb p err : input_step pcb (recv_tcp a pcb p err);
  input_sent_tcp a pcb n : input_step pcb (sent_tcp a pcb n);
  input_accept_function a pcb err : input_step pcb (accept_function a (Some pcb) err);
  input_do_connected a pcb err : input_step pcb (do_connected a pcb err);
  input_err_tcp a err : stable same_w (err_tcp a err)
}.
#[export] Hint Resolve input_err_tcp : stable.

Lemma yields_and {S A} (m : M S A) s (Q Q' : A → S → Prop) : yields m s Q → yields m s Q' → yields m s (λ a s', Q a s' ∧ Q' a s').
Proof. unfold yields. destruct (m s) as [[a s']|]; auto. Qed.
Lemma yields_any_bind {S A B} (m : M S A) (f : A → M S B) s (Q : B → Prop) :
  (∀ a s', yields (f a) s' (λ b _, Q b)) → yields (mbnd m f) s (λ b _, Q b).
Proof. intros H. apply yields_bind. unfold yields at 1. destruct (m s) as [[a s']|]; [apply H|done]. Qed.

(** The functions that end in [ERR_OK] or [ERR_MEM]. *)
Definition mild (err : err_t) : Prop := err = ERR_OK ∨ err = ERR_MEM.
Lemma mild_enqueue_flags l f t : yields (tcp_enqueue_flags l f) t (λ err _, mild err).
Proof.
  unfold tcp_enqueue_flags. cbv zeta. repeat first [apply yields_ret; by (left + right) | apply yields_any_bind; intros | case_match].
Qed.
Lemma mild_send_fin l t : yields (tcp_send_fin l) t (λ err _, mild err).
Proof.
  unfold tcp_send_fin. repeat first [apply mild_enqueue_flags | apply yields_ret; by (left + right) | apply yields_any_bind; intros | case_match].
Qed.

Section input.
Context {W : Type} `{!Part tstate W} `{!netif_driver W} `{!tcp_client W} `{!Part timeouts W} `{!timer_client W} `{!Apart tstate timeouts W}.
Context `{!netif_driver_keeps W} `{!tcp_client_keeps W} `{!tcp_client_kept W} `{!tcp_client_input W}.
Implicit Types w : W.
#[local] Hint Resolve tcp_out_lwip_keeps same_output same_send_empty_ack same_rexmit_rto same_recved : stable.

Abbreviation tc m := (lift (P := tstate) (S := W) m).
Abbreviation st m := (lift (P := tstate) (S := W) (lift (P := ipstate) (lift (P := store) m))).

Lemma input_same_step pcb (m : M W err_t) : stable same_w m → (∀ w, yields m w (λ err _, is_abrt err = false)) → input_step pcb m.
Proof.
  intros Hm He k w Hw Ha _. eapply yields_mono; [apply (yields_and _ _ _ _ (Hm w) (He w))|].
  intros err w' [S E]. simpl in E. rewrite E. by eapply alive_same.
Qed.

Lemma freed_gone (m : loc → M tstate unit) l t0 w : tcp_ok t0 → removed l t0 (part_get w) →
  (∀ t, off l t → yields (m l) t (λ _, dropped l t)) → yields (tc (m l)) w (λ _ w', gone l (part_get w')).
Proof.
  intros Ht (_ & Hoff & _) Hm. apply (yields_part _ _ (λ _, gone l)). eapply yields_mono; [by apply Hm|]. intros [] t' Hd. apply Hd.
Qed.

Lemma abandon_gone l r w : tcp_ok (part_get w) → yields (tcp_abandon (Some l) r) w (λ _ w', gone l (part_get w')).
Proof.
  intros Hw. apply abandon_yields; [done|done|]. intros w' errf a _ Hn.
  eapply (stable_keeps same_w); [unfold TCP_EVENT_ERR; stable_tac| |exact Hn]. intros s s'. apply gone_same.
Qed.

Lemma alive_active l t : (∀ c, tcp_mem t !! l = Some (Conn_pcb c) → home (Conn_pcb c) = Some L_active) → alive L_active l t.
Proof. intros H. split; [by left|done]. Qed.
Lemma alive_gone l t : gone l t → alive L_active l t.
Proof. intros H. apply alive_active. intros c. unfold gone in H. congruence. Qed.
Lemma send_fin_alive l acc s w : (∀ c, home (Conn_pcb (c <| tp_state := s |>)) = Some L_active) → alive L_active l (part_get w) →
  yields (send_fin_to l acc s) w (λ err w', mild err ∧ alive L_active l (part_get w')).
Proof.
  intros Hs Ha. unfold send_fin_to. eapply yields_then.
  { apply yields_and; [apply keeps_send_fin|]. apply (yields_part _ _ (λ err _, mild err)), mild_send_fin. }
  intros err w1 [S1 He]. pose proof (alive_same _ _ _ _ S1 Ha) as H1.
  apply (yields_then _ _ _ (λ _ w', alive L_active l (part_get w'))); [|intros [] w' H; by apply yields_ret].
  destruct (is_ok err); [|by apply yields_ret].
  eapply (stable_then same_w); [destruct acc; stable_tac|]. intros [] w2 S2.
  apply (yields_part _ _ (λ _, alive L_active l)), yields_update_tcp. intros c _. apply alive_active. intros c' Hc'.
  simpl in Hc'. rewrite lookup_insert_eq in Hc'. injection Hc' as <-. apply Hs.
Qed.
Lemma close_fin_alive l k w : alive k l (part_get w) → yields (tcp_close_shutdown_fin l) w (λ err w', is_abrt err = false ∧ alive k l (part_get w')).
Proof.
  intros Ha. apply yields_bind, yields_ask_lift. intros c Hc%get_tcp_val. pose proof (proj2 Ha c Hc) as Hk.
  assert (∀ err w', mild err → alive k l (part_get w') → yields (match err with
    | ERR_OK => let! _ := Tcp.tcp_output l in ret err
    | ERR_MEM => do! tc (tcp_set_flags l TF_CLOSEPEND); ret ERR_OK
    | _ => ret err end) w' (λ err w', is_abrt err = false ∧ alive k l (part_get w'))) as Hfin.
  { intros err w' [-> | ->] H; cbv iota.
    - eapply (stable_then same_w); [stable_tac|]. intros e w2 S2. apply yields_ret. split; [done|by eapply alive_same].
    - eapply (stable_then same_w); [stable_tac|]. intros [] w2 S2. apply yields_ret. split; [done|by eapply alive_same]. }
  destruct (tp_state c) eqn:E; simpl in Hk; rewrite E in Hk; try (by apply yields_ret); injection Hk as <-;
    (eapply yields_then; [by apply send_fin_alive|]; intros err w1 [He H1]; by apply Hfin).
Qed.

Lemma close_alive l : input_step l (tcp_close (Some l)).
Proof.
  intros k w Hw Ha [c0 Hc0]. apply (yields_mono _ _ (λ err w', is_abrt err = false ∧ alive k l (part_get w')));
    [|intros err w' [-> H]; exact H].
  apply yields_bind, yields_valid_ptr. intros l' [= <-]. apply yields_bind, yields_ask_lift. intros b0 _.
  eapply (stable_then same_w); [stable_tac|]. intros [] w1 S1. pose proof (tcp_ok_same S1 Hw) as H1. pose proof (alive_same _ _ _ _ S1 Ha) as Ha1.
  destruct (same_conn _ _ _ _ S1 Hc0) as (c & Hc & _). pose proof (proj2 Ha1 c Hc) as Hk. apply yields_bind, yields_ask_lift.
  intros b Hb%get_blk_val. rewrite Hc in Hb. injection Hb as <-. destruct (must_reset true (Conn_pcb c)) eqn:Hr.
  { apply must_reset_active in Hr as (c' & [= <-] & Hh). rewrite Hh in Hk. injection Hk as <-. apply yields_bind, yields_ask_lift. intros c' _.
    apply yields_bind, yields_assert. intros _. eapply (stable_then same_w); [stable_tac|]. intros [] w2 S2.
    eapply (stable_then same_w); [stable_tac|]. intros [] w3 S3. assert (same_tcp (part_get w1) (part_get w3)) as S by (by etrans).
    pose proof (alive_same _ _ _ _ S Ha1) as [_ Ha3]. eapply yields_tc; [eapply (rmv_active_yields _ l); [by eapply tcp_ok_same|]|].
    { intros k. rewrite (same_lists _ _ S). by eapply conn_on. }
    intros [] w4 (_ & Hoff & Hm). apply yields_bind, yields_gets_lift.
    apply (yields_then _ _ _ (λ _ w', alive L_active l (part_get w'))); [|intros [] w' H; by apply yields_ret].
    case_decide; apply (yields_part _ _ (λ _, alive L_active l)).
    - apply yields_modify, alive_active. intros c5. simpl. rewrite Hm. apply Ha3.
    - eapply yields_mono; [by apply free_yields|]. intros [] t' Hd. apply alive_gone, Hd. }
  clear Hr. simpl. simpl in Hk. destruct (tp_state c) eqn:E; try discriminate Hk; try (by apply close_fin_alive); try (by injection Hk as <-; destruct Ha as [[?|[? ?]] _]).
  injection Hk as <-. eapply yields_then; [eapply remove_active_yields; [exact H1|]|].
  { eapply conn_on; [done..|]. simpl. by rewrite E. }
  intros [] w2 Hr. eapply yields_then; [by eapply (freed_gone tcp_free l); [exact H1|exact Hr|apply free_yields]|].
  intros [] w3 H3. apply yields_ret. split; [done|by apply alive_gone].
Qed.

(** ** The callbacks *)

Definition held (i : option loc) (k : pcb_list) (pcb : loc) t : Prop := tcp_ok t ∧ tcp_input_pcb t = i ∧ alive k pcb t.
(** After a callback that returned [err]. *)
Definition told (i : option loc) (k : pcb_list) (pcb : loc) (err : err_t) t : Prop :=
  tcp_ok t ∧ tcp_input_pcb t = i ∧ if is_abrt err then gone pcb t else alive k pcb t.

Lemma held_same i k pcb t t' : same_tcp t t' → held i k pcb t → held i k pcb t'.
Proof.
  intros S (Hok & Hi & Ha). split; [by eapply tcp_ok_same|]. split; [|by eapply alive_same].
  destruct (same_input _ _ S) as (E & _). congruence.
Qed.
Lemma event_yields {X} i k pcb (m : M W X) (f : X → M W err_t) w :
  ok_step (mbnd m f) → stable kept_w (mbnd m f) →
  (∀ Q, (∀ x, (∃ c, tcp_mem (part_get w) !! pcb = Some (Conn_pcb c)) → yields (f x) w Q) → yields (mbnd m f) w Q) →
  (∀ x, input_step pcb (f x)) →
  held i k pcb (part_get w) → yields (mbnd m f) w (λ err w', told i k pcb err (part_get w')).
Proof.
  intros Hok Hk Hm Hf (Hw & Hi & Ha). unfold told.
  eapply yields_mono.
  { apply yields_and; [exact (Hok w Hw)|]. apply yields_and; [exact (Hk w)|]. apply Hm. intros x Hc. by apply (Hf x k). }
  intros err w' (H1 & (E & _) & H2). split; [done|]. split; [congruence|exact H2].
Qed.
Lemma from_block pcb (f : tcp_pcb → M W err_t) w (Q : err_t → W → Prop) :
  (∀ c, (∃ c, tcp_mem (part_get w) !! pcb = Some (Conn_pcb c)) → yields (f c) w Q) →
  yields (let! c := tc (ask (λ t, get_tcp t pcb)) in f c) w Q.
Proof. intros H. apply yields_bind, yields_ask_lift. intros c Hc%get_tcp_val. apply H. by exists c. Qed.

Lemma input_ret pcb err : is_abrt err = false → input_step pcb (ret (S := W) err).
Proof. intros E. apply input_same_step; [stable_tac|]. intros w. by apply yields_ret. Qed.
Lemma input_recv_null pcb p err : input_step pcb (tcp_recv_null (W := W) (Some pcb) p err).
Proof.
  destruct p as [p|]; [|destruct (is_ok err) eqn:E].
  - apply input_same_step; [pose proof same_recved; unfold tcp_recv_null; stable_tac|]. intros w.
    unfold tcp_recv_null. do 4 (apply yields_any_bind; intros). by apply yields_ret.
  - intros k w Hw Ha Hc. unfold tcp_recv_null. rewrite E. apply yields_bind, yields_assert. intros _. by apply (close_alive pcb k).
  - intros k w Hw Ha Hc. unfold tcp_recv_null. rewrite E. apply yields_bind, yields_assert. intros _. by apply yields_ret.
Qed.

Lemma recv_told i k pcb p err w : held i k pcb (part_get w) → yields (TCP_EVENT_RECV pcb p err) w (λ e w', told i k pcb e (part_get w')).
Proof.
  apply event_yields; [apply ok_TCP_EVENT_RECV|apply kept_EVENT_RECV|apply from_block|]. intros c.
  destruct (tp_recv c) as [[]|]; [apply input_recv_tcp|apply input_recv_null..].
Qed.
Lemma closed_told i k pcb w : held i k pcb (part_get w) → yields (TCP_EVENT_CLOSED pcb) w (λ e w', told i k pcb e (part_get w')).
Proof.
  apply event_yields; [apply ok_TCP_EVENT_CLOSED|apply kept_EVENT_CLOSED|apply from_block|]. intros c.
  destruct (tp_recv c) as [[]|]; [apply input_recv_tcp|apply input_recv_null|by apply input_ret].
Qed.
Lemma ok_TCP_EVENT_SENT l n : ok_step (TCP_EVENT_SENT l n).
Proof. apply ok_bind; [apply ok_ask|intros c]. destruct (tp_sent c) as [[]|]; [apply ok_sent_tcp|apply ok_ret]. Qed.
Lemma sent_told i k pcb n w : held i k pcb (part_get w) → yields (TCP_EVENT_SENT pcb n) w (λ e w', told i k pcb e (part_get w')).
Proof.
  apply event_yields; [apply ok_TCP_EVENT_SENT|apply kept_EVENT_SENT|apply from_block|]. intros c.
  destruct (tp_sent c) as [[]|]; [apply input_sent_tcp|by apply input_ret].
Qed.
Lemma ok_TCP_EVENT_CONNECTED l err : ok_step (TCP_EVENT_CONNECTED l err).
Proof. apply ok_bind; [apply ok_ask|intros c]. destruct (tp_connected c) as [[]|]; [apply ok_do_connected|apply ok_ret]. Qed.
Lemma connected_told i k pcb err w : held i k pcb (part_get w) → yields (TCP_EVENT_CONNECTED pcb err) w (λ e w', told i k pcb e (part_get w')).
Proof.
  apply event_yields; [apply ok_TCP_EVENT_CONNECTED|apply kept_EVENT_CONNECTED|apply from_block|]. intros c.
  destruct (tp_connected c) as [[]|]; [apply input_do_connected|by apply input_ret].
Qed.
Lemma ok_TCP_EVENT_ACCEPT lp p a err : ok_step (TCP_EVENT_ACCEPT lp p a err).
Proof.
  apply ok_bind; [apply ok_ask|intros c]. destruct (tl_accept c) as [[]|]; [apply ok_accept_function|apply ok_accept_null|apply ok_ret].
Qed.

Lemma accept_told i pcb w : held i L_active pcb (part_get w) → yields (accept_connection pcb) w (λ e w', told i L_active pcb e (part_get w')).
Proof.
  intros Hp. apply yields_bind, yields_ask_lift. intros c Hc%get_tcp_val. destruct (tp_listener c) as [lp|]; [|by apply yields_ret].
  apply yields_bind, yields_ask_lift. intros lc _. apply yields_bind, yields_assert. intros _.
  eapply (stable_then same_w); [stable_tac|]. intros [] w1 S1. destruct (same_conn _ _ _ _ S1 Hc) as (c1 & Hc1 & _).
  apply event_yields; [apply ok_TCP_EVENT_ACCEPT|apply kept_EVENT_ACCEPT| | |by eapply held_same].
  - intros Q H. apply yields_bind, yields_ask_lift. intros x _. apply H. by exists c1.
  - intros x. destruct (tl_accept x) as [[]|]; [apply input_accept_function| |by apply input_ret].
    intros k w' Hw' _ _. apply yields_bind, yields_assert. intros _. eapply yields_then; [by apply abandon_gone|].
    intros [] w2 H2. by apply yields_ret.
Qed.

Definition processing (k : pcb_list) (pcb : loc) : tstate → Prop := held (Some pcb) k pcb.
Lemma processing_same k pcb t t' : same_tcp t t' → processing k pcb t → processing k pcb t'.
Proof. apply held_same. Qed.

(** ** The state machine *)

Definition calm t : Prop := ¬ input_closed t ∧ ¬ input_reset t.
Lemma calm_same t t' : input_same t t' → calm t → calm t'.
Proof. unfold calm. intros (_ & R & C). tauto. Qed.
(** What [tcp_process] leaves to [tcp_input]. *)
Definition processed (pcb : loc) (err : err_t) t : Prop :=
  tcp_ok t ∧ tcp_input_pcb t = Some pcb ∧ if is_abrt err then gone pcb t else ∃ k, alive k pcb t.
Lemma processing_processed k pcb err t : is_abrt err = false → processing k pcb t → processed pcb err t.
Proof. intros E (? & ? & ?). unfold processed. rewrite E. split_and!; [done..|by exists k]. Qed.

Lemma put_processing pcb c c' t : processing L_active pcb t → tcp_mem t !! pcb = Some (Conn_pcb c) →
  home (Conn_pcb c') = Some L_active → (tp_listener c' = tp_listener c ∨ tp_listener c' = None) →
  processing L_active pcb (put_blk pcb (Conn_pcb c') t).
Proof.
  intros (Hok & Hi & Ha) Hc Hh Hl. pose proof (proj2 Ha c Hc) as Hh0. split; [|split; [exact Hi|]].
  - apply (tcp_ok_put t pcb c); [done|done|congruence| |done]. intros k Hk. by rewrite (conn_on _ _ _ _ _ Hok Hc Hh0 k Hk).
  - apply alive_active. intros c1 H. simpl in H. rewrite lookup_insert_eq in H. by injection H as <-.
Qed.
Definition stays_active (f : tcp_pcb → tcp_pcb) : Prop :=
  ∀ c, home (Conn_pcb c) = Some L_active → home (Conn_pcb (f c)) = Some L_active ∧ (tp_listener (f c) = tp_listener c ∨ tp_listener (f c) = None).
Lemma update_processing pcb f w : stays_active f → processing L_active pcb (part_get w) →
  yields (tc (update_tcp pcb f)) w (λ _ w', processing L_active pcb (part_get w') ∧ input_same (part_get w) (part_get w')).
Proof.
  intros Hf Hp. apply (yields_part _ _ (λ _ t', processing L_active pcb t' ∧ input_same (part_get w) t')), yields_update_tcp.
  intros c Hc. split; [|done]. destruct (Hf c) as [Hh Hl]; [by apply Hp|]. by eapply put_processing.
Qed.
Lemma recv_processing pcb t t' : recv_rel pcb t t' → processing L_active pcb t → processing L_active pcb t' ∧ input_same t t'.
Proof.
  intros [S|(c & Hc & [Hs Hf] & S)] Hp; [split; [by eapply processing_same|apply S]|].
  split; [|exact (same_input _ _ S)]. eapply processing_same; [exact S|]. eapply put_processing; [done..|by left].
Qed.

#[local] Hint Extern 3 (stable (on_part input_same) _) => apply (stable_weaken same_w); [intros ? ? S; apply S|] : stable.
Lemma exact_RMV k l : stable input_same (TCP_RMV k l).
Proof. unfold TCP_RMV. stable_tac. case_decide; by destruct k. Qed.
Lemma exact_reg_link k l : stable input_same (tcp_reg_link k l).
Proof. unfold tcp_reg_link. stable_tac. by destruct k. Qed.
Lemma exact_timer_needed : stable (on_part input_same) (tcp_timer_needed (W := W)).
Proof. apply (stable_weaken (on_part eq (P := tstate))); [|apply timer_needed_apart]. intros s s' E. unfold on_part in *. by rewrite E. Qed.
#[local] Hint Resolve exact_RMV exact_reg_link exact_timer_needed : stable.
Lemma exact_time_wait l : stable (on_part input_same) (to_time_wait l).
Proof.
  unfold to_time_wait, TCP_RMV_ACTIVE, TCP_REG, set_changed. stable_tac; try done.
  - apply (stable_weaken same_tcp); [intros ? ? S; apply S|apply same_pcb_purge].
  - intros t. by apply yields_update_tcp.
Qed.
Definition is_there (pcb : loc) t : Prop := ∃ c, tcp_mem t !! pcb = Some (Conn_pcb c).
Lemma same_there pcb t t' : same_tcp t t' → is_there pcb t → is_there pcb t'.
Proof. intros S [c Hc]. destruct (same_conn _ _ _ _ S Hc) as (c' & Hc' & _). by exists c'. Qed.
Lemma recv_there pcb t t' : recv_rel pcb t t' → is_there pcb t → is_there pcb t'.
Proof.
  intros [S|(c & Hc & _ & S)] H; [by eapply same_there|]. eapply same_there; [exact S|]. eexists. apply lookup_insert_eq.
Qed.

Lemma time_wait_processing pcb w : processing L_active pcb (part_get w) → calm (part_get w) → is_there pcb (part_get w) →
  yields (to_time_wait pcb) w (λ _ w', processing L_tw pcb (part_get w')).
Proof.
  intros Hp Hcalm Hc. eapply (yields_mono _ _ (λ _ w', on_part input_same w w' ∧ (calm (part_get w') → processing L_tw pcb (part_get w')))).
  2:{ intros [] w' [S H]. exact (H (calm_same _ _ S Hcalm)). }
  apply yields_and; [exact (exact_time_wait pcb w)|].
  eapply stable_then; [apply stable_part, same_pcb_purge|]. intros [] w1 S1. pose proof (processing_same _ _ _ _ S1 Hp) as (H1 & Hi1 & Ha1).
  assert (calm (part_get w1)) as Hcalm1 by (eapply calm_same; [apply S1|done]).
  destruct (same_there _ _ _ S1 Hc) as [c1 Hc1]. pose proof (proj2 Ha1 c1 Hc1) as Hh1. set (t1 := part_get w1) in *.
  eapply yields_tc; [apply (rmv_active_yields (input_of t1) pcb); [exact H1|by eapply conn_on]|].
  intros [] w2 (Ho & Hoff & Hm). assert (tcp_mem (part_get w2) !! pcb = Some (Conn_pcb c1)) as Hc2 by by rewrite Hm.
  set (b := Conn_pcb (c1 <| tp_state := TIME_WAIT |>)).
  eapply yields_tc; [apply (yields_update_tcp _ _ _ (λ _ t, t = put_blk pcb b (part_get w2)));
    intros c Hc'; rewrite Hc2 in Hc'; by injection Hc' as <-|].
  intros [] w3 E3. assert (others pcb t1 (part_get w3)) as Ho3 by (etrans; [exact Ho|rewrite E3; apply others_put]).
  assert (tcp_mem (part_get w3) !! pcb = Some b) as Hb by (rewrite E3; apply lookup_insert_eq).
  assert (off pcb (part_get w3)) as Hoff3 by (by rewrite E3).
  eapply yields_mono; [apply reg_yields|]. intros [] w4 (_ & E4) Hcalm4. split; [|split; [|split]].
  - unfold tcp_ok. rewrite E4. apply (linked_ok (input_of t1) _ L_tw pcb t1 (part_get w3) b); try done.
    + intros lp Hlp. split; [done|]. assert (lp ∈ tcp_listen_pcbs t1) as Hin.
      { apply (tk_listener _ _ H1 L_active pcb); [|unfold listener_of; by rewrite Hc1].
        destruct (tk_home _ _ H1 _ _ _ Hc1 Hh1) as [Hin|[_ Hcl]]; [done|by destruct Hcalm1]. }
      apply (ot_in _ _ _ Ho3 L_listen); [|done]. intros ->. by eapply conn_not_listening.
    + intros a Ha Hne. destruct Ha as [_ Hcl]. by destruct Hcalm1.
    + by right.
    + eapply Pos.lt_le_trans; [|apply (ot_next _ _ _ Ho3)]. apply (tk_fresh _ _ H1). by eexists.
    + by eapply conn_not_listening.
  - rewrite E4. simpl. destruct (ot_input _ _ _ Ho3) as (E & _). congruence.
  - right. split; [done|exact Hcalm4].
  - intros c. rewrite E4. simpl. rewrite Hb. unfold b. by intros [= <-].
Qed.

Lemma flags_processing pcb x t : processing L_active pcb t → processing L_active pcb (flags_set t x).
Proof.
  intros ([N O H L C F] & Hi & Ha). split; [|split; [exact Hi|split; [by left|apply Ha]]].
  apply (tcp_ok_ex_mono (input_of t)); [|by split]. intros l [Hl Hc]. split; [done|]. apply closed_set. by left.
Qed.
Lemma set_flag_processing pcb x w : processing L_active pcb (part_get w) →
  yields (tc (set_recv_flag x)) w (λ _ w', processing L_active pcb (part_get w')).
Proof. intros Hp. apply (yields_part _ _ (λ _, processing L_active pcb)), yields_modify. by apply (flags_processing pcb x). Qed.

(** The steps that end well, with the connection in [k]. *)
Lemma same_processed {A} k pcb (m : M W A) w err : is_abrt err = false → stable same_w m → processing k pcb (part_get w) →
  yields (let! _ := m in ret err) w (λ e w', processed pcb e (part_get w')).
Proof.
  intros E Hm Hp. eapply stable_then; [exact Hm|]. intros a w' S. apply yields_ret.
  eapply processing_processed; [done|by eapply processing_same].
Qed.
Lemma then_processed {A} k pcb (m : M W A) w err : is_abrt err = false →
  yields m w (λ _ w', processing k pcb (part_get w')) →
  yields (let! _ := m in ret err) w (λ e w', processed pcb e (part_get w')).
Proof. intros E Hm. eapply yields_then; [exact Hm|]. intros a w' H. apply yields_ret. by apply (processing_processed k). Qed.

Lemma rst_processed pcb w : processing L_active pcb (part_get w) → yields (tc (process_rst pcb)) w (λ e w', processed pcb e (part_get w')).
Proof.
  intros Hp. apply (yields_part _ _ (λ e, processed pcb e)). apply yields_bind, yields_gets. cbv beta.
  apply yields_bind, yields_ask. intros c _. cbv zeta. case_match.
  - apply yields_bind, yields_assert. intros _. eapply (yields_then _ _ _ (λ _, processing L_active pcb)).
    { apply yields_modify. by apply (flags_processing pcb TF_RESET). }
    intros [] t1 H1. eapply (stable_then same_tcp); [stable_tac|]. intros [] t2 S2. apply yields_ret.
    eapply processing_processed; [done|by eapply processing_same].
  - eapply (stable_then same_tcp); [stable_tac|]. intros [] t2 S2. apply yields_ret.
    eapply processing_processed; [done|by eapply processing_same].
Qed.

Lemma syn_sent_processed pcb w : processing L_active pcb (part_get w) → yields (process_syn_sent pcb) w (λ e w', processed pcb e (part_get w')).
Proof.
  intros Hp. apply yields_bind, yields_gets_lift. apply yields_bind, yields_ask_lift. intros c _.
  case_match; [|case_match].
  - eapply (stable_then same_w); [stable_tac|]. intros wnd w1 S1.
    eapply yields_then; [apply update_processing; [|by eapply processing_same]|]. { intros c1 _. by split; [|left]. }
    intros [] w2 [H2 _]. eapply (stable_then same_w); [stable_tac|]. intros [] w3 S3. eapply (stable_then same_w); [stable_tac|]. intros [] w4 S4.
    eapply (stable_then same_w); [stable_tac|]. intros [] w5 S5.
    eapply yields_then; [apply (connected_told (Some pcb) L_active); do 3 (eapply processing_same; [eassumption|]); exact H2|].
    intros err w6 (H6 & Hi6 & Ha6).
    destruct err; try (eapply (same_processed L_active); [done|stable_tac|by split]). by apply yields_ret.
  - eapply (stable_then same_w); [stable_tac|]. intros [] w1 S1. apply yields_bind, yields_ask_lift. intros c1 _.
    eapply (same_processed L_active); [done|pose proof same_rexmit_rto; stable_tac|by eapply processing_same].
  - apply yields_ret. by eapply processing_processed.
Qed.

Lemma receive_processing pcb w : processing L_active pcb (part_get w) →
  yields (tcp_receive pcb) w (λ _ w', processing L_active pcb (part_get w') ∧ input_same (part_get w) (part_get w') ∧
    (is_there pcb (part_get w) → is_there pcb (part_get w'))).
Proof.
  intros Hp. eapply yields_mono; [apply recv_receive|]. intros [] w' R. destruct (recv_processing _ _ _ R Hp) as [H S].
  split_and!; [done..|]. by apply recv_there.
Qed.
(** The FIN has been received in a state that goes on to [s]. *)
Lemma fin_processing pcb s w : (∀ c, home (Conn_pcb (c <| tp_state := s |>)) = Some L_active) → processing L_active pcb (part_get w) →
  yields (do! tc (tcp_ack_now pcb); tc (update_tcp pcb (λ c, c <| tp_state := s |>))) w (λ _ w', processing L_active pcb (part_get w')).
Proof.
  intros Hs Hp. eapply (stable_then same_w); [stable_tac|]. intros [] w1 S1.
  eapply yields_mono; [apply update_processing; [|by eapply processing_same]|]. { intros c _. split; [apply Hs|by left]. } by intros [] w2 [H2 _].
Qed.

Lemma syn_rcvd_processed pcb w : processing L_active pcb (part_get w) → yields (process_syn_rcvd pcb) w (λ e w', processed pcb e (part_get w')).
Proof.
  intros Hp. apply yields_bind, yields_gets_lift, yields_bind, yields_ask_lift. intros c _. case_match; [case_match|case_match].
  - eapply yields_then; [apply update_processing; [|done]|]. { intros c1 _. by split; [|left]. }
    intros [] w1 [H1 _]. eapply yields_then; [by apply accept_told|]. intros err w2 (H2 & Hi2 & Ha2).
    assert (yields (do! tcp_abort (Some pcb); ret ERR_ABRT) w2 (λ e w', processed pcb e (part_get w'))) as Habort.
    { eapply yields_then; [apply yields_and; [by apply abandon_gone|apply yields_and; [by apply ok_abort|apply kept_abort]]|].
      intros [] w3 (Hg & H3 & E3 & _). apply yields_ret. split; [done|]. split; [congruence|done]. }
    destruct err; try exact Habort; [|by apply yields_ret].
    eapply yields_then; [by apply receive_processing|]. intros [] w3 (H3 & _).
    eapply (stable_then same_w); [stable_tac|]. intros [] w4 S4. eapply (stable_then same_w); [stable_tac|]. intros [] w5 S5.
    eapply (stable_then same_w); [stable_tac|]. intros fin w6 S6.
    assert (processing L_active pcb (part_get w6)) as H6 by (do 3 (eapply processing_same; [eassumption|]); exact H3).
    eapply (then_processed L_active); [done|]. destruct fin; [by apply fin_processing|by apply yields_ret].
  - eapply (same_processed L_active); [done|stable_tac|done].
  - eapply (same_processed L_active); [done|stable_tac|done].
  - apply yields_ret. by eapply processing_processed.
Qed.

(** The states after ESTABLISHED: [rest] goes on from the segment received. *)
Lemma received_processed pcb (rest : M W err_t) w :
  processing L_active pcb (part_get w) → calm (part_get w) → is_there pcb (part_get w) →
  (∀ w', processing L_active pcb (part_get w') → calm (part_get w') → is_there pcb (part_get w') →
    yields rest w' (λ e w', processed pcb e (part_get w'))) →
  yields (do! tcp_receive pcb; rest) w (λ e w', processed pcb e (part_get w')).
Proof.
  intros Hp Hcalm Hc Hm. eapply yields_then; [by apply receive_processing|]. intros [] w1 (H1 & S1 & Hc1).
  apply Hm; [done|by eapply calm_same|by apply Hc1].
Qed.
Definition ready pcb t : Prop := processing L_active pcb t ∧ calm t ∧ is_there pcb t.
Lemma ready_same pcb t t' : same_tcp t t' → ready pcb t → ready pcb t'.
Proof.
  intros S (Hp & Hc & Ht). split_and!; [by eapply processing_same|eapply calm_same; [apply S|done]|by eapply same_there].
Qed.
Lemma ready_then {A B} pcb (m : M W A) (f : A → M W B) w Q : stable same_w m → ready pcb (part_get w) →
  (∀ a w', ready pcb (part_get w') → yields (f a) w' Q) → yields (mbnd m f) w Q.
Proof. intros Hm Hr Hf. eapply stable_then; [exact Hm|]. intros a w' S. apply Hf. by eapply ready_same. Qed.
Lemma ready_time_wait pcb w : ready pcb (part_get w) → yields (to_time_wait pcb) w (λ _ w', processing L_tw pcb (part_get w')).
Proof. intros (? & ? & ?). by apply time_wait_processing. Qed.

Lemma state_processed pcb w : ready pcb (part_get w) → yields (process_state pcb) w (λ e w', processed pcb e (part_get w')).
Proof.
  intros Hr. apply yields_bind, yields_ask_lift. intros c _. pose proof Hr as (Hp & Hcalm & Ht).
  assert (yields (do! tcp_receive pcb; let! fin := tc fin_received in
    do! (if fin then do! tc (tcp_ack_now pcb); tc (update_tcp pcb (λ c, c <| tp_state := CLOSE_WAIT |>)) else ret tt);
    ret ERR_OK) w (λ e w', processed pcb e (part_get w'))) as Hest.
  { apply received_processed; [done..|]. intros w1 H1 C1 T1. apply (ready_then pcb); [stable_tac|done|]. intros fin w2 (H2 & _).
    eapply (then_processed L_active); [done|]. destruct fin; [by apply fin_processing|by apply yields_ret]. }
  destruct (tp_state c); try exact Hest; try (apply yields_ret; by eapply processing_processed).
  - by apply syn_sent_processed.
  - by apply syn_rcvd_processed.
  - apply received_processed; [done..|]. intros w1 H1 C1 T1. apply (ready_then pcb); [stable_tac|done|]. intros fin w2 R2.
    apply (ready_then pcb); [stable_tac|done|]. intros acked w3 R3. destruct fin, acked.
    + eapply (then_processed L_tw); [done|]. apply (ready_then pcb); [stable_tac|done|]. intros [] w4 R4. by apply ready_time_wait.
    + eapply (then_processed L_active); [done|]. apply fin_processing; [done|apply R3].
    + eapply (then_processed L_active); [done|]. eapply yields_mono; [apply update_processing; [|apply R3]|].
      { intros c1 _. by split; [|left]. } by intros [] w4 [H4 _].
    + eapply (then_processed L_active); [done|]. apply yields_ret, R3.
  - apply received_processed; [done..|]. intros w1 H1 C1 T1. apply (ready_then pcb); [stable_tac|done|]. intros fin w2 R2. destruct fin.
    + eapply (then_processed L_tw); [done|]. apply (ready_then pcb); [stable_tac|done|]. intros [] w4 R4. by apply ready_time_wait.
    + eapply (then_processed L_active); [done|]. apply yields_ret, R2.
  - apply received_processed; [done..|]. intros w1 H1 C1 T1. apply (ready_then pcb); [stable_tac|done|]. intros acked w2 R2. destruct acked.
    + eapply (then_processed L_tw); [done|]. by apply ready_time_wait.
    + eapply (then_processed L_active); [done|]. apply yields_ret, R2.
  - apply received_processed; [done..|]. intros w1 H1 C1 T1. apply (ready_then pcb); [stable_tac|done|]. intros acked w2 R2.
    eapply (then_processed L_active); [done|]. destruct acked; [apply set_flag_processing, R2|apply yields_ret, R2].
Qed.
Lemma process_processed pcb w : ready pcb (part_get w) → yields (tcp_process pcb) w (λ e w', processed pcb e (part_get w')).
Proof.
  intros Hr. apply yields_bind, yields_gets_lift. case_match; [apply rst_processed, Hr|].
  apply yields_bind, yields_ask_lift. intros c _. case_match.
  - eapply (same_processed L_active); [done|stable_tac|apply Hr].
  - apply yields_bind, yields_gets_lift. apply (ready_then pcb); [stable_tac|done|]. intros [] w1 R1.
    apply (ready_then pcb); [stable_tac|done|]. intros [] w2 R2. by apply state_processed.
Qed.

(** ** After the segment *)

(** The lists are well formed, with no exception. *)
Definition settled t : Prop := tcp_ok_but (λ _, False) t.
Lemma settled_same t t' : same_tcp t t' → settled t → settled t'.
Proof. apply same_tcp_ok. Qed.
Lemma settled_ok t : settled t → tcp_ok t.
Proof. by apply tcp_ok_ex_mono. Qed.
Lemma ok_settled ex t : tcp_ok_but ex t → (∀ l, ex l → gone l t) → settled t.
Proof.
  intros [N O H L C F] Hg. split; try done. intros l b k Hl Hh. destruct (H l b k Hl Hh) as [Hin|He]; [by left|].
  apply Hg in He. unfold gone in He. congruence.
Qed.
Lemma told_settled i k pcb t : told (Some i) k pcb ERR_ABRT t → i = pcb → settled t.
Proof. intros (Hok & Hi & Hg) ->. apply (ok_settled (input_of t)); [done|]. intros l [Hl _]. simplify_eq. congruence. Qed.
Lemma open_settled t : tcp_ok t → ¬ input_closed t → settled t.
Proof. intros Hok Hc. apply (ok_settled (input_of t)); [done|]. by intros l [_ ?]. Qed.
Lemma idle_settled t : tcp_ok t → tcp_input_pcb t = None → settled t.
Proof. intros Hok Hi. apply (ok_settled (input_of t)); [done|]. intros l [Hl _]. congruence. Qed.

Lemma bit_test f k : 0 ≤ k → has_bits f (2 ^ k) = Z.testbit f k.
Proof.
  intros Hk. unfold has_bits. rewrite Z.land_comm, Z.land_comm. destruct (Z.testbit f k) eqn:E.
  - apply negb_true_iff, Z.eqb_neq. intros H. apply (f_equal (λ z, Z.testbit z k)) in H.
    rewrite Z.land_spec, E, Z.pow2_bits_true, Z.bits_0 in H by done. done.
  - apply negb_false_iff, Z.eqb_eq. apply Z.bits_inj'. intros n Hn. rewrite Z.land_spec, Z.bits_0.
    destruct (decide (n = k)) as [->|Hne]; [by rewrite E|]. rewrite Z.pow2_bits_false by done. apply andb_false_r.
Qed.
Lemma has_closed t : has_bits (recv_flags t) TF_CLOSED = true ↔ input_closed t.
Proof. unfold input_closed. by rewrite <- (bit_test (recv_flags t) 4). Qed.
Lemma has_reset t : has_bits (recv_flags t) TF_RESET = true ↔ input_reset t.
Proof. unfold input_reset. by rewrite <- (bit_test (recv_flags t) 3). Qed.

(** A connection that [tcp_input] frees. *)
Lemma free_settled ex pcb w : tcp_ok_but ex (part_get w) → (∀ l, ex l → l = pcb) → alive L_active pcb (part_get w) → is_there pcb (part_get w) →
  yields (do! tcp_pcb_remove L_active pcb; tc (tcp_free pcb)) w (λ _ w', settled (part_get w')).
Proof.
  intros Hw Hex [_ Ha] [c Hc]. eapply yields_then; [eapply (pcb_remove_yields ex)|].
  { exact Hw. } { exact (conn_on _ _ _ _ _ Hw Hc (Ha c Hc)). }
  intros [] w1 Hr. apply (yields_part _ _ (λ _, settled)). eapply yields_mono.
  { eapply (freed_ok ex pcb (part_get w)); [exact Hw|exact Hr|apply free_yields|left; by eapply conn_not_listening]. }
  intros [] t (H & _ & Hd). apply (ok_settled ex); [done|]. intros l ->%Hex. apply Hd.
Qed.
Lemma delayed_close_yields ex k pcb w : tcp_ok_but ex (part_get w) → (∀ l, ex l → l = pcb) → alive k pcb (part_get w) →
  yields (tcp_input_delayed_close pcb) w (λ closed w', if closed : bool then settled (part_get w') else w' = w ∧ ¬ input_closed (part_get w)).
Proof.
  intros Hw Hex Ha. apply yields_bind, yields_gets_lift. destruct (has_bits _ TF_CLOSED) eqn:E.
  2: { apply yields_ret. split; [done|]. rewrite <- has_closed. congruence. }
  apply has_closed in E. destruct Ha as [[->|(_ & ? & _)] Ha]; [|done]. apply yields_bind, yields_ask_lift. intros c Hc%get_tcp_val.
  eapply (stable_then same_w); [unfold TCP_EVENT_ERR; stable_tac|]. intros [] w1 S1.
  apply (yields_bind_assoc' _ (tc (tcp_free pcb))). eapply yields_then.
  { apply (free_settled ex); [by eapply same_tcp_ok|done|by eapply alive_same; [exact S1|split; [by left|]]|].
    eapply same_there; [exact S1|]. by exists c. }
  intros [] w2 H2. by apply yields_ret.
Qed.

Lemma told_then k pcb err w (f : M W bool) : told (Some pcb) k pcb err (part_get w) →
  (processing k pcb (part_get w) → yields f w (λ ok w', if ok : bool then processing k pcb (part_get w') else settled (part_get w'))) →
  yields (if is_abrt err then ret false else f) w (λ ok w', if ok : bool then processing k pcb (part_get w') else settled (part_get w')).
Proof.
  intros Ht Hf. destruct (is_abrt err) eqn:E.
  - apply yields_ret. destruct err; try done. by eapply told_settled.
  - apply Hf. destruct Ht as (? & ? & Ha). rewrite E in Ha. by split.
Qed.
Lemma report_yields fuel k pcb : ∀ n w, processing k pcb (part_get w) →
  yields (report_acked fuel pcb n) w (λ ok w', if ok : bool then processing k pcb (part_get w') else settled (part_get w')).
Proof.
  induction fuel as [|fuel IH]; intros n w Hp; cbn [report_acked]; [done|]. case_match; [by apply yields_ret|]. cbv zeta.
  eapply yields_then; [by apply sent_told|]. intros err w1 H1.
  assert (∀ (x y : M W bool), (match err with ERR_ABRT => x | _ => y end) = if is_abrt err then x else y) as -> by by destruct err.
  eapply told_then; [exact H1|]. by apply IH.
Qed.
Lemma sent_yields k pcb w : processing k pcb (part_get w) →
  yields (tcp_input_sent pcb) w (λ ok w', if ok : bool then processing k pcb (part_get w') else settled (part_get w')).
Proof.
  intros Hp. apply yields_bind, yields_gets_lift. case_match; [|by apply yields_ret].
  eapply yields_then; [by apply report_yields|]. intros ok w1 H1. simpl in H1.
  eapply (stable_then same_w); [stable_tac|]. intros [] w2 S2. apply yields_ret.
  destruct ok; [by eapply processing_same|by eapply settled_same].
Qed.
Lemma recv_yields fuel k pcb : ∀ w, processing k pcb (part_get w) →
  yields (tcp_input_recv fuel pcb) w (λ ok w', if ok : bool then processing k pcb (part_get w') else settled (part_get w')).
Proof.
  induction fuel as [|fuel IH]; intros w Hp; cbn [tcp_input_recv]; [done|]. apply yields_bind, yields_gets_lift.
  destruct (recv_data _) as [p|]; [|by apply yields_ret]. eapply (stable_then same_w); [stable_tac|]. intros rest w1 S1.
  apply yields_bind, yields_ask_lift. intros c _. apply yields_bind, yields_assert. intros _. cbv zeta.
  pose proof (processing_same _ _ _ _ S1 Hp) as H1. case_match.
  - eapply (stable_then same_w); [stable_tac|]. intros ? w2 S2. eapply (stable_then same_w); [stable_tac|]. intros [] w3 S3.
    assert (processing k pcb (part_get w3)) as (H3 & Hi3 & _) by (do 2 (eapply processing_same; [eassumption|]); exact H1).
    eapply yields_then; [apply yields_and; [by apply abandon_gone|apply yields_and; [by apply ok_abort|apply kept_abort]]|].
    intros [] w4 (Hg & H4 & E4 & _). apply yields_ret. apply (told_settled pcb k pcb); [|done]. split; [done|]. split; [congruence|done].
  - eapply yields_then; [by apply recv_told|]. intros err w2 H2. destruct (is_abrt err) eqn:E.
    + destruct err; try done. eapply (stable_then same_w); [stable_tac|]. intros [] w3 S3. apply yields_ret.
      eapply settled_same; [exact S3|by eapply told_settled].
    + assert (processing k pcb (part_get w2)) as Hp2 by (destruct H2 as (? & ? & Ha); rewrite E in Ha; by split).
      assert (yields (do! tc (refuse_data pcb (Some p) rest); ret true) w2
        (λ ok w', if ok : bool then processing k pcb (part_get w') else settled (part_get w'))) as Hrefuse.
      { eapply (stable_then same_w); [unfold refuse_data; stable_tac|]. intros [] w3 S3. apply yields_ret. by eapply processing_same. }
      destruct err; try exact Hrefuse; [|done]. eapply (stable_then same_w); [stable_tac|]. intros [] w3 S3. apply IH. by eapply processing_same.
Qed.
Lemma fin_yields k pcb w : processing k pcb (part_get w) →
  yields (tcp_input_fin pcb) w (λ ok w', if ok : bool then processing k pcb (part_get w') else settled (part_get w')).
Proof.
  intros Hp. eapply (stable_then same_w); [stable_tac|]. intros fin w1 S1. pose proof (processing_same _ _ _ _ S1 Hp) as H1.
  destruct fin; [|by apply yields_ret]. apply yields_bind, yields_ask_lift. intros c _. destruct (tp_refused_data c).
  - eapply (stable_then same_w); [stable_tac|]. intros [] w2 S2. apply yields_ret. by eapply processing_same.
  - eapply (stable_then same_w); [stable_tac|]. intros [] w2 S2. eapply yields_then; [apply closed_told; by eapply processing_same|].
    intros err w3 H3. apply yields_ret. destruct (is_abrt err) eqn:E; simpl; [destruct err; try done; by eapply told_settled|].
    destruct H3 as (? & ? & Ha). rewrite E in Ha. by split.
Qed.

Lemma yields_ok (m : M W bool) (f : M W unit) w k pcb :
  yields m w (λ ok w', if ok : bool then processing k pcb (part_get w') else settled (part_get w')) →
  (∀ w', processing k pcb (part_get w') → yields f w' (λ _ w', settled (part_get w'))) →
  yields (let! ok := m in if negb ok then ret tt else f) w (λ _ w', settled (part_get w')).
Proof. intros Hm Hf. eapply yields_then; [exact Hm|]. intros [] w1 H1; [by apply Hf|by apply yields_ret]. Qed.
Lemma input_of_only pcb t l : tcp_input_pcb t = Some pcb → input_of t l → l = pcb.
Proof. intros Hi [Hl _]. congruence. Qed.
Lemma finish_yields k pcb w : processing k pcb (part_get w) → yields (tcp_input_finish pcb) w (λ _ w', settled (part_get w')).
Proof.
  intros Hp. eapply yields_ok; [by apply sent_yields|]. intros w1 H1.
  eapply yields_then; [eapply (delayed_close_yields _ k pcb); [apply H1|intros l; apply input_of_only, H1|apply H1]|].
  intros [] w2 H2; [by apply yields_ret|]. destruct H2 as [-> _]. eapply (stable_then same_w); [stable_tac|]. intros fuel w2 S2.
  eapply yields_ok; [apply recv_yields; by eapply processing_same|]. intros w3 H3. eapply yields_ok; [by apply fin_yields|]. intros w4 H4.
  set (t4 := part_get w4) in *. eapply yields_tc; [apply (yields_modify _ _ (λ _ t, t = t4 <| tcp_input_pcb := None |>)); done|].
  intros [] w5 E5. assert (tcp_ok_but (input_of t4) (part_get w5)) as H5 by (rewrite E5; destruct H4 as ([N O H L C F] & _); by split).
  eapply yields_then; [eapply (delayed_close_yields (input_of t4) k pcb); [exact H5|intros l; apply input_of_only, H4|]|].
  { rewrite E5. destruct H4 as (_ & _ & Ha). exact Ha. }
  intros [] w6 H6; [by apply yields_ret|]. destruct H6 as [-> Hc]. eapply (stable_then same_w); [apply same_output|]. intros e w7 S7.
  apply yields_ret. eapply settled_same; [exact S7|]. apply (ok_settled (input_of t4)); [exact H5|]. intros l [_ Hcl].
  destruct Hc. rewrite E5. exact Hcl.
Qed.

(** ** A segment of a connection *)

Lemma refused_told fuel i k pcb : ∀ w, held i k pcb (part_get w) →
  yields (process_refused_loop fuel pcb) w (λ e w', told i k pcb e (part_get w')).
Proof.
  induction fuel as [|fuel IH]; intros w Hp; cbn [process_refused_loop]; [done|]. apply yields_bind, yields_ask_lift. intros c _.
  destruct (tp_refused_data c) as [p|]; [|by apply yields_ret]. eapply (stable_then same_w); [stable_tac|]. intros q w1 S1.
  eapply (stable_then same_w); [stable_tac|]. intros rest w2 S2. eapply (stable_then same_w); [stable_tac|]. intros [] w3 S3.
  eapply yields_then; [apply recv_told; do 3 (eapply held_same; [eassumption|]); exact Hp|]. intros err w4 H4.
  destruct (is_abrt err) eqn:E; [destruct err; try done; by apply yields_ret|].
  assert (held i k pcb (part_get w4)) as Hp4 by (destruct H4 as (? & ? & Ha); rewrite E in Ha; by split).
  assert (yields (
    do! match rest with None => ret tt | Some _ => st (pbuf_cat (Some p) rest) end;
    do! tc (update_tcp pcb (λ c, c <| tp_refused_data := Some p |>)); ret ERR_INPROGRESS) w4 (λ e w', told i k pcb e (part_get w'))) as Hrest.
  { eapply (stable_then same_w); [stable_tac|]. intros [] w5 S5. eapply (stable_then same_w); [stable_tac|]. intros [] w6 S6.
    apply yields_ret. do 2 (eapply held_same; [eassumption|]). exact Hp4. }
  destruct err; try exact Hrest; [|done]. destruct (_ && _); [|by apply IH].
  eapply (stable_then same_w); [stable_tac|]. intros [] w5 S5. eapply yields_then; [apply closed_told; by eapply held_same|].
  intros err w6 H6. destruct (is_abrt err) eqn:E6; [destruct err; try done; by apply yields_ret|].
  assert (held i k pcb (part_get w6)) as Hp6 by (destruct H6 as (? & ? & Ha); rewrite E6 in Ha; by split).
  destruct err; try done; by apply IH.
Qed.

Definition idle t : Prop := tcp_input_pcb t = None.
Lemma calm_kept t t' : input_kept t t' → idle t → calm t → calm t'.
Proof. unfold calm, idle. intros (_ & R & _ & N) Hi. specialize (N Hi). tauto. Qed.
Lemma refused_yields pcb w : held None L_active pcb (part_get w) → calm (part_get w) →
  yields (tcp_input_refused pcb) w (λ go w', held None L_active pcb (part_get w') ∧ calm (part_get w') ∧ (go = true → is_there pcb (part_get w'))).
Proof.
  intros Hp Hcalm. apply yields_bind, yields_ask_lift. intros c Hc%get_tcp_val. destruct (tp_refused_data c).
  2: { apply yields_ret. split_and!; [done..|by exists c]. }
  eapply yields_then.
  { apply yields_and; [|exact (kept_process_refused_data (Some pcb) w)].
    apply yields_bind, yields_valid_ptr. intros l' [= <-]. eapply (stable_then same_w); [stable_tac|]. intros f w1 S1.
    apply (refused_told _ None L_active). by eapply held_same. }
  intros err w1 [H1 K1]. assert (calm (part_get w1)) as C1 by (eapply calm_kept; [exact K1|apply Hp|done]).
  apply (yields_then _ _ _ (λ drop w', held None L_active pcb (part_get w') ∧ calm (part_get w') ∧ is_there pcb (part_get w') ∨ drop = true ∧ gone pcb (part_get w'))).
  { destruct H1 as (Hok & Hi & Ha). destruct (is_abrt err); [apply yields_ret; by right|].
    apply yields_bind, yields_ask_lift. intros c1 Hc1%get_tcp_val. apply yields_bind, yields_gets_lift, yields_ret. left.
    split_and!; [by split|done|by exists c1]. }
  intros drop w2 H2. assert (∀ c, tcp_mem (part_get w2) !! pcb = Some (Conn_pcb c) → drop = true ∨ drop = false →
    held None L_active pcb (part_get w2) ∧ calm (part_get w2) ∧ is_there pcb (part_get w2)) as Hthere.
  { intros c2 Hc2 _. destruct H2 as [?|[_ Hg]]; [done|]. unfold gone in Hg. congruence. }
  destruct drop.
  - apply yields_bind, yields_ask_lift. intros c2 Hc2%get_tcp_val. destruct (Hthere c2 Hc2) as (H3 & C3 & _); [by left|].
    eapply (stable_then same_w); [stable_tac|]. intros [] w3 S3. apply yields_ret. split_and!; [by eapply held_same|eapply calm_same; [apply S3|done]|done].
  - destruct H2 as [(H3 & C3 & T3)|[? _]]; [|done]. by apply yields_ret.
Qed.
End input.
