(* ===== verification/TcpInput.v ===== *)
(** * TCP: a segment, from [tcp_input] to its connection

    The connection or listener a segment goes to, a listener's answer to a SYN,
    and what [tcp_input] as a whole keeps. *)

From S2P Require Import Prelude Mbox Heap HeapFacts Pbuf Frame Def Chksum Addr Timeouts Header Ip4 Tcp TcpOut TcpSend TcpIn TcpTmr TcpFrame TcpOutFrame TcpInFrame TcpLists TcpCalls TcpOpen TcpKept TcpInCalls.

Implicit Types t : tstate.

(** ** Moving a block to the front *)

Lemma remove_pcb_perm l k : NoDup k → l ∈ k → l :: remove_pcb l k ≡ₚ k.
Proof.
  intros Hnd Hl. apply NoDup_Permutation.
  - constructor; [|by apply remove_pcb_nodup]. rewrite remove_pcb_in by done. tauto.
  - done.
  - intros a. rewrite elem_of_cons, remove_pcb_in by done. destruct (decide (a = l)); naive_solver.
Qed.
(** The order of a list is no matter. *)
Lemma tcp_ok_perm ex k l t : tcp_ok_but ex t → l ≡ₚ pcbs_of k t → tcp_ok_but ex (set_pcbs k l t).
Proof.
  intros [N O H L C F] Hl. assert (∀ k' a, a ∈ pcbs_of k' (set_pcbs k l t) ↔ a ∈ pcbs_of k' t) as E.
  { intros k' a. rewrite pcbs_of_set. case_decide; [subst; by rewrite Hl|done]. }
  assert (tcp_mem (set_pcbs k l t) = tcp_mem t) as Em by by destruct k.
  split.
  - intros k'. rewrite pcbs_of_set. case_decide; [by rewrite Hl|apply N].
  - intros k' a Ha%E. rewrite Em. by apply O.
  - intros a b k' Ha Hh. rewrite E. rewrite Em in Ha. by eapply H.
  - intros k' a lp Ha%E Hlp. unfold listener_of in Hlp. rewrite Em in Hlp. apply (E L_listen). by eapply L.
  - intros a b Ha. rewrite Em in Ha. exact (C a b Ha).
  - intros a Ha. rewrite Em in Ha. unfold next_block. replace (t_ip (set_pcbs k l t)) with (t_ip t) by by destruct k. by apply F.
Qed.
Lemma to_front_yields k l t : settled t → l ∈ pcbs_of k t →
  yields (to_front k l) t (λ _ t', settled t' ∧ l ∈ pcbs_of k t' ∧ tcp_input_pcb t' = tcp_input_pcb t).
Proof.
  intros Ht Hl. apply yields_modify. split_and!.
  - apply tcp_ok_perm; [done|]. apply remove_pcb_perm; [apply Ht|done].
  - rewrite pcbs_of_set, decide_True by done. by left.
  - by destruct k.
Qed.

(** ** Finding the connection *)

(** A block found is one of the list, and finding it changes nothing. *)
Definition found (l : list loc) t (r : option loc) t' : Prop := t' = t ∧ ∀ pcb, r = Some pcb → pcb ∈ l.
Lemma found_step a l t (m : bool) (f : M tstate (option loc)) : yields f t (found l t) →
  yields (if m then ret (Some a) else f) t (found (a :: l) t).
Proof.
  intros Hf. destruct m; [apply yields_ret; split; [done|]; intros ? [= <-]; by left|].
  eapply yields_mono; [exact Hf|]. intros r t' [-> H]. split; [done|]. intros pcb Hr. right. by apply H.
Qed.
Ltac find_tac l := induction l; simpl; [by apply yields_ret|];
  repeat (apply yields_bind; first [apply yields_ask; intros | apply yields_assert; intros]); by apply found_step.
Lemma find_active_yields src dest l t : yields (find_active src dest l) t (found l t).
Proof. find_tac l. Qed.
Lemma find_tw_yields src dest l t : yields (find_tw src dest l) t (found l t).
Proof. find_tac l. Qed.
Lemma find_listen_yields dest l t : yields (find_listen dest l) t (found l t).
Proof. find_tac l. Qed.
(** Where the segment goes, and that nothing but an order of a list changes. *)
Lemma demux_yields src dest t : settled t → idle t →
  yields (tcp_demux src dest) t (λ to t', settled t' ∧ idle t' ∧
    match to with
    | To_active pcb => pcb ∈ tcp_active_pcbs t' | To_tw pcb => pcb ∈ tcp_tw_pcbs t'
    | To_listen lpcb => lpcb ∈ tcp_listen_pcbs t' | To_none => True
    end).
Proof.
  intros Ht Hi. apply yields_bind, yields_gets. cbv beta. eapply yields_then; [apply find_active_yields|]. intros r t' [-> Hr].
  destruct r as [pcb|].
  { eapply yields_then; [apply (to_front_yields L_active); [done|by apply Hr]|]. intros [] t1 (H1 & Hin & E). apply yields_ret.
    split_and!; [done| |done]. unfold idle in *. congruence. }
  eapply yields_then; [apply find_tw_yields|]. intros r t' [-> Hr2]. destruct r as [pcb|]; [apply yields_ret; split_and!; [done..|by apply Hr2]|].
  eapply yields_then; [apply find_listen_yields|]. intros r t' [-> Hr3]. destruct r as [pcb|]; [|by apply yields_ret].
  eapply yields_then; [apply (to_front_yields L_listen); [done|by apply Hr3]|]. intros [] t1 (H1 & Hin & E). apply yields_ret.
  split_and!; [done| |done]. unfold idle in *. congruence.
Qed.

Section input.
Context {W : Type} `{!Part tstate W} `{!netif_driver W} `{!tcp_client W} `{!Part timeouts W} `{!timer_client W} `{!Apart tstate timeouts W}.
Context `{!netif_driver_keeps W} `{!tcp_client_keeps W} `{!tcp_client_kept W} `{!tcp_client_input W}.
Implicit Types w : W.
#[local] Hint Resolve tcp_out_lwip_keeps same_output same_send_empty_ack : stable.

Abbreviation tc m := (lift (P := tstate) (S := W) m).

(** ** A segment of a connection *)

Definition at_rest t : Prop := settled t ∧ idle t.
Lemma at_rest_same t t' : same_tcp t t' → at_rest t → at_rest t'.
Proof. intros S [H Hi]. split; [by eapply settled_same|]. destruct (same_input _ _ S) as (E & _). unfold idle in *. congruence. Qed.
Lemma at_rest_held pcb t : at_rest t → alive L_active pcb t → held None L_active pcb t.
Proof. intros [H Hi] Ha. split_and!; [by apply settled_ok|done|done]. Qed.
Lemma active_alive pcb t : settled t → pcb ∈ tcp_active_pcbs t → alive L_active pcb t.
Proof.
  intros H Hin. apply alive_active. intros c Hc. pose proof (tk_belongs _ _ L_active _ _ H Hin Hc) as Hb. exact Hb.
Qed.

Lemma process_yields pcb w : ready pcb (part_get w) →
  yields (
    let! err := tcp_process pcb in
    if is_abrt err then ret tt else
    let! reset := tc (gets (λ t, has_bits (recv_flags t) TF_RESET)) in
    if reset then
      let! c := tc (ask (λ t, get_tcp t pcb)) in
      do! TCP_EVENT_ERR (tp_errf c) (tp_callback_arg c) ERR_RST;
      do! tcp_pcb_remove L_active pcb;
      tc (tcp_free pcb)
    else tcp_input_finish pcb) w (λ _ w', settled (part_get w')).
Proof.
  intros Hr. eapply yields_then; [by apply process_processed|]. intros err w1 (H1 & Hi1 & Ha1). destruct (is_abrt err) eqn:E.
  { apply yields_ret. apply (ok_settled (input_of (part_get w1))); [done|]. intros l Hl. by rewrite (input_of_only pcb _ _ Hi1 Hl). }
  destruct Ha1 as [k Ha1]. apply yields_bind, yields_gets_lift. destruct (has_bits _ TF_RESET) eqn:Er; [|apply (finish_yields k); by split].
  apply has_reset in Er. destruct Ha1 as [[->|(_ & _ & ?)] Ha1]; [|done]. apply yields_bind, yields_ask_lift. intros c Hc%get_tcp_val.
  eapply (stable_then same_w); [unfold TCP_EVENT_ERR; stable_tac|]. intros [] w2 S2.
  apply (free_settled (input_of (part_get w1))).
  - by eapply same_tcp_ok.
  - intros l. by apply input_of_only.
  - eapply alive_same; [exact S2|]. by split; [left|].
  - eapply same_there; [exact S2|]. by exists c.
Qed.

(** Changes of the variables that say which connection is processed. *)
Lemma settled_vars t t' : (∀ k, pcbs_of k t' = pcbs_of k t) → tcp_mem t' = tcp_mem t → t_ip t' = t_ip t → settled t → settled t'.
Proof.
  intros El Em En [N O H L C F]. pose proof (El L_listen) as Els. simpl in Els. unfold settled.
  split; unfold next_block, listener_of; intros; rewrite ?El, ?Em, ?En, ?Els in *; eauto.
Qed.

Lemma active_yields p pcb w : at_rest (part_get w) → pcb ∈ tcp_active_pcbs (part_get w) →
  yields (tcp_input_active p pcb) w (λ _ w', at_rest (part_get w')).
Proof.
  intros Hw Hin. eapply (stable_then same_w); [stable_tac|]. intros n w1 S1. eapply (stable_then same_w); [stable_tac|]. intros [] w2 S2.
  assert (same_tcp (part_get w) (part_get w2)) as S by (by etrans). pose proof (at_rest_same _ _ S Hw) as H2.
  assert (pcb ∈ tcp_active_pcbs (part_get w2)) as Hin2 by (change (pcb ∈ pcbs_of L_active (part_get w2)); rewrite (same_lists _ _ S); exact Hin). clear S S1 S2 w1 Hw Hin.
  set (t2 := part_get w2) in *. eapply yields_tc; [apply (yields_modify _ _ (λ _ t, t = t2 <| recv_flags := 0 |>)); done|].
  intros [] w3 E3. assert (at_rest (part_get w3)) as H3.
  { rewrite E3. split; [|exact (proj2 H2)]. by apply (settled_vars t2); [..|apply H2]. }
  assert (calm (part_get w3)) as C3 by by rewrite E3.
  assert (alive L_active pcb (part_get w3)) as A3 by (apply active_alive; [apply H3|by rewrite E3]).
  apply yields_bind, yields_gets_lift. eapply (stable_then same_w); [stable_tac|]. intros [] w4 S4.
  eapply yields_then; [apply refused_yields|].
  { eapply held_same; [exact S4|]. by apply at_rest_held. }
  { eapply calm_same; [apply S4|done]. }
  intros go w5 ((H5 & Hi5 & A5) & C5 & T5). eapply (yields_then _ _ _ (λ _ w', settled (part_get w'))).
  { destruct go; [|by apply yields_ret, idle_settled]. set (t5 := part_get w5) in *.
    eapply yields_tc; [apply (yields_modify _ _ (λ _ t, t = t5 <| tcp_input_pcb := Some pcb |>)); done|]. intros [] w6 E6.
    apply process_yields. rewrite E6. split_and!; [|exact C5|by apply T5]. split_and!; [|done|exact A5].
    apply settled_ok, (settled_vars t5); [done..|by apply idle_settled]. }
  intros [] w6 H6. set (t6 := part_get w6) in *.
  eapply yields_tc; [apply (yields_modify _ _ (λ _ t, t = t6 <| tcp_input_pcb := None |>)); done|]. intros [] w7 E7.
  assert (at_rest (part_get w7)) as H7 by (rewrite E7; split; [by apply (settled_vars t6)|done]).
  eapply (stable_keeps same_w); [stable_tac| |exact H7]. intros s s'. apply at_rest_same.
Qed.

(** ** A SYN for a listener *)

Lemma same_new_conn l t t' : same_tcp t t' → new_conn l t → new_conn l t'.
Proof.
  intros S (Hoff & c & Hc & Hs & Hl). split; [by eapply same_off|]. destruct (same_conn _ _ _ _ S Hc) as (c' & Hc' & E). exists c'.
  unfold conn_sig in E. split_and!; [done|congruence|]. destruct (tp_listener c') as [lp|] eqn:El; [|done].
  pose proof (same_listener _ _ S l lp) as H. unfold listener_of in H. rewrite Hc', Hc in H. simpl in H. rewrite Hl in H. by specialize (H El).
Qed.
(** The new connection goes on the list of the active ones. *)
Lemma syn_linked npcb lpcb l t0 c f dest src iss w :
  at_rest (part_get w) → new_conn npcb (part_get w) → tcp_mem (part_get w) !! lpcb = Some (Listen_pcb l) →
  f = syn_received c lpcb t0 dest src iss →
  yields (do! tc (update_tcp npcb f); TCP_REG_ACTIVE npcb) w (λ _ w', tcp_ok (part_get w')).
Proof.
  intros [H Hi] (Hoff & x & Hx & Hs & Hn) Hl ->. set (t := part_get w) in *. set (b := Conn_pcb (syn_received c lpcb t0 dest src iss x)).
  eapply yields_tc; [apply (yields_update_tcp _ _ _ (λ _ t', t' = put_blk npcb b t)); intros c' Hc'; fold t in Hc'; rewrite Hx in Hc'; by injection Hc' as <-|].
  intros [] w1 E1. eapply yields_then; [apply reg_yields|]. intros [] w2 (_ & E2).
  apply (yields_part _ _ (λ _, tcp_ok)), yields_modify, tcp_ok_changed. rewrite E2.
  assert (lpcb ∈ tcp_listen_pcbs t) as Hin.
  { pose proof (tk_home _ _ H lpcb (Listen_pcb l) L_listen Hl eq_refl) as H1. by destruct H1. }
  apply (linked_ok (λ _, False) _ L_active npcb t (part_get w1) b); try done.
  - rewrite E1. apply others_put.
  - by rewrite E1.
  - rewrite E1. apply lookup_insert_eq.
  - intros lp [= <-]. split; [done|]. by rewrite E1.
  - by right.
  - rewrite E1. apply (tk_fresh _ _ H). by eexists.
  - by eapply conn_not_listening.
Qed.

Lemma ok_answer_syn npcb : ok_step (answer_syn npcb).
Proof.
  do 5 (refine (ok_bind _ _ _ _); [apply ok_same; stable_tac|intros ?]). case_match; [apply ok_abandon|apply ok_same; stable_tac].
Qed.
Lemma kept_accept_syn lpcb : stable kept_w (accept_syn lpcb).
Proof. unfold accept_syn, answer_syn. stable_tac. Qed.
Lemma accept_syn_yields lpcb w : at_rest (part_get w) → yields (accept_syn lpcb) w (λ _ w', tcp_ok (part_get w')).
Proof.
  intros [H Hi]. pose proof (settled_ok _ H) as Hw. apply yields_bind, yields_ask_lift. intros l _. case_match; [by apply yields_ret|].
  eapply yields_then; [apply yields_and; [by apply alloc_yields|exact (kept_alloc _ w)]|]. intros r w1 [[H1 Hr] (Ei & _)].
  assert (idle (part_get w1)) as Hi1 by (unfold idle in *; congruence).
  destruct r as [npcb|]; [|by apply (ok_bind _ _ (ok_ask _) (λ l, ok_bind _ _ (ok_TCP_EVENT_ACCEPT _ _ _ _) (λ _, ok_ret _)))].
  specialize (Hr npcb eq_refl). assert (at_rest (part_get w1)) as R1 by (split; [by apply idle_settled|done]).
  eapply (stable_then same_w); [stable_tac|]. intros [] w2 S2. eapply (stable_then same_w); [stable_tac|]. intros [] w3 S3.
  eapply (stable_then same_w); [stable_tac|]. intros dest w4 S4. eapply (stable_then same_w); [stable_tac|]. intros src w5 S5.
  eapply (stable_then same_w); [stable_tac|]. intros iss w6 S6. assert (same_tcp (part_get w1) (part_get w6)) as S by (do 4 (etrans; [eassumption|]); done).
  apply yields_bind, yields_ask_lift. intros lc Hlc%get_lpcb_val. apply yields_bind, yields_gets_lift.
  apply (yields_bind_assoc' _ (TCP_REG_ACTIVE npcb)). apply (yields_then _ _ _ (λ _ w', tcp_ok (part_get w'))); [|intros [] w7 H7; by apply ok_answer_syn].
  eapply syn_linked; [by eapply at_rest_same|by eapply same_new_conn|exact Hlc|done].
Qed.
Lemma listen_yields lpcb w : at_rest (part_get w) → yields (tcp_listen_input lpcb) w (λ _ w', at_rest (part_get w')).
Proof.
  intros Hw. apply yields_bind, yields_gets_lift. case_match; [by apply yields_ret|]. case_match.
  { eapply (stable_keeps same_w); [stable_tac| |exact Hw]. intros s s'. apply at_rest_same. }
  case_match; [|by apply yields_ret]. eapply yields_mono; [apply yields_and; [by apply accept_syn_yields|exact (kept_accept_syn lpcb w)]|].
  intros [] w1 [Hok (Ei & _)]. destruct Hw as [_ Hi]. assert (idle (part_get w1)) as Hi1 by (unfold idle in *; congruence).
  split; [by apply idle_settled|done].
Qed.

(** [tcp_input] keeps the lists well formed, and is done with the connection when
    it returns. *)
Lemma input_yields p w : tcp_ok (part_get w) → idle (part_get w) → yields (tcp_input p) w (λ _ w', at_rest (part_get w')).
Proof.
  intros Hw Hi. assert (at_rest (part_get w)) as Hr by (split; [by apply idle_settled|done]).
  apply yields_bind, yields_valid_ptr. intros l _. cbv zeta. eapply (stable_then same_w); [stable_tac|]. intros ok w1 S1.
  assert (∀ w', at_rest (part_get w') →
    yields (let! _ := lift (P := tstate) (lift (P := ipstate) (lift (P := store) (pbuf_free p))) in ret tt) w' (λ _ w', at_rest (part_get w'))) as Hdrop.
  { intros w' H'. eapply (stable_keeps same_w); [stable_tac| |exact H']. intros s s'. apply at_rest_same. }
  pose proof (at_rest_same _ _ S1 Hr) as R1. destruct (negb ok); [by apply Hdrop|].
  eapply (stable_then same_w); [stable_tac|]. intros src w2 S2. eapply (stable_then same_w); [stable_tac|]. intros dest w3 S3.
  assert (at_rest (part_get w3)) as [R3 I3] by (do 2 (eapply at_rest_same; [eassumption|]); exact R1).
  eapply yields_tc; [by apply demux_yields|]. intros to w4 (R4 & I4 & Hto). destruct to as [pcb|pcb|lpcb|].
  - by apply active_yields.
  - eapply (stable_then same_w); [stable_tac|]. intros [] w5 S5. apply Hdrop. by eapply at_rest_same.
  - eapply yields_then; [by apply listen_yields|]. intros [] w5 R5. by apply Hdrop.
  - eapply (stable_then same_w); [stable_tac|]. intros v w5 S5. eapply (stable_then same_w); [stable_tac|]. intros [] w6 S6.
    apply Hdrop. do 2 (eapply at_rest_same; [eassumption|]). by split.
Qed.
End input.
