(* ===== verification/TcpApi.v ===== *)
(** * TCP: what holds of every history of calls

    However the functions of [core/tcp.c] are called and whatever segments come in
    at [tcp_input], the four lists stay well formed, and the timers end.
    [tcp_call] lists the functions a client or the stack calls. *)

From S2P Require Import Prelude Mbox Heap HeapFacts Pbuf Frame Chksum Addr Timeouts Header Ip4 Tcp TcpTmr TcpFrame TcpLists TcpCalls TcpOpen TcpTmrFacts TcpSend TcpIn TcpOutFrame TcpInFrame TcpKept TcpInCalls TcpInput Packet Ip4Facts.

Inductive tcp_call :=
  | Call_init (rand : Z) | Call_new (type : Z) | Call_alloc (prio : Z)
  | Call_bind (pcb : option loc) (ipaddr : option Z) (port : Z) | Call_bind_netif (pcb : loc) (netif : bool)
  | Call_listen (pcb : option loc) (backlog : Z) | Call_backlog_set (pcb : loc) (n : Z)
  | Call_connect (pcb : option loc) (ipaddr : option Z) (port : Z) (f : option tcp_connected_fn)
  | Call_arg (pcb a : option loc) | Call_recv (pcb : option loc) (f : option tcp_recv_fn)
  | Call_sent (pcb : option loc) (f : option tcp_sent_fn) | Call_err (pcb : option loc) (f : option tcp_err_fn)
  | Call_accept (pcb : option loc) (f : option tcp_accept_fn) | Call_poll (pcb : option loc) (f : option tcp_poll_fn) (n : Z)
  | Call_setprio (pcb : option loc) (prio : Z) | Call_recved (pcb : option loc) (len : Z)
  | Call_backlog_delayed (pcb : loc) | Call_backlog_accepted (pcb : loc)
  | Call_close (pcb : option loc) | Call_shutdown (pcb : option loc) (rx tx : bool) | Call_abort (pcb : option loc)
  | Call_refused (pcb : option loc) | Call_txnow | Call_tmr (fuel : nat) | Call_addr_changed (old new : Z)
  | Call_input (p : option loc).

Section api.
Context {W : Type} `{!Part tstate W} `{!netif_driver W} `{!tcp_client W} `{!Part timeouts W} `{!timer_client W} `{!Apart tstate timeouts W}.
Context `{!netif_driver_keeps W} `{!tcp_client_keeps W} `{!tcp_client_turns W} `{!tcp_client_kept W} `{!tcp_client_input W}.
Implicit Types w : W.

Abbreviation tc m := (lift (P := tstate) (S := W) m).
Abbreviation void m := (let! _ := m in ret tt).

Definition run_tcp_call (c : tcp_call) : M W unit :=
  match c with
  | Call_init rand => tc (tcp_init rand)
  | Call_new type => void (tcp_new_ip_type type)
  | Call_alloc prio => void (tcp_alloc prio)
  | Call_bind pcb ipaddr port => void (tcp_bind pcb ipaddr port)
  | Call_bind_netif pcb netif => tc (tcp_bind_netif pcb netif)
  | Call_listen pcb backlog => void (tcp_listen_with_backlog pcb backlog)
  | Call_backlog_set pcb n => tc (tcp_backlog_set pcb n)
  | Call_connect pcb ipaddr port f => void (tcp_connect pcb ipaddr port f)
  | Call_arg pcb a => tc (tcp_arg pcb a)
  | Call_recv pcb f => tc (tcp_recv pcb f)
  | Call_sent pcb f => tc (tcp_sent pcb f)
  | Call_err pcb f => tc (tcp_err pcb f)
  | Call_accept pcb f => tc (tcp_accept pcb f)
  | Call_poll pcb f n => tc (tcp_poll pcb f n)
  | Call_setprio pcb prio => tc (tcp_setprio pcb prio)
  | Call_recved pcb len => tcp_recved pcb len
  | Call_backlog_delayed pcb => tc (tcp_backlog_delayed pcb)
  | Call_backlog_accepted pcb => tc (tcp_backlog_accepted pcb)
  | Call_close pcb => void (tcp_close pcb)
  | Call_shutdown pcb rx tx => void (tcp_shutdown pcb rx tx)
  | Call_abort pcb => tcp_abort pcb
  | Call_refused pcb => void (tcp_process_refused_data pcb)
  | Call_txnow => tcp_txnow
  | Call_tmr fuel => tcp_tmr fuel
  | Call_addr_changed old new => tcp_netif_ip_addr_changed old new
  | Call_input p => TcpIn.tcp_input p
  end.

(** What [tcp_bind] asks of its caller and does not check: that the block is not
    bound yet.  The other calls ask nothing. *)
Definition call_allowed (c : tcp_call) (t : tstate) : Prop :=
  match c with Call_bind pcb _ _ => unbound pcb t | _ => True end.
(** The calls, and what the rest of the stack does to its own state. *)
Inductive tcp_step : W → W → Prop :=
  | tcp_step_call c w w' : call_allowed c (part_get w) → run_tcp_call c w = Val (tt, w') → tcp_step w w'
  | tcp_step_stack w w' : same_tcp (part_get w) (part_get w') → tcp_step w w'.

Lemma ok_discard {A} (m : M W A) : ok_step m → ok_step (void m).
Proof. intros Hm. apply ok_bind; [done|]. intros a. apply ok_ret. Qed.
Lemma ok_part (m : M tstate unit) : stable same_tcp m → ok_step (tc m).
Proof. intros Hm. apply ok_same. by apply stable_part. Qed.

Definition is_input (c : tcp_call) : bool := match c with Call_input _ => true | _ => false end.
Lemma run_tcp_call_ok c w : is_input c = false → call_allowed c (part_get w) → tcp_ok (part_get w) →
  yields (run_tcp_call c) w (λ _ w', tcp_ok (part_get w')).
Proof.
  intros Hc Ha. destruct (match c with Call_bind _ _ _ => true | _ => false end) eqn:Hb.
  { destruct c; try discriminate Hb. intros Hw. simpl in Ha |- *. eapply yields_then; [by apply bind_yields|].
    intros e w' H. by apply yields_ret. }
  revert w Ha. cut (ok_step (run_tcp_call c)); [intros H w _; apply H|].
  destruct c; try discriminate Hc; try discriminate Hb; simpl.
  - intros w Hw. apply (yields_part _ _ (λ _, tcp_ok)), yields_modify. by destruct Hw.
  - apply ok_discard, ok_alloc.
  - apply ok_discard, ok_alloc.
  - apply ok_part. unfold tcp_bind_netif. stable_tac.
  - apply ok_discard, ok_listen_with_backlog.
  - apply ok_part. unfold tcp_backlog_set. stable_tac.
  - apply ok_discard, ok_connect_call.
  - apply ok_part. unfold tcp_arg. stable_tac.
  - apply ok_part. unfold tcp_recv, set_callback. stable_tac.
  - apply ok_part. unfold tcp_sent, set_callback. stable_tac.
  - apply ok_part. unfold tcp_err, set_callback. stable_tac.
  - apply ok_part. unfold tcp_accept. stable_tac.
  - apply ok_part. unfold tcp_poll, set_callback. stable_tac.
  - apply ok_part. unfold tcp_setprio. stable_tac.
  - apply ok_same, same_recved.
  - apply ok_part. stable_tac.
  - apply ok_part. stable_tac.
  - apply ok_discard, ok_close.
  - apply ok_discard, ok_shutdown.
  - apply ok_abort.
  - apply ok_discard, ok_process_refused_data.
  - apply ok_txnow.
  - apply ok_tmr.
  - apply ok_netif_ip_addr_changed.
Qed.
#[local] Hint Resolve tcp_out_lwip_keeps same_recved : stable.
Lemma run_tcp_call_kept c : is_input c = false → stable kept_w (run_tcp_call c).
Proof.
  destruct c; intros Hc; try discriminate Hc; cbn [run_tcp_call]; unfold tcp_init, tcp_bind_netif, tcp_backlog_set, tcp_arg, tcp_recv, tcp_sent,
    tcp_err, tcp_accept, tcp_poll, set_callback, tcp_setprio, tcp_new_ip_type; stable_tac; done.
Qed.
Lemma tcp_step_ok w w' : at_rest (part_get w) → tcp_step w w' → at_rest (part_get w').
Proof.
  intros Hw Hs. revert Hw. destruct Hs as [c w1 w2 Hal Hrun|w1 w2 S]; intros Hw; [|exact (at_rest_same _ _ S Hw)].
  destruct Hw as [Hw Hi]. pose proof (settled_ok _ Hw) as Hok. destruct (is_input c) eqn:Hc.
  - destruct c; try discriminate Hc. pose proof (input_yields p w1 Hok Hi) as H. unfold yields in H. simpl in Hrun. by rewrite Hrun in H.
  - pose proof (run_tcp_call_ok c w1 Hc Hal Hok) as H. pose proof (run_tcp_call_kept c Hc w1) as K. unfold yields in H, K.
    rewrite Hrun in H, K. destruct K as (E & _). assert (idle (part_get w2)) as Hi2 by (unfold idle in *; congruence).
    split; [by apply idle_settled|done].
Qed.

Definition no_pcbs (t : tstate) : Prop := tcp_mem t = ∅ ∧ (∀ k, pcbs_of k t = []) ∧ tcp_input_pcb t = None.
Lemma no_pcbs_ok t : no_pcbs t → at_rest t.
Proof.
  intros (Hm & Hl & Hi). split; [|exact Hi]. split.
  - intros k. rewrite Hl. constructor.
  - intros k l. rewrite Hl. by intros ?%not_elem_of_nil.
  - intros l b k. by rewrite Hm.
  - intros k a lp. rewrite Hl. by intros ?%not_elem_of_nil.
  - intros l b. by rewrite Hm.
  - intros l [b H]. by rewrite Hm in H.
Qed.

Lemma reached_ok w0 w : no_pcbs (part_get w0) → star tcp_step w0 w → at_rest (part_get w).
Proof.
  intros H0. apply (star_invariant tcp_step (λ w, at_rest (part_get w)) w0); [by apply tcp_step_ok|by apply no_pcbs_ok].
Qed.

(** C3: the lists of TCP are well formed after every history of calls and
    segments.  From no blocks at all, through any sequence of the functions of the
    interface, the timers, changes of address and received segments, with
    callbacks that call these functions in turn, and where no block is bound that
    is bound already, which [tcp_bind] leaves to its caller: every block on a list is
    allocated and its state is one of that list's, no block is on two lists or
    twice on one, a block whose state asks for a list is on it (so that nothing
    is lost), and no listed connection points to a listener that is closed; and
    [tcp_input] is done with its connection. *)
Theorem tcp_lists_well_formed w0 w :
  no_pcbs (part_get w0) → star tcp_step w0 w →
  tcp_ok_but (λ _, False) (part_get w) ∧ (∀ k k' l, l ∈ pcbs_of k (part_get w) → l ∈ pcbs_of k' (part_get w) → k = k') ∧
  tcp_input_pcb (part_get w) = None.
Proof.
  intros H0 Hs. destruct (reached_ok _ _ H0 Hs) as [H Hi].
  split; [done|]. split; [|done]. intros k k' l Hk Hk'. by apply (tk_one _ _ _ _ _ H Hk).
Qed.

(** C4: the loops of [tcp_fasttmr] and [tcp_slowtmr] end.  The callbacks they make
    may change the list of connections, on which the loop starts again; still
    there is a number of turns after which it has ended, unless a callback or
    an assertion stops the program. *)
Theorem tcp_timers_end w : tcp_ok (part_get w) →
  (∃ fuel, yields (fasttmr_loop fuel (head (tcp_active_pcbs (part_get w)))) w (λ ended _, ended = true)) ∧
  (∃ fuel, yields (slowtmr_loop fuel None (head (tcp_active_pcbs (part_get w)))) w (λ ended _, ended = true)).
Proof.
  intros Hw. split.
  - destruct (walk_from (part_get w) (head (tcp_active_pcbs (part_get w)))) as (todo & <- & Hwalk).
    eapply (fast_loop_ends (S _) (S (length todo))); [done|done|apply Nat.lt_succ_diag_r|lia].
  - eapply (slow_loop_ends (S _) (S _)); [done|apply stands_start|apply Nat.lt_succ_diag_r|apply Nat.lt_succ_diag_r].
Qed.
End api.

(** ** A history *)

Record tcp_world := mk_tcp_world { tw_tcp : tstate; tw_timers : timeouts }.
#[export] Instance eta_tcp_world : Eta tcp_world := λ r, mk_tcp_world (tw_tcp r) (tw_timers r).
#[export] Program Instance part_tw_tcp : Part tstate tcp_world := { part_get := tw_tcp; part_set t w := w <| tw_tcp := t |> }.
Next Obligation. done. Qed.
Next Obligation. by intros []. Qed.
Next Obligation. done. Qed.
#[export] Program Instance part_tw_timers : Part timeouts tcp_world := { part_get := tw_timers; part_set t w := w <| tw_timers := t |> }.
Next Obligation. done. Qed.
Next Obligation. by intros []. Qed.
Next Obligation. done. Qed.
#[export] Instance tw_apart : Apart tstate timeouts tcp_world.
Proof. done. Qed.

Section history.
(** The output of [TcpSend] over a driver that takes every packet, and an
    application that declines everything. *)
#[local] Instance ex_tcp_driver : netif_driver tcp_world := { netif_output _ _ := ret ERR_OK }.
#[local] Instance silent_client : tcp_client tcp_world := {
  recv_tcp _ _ _ _ := ret ERR_OK; sent_tcp _ _ _ := ret ERR_OK; poll_tcp _ _ := ret ERR_OK; err_tcp _ _ := ret tt;
  accept_function _ _ _ := ret ERR_OK; do_connected _ _ _ := ret ERR_OK
}.
#[local] Program Instance tcp_timer_client : timer_client tcp_world := {
  Timeouts.tcp_tmr := ret tt; cyclic_interval_ms _ := 1; cyclic_handler _ := ret tt; other_timer _ _ := ret tt;
  tcp_pcbs_exist w := negb (bool_decide (tcp_active_pcbs (tw_tcp w) = [])) || negb (bool_decide (tcp_tw_pcbs (tw_tcp w) = []))
}.
Next Obligation. done. Qed.
#[local] Instance ex_tcp_driver_keeps : netif_driver_keeps tcp_world.
Proof. intros p d. apply stable_ret. typeclasses eauto. Qed.
#[local] Instance silent_client_keeps : tcp_client_keeps tcp_world.
Proof. split; intros; apply ok_ret. Qed.
#[local] Instance silent_client_turns : tcp_client_turns tcp_world.
Proof. split; intros; try (apply stable_ret; typeclasses eauto); intros w Hw; by apply yields_ret. Qed.
#[local] Instance silent_client_kept : tcp_client_kept tcp_world.
Proof. split; intros; apply stable_ret; typeclasses eauto. Qed.
#[local] Instance silent_client_input : tcp_client_input tcp_world.
Proof. split; intros; try (apply stable_ret; typeclasses eauto); intros k w Hw Ha Hc; by apply yields_ret. Qed.

(** A SYN for port 80, from port 1000 of another host. *)
Definition ex_syn : list Z := [3; 232; 0; 80; 0; 0; 0; 100; 0; 0; 0; 0; 80; 2; 32; 0; 0; 0; 0; 0].
Definition ex_tcp_ip : ipstate := ex_ipstate
  <| ip_store := mk_store {[1%positive := mk_pbuf None (Some (mk_ptr 1 64)) 20 20 128 0 1 0]}
       {[1%positive := replicate 64 0 ++ ex_syn]} 4 [] ∅ sys_mbox_new false |>
  <| ip_data := mk_ip_globals true true None 20 33554698 16777482 |>.
Definition ex_tcp_start : tcp_world :=
  mk_tcp_world (mk_tstate ex_tcp_ip ∅ ∅ [] [] [] [] false 0 0 0 0 6510 None 0 no_segment) (mk_timeouts [] 0 false 1000 []).
(** A listener on port 80, a connection being opened from a port of its own, a
    bound one and two that are closed again, a SYN for the listener, and a tick of
    the timers. *)
Definition ex_tcp_calls : list tcp_call :=
  [Call_init 0; Call_new 0; Call_bind (Some 4%positive) None 80; Call_listen (Some 4%positive) 5;
   Call_new 0; Call_connect (Some 6%positive) (Some 33554698) 443 (Some Do_connected);
   Call_new 0; Call_bind (Some 9%positive) None 0; Call_new 0; Call_close (Some 10%positive);
   Call_new 0; Call_bind (Some 11%positive) (Some 16777482) 7; Call_abort (Some 11%positive);
   Call_input (Some 1%positive); Call_tmr 5].
Definition allowed (c : tcp_call) (t : tstate) : bool :=
  match c with Call_bind (Some l) _ _ => bool_decide (l ∉ tcp_bound_pcbs t) | _ => true end.
Lemma tcp_allowed_call c t : allowed c t = true → call_allowed c t.
Proof. destruct c as [| | |[l|]| | | | | | | | | | | | | | | | | | | | | |]; try done. intros H%bool_decide_eq_true l' [= <-]. exact H. Qed.
Fixpoint run_tcp_calls (l : list tcp_call) : M tcp_world unit :=
  match l with [] => ret tt | c :: l => λ w, if allowed c (part_get w) then (do! run_tcp_call c; run_tcp_calls l) w else Err Undefined end.
Lemma run_tcp_calls_star l : ∀ w w', run_tcp_calls l w = Val (tt, w') → star tcp_step w w'.
Proof.
  induction l as [|c l IH]; intros w w'; simpl; [intros [= ->]; apply star_refl|].
  destruct (allowed c (tw_tcp w)) eqn:Ha; [|done]. unfold mbnd. destruct (run_tcp_call c w) as [[[] w1]|] eqn:E; [|done]. intros H.
  eapply star_cons; [eapply tcp_step_call; [by apply tcp_allowed_call|exact E]|]. by apply IH.
Qed.
Definition ex_tcp_end : tcp_world :=
  match run_tcp_calls ex_tcp_calls ex_tcp_start with Val (_, w) => w | Err _ => ex_tcp_start end.
Lemma ex_tcp_reached : star tcp_step ex_tcp_start ex_tcp_end.
Proof.
  apply (run_tcp_calls_star ex_tcp_calls). unfold ex_tcp_end.
  assert (match run_tcp_calls ex_tcp_calls ex_tcp_start with Val _ => true | Err _ => false end = true) as H by (vm_compute; reflexivity).
  destruct (run_tcp_calls ex_tcp_calls ex_tcp_start) as [[[] w]|]; done.
Qed.
Lemma ex_tcp_lists :
  (tcp_listen_pcbs (part_get (P := tstate) ex_tcp_end), tcp_bound_pcbs (part_get (P := tstate) ex_tcp_end), tcp_active_pcbs (part_get (P := tstate) ex_tcp_end)) =
  ([5%positive], [9%positive], [12%positive; 6%positive]).
Proof. vm_compute. reflexivity. Qed.
(** Binding a block that is bound: nothing stops it, and the list is no list any more. *)
Lemma ex_bound_twice :
  match (do! run_tcp_call (Call_init 0); do! run_tcp_call (Call_new 0); do! run_tcp_call (Call_bind (Some 4%positive) None 80);
         run_tcp_call (Call_bind (Some 4%positive) None 81)) ex_tcp_start with
  | Val (_, w) => Some (tcp_bound_pcbs (part_get (P := tstate) w))
  | Err _ => None
  end = Some [4%positive; 4%positive].
Proof. vm_compute. reflexivity. Qed.
Lemma ex_tcp_no_pcbs : no_pcbs (part_get (P := tstate) ex_tcp_start).
Proof. split; [done|]. split; [by intros []|done]. Qed.

Lemma tcp_lists_well_formed_witness : tcp_ok_but (λ _, False) (part_get (P := tstate) ex_tcp_end) ∧
  (tcp_listen_pcbs (part_get (P := tstate) ex_tcp_end), tcp_bound_pcbs (part_get (P := tstate) ex_tcp_end), tcp_active_pcbs (part_get (P := tstate) ex_tcp_end)) =
  ([5%positive], [9%positive], [12%positive; 6%positive]).
Proof.
  split; [|exact ex_tcp_lists].
  exact (proj1 (tcp_lists_well_formed ex_tcp_start ex_tcp_end ex_tcp_no_pcbs ex_tcp_reached)).
Defined.
Lemma ex_tcp_ok : tcp_ok (part_get (P := tstate) ex_tcp_end).
Proof. exact (settled_ok _ (proj1 (reached_ok ex_tcp_start ex_tcp_end ex_tcp_no_pcbs ex_tcp_reached))). Qed.
Lemma tcp_timers_end_witness :
  (∃ fuel, yields (slowtmr_loop fuel None (head (tcp_active_pcbs (part_get (P := tstate) ex_tcp_end)))) ex_tcp_end (λ ended _, ended = true)) ∧
  runs (slowtmr_loop 2 None (head (tcp_active_pcbs (part_get (P := tstate) ex_tcp_end)))) ex_tcp_end (λ ended _, ended = true).
Proof. split; [exact (proj2 (tcp_timers_end ex_tcp_end ex_tcp_ok))|vm_compute; reflexivity]. Defined.
End history.
