(* ===== verification/TcpWire.v ===== *)
(** * TCP on the wire

    The segments [core/tcp_out.c] hands to IP: a header with the connection's
    ports, sequence and acknowledgement numbers, flags and window, the options,
    the data, and a checksum that verifies. *)

From S2P Require Import Prelude Mbox Heap HeapFacts Pbuf Packet PbufFacts PbufAlloc PbufChain Def Chksum Addr Timeouts Header Ip4 Ip4Facts Ip4InFacts.
From S2P Require Import Tcp TcpOut TcpSend UdpInput UdpOutput.

Implicit Types s : store.

(** ** The format *)

Definition be16 (x : Z) : list Z := [x / 256; x mod 256].
Definition be32 (x : Z) : list Z := [x / 16777216; x / 65536 mod 256; x / 256 mod 256; x mod 256].

(** [words] is the length of the header in words; the checksum is in memory order. *)
Definition tcp_header (sport dport seqno ackno words flags wnd chk : Z) : list Z :=
  be16 sport ++ be16 dport ++ be32 seqno ++ be32 ackno ++ [words * 16; flags] ++ be16 wnd ++
  [chk mod 256; chk / 256] ++ [0; 0].

(** The checksum over the pseudo header and [d] is 0. *)
Definition verifies (src dst proto : Z) (d : list Z) : Prop :=
  ones (word_sum (pseudo_header src dst proto (zlen d) ++ d)) = 65535.

Lemma be16_u8 x : is_u16 x → Forall is_u8 (be16 x).
Proof. intros Hx. bounds. repeat (apply Forall_cons; split; [unfold is_u8; bounds; Z.div_mod_to_equations; lia|]). apply Forall_nil_2. Qed.
Lemma be32_u8 x : is_u32 x → Forall is_u8 (be32 x).
Proof. intros Hx. bounds. repeat (apply Forall_cons; split; [unfold is_u8; bounds; Z.div_mod_to_equations; lia|]). apply Forall_nil_2. Qed.
Lemma le16_u8 x : is_u16 x → Forall is_u8 [x mod 256; x / 256].
Proof. intros Hx. bounds. repeat (apply Forall_cons; split; [unfold is_u8; bounds; Z.div_mod_to_equations; lia|]). apply Forall_nil_2. Qed.

Lemma word_bytes a b c d : is_u8 a → is_u8 b → is_u8 c → is_u8 d →
  addr_bytes (word a b c d) = [a; b; c; d] ∧ be32 (word a b c d) = [d; c; b; a].
Proof.
  intros Ha Hb Hc Hd. unfold addr_bytes, be32. replace 16777216 with (256 * 256 * 256) by lia. replace 65536 with (256 * 256) by lia.
  rewrite <- !Z.div_div by lia. unfold word.
  rewrite !(proj1 (word_step a _ Ha)), !(proj2 (word_step a _ Ha)), !(proj1 (word_step b _ Hb)),
    !(proj2 (word_step b _ Hb)), !(proj1 (word_step c _ Hc)), !(proj2 (word_step c _ Hc)). done.
Qed.
Lemma htonl_bytes x : is_u32 x → addr_bytes (u32 (lwip_htonl x)) = be32 x.
Proof.
  intros Hx. rewrite u32_small by (apply htonl_range; bounds; lia). apply word_of in Hx as (a & b & c & d & ? & ? & ? & ? & ->).
  rewrite htonl_word by done. by rewrite (proj1 (word_bytes d c b a ltac:(done) ltac:(done) ltac:(done) ltac:(done))), (proj2 (word_bytes a b c d ltac:(done) ltac:(done) ltac:(done) ltac:(done))).
Qed.

Lemma ztake_u8 n d : Forall is_u8 d → Forall is_u8 (ztake n d).
Proof. apply Forall_take. Qed.
Lemma zdrop_u8 n d : Forall is_u8 d → Forall is_u8 (zdrop n d).
Proof. apply Forall_drop. Qed.
Lemma zsplice_u8 o bs d : Forall is_u8 bs → Forall is_u8 d → Forall is_u8 (zsplice o bs d).
Proof. intros Hb Hd. unfold zsplice. apply Forall_app_2; [by apply ztake_u8|]. apply Forall_app_2; [done|by apply zdrop_u8]. Qed.

(** ** The checksum *)

Definition tcp_checksum (src dst proto : Z) (d : list Z) : Z :=
  65535 - ones (word_sum (pseudo_header src dst proto (zlen d) ++ d)).

Lemma tcp_checksum_range src dst proto d : is_u16 (tcp_checksum src dst proto d).
Proof. unfold tcp_checksum. pose proof (ones_range (word_sum (pseudo_header src dst proto (zlen d) ++ d))). bounds. lia. Qed.

Lemma checksum_verifies src dst proto o d :
  is_u32 src → is_u32 dst → is_u8 proto → is_u16 (zlen d) → Forall is_u8 d →
  Z.even o = true → 0 ≤ o → o + 2 ≤ zlen d → zslice o 2 d = [0; 0] →
  let c := tcp_checksum src dst proto d in
  verifies src dst proto (zsplice o [c mod 256; c / 256] d).
Proof.
  intros Hs Hd Hp Hl Hu He Ho Hod Hz c. unfold verifies. rewrite zlen_zsplice by (done || (cbv [zlen length]; lia)).
  set (h := pseudo_header src dst proto (zlen d)).
  assert (zlen h = 12) as Hh by done.
  assert (Forall is_u8 (h ++ d)) as Hhu by (apply Forall_app_2; [by apply pseudo_header_u8|done]).
  replace (h ++ zsplice o [c mod 256; c / 256] d) with (zsplice (12 + o) [c mod 256; c / 256] (h ++ d)).
  - rewrite word_sum_splice.
    + pose proof (word_sum_range _ Hhu). destruct (ones_spec (word_sum (h ++ d))) as [? Hm]; [lia|].
      pose proof (ones_range (word_sum (h ++ d))). symmetry. unfold c, tcp_checksum. fold h.
      apply ones_unique; [lia|lia|lia|]. Z.div_mod_to_equations. lia.
    + rewrite Z.even_add, He. done.
    + lia.
    + rewrite zlen_app. lia.
    + unfold zslice. rewrite zdrop_app_ge by lia. rewrite Hh. replace (12 + o - 12) with o by lia. exact Hz.
  - rewrite zsplice_app_r by lia. rewrite Hh. by replace (12 + o - 12) with o by lia.
Qed.

(** What [tcp_out.c] does last: the checksum is computed over the packet and stored. *)
Lemma tcp_checksum_spec n s0 s p c cs d rest src dst tot :
  hdr_state n s0 s p c cs d rest → 18 ≤ n → zslice 16 2 d = [0; 0] →
  let all := d ++ rest ++ bytes cs in
  Forall is_u8 all → is_u16 (zlen all) → tot = zlen all → is_u32 src → is_u32 dst →
  ∃ chk, ip_chksum_pseudo s p IP_PROTO_TCP tot src dst = Val chk ∧ is_u16 chk ∧
    verifies src dst IP_PROTO_TCP (zsplice 16 [chk mod 256; chk / 256] d ++ rest ++ bytes cs) ∧
    runs (wr16 (pb_payload (c_pbuf c)) 16 chk) s (λ _ s',
      hdr_state n s0 s' p c cs (zsplice 16 [chk mod 256; chk / 256] d) rest).
Proof.
  intros Hs Hn Hz all Hu Hl -> Hsrc Hdst. pose proof (hs_packet _ _ _ _ _ _ _ _ Hs) as Hpk.
  pose proof (hs_len _ _ _ _ _ _ _ _ Hs) as Hd.
  assert (bytes (mk_cell (c_loc c) (c_pbuf c) (d ++ rest) :: cs) = all) as Hb by (rewrite bytes_cons; symmetry; apply app_assoc).
  pose proof (tcp_checksum_range src dst IP_PROTO_TCP all) as Hr.
  exists (tcp_checksum src dst IP_PROTO_TCP all). set (chk := tcp_checksum _ _ _ _) in *. split_and!; [|done| |].
  { unfold ip_chksum_pseudo. rewrite (inet_chksum_pseudo_eq _ _ _ _ _ _ _ Hpk); try done; rewrite ?Hb; done. }
  2:{ unfold wr16. rewrite u16_small by (bounds; lia). by eapply (hdr_state_write _ _ _ _ _ _ _ _ 16 [chk mod 256; chk / 256] Hs). }
  assert (zlen all = n + zlen (rest ++ bytes cs)) as Hza by (unfold all; rewrite zlen_app; lia).
  pose proof (zlen_nonneg (rest ++ bytes cs)).
  assert (zsplice 16 [chk mod 256; chk / 256] d ++ rest ++ bytes cs = zsplice 16 [chk mod 256; chk / 256] all) as ->.
  { unfold all. rewrite zsplice_app_l by (change (zlen [_; _]) with 2; lia). done. }
  apply checksum_verifies; try done; [lia|].
  unfold zslice, all. rewrite zdrop_app_le by lia. rewrite ztake_app_le by (rewrite zlen_zdrop; lia). exact Hz.
Qed.

(** ** Writing the header *)

Lemma hdr_state_be16 n s0 s p c cs d rest o v :
  hdr_state n s0 s p c cs d rest → 0 ≤ o → o + 2 ≤ n → is_u16 v →
  runs (wr16 (pb_payload (c_pbuf c)) o (lwip_htons v)) s (λ _ s', hdr_state n s0 s' p c cs (zsplice o (be16 v) d) rest).
Proof. apply hdr_state_wr16. Qed.
Lemma hdr_state_wr32 n s0 s p c cs d rest o v :
  hdr_state n s0 s p c cs d rest → 0 ≤ o → o + 4 ≤ n → is_u32 v →
  runs (wr32 (pb_payload (c_pbuf c)) o (lwip_htonl v)) s (λ _ s', hdr_state n s0 s' p c cs (zsplice o (be32 v) d) rest).
Proof.
  intros Hs Ho Hn Hv. unfold wr32. rewrite htonl_bytes by done. eapply hdr_state_write; [exact Hs|done|done|done].
Qed.
Lemma hdr_state_zero n s0 s p c cs d rest o :
  hdr_state n s0 s p c cs d rest → 0 ≤ o → o + 2 ≤ n →
  runs (wr16 (pb_payload (c_pbuf c)) o 0) s (λ _ s', hdr_state n s0 s' p c cs (zsplice o [0; 0] d) rest).
Proof. intros Hs Ho Hn. eapply (hdr_state_write _ _ _ _ _ _ _ _ o [0; 0]); [exact Hs|done|done|done]. Qed.

(** The length of the header, in words, and the flags. *)
Lemma hdr_state_flags n s0 s p c cs d rest words flags :
  hdr_state n s0 s p c cs d rest → 14 ≤ n → 0 ≤ words < 16 → is_u8 flags →
  runs (TCPH_HDRLEN_FLAGS_SET (pb_payload (c_pbuf c)) words flags) s (λ _ s',
    hdr_state n s0 s' p c cs (zsplice 12 [words * 16; flags] d) rest).
Proof.
  intros Hs Hn Hw Hf. unfold TCPH_HDRLEN_FLAGS_SET. bounds. rewrite Z.shiftl_mul_pow2, u16_small by (bounds; lia).
  rewrite (lor_add 12) by (bounds; lia).
  eapply runs_mono; [eapply (hdr_state_wr16 _ _ _ _ _ _ _ _ 12 (words * 2 ^ 12 + flags) Hs); unfold is_u16; bounds; lia|].
  intros [] s' Hs'. replace [words * 16; flags] with [(words * 2 ^ 12 + flags) / 256; (words * 2 ^ 12 + flags) mod 256]; [exact Hs'|].
  bounds. repeat f_equal; Z.div_mod_to_equations; lia.
Qed.

Lemma tcp_header_writes (d : list Z) sport dport seqno ackno words flags wnd :
  20 ≤ zlen d →
  zsplice 18 [0; 0] (zsplice 16 [0; 0] (zsplice 14 (be16 wnd) (zsplice 12 [words * 16; flags]
    (zsplice 8 (be32 ackno) (zsplice 4 (be32 seqno) (zsplice 2 (be16 dport) (zsplice 0 (be16 sport) d))))))) =
  tcp_header sport dport seqno ackno words flags wnd 0 ++ zdrop 20 d.
Proof.
  intros Hd. do 20 (destruct d as [|? d]; [cbv [zlen length] in Hd; lia|rewrite ?zlen_cons in Hd]). reflexivity.
Qed.
Lemma zlen_tcp_header sport dport seqno ackno words flags wnd chk :
  zlen (tcp_header sport dport seqno ackno words flags wnd chk) = 20.
Proof. done. Qed.

Record tcp_fields (sport dport seqno ackno flags wnd : Z) : Prop := {
  tf_sport : is_u16 sport; tf_dport : is_u16 dport; tf_seqno : is_u32 seqno; tf_ackno : is_u32 ackno;
  tf_flags : is_u8 flags; tf_wnd : is_u16 wnd
}.
Lemma tcp_header_u8 sport dport seqno ackno words flags wnd chk :
  tcp_fields sport dport seqno ackno flags wnd → 0 ≤ words < 16 → is_u16 chk →
  Forall is_u8 (tcp_header sport dport seqno ackno words flags wnd chk).
Proof.
  intros [] Hw Hc. unfold tcp_header.
  repeat (apply Forall_app_2); try (by apply be16_u8); try (by apply be32_u8); try (by apply le16_u8).
  - repeat (apply Forall_cons_2); [unfold is_u8; bounds; lia|done|apply Forall_nil_2].
  - repeat (apply Forall_cons_2); try (unfold is_u8; bounds; lia). apply Forall_nil_2.
Qed.

(** *** A packet for a segment without data *)

(** A packet in memory of its own, in the heap since [s0]; its bytes are [d]. *)
Record control_packet (s0 s : store) (p : option loc) (c : cell) (d : list Z) : Prop := {
  cp_hdr : ∃ s1, fresh_chain s0 s1 p [c] 0 ∧ hdr_state (zlen d) s1 s p c [] d [];
  cp_pbuf : c_pbuf c = new_pbuf (c_loc c) 64 (zlen d) (zlen d) PBUF_RAM
}.

(** The pbuf says how long the bytes are. *)
Lemma control_packet_len s0 s s' p c d d' :
  control_packet s0 s p c d → control_packet s0 s' p c d' → zlen d = zlen d'.
Proof. intros [_ Hq] [_ Hq']. apply (f_equal pb_len) in Hq, Hq'. rewrite Hq in Hq'. exact Hq'. Qed.

Lemma alloc_header_common_spec s ackno optlen seqno sport dport flags wnd :
  heap_ok s → 0 ≤ optlen ≤ 40 → optlen mod 4 = 0 → tcp_fields sport dport seqno ackno flags wnd →
  runs (tcp_output_alloc_header_common ackno optlen 0 (lwip_htonl seqno) sport dport flags wnd) s (λ p s',
    match p with
    | None => memory_left s = false ∧ no_leak s s'
    | Some _ => memory_left s = true ∧ ∃ c junk, zlen junk = optlen ∧
        control_packet s s' p c (tcp_header sport dport seqno ackno (5 + optlen / 4) flags wnd 0 ++ junk)
    end).
Proof.
  intros Hok Ho Ho4 []. unfold tcp_output_alloc_header_common. change TCP_HLEN with 20. rewrite u16_small by (bounds; lia).
  apply runs_bind. eapply runs_mono; [apply alloc_ram_one; [done|bounds; lia]|].
  assert (ram_fits PBUF_IP (20 + optlen + 0) = true) as ->.
  { apply Z.ltb_lt. pose proof (align_size_bounds (20 + optlen + 0)) as Hal.
    change (LWIP_MEM_ALIGN_SIZE (u16 (layer_offset PBUF_IP))) with 40. bounds. lia. }
  rewrite andb_true_r. intros [l|] s1 Hr; [|apply runs_ret; by destruct Hr as (? & _ & ?)].
  destruct Hr as (d0 & (Hleft & _) & -> & Hb & Hd0 & Hf).
  change (24 + LWIP_MEM_ALIGN_SIZE (u16 (layer_offset PBUF_IP))) with 64 in *.
  replace (20 + optlen + 0) with (20 + optlen) in * by lia.
  set (c := new_cell (next_loc s) d0 64 (20 + optlen) (20 + optlen) PBUF_RAM) in *.
  assert (zlen (c_data c) = 20 + optlen) as Hcd by (apply zlen_zslice; lia).
  assert (packet s1 (Some (next_loc s)) [c]) as Hpk.
  { apply (fresh_chain_done s) in Hf; [done|]. rewrite total_cons, total_nil. bounds. lia. }
  assert (hdr_state (20 + optlen) s1 s1 (Some (next_loc s)) c [] (c_data c) []) as Hs1.
  { split; try done. - by rewrite app_nil_r. - apply (fc_own _ _ _ _ _ Hf). }
  apply runs_bind. eapply runs_head; [exact Hpk|].
  apply runs_bind, runs_assert; [apply Z.leb_le; simpl; lia|].
  apply runs_bind. eapply runs_head; [exact Hpk|].
  assert (0 ≤ 5 + optlen / 4 < 16) as Hw by (Z.div_mod_to_equations; lia).
  apply runs_bind. eapply runs_mono; [eapply hdr_state_be16; [exact Hs1|lia|lia|done]|]. intros [] s2 Hs2.
  apply runs_bind. eapply runs_mono; [eapply hdr_state_be16; [exact Hs2|lia|lia|done]|]. intros [] s3 Hs3.
  apply runs_bind. eapply runs_mono; [eapply hdr_state_wr32; [exact Hs3|lia|lia|done]|]. intros [] s4 Hs4.
  apply runs_bind. eapply runs_mono; [eapply hdr_state_wr32; [exact Hs4|lia|lia|done]|]. intros [] s5 Hs5.
  apply runs_bind. eapply runs_mono; [eapply hdr_state_flags; [exact Hs5|lia|done|done]|]. intros [] s6 Hs6.
  apply runs_bind. eapply runs_mono; [eapply hdr_state_be16; [exact Hs6|lia|lia|done]|]. intros [] s7 Hs7.
  apply runs_bind. eapply runs_mono; [eapply hdr_state_zero; [exact Hs7|lia|lia]|]. intros [] s8 Hs8.
  apply runs_bind. eapply runs_mono; [eapply hdr_state_zero; [exact Hs8|lia|lia]|]. intros [] s9 Hs9.
  apply runs_ret. rewrite tcp_header_writes in Hs9 by lia. split; [done|]. exists c, (zdrop 20 (c_data c)).
  split; [rewrite zlen_zdrop; lia|]. pose proof (hs_len _ _ _ _ _ _ _ _ Hs9) as Hl. split; rewrite Hl; [|done]. by exists s1.
Qed.

(** ** Options *)

Definition sack_blocks (sacks : list (Z * Z)) : list Z := concat ((λ x, be32 (fst x) ++ be32 (snd x)) <$> sacks).
(** The selective acknowledgements, after two padding bytes. *)
Definition sack_option (sacks : list (Z * Z)) : list Z := [1; 1; 5; 2 + zlen sacks * 8] ++ sack_blocks sacks.

Lemma zlen_sack_blocks sacks : zlen (sack_blocks sacks) = 8 * zlen sacks.
Proof.
  induction sacks as [|x l IH]; [done|]. unfold sack_blocks in *. cbn [fmap list_fmap concat].
  rewrite zlen_app, IH, zlen_cons. change (zlen (be32 (fst x) ++ be32 (snd x))) with 8. lia.
Qed.
Lemma zlen_sack_option sacks : zlen (sack_option sacks) = 4 + 8 * zlen sacks.
Proof. unfold sack_option. rewrite zlen_app, zlen_sack_blocks. done. Qed.

Lemma sack_blocks_u8 sacks : Forall (λ x, is_u32 (fst x) ∧ is_u32 (snd x)) sacks → Forall is_u8 (sack_blocks sacks).
Proof.
  induction 1 as [|x l [? ?] _ IH]; [apply Forall_nil_2|]. unfold sack_blocks in *. cbn [fmap list_fmap concat].
  apply Forall_app_2; [|done]. apply Forall_app_2; by apply be32_u8.
Qed.

Lemma sack_option_u8 sacks : Forall (λ x, is_u32 (fst x) ∧ is_u32 (snd x)) sacks → zlen sacks ≤ 4 → Forall is_u8 (sack_option sacks).
Proof.
  intros Hu Hl. unfold sack_option. pose proof (zlen_nonneg sacks). apply Forall_app_2; [|by apply sack_blocks_u8].
  repeat (apply Forall_cons_2; [unfold is_u8; lia|]). apply Forall_nil_2.
Qed.

Lemma write_sacks_spec n s0 p c cs rest sacks : ∀ s d o,
  hdr_state n s0 s p c cs d rest → 0 ≤ o → o + 8 * zlen sacks ≤ n → Forall (λ x, is_u32 (fst x) ∧ is_u32 (snd x)) sacks →
  runs (write_sacks (pb_payload (c_pbuf c)) o sacks) s (λ _ s', hdr_state n s0 s' p c cs (zsplice o (sack_blocks sacks) d) rest).
Proof.
  induction sacks as [|[a b] l IH]; intros s d o Hs Ho Hn Hu; simpl.
  - apply runs_ret. change (sack_blocks []) with (@nil Z). by rewrite zsplice_nil.
  - apply Forall_cons in Hu as [[Ha Hb] Hu]. rewrite zlen_cons in Hn. pose proof (zlen_nonneg l).
    apply runs_bind. eapply runs_mono; [eapply hdr_state_wr32; [exact Hs|lia|lia|done]|]. intros [] s1 Hs1.
    apply runs_bind. eapply runs_mono; [eapply hdr_state_wr32; [exact Hs1|lia|lia|done]|]. intros [] s2 Hs2.
    eapply runs_mono; [eapply (IH _ _ (o + 8) Hs2); [lia|lia|done]|]. intros [] s3 Hs3.
    pose proof (hs_len _ _ _ _ _ _ _ _ Hs) as Hd. pose proof (zlen_sack_blocks l).
    unfold sack_blocks in *. cbn [fmap list_fmap concat fst snd] in *. rewrite <- app_assoc.
    rewrite <- zsplice_app, <- zsplice_app; try lia.
    + change (zlen (be32 a)) with 4. change (zlen (be32 b)) with 4. by replace (o + 4 + 4) with (o + 8) by lia.
    + change (zlen (be32 a)) with 4. lia.
    + rewrite zlen_zsplice; change (zlen (be32 a)) with 4; change (zlen (be32 b)) with 4; lia.
    + rewrite zlen_app. change (zlen (be32 a)) with 4; change (zlen (be32 b)) with 4. lia.
Qed.

Lemma sack_option_word n : 0 ≤ n ≤ 4 → be32 (0x01010500 + 2 + n * 8) = [1; 1; 5; 2 + n * 8].
Proof. intros Hn. assert (n = 0 ∨ n = 1 ∨ n = 2 ∨ n = 3 ∨ n = 4) as H by lia. by destruct H as [->|[->|[->|[->| ->]]]]. Qed.

Lemma build_sack_option_spec n s0 s p c cs d rest cb o k :
  hdr_state n s0 s p c cs d rest → 0 ≤ o → 0 ≤ k ≤ 4 → k ≤ zlen (tp_rcv_sacks cb) → o + 4 + 8 * k ≤ n →
  Forall (λ x, is_u32 (fst x) ∧ is_u32 (snd x)) (tp_rcv_sacks cb) →
  runs (tcp_build_sack_option cb (pb_payload (c_pbuf c)) o k) s (λ _ s',
    hdr_state n s0 s' p c cs (zsplice o (sack_option (ztake k (tp_rcv_sacks cb))) d) rest).
Proof.
  intros Hs Ho Hk Hk2 Hn Hu. unfold tcp_build_sack_option.
  assert (zlen (ztake k (tp_rcv_sacks cb)) = k) as Hz by (apply zlen_ztake; lia).
  apply runs_bind. eapply runs_mono; [eapply hdr_state_wr32; [exact Hs|lia|lia|unfold is_u32; lia]|]. intros [] s1 Hs1.
  rewrite sack_option_word in Hs1 by done.
  eapply runs_mono; [eapply (write_sacks_spec _ _ _ _ _ _ _ _ _ (o + 4) Hs1); [lia|lia|by apply Forall_take]|].
  intros [] s2 Hs2. unfold sack_option. pose proof (hs_len _ _ _ _ _ _ _ _ Hs) as Hd. pose proof (zlen_sack_blocks (ztake k (tp_rcv_sacks cb))).
  rewrite <- zsplice_app; change (zlen [1; 1; 5; 2 + zlen (ztake k (tp_rcv_sacks cb)) * 8]) with 4; [|lia|lia]. by rewrite Hz.
Qed.

(** ** To IP *)

Definition with_store (t : tstate) (s : store) : tstate := t <| t_ip := (t_ip t) <| ip_store := s |> |>.
Definition tcp_store (t : tstate) : store := ip_store (t_ip t).

Lemma runs_tst {A} (m : M store A) t (Q : A → tstate → Prop) :
  runs m (tcp_store t) (λ a s', Q a (with_store t s')) → runs (lift (P := ipstate) (lift (P := store) m)) t Q.
Proof. intros H. apply (runs_lift (P := ipstate)). by apply (runs_lift (P := store)). Qed.
Lemma with_store_id t : with_store t (tcp_store t) = t.
Proof. by destruct t as [[]]. Qed.

Section output.
Context {W : Type} `{!Part tstate W} `{!netif_driver W}.
#[local] Existing Instance tcp_ip_part.
Implicit Types w : W.

Lemma runs_tstore {A} (m : M store A) t w (Q : A → W → Prop) :
  runs m (tcp_store t) (λ a s', Q a (part_set (with_store t s') w)) →
  runs (lift (P := tstate) (lift (P := ipstate) (lift (P := store) m))) (part_set t w) Q.
Proof. intros H. by apply runs_part, runs_tst. Qed.
Lemma runs_tfield {A} t w p c cs (f : pbuf → A) (Q : A → W → Prop) :
  packet (tcp_store t) p (c :: cs) → Q (f (c_pbuf c)) (part_set t w) →
  runs (lift (P := tstate) (lift (P := ipstate) (lift (P := store)
    (ask (λ s, let* l := deref p in let* c := get_pbuf s l in Val (f c)))))) (part_set t w) Q.
Proof. intros Hpk HQ. apply runs_tstore. eapply runs_head; [exact Hpk|]. by rewrite with_store_id. Qed.

(** [p] is on its way: an IP packet around the segment [seg]. *)
Definition tcp_on_wire t w p src dst ttl tos (seg : list Z) (w' : W) : Prop :=
  ∃ s' c' cs ipchk,
    w' = part_set (t <| t_ip := (t_ip t) <| ip_store := s' |> <| ip_id := u16 (ip_id (t_ip t) + 1) |> |>) w ∧
    packet s' p (c' :: cs) ∧ is_u16 ipchk ∧
    bytes (c' :: cs) = ip_header tos (zlen seg + 20) (ip_id (t_ip t)) ttl IP_PROTO_TCP ipchk src dst ++ seg ∧
    inet_chksum s' (pb_payload (c_pbuf c')) 20 = Val 0 ∧ outside [c_loc c'] (tcp_store t) s'.

Lemma tcp_ip_output_calls t w p c cs src dst ttl tos :
  packet (tcp_store t) p (c :: cs) → headroom (tcp_store t) 20 c → Forall own_data cs → pb_ref (c_pbuf c) = 1 →
  ip4_addr_isany src = false → total (c :: cs) + 20 < 2 ^ 16 →
  header_fields tos (total (c :: cs) + 20) (ip_id (t_ip t)) ttl IP_PROTO_TCP src dst →
  calls (ip4_output_if p (Some src) (Some dst) ttl tos IP_PROTO_TCP) (part_set t w) (netif_output p dst)
    (tcp_on_wire t w p src dst ttl tos (bytes (c :: cs))).
Proof.
  intros Hpk Hroom Hown Href Hsrc Hsz Hf. unfold ip4_output_if. apply calls_bind.
  apply (runs_lift (P := ipstate) (S := W)), runs_gets. rewrite part_set_get. cbv zeta. rewrite Hsrc.
  pose proof (@ip4_output_if_src_calls W tcp_ip_part _ (part_set t w) (t_ip t) p c cs src dst ttl tos IP_PROTO_TCP
    Hpk Hroom Hown Href Hsz Hf) as Hip.
  change (part_set (t_ip t) (part_set t w)) with
    (part_set (P := tstate) (part_set (t_ip t) (part_get (part_set t w))) (part_set t w)) in Hip.
  rewrite part_get_set, part_set_set in Hip.
  assert (part_set (t_ip t) t = t) as Ht by (by destruct t). rewrite Ht in Hip.
  eapply calls_mono; [exact Hip|].
  intros w' (s' & c' & -> & Hpk' & (Hloc & _ & _ & _) & _ & (ipchk & Hipchk & Hb) & Hchk & Hout).
  exists s', c', cs, ipchk. split_and!; try done; [|by rewrite Hloc].
  change (part_set ?x (part_set t w)) with (part_set (P := tstate) (part_set x (part_get (part_set t w))) (part_set t w)).
  by rewrite part_get_set, part_set_set.
Qed.
(** There is an interface to send by, and these are the TTL and TOS. *)
Definition if_ready (iw : ipstate) (dst : Z) : bool :=
  netif_default iw && netif_is_up (global_if iw) && netif_is_link_up (global_if iw) && negb (ip4_addr_isloopback dst).
Definition routed t (pcb : option loc) dst : Prop :=
  match pcb with
  | None => if_ready (t_ip t) dst = true
  | Some l => ∃ b, tcp_mem t !! l = Some b ∧
      (if blk_netif_idx b =? NETIF_NO_INDEX then if_ready (t_ip t) dst else netif_get_by_index (blk_netif_idx b) (t_ip t)) = true
  end.
Lemma route_ready src dst t : if_ready (t_ip t) dst = true →
  lift (P := ipstate) (ip4_route_src src dst) t = Val (true, t).
Proof.
  unfold if_ready. intros H. repeat (apply andb_prop in H as [H ?]). apply negb_true_iff in H0.
  unfold lift, ip4_route_src, ip4_route, mbnd, gets. simpl. rewrite H, H0, H1, H2. by destruct t.
Qed.
Lemma runs_route t pcb src dst (Q : bool → tstate → Prop) :
  routed t pcb dst → Q true t → runs (tcp_route pcb (Some src) dst) t Q.
Proof.
  intros Hr HQ. destruct pcb as [l|]; simpl in *; [|eapply runs_eq; [by apply route_ready|done]].
  destruct Hr as (b & Hb & Hr). apply runs_bind. eapply runs_ask; [unfold get_blk; by rewrite Hb|].
  destruct (blk_netif_idx b =? NETIF_NO_INDEX); cbn [negb].
  - eapply runs_eq; [by apply route_ready|done].
  - apply runs_gets. by rewrite Hr.
Qed.
Definition sends_as t (pcb : option loc) ttl tos : Prop :=
  match pcb with
  | None => ttl = TCP_TTL ∧ tos = 0
  | Some l => ∃ b, tcp_mem t !! l = Some b ∧ ttl = blk_ttl b ∧ tos = blk_tos b
  end.
Lemma runs_ttl_tos t w pcb ttl tos (Q : Z * Z → W → Prop) :
  sends_as t pcb ttl tos → Q (ttl, tos) (part_set t w) → runs (lift (ttl_tos pcb)) (part_set t w) Q.
Proof.
  intros Hs HQ. apply runs_part. destruct pcb as [l|]; simpl in *.
  - destruct Hs as (b & Hb & -> & ->). apply runs_bind. eapply runs_ask; [unfold get_blk; by rewrite Hb|]. by apply runs_ret.
  - destruct Hs as [-> ->]. by apply runs_ret.
Qed.

(** The state [t'] differs from [t] in the heap [s0] only by the packet [p], which
    is an IP packet around the segment [seg], with both checksums right. *)
Record packet_out (s0 : store) (t t' : tstate) p src dst ttl tos (seg : list Z) : Prop := {
  po_tcp : t' = t <| t_ip := t_ip t' |>;
  po_packet : ∃ c cs ipchk, packet (tcp_store t') p (c :: cs) ∧ is_u16 ipchk ∧
    bytes (c :: cs) = ip_header tos (zlen seg + 20) (ip_id (t_ip t)) ttl IP_PROTO_TCP ipchk src dst ++ seg ∧
    inet_chksum (tcp_store t') (pb_payload (c_pbuf c)) 20 = Val 0;
  po_checksum : verifies src dst IP_PROTO_TCP seg;
  po_else l : Some l ≠ p → pbufs (tcp_store t') !! l = pbufs s0 !! l ∧ blocks (tcp_store t') !! l = blocks s0 !! l
}.

(** The packet goes out, and is then freed here. *)
Definition transmit (p : option loc) (dst : Z) : M W err_t :=
  let! err := netif_output p dst in
  let! _ := lift (P := tstate) (lift (P := ipstate) (lift (P := store) (pbuf_free p))) in ret err.

Lemma control_segment_calls t w pcb s0 p c hdr src dst ttl tos :
  control_packet s0 (tcp_store t) p c hdr → 20 ≤ zlen hdr ≤ 60 → zslice 16 2 hdr = [0; 0] → Forall is_u8 hdr →
  routed t pcb dst → sends_as t pcb ttl tos → ip4_addr_isany src = false →
  header_fields tos (zlen hdr + 20) (ip_id (t_ip t)) ttl IP_PROTO_TCP src dst →
  calls (tcp_output_control_segment pcb p src dst) (part_set t w) (transmit p dst)
    (λ w', ∃ t' chk, w' = part_set t' w ∧ is_u16 chk ∧
      packet_out s0 t t' p src dst ttl tos (zsplice 16 [chk mod 256; chk / 256] hdr)).
Proof.
  intros [(s1 & Hfresh & Hs) Hq] Hlen Hz Hu Hr Has Hany Hf. pose proof Hf as [].
  pose proof (hs_packet _ _ _ _ _ _ _ _ Hs) as Hpk. rewrite app_nil_r in Hpk.
  unfold tcp_output_control_segment. apply calls_bind, runs_assert.
  { apply packet_seg, lseg_head in Hpk as [-> _]. by apply bool_decide_eq_true_2. }
  apply calls_bind, runs_part, runs_route; [exact Hr|].
  cbn [negb]. eapply calls_seq, calls_bind. eapply runs_tfield; [exact Hpk|].
  apply calls_bind. eapply runs_tfield; [exact Hpk|]. cbn [c_pbuf].
  assert (pb_tot_len (c_pbuf c) = zlen hdr) as -> by by rewrite Hq.
  pose proof (zlen_nonneg hdr).
  destruct (tcp_checksum_spec _ _ _ _ _ _ _ _ src dst (zlen hdr) Hs) as (chk & Hchk & Hc16 & Hv & Hw);
    rewrite ?app_nil_r; [lia|done|done|unfold is_u16; bounds; lia|done|done|done|].
  apply calls_bind, runs_tstore. eapply runs_ask; [exact Hchk|]. rewrite with_store_id.
  apply calls_bind, runs_tstore. eapply runs_mono; [exact Hw|]. intros [] s2 Hs2.
  apply calls_bind. eapply runs_ttl_tos; [exact Has|].
  set (seg := zsplice 16 [chk mod 256; chk / 256] hdr) in *.
  pose proof (hs_packet _ _ _ _ _ _ _ _ Hs2) as Hpk2. rewrite app_nil_r in Hpk2.
  assert (zlen seg = zlen hdr) as Hls by (apply (hs_len _ _ _ _ _ _ _ _ Hs2)).
  assert (total [mk_cell (c_loc c) (c_pbuf c) seg] = zlen hdr) as Htot by (rewrite total_cons, total_nil; simpl; lia).
  eapply calls_mono.
  - apply (tcp_ip_output_calls (with_store t s2) w _ _ _ src dst ttl tos Hpk2).
    + apply (packet_headroom _ _ _ _ _ 64 Hpk2); rewrite ?Hq; [done|done|done|simpl; lia].
    + done.
    + by rewrite Hq.
    + done.
    + rewrite Htot. bounds. lia.
    + by rewrite Htot.
  - intros w' (s' & c' & cs & ipchk & -> & Hpk' & Hip & Hb & Hz' & [Ho1 Ho2 _ _]).
    eexists _, chk. split; [reflexivity|]. split; [done|]. rewrite app_nil_r in Hv.
    assert (bytes [mk_cell (c_loc c) (c_pbuf c) seg] = seg) as Hbs by (cbn; apply app_nil_r). rewrite Hbs in Hb.
    pose proof (packet_seg _ _ _ Hpk') as (-> & _). pose proof (packet_seg _ _ _ Hpk) as ([= Hloc] & _). cbn in Hloc.
    split; [done|by exists c', cs, ipchk|done|].
    intros l Hl. assert (l ≠ c_loc c') as Hne by congruence. assert (l ∉ [c_loc c']) as Hni by set_solver.
    assert (l ∉ locs [c]) as Hni' by (cbn; rewrite <- Hloc; set_solver).
    change (tcp_store (with_store t s2)) with s2 in *. destruct Hs2 as [_ _ _ Hp2 _ _ Hb2 _].
    rewrite Ho1, Ho2, Hp2, (Hb2 l) by congruence.
    split; [apply (fc_pbufs _ _ _ _ _ Hfresh _ Hni')|apply (fc_blocks _ _ _ _ _ Hfresh _ Hni')].
Qed.

Lemma fill_options_spec t pcb s0 p c h junk k :
  control_packet s0 (tcp_store t) p c (h ++ junk) → zlen h = 20 → 0 ≤ k ≤ 4 →
  zlen junk = (if 0 <? k then 4 + k * 8 else 0) →
  (0 < k → ∃ l cb, pcb = Some l ∧ tcp_mem t !! l = Some (Conn_pcb cb) ∧ k ≤ zlen (tp_rcv_sacks cb) ∧
    Forall (λ x, is_u32 (fst x) ∧ is_u32 (snd x)) (tp_rcv_sacks cb)) →
  runs (tcp_output_fill_options pcb p 0 k) t (λ _ t', ∃ s' opts, t' = with_store t s' ∧
    control_packet s0 s' p c (h ++ opts) ∧
    (k = 0 ∧ opts = [] ∨ 0 < k ∧ ∃ l cb, pcb = Some l ∧ tcp_mem t !! l = Some (Conn_pcb cb) ∧ opts = sack_option (ztake k (tp_rcv_sacks cb)))).
Proof.
  intros Hc Hh Hk Hj Hcb. pose proof Hc as [(s1 & Hfresh & Hs) Hq]. pose proof (hs_packet _ _ _ _ _ _ _ _ Hs) as Hpk.
  unfold tcp_output_fill_options. apply runs_bind, runs_assert.
  { apply packet_seg, lseg_head in Hpk as [-> _]. by apply bool_decide_eq_true_2. }
  apply runs_bind, runs_tst. eapply runs_head; [exact Hpk|]. rewrite with_store_id. cbn [c_pbuf].
  destruct (0 <? k) eqn:E; bool_prop.
  - destruct (Hcb E) as (l & cb & -> & Hl & Hkl & Hu). apply runs_bind, runs_bind.
    eapply runs_ask; [unfold get_tcp; by rewrite Hl|].
    apply runs_bind, runs_tst. eapply runs_mono.
    { eapply (build_sack_option_spec _ _ _ _ _ _ _ _ cb TCP_HLEN k Hs); [done|lia|lia| |done].
      rewrite zlen_app. unfold TCP_HLEN. lia. }
    intros [] s2 Hs2. apply runs_ret, runs_assert; [by rewrite Z.eqb_eq, Z.add_0_r|].
    assert (zlen (ztake k (tp_rcv_sacks cb)) = k) as Hzk by (apply zlen_ztake; lia).
    rewrite zsplice_app_r in Hs2 by (unfold TCP_HLEN; lia). rewrite Hh, Z.sub_diag in Hs2.
    rewrite zsplice_0, zlen_sack_option, Hzk in Hs2 by (rewrite zlen_sack_option; lia).
    rewrite zdrop_ge, app_nil_r in Hs2 by lia.
    exists s2, (sack_option (ztake k (tp_rcv_sacks cb))). split_and!; [done| |right; split; [done|]; by exists l, cb].
    assert (zlen (h ++ junk) = zlen (h ++ sack_option (ztake k (tp_rcv_sacks cb)))) as Hl2
      by (rewrite !zlen_app, zlen_sack_option; lia).
    split; rewrite <- Hl2; [by exists s1|done].
  - assert (k = 0) as -> by lia. apply zlen_0_nil in Hj as ->.
    apply runs_bind. destruct pcb; apply runs_ret, runs_assert; [done| |done|];
      (exists (tcp_store t), []; split_and!; [by rewrite with_store_id|done|by left]).
Qed.

Lemma store_checksum_header sport dport seqno ackno words flags wnd chk opts :
  zsplice 16 [chk mod 256; chk / 256] (tcp_header sport dport seqno ackno words flags wnd 0 ++ opts) =
  tcp_header sport dport seqno ackno words flags wnd chk ++ opts.
Proof. reflexivity. Qed.

(** C25: a reset on the wire.  When the next [malloc] succeeds, and there is an
    interface to send by, [tcp_rst] comes down to one call of the driver, on a
    packet in fresh memory that is an IPv4 packet from the local to the remote
    address around a TCP header with the given ports and numbers and the flags RST
    and ACK, with both checksums right, and which is freed afterwards; the state of
    TCP is as before.  When that [malloc] returns null, and only then, nothing
    happens.  The window of the header is 65280, the 255 of the configuration with
    its bytes swapped. *)
Theorem tcp_rst_spec t w pcb seqno ackno lip rip lport rport ttl tos :
  heap_ok (tcp_store t) → is_u16 lport → is_u16 rport → is_u32 seqno → is_u32 ackno →
  routed t pcb rip → sends_as t pcb ttl tos → ip4_addr_isany lip = false →
  header_fields tos 40 (ip_id (t_ip t)) ttl IP_PROTO_TCP lip rip →
  if memory_left (tcp_store t) then
    ∃ p, calls (tcp_rst pcb seqno ackno lip rip lport rport) (part_set t w) (let! _ := transmit p rip in ret tt)
      (λ w', ∃ t' chk, w' = part_set t' w ∧ is_u16 chk ∧
         packet_out (tcp_store t) t t' p lip rip ttl tos
           (tcp_header lport rport seqno ackno 5 (Z.lor TCP_RST TCP_ACK) 65280 chk))
  else ∃ s', no_leak (tcp_store t) s' ∧
    tcp_rst pcb seqno ackno lip rip lport rport (part_set t w) = Val (tt, part_set (with_store t s') w).
Proof.
  intros Hok Hlp Hrp Hsn Han Hr Has Hany Hf. unfold tcp_rst. change (LWIP_TCP_OPT_LENGTH 0) with 0.
  change (lwip_htons _) with 65280.
  assert (tcp_fields lport rport seqno ackno (Z.lor TCP_RST TCP_ACK) 65280) as Htf by done.
  pose proof (alloc_header_common_spec (tcp_store t) ackno 0 seqno lport rport _ _ Hok ltac:(lia) eq_refl Htf) as Ha.
  apply runs_inv in Ha as (p & s1 & Hrun & Hp). destruct p as [l|].
  - destruct Hp as (-> & c & junk & Hj & Hc). apply zlen_0_nil in Hj as ->. exists (Some l).
    apply calls_bind, runs_tstore. eapply runs_eq; [exact Hrun|].
    apply calls_bind, runs_part. eapply runs_mono; [eapply (fill_options_spec _ _ _ _ _ _ [] 0); [exact Hc|done|lia|done|lia]|].
    intros [] t2 (s2 & opts & -> & Hc2 & Hopts). assert (opts = []) as ->.
    { pose proof (control_packet_len _ _ _ _ _ _ _ Hc Hc2) as Hl. rewrite !zlen_app in Hl. change (zlen (@nil Z)) with 0 in Hl. apply zlen_0_nil. lia. }
    apply calls_seq. eapply calls_mono.
    + apply (control_segment_calls (with_store t s2) w pcb (tcp_store t) _ c _ lip rip ttl tos Hc2); try done.
      apply Forall_app_2; [by apply tcp_header_u8|apply Forall_nil_2].
    + intros w' (t' & chk & -> & Hchk & Ho). rewrite store_checksum_header, app_nil_r in Ho. exists t', chk.
      split_and!; [done|done|]. destruct Ho as [H1 H2 H3 H4]. split; [by rewrite H1|exact H2|exact H3|exact H4].
  - destruct Hp as [-> Hleak]. exists s1. split; [done|]. unfold mbnd.
    match goal with |- match ?m _ with _ => _ end = _ => assert (runs m (part_set t w) (λ a w', a = None ∧ w' = part_set (with_store t s1) w)) as Hm end.
    { apply runs_tstore. by eapply runs_eq. }
    apply runs_inv in Hm as (? & ? & -> & -> & ->). reflexivity.
Qed.

(** The selective acknowledgements that are sent. *)
Definition sacks_out (cb : tcp_pcb) : list (Z * Z) := ztake (tcp_get_num_sacks cb 0) (tp_rcv_sacks cb).
Definition ack_options (cb : tcp_pcb) : list Z := match sacks_out cb with [] => [] | sacks => sack_option sacks end.

Lemma count_sacks_range sacks : ∀ o, 0 ≤ count_sacks sacks o ≤ zlen sacks.
Proof.
  induction sacks as [|x l IH]; intros o; cbn [count_sacks]; [by split|]. rewrite zlen_cons. pose proof (zlen_nonneg l).
  destruct (_ && _); [|lia]. specialize (IH (u8 (o + 8))). lia.
Qed.
Lemma num_sacks_range cb o : 0 ≤ tcp_get_num_sacks cb o ≤ 4 ∧ tcp_get_num_sacks cb o ≤ zlen (tp_rcv_sacks cb).
Proof.
  unfold tcp_get_num_sacks. pose proof (zlen_nonneg (tp_rcv_sacks cb)). destruct (tcp_is_flag_set _ _); [|lia].
  pose proof (count_sacks_range (take LWIP_TCP_MAX_SACK_NUM (tp_rcv_sacks cb)) (u8 (o + 12))) as [? Hc].
  unfold zlen in *. rewrite length_take in Hc. unfold LWIP_TCP_MAX_SACK_NUM in *. lia.
Qed.
Lemma zlen_sacks_out cb : zlen (sacks_out cb) = tcp_get_num_sacks cb 0.
Proof. apply zlen_ztake. pose proof (num_sacks_range cb 0). lia. Qed.
Lemma zlen_ack_options cb : zlen (ack_options cb) = if 0 <? tcp_get_num_sacks cb 0 then 4 + tcp_get_num_sacks cb 0 * 8 else 0.
Proof.
  unfold ack_options. rewrite <- zlen_sacks_out. destruct (sacks_out cb) as [|x l]; [done|].
  rewrite zlen_sack_option, zlen_cons. pose proof (zlen_nonneg l). rewrite (proj2 (Z.ltb_lt _ _)) by lia. lia.
Qed.

Definition announced (cb : tcp_pcb) : tcp_pcb := cb <| tp_rcv_ann_right_edge := u32 (tp_rcv_nxt cb + tp_rcv_ann_wnd cb) |>.
Definition ACK_FLAGS : Z := Z.lor TF_ACK_DELAY TF_ACK_NOW.

Lemma runs_get_tcp t w l cb (Q : tcp_pcb → W → Prop) :
  tcp_mem t !! l = Some (Conn_pcb cb) → Q cb (part_set t w) → runs (lift (ask (λ t, get_tcp t l))) (part_set t w) Q.
Proof. intros Hcb HQ. apply runs_part. eapply runs_ask; [unfold get_tcp; by rewrite Hcb|done]. Qed.
Lemma runs_update_tcp t w l cb f (Q : unit → W → Prop) :
  tcp_mem t !! l = Some (Conn_pcb cb) → Q tt (part_set (put_blk l (Conn_pcb (f cb)) t) w) →
  runs (lift (update_tcp l f)) (part_set t w) Q.
Proof. intros Hcb HQ. apply runs_part. unfold runs, update_tcp, get_tcp. by rewrite Hcb. Qed.

(** The header of a segment of the connection, or no memory. *)
Lemma alloc_header_spec t l cb optlen seqno :
  heap_ok (tcp_store t) → tcp_mem t !! l = Some (Conn_pcb cb) → 0 ≤ optlen ≤ 40 → optlen mod 4 = 0 →
  is_u16 (tp_local_port cb) → is_u16 (tp_remote_port cb) → is_u32 seqno → is_u32 (tp_rcv_nxt cb) →
  runs (tcp_output_alloc_header l optlen 0 (lwip_htonl seqno)) t (λ p t', ∃ s',
    match p with
    | None => memory_left (tcp_store t) = false ∧ no_leak (tcp_store t) s' ∧ t' = with_store t s'
    | Some _ => memory_left (tcp_store t) = true ∧ ∃ c junk, zlen junk = optlen ∧ t' = put_blk l (Conn_pcb (announced cb)) (with_store t s') ∧
        control_packet (tcp_store t) s' p c
          (tcp_header (tp_local_port cb) (tp_remote_port cb) seqno (tp_rcv_nxt cb) (5 + optlen / 4) TCP_ACK (ann_wnd cb) 0 ++ junk)
    end).
Proof.
  intros Hok Hcb Ho Hom Hlp Hrp Hsn Hrn. unfold tcp_output_alloc_header.
  apply runs_bind. eapply runs_ask; [unfold get_tcp; by rewrite Hcb|]. apply runs_bind, runs_tst.
  assert (tcp_fields (tp_local_port cb) (tp_remote_port cb) seqno (tp_rcv_nxt cb) TCP_ACK (ann_wnd cb)) as Htf.
  { split; try done. apply u16_range. }
  eapply runs_mono; [by apply alloc_header_common_spec|]. intros [p|] s1 Hp.
  - destruct Hp as (Hleft & c & junk & Hj & Hc). apply runs_bind. unfold runs at 1, update_tcp, get_tcp. simpl. rewrite Hcb.
    apply runs_ret. exists s1. split; [done|]. exists c, junk. by split_and!.
  - apply runs_bind, runs_ret, runs_ret. exists s1. by destruct Hp.
Qed.

(** C24: an acknowledgement on the wire.  When the next [malloc] succeeds,
    [tcp_send_empty_ack] comes down to one call of the driver, on a packet in fresh
    memory: an IPv4 packet from the local to the remote address of the connection
    around a TCP header with its ports, the next sequence number to send, the next
    one expected, the flag ACK and the announced window, and the selective
    acknowledgements that fit, with both checksums right.  The right edge of the
    announced window is noted, and the flags that ask for an acknowledgement are
    cleared when the driver took the packet, set when it did not or when that
    [malloc] returns null, which is the only case in which nothing is sent. *)
Theorem tcp_send_empty_ack_spec t w l cb :
  let opts := ack_options cb in
  heap_ok (tcp_store t) → tcp_mem t !! l = Some (Conn_pcb cb) →
  is_u16 (tp_local_port cb) → is_u16 (tp_remote_port cb) → is_u32 (tp_snd_nxt cb) → is_u32 (tp_rcv_nxt cb) →
  Forall (λ x, is_u32 (fst x) ∧ is_u32 (snd x)) (tp_rcv_sacks cb) →
  routed t (Some l) (tp_remote_ip cb) → ip4_addr_isany (tp_local_ip cb) = false →
  header_fields (tp_tos cb) (40 + zlen opts) (ip_id (t_ip t)) (tp_ttl cb) IP_PROTO_TCP (tp_local_ip cb) (tp_remote_ip cb) →
  if memory_left (tcp_store t) then
    ∃ p, calls (tcp_send_empty_ack l) (part_set t w)
     (let! err := transmit p (tp_remote_ip cb) in
      do! (if is_ok err then lift (tcp_clear_flags l ACK_FLAGS) else lift (tcp_set_flags l ACK_FLAGS)); ret err)
     (λ w', ∃ t' chk, w' = part_set t' w ∧ is_u16 chk ∧
        packet_out (tcp_store t) (put_blk l (Conn_pcb (announced cb)) t) t' p
          (tp_local_ip cb) (tp_remote_ip cb) (tp_ttl cb) (tp_tos cb)
          (tcp_header (tp_local_port cb) (tp_remote_port cb) (tp_snd_nxt cb) (tp_rcv_nxt cb) (5 + zlen opts / 4) TCP_ACK
             (ann_wnd cb) chk ++ opts))
  else ∃ s', no_leak (tcp_store t) s' ∧ tcp_send_empty_ack l (part_set t w) =
    Val (ERR_BUF, part_set (put_blk l (Conn_pcb (cb <| tp_flags := u16 (Z.lor (tp_flags cb) ACK_FLAGS) |>)) (with_store t s')) w).
Proof.
  intros opts Hok Hcb Hlp Hrp Hsn Hrn Hsacks Hr Hany Hf. destruct (num_sacks_range cb 0) as [Hk4 Hkl].
  pose proof (zlen_ack_options cb) as Hol. fold opts in Hol.
  assert (0 ≤ zlen opts ≤ 40 ∧ zlen opts mod 4 = 0) as [Ho4 Hom].
  { rewrite Hol. destruct (0 <? _); [|done]. split; [lia|]. Z.div_mod_to_equations. lia. }
  pose proof (alloc_header_spec t l cb (zlen opts) (tp_snd_nxt cb) Hok Hcb Ho4 Hom Hlp Hrp Hsn Hrn) as Ha.
  apply runs_inv in Ha as (p & t1 & Hrun & s1 & Hp).
  unfold tcp_send_empty_ack. change (LWIP_TCP_OPT_LENGTH 0) with 0. set (k := tcp_get_num_sacks cb 0) in *.
  destruct p as [p|].
  - destruct Hp as (-> & c & junk & Hj & -> & Hc). exists (Some p).
    apply calls_bind. eapply runs_get_tcp; [exact Hcb|]. fold k. rewrite Z.add_0_l, <- Hol.
    apply calls_bind, runs_part. eapply runs_eq; [exact Hrun|].
    set (t1 := put_blk l _ _) in *.
    assert (tcp_mem t1 !! l = Some (Conn_pcb (announced cb))) as Hcb1 by apply lookup_insert_eq.
    apply calls_bind, runs_part. eapply runs_mono.
    { eapply (fill_options_spec t1 (Some l) _ _ c _ junk k Hc); [done|done|congruence|]. intros _. by exists l, (announced cb). }
    intros [] t2 (s2 & opts2 & -> & Hc2 & Hopts). assert (opts2 = opts) as ->.
    { destruct Hopts as [[Hk ->]|(Hk & ? & ? & [= <-] & Hcb' & ->)].
      - rewrite Hk in Hol. symmetry. by apply zlen_0_nil.
      - rewrite Hcb1 in Hcb'. injection Hcb' as <-. unfold opts, ack_options, sacks_out. pose proof (zlen_sacks_out cb) as Hz.
        unfold sacks_out in Hz. fold k in Hz |- *. change (tp_rcv_sacks (announced cb)) with (tp_rcv_sacks cb).
        destruct (ztake k (tp_rcv_sacks cb)); [change (zlen (@nil (Z * Z))) with 0 in Hz; lia|done]. }
    apply calls_seq.
    eapply calls_mono.
    + apply (control_segment_calls (with_store t1 s2) w (Some l) (tcp_store t) _ c _ (tp_local_ip cb) (tp_remote_ip cb) (tp_ttl cb) (tp_tos cb) Hc2); try done.
      * rewrite zlen_app. change (zlen (tcp_header _ _ _ _ _ _ _ _)) with 20. lia.
      * apply Forall_app_2; [apply tcp_header_u8; [split; try done; apply u16_range|Z.div_mod_to_equations; lia|done]|].
        unfold opts, ack_options, sacks_out. destruct (ztake _ _) eqn:E; [apply Forall_nil_2|]. rewrite <- E.
        apply sack_option_u8; [by apply Forall_take|rewrite zlen_ztake by lia; lia].
      * destruct Hr as (b & Hb & Hr). rewrite Hcb in Hb. injection Hb as <-. by exists (Conn_pcb (announced cb)).
      * by exists (Conn_pcb (announced cb)).
      * rewrite zlen_app. change (zlen (tcp_header _ _ _ _ _ _ _ _)) with 20. by replace (20 + zlen opts + 20) with (40 + zlen opts) by lia.
    + intros w' (t' & chk & -> & Hchk & Ho). rewrite store_checksum_header in Ho. exists t', chk.
      split_and!; [done|done|]. destruct Ho as [H1 H2 H3 H4]. split; [by rewrite H1|exact H2|exact H3|exact H4].
  - destruct Hp as (-> & Hleak & ->). exists s1. split; [done|].
    assert (get_tcp (part_get (part_set t w)) l = Val cb) as Hg by (rewrite part_get_set; unfold get_tcp; by rewrite Hcb).
    unfold mbnd, lift at 1, ask. rewrite Hg. cbn [rbind]. rewrite part_set_get. fold k. rewrite Z.add_0_l, <- Hol.
    unfold lift. rewrite part_get_set, Hrun, !part_set_set, part_get_set.
    unfold tcp_set_flags, update_tcp, get_tcp. simpl. rewrite Hcb. simpl. by rewrite part_set_set.
Qed.
End output.

(** ** A connection and its acknowledgement *)

#[local] Existing Instance part_self.
#[local] Instance ex_wire_driver : netif_driver tstate := { netif_output _ _ := ret ERR_OK }.

Definition ex_wire_pcb : tcp_pcb :=
  (fresh_pcb 64 0 0) <| tp_local_ip := 16777482 |> <| tp_remote_ip := 33554698 |> <| tp_local_port := 50000 |>
    <| tp_remote_port := 443 |> <| tp_snd_nxt := 1000 |> <| tp_rcv_nxt := 4294967295 |> <| tp_state := ESTABLISHED |>.
(** An interface that is up, and one connection. *)
Definition ex_wire : tstate :=
  mk_tstate (mk_ipstate (mk_store ∅ ∅ 3 [Some (replicate 96 7)] ∅ sys_mbox_new false) (mk_netif 0 0 0 1500 5 0) true no_packet 7)
    {[2%positive := Conn_pcb ex_wire_pcb]} ∅ [] [] [2%positive] [] false 0 0 0 0 6510 None 0 no_segment.
Lemma ex_wire_heap : heap_ok (tcp_store ex_wire).
Proof. intros l _. done. Qed.

Lemma ex_wire_routed : routed ex_wire (Some 2%positive) 33554698.
Proof. exists (Conn_pcb ex_wire_pcb). split; reflexivity. Qed.
Lemma ex_wire_fields : header_fields 0 40 7 255 IP_PROTO_TCP 16777482 33554698.
Proof. by split; vm_compute. Qed.
Lemma tcp_rst_spec_witness : ∃ p w' chk,
  tcp_rst (W := tstate) (Some 2%positive) 1 2 16777482 33554698 80 4000 ex_wire = (let! _ := transmit p 33554698 in ret tt) w' ∧
  packet_out (tcp_store ex_wire) ex_wire w' p 16777482 33554698 255 0 (tcp_header 80 4000 1 2 5 20 65280 chk).
Proof.
  assert (is_u16 80 ∧ is_u16 4000 ∧ is_u32 1 ∧ is_u32 2) as (H80 & H4000 & Hu1 & Hu2) by (unfold is_u16, is_u32; lia).
  assert (sends_as ex_wire (Some 2%positive) 255 0) as Has by (exists (Conn_pcb ex_wire_pcb); split_and!; reflexivity).
  assert (ip4_addr_isany 16777482 = false) as Hany by reflexivity.
  destruct (tcp_rst_spec ex_wire ex_wire (Some 2%positive) 1 2 16777482 33554698 80 4000 255 0 ex_wire_heap
    H80 H4000 Hu1 Hu2 ex_wire_routed Has Hany ex_wire_fields) as (p & w' & Hrun & t' & chk & -> & _ & Hout).
  exists p, t', chk. split; [exact Hrun|exact Hout].
Defined.

Lemma tcp_send_empty_ack_spec_witness : ∃ p w' chk,
  tcp_send_empty_ack (W := tstate) 2%positive ex_wire =
    (let! err := transmit p 33554698 in
     do! (if is_ok err then lift (tcp_clear_flags 2%positive ACK_FLAGS) else lift (tcp_set_flags 2%positive ACK_FLAGS)); ret err) w' ∧
  packet_out (tcp_store ex_wire) (put_blk 2%positive (Conn_pcb (announced ex_wire_pcb)) ex_wire) w' p 16777482 33554698 255 0
    (tcp_header 50000 443 1000 4294967295 5 16 (ann_wnd ex_wire_pcb) chk).
Proof.
  assert (is_u16 50000 ∧ is_u16 443 ∧ is_u32 1000 ∧ is_u32 4294967295) as (H1 & H2 & H3 & H4) by (unfold is_u16, is_u32; lia).
  assert (tcp_mem ex_wire !! 2%positive = Some (Conn_pcb ex_wire_pcb)) as Hcb by reflexivity.
  assert (Forall (λ x, is_u32 (fst x) ∧ is_u32 (snd x)) (tp_rcv_sacks ex_wire_pcb)) as Hsacks
    by (repeat constructor; simpl; lia).
  assert (ip4_addr_isany 16777482 = false) as Hany by reflexivity.
  destruct (tcp_send_empty_ack_spec ex_wire ex_wire 2%positive ex_wire_pcb ex_wire_heap Hcb H1 H2 H3 H4 Hsacks
    ex_wire_routed Hany ex_wire_fields) as (p & w' & Hrun & t' & chk & -> & _ & Hout).
  exists p, t', chk. split; [exact Hrun|exact Hout].
Defined.
