(* ===== verification/TcpSegment.v ===== *)
(** * TCP: segments in the queues

    What a segment of [tp_unsent] and [tp_unacked] holds ([segment]), and what goes
    on the wire when it is sent ([tcp_output_segment]). *)

From S2P Require Import Prelude Mbox Heap HeapFacts Pbuf Packet PbufFacts PbufAlloc PbufChain Def Chksum Addr Timeouts Header Ip4 Ip4Facts Ip4InFacts.
From S2P Require Import Tcp TcpOut TcpSend UdpInput UdpOutput TcpWire.

Implicit Types s : store.

(** ** The contents of a segment *)

(** The header as [tcp_create_segment] leaves it: [ack], [wnd] and [chk] are filled
    in when the segment is sent. *)
Definition seg_header (sport dport seqno words flags : Z) (ack wnd chk : list Z) : list Z :=
  be16 sport ++ be16 dport ++ be32 seqno ++ ack ++ [words * 16; flags] ++ wnd ++ chk ++ [0; 0].

Record seg_fields := mk_seg_fields {
  sf_sport : Z; sf_dport : Z; sf_seqno : Z; sf_flags : Z; sf_opts : list Z; sf_data : list Z
}.
Definition sf_words (f : seg_fields) : Z := 5 + zlen (sf_opts f) / 4.

Record good_fields (f : seg_fields) : Prop := {
  gf_sport : is_u16 (sf_sport f); gf_dport : is_u16 (sf_dport f); gf_seqno : is_u32 (sf_seqno f); gf_flags : is_u8 (sf_flags f);
  gf_opts : zlen (sf_opts f) ≤ 40 ∧ zlen (sf_opts f) mod 4 = 0
}.

(** The packet of [g] holds, behind the bytes [pre] of lower layers, the header, the
    options and the data; header and options are in the first pbuf, with
    room for an IP header before them. *)
Record segment s (g : tcp_seg) (pre ack wnd chk : list Z) (f : seg_fields) (c : cell) (cs : list cell) (rest : list Z) : Prop := {
  sg_packet : packet s (seg_p g) (c :: cs);
  sg_own : Forall own_data (c :: cs);
  sg_head : c_data c = (pre ++ seg_header (sf_sport f) (sf_dport f) (sf_seqno f) (sf_words f) (sf_flags f) ack wnd chk ++ sf_opts f) ++ rest;
  sg_data : sf_data f = rest ++ bytes cs;
  sg_unset : zlen ack = 4 ∧ zlen wnd = 2 ∧ zlen chk = 2;
  sg_hdr : ∃ o, pb_payload (c_pbuf c) = Some (mk_ptr (c_loc c) o) ∧ SIZEOF_STRUCT_PBUF + 20 ≤ o + zlen pre ∧
    seg_tcphdr g = Some (mk_ptr (c_loc c) (o + zlen pre));
  sg_type : Z.land (pb_type_internal (c_pbuf c)) PBUF_TYPE_FLAG_STRUCT_DATA_CONTIGUOUS ≠ 0;
  sg_len : seg_len g = zlen (sf_data f);
  sg_optlen : zlen (sf_opts f) = LWIP_TCP_OPT_LENGTH (seg_flags g);
  sg_fields : good_fields f
}.

Lemma opt_length_range flags : 0 ≤ LWIP_TCP_OPT_LENGTH flags ≤ 12 ∧ LWIP_TCP_OPT_LENGTH flags mod 4 = 0.
Proof. unfold LWIP_TCP_OPT_LENGTH. repeat case_match; done. Qed.

Lemma zlen_seg_header sport dport seqno words flags ack wnd chk :
  zlen ack = 4 → zlen wnd = 2 → zlen chk = 2 → zlen (seg_header sport dport seqno words flags ack wnd chk) = 20.
Proof.
  intros Ha Hw Hk. unfold seg_header. rewrite !zlen_app, Ha, Hw, Hk. reflexivity.
Qed.

(** ** The options of SYN segments *)

Definition syn_options (flags mss : Z) : list Z :=
  (if has_bits flags TF_SEG_OPTS_MSS then [2; 4; mss / 256; mss mod 256] else []) ++
  (if has_bits flags TF_SEG_OPTS_WND_SCALE then [1; 3; 3; TCP_RCV_SCALE] else []) ++
  (if has_bits flags TF_SEG_OPTS_SACK_PERM then [1; 1; 4; 2] else []).

Lemma zlen_syn_options flags mss : zlen (syn_options flags mss) = LWIP_TCP_OPT_LENGTH flags.
Proof. unfold syn_options, LWIP_TCP_OPT_LENGTH. by repeat case_match. Qed.
Lemma syn_options_u8 flags mss : is_u16 mss → Forall is_u8 (syn_options flags mss).
Proof.
  intros Hm. assert (Forall is_u8 [2; 4; mss / 256; mss mod 256]) as H1.
  { apply Forall_app_2 with (l1 := [2; 4]); [repeat (apply Forall_cons_2; [unfold is_u8; lia|]); apply Forall_nil_2|by apply be16_u8]. }
  unfold syn_options. repeat apply Forall_app_2; case_match; try done; try apply Forall_nil_2;
    repeat (apply Forall_cons_2; [unfold is_u8, TCP_RCV_SCALE; lia|]); apply Forall_nil_2.
Qed.

Lemma mss_option mss : is_u16 mss → be32 (Z.lor 0x02040000 (Z.land mss 65535)) = [2; 4; mss / 256; mss mod 256].
Proof.
  intros Hm. change 65535 with (Z.ones 16). rewrite land_low by done. bounds. rewrite Z.mod_small by lia.
  change 33816576 with (516 * 2 ^ 16). rewrite (lor_add 16) by (bounds; lia). bounds. unfold be32.
  repeat apply (f_equal2 cons); [Z.div_mod_to_equations; lia..|done].
Qed.

(** Through a pointer into the first pbuf. *)
Lemma mem_write_at a n o bs : mem_write (Some (mk_ptr (blk a) (off a + n))) o bs = mem_write (Some a) (n + o) bs.
Proof. unfold mem_write. simpl. by rewrite Z.add_assoc. Qed.
Lemma mem_read_shift' s a n o m : mem_read s (Some (mk_ptr (blk a) (off a + n))) o m = mem_read s (Some a) (n + o) m.
Proof. unfold mem_read. simpl. by rewrite Z.add_assoc. Qed.

(** The options, written word by word at [h] into bytes [d] that [P] describes,
    [h] being [k] bytes into them. *)
Lemma write_syn_options_gen (P : store → list Z → Prop) h k n s d flags mss :
  (∀ s o d v, P s d → 0 ≤ o → k + o + 4 ≤ n → is_u32 v →
     runs (wr32 h o (lwip_htonl v)) s (λ _ s', P s' (zsplice (k + o) (be32 v) d))) →
  P s d → zlen d = n → 0 ≤ k → is_u16 mss → k + TCP_HLEN + LWIP_TCP_OPT_LENGTH flags ≤ n →
  runs (write_syn_options h flags mss) s (λ o s',
    o = TCP_HLEN + LWIP_TCP_OPT_LENGTH flags ∧ P s' (zsplice (k + TCP_HLEN) (syn_options flags mss) d)).
Proof.
  intros Hw Hs Hd Hk Hm Hn. unfold write_syn_options, LWIP_TCP_OPT_LENGTH, tcp_build_wnd_scale_option, TCP_HLEN in *.
  assert (∀ fl (opt : list Z) v, opt = be32 v → is_u32 v → ∀ s o d, P s d → 0 ≤ o → k + o + (if has_bits flags fl then 4 else 0) ≤ n →
    runs (if has_bits flags fl then (do! wr32 h o (lwip_htonl v); ret (o + 4)) else ret o) s
      (λ o' s', o' = o + (if has_bits flags fl then 4 else 0) ∧
        P s' (zsplice (k + o) (if has_bits flags fl then opt else []) d))) as Hopt.
  { clear s d Hs Hn Hd. intros fl opt v -> Hv s o d Hs Ho Hn. destruct (has_bits flags fl).
    - apply runs_bind. eapply runs_mono; [apply (Hw _ o d v Hs Ho); [lia|done]|]. intros [] s' Hs'. by apply runs_ret.
    - apply runs_ret. rewrite zsplice_nil by lia. split; [lia|done]. }
  unfold syn_options. pose proof (mss_option _ Hm) as Hmo.
  apply runs_bind. eapply runs_mono.
  { eapply (Hopt TF_SEG_OPTS_MSS _ _ (eq_sym Hmo)); [|exact Hs|lia|repeat case_match; lia].
    change 65535 with (Z.ones 16). rewrite land_low by done. unfold is_u32. bounds. rewrite Z.mod_small by lia.
    change 33816576 with (516 * 2 ^ 16). rewrite (lor_add 16) by (bounds; lia). bounds. lia. }
  intros o1 s1 [-> Hs1]. apply runs_bind. eapply runs_mono.
  { eapply (Hopt TF_SEG_OPTS_WND_SCALE [1; 3; 3; TCP_RCV_SCALE]); [|unfold is_u32|exact Hs1|repeat case_match; lia..]. reflexivity. done. }
  intros o2 s2 [-> Hs2]. eapply runs_mono.
  { eapply (Hopt TF_SEG_OPTS_SACK_PERM [1; 1; 4; 2]); [|unfold is_u32|exact Hs2|repeat case_match; lia..]. reflexivity. done. }
  intros o3 s3 [-> Hs3]. split; [lia|]. 
  set (o1 := if has_bits flags TF_SEG_OPTS_MSS then [2; 4; mss / 256; mss mod 256] else []) in *.
  set (o2 := if has_bits flags TF_SEG_OPTS_WND_SCALE then [1; 3; 3; TCP_RCV_SCALE] else []) in *.
  set (o3 := if has_bits flags TF_SEG_OPTS_SACK_PERM then [1; 1; 4; 2] else []) in *.
  assert (zlen o1 = if has_bits flags TF_SEG_OPTS_MSS then 4 else 0) as H1
    by (unfold o1; destruct (has_bits flags TF_SEG_OPTS_MSS); reflexivity).
  assert (zlen o2 = if has_bits flags TF_SEG_OPTS_WND_SCALE then 4 else 0) as H2
    by (unfold o2; destruct (has_bits flags TF_SEG_OPTS_WND_SCALE); reflexivity).
  assert (zlen o3 = if has_bits flags TF_SEG_OPTS_SACK_PERM then 4 else 0) as H3
    by (unfold o3; destruct (has_bits flags TF_SEG_OPTS_SACK_PERM); reflexivity).
  rewrite <- H1, <- H2, <- H3 in *. replace (k + (20 + zlen o1)) with (k + 20 + zlen o1) in Hs3 by lia.
  replace (k + (20 + zlen o1 + zlen o2)) with (k + 20 + zlen o1 + zlen o2) in Hs3 by lia.
  pose proof (zlen_nonneg o1). pose proof (zlen_nonneg o2). pose proof (zlen_nonneg o3).
  rewrite <- zsplice_app by (rewrite ?zlen_app; lia). rewrite <- zsplice_app by (rewrite ?zlen_zsplice; lia). exact Hs3.
Qed.

Lemma write_syn_options_spec n s0 s p c cs d rest a k flags mss :
  pb_payload (c_pbuf c) = Some a → hdr_state n s0 s p c cs d rest → 0 ≤ k → is_u16 mss →
  k + TCP_HLEN + LWIP_TCP_OPT_LENGTH flags ≤ n →
  runs (write_syn_options (Some (mk_ptr (blk a) (off a + k))) flags mss) s (λ o s',
    o = TCP_HLEN + LWIP_TCP_OPT_LENGTH flags ∧
    hdr_state n s0 s' p c cs (zsplice (k + TCP_HLEN) (syn_options flags mss) d) rest).
Proof.
  intros Ha Hs Hk Hm Hn. apply (write_syn_options_gen (λ s d, hdr_state n s0 s p c cs d rest) _ k n); try done.
  - intros s1 o d1 v H1 Ho Hon Hv. unfold wr32. rewrite mem_write_at. rewrite <- Ha. apply hdr_state_wr32; [done|lia|lia|done].
  - apply (hs_len _ _ _ _ _ _ _ _ Hs).
Qed.

(** ** Reading and writing the header of a segment *)

Section header_at.
Context (n : Z) (s0 s : store) (p : option loc) (c : cell) (cs : list cell) (d rest : list Z) (a : ptr) (k : Z).
Hypothesis (Hs : hdr_state n s0 s p c cs d rest) (Ha : pb_payload (c_pbuf c) = Some a) (Hk : 0 ≤ k).

Lemma header_read o m : 0 ≤ o → 0 ≤ m → k + o + m ≤ n →
  mem_read s (Some (mk_ptr (blk a) (off a + k))) o m = Val (zslice (k + o) m d).
Proof.
  intros Ho Hm Hn. rewrite mem_read_shift'. pose proof (packet_payload _ _ _ _ (hs_packet _ _ _ _ _ _ _ _ Hs)) as Hrd.
  cbn in Hrd. rewrite Ha in Hrd. pose proof (hs_len _ _ _ _ _ _ _ _ Hs) as Hd. pose proof (zlen_nonneg rest).
  rewrite (mem_read_sub _ _ _ _ _ _ Hrd) by (rewrite ?zlen_app; lia).
  unfold zslice. rewrite zdrop_app_le by lia. by rewrite ztake_app_le by (rewrite zlen_zdrop; lia).
Qed.
Lemma header_be32 o v : 0 ≤ o → k + o + 4 ≤ n → is_u32 v → zslice (k + o) 4 d = be32 v →
  rd32 s (Some (mk_ptr (blk a) (off a + k))) o = Val (lwip_htonl v).
Proof.
  intros Ho Hn Hv Hd. unfold rd32. rewrite header_read, Hd by lia. cbn [rbind].
  apply word_of in Hv as (b0 & b1 & b2 & b3 & ? & ? & ? & ? & ->). rewrite htonl_word by done.
  by rewrite (proj2 (word_bytes b0 b1 b2 b3 ltac:(done) ltac:(done) ltac:(done) ltac:(done))).
Qed.
Lemma header_wr32 o v : 0 ≤ o → k + o + 4 ≤ n → is_u32 v →
  runs (wr32 (Some (mk_ptr (blk a) (off a + k))) o (lwip_htonl v)) s (λ _ s', hdr_state n s0 s' p c cs (zsplice (k + o) (be32 v) d) rest).
Proof.
  intros Ho Hn Hv. unfold wr32. rewrite mem_write_at, <- Ha. apply hdr_state_wr32; [done|lia|lia|done].
Qed.
Lemma header_wr16 o v : 0 ≤ o → k + o + 2 ≤ n → is_u16 v →
  runs (wr16 (Some (mk_ptr (blk a) (off a + k))) o (lwip_htons v)) s (λ _ s', hdr_state n s0 s' p c cs (zsplice (k + o) (be16 v) d) rest).
Proof.
  intros Ho Hn Hv. unfold wr16. rewrite mem_write_at, <- Ha. apply hdr_state_be16; [done|lia|lia|done].
Qed.
End header_at.

Lemma zlen_2 {A} (l : list A) : zlen l = 2 → ∃ x y, l = [x; y].
Proof.
  destruct l as [|x [|y l]]; rewrite ?zlen_cons; intros H; try (change (zlen (@nil A)) with 0 in H; lia).
  exists x, y. by rewrite (zlen_0_nil l) by lia.
Qed.
Lemma zlen_4 {A} (l : list A) : zlen l = 4 → ∃ x y z u, l = [x; y; z; u].
Proof.
  destruct l as [|x [|y l]]; rewrite ?zlen_cons; intros H; try (change (zlen (@nil A)) with 0 in H; lia).
  destruct (zlen_2 l) as (z & u & ->); [lia|]. by exists x, y, z, u.
Qed.

Section seg_header.
Context (sport dport seqno words flags : Z) (ack wnd chk : list Z).
Hypothesis (Hunset : zlen ack = 4 ∧ zlen wnd = 2 ∧ zlen chk = 2).
Let h := seg_header sport dport seqno words flags.

Ltac known_bytes := destruct Hunset as ((? & ? & ? & ? & ->)%zlen_4 & (? & ? & ->)%zlen_2 & (? & ? & ->)%zlen_2).

Lemma seg_header_ack v opts : zlen v = 4 → zsplice 8 v (h ack wnd chk ++ opts) = h v wnd chk ++ opts.
Proof using Hunset. known_bytes. intros (? & ? & ? & ? & ->)%zlen_4. reflexivity. Qed.
Lemma seg_header_wnd v opts : zlen v = 2 → zsplice 14 v (h ack wnd chk ++ opts) = h ack v chk ++ opts.
Proof using Hunset. known_bytes. intros (? & ? & ->)%zlen_2. reflexivity. Qed.
Lemma seg_header_chk v opts : zlen v = 2 → zsplice 16 v (h ack wnd chk ++ opts) = h ack wnd v ++ opts.
Proof using Hunset. known_bytes. intros (? & ? & ->)%zlen_2. reflexivity. Qed.
Lemma seg_header_opts v opts : zlen v = zlen opts → zsplice 20 v (h ack wnd chk ++ opts) = h ack wnd chk ++ v.
Proof using Hunset.
  intros Hv. pose proof (zlen_seg_header sport dport seqno words flags ack wnd chk ltac:(tauto) ltac:(tauto) ltac:(tauto)) as Hh.
  fold h in Hh. rewrite <- Hh at 1. rewrite <- (Z.add_0_r (zlen _)), zsplice_app_r by (unfold h; lia).
  rewrite Z.add_simpl_l, zsplice_0, zdrop_ge, app_nil_r by lia. done.
Qed.
Lemma seg_header_seqno opts : zslice 4 4 (h ack wnd chk ++ opts) = be32 seqno.
Proof using Hunset. known_bytes. reflexivity. Qed.
Lemma seg_header_flags opts : zslice 12 2 (h ack wnd chk ++ opts) = [words * 16; flags].
Proof using Hunset. known_bytes. reflexivity. Qed.
Lemma seg_header_chk_at opts : zslice 16 2 (h ack wnd chk ++ opts) = chk.
Proof using Hunset. known_bytes. reflexivity. Qed.
End seg_header.

Lemma seg_header_sent sport dport seqno words flags ackno wnd chk :
  seg_header sport dport seqno words flags (be32 ackno) (be16 wnd) [chk mod 256; chk / 256] =
  tcp_header sport dport seqno ackno words flags wnd chk.
Proof. reflexivity. Qed.

(** ** Filling in the header *)

(** The window in the header: that of a SYN is not scaled. *)
Definition seg_wnd (g : tcp_seg) (cb : tcp_pcb) : Z :=
  if has_bits (seg_flags g) TF_SEG_OPTS_WND_SCALE then TCPWND_MIN16 (tp_rcv_ann_wnd cb) else ann_wnd cb.
Lemma seg_wnd_range g cb : is_u16 (seg_wnd g cb).
Proof. unfold seg_wnd, ann_wnd. case_match; apply u16_range. Qed.

(** What the connection notes when a segment is sent: the window it announced, and
    the start of a measurement of the round trip. *)
Definition noted (ticks seqno : Z) (cb : tcp_pcb) : tcp_pcb :=
  let cb := announced cb in
  let cb := if tp_rtime cb <? 0 then cb <| tp_rtime := 0 |> else cb in
  if tp_rttest cb =? 0 then cb <| tp_rttest := ticks |> <| tp_rtseq := seqno |> else cb.

Definition out_mss (t : tstate) : Z := u16 (tcp_eff_send_mss_netif TCP_MSS true (global_if (t_ip t))).

Lemma runs_update_blk t l cb f (Q : unit → tstate → Prop) :
  tcp_mem t !! l = Some (Conn_pcb cb) → Q tt (put_blk l (Conn_pcb (f cb)) t) → runs (update_tcp l f) t Q.
Proof. intros Hcb HQ. unfold runs, update_tcp, get_tcp. by rewrite Hcb. Qed.
Lemma put_put l b b' t : put_blk l b (put_blk l b' t) = put_blk l b t.
Proof. unfold put_blk. simpl. by rewrite insert_insert_eq. Qed.

Lemma store_put l b t s : with_store (put_blk l b t) s = put_blk l b (with_store t s).
Proof. done. Qed.
Lemma store_store t s s' : with_store (with_store t s) s' = with_store t s'.
Proof. done. Qed.

Lemma uncover_header_spec s g pre ack wnd chk f c cs rest :
  segment s g pre ack wnd chk f c cs rest →
  runs (uncover_header g) s (λ _ s',
    s' = s <| pbufs := <[c_loc c := c_pbuf (advance (zlen pre) c)]> (pbufs s) |> ∧
    packet s' (seg_p g) (advance (zlen pre) c :: cs)).
Proof.
  intros [Hpk Hown Hd _ Hun (o & Ho & Hr & Hh) _ _ _ _].
  destruct (packet_head_len _ _ _ _ Hpk) as (Hlen & Htot & ? & ? & ?). pose proof (zlen_nonneg pre).
  pose proof (packet_seg _ _ _ Hpk) as (Hp & Hl & _).
  assert (zlen pre ≤ zlen (c_data c)) as Hle.
  { rewrite Hd, !zlen_app. pose proof (zlen_nonneg rest). pose proof (zlen_nonneg (sf_opts f)).
    pose proof (zlen_nonneg (seg_header (sf_sport f) (sf_dport f) (sf_seqno f) (sf_words f) (sf_flags f) ack wnd chk)). lia. }
  pose proof (pbuf_remove_header_spec s _ c cs (zlen pre) Hpk ltac:(lia)) as Hrm.
  apply runs_inv in Hrm as (r & s' & _ & _ & Hs' & Hpk').
  unfold uncover_header. apply runs_bind. rewrite Hp. eapply runs_ask; [done|].
  apply runs_bind. eapply runs_get_pbuf; [done|]. rewrite Ho, Hh. cbn [blk off].
  rewrite decide_True by done. replace (o + zlen pre - o) with (zlen pre) by lia. rewrite !u16_small by (bounds; rewrite ?u16_small; bounds; lia).
  eapply runs_set_pbuf; [done|]. rewrite Hp in Hpk'.
  match goal with |- ?x = _ ∧ _ => assert (x = s') as -> end; [|by split].
  rewrite Hs'. unfold advance. cbn [c_pbuf]. rewrite Ho. reflexivity.
Qed.

(** The computation runs from the heap [s]. *)
Ltac at_store s := match goal with |- runs _ ?x _ => change x with s end.

(** The pbuf [c] with its first [n] bytes gone and the bytes [d]. *)
Definition sent_cell (n : Z) (c : cell) (d : list Z) : cell := mk_cell (c_loc c) (c_pbuf (advance n c)) d.

(** The heap differs only in the pbuf [l]. *)
Definition only_pbuf (l : loc) (s s' : store) : Prop :=
  ∀ a, a ≠ l → pbufs s' !! a = pbufs s !! a ∧ blocks s' !! a = blocks s !! a.

Section fill.
Context (t : tstate) (seg l : loc) (g : tcp_seg) (cb : tcp_pcb) (pre ack wnd chk : list Z) (f : seg_fields) (c : cell) (cs : list cell) (rest : list Z).
Hypothesis (Hg : tcp_segs t !! seg = Some g) (Hcb : tcp_mem t !! l = Some (Conn_pcb cb)).
Hypothesis (Hseg : segment (tcp_store t) g pre ack wnd chk f c cs rest).

Let opts := syn_options (seg_flags g) (out_mss t).
Let f' := mk_seg_fields (sf_sport f) (sf_dport f) (sf_seqno f) (sf_flags f) opts (sf_data f).

Lemma fill_header_spec :
  is_u32 (tp_rcv_nxt cb) →
  runs (tcp_fill_header seg l true) t (λ o t', ∃ s' c',
    o = TCP_HLEN + LWIP_TCP_OPT_LENGTH (seg_flags g) ∧
    t' = put_blk l (Conn_pcb (noted (tcp_ticks t) (sf_seqno f) cb)) (with_store t s') ∧
    c_loc c' = c_loc c ∧ c_pbuf c' = c_pbuf c ∧
    segment s' g pre (be32 (tp_rcv_nxt cb)) (be16 (seg_wnd g cb)) chk f' c' cs rest ∧
    only_pbuf (c_loc c) (tcp_store t) s').
Proof using Hg Hcb Hseg.
  intros Hrn. pose proof Hseg as [Hpk Hown Hd Hdata Hun (o & Ho & Hroom & Hh) Hty Hlen Hol Hgf].
  pose proof Hgf as [? ? Hsn ? [? ?]]. set (k := zlen pre) in *. pose proof (zlen_nonneg pre) as Hk. fold k in Hk.
  set (h := seg_header (sf_sport f) (sf_dport f) (sf_seqno f) (sf_words f) (sf_flags f)) in *.
  pose proof (zlen_seg_header (sf_sport f) (sf_dport f) (sf_seqno f) (sf_words f) (sf_flags f) ack wnd chk ltac:(tauto) ltac:(tauto) ltac:(tauto)) as Hhl.
  fold h in Hhl. pose proof (opt_length_range (seg_flags g)) as [Hor _]. rewrite <- Hol in Hor.
  set (n := k + 20 + zlen (sf_opts f)) in *.
  assert (hdr_state n (tcp_store t) (tcp_store t) (seg_p g) c cs (pre ++ h ack wnd chk ++ sf_opts f) rest) as S0.
  { split; try done. - by rewrite <- Hd; destruct c. - rewrite !zlen_app, Hhl. unfold n. fold k. lia. }
  unfold tcp_fill_header.
  apply runs_bind. eapply runs_ask; [unfold get_seg; by rewrite Hg|].
  apply runs_bind. eapply runs_ask; [unfold get_tcp; by rewrite Hcb|]. rewrite Hh.
  apply runs_bind, runs_tst. eapply runs_mono.
  { apply (header_wr32 _ _ _ _ _ _ _ _ (mk_ptr (c_loc c) o) k S0 Ho Hk 8 (tp_rcv_nxt cb)); unfold n; lia || done. }
  intros [] s1 S1. unfold k in S1. rewrite zsplice_app_r in S1 by lia. fold k in S1. replace (k + 8 - k) with 8 in S1 by lia.
  unfold h in S1. rewrite seg_header_ack in S1 by done. fold h in S1.
  apply runs_bind, runs_tst. eapply runs_mono.
  { apply (header_wr16 _ _ _ _ _ _ _ _ (mk_ptr (c_loc c) o) k S1 Ho Hk 14 (seg_wnd g cb)); [lia|unfold n; lia|apply seg_wnd_range]. }
  intros [] s2 S2. unfold k in S2. rewrite zsplice_app_r in S2 by lia. fold k in S2. replace (k + 14 - k) with 14 in S2 by lia.
  assert (zlen (be32 (tp_rcv_nxt cb)) = 4 ∧ zlen wnd = 2 ∧ zlen chk = 2) as Hun1 by (by destruct Hun as (? & ? & ?)).
  unfold h in S2. rewrite (seg_header_wnd _ _ _ _ _ _ _ _ Hun1) in S2 by done. fold h in S2.
  assert (zlen (be32 (tp_rcv_nxt cb)) = 4 ∧ zlen (be16 (seg_wnd g cb)) = 2 ∧ zlen chk = 2) as Hun2 by (by destruct Hun as (? & ? & ?)).
  apply runs_bind. eapply runs_update_blk; [exact Hcb|]. apply runs_bind, runs_gets.
  apply runs_bind, runs_tst. eapply runs_mono.
  { apply (write_syn_options_spec n _ _ _ _ _ _ _ (mk_ptr (c_loc c) o) k (seg_flags g) (out_mss t) Ho S2 Hk); [apply u16_range|].
    rewrite <- Hol. unfold n, TCP_HLEN. lia. }
  intros x s3 [-> S3]. unfold k in S3. rewrite zsplice_app_r in S3 by (unfold TCP_HLEN; lia). fold k in S3.
  replace (k + TCP_HLEN - k) with 20 in S3 by (unfold TCP_HLEN; lia).
  unfold h in S3. rewrite (seg_header_opts _ _ _ _ _ _ _ _ Hun2) in S3 by (by rewrite zlen_syn_options). fold h in S3.
  assert (rd32 s3 (Some (mk_ptr (c_loc c) (o + k))) 4 = Val (lwip_htonl (sf_seqno f))) as Hseq.
  { apply (header_be32 _ _ _ _ _ _ _ _ (mk_ptr (c_loc c) o) k S3 Ho Hk 4 (sf_seqno f)); [lia|unfold n; lia|done|].
    unfold zslice. rewrite zdrop_app_ge by (fold k; lia). fold k. replace (k + 4 - k) with 4 by lia. 
    apply (seg_header_seqno (sf_sport f) (sf_dport f) (sf_seqno f) (sf_words f) (sf_flags f) _ _ _ Hun2). }
  apply runs_bind. eapply runs_update_blk; [apply lookup_insert_eq|].
  apply runs_bind. eapply runs_mono with (Q := λ _ t', t' = put_blk l (Conn_pcb (noted (tcp_ticks t) (sf_seqno f) cb)) (with_store t s3)).
  { unfold noted. change (tp_rttest cb) with (tp_rttest (announced cb)). cbv zeta.
    assert (tp_rttest (if tp_rtime (announced cb) <? 0 then (announced cb) <| tp_rtime := 0 |> else announced cb) = tp_rttest (announced cb)) as ->
      by by destruct (_ <? 0).
    destruct (tp_rttest (announced cb) =? 0).
    - apply runs_bind, runs_gets. apply runs_bind. eapply runs_ask.
      { unfold seg_seqno, get_seg. simpl. rewrite Hg. cbn [deref rbind]. rewrite Hh.
        change (ip_store _) with s3. rewrite Hseq. cbn [rbind]. by rewrite htonl_involutive by (bounds; lia). }
      eapply runs_update_blk; [apply lookup_insert_eq|]. rewrite store_put, !put_put, !store_store. reflexivity.
    - apply runs_ret. rewrite store_put, !put_put, !store_store. reflexivity. }
  intros [] t3 ->. apply runs_ret.
  assert (zlen opts = zlen (sf_opts f)) as Hopts by (unfold opts; by rewrite zlen_syn_options).
  exists s3, (mk_cell (c_loc c) (c_pbuf c) ((pre ++ h (be32 (tp_rcv_nxt cb)) (be16 (seg_wnd g cb)) chk ++ opts) ++ rest)).
  split_and!; try done; [|by split; [rewrite (hs_pbufs _ _ _ _ _ _ _ _ S3)|apply (hs_blocks _ _ _ _ _ _ _ _ S3)]].
  split; try done.
  - apply (hs_packet _ _ _ _ _ _ _ _ S3).
  - apply Forall_cons in Hown as [? ?]. by apply Forall_cons_2.
  - unfold sf_words. simpl. rewrite Hopts. reflexivity.
  - by exists o.
  - simpl. by rewrite Hopts.
  - split; try done. simpl. by rewrite Hopts.
Qed.
End fill.

(** The header with all its fields, and the options. *)
Definition sent_header (f : seg_fields) (ackno wnd chk : Z) : list Z :=
  tcp_header (sf_sport f) (sf_dport f) (sf_seqno f) ackno (sf_words f) (sf_flags f) wnd chk ++ sf_opts f.

Section finish.
Context (t : tstate) (seg l : loc) (g : tcp_seg) (cb : tcp_pcb) (pre : list Z) (ackno wnd : Z) (chk : list Z) (sf : seg_fields) (c : cell) (cs : list cell) (rest : list Z).
Hypothesis (Hg : tcp_segs t !! seg = Some g) (Hcb : tcp_mem t !! l = Some (Conn_pcb cb)).
Hypothesis (Hseg : segment (tcp_store t) g pre (be32 ackno) (be16 wnd) chk sf c cs rest).
Hypothesis (Hack : is_u32 ackno) (Hwnd : is_u16 wnd) (Hlip : is_u32 (tp_local_ip cb)) (Hrip : is_u32 (tp_remote_ip cb)).
Hypothesis (Hou : Forall is_u8 (sf_opts sf)) (Hu : Forall is_u8 (sf_data sf)) (Hsz : 20 + zlen (sf_opts sf) + zlen (sf_data sf) < 2 ^ 16).
Let k := zlen pre.
Let h (chk : list Z) := seg_header (sf_sport sf) (sf_dport sf) (sf_seqno sf) (sf_words sf) (sf_flags sf) (be32 ackno) (be16 wnd) chk ++ sf_opts sf.
Let n := 20 + zlen (sf_opts sf).

Lemma zlen_h x : zlen x = 2 → zlen (h x) = n.
Proof using. intros Hx. unfold h. rewrite zlen_app, zlen_seg_header by done. done. Qed.
Lemma h_chk x y : zlen x = 2 → zlen y = 2 → zsplice 16 y (h x) = h y.
Proof using. intros Hx Hy. unfold h. by apply seg_header_chk. Qed.
Lemma h_sent x : h [x mod 256; x / 256] = sent_header sf ackno wnd x.
Proof using. reflexivity. Qed.
Lemma h_u8 : Forall is_u8 (h [0; 0]).
Proof using Hack Hwnd Hou Hseg.
  pose proof (sg_fields _ _ _ _ _ _ _ _ _ _ Hseg) as [? ? ? ? [? ?]]. apply Forall_app_2; [|done].
  apply (tcp_header_u8 _ _ _ _ (sf_words sf) _ _ 0); [by split| |done].
  unfold sf_words. pose proof (zlen_nonneg (sf_opts sf)). Z.div_mod_to_equations. lia.
Qed.

(** After the IP header is taken off. *)
Lemma uncovered_state s' :
  s' = (tcp_store t) <| pbufs := <[c_loc c := c_pbuf (advance k c)]> (pbufs (tcp_store t)) |> →
  packet s' (seg_p g) (advance k c :: cs) →
  hdr_state n s' s' (seg_p g) (advance k c) cs (h chk) rest ∧ pb_payload (c_pbuf (advance k c)) = seg_tcphdr g ∧
  pb_tot_len (c_pbuf (advance k c)) = zlen (h [0; 0] ++ rest ++ bytes cs).
Proof using Hseg.
  intros Hs' Hpk'. pose proof Hseg as [_ Hown Hd _ Hun (o & Ho & Hroom & Hh) _ _ _ _].
  assert (zlen chk = 2) as Hchk by tauto. pose proof (zlen_h _ Hchk) as Hzh. pose proof (zlen_h [0; 0] ltac:(done)) as Hz0.
  assert (zdrop k (c_data c) = h chk ++ rest) as Hdrop.
  { rewrite Hd, <- (app_assoc pre). apply zdrop_app_exact. }
  split_and!.
  - split; try done; [rewrite <- Hdrop; exact Hpk'|].
    apply Forall_cons in Hown as [? ?]. apply Forall_cons_2; [|done]. exists (o + k). simpl. rewrite Ho. split; [done|unfold k; lia].
  - simpl. rewrite Ho. by rewrite Hh.
  - rewrite (proj1 (packet_tots _ _ _ Hpk')). unfold total. rewrite bytes_cons. cbn [c_data advance]. rewrite Hdrop, !zlen_app. lia.
Qed.

Lemma finish_segment_spec :
  runs (tcp_finish_segment seg l (TCP_HLEN + LWIP_TCP_OPT_LENGTH (seg_flags g))) t (λ _ t', ∃ s' chk',
    t' = with_store t s' ∧ is_u16 chk' ∧
    packet s' (seg_p g) (sent_cell k c (sent_header sf ackno wnd chk' ++ rest) :: cs) ∧
    verifies (tp_local_ip cb) (tp_remote_ip cb) IP_PROTO_TCP (sent_header sf ackno wnd chk' ++ sf_data sf) ∧
    only_pbuf (c_loc c) (tcp_store t) s').
Proof using All.
  unfold tcp_finish_segment. apply runs_bind. eapply runs_ask; [unfold get_seg; by rewrite Hg|].
  apply runs_bind, runs_tst. eapply runs_mono; [exact (uncover_header_spec _ _ _ _ _ _ _ _ _ _ Hseg)|].
  intros [] s4 [Hs4 Hpk4]. destruct (uncovered_state s4 Hs4 Hpk4) as (S4 & <- & Htot).
  assert (zlen chk = 2) as Hchk by (apply (sg_unset _ _ _ _ _ _ _ _ _ _ Hseg)).
  pose proof (zlen_nonneg (sf_opts sf)). pose proof (zlen_nonneg (sf_data sf)).
  apply runs_bind, runs_tst. at_store s4. eapply runs_mono; [eapply hdr_state_zero; [exact S4|lia|unfold n; lia]|].
  intros [] s5 S5. rewrite h_chk in S5 by done.
  apply runs_bind, runs_assert; [apply Z.eqb_refl|].
  apply runs_bind, runs_tst. at_store s5. eapply runs_head; [exact (hs_packet _ _ _ _ _ _ _ _ S5)|]. cbn [c_pbuf]. rewrite Htot.
  apply runs_bind. eapply runs_ask; [unfold get_tcp; simpl; by rewrite Hcb|].
  pose proof (sg_data _ _ _ _ _ _ _ _ _ _ Hseg) as Hdata.
  destruct (tcp_checksum_spec _ _ _ _ _ _ _ _ (tp_local_ip cb) (tp_remote_ip cb) (zlen (h [0; 0] ++ rest ++ bytes cs)) S5)
    as (chk' & Hck & Hc16 & Hv & Hw); rewrite <- ?Hdata; [unfold n; lia| | | |done|done|done|].
  { by apply seg_header_chk_at. }
  { apply Forall_app_2; [exact h_u8|done]. }
  { rewrite zlen_app, zlen_h by done. unfold is_u16, n. bounds. lia. }
  apply runs_bind, runs_tst. at_store s5. eapply runs_ask; [rewrite <- Hdata in Hck; exact Hck|].
  apply runs_tst. at_store s5. eapply runs_mono; [exact Hw|]. intros [] s6 S6. rewrite h_chk, h_sent in S6, Hv by done.
  exists s6, chk'. split; [reflexivity|]. split; [done|]. split; [exact (hs_packet _ _ _ _ _ _ _ _ S6)|].
  split; [by rewrite Hdata|]. intros a Ha.
  rewrite (hs_pbufs _ _ _ _ _ _ _ _ S6), (hs_blocks _ _ _ _ _ _ _ _ S6 a Ha), Hs4. simpl. by rewrite lookup_insert_ne.
Qed.
End finish.

(** ** A segment on the wire *)

Section output.
Context {W : Type} `{!Part tstate W} `{!netif_driver W}.
#[local] Existing Instance tcp_ip_part.
Implicit Types w : W.

Lemma segment_busy t w seg g p q (Q : bool → W → Prop) :
  tcp_segs t !! seg = Some g → seg_p g = Some p → pbufs (tcp_store t) !! p = Some q →
  Q (negb (pb_ref q =? 1)) (part_set t w) → runs (lift (tcp_output_segment_busy seg)) (part_set t w) Q.
Proof.
  intros Hg Hp Hq HQ. apply runs_part. unfold tcp_output_segment_busy. apply runs_bind.
  eapply runs_ask; [unfold get_seg; by rewrite Hg|]. apply runs_bind. eapply runs_ask; [by rewrite Hp|].
  apply runs_bind, runs_tst. eapply runs_get_pbuf; [exact Hq|]. rewrite with_store_id. by apply runs_ret.
Qed.

(** C23: a segment on the wire.  [tcp_output_segment] sends a segment of the queue,
    whether or not it was sent before, by one call of the driver: the packet is an
    IPv4 packet from the local to the remote address of the connection around a
    TCP header with its ports, sequence number and flags, the next sequence number
    expected and the window announced now, the options (those of a SYN are made
    here), and the data of the segment unchanged, with both checksums right; the
    bytes of an earlier IP header are gone.  The connection notes the window and
    starts a measurement of the round trip; nothing else changes.  A segment of
    which the driver still holds a reference is left alone. *)
Theorem tcp_output_segment_spec t w seg l g cb pre ack wnd chk f c cs rest :
  let opts := syn_options (seg_flags g) (out_mss t) in
  tcp_segs t !! seg = Some g → tcp_mem t !! l = Some (Conn_pcb cb) → segment (tcp_store t) g pre ack wnd chk f c cs rest →
  is_u32 (tp_rcv_nxt cb) → Forall is_u8 (sf_data f) → ip4_addr_isany (tp_local_ip cb) = false →
  header_fields (tp_tos cb) (40 + zlen opts + zlen (sf_data f)) (ip_id (t_ip t)) (tp_ttl cb) IP_PROTO_TCP (tp_local_ip cb) (tp_remote_ip cb) →
  if pb_ref (c_pbuf c) =? 1 then
    calls (tcp_output_segment seg l true) (part_set t w) (netif_output (seg_p g) (tp_remote_ip cb))
      (λ w', ∃ t' chk', w' = part_set t' w ∧ is_u16 chk' ∧
        packet_out (tcp_store t) (put_blk l (Conn_pcb (noted (tcp_ticks t) (sf_seqno f) cb)) t) t' (seg_p g)
          (tp_local_ip cb) (tp_remote_ip cb) (tp_ttl cb) (tp_tos cb)
          (tcp_header (sf_sport f) (sf_dport f) (sf_seqno f) (tp_rcv_nxt cb) (sf_words f) (sf_flags f) (seg_wnd g cb) chk'
             ++ opts ++ sf_data f))
  else tcp_output_segment seg l true (part_set t w) = Val (ERR_OK, part_set t w).
Proof.
  intros opts Hg Hcb Hseg Hrn Hu Hany Hf. pose proof Hf as [? Hlen ? ? ? Hlip Hrip].
  pose proof (sg_packet _ _ _ _ _ _ _ _ _ _ Hseg) as Hpk. pose proof (packet_seg _ _ _ Hpk) as (Hp & Hl & _).
  pose proof (zlen_syn_options (seg_flags g) (out_mss t)) as Hol. fold opts in Hol.
  pose proof (sg_optlen _ _ _ _ _ _ _ _ _ _ Hseg) as Hol'. pose proof (zlen_nonneg (sf_data f)).
  destruct (pb_ref (c_pbuf c) =? 1) eqn:Eref.
  - unfold tcp_output_segment. apply calls_bind, runs_assert; [done|].
    apply calls_bind. eapply segment_busy; [exact Hg|exact Hp|exact Hl|]. rewrite Eref. cbn [negb].
    apply calls_bind, runs_part. eapply runs_mono; [eapply fill_header_spec; [exact Hg|exact Hcb|exact Hseg|exact Hrn]|].
    intros o t1 (s1 & c1 & -> & -> & Hloc & Hpb & Hseg1 & Hout1). set (cb1 := noted _ _ cb) in *.
    set (t1 := put_blk l (Conn_pcb cb1) (with_store t s1)).
    assert (tcp_mem t1 !! l = Some (Conn_pcb cb1)) as Hcb1 by apply lookup_insert_eq.
    assert (tp_local_ip cb1 = tp_local_ip cb ∧ tp_remote_ip cb1 = tp_remote_ip cb ∧ tp_ttl cb1 = tp_ttl cb ∧ tp_tos cb1 = tp_tos cb) as (El & Er & Et & Eo).
    { unfold cb1, noted. by repeat case_match. }
    apply calls_bind, runs_part. eapply runs_mono.
    { eapply (finish_segment_spec t1 seg l g cb1 pre (tp_rcv_nxt cb) (seg_wnd g cb) chk _ c1 cs rest); [exact Hg|exact Hcb1|exact Hseg1|done|apply seg_wnd_range|by rewrite El|by rewrite Er| |done|].
      - apply syn_options_u8, u16_range.
      - simpl. fold opts. bounds. lia. }
    intros [] t2 (s2 & chk' & -> & Hchk & Hpk2 & Hv & Hout2). rewrite El, Er in Hv.
    set (c2 := sent_cell _ c1 _) in Hpk2. destruct (sg_hdr _ _ _ _ _ _ _ _ _ _ Hseg1) as (o & Ho & Hroom & _).
    assert (pb_payload (c_pbuf c2) = Some (mk_ptr (c_loc c2) (o + zlen pre))) as Ho2 by (simpl; by rewrite Ho).
    assert (sf_words f = 5 + zlen opts / 4) as Hwords by (unfold sf_words; by rewrite Hol', Hol).
    assert (bytes (c2 :: cs) = tcp_header (sf_sport f) (sf_dport f) (sf_seqno f) (tp_rcv_nxt cb) (sf_words f) (sf_flags f) (seg_wnd g cb) chk'
             ++ opts ++ sf_data f) as Hb2.
    { rewrite bytes_cons. simpl. rewrite (sg_data _ _ _ _ _ _ _ _ _ _ Hseg), Hwords. unfold sent_header, sf_words. simpl.
      rewrite <- !app_assoc. reflexivity. }
    assert (total (c2 :: cs) = 20 + zlen opts + zlen (sf_data f)) as Htot by (unfold total; rewrite Hb2, !zlen_app, zlen_tcp_header; lia).
    apply calls_bind, runs_part. eapply runs_ask; [unfold get_seg; simpl; by rewrite Hg|].
    apply calls_bind. eapply (runs_get_tcp (with_store t1 s2)); [exact Hcb1|]. rewrite El, Er, Et, Eo.
    eapply calls_mono.
    + apply (tcp_ip_output_calls (with_store t1 s2) w _ c2 cs _ _ _ _ Hpk2).
      * apply (packet_headroom _ _ _ _ _ (o + zlen pre) Hpk2 Ho2); [done|exact (sg_type _ _ _ _ _ _ _ _ _ _ Hseg1)|].
        unfold c2, sent_cell, sent_header. cbn [c_data sf_opts]. rewrite !zlen_app, zlen_tcp_header. pose proof (zlen_nonneg rest).
        pose proof (zlen_nonneg opts). fold opts. lia.
      * by pose proof (sg_own _ _ _ _ _ _ _ _ _ _ Hseg1) as [_ ?]%Forall_cons.
      * simpl. rewrite Hpb. by apply Z.eqb_eq.
      * done.
      * rewrite Htot. bounds. lia.
      * rewrite Htot. by replace (20 + zlen opts + zlen (sf_data f) + 20) with (40 + zlen opts + zlen (sf_data f)) by lia.
    + intros w' (s' & c' & cs' & ipchk & -> & Hpk' & Hip & Hb & Hz & [Ho1 Ho2' _ _]). eexists _, chk'. split; [reflexivity|]. split; [done|].
      rewrite Hb2 in Hb. split; [reflexivity|by exists c', cs', ipchk| |].
      * unfold sent_header in Hv. cbn [sf_opts sf_data sf_sport sf_dport sf_seqno sf_flags] in Hv. rewrite <- app_assoc in Hv.
        rewrite Hwords. exact Hv.
      * intros a Ha. pose proof (packet_seg _ _ _ Hpk') as (Hp' & _). assert (a ≠ c_loc c') as Hne by congruence.
        assert (a ∉ [c_loc c']) as Hni by set_solver. 
        change (pbufs s' !! a = pbufs (tcp_store t) !! a ∧ blocks s' !! a = blocks (tcp_store t) !! a). rewrite (Ho1 a Hni), (Ho2' a Hni).
        assert (a ≠ c_loc c) as Hne2 by congruence.
        destruct (Hout2 a ltac:(congruence)) as [Hx1 Hx2], (Hout1 a Hne2) as [Hy1 Hy2]. change (tcp_store (with_store t1 s2)) with s2.
        rewrite Hx1, Hx2. change (tcp_store t1) with s1. by rewrite Hy1, Hy2.
  - unfold tcp_output_segment, mbnd. cbn [lwip_assert].
    assert (runs (lift (tcp_output_segment_busy seg)) (part_set t w) (λ b w', b = true ∧ w' = part_set t w)) as Hb.
    { eapply segment_busy; [exact Hg|exact Hp|exact Hl|]. by rewrite Eref. }
    apply runs_inv in Hb as (? & ? & -> & -> & ->). reflexivity.
Qed.
End output.

(** ** A segment with three bytes of data *)

#[local] Existing Instance part_self.
#[local] Instance ex_segment_driver : netif_driver tstate := { netif_output _ _ := ret ERR_OK }.

Definition ex_fields : seg_fields := mk_seg_fields 50000 443 1000 24 [] [1; 2; 3].
Definition ex_seg_cell : cell :=
  mk_cell 1 (mk_pbuf None (Some (mk_ptr 1 64)) 23 23 128 0 1 0) (seg_header 50000 443 1000 5 24 [0; 0; 0; 0] [0; 0] [0; 0] ++ [1; 2; 3]).
Definition ex_seg : tcp_seg := mk_tcp_seg (Some 1%positive) 3 0 (Some (mk_ptr 1 64)).
Definition ex_sending : tstate :=
  mk_tstate (mk_ipstate (mk_store {[1%positive := c_pbuf ex_seg_cell]} {[1%positive := replicate 64 0 ++ c_data ex_seg_cell]}
        3 [] ∅ sys_mbox_new false) (mk_netif 0 0 0 1500 5 0) true no_packet 7)
    {[2%positive := Conn_pcb ex_wire_pcb]} {[3%positive := ex_seg]} [] [] [2%positive] [] false 0 0 0 0 6510 None 0 no_segment.

Lemma ex_segment : segment (tcp_store ex_sending) ex_seg [] [0; 0; 0; 0] [0; 0] [0; 0] ex_fields ex_seg_cell [] [1; 2; 3].
Proof.
  split; try reflexivity.
  - split; [done|done|done|]. by repeat constructor.
  - repeat constructor. by exists 64.
  - done.
  - exists 64. split_and!; done.
  - done.
  - split; simpl; unfold is_u16, is_u32, is_u8; try lia. split; [done|reflexivity].
Qed.

Lemma tcp_output_segment_spec_witness : ∃ w' chk,
  tcp_output_segment (W := tstate) 3%positive 2%positive true ex_sending = Val (ERR_OK, w') ∧
  packet_out (tcp_store ex_sending) (put_blk 2%positive (Conn_pcb (noted 0 1000 ex_wire_pcb)) ex_sending) w' (Some 1%positive)
    16777482 33554698 255 0 (tcp_header 50000 443 1000 4294967295 5 24 (seg_wnd ex_seg ex_wire_pcb) chk ++ [1; 2; 3]).
Proof.
  assert (tcp_segs ex_sending !! 3%positive = Some ex_seg) as Hg by reflexivity.
  assert (tcp_mem ex_sending !! 2%positive = Some (Conn_pcb ex_wire_pcb)) as Hcb by reflexivity.
  assert (is_u32 (tp_rcv_nxt ex_wire_pcb)) as Hrn by (unfold is_u32; simpl; lia).
  assert (Forall is_u8 (sf_data ex_fields)) as Hu by (repeat constructor; lia).
  assert (ip4_addr_isany (tp_local_ip ex_wire_pcb) = false) as Hany by reflexivity.
  assert (header_fields 0 43 7 255 IP_PROTO_TCP 16777482 33554698) as Hf by (by split; vm_compute).
  destruct (tcp_output_segment_spec ex_sending ex_sending 3 2 ex_seg ex_wire_pcb _ _ _ _ _ _ _ _ Hg Hcb ex_segment Hrn Hu Hany Hf)
    as (w' & Hrun & t' & chk & -> & _ & Hout).
  exists t', chk. split; [exact Hrun|exact Hout].
Defined.
