(* ===== verification/TcpOpt.v ===== *)
(** * TCP: the options of a segment

    [tcp_parseopt] against a parser of lists of bytes: whatever the bytes are, the
    loop ends, reads no more than one byte after the options, and changes the
    connection as the options say; and it reads back what [tcp_output] writes into
    a SYN. *)

From S2P Require Import Prelude Mbox Heap HeapFacts Pbuf Def Chksum Addr Timeouts Header Ip4 Tcp TcpOut TcpSend TcpIn TcpWire TcpSegment.

Implicit Types t : tstate.

(** ** Options as bytes *)

(** The length an option has to have, when the parser knows its kind. *)
Definition opt_len (kind : Z) : option Z :=
  if kind =? LWIP_TCP_OPT_MSS then Some 4 else if kind =? LWIP_TCP_OPT_WS then Some 3
  else if kind =? LWIP_TCP_OPT_SACK_PERM then Some 2 else None.
(** What an option with these bytes after its length means for a connection;
    [syn]: it is the option of a SYN. *)
Definition apply_opt (syn : bool) (kind : Z) (data : list Z) (c : tcp_pcb) : tcp_pcb :=
  if kind =? LWIP_TCP_OPT_MSS then
    let mss := 256 * nth 0 data 0 + nth 1 data 0 in
    c <| tp_mss := if (TCP_MSS <? mss) || (mss =? 0) then TCP_MSS else mss |>
  else if kind =? LWIP_TCP_OPT_WS then
    if syn && negb (tcp_is_flag_set c TF_WND_SCALE) then
      c <| tp_snd_scale := Z.min (nth 0 data 0) 14 |> <| tp_rcv_scale := TCP_RCV_SCALE |>
        <| tp_flags := u16 (Z.lor (tp_flags c) TF_WND_SCALE) |> <| tp_rcv_wnd := TCP_WND |> <| tp_rcv_ann_wnd := TCP_WND |>
    else c
  else if kind =? LWIP_TCP_OPT_SACK_PERM then
    if syn then c <| tp_flags := u16 (Z.lor (tp_flags c) TF_SACK) |> else c
  else c.
(** The first option: what is left after it, and what it does to the connection;
    [None]: it says that it is the last, or is malformed. *)
Definition one_opt (syn : bool) (opts : list Z) (c : tcp_pcb) : option (list Z * tcp_pcb) :=
  match opts with
  | [] => None
  | kind :: rest =>
    if kind =? LWIP_TCP_OPT_EOL then None else if kind =? LWIP_TCP_OPT_NOP then Some (rest, c)
    else match rest with
    | [] => None
    | len :: data =>
      let n := Z.to_nat (len - 2) in
      match opt_len kind with
      | Some k => if (len =? k) && (n <=? length data)%nat then Some (drop n data, apply_opt syn kind (take n data) c) else None
      | None => if len <? 2 then None else Some (drop n data, c)
      end
    end
  end.
Fixpoint parse_opts (fuel : nat) (syn : bool) (opts : list Z) (c : tcp_pcb) : tcp_pcb :=
  match fuel with
  | O => c
  | S fuel => match one_opt syn opts c with Some (opts, c) => parse_opts fuel syn opts c | None => c end
  end.
Definition tcp_options (syn : bool) (opts : list Z) (c : tcp_pcb) : tcp_pcb := parse_opts (length opts) syn opts c.

(** ** The options in memory *)

(** Byte [i] of the options, in the first or the second pbuf. *)
Definition opt_read t (i : Z) : res Z :=
  let v := t_in t in
  if bool_decide (tcphdr_opt2 v = None) || (i <? tcphdr_opt1len v)
  then rd8 (tcp_store t) (tcphdr v) (TCP_HLEN + i) else rd8 (tcp_store t) (tcphdr_opt2 v) (u8 (i - tcphdr_opt1len v)).
(** The options are [opts], and the byte after them can be read. *)
Record options_in t (opts : list Z) : Prop := {
  oi_len : zlen opts = tcphdr_optlen (t_in t);
  oi_max : zlen opts ≤ 40;
  oi_u8 : Forall is_u8 opts;
  oi_read i b : 0 ≤ i → opts !! Z.to_nat i = Some b → opt_read t i = Val b;
  oi_more : ∃ b, opt_read t (zlen opts) = Val b ∧ is_u8 b
}.

Lemma tst_ask {A} (f : store → res A) t : tst (ask f) t = let* a := f (tcp_store t) in Val (a, t).
Proof. destruct t as [[]]. unfold lift, ask, tcp_store. simpl. by destruct f. Qed.

(** What [opt_wnd_scale] asserts: nothing was received yet. *)
Definition wnd_default (c : tcp_pcb) : Prop := tp_rcv_wnd c = TCP_WND ∧ tp_rcv_ann_wnd c = TCP_WND.
Lemma apply_opt_wnd syn kind data c : wnd_default c → wnd_default (apply_opt syn kind data c).
Proof. unfold apply_opt, wnd_default. intros [? ?]. repeat case_match; simpl; done. Qed.
Lemma one_opt_wnd syn opts c opts' c' : one_opt syn opts c = Some (opts', c') → wnd_default c → wnd_default c'.
Proof. unfold one_opt. intros H Hc. repeat case_match; simplify_eq; auto using apply_opt_wnd. Qed.
Lemma one_opt_shorter syn opts c opts' c' : one_opt syn opts c = Some (opts', c') → (length opts' < length opts)%nat.
Proof. unfold one_opt. intros H. repeat case_match; simplify_eq; simpl; rewrite ?length_drop; lia. Qed.

Section parse.
Variables (t : tstate) (pcb : loc) (opts : list Z).
Hypothesis Hopts : options_in t opts.

(** The state while the parser is at byte [i]. *)
Definition at_opt (i : Z) (c : tcp_pcb) : tstate := put_blk pcb (Conn_pcb c) t <| t_in := (t_in t) <| tcp_optidx := i |> |>.

Lemma next_optbyte i c b : 0 ≤ i < 65535 → opt_read t i = Val b → tcp_get_next_optbyte (at_opt i c) = Val (b, at_opt (i + 1) c).
Proof.
  intros Hi Hb. unfold tcp_get_next_optbyte, opt_read, at_opt in *.
  unfold mbnd, in_var, gets, set_in, modify. simpl. rewrite u16_small by lia.
  destruct (bool_decide _ || _); rewrite tst_ask; unfold TCP_HLEN in *; unfold tcp_store in *; simpl; by rewrite Hb.
Qed.
Lemma update_at i c f (Q : unit → tstate → Prop) : Q tt (at_opt i (f c)) → runs (update_tcp pcb f) (at_opt i c) Q.
Proof.
  intros HQ. unfold runs, update_tcp, get_tcp, at_opt. simpl. rewrite lookup_insert_eq. unfold put_blk. simpl.
  by rewrite insert_insert_eq.
Qed.
Lemma get_at i c (Q : tcp_pcb → tstate → Prop) : Q c (at_opt i c) → runs (ask (λ t, get_tcp t pcb)) (at_opt i c) Q.
Proof. intros HQ. unfold runs, ask, get_tcp. simpl. by rewrite lookup_insert_eq. Qed.
Lemma byte_at i c b (Q : Z → tstate → Prop) : 0 ≤ i < 65535 → opts !! Z.to_nat i = Some b →
  Q b (at_opt (i + 1) c) → runs tcp_get_next_optbyte (at_opt i c) Q.
Proof. intros Hi Hb. apply runs_eq, next_optbyte; [done|]. apply (oi_read _ _ Hopts); [lia|done]. Qed.
Lemma byte_after c (Q : Z → tstate → Prop) :
  (∀ b, is_u8 b → Q b (at_opt (zlen opts + 1) c)) → runs tcp_get_next_optbyte (at_opt (zlen opts) c) Q.
Proof.
  intros HQ. destruct (oi_more _ _ Hopts) as (b & Hb & Hu). pose proof (oi_max _ _ Hopts). pose proof (zlen_nonneg opts).
  eapply runs_eq; [apply next_optbyte; [lia|exact Hb]|by apply HQ].
Qed.
Lemma drop_next i a rest : 0 ≤ i → drop (Z.to_nat i) opts = a :: rest →
  opts !! Z.to_nat i = Some a ∧ drop (Z.to_nat (i + 1)) opts = rest ∧ i + zlen rest + 1 = zlen opts ∧ is_u8 a.
Proof.
  intros Hi Hd. assert (opts !! Z.to_nat i = Some a) as Ha.
  { rewrite <- (Nat.add_0_r (Z.to_nat i)), <- lookup_drop. by rewrite Hd. }
  split_and!; [done|..].
  - replace (Z.to_nat (i + 1)) with (Z.to_nat i + 1)%nat by lia. by rewrite <- drop_drop, Hd.
  - apply (f_equal length) in Hd. rewrite length_drop in Hd. simpl in Hd. unfold zlen. lia.
  - eapply Forall_lookup_1; [apply (oi_u8 _ _ Hopts)|done].
Qed.

(** What [parse_one_opt] does where the reference parser gives [r]. *)
Definition parsed (i : Z) (c : tcp_pcb) (r : option (list Z * tcp_pcb)) (go : bool) (t' : tstate) : Prop :=
  ∃ i' c', t' = at_opt i' c' ∧ i < i' ≤ 1000 ∧
    match r with
    | Some (opts', c'') => go = true ∧ c' = c'' ∧ drop (Z.to_nat i') opts = opts'
    | None => c' = c ∧ (go = true → zlen opts ≤ i')
    end.

Let syn := has_bits (in_flags (t_in t)) TCP_SYN.

Lemma mss_at i c hi lo data : 0 ≤ i < 40 → drop (Z.to_nat i) opts = hi :: lo :: data →
  runs (opt_mss pcb) (at_opt i c) (λ _ t', t' = at_opt (i + 2) (apply_opt syn LWIP_TCP_OPT_MSS [hi; lo] c)).
Proof.
  intros Hi (H1 & Hd & _ & Hhi)%drop_next; [|lia]. apply drop_next in Hd as (H2 & _ & _ & Hlo); [|lia].
  apply runs_bind, (byte_at _ _ hi); [lia|done|]. apply runs_bind, (byte_at _ _ lo); [lia|done|].
  apply update_at. replace (i + 1 + 1) with (i + 2) by lia. do 2 f_equal. unfold apply_opt. simpl.
  rewrite Z.shiftl_mul_pow2, u16_small by (bounds; lia). by rewrite (lor_add 8), (Z.mul_comm hi) by (bounds; lia).
Qed.
Lemma scale_at i c d data : 0 ≤ i < 40 → drop (Z.to_nat i) opts = d :: data → (syn = true → wnd_default c) →
  runs (opt_wnd_scale pcb) (at_opt i c) (λ _ t', t' = at_opt (i + 1) (apply_opt syn LWIP_TCP_OPT_WS [d] c)).
Proof.
  intros Hi (H1 & _ & _ & Hd)%drop_next Hw; [|lia].
  apply runs_bind, (byte_at _ _ d); [lia|done|]. apply runs_bind, runs_gets, runs_bind, get_at. cbv zeta.
  change (has_bits (in_flags (t_in (at_opt (i + 1) c))) TCP_SYN) with syn. unfold apply_opt. simpl.
  destruct syn; [|done]. destruct (tcp_is_flag_set c TF_WND_SCALE); [done|]. simpl. destruct (Hw eq_refl) as [W1 W2].
  apply runs_bind, update_at, runs_bind, update_at. rewrite W1, W2.
  apply runs_bind, runs_assert; [done|]. apply runs_bind, runs_assert; [done|]. apply update_at. do 2 f_equal.
  rewrite Z.min_comm. destruct (Z.ltb_spec 14 d); [by rewrite Z.min_l by lia|by rewrite Z.min_r by lia].
Qed.
Lemma sack_at i c : runs (opt_sack_perm pcb) (at_opt i c) (λ _ t', t' = at_opt i (apply_opt syn LWIP_TCP_OPT_SACK_PERM [] c)).
Proof.
  apply runs_bind, runs_gets. change (has_bits (in_flags (t_in (at_opt i c))) TCP_SYN) with syn. unfold apply_opt. simpl.
  destruct syn; [|done]. by apply update_at.
Qed.

Lemma length_at i c k len data : 0 ≤ i < 40 → 2 ≤ k → drop (Z.to_nat i) opts = len :: data →
  runs (opt_length_ok k) (at_opt i c) (λ ok t',
    t' = at_opt (i + 1) c ∧ ok = (len =? k) && (Z.to_nat (len - 2) <=? length data)%nat).
Proof.
  intros Hi Hk (H1 & Hd & Hl & _)%drop_next; [|lia].
  apply runs_bind, (byte_at _ _ len); [lia|done|]. destruct (Z.eqb_spec len k) as [->|]; [simpl|by apply runs_ret].
  apply runs_bind, runs_gets, runs_ret. split; [done|]. simpl. rewrite <- (oi_len _ _ Hopts).
  unfold zlen in *. destruct (Nat.leb_spec (Z.to_nat (k - 2)) (length data)), (Z.ltb_spec (Z.of_nat (length opts)) (i + 1 - 2 + k)); try done; lia.
Qed.
Lemma length_after c k : 2 ≤ k → runs (opt_length_ok k) (at_opt (zlen opts) c) (λ ok t', t' = at_opt (zlen opts + 1) c ∧ ok = false).
Proof.
  intros Hk. apply runs_bind, byte_after. intros b Hb. destruct (b =? k); [simpl|by apply runs_ret].
  apply runs_bind, runs_gets, runs_ret. split; [done|]. simpl. rewrite <- (oi_len _ _ Hopts).
  by destruct (Z.ltb_spec (zlen opts) (zlen opts + 1 - 2 + k)); [|lia].
Qed.

(** An option whose length the parser knows. *)
Lemma known_at i c kind k rest (m : M tstate unit) :
  0 ≤ i < 40 → drop (Z.to_nat i) opts = kind :: rest → kind ≠ LWIP_TCP_OPT_EOL → kind ≠ LWIP_TCP_OPT_NOP → opt_len kind = Some k → 2 ≤ k ≤ 4 →
  (∀ data, i + 2 + zlen data ≤ 40 → drop (Z.to_nat (i + 2)) opts = data → k - 2 ≤ zlen data →
     runs m (at_opt (i + 2) c) (λ _ t', t' = at_opt (i + k) (apply_opt syn kind (take (Z.to_nat (k - 2)) data) c))) →
  runs (let! ok := opt_length_ok k in if ok then do! m; ret true else ret false) (at_opt (i + 1) c)
    (parsed i c (one_opt syn (kind :: rest) c)).
Proof.
  intros Hi (_ & Hd & Hl & _)%drop_next He Hn Hk Hk2 Hm; [|lia]. simpl. rewrite Hk.
  apply Z.eqb_neq in He as ->. apply Z.eqb_neq in Hn as ->. apply runs_bind. pose proof (oi_max _ _ Hopts).
  destruct rest as [|len data].
  { rewrite zlen_nil in Hl. replace (i + 1) with (zlen opts) by lia.
    eapply runs_mono; [apply length_after; lia|]. intros ok t' [-> ->]. apply runs_ret.
    exists (zlen opts + 1), c. split_and!; try done; lia. }
  destruct (drop_next (i + 1) len data) as (_ & Hd2 & Hl2 & _); [lia|done|]. pose proof (zlen_nonneg data).
  eapply runs_mono; [eapply length_at; [unfold zlen in *; simpl in *; lia|lia|exact Hd]|]. intros ok t' [-> ->].
  replace (i + 1 + 1) with (i + 2) in * by lia. destruct (Z.eqb_spec len k) as [->|]; simpl; [|apply runs_ret; exists (i + 2), c; split_and!; done || lia].
  destruct (Nat.leb_spec (Z.to_nat (k - 2)) (length data)) as [Hf|Hf]; [|apply runs_ret; exists (i + 2), c; split_and!; done || lia].
  apply runs_bind. eapply runs_mono; [apply (Hm data); [lia|done|unfold zlen; lia]|]. intros _ t' ->. apply runs_ret.
  exists (i + k), (apply_opt syn kind (take (Z.to_nat (k - 2)) data) c). split_and!; [done|lia|lia|done|done|].
  rewrite <- Hd2, drop_drop. f_equal. lia.
Qed.
(** One whose length it takes from the option. *)
Lemma unknown_at i c kind rest :
  0 ≤ i < 40 → drop (Z.to_nat i) opts = kind :: rest → kind ≠ LWIP_TCP_OPT_EOL → kind ≠ LWIP_TCP_OPT_NOP → opt_len kind = None →
  runs (let! data := tcp_get_next_optbyte in
        if data <? 2 then ret false else
        do! set_in (λ v, v <| tcp_optidx := u16 (tcp_optidx v + (data - 2)) |>); ret true) (at_opt (i + 1) c)
    (parsed i c (one_opt syn (kind :: rest) c)).
Proof.
  intros Hi (_ & Hd & Hl & _)%drop_next He Hn Hk; [|lia]. simpl. rewrite Hk.
  apply Z.eqb_neq in He as ->. apply Z.eqb_neq in Hn as ->. apply runs_bind. pose proof (oi_max _ _ Hopts).
  assert (∀ b, is_u8 b → 2 ≤ b → 0 ≤ i + 1 + 1 + (b - 2) < 65536) as Hsmall by (intros b Hb; unfold is_u8 in Hb; lia).
  destruct rest as [|len data].
  { rewrite zlen_nil in Hl. replace (i + 1) with (zlen opts) by lia. apply byte_after. intros b Hb.
    destruct (Z.ltb_spec b 2); [apply runs_ret; exists (zlen opts + 1), c; split_and!; try done; lia|].
    apply runs_bind, runs_modify, runs_ret. simpl. replace (zlen opts) with (i + 1) by lia. rewrite u16_small by eauto.
    exists (i + 1 + 1 + (b - 2)), c. unfold is_u8 in Hb. split_and!; [done|lia|lia|done|lia]. }
  destruct (drop_next (i + 1) len data) as (H1 & Hd2 & Hl2 & Hu); [lia|done|]. pose proof (zlen_nonneg data).
  apply (byte_at _ _ len); [lia|done|]. destruct (Z.ltb_spec len 2); [apply runs_ret; exists (i + 1 + 1), c; split_and!; done || lia|].
  apply runs_bind, runs_modify, runs_ret. simpl. rewrite u16_small by eauto.
  exists (i + 1 + 1 + (len - 2)), c. unfold is_u8 in Hu. split_and!; [done|lia|lia|done|done|].
  rewrite <- Hd2, drop_drop. f_equal. lia.
Qed.

Lemma option_at i c kind rest : 0 ≤ i < 40 → drop (Z.to_nat i) opts = kind :: rest → (syn = true → wnd_default c) →
  runs (parse_one_opt pcb) (at_opt i c) (parsed i c (one_opt syn (kind :: rest) c)).
Proof.
  intros Hi Hd Hw. destruct (drop_next i kind rest) as (H1 & Hr & Hl & _); [lia|done|]. pose proof (zlen_nonneg rest).
  apply runs_bind, (byte_at _ _ kind); [lia|done|]. cbv zeta.
  destruct (Z.eqb_spec kind LWIP_TCP_OPT_EOL) as [->|He]; [apply runs_ret; exists (i + 1), c; split_and!; done || lia|].
  destruct (Z.eqb_spec kind LWIP_TCP_OPT_NOP) as [->|Hn]; [apply runs_ret; exists (i + 1), c; split_and!; done || lia|].
  destruct (Z.eqb_spec kind LWIP_TCP_OPT_MSS) as [->|H2].
  { eapply known_at; try done. intros data Hi2 Hd2 Hz. destruct data as [|hi [|lo data]]; try done. rewrite !zlen_cons in Hi2. pose proof (zlen_nonneg data).
    replace (i + 4) with (i + 2 + 2) by lia. by apply (mss_at _ _ _ _ data); [lia|]. }
  destruct (Z.eqb_spec kind LWIP_TCP_OPT_WS) as [->|H3].
  { eapply known_at; try done. intros data Hi2 Hd2 Hz. destruct data as [|d data]; try done. rewrite !zlen_cons in Hi2. pose proof (zlen_nonneg data).
    replace (i + 3) with (i + 2 + 1) by lia. by apply (scale_at _ _ _ data); [lia|..]. }
  destruct (Z.eqb_spec kind LWIP_TCP_OPT_SACK_PERM) as [->|H4].
  { eapply known_at; try done. intros data Hi2 Hd2 Hz. apply sack_at. }
  apply unknown_at; try done. unfold opt_len. apply Z.eqb_neq in H2 as ->. apply Z.eqb_neq in H3 as ->. by apply Z.eqb_neq in H4 as ->.
Qed.

Lemma parse_opts_done n o c : length o = 0%nat → parse_opts n syn o c = c.
Proof. destruct n, o; done. Qed.
Lemma parse_loop_at fuel : ∀ n i c, 0 ≤ i → Z.max 0 (zlen opts - i) < Z.of_nat fuel → (length (drop (Z.to_nat i) opts) ≤ n)%nat → (syn = true → wnd_default c) →
  runs (tcp_parseopt_loop fuel pcb) (at_opt i c) (λ _ t', ∃ i', t' = at_opt i' (parse_opts n syn (drop (Z.to_nat i) opts) c)).
Proof.
  pose proof (oi_max _ _ Hopts).
  induction fuel as [|fuel IH]; intros n i c Hi Hf Hn Hw.
  { lia. }
  apply runs_bind, runs_gets. simpl. fold tcp_parseopt_loop. rewrite <- (oi_len _ _ Hopts). destruct (Z.ltb_spec i (zlen opts)) as [Hlt|Hge].
  2: { apply runs_ret. exists i. rewrite parse_opts_done; [done|]. rewrite length_drop. unfold zlen in *. lia. }
  destruct (drop (Z.to_nat i) opts) as [|kind rest] eqn:Hd.
  { apply (f_equal length) in Hd. rewrite length_drop in Hd. unfold zlen in *. simpl in Hd. lia. }
  apply runs_bind. eapply runs_mono; [apply (option_at i c kind rest); [lia|done..]|].
  intros go t' (i' & c' & -> & Hi' & Hr). destruct n as [|n]; [simpl in Hn; lia|]. cbn [parse_opts].
  destruct (one_opt syn (kind :: rest) c) as [[opts' c'']|] eqn:Ho.
  - destruct Hr as (-> & -> & <-). apply IH; [lia|lia| |].
    + apply one_opt_shorter in Ho. simpl in Ho, Hn. lia.
    + intros Hs. eapply one_opt_wnd; eauto.
  - destruct Hr as (-> & Hgo). destruct go; [|apply runs_ret; by exists i'].
    eapply runs_mono; [apply (IH 0%nat i' c); [lia|lia|rewrite length_drop; specialize (Hgo eq_refl); unfold zlen in *; lia|done]|].
    done.
Qed.
End parse.

Lemma parsed_options t pcb opts c :
  options_in t opts → tcp_mem t !! pcb = Some (Conn_pcb c) → (has_bits (in_flags (t_in t)) TCP_SYN = true → wnd_default c) →
  ∃ i, tcp_parseopt pcb t = Val (tt, put_blk pcb (Conn_pcb (tcp_options (has_bits (in_flags (t_in t)) TCP_SYN) opts c)) t
    <| t_in := (t_in t) <| tcp_optidx := i |> |>).
Proof.
  intros Ho Hc Hw. assert (t = at_opt t pcb (tcp_optidx (t_in t)) c) as Ht.
  { unfold at_opt, put_blk. simpl. rewrite insert_id by done. destruct t as [??????????????? v]. by destruct v. }
  assert (runs (tcp_parseopt pcb) t (λ _ t', ∃ i, t' = at_opt t pcb i (tcp_options (has_bits (in_flags (t_in t)) TCP_SYN) opts c))) as (a & t' & E & i & ->)%runs_inv.
  { apply runs_bind, runs_gets. rewrite <- (oi_len _ _ Ho). destruct (Z.eqb_spec (zlen opts) 0) as [Hz|Hz].
    { apply runs_ret. exists (tcp_optidx (t_in t)). by rewrite (zlen_0_nil _ Hz). }
    apply runs_bind, runs_modify. change (runs (tcp_parseopt_loop (S (Z.to_nat (zlen opts))) pcb) (t <| t_in := (t_in t) <| tcp_optidx := 0 |> |>)
      (λ _ t', ∃ i, t' = at_opt t pcb i (tcp_options (has_bits (in_flags (t_in t)) TCP_SYN) opts c))).
    replace (t <| t_in := (t_in t) <| tcp_optidx := 0 |> |>) with (at_opt t pcb 0 c).
    2: { unfold at_opt, put_blk. simpl. rewrite insert_id by done. by destruct t. }
    apply (parse_loop_at t pcb opts Ho); [done|unfold zlen; lia|done|done]. }
  exists i. by destruct a.
Qed.

(** C37: whatever bytes the options of a segment are, [tcp_parseopt] ends, reads
    them and at most the byte after them, and changes nothing but the connection,
    as the reference parser of lists of bytes says. *)
Theorem tcp_parseopt_spec t pcb opts c :
  options_in t opts → tcp_mem t !! pcb = Some (Conn_pcb c) → (has_bits (in_flags (t_in t)) TCP_SYN = true → wnd_default c) →
  ∃ i, tcp_parseopt pcb t = Val (tt, put_blk pcb (Conn_pcb (tcp_options (has_bits (in_flags (t_in t)) TCP_SYN) opts c)) t
    <| t_in := (t_in t) <| tcp_optidx := i |> |>).
Proof. apply parsed_options. Qed.

(** ** The options of a SYN *)

(** The connection after the options that [tcp_output] writes for these flags. *)
Definition syn_read (flags mss : Z) (c : tcp_pcb) : tcp_pcb :=
  let c := if has_bits flags TF_SEG_OPTS_MSS then c <| tp_mss := mss |> else c in
  let c := if has_bits flags TF_SEG_OPTS_WND_SCALE
    then c <| tp_snd_scale := TCP_RCV_SCALE |> <| tp_rcv_scale := TCP_RCV_SCALE |> <| tp_flags := u16 (Z.lor (tp_flags c) TF_WND_SCALE) |>
      <| tp_rcv_wnd := TCP_WND |> <| tp_rcv_ann_wnd := TCP_WND |> else c in
  if has_bits flags TF_SEG_OPTS_SACK_PERM then c <| tp_flags := u16 (Z.lor (tp_flags c) TF_SACK) |> else c.

Lemma syn_options_read flags mss c : 0 < mss ≤ TCP_MSS → tcp_is_flag_set c TF_WND_SCALE = false →
  tcp_options true (syn_options flags mss) c = syn_read flags mss c.
Proof.
  intros Hm Hf. unfold syn_options, syn_read, tcp_options.
  assert (256 * (mss / 256) + mss mod 256 = mss) as Hmss by (Z.div_mod_to_equations; lia).
  assert ((TCP_MSS <? mss) || (mss =? 0) = false) as Hok by (apply orb_false_iff; split; [apply Z.ltb_ge|apply Z.eqb_neq]; lia).
  destruct (has_bits flags TF_SEG_OPTS_MSS), (has_bits flags TF_SEG_OPTS_WND_SCALE), (has_bits flags TF_SEG_OPTS_SACK_PERM);
    cbn -[Z.add Z.mul Z.div Z.modulo TCP_MSS]; unfold apply_opt; simpl; rewrite ?Hmss, ?Hok; unfold tcp_is_flag_set in *; simpl; rewrite ?Hf; try done; unfold apply_opt, tcp_is_flag_set; simpl; rewrite ?Hf; done.
Qed.

(** Through a pointer to enough bytes. *)
Lemma wr32_read s h n d o v :
  mem_read s (Some h) 0 n = Val d ∧ zlen d = n → 0 ≤ o → o + 4 ≤ n → is_u32 v →
  runs (wr32 (Some h) o (lwip_htonl v)) s (λ _ s',
    mem_read s' (Some h) 0 n = Val (zsplice o (be32 v) d) ∧ zlen (zsplice o (be32 v) d) = n).
Proof.
  intros [Hr Hl] Ho Hn Hv. unfold wr32. rewrite htonl_bytes by done.
  eapply runs_mono; [eapply (mem_write_read s (Some h) n d o (be32 v)); done|].
  intros _ s' (Hr' & _). split; [done|]. rewrite zlen_zsplice; change (zlen (be32 v)) with 4; lia.
Qed.

(** C38: [write_syn_options], with which [tcp_output] puts the options into a SYN,
    and [tcp_parseopt] are inverse to each other.  Into the header at [h] the
    writer puts, behind the 20 bytes that it leaves alone, some bytes that it says
    the length of; and whoever receives these bytes as the options of a SYN, in one
    pbuf or two, for a connection without options, reads out of them the MSS, the
    window scale and the permission to acknowledge selectively that the flags of
    the segment asked for, and nothing else. *)
Theorem syn_options_roundtrip s h d flags mss :
  mem_read s (Some h) 0 (zlen d) = Val d → TCP_HLEN + LWIP_TCP_OPT_LENGTH flags ≤ zlen d → 0 < mss ≤ TCP_MSS →
  runs (write_syn_options (Some h) flags mss) s (λ o s', ∃ opts,
    mem_read s' (Some h) 0 TCP_HLEN = Val (ztake TCP_HLEN d) ∧
    mem_read s' (Some h) TCP_HLEN (o - TCP_HLEN) = Val opts ∧
    ∀ t pcb c, options_in t opts → tcp_mem t !! pcb = Some (Conn_pcb c) → has_bits (in_flags (t_in t)) TCP_SYN = true →
      tcp_is_flag_set c TF_WND_SCALE = false → wnd_default c →
      ∃ i, tcp_parseopt pcb t = Val (tt, put_blk pcb (Conn_pcb (syn_read flags mss c)) t <| t_in := (t_in t) <| tcp_optidx := i |> |>)).
Proof.
  intros Hr Hn Hm. pose proof (zlen_syn_options flags mss) as Hol. pose proof (zlen_nonneg (syn_options flags mss)).
  assert (is_u16 mss) as Hm16 by (unfold is_u16, TCP_MSS in *; lia).
  eapply runs_mono.
  { apply (write_syn_options_gen (λ s d', mem_read s (Some h) 0 (zlen d) = Val d' ∧ zlen d' = zlen d) _ 0 (zlen d) s d flags mss).
    - intros s1 o d1 v H1 Ho Ho' Hv. rewrite Z.add_0_l in *. by apply wr32_read.
    - done.
    - done.
    - lia.
    - done.
    - lia. }
  intros o s' (-> & Hr' & Hl'). rewrite Z.add_0_l in *. unfold TCP_HLEN in *. exists (syn_options flags mss). split; [|split].
  - rewrite (mem_read_sub _ _ _ _ 0 20 Hr' Hl') by lia. f_equal. unfold zslice. rewrite zdrop_0. unfold zsplice.
    rewrite ztake_app_le by (rewrite zlen_ztake; lia). apply ztake_ge. rewrite zlen_ztake; lia.
  - replace (20 + LWIP_TCP_OPT_LENGTH flags - 20) with (zlen (syn_options flags mss)) by lia.
    rewrite (mem_read_sub _ _ _ _ 20 (zlen (syn_options flags mss)) Hr' Hl') by lia. f_equal. apply zslice_zsplice; lia.
  - intros t pcb c Ho Hc Hsyn Hf Hw. destruct (parsed_options t pcb _ c Ho Hc (λ _, Hw)) as [i Hi].
    rewrite Hsyn, syn_options_read in Hi by done. by exists i.
Qed.

(** ** The options in two pbufs *)

Definition ex_opt_pcb : tcp_pcb := fresh_pcb 64 0 0.
(** A SYN whose options are the last four bytes of one block and the first eight of
    the next. *)
Definition ex_opts : tstate :=
  mk_tstate (mk_ipstate (mk_store ∅
        {[1%positive := replicate 20 0 ++ [2; 4; 5; 180]; 2%positive := [1; 3; 3; 8; 1; 1; 4; 2; 0]]} 4 [] ∅ sys_mbox_new false)
      (mk_netif 0 0 0 1500 5 0) true no_packet 7)
    {[3%positive := Conn_pcb ex_opt_pcb]} ∅ [] [] [3%positive] [] false 0 0 0 0 6510 None 0
    (no_segment <| tcphdr := Some (mk_ptr 1 0) |> <| tcphdr_optlen := 12 |> <| tcphdr_opt1len := 4 |>
       <| tcphdr_opt2 := Some (mk_ptr 2 0) |> <| in_flags := TCP_SYN |>).
Definition ex_opt_flags : Z := Z.lor (Z.lor TF_SEG_OPTS_MSS TF_SEG_OPTS_WND_SCALE) TF_SEG_OPTS_SACK_PERM.

Lemma ex_options_in : options_in ex_opts (syn_options ex_opt_flags 1460).
Proof.
  split; [reflexivity|done|apply syn_options_u8; unfold is_u16; lia| |by exists 0].
  intros i b Hi Hb. rewrite <- (Z2Nat.id i) by done. revert Hb. generalize (Z.to_nat i). intros n.
  do 12 (destruct n as [|n]; [intros [= <-]; reflexivity|]). done.
Qed.
Lemma tcp_parseopt_spec_witness : ∃ i,
  tcp_parseopt 3%positive ex_opts = Val (tt, put_blk 3 (Conn_pcb (tcp_options true (syn_options ex_opt_flags 1460) ex_opt_pcb)) ex_opts
    <| t_in := (t_in ex_opts) <| tcp_optidx := i |> |>).
Proof. by apply (tcp_parseopt_spec ex_opts 3 (syn_options ex_opt_flags 1460) ex_opt_pcb ex_options_in). Defined.
(** A header with room for twelve bytes of options is written, and the options
    received in two pbufs. *)
Definition ex_syn_store : store := mk_store ∅ {[5%positive := replicate 40 7]} 6 [] ∅ sys_mbox_new false.
Lemma syn_options_roundtrip_witness :
  runs (write_syn_options (Some (mk_ptr 5 4)) ex_opt_flags 1460) ex_syn_store (λ o s',
    mem_read s' (Some (mk_ptr 5 4)) 20 (o - 20) = Val [2; 4; 5; 180; 1; 3; 3; 8; 1; 1; 4; 2] ∧
    ∃ i, tcp_parseopt 3%positive ex_opts = Val (tt, put_blk 3 (Conn_pcb (syn_read ex_opt_flags 1460 ex_opt_pcb)) ex_opts
      <| t_in := (t_in ex_opts) <| tcp_optidx := i |> |>)).
Proof.
  assert (match write_syn_options (Some (mk_ptr 5 4)) ex_opt_flags 1460 ex_syn_store with
          | Val (o, s') => mem_read s' (Some (mk_ptr 5 4)) 20 (o - 20) | Err e => Err e
          end = Val (syn_options ex_opt_flags 1460)) as H by (vm_compute; reflexivity).
  pose proof (syn_options_roundtrip ex_syn_store (mk_ptr 5 4) (replicate 36 7) ex_opt_flags 1460 eq_refl ltac:(by vm_compute)
    ltac:(by vm_compute)) as Hr. unfold runs in *.
  destruct (write_syn_options _ _ _ _) as [[o s']|]; [|exact Hr]. destruct Hr as (opts & _ & Hopts & Hparse).
  assert (opts = syn_options ex_opt_flags 1460) as Heq by (pose proof (eq_trans (eq_sym Hopts) H) as E; injection E as E; exact E).
  rewrite Heq in Hparse. split; [exact H|]. by apply (Hparse ex_opts 3%positive ex_opt_pcb ex_options_in).
Defined.
