(* ===== verification/TcpStates.v ===== *)
(** * TCP: the state machine and resets

    What a segment does to the state of a connection that is established or
    closing, against the arrows of the diagram of RFC 793, and which resets a
    connection accepts (RFC 5961). *)

From S2P Require Import Prelude Mbox Heap HeapFacts Pbuf Frame Def Chksum Addr Timeouts Header Ip4 Tcp TcpOut TcpSend TcpIn TcpTmr TcpFrame TcpOutFrame TcpInFrame TcpLists TcpCalls TcpOpen TcpKept TcpInCalls TcpInput TcpApi.

Implicit Types t : tstate.

(** ** The diagram *)

Inductive tcp_event := Fin_acked | Fin_received.
(** An arrow of the diagram; an event without one leaves the state alone. *)
Definition arrow (s : tcp_state) (ev : tcp_event) : tcp_state :=
  match s, ev with
  | ESTABLISHED, Fin_received => CLOSE_WAIT
  | FIN_WAIT_1, Fin_acked => FIN_WAIT_2
  | FIN_WAIT_1, Fin_received => CLOSING
  | FIN_WAIT_2, Fin_received => TIME_WAIT
  | CLOSING, Fin_acked => TIME_WAIT
  | LAST_ACK, Fin_acked => CLOSED
  | s, _ => s
  end.
Definition follow : tcp_state → list tcp_event → tcp_state := foldl arrow.

(** The states in which both ends have sent their SYN and it has been acknowledged. *)
Definition synchronized (s : tcp_state) : bool :=
  match s with ESTABLISHED | CLOSE_WAIT | FIN_WAIT_1 | FIN_WAIT_2 | CLOSING | LAST_ACK => true | _ => false end.

(** Everything sent, our FIN last, has been acknowledged. *)
Definition fin_acked t (c : tcp_pcb) : bool :=
  has_bits (in_flags (t_in t)) TCP_ACK && (in_ackno (t_in t) =? tp_snd_nxt c) && bool_decide (tp_unsent c = []).
(** The events of the segment that has just been received. *)
Definition events (acked fin : bool) : list tcp_event :=
  (if acked then [Fin_acked] else []) ++ (if fin then [Fin_received] else []).
Definition got_fin t : bool := has_bits (recv_flags t) TF_GOT_FIN.
(** The state of a connection for its user: after LAST_ACK, [tcp_input] frees it. *)
Definition rfc_state t (c : tcp_pcb) : tcp_state :=
  if bool_decide (tp_state c = LAST_ACK) && has_bits (recv_flags t) TF_CLOSED then CLOSED else tp_state c.

Lemma got_fin_input t : got_fin t = true ↔ input_fin t.
Proof. unfold got_fin, input_fin. by rewrite <- (bit_test (recv_flags t) 5). Qed.
Lemma got_fin_mono t t' : input_same t t' → got_fin t = true → got_fin t' = true.
Proof. rewrite !got_fin_input. intros (_ & _ & _ & H). done. Qed.
Lemma open_same t t' : input_same t t' → ¬ input_closed t → ¬ input_closed t'.
Proof. intros (_ & _ & H & _). tauto. Qed.
Lemma open_state t c : ¬ input_closed t → rfc_state t c = tp_state c.
Proof.
  intros H. unfold rfc_state. destruct (has_bits (recv_flags t) TF_CLOSED) eqn:E; [by apply has_closed in E|]. by rewrite andb_false_r.
Qed.
Lemma live_state t c : tp_state c ≠ LAST_ACK → rfc_state t c = tp_state c.
Proof. intros H. unfold rfc_state. by rewrite bool_decide_false. Qed.

Section states.
Context {W : Type} `{!Part tstate W} `{!netif_driver W} `{!tcp_client W} `{!Part timeouts W} `{!timer_client W} `{!Apart tstate timeouts W}.
Context `{!netif_driver_keeps W}.
Implicit Types w : W.

Abbreviation tc m := (lift (P := tstate) (S := W) m).

(** ** What the data of the segment do *)

(** The state after [tcp_receive]: the flag of a FIN is up when that has moved it. *)
Lemma receive_state pcb c w : tcp_mem (part_get w) !! pcb = Some (Conn_pcb c) →
  yields (tcp_receive pcb) w (λ _ w', ∃ c', tcp_mem (part_get w') !! pcb = Some (Conn_pcb c') ∧
    (tp_state c' = tp_state c ∨ tp_state c = ESTABLISHED ∧ tp_state c' = CLOSE_WAIT ∧ got_fin (part_get w') = true) ∧
    input_same (part_get w) (part_get w')).
Proof.
  intros Hc. eapply yields_mono; [apply recv_receive|]. intros [] w' [S|(c1 & Hc1 & [Hs Hf] & S)].
  - destruct (same_conn _ _ _ _ S Hc) as (c' & Hc' & E). exists c'. injection E as E1 E2 E3. split_and!; [done|by left|apply S].
  - rewrite Hc in Hc1. injection Hc1 as <-.
    destruct (same_conn pcb _ _ (c <| tp_state := CLOSE_WAIT |>) S) as (c' & Hc' & E); [apply lookup_insert_eq|].
    injection E as E1 E2 E3. exists c'. split_and!; [done|right; by rewrite got_fin_input|apply S].
Qed.

(** ** The end of the connection *)

Definition mem_same t t' : Prop := tcp_mem t' = tcp_mem t.
#[local] Instance mem_same_preorder : PreOrder mem_same.
Proof. split; [by intros t|]. unfold mem_same. intros t1 t2 t3 ? ?. congruence. Qed.
Lemma mem_RMV k l : stable mem_same (TCP_RMV k l).
Proof. unfold TCP_RMV. stable_tac. case_decide; by destruct k. Qed.
Lemma mem_RMV_ACTIVE k : stable mem_same (TCP_RMV_ACTIVE k).
Proof. unfold TCP_RMV_ACTIVE, set_changed. refine (stable_bind _ _ _ _ _); [apply mem_RMV|intros; by apply stable_modify]. Qed.
Lemma mem_reg_link k l : stable mem_same (tcp_reg_link k l).
Proof. unfold tcp_reg_link. stable_tac. by destruct k. Qed.
Lemma mem_reg k l : stable (on_part mem_same) (TCP_REG (W := W) k l).
Proof.
  unfold TCP_REG. refine (stable_bind _ _ _ _ _); [apply stable_part, mem_reg_link|]. intros [].
  apply (stable_weaken (on_part eq (P := tstate))); [|apply timer_needed_apart]. intros s s' E. unfold on_part, mem_same in *. by rewrite E.
Qed.

Lemma time_wait_state pcb w : is_there pcb (part_get w) →
  yields (to_time_wait pcb) w (λ _ w', ∃ c, tcp_mem (part_get w') !! pcb = Some (Conn_pcb c) ∧ tp_state c = TIME_WAIT ∧
    input_same (part_get w) (part_get w')).
Proof.
  intros Ht. eapply (yields_mono _ _ (λ _ w', on_part input_same w w' ∧ ∃ c, tcp_mem (part_get w') !! pcb = Some (Conn_pcb c) ∧ tp_state c = TIME_WAIT)).
  2: { intros [] w' (S & c & ? & ?). by exists c. }
  apply yields_and; [exact (exact_time_wait pcb w)|].
  eapply stable_then; [apply stable_part, same_pcb_purge|]. intros [] w1 S1. destruct (same_there _ _ _ S1 Ht) as [c1 Hc1].
  eapply yields_tc.
  { exact (mem_RMV_ACTIVE pcb (part_get w1)). }
  intros [] w2 E2. unfold mem_same in E2.
  eapply yields_tc; [apply (yields_update_tcp _ _ _ (λ _ t, ∃ c, tcp_mem t !! pcb = Some (Conn_pcb c) ∧ tp_state c = TIME_WAIT))|].
  { intros c Hc. eexists. split; [apply lookup_insert_eq|done]. }
  intros [] w3 (c3 & Hc3 & Hs3). eapply yields_mono; [apply mem_reg|]. intros [] w4 E4. exists c3. unfold on_part, mem_same in E4. by rewrite E4.
Qed.

(** ** The states *)

Lemma yields_val {A} (m : M W A) w (Q : A → W → Prop) : yields m w Q → yields m w (λ a w', m w = Val (a, w') ∧ Q a w').
Proof. unfold yields. by destruct (m w) as [[a w']|]. Qed.

(** The connection is in state [s] for its user. *)
Definition in_state (pcb : loc) (s : tcp_state) t : Prop := ∃ c, tcp_mem t !! pcb = Some (Conn_pcb c) ∧ rfc_state t c = s.
Lemma in_state_same pcb s t t' : ¬ input_closed t → same_tcp t t' → in_state pcb s t → in_state pcb s t'.
Proof.
  intros Ho S (c & Hc & Hs). destruct (same_conn _ _ _ _ S Hc) as (c' & Hc' & E). exists c'. split; [done|].
  assert (¬ input_closed t') as Ho' by (eapply open_same; [apply S|done]). rewrite open_state in * by done. unfold conn_sig in E. congruence.
Qed.
Lemma update_state pcb s w : ¬ input_closed (part_get w) →
  yields (tc (update_tcp pcb (λ c, c <| tp_state := s |>))) w (λ _ w', in_state pcb s (part_get w')).
Proof.
  intros Ho. apply (yields_part _ _ (λ _ t', in_state pcb s t')), yields_update_tcp. intros c Hc. eexists. split; [apply lookup_insert_eq|by apply open_state].
Qed.
Lemma ack_then {A} (m : M W A) pcb w (Q : A → W → Prop) :
  (∀ w', same_tcp (part_get w) (part_get w') → yields m w' Q) → yields (do! tc (tcp_ack_now pcb); m) w Q.
Proof. intros H. eapply (stable_then same_w); [stable_tac|]. intros [] w' S. by apply H. Qed.
Lemma time_wait_in pcb w : is_there pcb (part_get w) → yields (to_time_wait pcb) w (λ _ w', in_state pcb TIME_WAIT (part_get w')).
Proof.
  intros H. eapply yields_mono; [by apply time_wait_state|]. intros [] w' (c & Hc & Hs & _). exists c. split; [done|]. rewrite live_state; congruence.
Qed.

(** The state that the diagram gives for what has been received. *)
Definition goes (pcb : loc) (s : tcp_state) t2 t' : Prop :=
  ∃ c2, tcp_mem t2 !! pcb = Some (Conn_pcb c2) ∧ in_state pcb (follow s (events (fin_acked t2 c2) (got_fin t2))) t'.
Lemma yields_ok_done (m : M W unit) w (Q : W → Prop) : yields m w (λ _ w', Q w') → yields (do! m; ret ERR_OK) w (λ err w', err = ERR_OK ∧ Q w').
Proof. intros H. eapply yields_then; [exact H|]. intros [] w' Hq. by apply yields_ret. Qed.
Lemma all_acked_then {A} (f : bool → M W A) pcb c w (Q : A → W → Prop) : tcp_mem (part_get w) !! pcb = Some (Conn_pcb c) →
  yields (f (fin_acked (part_get w) c)) w Q → yields (mbnd (tc (all_acked pcb)) f) w Q.
Proof.
  intros Hc H. eapply yields_then; [apply (yields_lift _ _ (λ b w', b = fin_acked (part_get w) c ∧ w' = w))|by intros b w' [-> ->]].
  unfold yields, all_acked, mbnd, in_var, gets, ask, get_tcp. rewrite Hc. simpl. by rewrite part_set_get.
Qed.

(** After [tcp_receive]. *)
Definition received (pcb : loc) (s : tcp_state) t c2 : Prop :=
  tcp_mem t !! pcb = Some (Conn_pcb c2) ∧ ¬ input_closed t ∧ (tp_state c2 = s ∨ s = ESTABLISHED ∧ tp_state c2 = CLOSE_WAIT ∧ got_fin t = true).
Lemma after_receive pcb c (f : M W unit) w : tcp_mem (part_get w) !! pcb = Some (Conn_pcb c) → ¬ input_closed (part_get w) →
  (∀ w2 c2, received pcb (tp_state c) (part_get w2) c2 →
     yields f w2 (λ _ w', in_state pcb (follow (tp_state c) (events (fin_acked (part_get w2) c2) (got_fin (part_get w2)))) (part_get w'))) →
  yields (do! tcp_receive pcb; f) w (λ _ w', ∃ w2, tcp_receive pcb w = Val (tt, w2) ∧ goes pcb (tp_state c) (part_get w2) (part_get w')).
Proof.
  intros Hc Ho Hf. eapply yields_then; [apply yields_val; by apply receive_state|]. intros [] w2 (E & c2 & Hc2 & Hs & S).
  assert (received pcb (tp_state c) (part_get w2) c2) as H by (split_and!; [done|by eapply open_same|done]).
  eapply yields_mono; [by apply Hf|]. intros [] w' Hw'. exists w2. split; [done|]. by exists c2.
Qed.
Lemma stay pcb s t c2 : received pcb s t c2 → s ≠ ESTABLISHED ∨ got_fin t = false → in_state pcb s t.
Proof. intros (Hc & Ho & [Hs|(-> & _ & Hf)]) [H|H]; try congruence; exists c2; by rewrite open_state. Qed.

Lemma established_goes pcb s w2 c2 : s = ESTABLISHED ∨ s = CLOSE_WAIT → received pcb s (part_get w2) c2 →
  yields (let! fin := tc fin_received in
    if fin then do! tc (tcp_ack_now pcb); tc (update_tcp pcb (λ c, c <| tp_state := CLOSE_WAIT |>)) else ret tt) w2
    (λ _ w', in_state pcb (follow s (events (fin_acked (part_get w2) c2) (got_fin (part_get w2)))) (part_get w')).
Proof.
  intros Hs Hr. apply yields_bind, yields_gets_lift. fold (got_fin (part_get w2)). destruct (got_fin (part_get w2)) eqn:Ef.
  - apply ack_then. intros w3 S. assert (follow s (events (fin_acked (part_get w2) c2) true) = CLOSE_WAIT) as ->.
    { by destruct Hs as [-> | ->], (fin_acked _ _). }
    apply update_state. eapply open_same; [apply S|apply Hr].
  - apply yields_ret. assert (follow s (events (fin_acked (part_get w2) c2) false) = s) as ->.
    { by destruct Hs as [-> | ->], (fin_acked _ _). }
    eapply stay; [done|by right].
Qed.
Lemma fin_wait_1_goes pcb w2 c2 : received pcb FIN_WAIT_1 (part_get w2) c2 →
  yields (let! fin := tc fin_received in let! acked := tc (all_acked pcb) in
    if fin then
      do! tc (tcp_ack_now pcb);
      if acked then to_time_wait pcb else tc (update_tcp pcb (λ c, c <| tp_state := CLOSING |>))
    else if acked then tc (update_tcp pcb (λ c, c <| tp_state := FIN_WAIT_2 |>)) else ret tt) w2
    (λ _ w', in_state pcb (follow FIN_WAIT_1 (events (fin_acked (part_get w2) c2) (got_fin (part_get w2)))) (part_get w')).
Proof.
  intros Hr. pose proof Hr as (Hc & Ho & _). apply yields_bind, yields_gets_lift. fold (got_fin (part_get w2)). apply (all_acked_then _ _ c2); [done|].
  destruct (got_fin (part_get w2)).
  - apply ack_then. intros w3 S. destruct (fin_acked (part_get w2) c2).
    + apply time_wait_in. eapply same_there; [exact S|by exists c2].
    + apply update_state. eapply open_same; [apply S|done].
  - destruct (fin_acked (part_get w2) c2); [by apply update_state|]. apply yields_ret. eapply stay; [done|by left].
Qed.
Lemma fin_wait_2_goes pcb w2 c2 : received pcb FIN_WAIT_2 (part_get w2) c2 →
  yields (let! fin := tc fin_received in if fin then do! tc (tcp_ack_now pcb); to_time_wait pcb else ret tt) w2
    (λ _ w', in_state pcb (follow FIN_WAIT_2 (events (fin_acked (part_get w2) c2) (got_fin (part_get w2)))) (part_get w')).
Proof.
  intros Hr. pose proof Hr as (Hc & Ho & _). apply yields_bind, yields_gets_lift. fold (got_fin (part_get w2)). destruct (got_fin (part_get w2)).
  - apply ack_then. intros w3 S. assert (follow FIN_WAIT_2 (events (fin_acked (part_get w2) c2) true) = TIME_WAIT) as -> by by destruct (fin_acked _ _).
    apply time_wait_in. eapply same_there; [exact S|by exists c2].
  - apply yields_ret. assert (follow FIN_WAIT_2 (events (fin_acked (part_get w2) c2) false) = FIN_WAIT_2) as -> by by destruct (fin_acked _ _).
    eapply stay; [done|by left].
Qed.
Lemma closing_goes pcb w2 c2 : received pcb CLOSING (part_get w2) c2 →
  yields (let! acked := tc (all_acked pcb) in if acked then to_time_wait pcb else ret tt) w2
    (λ _ w', in_state pcb (follow CLOSING (events (fin_acked (part_get w2) c2) (got_fin (part_get w2)))) (part_get w')).
Proof.
  intros Hr. pose proof Hr as (Hc & Ho & _). apply (all_acked_then _ _ c2); [done|]. destruct (fin_acked (part_get w2) c2).
  - assert (follow CLOSING (events true (got_fin (part_get w2))) = TIME_WAIT) as -> by by destruct (got_fin _). apply time_wait_in. by exists c2.
  - apply yields_ret. assert (follow CLOSING (events false (got_fin (part_get w2))) = CLOSING) as -> by by destruct (got_fin _).
    eapply stay; [done|by left].
Qed.
Lemma last_ack_goes pcb w2 c2 : received pcb LAST_ACK (part_get w2) c2 →
  yields (let! acked := tc (all_acked pcb) in if acked then tc (set_recv_flag TF_CLOSED) else ret tt) w2
    (λ _ w', in_state pcb (follow LAST_ACK (events (fin_acked (part_get w2) c2) (got_fin (part_get w2)))) (part_get w')).
Proof.
  intros Hr. pose proof Hr as (Hc & Ho & [Hs|(? & _)]); [|done]. apply (all_acked_then _ _ c2); [done|]. destruct (fin_acked (part_get w2) c2).
  - assert (follow LAST_ACK (events true (got_fin (part_get w2))) = CLOSED) as -> by by destruct (got_fin _).
    apply (yields_part _ _ (λ _ t', in_state pcb CLOSED t')), yields_modify. exists c2. split; [done|]. unfold rfc_state. rewrite bool_decide_true by done.
    assert (has_bits (recv_flags (flags_set (part_get w2) TF_CLOSED)) TF_CLOSED = true) as E by (apply has_closed, closed_set; by right).
    unfold flags_set in E. simpl in E. simpl. by rewrite E.
  - apply yields_ret. assert (follow LAST_ACK (events false (got_fin (part_get w2))) = LAST_ACK) as -> by by destruct (got_fin _).
    eapply stay; [done|by left].
Qed.

(** The last step of a case gives no error. *)
Lemma ok_tail {A} (r : M W unit) (g : M W A) (k : A → M W unit) w (Q : W → Prop) :
  yields (do! r; let! a := g in k a) w (λ _ w', Q w') →
  yields (do! r; let! a := g in do! k a; ret ERR_OK) w (λ err w', err = ERR_OK ∧ Q w').
Proof.
  unfold yields, mbnd. destruct (r w) as [[[] w1]|]; [|done]. destruct (g w1) as [[a w2]|]; [|done]. by destruct (k a w2) as [[[] w3]|].
Qed.
Lemma ok_tail2 {A B} (r : M W unit) (g : M W A) (h : M W B) (k : A → B → M W unit) w (Q : W → Prop) :
  yields (do! r; let! a := g in let! b := h in k a b) w (λ _ w', Q w') →
  yields (do! r; let! a := g in let! b := h in do! k a b; ret ERR_OK) w (λ err w', err = ERR_OK ∧ Q w').
Proof.
  unfold yields, mbnd. destruct (r w) as [[[] w1]|]; [|done]. destruct (g w1) as [[a w2]|]; [|done].
  destruct (h w2) as [[b w3]|]; [|done]. by destruct (k a b w3) as [[[] w4]|].
Qed.

Lemma process_state_goes pcb c w : tcp_mem (part_get w) !! pcb = Some (Conn_pcb c) → synchronized (tp_state c) = true → ¬ input_closed (part_get w) →
  yields (process_state pcb) w (λ err w', err = ERR_OK ∧ ∃ w2, tcp_receive pcb w = Val (tt, w2) ∧ goes pcb (tp_state c) (part_get w2) (part_get w')).
Proof.
  intros Hc Hs Ho. apply yields_bind, yields_ask_lift. intros c0 Hc0%get_tcp_val. simplify_eq.
  destruct (tp_state c) eqn:Es; try done; clear Hs; rewrite <- Es; (apply ok_tail2 || apply ok_tail); (apply after_receive; [done..|]); rewrite Es; intros w2 c2 H.
  - apply established_goes; [by left|done].
  - by apply fin_wait_1_goes.
  - by apply fin_wait_2_goes.
  - apply established_goes; [by right|done].
  - by apply closing_goes.
  - by apply last_ack_goes.
Qed.

(** C5: the state machine of a synchronized connection.  A segment without RST
    and SYN moves a connection that is established or closing (ESTABLISHED,
    CLOSE-WAIT, FIN-WAIT-1, FIN-WAIT-2, CLOSING or LAST-ACK) along the arrows of
    RFC 793 and along no other: [tcp_process] hands the segment to [tcp_receive]
    and then the state is the one reached from the old state by following the
    arrow of the acknowledgment of our FIN, if all that was sent is acknowledged
    and nothing waits to be sent, and after it the arrow of the peer's FIN, if
    the segment brought it in order.  The events that have no arrow in a state
    leave it alone, and no error is returned. *)
Theorem tcp_process_states pcb c w :
  tcp_mem (part_get w) !! pcb = Some (Conn_pcb c) → synchronized (tp_state c) = true → ¬ input_closed (part_get w) →
  has_bits (in_flags (t_in (part_get w))) TCP_RST = false → has_bits (in_flags (t_in (part_get w))) TCP_SYN = false →
  yields (tcp_process pcb) w (λ err w', err = ERR_OK ∧
    ∃ w1 w2, same_tcp (part_get w) (part_get w1) ∧ tcp_receive pcb w1 = Val (tt, w2) ∧ goes pcb (tp_state c) (part_get w2) (part_get w')).
Proof.
  intros Hc Hs Ho Hr Hy. apply yields_bind, yields_gets_lift. cbv beta. unfold id. rewrite Hr.
  apply yields_bind, yields_ask_lift. intros c0 Hc0%get_tcp_val. simplify_eq. rewrite Hy. cbn [andb].
  apply yields_bind, yields_gets_lift. eapply (stable_then same_w); [stable_tac; repeat case_match; done|]. intros [] w0 S0.
  eapply (stable_then same_w); [stable_tac|]. intros [] w1 S1. assert (same_tcp (part_get w) (part_get w1)) as S by (by etrans).
  destruct (same_conn _ _ _ _ S Hc) as (c1 & Hc1 & E). assert (tp_state c1 = tp_state c) as Es by (unfold conn_sig in E; congruence).
  eapply yields_mono; [apply (process_state_goes _ c1); [done|by rewrite Es|eapply open_same; [apply S|done]]|].
  intros err w' (-> & w2 & E2 & G). split; [done|]. exists w1, w2. by rewrite <- Es.
Qed.

(** ** Resets *)

(** C6: which resets are believed (RFC 5961, 3.2).  On a connection past
    SYN-SENT a RST resets the connection only when its sequence number is exactly
    the next one expected: then [tcp_process] returns [ERR_RST] with [TF_RESET]
    raised, for [tcp_input] to free the block and tell its user.  Every other RST
    changes nothing but the flag [TF_ACK_NOW], which is set when the sequence
    number is within the receive window, so that the peer is challenged; a blind
    RST anywhere else in the sequence space leaves the whole state as it was. *)
Theorem tcp_rst_exact pcb c w : tcp_mem (part_get w) !! pcb = Some (Conn_pcb c) →
  has_bits (in_flags (t_in (part_get w))) TCP_RST = true → tp_state c ≠ SYN_SENT → tp_state c ≠ CLOSED →
  let v := t_in (part_get w) in
  if in_seqno v =? tp_rcv_nxt c then
    ∃ t', tcp_process pcb w = Val (ERR_RST, part_set t' w) ∧ input_reset t' ∧
      ∃ c', tcp_mem t' !! pcb = Some (Conn_pcb c') ∧ tp_state c' = tp_state c
  else
    tcp_process pcb w = Val (ERR_OK,
      if TCP_SEQ_BETWEEN (in_seqno v) (tp_rcv_nxt c) (u32 (tp_rcv_nxt c + tp_rcv_wnd c))
      then part_set (put_blk pcb (Conn_pcb (c <| tp_flags := u16 (Z.lor (tp_flags c) TF_ACK_NOW) |>)) (part_get w)) w
      else w).
Proof.
  intros Hc Hr Hs Hcl v. set (t := part_get w) in *. assert (get_tcp t pcb = Val c) as Hg by (unfold get_tcp; by rewrite Hc).
  assert (tcp_process pcb w = lift (process_rst pcb) w) as ->.
  { unfold tcp_process, mbnd at 1, in_var, lift at 1, gets. simpl. rewrite part_set_get. fold t. unfold id. by rewrite Hr. }
  unfold lift. fold t. unfold process_rst, mbnd, in_var, gets, ask, id. rewrite Hg. cbn [rbind]. cbv beta iota zeta. fold v.
  rewrite bool_decide_false by done.
  destruct (in_seqno v =? tp_rcv_nxt c).
  - rewrite bool_decide_true by done. unfold set_recv_flag, modify, tcp_clear_flags, update_tcp, get_tcp. simpl. rewrite Hc. simpl.
    eexists. split; [done|]. split; [|eexists; split; [apply lookup_insert_eq|done]].
    change (input_reset (flags_set t TF_RESET)). apply reset_set. by right.
  - rewrite bool_decide_true by done. cbn [andb]. destruct (TCP_SEQ_BETWEEN _ _ _).
    + unfold tcp_ack_now, tcp_set_flags, update_tcp. by rewrite Hg.
    + simpl. unfold t. by rewrite part_set_get.
Qed.
End states.

(** ** Two segments *)

#[local] Existing Instance ex_tcp_driver.
#[local] Existing Instance silent_client.
#[local] Existing Instance tcp_timer_client.
#[local] Existing Instance ex_tcp_driver_keeps.

(** A connection that has sent its FIN, the last of 500 sequence numbers. *)
Definition ex_closing_pcb (s : tcp_state) : tcp_pcb :=
  (fresh_pcb 64 0 0) <| tp_local_ip := 16777482 |> <| tp_remote_ip := 33554698 |> <| tp_local_port := 50000 |>
    <| tp_remote_port := 443 |> <| tp_snd_nxt := 500 |> <| tp_lastack := 499 |> <| tp_rcv_nxt := 100 |> <| tp_state := s |>.
Definition ex_segment_in (flags seqno tcplen : Z) (s : tcp_state) : tcp_world :=
  mk_tcp_world
    (mk_tstate (mk_ipstate (mk_store {[1%positive := mk_pbuf None (Some (mk_ptr 1 84)) 0 0 128 0 1 0]}
          {[1%positive := replicate 64 0 ++ [1; 187; 195; 80; 0; 0; 0; 100; 0; 0; 1; 244; 80; flags; 32; 0; 0; 0; 0; 0]]} 4 [] ∅ sys_mbox_new false)
        (mk_netif 16777482 0 0 1500 5 0) true no_packet 7)
      {[2%positive := Conn_pcb (ex_closing_pcb s)]} ∅ [] [] [2%positive] [] false 0 0 0 0 6510 (Some 2%positive) 0
      (no_segment <| inseg := mk_tcp_seg (Some 1%positive) 0 0 (Some (mk_ptr 1 64)) |> <| tcphdr := Some (mk_ptr 1 64) |>
         <| in_seqno := seqno |> <| in_ackno := 500 |> <| in_tcplen := tcplen |> <| in_flags := flags |>))
    (mk_timeouts [] 0 false 1000 []).
Definition end_state (w : tcp_world) : option tcp_state :=
  match tcp_mem (tw_tcp w) !! 2%positive with Some (Conn_pcb c) => Some (rfc_state (tw_tcp w) c) | _ => None end.
Definition after_segment (w : tcp_world) : option (err_t * option tcp_state) :=
  match tcp_process 2%positive w with Val (e, w') => Some (e, end_state w') | Err _ => None end.

(** The segment with the peer's FIN and the acknowledgment of ours. *)
Example ex_fin_acked : map (λ s, after_segment (ex_segment_in 17 100 1 s)) [ESTABLISHED; FIN_WAIT_1; FIN_WAIT_2; CLOSING; LAST_ACK; CLOSE_WAIT] =
  map (λ s, Some (ERR_OK, Some s)) [CLOSE_WAIT; TIME_WAIT; TIME_WAIT; TIME_WAIT; CLOSED; CLOSE_WAIT].
Proof. vm_compute. reflexivity. Qed.
(** The acknowledgment alone. *)
Example ex_only_acked : map (λ s, after_segment (ex_segment_in 16 100 0 s)) [ESTABLISHED; FIN_WAIT_1; FIN_WAIT_2; CLOSING; LAST_ACK; CLOSE_WAIT] =
  map (λ s, Some (ERR_OK, Some s)) [ESTABLISHED; FIN_WAIT_2; FIN_WAIT_2; TIME_WAIT; CLOSED; CLOSE_WAIT].
Proof. vm_compute. reflexivity. Qed.

Lemma ex_closing_there flags seqno tcplen s :
  tcp_mem (part_get (P := tstate) (ex_segment_in flags seqno tcplen s)) !! 2%positive = Some (Conn_pcb (ex_closing_pcb s)).
Proof. reflexivity. Qed.
Lemma ex_not_closed flags seqno tcplen s : ¬ input_closed (part_get (P := tstate) (ex_segment_in flags seqno tcplen s)).
Proof. done. Qed.

Lemma tcp_process_states_witness :
  yields (tcp_process 2%positive) (ex_segment_in 17 100 1 FIN_WAIT_1) (λ err w', err = ERR_OK ∧
    ∃ w1 w2, same_tcp (part_get (ex_segment_in 17 100 1 FIN_WAIT_1)) (part_get w1) ∧ tcp_receive 2%positive w1 = Val (tt, w2) ∧
      goes 2%positive FIN_WAIT_1 (part_get w2) (part_get w')) ∧
  after_segment (ex_segment_in 17 100 1 FIN_WAIT_1) = Some (ERR_OK, Some TIME_WAIT).
Proof.
  split; [|vm_compute; reflexivity].
  exact (tcp_process_states 2%positive _ _ (ex_closing_there 17 100 1 FIN_WAIT_1) eq_refl (ex_not_closed 17 100 1 FIN_WAIT_1) eq_refl eq_refl).
Defined.

(** A RST at the next sequence number, one further in the window, one outside it. *)
Lemma tcp_rst_exact_witness :
  (∃ t', tcp_process 2%positive (ex_segment_in 4 100 0 ESTABLISHED) = Val (ERR_RST, part_set t' (ex_segment_in 4 100 0 ESTABLISHED)) ∧
    input_reset t' ∧ ∃ c', tcp_mem t' !! 2%positive = Some (Conn_pcb c') ∧ tp_state c' = ESTABLISHED) ∧
  tcp_process 2%positive (ex_segment_in 4 99 0 ESTABLISHED) = Val (ERR_OK, ex_segment_in 4 99 0 ESTABLISHED) ∧
  tcp_process 2%positive (ex_segment_in 4 200 0 ESTABLISHED) = Val (ERR_OK,
    part_set (put_blk 2%positive (Conn_pcb ((ex_closing_pcb ESTABLISHED) <| tp_flags := 2 |>)) (part_get (ex_segment_in 4 200 0 ESTABLISHED)))
      (ex_segment_in 4 200 0 ESTABLISHED)).
Proof.
  split; [|split].
  - exact (tcp_rst_exact 2%positive _ _ (ex_closing_there 4 100 0 ESTABLISHED) eq_refl ltac:(done) ltac:(done)).
  - exact (tcp_rst_exact 2%positive _ _ (ex_closing_there 4 99 0 ESTABLISHED) eq_refl ltac:(done) ltac:(done)).
  - exact (tcp_rst_exact 2%positive _ _ (ex_closing_there 4 200 0 ESTABLISHED) eq_refl ltac:(done) ltac:(done)).
Defined.
