(* ===== verification/TcpRtt.v ===== *)
(** * TCP: the estimate of the round trip

    Van Jacobson's estimate in 16-bit integers: while no measurement is longer
    than [m_max] ticks, the smoothed time and its variation stay within bounds that
    the arithmetic never leaves, and so does the timeout, backed off or not. *)

From S2P Require Import Prelude Mbox Heap Pbuf Def Chksum Addr Timeouts Header Ip4 Tcp TcpOut TcpSend TcpIn TcpTmr.

Implicit Types t : tstate.

Lemma s16_small z : - 2 ^ 15 ≤ z < 2 ^ 15 → s16 z = z.
Proof.
  intros Hz. unfold s16, signed. change (2 ^ 16) with 65536. change (2 ^ (16 - 1)) with 32768.
  destruct (Z.ltb_spec (z mod 65536) 32768); Z.div_mod_to_equations; lia.
Qed.

(** What the estimates are bounded by: [sa] is eight times the average, [sv] four
    times the deviation. *)
Definition rtt_bounded (m_max : Z) (c : tcp_pcb) : Prop := 0 ≤ tp_sa c ≤ 8 * m_max + 7 ∧ 0 ≤ tp_sv c ≤ 4 * m_max + 3.

Lemma fresh_rtt_bounded prio ticks timer m_max : 1 ≤ m_max → rtt_bounded m_max (fresh_pcb prio ticks timer).
Proof. intros Hm. unfold rtt_bounded. change (tp_sa (fresh_pcb prio ticks timer)) with 0. change (tp_sv (fresh_pcb prio ticks timer)) with 6. lia. Qed.

(** The estimates after a measurement of [m] ticks, in unbounded integers. *)
Definition smoothed (m : Z) (c : tcp_pcb) : tcp_pcb :=
  let sa := tp_sa c - tp_sa c / 8 + m in
  let sv := tp_sv c - tp_sv c / 4 + Z.abs (m - tp_sa c / 8) in
  c <| tp_sa := sa |> <| tp_sv := sv |> <| tp_rto := sa / 8 + sv |> <| tp_rttest := 0 |>.

Lemma smoothed_bounded m_max m c : rtt_bounded m_max c → 0 ≤ m ≤ m_max →
  rtt_bounded m_max (smoothed m c) ∧ 0 ≤ tp_rto (smoothed m c) ≤ 5 * m_max + 3.
Proof. unfold rtt_bounded, smoothed. simpl. intros [Ha Hv] Hm. Z.div_mod_to_equations. lia. Qed.

Lemma estimate_smoothed m_max ticks c : m_max ≤ 4095 → rtt_bounded m_max c → u32 (ticks - tp_rttest c) ≤ m_max →
  estimate_rtt ticks c = smoothed (u32 (ticks - tp_rttest c)) c.
Proof.
  intros Hm Hb Hu. pose proof (u32_range (ticks - tp_rttest c)) as Hr. set (m := u32 (ticks - tp_rttest c)) in *.
  destruct (smoothed_bounded m_max m c Hb ltac:(unfold is_u32 in Hr; lia)) as [[Ba Bv] Bt]. destruct Hb as [Ha Hv].
  assert (0 ≤ m) as H0 by (unfold is_u32 in Hr; lia). clear Hr. unfold estimate_rtt. fold m. rewrite !Z.shiftr_div_pow2 by done.
  change (2 ^ 3) with 8. change (2 ^ 2) with 4. unfold smoothed in *. simpl in *.
  assert (0 ≤ tp_sa c / 8 ≤ m_max) as Hd by (Z.div_mod_to_equations; lia).
  assert (0 ≤ tp_sv c / 4 ≤ m_max) as Hd4 by (Z.div_mod_to_equations; lia).
  rewrite (s16_small m) by lia. rewrite (s16_small (m - tp_sa c / 8)) by lia.
  replace (if m - tp_sa c / 8 <? 0 then s16 (- (m - tp_sa c / 8)) else m - tp_sa c / 8) with (Z.abs (m - tp_sa c / 8))
    by (destruct (Z.ltb_spec (m - tp_sa c / 8) 0); [rewrite s16_small by lia|]; lia).
  rewrite (s16_small (tp_sa c + (m - tp_sa c / 8))) by lia. rewrite (s16_small (Z.abs _ - _)) by lia.
  rewrite (s16_small (tp_sv c + _)) by lia.
  replace (tp_sa c + (m - tp_sa c / 8)) with (tp_sa c - tp_sa c / 8 + m) by lia.
  replace (tp_sv c + (Z.abs (m - tp_sa c / 8) - tp_sv c / 4)) with (tp_sv c - tp_sv c / 4 + Z.abs (m - tp_sa c / 8)) by lia.
  by rewrite s16_small by lia.
Qed.

(** Whether the segment that is received ends a measurement. *)
Definition measured (t : tstate) (c : tcp_pcb) : bool := negb (tp_rttest c =? 0) && TCP_SEQ_LT (tp_rtseq c) (in_ackno (t_in t)).
Definition after_rtt (t : tstate) (c : tcp_pcb) : tcp_pcb :=
  if measured t c then smoothed (u32 (tcp_ticks t - tp_rttest c)) c else c.

(** The timeout that the slow timer sets is in bounds after any number of retransmissions. *)
Lemma backoff_bounded m_max c t : m_max ≤ 4095 → rtt_bounded m_max c → 0 ≤ tp_nrtx c →
  runs (backed_off_rto c) t (λ rto t', t' = t ∧ 0 ≤ rto ≤ 32767 ∧ (tp_nrtx c = 0 → 2 * (tp_sa c / 8 + tp_sv c) ≤ 32767 → rto = 2 * (tp_sa c / 8 + tp_sv c))).
Proof.
  intros Hm [Ha Hv] Hn. apply runs_bind.
  assert (∃ b, tcp_backoff !! Z.to_nat (Z.min (tp_nrtx c) 12) = Some b ∧ 1 ≤ b ≤ 7 ∧ (tp_nrtx c = 0 → b = 1)) as (b & Hb & Hr & H0).
  { assert (Z.to_nat (Z.min (tp_nrtx c) 12) ≤ 12)%nat as Hk by lia. assert (tp_nrtx c = 0 → Z.to_nat (Z.min (tp_nrtx c) 12) = 0%nat) as Hz by lia.
    revert Hk Hz. generalize (Z.to_nat (Z.min (tp_nrtx c) 12)). intros k Hk Hz.
    do 13 (destruct k as [|k]; [eexists; split; [reflexivity|]; split; [lia|intros E; specialize (Hz E); done]|]). lia. }
  eapply runs_ask; [rewrite Hb; reflexivity|]. apply runs_ret. split; [done|].
  rewrite Z.shiftl_mul_pow2, Z.shiftr_div_pow2 by lia. change (2 ^ 3) with 8.
  assert (0 ≤ tp_sa c / 8) as Hd by (Z.div_mod_to_equations; lia).
  assert (0 < 2 ^ b) as Hp by (apply Z.pow_pos_nonneg; lia).
  assert (0 ≤ (tp_sa c / 8 + tp_sv c) * 2 ^ b) as Hx by nia.
  rewrite s16_small by lia. split; [lia|]. intros E Hs. rewrite (H0 E). change (2 ^ 1) with 2. lia.
Qed.

(** C39: the round-trip estimate of [tcp_receive] is the one of unbounded integers,
    no intermediate value leaves 16 bits, as long as no measurement is longer than
    [m_max] ticks (4095 ticks are 34 minutes): the estimates stay within bounds, so
    does the timeout, and the timeout that [tcp_slowtmr] backs off from them. *)
Theorem rtt_estimate_bounds m_max t pcb c :
  1 ≤ m_max ≤ 4095 → tcp_mem t !! pcb = Some (Conn_pcb c) → rtt_bounded m_max c → 0 ≤ tp_nrtx c →
  (measured t c = true → u32 (tcp_ticks t - tp_rttest c) ≤ m_max) →
  rcv_rtt pcb t = Val (tt, put_blk pcb (Conn_pcb (after_rtt t c)) t) ∧
  rtt_bounded m_max (after_rtt t c) ∧
  (measured t c = true → 0 ≤ tp_rto (after_rtt t c) ≤ 5 * m_max + 3) ∧
  ∃ rto, backed_off_rto (after_rtt t c) t = Val (rto, t) ∧ 0 ≤ rto ≤ 32767.
Proof.
  intros Hm Hc Hb Hn Hu. pose proof (u32_range (tcp_ticks t - tp_rttest c)) as Hr. unfold is_u32 in Hr.
  assert (rtt_bounded m_max (after_rtt t c) ∧ (measured t c = true → 0 ≤ tp_rto (after_rtt t c) ≤ 5 * m_max + 3)) as [Hb' Hto].
  { unfold after_rtt. destruct (measured t c); [|done]. specialize (Hu eq_refl). destruct (smoothed_bounded m_max (u32 (tcp_ticks t - tp_rttest c)) c Hb) as [? ?]; [lia|]. done. }
  split; [|split; [done|split; [done|]]].
  - unfold rcv_rtt, mbnd, in_var, gets, update_tcp, get_tcp. simpl. rewrite Hc. simpl. fold (measured t c).
    unfold after_rtt. destruct (measured t c) eqn:E; [|done]. rewrite (estimate_smoothed m_max); [done|lia|done|auto].
  - destruct (runs_inv _ _ _ (backoff_bounded m_max (after_rtt t c) t ltac:(lia) Hb'
      ltac:(unfold after_rtt; by destruct (measured t c)))) as (rto & t' & E & -> & Hrto & _). by exists rto.
Qed.

(** A first measurement of three ticks. *)
Definition ex_rtt_pcb : tcp_pcb := (fresh_pcb 64 7 0) <| tp_rttest := 7 |> <| tp_rtseq := 6510 |>.
Definition ex_rtt : tstate :=
  mk_tstate (mk_ipstate (mk_store ∅ ∅ 3 [] ∅ sys_mbox_new false) (mk_netif 0 0 0 1500 5 0) true no_packet 7)
    {[2%positive := Conn_pcb ex_rtt_pcb]} ∅ [] [] [2%positive] [] false 0 10 0 0 6510 None 0 (no_segment <| in_ackno := 6511 |>).
Lemma rtt_estimate_bounds_witness :
  rcv_rtt 2 ex_rtt = Val (tt, put_blk 2 (Conn_pcb (after_rtt ex_rtt ex_rtt_pcb)) ex_rtt) ∧
  (tp_sa (after_rtt ex_rtt ex_rtt_pcb), tp_sv (after_rtt ex_rtt ex_rtt_pcb), tp_rto (after_rtt ex_rtt ex_rtt_pcb)) = (3, 8, 8).
Proof.
  assert (tcp_mem ex_rtt !! 2%positive = Some (Conn_pcb ex_rtt_pcb)) as Hc by reflexivity.
  assert (rtt_bounded 100 ex_rtt_pcb) as Hb by (by apply (fresh_rtt_bounded 64 7 0 100)).
  assert (measured ex_rtt ex_rtt_pcb = true → u32 (tcp_ticks ex_rtt - tp_rttest ex_rtt_pcb) ≤ 100) as Hu by (intros _; vm_compute; done).
  split; [|vm_compute; reflexivity].
  by apply (rtt_estimate_bounds 100 ex_rtt 2 ex_rtt_pcb ltac:(lia) Hc Hb ltac:(vm_compute; done) Hu).
Defined.
