(* ===== verification/Netconn.v ===== *)
(** * Netconns: the half that runs in the stack ([api/api_msg.c])

    A netconn is the object through which a thread of the application uses a TCP
    block: a mailbox of received packets or of accepted connections, a state, and
    the message of the call in progress.  Every function here runs under the core
    lock.  A call that cannot finish leaves its message in the netconn; a callback
    of TCP finishes it later and signals the semaphore of the calling thread.  The
    program only makes netconns of type NETCONN_TCP and without a callback. *)

From S2P Require Import Prelude Mbox Heap Pbuf Def Chksum Addr Timeouts Header Ip4 Tcp TcpOut TcpSend.

(** ** Data *)

Definition NETCONN_COPY : Z := 1.
Definition NETCONN_DONTBLOCK : Z := 4.
Definition NETCONN_NOAUTORCVD : Z := 8.
Definition NETCONN_NOFIN : Z := 16.
Definition NETCONN_FLAG_MBOXCLOSED : Z := 1.
Definition NETCONN_FLAG_NON_BLOCKING : Z := 2.
Definition NETCONN_FLAG_IN_NONBLOCKING_CONNECT : Z := 4.
Definition NETCONN_FLAG_MBOXINVALID : Z := 8.
Definition NETCONN_FLAG_CHECK_WRITESPACE : Z := 16.
Definition NETCONN_FIN_RX_PENDING : Z := 128.
Definition NETCONN_SHUT_RD : Z := 1.
Definition NETCONN_SHUT_WR : Z := 2.
Definition NETCONN_SHUT_RDWR : Z := Z.lor NETCONN_SHUT_RD NETCONN_SHUT_WR.
Definition NETCONN_TCP_POLL_INTERVAL : Z := 2.
Definition TCP_SNDLOWAT : Z := 0.
Definition TCP_SNDQUEUELOWAT : Z := 0.
Definition IPADDR_TYPE_V4 : Z := 0.
Definition SIZEOF_SYS_MBOX : Z := 1064.
Definition SIZEOF_SYS_SEM : Z := 112.

(** [enum netconn_state] *)
Inductive netconn_state := NETCONN_NONE | NETCONN_WRITE | NETCONN_LISTEN | NETCONN_CONNECT | NETCONN_CLOSE.
#[export] Instance netconn_state_eq_dec : EqDecision netconn_state.
Proof. solve_decision. Defined.

(** What a mailbox carries: the address of a packet or of a netconn, a null pointer,
    or the address of one of the markers [netconn_aborted], [netconn_reset],
    [netconn_closed] and [netconn_deleted]. *)
Inductive mbox_msg := Msg_ptr (l : loc) | Msg_null | Msg_aborted | Msg_reset | Msg_closed | Msg_deleted.

(** [struct netvector] *)
Record netvector := mk_netvector { nv_ptr : option ptr; nv_len : Z }.

(** [struct api_msg], of the members of its union those of a write and of a close. *)
Record api_msg := mk_api_msg {
  am_conn : option loc; am_err : err_t;
  w_vectors : list netvector; w_vector_off : Z; w_len : Z; w_offset : Z; w_apiflags : Z;
  sd_shut : Z; sd_polls_left : Z
}.
#[export] Instance eta_api_msg : Eta api_msg := λ r,
  mk_api_msg (am_conn r) (am_err r) (w_vectors r) (w_vector_off r) (w_len r) (w_offset r) (w_apiflags r) (sd_shut r) (sd_polls_left r).

(** A thread of the application.  A message is on the stack of the thread whose call
    it is, and [op_completed_sem] is that thread's semaphore: both go by the thread. *)
Definition thread_id := Z.

(** [struct netconn]; a mailbox that is not valid is [None]. *)
Record netconn := mk_netconn {
  nc_state : netconn_state; nc_pcb : option loc; nc_pending_err : err_t;
  nc_recvmbox : option loc; nc_acceptmbox : option loc;
  nc_mbox_threads_waiting : Z; nc_flags : Z; nc_current_msg : option thread_id
}.
#[export] Instance eta_netconn : Eta netconn := λ r,
  mk_netconn (nc_state r) (nc_pcb r) (nc_pending_err r) (nc_recvmbox r) (nc_acceptmbox r)
    (nc_mbox_threads_waiting r) (nc_flags r) (nc_current_msg r).

(** [struct netbuf] *)
Record netbuf := mk_netbuf { nb_p : option loc; nb_ptr : option loc; nb_addr : Z; nb_port : Z }.
#[export] Instance eta_netbuf : Eta netbuf := λ r, mk_netbuf (nb_p r) (nb_ptr r) (nb_addr r) (nb_port r).

(** A mailbox and the blocks of its three semaphores. *)
Record mbox_blk := mk_mbox_blk { mb_ring : sys_mbox mbox_msg; mb_sems : list loc }.

(** The objects of the netconn API.  [n_stack_err] is what the [err] of a message
    happens to be before anything is stored there. *)
Record nstate := mk_nstate {
  netconns : gmap loc netconn;
  n_mboxes : gmap loc mbox_blk;
  api_msgs : gmap thread_id api_msg;
  thread_sems : gmap thread_id Z;
  netbufs : gmap loc netbuf;
  n_stack_err : err_t
}.
#[export] Instance eta_nstate : Eta nstate := λ r,
  mk_nstate (netconns r) (n_mboxes r) (api_msgs r) (thread_sems r) (netbufs r) (n_stack_err r).

Implicit Types n : nstate.

Definition get_netconn n (l : loc) : res netconn := deref (netconns n !! l).
Definition put_netconn (l : loc) (c : netconn) n : nstate := n <| netconns := <[l := c]> (netconns n) |>.
Definition update_netconn (l : loc) (f : netconn → netconn) : M nstate unit := λ n,
  let* c := get_netconn n l in Val (tt, put_netconn l (f c) n).
Definition get_msg n (th : thread_id) : res api_msg := deref (api_msgs n !! th).
Definition put_msg (th : thread_id) (m : api_msg) n : nstate := n <| api_msgs := <[th := m]> (api_msgs n) |>.
Definition update_msg (th : thread_id) (f : api_msg → api_msg) : M nstate unit := λ n,
  let* m := get_msg n th in Val (tt, put_msg th (f m) n).

Definition netconn_set_flags (conn : loc) (flags : Z) : M nstate unit :=
  update_netconn conn (λ c, c <| nc_flags := u8 (Z.lor (nc_flags c) flags) |>).
Definition netconn_clear_flags (conn : loc) (flags : Z) : M nstate unit :=
  update_netconn conn (λ c, c <| nc_flags := u8 (Z.land (nc_flags c) (Z.land (Z.lnot flags) 255)) |>).
Definition netconn_is_flag_set (c : netconn) (flag : Z) : bool := negb (Z.land (nc_flags c) flag =? 0).
Definition netconn_is_nonblocking (c : netconn) : bool := netconn_is_flag_set c NETCONN_FLAG_NON_BLOCKING.
Definition IN_NONBLOCKING_CONNECT (c : netconn) : bool := netconn_is_flag_set c NETCONN_FLAG_IN_NONBLOCKING_CONNECT.
Definition SET_NONBLOCKING_CONNECT (conn : loc) (val : bool) : M nstate unit :=
  if val then netconn_set_flags conn NETCONN_FLAG_IN_NONBLOCKING_CONNECT
  else netconn_clear_flags conn NETCONN_FLAG_IN_NONBLOCKING_CONNECT.
(** [NETCONN_MBOX_VALID] *)
Definition NETCONN_MBOX_VALID (c : netconn) (mbox : option loc) : bool :=
  bool_decide (mbox ≠ None) && negb (netconn_is_flag_set c NETCONN_FLAG_MBOXINVALID).

(** ** Mailboxes and semaphores *)

Definition sem_of n (th : thread_id) : Z := default 0 (thread_sems n !! th).
(** [sys_sem_signal(LWIP_API_MSG_SEM(msg))] *)
Definition signal_thread (th : thread_id) : M nstate unit := modify (λ n,
  n <| thread_sems := <[th := sys_sem_signal (sem_of n th)]> (thread_sems n) |>).

(** [sys_mbox_trypost(&mbox, msg)] *)
Definition mbox_trypost (mbox : option loc) (msg : mbox_msg) : M nstate err_t :=
  do! lwip_assert (bool_decide (mbox ≠ None));
  let! l := valid_ptr mbox in
  let! b := ask (λ n, deref (n_mboxes n !! l)) in
  let! '(err, r) := ask (λ _, Seq.sys_mbox_trypost msg (mb_ring b)) in
  do! modify (λ n, n <| n_mboxes := <[l := mk_mbox_blk r (mb_sems b)]> (n_mboxes n) |>);
  ret err.
(** [sys_arch_mbox_tryfetch(&mbox, &msg)]; [None]: SYS_MBOX_EMPTY.  Fetching a
    message that was never stored is reading uninitialised memory. *)
Definition mbox_tryfetch (mbox : option loc) : M nstate (option mbox_msg) :=
  let! l := valid_ptr mbox in
  let! b := ask (λ n, deref (n_mboxes n !! l)) in
  let! '(slot, r) := ask (λ _, Seq.sys_arch_mbox_tryfetch (mb_ring b)) in
  do! modify (λ n, n <| n_mboxes := <[l := mk_mbox_blk r (mb_sems b)]> (n_mboxes n) |>);
  match slot with
  | None => ret None
  | Some (Some msg) => ret (Some msg)
  | Some None => fail Undefined
  end.

(** Errors as messages. *)
Definition lwip_netconn_err_to_msg (err : err_t) : M nstate mbox_msg :=
  match err with
  | ERR_ABRT => ret Msg_aborted
  | ERR_RST => ret Msg_reset
  | ERR_CLSD => ret Msg_closed
  | _ => do! lwip_assert (is_ok err); ret Msg_null
  end.
Definition lwip_netconn_is_err_msg (msg : mbox_msg) : option err_t :=
  match msg with Msg_aborted => Some ERR_ABRT | Msg_reset => Some ERR_RST | Msg_closed => Some ERR_CLSD | _ => None end.
Definition lwip_netconn_is_deallocated_msg (msg : mbox_msg) : bool := match msg with Msg_deleted => true | _ => false end.

Section netconn.
Context {W : Type} `{!Part tstate W} `{!netif_driver W} `{!Part timeouts W} `{!timer_client W} `{!Part nstate W}.

Abbreviation tc m := (lift (P := tstate) (S := W) m).
Abbreviation nc m := (lift (P := nstate) (S := W) m).
Abbreviation st m := (lift (P := tstate) (S := W) (lift (P := ipstate) (lift (P := store) m))).

Definition the_netconn (conn : loc) : M W netconn := nc (ask (λ n, get_netconn n conn)).
(** [conn->current_msg], which has to be there. *)
Definition current_msg (conn : loc) : M W (thread_id * api_msg) :=
  let! c := the_netconn conn in
  do! lwip_assert (bool_decide (nc_current_msg c ≠ None));
  let! th := valid_ptr (nc_current_msg c) in
  let! m := nc (ask (λ n, get_msg n th)) in
  ret (th, m).

(** [sys_mbox_new(&mbox, size)]; a semaphore that is missing is used at once. *)
Definition mbox_new : M W (option loc) :=
  let! l := st (malloc SIZEOF_SYS_MBOX) in
  match l with
  | None => ret None
  | Some l =>
    let! a := st (malloc SIZEOF_SYS_SEM) in
    let! b := st (malloc SIZEOF_SYS_SEM) in
    let! c := st (malloc SIZEOF_SYS_SEM) in
    let! a := valid_ptr a in
    let! b := valid_ptr b in
    let! c := valid_ptr c in
    do! nc (modify (λ n, n <| n_mboxes := <[l := mk_mbox_blk sys_mbox_new [a; b; c]]> (n_mboxes n) |>));
    ret (Some l)
  end.
Fixpoint free_all (l : list loc) : M W unit :=
  match l with [] => ret tt | a :: l => do! st (free a); free_all l end.
(** [sys_mbox_free(&mbox)] *)
Definition mbox_free (mbox : option loc) : M W unit :=
  match mbox with
  | None => ret tt
  | Some l =>
    let! b := nc (ask (λ n, deref (n_mboxes n !! l))) in
    do! free_all (mb_sems b);
    do! nc (modify (λ n, n <| n_mboxes := delete l (n_mboxes n) |>));
    st (free l)
  end.

(** ** Callbacks of TCP *)

(** The thread that waits for the message is told. *)
Definition complete (conn : loc) (th : thread_id) (err : err_t) : M nstate unit :=
  do! update_msg th (λ m, m <| am_err := err |>);
  update_netconn conn (λ c, c <| nc_current_msg := None |>).

Definition post_if_valid (c : netconn) (mbox : option loc) (msg : mbox_msg) : M nstate unit :=
  if NETCONN_MBOX_VALID c mbox then let! _ := mbox_trypost mbox msg in ret tt else ret tt.

Definition netconn_err_tcp (arg : option loc) (err : err_t) : M W unit :=
  do! lwip_assert (bool_decide (arg ≠ None));
  let! conn := valid_ptr arg in
  let! old := the_netconn conn in
  do! nc (update_netconn conn (λ c, c <| nc_pcb := None |> <| nc_pending_err := err |>
            <| nc_flags := u8 (Z.lor (nc_flags c) NETCONN_FLAG_MBOXCLOSED) |> <| nc_state := NETCONN_NONE |>));
  let! mbox_msg := nc (lwip_netconn_err_to_msg err) in
  let! c := the_netconn conn in
  do! nc (post_if_valid c (nc_recvmbox c) mbox_msg);
  do! nc (post_if_valid c (nc_acceptmbox c) mbox_msg);
  match nc_state old with
  | NETCONN_WRITE | NETCONN_CLOSE | NETCONN_CONNECT =>
    let! c := the_netconn conn in
    do! nc (SET_NONBLOCKING_CONNECT conn false);
    if IN_NONBLOCKING_CONNECT c then ret tt else
    let! '(th, m) := current_msg conn in
    do! nc (complete conn th (if decide (nc_state old = NETCONN_CLOSE) then ERR_OK else err));
    nc (signal_thread th)
  | _ => lwip_assert (bool_decide (nc_current_msg c = None))
  end.

(** Of the callbacks, the calls to TCP below use [err_tcp] only: aborting a
    connection tells its netconn. *)
#[local] Instance only_err_tcp : tcp_client W := {
  recv_tcp _ _ _ _ := fail Undefined; sent_tcp _ _ _ := fail Undefined; poll_tcp _ _ := fail Undefined;
  err_tcp := netconn_err_tcp;
  accept_function _ _ _ := fail Undefined; do_connected _ _ _ := fail Undefined
}.

Definition netconn_recv_tcp (arg : option loc) (pcb : loc) (p : option loc) (err : err_t) : M W err_t :=
  do! lwip_assert (bool_decide (arg ≠ None));
  do! lwip_assert (is_ok err);
  let! conn := valid_ptr arg in
  let! c := the_netconn conn in
  do! lwip_assert (bool_decide (nc_pcb c = Some pcb));
  if negb (NETCONN_MBOX_VALID c (nc_recvmbox c)) then
    match p with
    | Some _ =>
      let! tot_len := st (tot_len_of p) in
      do! tcp_recved (Some pcb) tot_len;
      let! _ := st (pbuf_free p) in ret ERR_OK
    | None => ret ERR_OK
    end
  else
    let! e := nc (mbox_trypost (nc_recvmbox c) (match p with Some l => Msg_ptr l | None => Msg_closed end)) in
    if negb (is_ok e) then ret ERR_MEM else ret ERR_OK.

Definition setup_tcp (conn : loc) : M W unit :=
  let! c := the_netconn conn in
  let pcb := nc_pcb c in
  do! tc (tcp_arg pcb (Some conn));
  do! tc (tcp_recv pcb (Some Recv_tcp));
  do! tc (tcp_sent pcb (Some Sent_tcp));
  do! tc (tcp_poll pcb (Some Poll_tcp) NETCONN_TCP_POLL_INTERVAL);
  tc (tcp_err pcb (Some Err_tcp)).

Definition netconn_alloc : M W (option loc) :=
  let! conn := st (memp_malloc MEMP_NETCONN) in
  match conn with
  | None => ret None
  | Some l =>
    let! recvmbox := mbox_new in
    match recvmbox with
    | None => do! st (memp_free MEMP_NETCONN (Some l)); ret None
    | Some _ =>
      do! nc (modify (put_netconn l (mk_netconn NETCONN_NONE None ERR_OK recvmbox None 0 0 None)));
      ret (Some l)
    end
  end.
(** [memp_free(MEMP_NETCONN, conn)] *)
Definition netconn_release (conn : loc) : M W unit :=
  do! nc (modify (λ n, n <| netconns := delete conn (netconns n) |>));
  st (memp_free MEMP_NETCONN (Some conn)).

(** The messages left in a mailbox, then the mailbox itself. *)
Fixpoint drain_mbox (fuel : nat) (mbox : option loc) (f : mbox_msg → M W unit) : M W unit :=
  match fuel with
  | O => fail OutOfFuel
  | S fuel =>
    let! mem := nc (mbox_tryfetch mbox) in
    match mem with
    | None => ret tt
    | Some msg => do! (if lwip_netconn_is_deallocated_msg msg then ret tt else f msg); drain_mbox fuel mbox f
    end
  end.
(** Each turn but the last takes a message, and a mailbox holds 127. *)
Definition DRAIN_FUEL : nat := 128.

Definition drain_packet (msg : mbox_msg) : M W unit :=
  match lwip_netconn_is_err_msg msg with
  | Some _ => ret tt
  | None => match msg with Msg_ptr p => let! _ := st (pbuf_free (Some p)) in ret tt | _ => fail Undefined end
  end.
Definition check_freed (conn : loc) : M W unit :=
  let! c := the_netconn conn in
  do! lwip_assert (bool_decide (nc_recvmbox c = None));
  lwip_assert (bool_decide (nc_acceptmbox c = None)).
(** [netconn_drain] and, inside it, [netconn_free] for the connections that wait to
    be accepted; those have no mailbox of connections of their own. *)
Fixpoint netconn_drain (depth : nat) (conn : loc) : M W unit :=
  match depth with
  | O => fail OutOfFuel
  | S depth =>
    let! c := the_netconn conn in
    do! lwip_assert (netconn_is_flag_set c NETCONN_FLAG_MBOXINVALID);
    do! (match nc_recvmbox c with
         | None => ret tt
         | Some _ =>
           do! drain_mbox DRAIN_FUEL (nc_recvmbox c) drain_packet;
           do! mbox_free (nc_recvmbox c);
           nc (update_netconn conn (λ c, c <| nc_recvmbox := None |>))
         end);
    let! c := the_netconn conn in
    match nc_acceptmbox c with
    | None => ret tt
    | Some _ =>
      do! drain_mbox DRAIN_FUEL (nc_acceptmbox c) (λ msg,
        match lwip_netconn_is_err_msg msg with
        | Some _ => ret tt
        | None =>
          match msg with
          | Msg_ptr newconn =>
            do! netconn_drain depth newconn;
            let! nw := the_netconn newconn in
            do! (match nc_pcb nw with
                 | None => ret tt
                 | Some _ => do! tcp_abort (nc_pcb nw); nc (update_netconn newconn (λ c, c <| nc_pcb := None |>))
                 end);
            do! netconn_drain depth newconn;
            do! check_freed newconn;
            netconn_release newconn
          | _ => fail Undefined
          end
        end);
      do! mbox_free (nc_acceptmbox c);
      nc (update_netconn conn (λ c, c <| nc_acceptmbox := None |>))
    end
  end.
(** A listener and the connections in its mailbox. *)
Definition netconn_free (conn : loc) : M W unit :=
  let! c := the_netconn conn in
  do! lwip_assert (bool_decide (nc_pcb c = None));
  do! netconn_drain 2 conn;
  do! check_freed conn;
  netconn_release conn.

Definition netconn_accept_function (arg newpcb : option loc) (err : err_t) : M W err_t :=
  match arg with
  | None => ret ERR_VAL
  | Some conn =>
    let! c := the_netconn conn in
    if negb (NETCONN_MBOX_VALID c (nc_acceptmbox c)) then ret ERR_VAL else
    let tell_aborted (e : err_t) : M W err_t :=
      let! msg := nc (lwip_netconn_err_to_msg ERR_ABRT) in
      let! _ := nc (mbox_trypost (nc_acceptmbox c) msg) in ret e in
    match newpcb with
    | None => tell_aborted ERR_VAL
    | Some pcb =>
      do! lwip_assert (is_ok err);
      let! newconn := netconn_alloc in
      match newconn with
      | None => tell_aborted ERR_MEM
      | Some nw =>
        do! nc (update_netconn nw (λ c, c <| nc_pcb := newpcb |>));
        do! setup_tcp nw;
        do! tc (tcp_backlog_delayed pcb);
        let! e := nc (mbox_trypost (nc_acceptmbox c) (Msg_ptr nw)) in
        if negb (is_ok e) then
          do! tc (tcp_arg newpcb None);
          do! tc (tcp_recv newpcb None);
          do! tc (tcp_sent newpcb None);
          do! tc (tcp_poll newpcb None 0);
          do! tc (tcp_err newpcb None);
          do! nc (update_netconn nw (λ c, c <| nc_pcb := None |>));
          let! n := the_netconn nw in
          do! mbox_free (nc_recvmbox n);
          do! nc (update_netconn nw (λ c, c <| nc_recvmbox := None |>));
          do! netconn_free nw;
          ret ERR_MEM
        else ret ERR_OK
      end
    end
  end.

Definition netconn_do_connected (arg : option loc) (pcb : loc) (err : err_t) : M W err_t :=
  match arg with
  | None => ret ERR_VAL
  | Some conn =>
    let! c := the_netconn conn in
    do! lwip_assert (bool_decide (nc_state c = NETCONN_CONNECT));
    do! lwip_assert (bool_decide (nc_current_msg c ≠ None) || IN_NONBLOCKING_CONNECT c);
    do! (match nc_current_msg c with
         | Some th => nc (update_msg th (λ m, m <| am_err := err |>))
         | None => ret tt
         end);
    do! (if is_ok err then setup_tcp conn else ret tt);
    let was_blocking := negb (IN_NONBLOCKING_CONNECT c) in
    do! nc (SET_NONBLOCKING_CONNECT conn false);
    do! lwip_assert (Bool.eqb was_blocking (bool_decide (nc_current_msg c ≠ None)));
    do! nc (update_netconn conn (λ c, c <| nc_current_msg := None |> <| nc_state := NETCONN_NONE |>));
    do! (match nc_current_msg c with Some th => if was_blocking then nc (signal_thread th) else ret tt | None => ret tt end);
    ret ERR_OK
  end.

(** ** Closing *)

(** Whether shutting down these sides comes to closing the connection. *)
Definition shut_closes (shut : Z) (tpcb : loc) (t : tstate) : res bool :=
  let shut_rx := has_bits shut NETCONN_SHUT_RD in
  let shut_tx := has_bits shut NETCONN_SHUT_WR in
  if shut =? NETCONN_SHUT_RDWR then Val true else
  let* b := get_blk t tpcb in
  if shut_rx && (bool_decide (blk_state b = FIN_WAIT_1) || bool_decide (blk_state b = FIN_WAIT_2) || bool_decide (blk_state b = CLOSING))
  then Val true
  else if shut_tx then let* c := get_tcp t tpcb in Val (tcp_is_flag_set c TF_RXCLOSED)
  else Val false.

(** The callbacks that go before the attempt. *)
Definition drop_callbacks (tpcb : loc) (shut_rx shut_tx shut_close : bool) : M tstate unit :=
  do! (if shut_close then tcp_arg (Some tpcb) None else ret tt);
  let! b := ask (λ t, get_blk t tpcb) in
  if bool_decide (blk_state b = LISTEN) then tcp_accept (Some tpcb) None else
  do! (if shut_rx then do! tcp_recv (Some tpcb) None; tcp_accept (Some tpcb) None else ret tt);
  do! (if shut_tx then tcp_sent (Some tpcb) None else ret tt);
  if shut_close then do! tcp_poll (Some tpcb) None 0; tcp_err (Some tpcb) None else ret tt.
(** Those that come back when it has to be tried again. *)
Definition restore_callbacks (tpcb conn : loc) (shut_tx : bool) : M tstate unit :=
  let! b := ask (λ t, get_blk t tpcb) in
  do! lwip_assert (bool_decide (blk_state b ≠ LISTEN));
  do! (if shut_tx then tcp_sent (Some tpcb) (Some Sent_tcp) else ret tt);
  do! tcp_poll (Some tpcb) (Some Poll_tcp) 1;
  do! tcp_err (Some tpcb) (Some Err_tcp);
  tcp_arg (Some tpcb) (Some conn).

(** Whether the attempt was the last, and with what result. *)
Definition close_outcome (th : thread_id) (tpcb : loc) (shut_close : bool) (err : err_t) : M W (bool * err_t) :=
  match err with
  | ERR_OK => ret (true, ERR_OK)
  | ERR_MEM =>
    let! m := nc (ask (λ n, get_msg n th)) in
    if sd_polls_left m =? 0 then
      if shut_close then do! tcp_abort (Some tpcb); ret (true, ERR_OK) else ret (true, ERR_MEM)
    else ret (false, ERR_MEM)
  | _ => ret (true, err)
  end.

(** [delayed]: the thread is already waiting. *)
Definition lwip_netconn_do_close_internal (conn : loc) (delayed : bool) : M W err_t :=
  let! c := the_netconn conn in
  do! lwip_assert (bool_decide (nc_state c = NETCONN_CLOSE));
  do! lwip_assert (bool_decide (nc_pcb c ≠ None));
  let! tpcb := valid_ptr (nc_pcb c) in
  let! '(th, m) := current_msg conn in
  let shut := sd_shut m in
  let shut_rx := has_bits shut NETCONN_SHUT_RD in
  let shut_tx := has_bits shut NETCONN_SHUT_WR in
  let! shut_close := tc (ask (shut_closes shut tpcb)) in
  do! tc (drop_callbacks tpcb shut_rx shut_tx shut_close);
  let! err := (if shut_close then tcp_close (Some tpcb) else tcp_shutdown (Some tpcb) shut_rx shut_tx) in
  let! '(close_finished, err) := close_outcome th tpcb shut_close err in
  if close_finished then
    do! nc (complete conn th err);
    do! nc (update_netconn conn (λ c, c <| nc_state := NETCONN_NONE |>));
    do! (if is_ok err && shut_close then nc (update_netconn conn (λ c, c <| nc_pcb := None |>)) else ret tt);
    do! (if delayed then nc (signal_thread th) else ret tt);
    ret ERR_OK
  else
    do! tc (restore_callbacks tpcb conn shut_tx);
    do! lwip_assert (negb (is_ok err));
    ret err.

(** ** Writing *)

(** The next piece of the current vector: its pointer and length, the flags it is
    written with, and whether to go on after it; or the error of a write that does
    not wait. *)
Record piece := mk_piece { pc_ptr : option ptr; pc_len : Z; pc_flags : Z; pc_more : bool }.
Definition next_piece (m : api_msg) (v : netvector) (apiflags available : Z) (dontblock : bool) : err_t + piece :=
  let dataptr := (λ a, ptr_add a (w_vector_off m)) <$> nv_ptr v in
  let diff := nv_len v - w_vector_off m in
  let '(len, apiflags) :=
    if 65535 <? diff then (65535, Z.lor apiflags TCP_WRITE_FLAG_MORE) else (u16 diff, apiflags) in
  let short := available <? len in
  let len := if short then available else len in
  if short && dontblock && (len =? 0) then inl (if w_offset m =? 0 then ERR_WOULDBLOCK else ERR_OK) else
  let apiflags := if short && negb dontblock then Z.lor apiflags TCP_WRITE_FLAG_MORE else apiflags in
  let more := ((len =? 65535) && (65535 <? diff)) || ((len =? u16 diff) && (1 <? zlen (w_vectors m))) in
  inr (mk_piece dataptr len (if more then Z.lor apiflags TCP_WRITE_FLAG_MORE else apiflags) more).
(** The message after [len] bytes were taken. *)
Definition bytes_taken (len : Z) (m : api_msg) : api_msg :=
  let m := m <| w_offset := w_offset m + len |> <| w_vector_off := w_vector_off m + len |> in
  match w_vectors m with
  | v :: rest =>
    if w_vector_off m =? nv_len v then
      match rest with [] => m <| w_vectors := [] |> | _ => m <| w_vectors := rest |> <| w_vector_off := 0 |> end
    else m
  | [] => m
  end.
(** The result says whether the space that is left is looked at ([err_mem:]). *)
Fixpoint write_pieces (fuel : nat) (th : thread_id) (pcb : loc) (apiflags : Z) (dontblock : bool) : M W (err_t * bool) :=
  match fuel with
  | O => fail OutOfFuel
  | S fuel =>
    let! m := nc (ask (λ n, get_msg n th)) in
    let! v := nc (ask (λ _, deref (head (w_vectors m)))) in
    let! c := tc (ask (λ t, get_tcp t pcb)) in
    match next_piece m v apiflags (tcp_sndbuf c) dontblock with
    | inl err => ret (err, true)
    | inr p =>
      do! lwip_assert (w_vector_off m + pc_len p <=? nv_len v);
      let! err := tc (tcp_write (Some pcb) (pc_ptr p) (pc_len p) (pc_flags p)) in
      if negb (is_ok err) then ret (err, bool_decide (err = ERR_MEM)) else
      do! nc (update_msg th (bytes_taken (pc_len p)));
      if pc_more p then write_pieces fuel th pcb (pc_flags p) dontblock else ret (ERR_OK, true)
    end
  end.
(** A turn that goes on has taken 65535 bytes, or a vector. *)
Definition write_fuel (m : api_msg) : nat := S (length (w_vectors m) + Z.to_nat (w_len m - w_offset m)).

(** Nobody waits for space to write. *)
Definition note_writespace (conn : loc) (m : api_msg) (dontblock : bool) : M nstate unit :=
  if dontblock && (w_offset m <? w_len m) then netconn_set_flags conn NETCONN_FLAG_CHECK_WRITESPACE else ret tt.

(** What the attempt came to: the error, and whether the write is over. *)
Definition write_outcome (th : thread_id) (pcb : loc) (err : err_t) (dontblock : bool) : M W (bool * err_t) :=
  let! m := nc (ask (λ n, get_msg n th)) in
  match err with
  | ERR_OK =>
    let! out_err := tcp_output pcb in
    ret (match out_err with
         | ERR_RTE => (true, ERR_RTE)
         | _ => ((w_offset m =? w_len m) || dontblock, ERR_OK)
         end)
  | ERR_MEM =>
    let! out_err := tcp_output pcb in
    ret (match out_err with
         | ERR_RTE => (true, ERR_RTE)
         | _ => if dontblock then (true, if w_offset m =? 0 then ERR_WOULDBLOCK else ERR_OK) else (false, ERR_MEM)
         end)
  | _ => ret (true, err)
  end.

Definition lwip_netconn_do_writemore (conn : loc) (delayed : bool) : M W err_t :=
  let! c := the_netconn conn in
  do! lwip_assert (bool_decide (nc_state c = NETCONN_WRITE));
  let! '(th, m) := current_msg conn in
  do! lwip_assert (bool_decide (nc_pcb c ≠ None));
  let! pcb := valid_ptr (nc_pcb c) in
  do! lwip_assert (w_offset m <? w_len m);
  do! lwip_assert (negb (bool_decide (w_vectors m = [])));
  let dontblock := netconn_is_nonblocking c || has_bits (w_apiflags m) NETCONN_DONTBLOCK in
  let! '(err, look) := write_pieces (write_fuel m) th pcb (w_apiflags m) dontblock in
  let! m := nc (ask (λ n, get_msg n th)) in
  do! (if look then nc (note_writespace conn m dontblock) else ret tt);
  let! '(write_finished, err) := write_outcome th pcb err dontblock in
  if write_finished then
    do! nc (complete conn th err);
    do! nc (update_netconn conn (λ c, c <| nc_state := NETCONN_NONE |>));
    do! (if delayed then nc (signal_thread th) else ret tt);
    ret ERR_OK
  else ret ERR_MEM.

(** ** The callbacks that go on with a call *)

Definition continue_call (conn : loc) : M W unit :=
  let! c := the_netconn conn in
  match nc_state c with
  | NETCONN_WRITE => let! _ := lwip_netconn_do_writemore conn true in ret tt
  | NETCONN_CLOSE => let! _ := lwip_netconn_do_close_internal conn true in ret tt
  | _ => ret tt
  end.
(** With the configured limit of 0 segments the test never succeeds. *)
Definition writable_again (conn : loc) : M W unit :=
  let! c := the_netconn conn in
  match nc_pcb c with
  | None => ret tt
  | Some pcb =>
    let! cb := tc (ask (λ t, get_tcp t pcb)) in
    if (TCP_SNDLOWAT <? tcp_sndbuf cb) && (tp_snd_queuelen cb <? TCP_SNDQUEUELOWAT)
    then nc (netconn_clear_flags conn NETCONN_FLAG_CHECK_WRITESPACE) else ret tt
  end.

Definition netconn_poll_tcp (arg : option loc) (pcb : loc) : M W err_t :=
  do! lwip_assert (bool_decide (arg ≠ None));
  let! conn := valid_ptr arg in
  let! c := the_netconn conn in
  do! (match nc_state c, nc_current_msg c with
       | NETCONN_CLOSE, Some th =>
         nc (update_msg th (λ m, if sd_polls_left m =? 0 then m else m <| sd_polls_left := sd_polls_left m - 1 |>))
       | _, _ => ret tt
       end);
  do! continue_call conn;
  let! c := the_netconn conn in
  do! (if netconn_is_flag_set c NETCONN_FLAG_CHECK_WRITESPACE then writable_again conn else ret tt);
  ret ERR_OK.

Definition netconn_sent_tcp (arg : option loc) (pcb : loc) (len : Z) : M W err_t :=
  do! lwip_assert (bool_decide (arg ≠ None));
  let! conn := valid_ptr arg in
  do! continue_call conn;
  do! writable_again conn;
  ret ERR_OK.

(** ** The messages of the application

    [th] is the thread that calls; its message is in [api_msgs].  The handlers that
    may leave the call unfinished say whether they do: the thread then waits for
    its semaphore without the core lock. *)

Definition set_msg_err (th : thread_id) (err : err_t) : M W unit := nc (update_msg th (λ m, m <| am_err := err |>)).

Definition pcb_new (th : thread_id) (conn : loc) : M W unit :=
  let! c := the_netconn conn in
  do! lwip_assert (bool_decide (nc_pcb c = None));
  let! pcb := tcp_new_ip_type IPADDR_TYPE_V4 in
  do! nc (update_netconn conn (λ c, c <| nc_pcb := pcb |>));
  match pcb with None => set_msg_err th ERR_MEM | Some _ => setup_tcp conn end.
Definition lwip_netconn_do_newconn (th : thread_id) (conn : loc) : M W unit :=
  do! set_msg_err th ERR_OK;
  let! c := the_netconn conn in
  match nc_pcb c with None => pcb_new th conn | Some _ => ret tt end.

Definition lwip_netconn_do_bind (th : thread_id) (conn : loc) (ipaddr : option Z) (port : Z) : M W unit :=
  let! c := the_netconn conn in
  let! err := (match nc_pcb c with None => ret ERR_VAL | Some _ => tcp_bind (nc_pcb c) ipaddr port end) in
  set_msg_err th err.
Definition lwip_netconn_do_bind_if (th : thread_id) (conn : loc) (if_idx : Z) : M W unit :=
  let! netif := tc (gets (λ t, netif_get_by_index if_idx (t_ip t))) in
  let! c := the_netconn conn in
  match nc_pcb c with
  | Some pcb => if netif then do! tc (tcp_bind_netif pcb true); set_msg_err th ERR_OK else set_msg_err th ERR_VAL
  | None => set_msg_err th ERR_VAL
  end.

(** The netconn becomes a listener: a mailbox for connections in place of that for
    packets. *)
Definition listen_on (conn pcb : loc) (backlog : Z) : M W err_t :=
  let! b := tc (ask (λ t, get_blk t pcb)) in
  if bool_decide (blk_state b ≠ CLOSED) then ret ERR_VAL else
  let! '(lpcb, err) := tcp_listen_with_backlog_and_err (Some pcb) backlog in
  match lpcb with
  | None => ret err
  | Some lp =>
    let! c := the_netconn conn in
    do! (match nc_recvmbox c with
         | None => ret tt
         | Some _ => do! mbox_free (nc_recvmbox c); nc (update_netconn conn (λ c, c <| nc_recvmbox := None |>))
         end);
    do! (match nc_acceptmbox c with
         | Some _ => ret tt
         | None => let! mbox := mbox_new in nc (update_netconn conn (λ c, c <| nc_acceptmbox := mbox |>))
         end);
    let! c := the_netconn conn in
    match nc_acceptmbox c with
    | Some _ =>
      do! nc (update_netconn conn (λ c, c <| nc_state := NETCONN_LISTEN |> <| nc_pcb := Some lp |>));
      do! tc (tcp_arg (Some lp) (Some conn));
      do! tc (tcp_accept (Some lp) (Some Accept_function));
      ret ERR_OK
    | None =>
      let! _ := tcp_close (Some lp) in
      do! nc (update_netconn conn (λ c, c <| nc_pcb := None |>));
      ret ERR_MEM
    end
  end.
Definition lwip_netconn_do_listen (th : thread_id) (conn : loc) (backlog : Z) : M W unit :=
  let! c := the_netconn conn in
  let! err := (match nc_pcb c with
    | None => ret ERR_CONN
    | Some pcb =>
      match nc_state c with
      | NETCONN_NONE => listen_on conn pcb backlog
      | NETCONN_LISTEN => do! tc (tcp_backlog_set pcb backlog); ret ERR_OK
      | _ => ret ERR_CONN
      end
    end) in
  set_msg_err th err.

Fixpoint recved_loop (fuel : nat) (pcb : option loc) (remaining : Z) : M W unit :=
  match fuel with
  | O => fail OutOfFuel
  | S fuel =>
    let recved := if 65535 <? remaining then 65535 else remaining in
    do! tcp_recved pcb recved;
    let remaining := remaining - recved in
    if remaining =? 0 then ret tt else recved_loop fuel pcb remaining
  end.
Definition lwip_netconn_do_recv (th : thread_id) (conn : loc) (len : Z) : M W unit :=
  do! set_msg_err th ERR_OK;
  let! c := the_netconn conn in
  match nc_pcb c with None => ret tt | Some _ => recved_loop (S (Z.to_nat len)) (nc_pcb c) len end.
Definition lwip_netconn_do_accepted (th : thread_id) (conn : loc) : M W unit :=
  do! set_msg_err th ERR_OK;
  let! c := the_netconn conn in
  match nc_pcb c with None => ret tt | Some pcb => tc (tcp_backlog_accepted pcb) end.

(** The address and port; they are not looked at after an error. *)
Definition lwip_netconn_do_getaddr (th : thread_id) (conn : loc) (local : bool) : M W (option (Z * Z)) :=
  let! c := the_netconn conn in
  match nc_pcb c with
  | None => do! set_msg_err th ERR_CONN; ret None
  | Some pcb =>
    let! b := tc (ask (λ t, get_blk t pcb)) in
    if negb local && (bool_decide (blk_state b = CLOSED) || bool_decide (blk_state b = LISTEN))
    then do! set_msg_err th ERR_CONN; ret None
    else
      do! set_msg_err th ERR_OK;
      if local then ret (Some (blk_local_ip b, blk_local_port b))
      else let! cb := tc (ask (λ t, get_tcp t pcb)) in ret (Some (tp_remote_ip cb, tp_remote_port cb))
  end.

(** [netconn_err]: an error that is pending is reported once. *)
Definition netconn_err (conn : loc) : M W err_t :=
  let! c := the_netconn conn in
  do! nc (update_netconn conn (λ c, c <| nc_pending_err := ERR_OK |>));
  ret (nc_pending_err c).

Definition lwip_netconn_do_write (th : thread_id) (conn : loc) : M W bool :=
  let! err := netconn_err conn in
  if negb (is_ok err) then do! set_msg_err th err; ret false else
  let! c := the_netconn conn in
  if bool_decide (nc_state c ≠ NETCONN_NONE) then do! set_msg_err th ERR_INPROGRESS; ret false else
  match nc_pcb c with
  | None => do! set_msg_err th ERR_CONN; ret false
  | Some _ =>
    do! nc (update_netconn conn (λ c, c <| nc_state := NETCONN_WRITE |>));
    do! lwip_assert (bool_decide (nc_current_msg c = None));
    let! m := nc (ask (λ n, get_msg n th)) in
    do! lwip_assert (negb (w_len m =? 0));
    do! nc (update_netconn conn (λ c, c <| nc_current_msg := Some th |>));
    let! err := lwip_netconn_do_writemore conn false in
    if negb (is_ok err) then
      let! c := the_netconn conn in
      do! lwip_assert (bool_decide (nc_state c = NETCONN_WRITE)); ret true
    else ret false
  end.

Definition lwip_netconn_do_connect (th : thread_id) (conn : loc) (ipaddr : option Z) (port : Z) : M W bool :=
  let! c := the_netconn conn in
  match nc_pcb c with
  | None => do! set_msg_err th ERR_CLSD; ret false
  | Some _ =>
    match nc_state c with
    | NETCONN_CONNECT => do! set_msg_err th ERR_ALREADY; ret false
    | NETCONN_NONE =>
      do! setup_tcp conn;
      let! err := tcp_connect (nc_pcb c) ipaddr port (Some Do_connected) in
      if negb (is_ok err) then do! set_msg_err th err; ret false else
      let! c := the_netconn conn in
      let non_blocking := netconn_is_nonblocking c in
      do! nc (update_netconn conn (λ c, c <| nc_state := NETCONN_CONNECT |>));
      do! nc (SET_NONBLOCKING_CONNECT conn non_blocking);
      if non_blocking then do! set_msg_err th ERR_INPROGRESS; ret false else
      do! nc (update_netconn conn (λ c, c <| nc_current_msg := Some th |>)); ret true
    | _ => do! set_msg_err th ERR_ISCONN; ret false
    end
  end.

(** A thread that fetches from the mailbox wakes up for every message. *)
Fixpoint post_deleted (k : nat) (mbox : option loc) : M nstate unit :=
  match k with O => ret tt | S k => let! _ := mbox_trypost mbox Msg_deleted in post_deleted k mbox end.
Definition netconn_mark_mbox_invalid (conn : loc) : M W unit :=
  do! nc (netconn_set_flags conn NETCONN_FLAG_MBOXINVALID);
  let! c := the_netconn conn in
  nc (post_deleted (Z.to_nat (nc_mbox_threads_waiting c))
        (match nc_recvmbox c with Some _ => nc_recvmbox c | None => nc_acceptmbox c end)).

(** The call that is being closed down ends with ERR_CLSD. *)
Definition abort_call (conn : loc) : M W unit :=
  let! '(th, m) := current_msg conn in
  do! nc (complete conn th ERR_CLSD);
  do! nc (update_netconn conn (λ c, c <| nc_state := NETCONN_NONE |>));
  nc (signal_thread th).
(** [conn->state = NETCONN_CLOSE; conn->current_msg = msg], and the first attempt. *)
Definition start_close (th : thread_id) (conn : loc) : M W bool :=
  let! c := the_netconn conn in
  do! lwip_assert (bool_decide (nc_current_msg c = None));
  do! nc (update_netconn conn (λ c, c <| nc_state := NETCONN_CLOSE |> <| nc_current_msg := Some th |>));
  let! err := lwip_netconn_do_close_internal conn false in
  if negb (is_ok err) then
    let! c := the_netconn conn in
    do! lwip_assert (bool_decide (nc_state c = NETCONN_CLOSE)); ret true
  else ret false.

Definition lwip_netconn_do_delconn (th : thread_id) (conn : loc) : M W bool :=
  let! c := the_netconn conn in
  let state := nc_state c in
  do! (match state with
       | NETCONN_WRITE => abort_call conn
       | NETCONN_CONNECT => if IN_NONBLOCKING_CONNECT c then ret tt else abort_call conn
       | _ => ret tt
       end);
  let! c := the_netconn conn in
  do! lwip_assert (bool_decide (state ≠ NETCONN_CONNECT) || IN_NONBLOCKING_CONNECT c);
  do! set_msg_err th ERR_OK;
  do! netconn_mark_mbox_invalid conn;
  match nc_pcb c with
  | None => ret false
  | Some _ => do! nc (update_msg th (λ m, m <| sd_shut := NETCONN_SHUT_RDWR |>)); start_close th conn
  end.

Definition lwip_netconn_do_close (th : thread_id) (conn : loc) : M W bool :=
  let! c := the_netconn conn in
  let! m := nc (ask (λ n, get_msg n th)) in
  let shut := sd_shut m in
  match nc_pcb c with
  | None => do! set_msg_err th ERR_CONN; ret false
  | Some pcb =>
    if negb ((shut =? NETCONN_SHUT_RDWR) || bool_decide (nc_state c ≠ NETCONN_LISTEN))
    then do! set_msg_err th ERR_CONN; ret false else
    let close : M W bool :=
      do! (if has_bits shut NETCONN_SHUT_RD then netconn_mark_mbox_invalid conn else ret tt);
      start_close th conn in
    match nc_state c with
    | NETCONN_CONNECT => do! set_msg_err th ERR_CONN; ret false
    | NETCONN_WRITE =>
      if has_bits shut NETCONN_SHUT_WR then do! abort_call conn; close else
      do! lwip_assert (shut =? NETCONN_SHUT_RD);
      let! err := tcp_shutdown (Some pcb) true false in
      do! set_msg_err th err; ret false
    | NETCONN_NONE => close
    | NETCONN_LISTEN | NETCONN_CLOSE => ret false   (* neither closed nor given an error *)
    end
  end.
End netconn.

(** ** The callbacks of TCP *)

#[export] Instance netconn_client {W} `{!Part tstate W} `{!netif_driver W} `{!Part timeouts W} `{!timer_client W} `{!Part nstate W} :
  tcp_client W := {
  recv_tcp := netconn_recv_tcp; sent_tcp := netconn_sent_tcp; poll_tcp := netconn_poll_tcp; err_tcp := netconn_err_tcp;
  accept_function := netconn_accept_function; do_connected := netconn_do_connected
}.
