(* ===== verification/NetconnApi.v ===== *)
(** * Netconns: the half that runs in the threads of the application
    ([api/api_lib.c], [api/netbuf.c])

    A call is a program of atomic sections, the points where the thread waits
    between them: [thread].  The sections under the core lock are those of
    [Netconn]; what the thread does between them without the lock is an atomic
    section for each object that other threads use as well. *)

From S2P Require Import Prelude Mbox Heap Pbuf PbufData Def Chksum Addr Timeouts Header Ip4 Tcp TcpOut TcpSend Netconn.

(** ** Programs of a thread *)

(** [Act m k]: the section [m], then [k] on what it returns.  [Wait m k]: the same,
    but the thread sleeps until [m] returns something. *)
Inductive thread (W A : Type) : Type :=
  | Done (a : A)
  | Act {B : Type} (m : M W B) (k : B → thread W A)
  | Wait {B : Type} (m : M W (option B)) (k : B → thread W A).
Arguments Done {W A}. Arguments Act {W A B}. Arguments Wait {W A B}.

Fixpoint tbind {W A B} (t : thread W A) (f : A → thread W B) : thread W B :=
  match t with
  | Done a => f a
  | Act m k => Act m (λ b, tbind (k b) f)
  | Wait m k => Wait m (λ b, tbind (k b) f)
  end.
Notation "'run!' x := t 'in' k" := (tbind t (fun x => k)) (at level 10, x name, t at level 100, k at level 200).
Notation "'run!' ' p := t 'in' k" := (tbind t (fun '(p) => k)) (at level 10, p pattern, t at level 100, k at level 200).
Notation "'then!' t ; k" := (tbind t (fun _ => k)) (at level 10, t at level 100, k at level 200).
Notation "'act!' x := m 'in' k" := (Act m (fun x => k)) (at level 10, x name, m at level 100, k at level 200).
Notation "'step!' m ; k" := (Act m (fun _ => k)) (at level 10, m at level 100, k at level 200).

(** A step of a thread: its next section.  A thread that waits for something that is
    not there has no step. *)
Inductive thread_step {W A} : thread W A → W → thread W A → W → Prop :=
  | step_act {B} (m : M W B) k w b w' : m w = Val (b, w') → thread_step (Act m k) w (k b) w'
  | step_wait {B} (m : M W (option B)) k w b w' : m w = Val (Some b, w') → thread_step (Wait m k) w (k b) w'.
(** A thread on its own, up to its end or until it has to wait. *)
Fixpoint run_thread {W A} (t : thread W A) (w : W) : res (thread W A * W) :=
  match t with
  | Done a => Val (t, w)
  | Act m k => match m w with Val (b, w') => run_thread (k b) w' | Err e => Err e end
  | Wait m k =>
    match m w with
    | Val (Some b, w') => run_thread (k b) w'
    | Val (None, _) => Val (t, w)
    | Err e => Err e
    end
  end.

Definition SSIZE_MAX : Z := 2 ^ 63 - 1.
Definition LWIP_TCP_CLOSE_TIMEOUT_MS_DEFAULT : Z := 20000.

Section api.
Context {W : Type} `{!Part tstate W} `{!netif_driver W} `{!Part timeouts W} `{!timer_client W} `{!Part nstate W}.

Abbreviation tc m := (lift (P := tstate) (S := W) m).
Abbreviation nc m := (lift (P := nstate) (S := W) m).
Abbreviation st m := (lift (P := tstate) (S := W) (lift (P := ipstate) (lift (P := store) m))).

(** ** Network buffers *)

Definition get_netbuf (buf : loc) : M W netbuf := nc (ask (λ n, deref (netbufs n !! buf))).
Definition set_netbuf (buf : loc) (b : netbuf) : M W unit := nc (modify (λ n, n <| netbufs := <[buf := b]> (netbufs n) |>)).
(** [memp_free(MEMP_NETBUF, buf)] *)
Definition release_netbuf (buf : loc) : M W unit :=
  do! nc (modify (λ n, n <| netbufs := delete buf (netbufs n) |>)); st (memp_free MEMP_NETBUF (Some buf)).
Definition free_packet (p : option loc) : M W unit :=
  match p with None => ret tt | Some _ => let! _ := st (pbuf_free p) in ret tt end.

Definition netbuf_new : M W (option loc) :=
  let! buf := st (memp_malloc MEMP_NETBUF) in
  match buf with
  | None => ret None
  | Some l => do! set_netbuf l (mk_netbuf None None 0 0); ret (Some l)
  end.
Definition netbuf_delete (buf : option loc) : M W unit :=
  match buf with
  | None => ret tt
  | Some l => let! b := get_netbuf l in do! free_packet (nb_p b); release_netbuf l
  end.
Definition netbuf_alloc (buf : loc) (size : Z) : M W (option ptr) :=
  let! b := get_netbuf buf in
  do! free_packet (nb_p b);
  let! p := st (pbuf_alloc PBUF_TRANSPORT size PBUF_RAM) in
  do! set_netbuf buf (b <| nb_p := p |>);
  match p with
  | None => ret None
  | Some _ =>
    let! len := st (len_of p) in
    do! lwip_assert (size <=? len);
    do! set_netbuf buf (b <| nb_p := p |> <| nb_ptr := p |>);
    st (payload_of p)
  end.
Definition netbuf_free (buf : loc) : M W unit :=
  let! b := get_netbuf buf in
  do! free_packet (nb_p b);
  set_netbuf buf (b <| nb_p := None |> <| nb_ptr := None |>).
Definition netbuf_ref (buf : loc) (dataptr : option ptr) (size : Z) : M W err_t :=
  let! b := get_netbuf buf in
  do! free_packet (nb_p b);
  let! p := st (pbuf_alloc PBUF_TRANSPORT 0 PBUF_REF) in
  match p with
  | None => do! set_netbuf buf (b <| nb_p := None |> <| nb_ptr := None |>); ret ERR_MEM
  | Some l =>
    do! st (update_pbuf l (λ q, q <| pb_payload := dataptr |> <| pb_len := size |> <| pb_tot_len := size |>));
    do! set_netbuf buf (b <| nb_p := p |> <| nb_ptr := p |>); ret ERR_OK
  end.
Definition netbuf_chain (head tail : loc) : M W unit :=
  let! h := get_netbuf head in
  let! t := get_netbuf tail in
  do! st (pbuf_cat (nb_p h) (nb_p t));
  do! set_netbuf head (h <| nb_ptr := nb_p h |>);
  release_netbuf tail.
Definition netbuf_data (buf : loc) : M W (option (option ptr * Z)) :=
  let! b := get_netbuf buf in
  match nb_ptr b with
  | None => ret None
  | Some _ => let! a := st (payload_of (nb_ptr b)) in let! len := st (len_of (nb_ptr b)) in ret (Some (a, len))
  end.
Definition netbuf_next (buf : loc) : M W Z :=
  let! b := get_netbuf buf in
  let! l := valid_ptr (nb_ptr b) in
  let! q := st (ask (λ s, get_pbuf s l)) in
  match pb_next q with
  | None => ret (-1)
  | Some nx =>
    do! set_netbuf buf (b <| nb_ptr := Some nx |>);
    let! q := st (ask (λ s, get_pbuf s nx)) in
    ret (if bool_decide (pb_next q = None) then 1 else 0)
  end.
Definition netbuf_first (buf : loc) : M W unit :=
  let! b := get_netbuf buf in set_netbuf buf (b <| nb_ptr := nb_p b |>).
(** [netbuf_len], [netbuf_copy_partial]: what was copied, and the bytes of the
    destination after it. *)
Definition netbuf_len (buf : loc) : M W Z := let! b := get_netbuf buf in st (tot_len_of (nb_p b)).
Definition netbuf_copy_partial (buf : loc) (dataptr : option (list Z)) (len offset : Z) : M W (Z * list Z) :=
  let! b := get_netbuf buf in st (ask (λ s, pbuf_copy_partial s (nb_p b) dataptr len offset)).

(** ** Messages *)

(** A message on the stack of the thread. *)
Definition new_msg (conn : loc) (err : err_t) : api_msg := mk_api_msg (Some conn) err [] 0 0 0 0 0 0.
(** The thread fetches its semaphore. *)
Definition wait_sem (th : thread_id) : M W (option unit) := nc (λ n,
  match sys_arch_sem_wait (sem_of n th) with
  | Some c => Val (Some tt, n <| thread_sems := <[th := c]> (thread_sems n) |>)
  | None => Val (None, n)
  end).
(** The message and its error go when the call returns. *)
Definition take_msg (th : thread_id) : M W api_msg :=
  let! m := nc (ask (λ n, get_msg n th)) in
  do! nc (modify (λ n, n <| api_msgs := delete th (api_msgs n) |>)); ret m.
(** [netconn_apimsg]: [fn] under the core lock; when it is not finished, the thread
    waits without the lock, and [after] is what [fn] checks then. *)
Definition netconn_apimsg {A} (th : thread_id) (conn : loc) (msg : api_msg → api_msg) (fn : M W (bool * A)) (after : M W unit) :
  thread W (api_msg * A) :=
  act! r := (let! err := nc (gets n_stack_err) in
             do! nc (modify (put_msg th (msg (new_msg conn err))));
             fn) in
  let '(waits, a) := r in
  if waits then Wait (wait_sem th) (λ _, act! m := (do! after; take_msg th) in Done (m, a))
  else act! m := take_msg th in Done (m, a).
(** Handlers that always finish, and those that may not. *)
Definition at_once {A} (m : M W A) : M W (bool * A) := let! a := m in ret (false, a).
Definition may_wait (m : M W bool) : M W (bool * unit) := let! b := m in ret (b, tt).
Definition apimsg_now (th : thread_id) (conn : loc) (fn : M W unit) : thread W err_t :=
  run! '(m, u) := netconn_apimsg th conn id (at_once fn) (ret tt) in Done (am_err m).
Definition state_is (conn : loc) (f : netconn_state → bool) : M W unit :=
  let! c := the_netconn conn in lwip_assert (f (nc_state c)).

(** [conn] is never null here: the callers of the program pass netconns. *)
Definition netconn_new (th : thread_id) : thread W (option loc) :=
  act! conn := netconn_alloc in
  match conn with
  | None => Done None
  | Some l =>
    run! err := apimsg_now th l (lwip_netconn_do_newconn th l) in
    if is_ok err then Done (Some l) else
    step! (let! c := the_netconn l in
          do! lwip_assert (bool_decide (nc_pcb c = None));
          do! lwip_assert (bool_decide (nc_recvmbox c ≠ None));
          do! lwip_assert (bool_decide (nc_acceptmbox c = None));
          do! mbox_free (nc_recvmbox c);
          netconn_release l);
    Done None
  end.

(** In half seconds: the slow timer polls that often. *)
Definition CLOSE_POLLS : Z := (LWIP_TCP_CLOSE_TIMEOUT_MS_DEFAULT + TCP_SLOW_INTERVAL - 1) / TCP_SLOW_INTERVAL + 1.

Definition netconn_prepare_delete (th : thread_id) (conn : option loc) : thread W err_t :=
  match conn with
  | None => Done ERR_OK
  | Some l =>
    run! '(m, u) := netconn_apimsg th l (λ m, m <| sd_polls_left := CLOSE_POLLS |>)
                      (may_wait (lwip_netconn_do_delconn th l)) (state_is l (λ s, bool_decide (s = NETCONN_NONE))) in
    Done (am_err m)
  end.
Definition netconn_delete (th : thread_id) (conn : option loc) : thread W err_t :=
  match conn with
  | None => Done ERR_OK
  | Some l =>
    act! c := the_netconn l in
    run! err := (if netconn_is_flag_set c NETCONN_FLAG_MBOXINVALID then Done ERR_OK else netconn_prepare_delete th conn) in
    if is_ok err then step! netconn_free l; Done err else Done err
  end.

Definition netconn_getaddr (th : thread_id) (conn : loc) (local : bool) : thread W (err_t * option (Z * Z)) :=
  run! '(m, a) := netconn_apimsg th conn id (at_once (lwip_netconn_do_getaddr th conn local)) (ret tt) in
  Done (am_err m, a).
Definition netconn_bind (th : thread_id) (conn : loc) (addr : option Z) (port : Z) : thread W err_t :=
  apimsg_now th conn (lwip_netconn_do_bind th conn (Some (default IPADDR_ANY addr)) port).
Definition netconn_bind_if (th : thread_id) (conn : loc) (if_idx : Z) : thread W err_t :=
  apimsg_now th conn (lwip_netconn_do_bind_if th conn if_idx).
Definition netconn_connect (th : thread_id) (conn : loc) (addr : option Z) (port : Z) : thread W err_t :=
  run! '(m, u) := netconn_apimsg th conn id (may_wait (lwip_netconn_do_connect th conn (Some (default IPADDR_ANY addr)) port))
                    (state_is conn (λ s, bool_decide (s ≠ NETCONN_CONNECT))) in
  Done (am_err m).
Definition netconn_listen_with_backlog (th : thread_id) (conn : loc) (backlog : Z) : thread W err_t :=
  apimsg_now th conn (lwip_netconn_do_listen th conn backlog).

Definition netconn_close_shutdown (th : thread_id) (conn : loc) (how : Z) : thread W err_t :=
  run! '(m, u) := netconn_apimsg th conn (λ m, m <| sd_shut := how |> <| sd_polls_left := CLOSE_POLLS |>)
                    (may_wait (lwip_netconn_do_close th conn)) (state_is conn (λ s, bool_decide (s = NETCONN_NONE))) in
  Done (am_err m).
Definition netconn_close (th : thread_id) (conn : loc) : thread W err_t := netconn_close_shutdown th conn NETCONN_SHUT_RDWR.
Definition netconn_shutdown (th : thread_id) (conn : loc) (shut_rx shut_tx : bool) : thread W err_t :=
  netconn_close_shutdown th conn
    (Z.lor (if shut_rx then NETCONN_SHUT_RD else 0) (if shut_tx then NETCONN_SHUT_WR else 0)).

(** ** Accepting and receiving *)

Definition waiting_add (conn : loc) (k : Z) : M W unit :=
  nc (update_netconn conn (λ c, c <| nc_mbox_threads_waiting := nc_mbox_threads_waiting c + k |>)).
Definition NETCONN_RECVMBOX_WAITABLE (c : netconn) : bool := NETCONN_MBOX_VALID c (nc_recvmbox c).
Definition NETCONN_ACCEPTMBOX_WAITABLE (c : netconn) : bool :=
  bool_decide (nc_acceptmbox c ≠ None)
  && negb (netconn_is_flag_set c (Z.lor NETCONN_FLAG_MBOXCLOSED NETCONN_FLAG_MBOXINVALID)).

(** A message of a mailbox; [None]: there is none now, and [block] says not to wait
    for one.  The netconn counts the thread from before it looks whether to wait. *)
Definition fetch_msg (conn : loc) (mbox : option loc) (block : netconn → bool) : thread W (option mbox_msg) :=
  step! waiting_add conn 1;
  act! c := the_netconn conn in
  run! msg := (if block c then Wait (nc (mbox_tryfetch mbox)) (λ m, Done (Some m))
               else act! m := nc (mbox_tryfetch mbox) in Done m) in
  step! waiting_add conn (-1);
  Done msg.

Definition netconn_accept (th : thread_id) (conn : loc) : thread W (err_t * option loc) :=
  act! err := netconn_err conn in
  if negb (is_ok err) then Done (err, None) else
  act! c := the_netconn conn in
  if negb (NETCONN_ACCEPTMBOX_WAITABLE c) then Done (ERR_CLSD, None) else
  run! msg := fetch_msg conn (nc_acceptmbox c) (λ c, negb (netconn_is_nonblocking c)) in
  match msg with
  | None => Done (ERR_WOULDBLOCK, None)
  | Some msg =>
    act! c := the_netconn conn in
    if netconn_is_flag_set c NETCONN_FLAG_MBOXINVALID && lwip_netconn_is_deallocated_msg msg then Done (ERR_CONN, None) else
    match lwip_netconn_is_err_msg msg with
    | Some err => Done (err, None)
    | None =>
      match msg with
      | Msg_ptr newconn =>
        then! apimsg_now th newconn (lwip_netconn_do_accepted th newconn);
        Done (ERR_OK, Some newconn)
      | Msg_null => Done (ERR_CLSD, None)
      | _ => Act (fail Undefined) Done
      end
    end
  end.

(** A packet, or [None] with ERR_OK for the end of the stream. *)
Definition netconn_recv_data (conn : loc) (apiflags : Z) : thread W (err_t * option loc) :=
  act! c := the_netconn conn in
  if negb (NETCONN_RECVMBOX_WAITABLE c) then
    act! err := netconn_err conn in
    Done (if is_ok err then ERR_CONN else err, None)
  else
  run! msg := fetch_msg conn (nc_recvmbox c) (λ c,
    negb (netconn_is_nonblocking c || has_bits apiflags NETCONN_DONTBLOCK
          || netconn_is_flag_set c NETCONN_FLAG_MBOXCLOSED || negb (is_ok (nc_pending_err c)))) in
  match msg with
  | None =>
    act! err := netconn_err conn in
    if negb (is_ok err) then Done (err, None) else
    act! c := the_netconn conn in
    Done (if netconn_is_flag_set c NETCONN_FLAG_MBOXCLOSED then ERR_CONN else ERR_WOULDBLOCK, None)
  | Some msg =>
    act! c := the_netconn conn in
    if netconn_is_flag_set c NETCONN_FLAG_MBOXINVALID && lwip_netconn_is_deallocated_msg msg then Done (ERR_CONN, None) else
    match lwip_netconn_is_err_msg msg with
    | Some ERR_CLSD => Done (ERR_OK, None)
    | Some err => Done (err, None)
    | None => match msg with Msg_ptr p => Done (ERR_OK, Some p) | _ => Act (fail Undefined) Done end
    end
  end.

(** The stack learns that data was taken. *)
Definition netconn_tcp_recvd (th : thread_id) (conn : loc) (len : Z) : thread W err_t :=
  apimsg_now th conn (lwip_netconn_do_recv th conn len).

(** [handle_fin:] *)
Definition handle_fin (th : thread_id) (conn : loc) : thread W (err_t * option loc) :=
  act! c := the_netconn conn in
  match nc_pcb c with
  | None => act! err := netconn_err conn in Done (if is_ok err then ERR_RST else err, None)
  | Some _ => then! netconn_close_shutdown th conn NETCONN_SHUT_RD; Done (ERR_CLSD, None)
  end.
Definition netconn_recv_data_tcp (th : thread_id) (conn : loc) (apiflags : Z) : thread W (err_t * option loc) :=
  act! c := the_netconn conn in
  if negb (NETCONN_RECVMBOX_WAITABLE c) then Done (ERR_CONN, None) else
  if netconn_is_flag_set c NETCONN_FIN_RX_PENDING then
    step! nc (netconn_clear_flags conn NETCONN_FIN_RX_PENDING); handle_fin th conn
  else
  run! '(err, buf) := netconn_recv_data conn apiflags in
  if negb (is_ok err) then Done (err, None) else
  then! (if negb (has_bits apiflags NETCONN_NOAUTORCVD) then
               act! len := (match buf with Some _ => st (tot_len_of buf) | None => ret 1 end) in
               then! netconn_tcp_recvd th conn len; Done tt
             else Done tt);
  match buf with
  | Some _ => Done (ERR_OK, buf)
  | None =>
    if has_bits apiflags NETCONN_NOFIN then
      step! nc (netconn_set_flags conn NETCONN_FIN_RX_PENDING); Done (ERR_WOULDBLOCK, None)
    else handle_fin th conn
  end.
Definition netconn_recv_tcp_pbuf_flags (th : thread_id) (conn : loc) (apiflags : Z) : thread W (err_t * option loc) :=
  netconn_recv_data_tcp th conn apiflags.

(** The packet in a network buffer. *)
Definition netconn_recv (th : thread_id) (conn : loc) : thread W (err_t * option loc) :=
  act! buf := st (memp_malloc MEMP_NETBUF) in
  match buf with
  | None => Done (ERR_MEM, None)
  | Some l =>
    run! '(err, p) := netconn_recv_data_tcp th conn 0 in
    if negb (is_ok err) then step! st (memp_free MEMP_NETBUF buf); Done (err, None) else
    step! (do! lwip_assert (bool_decide (p ≠ None)); set_netbuf l (mk_netbuf p p 0 0));
    Done (ERR_OK, buf)
  end.

(** ** Writing *)

(** The sum of the lengths, [None] when it overflows. *)
Fixpoint total_len (vectors : list netvector) (size : Z) : option Z :=
  match vectors with
  | [] => Some size
  | v :: vectors => let size := u64 (size + nv_len v) in if size <? nv_len v then None else total_len vectors size
  end.
(** [counted]: the caller wants to know how much was written; the result says it. *)
Definition netconn_write_vectors_partly (th : thread_id) (conn : loc) (vectors : list netvector) (apiflags : Z) (counted : bool) :
  thread W (err_t * Z) :=
  act! c := the_netconn conn in
  let dontblock := netconn_is_nonblocking c || has_bits apiflags NETCONN_DONTBLOCK in
  if dontblock && negb counted then Done (ERR_VAL, 0) else
  match total_len vectors 0 with
  | None => Done (ERR_VAL, 0)
  | Some size =>
    if size =? 0 then Done (ERR_OK, 0) else
    if (SSIZE_MAX <? size) && negb counted then Done (ERR_VAL, 0) else
    let size := Z.min size SSIZE_MAX in
    run! '(m, u) := netconn_apimsg th conn (λ m, m <| w_vectors := vectors |> <| w_apiflags := apiflags |> <| w_len := size |>)
                      (may_wait (lwip_netconn_do_write th conn)) (state_is conn (λ s, bool_decide (s ≠ NETCONN_WRITE))) in
    step! lwip_assert (negb (is_ok (am_err m)) || dontblock || (w_offset m =? size));
    Done (am_err m, w_offset m)
  end.
Definition netconn_write_partly (th : thread_id) (conn : loc) (dataptr : option ptr) (size apiflags : Z) (counted : bool) : thread W (err_t * Z) :=
  netconn_write_vectors_partly th conn [mk_netvector dataptr size] apiflags counted.
Definition netconn_write (th : thread_id) (conn : loc) (dataptr : option ptr) (size apiflags : Z) : thread W err_t :=
  run! '(err, n) := netconn_write_partly th conn dataptr size apiflags false in Done err.
End api.
