(* ===== verification/TcpConn.v ===== *)
(** * TCP connections for the application ([native/tcp.c])

    A listener that takes the connections to every port, and the connections it
    accepts, over the netconns of [NetconnApi].  Data is read from a connection in
    pieces of any size: what is left of a packet stays in [pending]. *)

From S2P Require Import Prelude Mbox Heap Pbuf PbufData Def Chksum Addr Timeouts Header Ip4 Tcp TcpOut TcpSend Netconn NetconnApi.

(** [struct tcp_conn_t] *)
Record tcp_conn_t := mk_tcp_conn {
  tc_conn : loc;
  tc_local : Z; tc_remote : Z; tc_local_port : Z; tc_remote_port : Z;
  tc_pending : option loc; tc_offset : Z
}.
#[export] Instance eta_tcp_conn : Eta tcp_conn_t := λ r,
  mk_tcp_conn (tc_conn r) (tc_local r) (tc_remote r) (tc_local_port r) (tc_remote_port r) (tc_pending r) (tc_offset r).
(** [struct tcp_listener_t] *)
Definition tcp_listener_t := loc.

Definition SIZEOF_TCP_CONN_T : Z := 48.
Definition SIZEOF_TCP_LISTENER_T : Z := 8.
Definition TCP_DEFAULT_LISTEN_BACKLOG : Z := 255.

(** The objects that the application holds. *)
Record conns := mk_conns { tcp_conns : gmap loc tcp_conn_t; tcp_listeners : gmap loc tcp_listener_t }.
#[export] Instance eta_conns : Eta conns := λ r, mk_conns (tcp_conns r) (tcp_listeners r).

Section conn.
Context {W : Type} `{!Part tstate W} `{!netif_driver W} `{!Part timeouts W} `{!timer_client W} `{!Part nstate W} `{!Part conns W}.

Abbreviation tc m := (lift (P := tstate) (S := W) m).
Abbreviation cn m := (lift (P := conns) (S := W) m).
Abbreviation st m := (lift (P := tstate) (S := W) (lift (P := ipstate) (lift (P := store) m))).

Definition get_tcp_conn (conn : loc) : M W tcp_conn_t := cn (ask (λ s, deref (tcp_conns s !! conn))).
Definition set_tcp_conn (conn : loc) (c : tcp_conn_t) : M W unit := cn (modify (λ s, s <| tcp_conns := <[conn := c]> (tcp_conns s) |>)).
Definition get_listener (l : loc) : M W loc := cn (ask (λ s, deref (tcp_listeners s !! l))).

(** ** Listening *)

(** [abort:] *)
Definition listen_abort (th : thread_id) (conn : option loc) : thread W (option loc) :=
  then! netconn_delete th conn; Done None.
(** A netconn that could not be made is a null pointer, which [netconn_bind]
    rejects by aborting. *)
Definition tcp_listener_listen (th : thread_id) : thread W (option loc) :=
  run! conn := netconn_new th in
  act! l := valid_ptr conn in
  run! err := netconn_bind th l (Some IPADDR_ANY) TCP_ACCEPT_ANY_PORT in
  if negb (is_ok err) then listen_abort th conn else
  act! idx := tc (gets (λ t, netif_get_index (global_if (t_ip t)))) in
  run! err := netconn_bind_if th l idx in
  if negb (is_ok err) then listen_abort th conn else
  run! err := netconn_listen_with_backlog th l TCP_DEFAULT_LISTEN_BACKLOG in
  if negb (is_ok err) then listen_abort th conn else
  act! listener := st (malloc SIZEOF_TCP_LISTENER_T) in
  act! a := valid_ptr listener in
  step! cn (modify (λ s, s <| tcp_listeners := <[a := l]> (tcp_listeners s) |>));
  Done (Some a).

(** A connection that was accepted, with its addresses: "local" is the other end
    of the connection of the stack.  [None]: the addresses could not be had. *)
Definition accepted_conn (th : thread_id) (new_conn : loc) : thread W (option loc) :=
  run! '(err, a) := netconn_getaddr th new_conn false in
  match a with
  | Some (local, local_port) =>
    if negb (is_ok err) then Done None else
    run! '(err, b) := netconn_getaddr th new_conn true in
    match b with
    | Some (remote, remote_port) =>
      if negb (is_ok err) then Done None else
      act! conn := st (malloc SIZEOF_TCP_CONN_T) in
      act! l := valid_ptr conn in
      step! set_tcp_conn l (mk_tcp_conn new_conn local remote local_port remote_port None 0);
      Done (Some l)
    | None => Done None
    end
  | None => Done None
  end.
(** [fuel]: how many connections are tried at most; those that have been closed
    again are dropped. *)
Fixpoint tcp_listener_accept_loop (fuel : nat) (th : thread_id) (conn : loc) : thread W (option loc) :=
  match fuel with
  | O => Act (fail OutOfFuel) Done
  | S fuel =>
    run! '(err, new_conn) := netconn_accept th conn in
    match new_conn with
    | Some nw =>
      if negb (is_ok err) then Done None else
      run! c := accepted_conn th nw in
      match c with
      | Some _ => Done c
      | None => then! netconn_delete th new_conn; tcp_listener_accept_loop fuel th conn
      end
    | None => Done None
    end
  end.
Definition tcp_listener_accept (fuel : nat) (th : thread_id) (listener : loc) : thread W (option loc) :=
  act! conn := get_listener listener in tcp_listener_accept_loop fuel th conn.

Definition tcp_listener_close (th : thread_id) (listener : loc) : thread W unit :=
  act! conn := get_listener listener in
  then! netconn_close th conn;
  then! netconn_prepare_delete th (Some conn);
  Done tt.
Definition tcp_listener_free (th : thread_id) (listener : loc) : thread W unit :=
  act! conn := get_listener listener in
  then! netconn_delete th (Some conn);
  step! cn (modify (λ s, s <| tcp_listeners := delete listener (tcp_listeners s) |>));
  step! st (free listener);
  Done tt.

(** ** Connections *)

(** [length], an [int], becomes a [u16_t] argument of [pbuf_copy_partial]. *)
Definition read_pending (conn : loc) (c : tcp_conn_t) (buf : loc) (data : list Z) (length : Z) : M W (Z * list Z) :=
  let! '(copied, data) := netbuf_copy_partial buf (Some data) (u16 length) (u16 (tc_offset c)) in
  let offset := tc_offset c + copied in
  let! len := netbuf_len buf in
  do! (if len <=? offset then
         do! netbuf_free buf;
         do! netbuf_delete (Some buf);
         set_tcp_conn conn (c <| tc_pending := None |> <| tc_offset := 0 |>)
       else set_tcp_conn conn (c <| tc_offset := offset |>));
  ret (copied, data).
(** A packet that has just been received. *)
Definition read_received (conn buf : loc) (data : list Z) (length : Z) : M W (Z * list Z) :=
  let! '(copied, data) := netbuf_copy_partial buf (Some data) (u16 length) 0 in
  let! len := netbuf_len buf in
  let! c := get_tcp_conn conn in
  do! (if copied <? len then set_tcp_conn conn (c <| tc_pending := Some buf |> <| tc_offset := copied |>)
       else do! netbuf_free buf; netbuf_delete (Some buf));
  ret (copied, data).
Definition tcp_conn_read (th : thread_id) (conn : loc) (data : list Z) (length : Z) : thread W (Z * list Z) :=
  act! c := get_tcp_conn conn in
  match tc_pending c with
  | Some buf => act! r := read_pending conn c buf data length in Done r
  | None =>
    run! '(err, buf) := netconn_recv th (tc_conn c) in
    match buf with
    | Some b => if negb (is_ok err) then Done (-1, data) else act! r := read_received conn b data length in Done r
    | None => Done (-1, data)
    end
  end.

(** [length], an [int], becomes a [size_t] argument. *)
Definition tcp_conn_write (th : thread_id) (conn : loc) (data : option ptr) (length : Z) : thread W Z :=
  act! c := get_tcp_conn conn in
  run! err := netconn_write th (tc_conn c) data (u64 length) NETCONN_COPY in
  Done (if is_ok err then length else -1).

Definition tcp_conn_local_addr (conn : loc) : M W (list Z * Z) :=
  let! c := get_tcp_conn conn in ret (addr_bytes (tc_local c), tc_local_port c).
Definition tcp_conn_remote_addr (conn : loc) : M W (list Z * Z) :=
  let! c := get_tcp_conn conn in ret (addr_bytes (tc_remote c), tc_remote_port c).

Definition tcp_conn_close (th : thread_id) (conn : loc) : thread W unit :=
  act! c := get_tcp_conn conn in
  then! netconn_close th (tc_conn c);
  then! netconn_prepare_delete th (Some (tc_conn c));
  Done tt.
(** The network buffer in [pending] is not deleted. *)
Definition tcp_conn_free (th : thread_id) (conn : loc) : thread W unit :=
  act! c := get_tcp_conn conn in
  step! (match tc_pending c with Some buf => netbuf_free buf | None => ret tt end);
  then! netconn_delete th (Some (tc_conn c));
  step! cn (modify (λ s, s <| tcp_conns := delete conn (tcp_conns s) |>));
  step! st (free conn);
  Done tt.
End conn.
