(* ===== verification/AppWorld.v ===== *)
(** * A process with connections, for the examples

    The stack, its timers, the netconns and the connections of the application as
    one state, over an interface that takes every packet. *)

From S2P Require Import Prelude Mbox Heap Pbuf Packet Frame Def Chksum Addr Timeouts Header Ip4 Tcp TcpOut TcpSend Netconn NetconnApi TcpConn.

Record app_world := mk_app_world { aw_tcp : tstate; aw_timers : timeouts; aw_net : nstate; aw_conns : conns }.
#[export] Instance eta_app_world : Eta app_world := λ r, mk_app_world (aw_tcp r) (aw_timers r) (aw_net r) (aw_conns r).
#[export] Program Instance part_aw_tcp : Part tstate app_world := { part_get := aw_tcp; part_set t w := w <| aw_tcp := t |> }.
Next Obligation. done. Qed.
Next Obligation. by intros []. Qed.
Next Obligation. done. Qed.
#[export] Program Instance part_aw_timers : Part timeouts app_world := { part_get := aw_timers; part_set t w := w <| aw_timers := t |> }.
Next Obligation. done. Qed.
Next Obligation. by intros []. Qed.
Next Obligation. done. Qed.
#[export] Program Instance part_aw_net : Part nstate app_world := { part_get := aw_net; part_set n w := w <| aw_net := n |> }.
Next Obligation. done. Qed.
Next Obligation. by intros []. Qed.
Next Obligation. done. Qed.
#[export] Program Instance part_aw_conns : Part conns app_world := { part_get := aw_conns; part_set a w := w <| aw_conns := a |> }.
Next Obligation. done. Qed.
Next Obligation. by intros []. Qed.
Next Obligation. done. Qed.

#[export] Instance aw_tcp_net : Apart tstate nstate app_world.
Proof. done. Qed.
#[export] Instance aw_tcp_conns : Apart tstate conns app_world.
Proof. done. Qed.
#[export] Instance aw_net_tcp : Apart nstate tstate app_world.
Proof. done. Qed.
#[export] Instance aw_net_conns : Apart nstate conns app_world.
Proof. done. Qed.
#[export] Instance aw_net_timers : Apart nstate timeouts app_world.
Proof. done. Qed.
#[export] Instance aw_tcp_timers : Apart tstate timeouts app_world.
Proof. done. Qed.
#[export] Instance aw_conns_tcp : Apart conns tstate app_world.
Proof. done. Qed.
#[export] Instance aw_conns_net : Apart conns nstate app_world.
Proof. done. Qed.

#[export] Instance aw_driver : netif_driver app_world := { netif_output _ _ := ret ERR_OK }.
#[export] Program Instance aw_timer_client : timer_client app_world := {
  Timeouts.tcp_tmr := ret tt; cyclic_interval_ms _ := 1; cyclic_handler _ := ret tt; other_timer _ _ := ret tt;
  tcp_pcbs_exist w := negb (bool_decide (tcp_active_pcbs (aw_tcp w) = [])) || negb (bool_decide (tcp_tw_pcbs (aw_tcp w) = []))
}.
Next Obligation. done. Qed.

(** No control blocks and no netconns; the heap is given. *)
Definition ex_no_objects : nstate := mk_nstate ∅ ∅ ∅ ∅ ∅ ERR_OK.
Definition ex_tcp_over (s : store) (blks : gmap loc pcb_block) : tstate :=
  mk_tstate (mk_ipstate s (mk_netif 16777482 0 0 1500 5 0) true no_packet 7) blks ∅ [] [] [] [] false 0 0 0 0 6510 None 0 no_segment.
Definition ex_timers : timeouts := mk_timeouts [] 0 false 1000 [].
