(* ===== verification/TcpEnv.v ===== *)
(** * TCP: what a call of TCP leaves alone in the rest of the process

    Every function of [core/tcp.c], [core/tcp_in.c] and [core/tcp_out.c] is made of
    steps on TCP's own state, calls of the driver, the timer of TCP and the
    callbacks of the application.  So a relation that those parts respect is
    respected by every call ([env_tcp_call]).  Of TCP's own state only one thing is
    of use to the rest: the heap never gives out an address again. *)

From S2P Require Import Prelude Mbox Heap HeapFacts Pbuf PbufData Frame Def Chksum Addr Timeouts Header Ip4 Tcp TcpTmr TcpFrame TcpLists TcpCalls TcpOpen TcpOut TcpSend TcpOutFrame TcpIn TcpInFrame TcpKept TcpInCalls TcpInput TcpApi.

Implicit Types t : tstate.

(** ** The heap under TCP *)

Abbreviation heap_grows := (on_part (P := ipstate) (S := tstate) (on_part (P := store) store_grows)).

Lemma heap_refl t : heap_grows t t.
Proof. reflexivity. Qed.
Lemma heap_same {A} (m : M tstate A) : stable same_tcp m → stable heap_grows m.
Proof. apply stable_weaken. intros t t' S. exact (same_next _ _ S). Qed.
#[export] Hint Extern 0 (heap_grows ?t _) => exact (heap_refl t) : core.
#[export] Hint Extern 3 (stable heap_grows _) => apply heap_same : stable.
Lemma heap_update_tcp l f : stable heap_grows (update_tcp l f).
Proof. intros t. unfold yields, update_tcp. destruct (get_tcp t l); [exact (heap_refl t)|done]. Qed.
Lemma heap_update_lpcb l f : stable heap_grows (update_lpcb l f).
Proof. intros t. unfold yields, update_lpcb. destruct (get_lpcb t l); [exact (heap_refl t)|done]. Qed.
#[export] Hint Resolve heap_update_tcp heap_update_lpcb : stable.
Lemma heap_RMV k l : stable heap_grows (TCP_RMV k l).
Proof. unfold TCP_RMV. stable_tac. case_decide; by destruct k. Qed.
Lemma heap_set_changed b : stable heap_grows (set_changed b).
Proof. by apply stable_modify. Qed.
Lemma heap_reg_link k l : stable heap_grows (tcp_reg_link k l).
Proof. unfold tcp_reg_link. stable_tac. by destruct k. Qed.
Lemma heap_release ty l : stable heap_grows (release_pcb ty l).
Proof. unfold release_pcb. stable_tac. done. Qed.
#[export] Hint Resolve heap_RMV heap_set_changed heap_reg_link heap_release : stable.
Lemma heap_free l : stable heap_grows (tcp_free l).
Proof. unfold tcp_free. stable_tac. Qed.
Lemma heap_free_listen l : stable heap_grows (tcp_free_listen l).
Proof. unfold tcp_free_listen. stable_tac. Qed.
Lemma heap_RMV_ACTIVE l : stable heap_grows (TCP_RMV_ACTIVE l).
Proof. unfold TCP_RMV_ACTIVE. stable_tac. Qed.
Lemma heap_listen_closed l : stable heap_grows (tcp_listen_closed l).
Proof. unfold tcp_listen_closed. pose proof same_remove_listener. stable_tac. Qed.
Lemma heap_set_recv_flag f : stable heap_grows (set_recv_flag f).
Proof. by apply stable_modify. Qed.
Lemma heap_trigger_close : stable heap_grows tcp_trigger_input_pcb_close.
Proof. by apply stable_modify. Qed.
#[export] Hint Resolve heap_free heap_free_listen heap_RMV_ACTIVE heap_listen_closed heap_set_recv_flag heap_trigger_close : stable.
Lemma heap_slow_ooseq l : stable heap_grows (slow_ooseq l).
Proof. unfold slow_ooseq. stable_tac. Qed.
Lemma heap_unlink k q l : stable heap_grows (unlink k q l).
Proof. unfold unlink. stable_tac; by destruct k. Qed.
#[export] Hint Resolve heap_slow_ooseq heap_unlink : stable.
Lemma heap_tw_loop fuel : ∀ q l, stable heap_grows (tw_loop fuel q l).
Proof. induction fuel; intros q [l|]; cbn [tw_loop]; stable_tac. Qed.
Lemma heap_take_ooseq l s : stable heap_grows (take_ooseq l s).
Proof. unfold take_ooseq. stable_tac. Qed.
#[export] Hint Resolve heap_tw_loop heap_take_ooseq : stable.
Lemma heap_deliver_ooseq l k : stable heap_grows (deliver_ooseq l k).
Proof. induction k; cbn [deliver_ooseq]; stable_tac. Qed.
Lemma heap_process_rst l : stable heap_grows (process_rst l).
Proof. unfold process_rst. stable_tac. Qed.
Lemma heap_rcv_trim l : stable heap_grows (rcv_trim l).
Proof. unfold rcv_trim. stable_tac. Qed.
Lemma heap_to_front k l : stable heap_grows (to_front k l).
Proof. apply stable_modify. intros t. by destruct k. Qed.
Lemma heap_find_active a b l : stable heap_grows (find_active a b l).
Proof. induction l; cbn [find_active]; stable_tac. Qed.
Lemma heap_find_tw a b l : stable heap_grows (find_tw a b l).
Proof. induction l; cbn [find_tw]; stable_tac. Qed.
Lemma heap_find_listen a l : stable heap_grows (find_listen a l).
Proof. induction l; cbn [find_listen]; stable_tac. Qed.
#[export] Hint Resolve heap_deliver_ooseq heap_process_rst heap_rcv_trim heap_to_front heap_find_active heap_find_tw heap_find_listen : stable.
Lemma heap_demux a b : stable heap_grows (tcp_demux a b).
Proof. unfold tcp_demux. stable_tac. Qed.
#[export] Hint Resolve heap_demux : stable.
Lemma heap_refuse_data l a b : stable heap_grows (refuse_data l a b).
Proof. unfold refuse_data. stable_tac. Qed.
#[export] Hint Resolve heap_refuse_data same_write : stable.

(** The errors with which TCP tells the application that a block is gone. *)
Definition fatal (err : err_t) : Prop := err = ERR_ABRT ∨ err = ERR_RST ∨ err = ERR_CLSD.

(** ** The whole state *)

Section env.
Context {W : Type} `{!Part tstate W} `{!netif_driver W} `{!Part timeouts W} `{!timer_client W}.
Context (R : W → W → Prop) `{!PreOrder R}.

Abbreviation tc m := (lift (P := tstate) (S := W) m).

Hypothesis R_tcp : ∀ A (m : M tstate A), stable heap_grows m → stable R (tc m).
Hypothesis R_driver : ∀ p d, stable R (netif_output (W := W) p d).

#[local] Existing Instance tcp_ip_part.
Lemma R_ip {A} (m : M ipstate A) : stable (on_part store_grows) m → stable R (lift (P := ipstate) (S := W) m).
Proof.
  intros Hm w. pose proof (R_tcp A (lift (P := ipstate) m) (stable_part _ _ Hm) w) as H. unfold yields, lift in *. simpl in *.
  by destruct (m _) as [[a i]|].
Qed.
Ltac env_step := match goal with
  | |- stable _ (lift (P := tstate) _) => apply R_tcp; try solve [auto 4 with stable]
  | |- stable _ (lift (P := ipstate) (S := W) _) => apply R_ip
  | |- _ => stable_step
  end.
Ltac env_tac := repeat env_step; try done.
#[local] Hint Resolve R_driver same_write_ip_header : stable.

(** *** Output *)

Lemma env_check_ref p : stable R (LWIP_IP_CHECK_PBUF_REF_COUNT_FOR_TX p).
Proof. unfold LWIP_IP_CHECK_PBUF_REF_COUNT_FOR_TX. env_tac. Qed.
#[local] Hint Resolve env_check_ref : stable.
Lemma env_ip4_output_if p a b c d e : stable R (ip4_output_if p a b c d e).
Proof. unfold ip4_output_if, ip4_output_if_src. env_tac. Qed.
#[local] Hint Resolve env_ip4_output_if : stable.
Lemma env_control_segment l p a b : stable R (tcp_output_control_segment l p a b).
Proof. unfold tcp_output_control_segment. env_tac. Qed.
#[local] Hint Resolve env_control_segment : stable.
Lemma env_rst l a b c d e f : stable R (TcpSend.tcp_rst l a b c d e f).
Proof. unfold TcpSend.tcp_rst. env_tac. Qed.
Lemma env_send_empty_ack l : stable R (tcp_send_empty_ack l).
Proof. unfold tcp_send_empty_ack. env_tac. Qed.
Lemma env_keepalive l : stable R (TcpSend.tcp_keepalive l).
Proof. unfold TcpSend.tcp_keepalive. env_tac. Qed.
Lemma env_zero_window_probe l : stable R (TcpSend.tcp_zero_window_probe l).
Proof. unfold TcpSend.tcp_zero_window_probe. env_tac. Qed.
Lemma env_output_segment s l b : stable R (tcp_output_segment s l b).
Proof. unfold tcp_output_segment. env_tac. Qed.
#[local] Hint Resolve env_rst env_send_empty_ack env_keepalive env_zero_window_probe env_output_segment : stable.
Lemma env_output_loop fuel : ∀ l x y, stable R (tcp_output_loop fuel l x y).
Proof. induction fuel; intros l x y; cbn [tcp_output_loop]; env_tac. Qed.
#[local] Hint Resolve env_output_loop : stable.
Lemma env_output l : stable R (TcpSend.tcp_output l).
Proof. unfold TcpSend.tcp_output, ack_or_done, start_persist. env_tac. Qed.
#[local] Hint Resolve env_output : stable.
Lemma env_rexmit_rto_commit l : stable R (TcpSend.tcp_rexmit_rto_commit l).
Proof. unfold TcpSend.tcp_rexmit_rto_commit, incr_nrtx. env_tac. Qed.
#[local] Hint Resolve env_rexmit_rto_commit : stable.
Lemma env_rexmit_rto l : stable R (tcp_rexmit_rto l).
Proof. unfold tcp_rexmit_rto. env_tac. Qed.
#[local] Hint Resolve env_rexmit_rto : stable.

(** The operations of [tcp_out], by the names that [core/tcp.c] uses. *)
Lemma env_out_output l : stable R (Tcp.tcp_output l).
Proof. apply env_output. Qed.
Lemma env_out_fin l : stable R (Tcp.tcp_send_fin l).
Proof. apply R_tcp. stable_tac. Qed.
Lemma env_out_enqueue l f : stable R (Tcp.tcp_enqueue_flags l f).
Proof. apply R_tcp. stable_tac. Qed.
Lemma env_out_rst l a b c d e f : stable R (Tcp.tcp_rst l a b c d e f).
Proof. apply env_rst. Qed.
Lemma env_out_probe l : stable R (Tcp.tcp_zero_window_probe l).
Proof. apply env_zero_window_probe. Qed.
Lemma env_out_split l n : stable R (Tcp.tcp_split_unsent_seg l n).
Proof. apply R_tcp. stable_tac. Qed.
Lemma env_out_keepalive l : stable R (Tcp.tcp_keepalive l).
Proof. apply env_keepalive. Qed.
Lemma env_out_prepare l : stable R (Tcp.tcp_rexmit_rto_prepare l).
Proof. apply R_tcp. stable_tac. Qed.
Lemma env_out_commit l : stable R (Tcp.tcp_rexmit_rto_commit l).
Proof. apply env_rexmit_rto_commit. Qed.
#[local] Hint Resolve env_out_output env_out_fin env_out_enqueue env_out_rst env_out_probe env_out_split env_out_keepalive
  env_out_prepare env_out_commit : stable.

(** *** The interface *)

Context `{!tcp_client W}.
Hypothesis R_timers : ∀ A (m : M timeouts A), stable R (lift (S := W) m).
(** What the callbacks of the application have to respect. *)
Record client_respects : Prop := {
  env_recv_tcp a pcb p err : stable R (recv_tcp a pcb p err);
  env_sent_tcp a pcb n : stable R (sent_tcp a pcb n);
  env_poll_tcp a pcb : stable R (poll_tcp a pcb);
  env_err_tcp a err : fatal err → stable R (err_tcp a err);
  env_accept_function a pcb err : stable R (accept_function a pcb err);
  env_do_connected a pcb err : stable R (do_connected a pcb err)
}.
Hypothesis R_client : client_respects.
#[local] Hint Extern 1 (stable R (recv_tcp _ _ _ _)) => apply (env_recv_tcp R_client) : stable.
#[local] Hint Extern 1 (stable R (sent_tcp _ _ _)) => apply (env_sent_tcp R_client) : stable.
#[local] Hint Extern 1 (stable R (poll_tcp _ _)) => apply (env_poll_tcp R_client) : stable.
#[local] Hint Extern 1 (stable R (err_tcp _ _)) => apply (env_err_tcp R_client) : stable.
#[local] Hint Extern 1 (fatal _) => unfold fatal; auto : stable.
#[local] Hint Extern 1 (stable R (accept_function _ _ _)) => apply (env_accept_function R_client) : stable.
#[local] Hint Extern 1 (stable R (do_connected _ _ _)) => apply (env_do_connected R_client) : stable.

Lemma env_pcb_remove k l : stable R (tcp_pcb_remove k l).
Proof. unfold tcp_pcb_remove. env_tac. Qed.
#[local] Hint Resolve env_pcb_remove : stable.
Lemma env_REMOVE_ACTIVE l : stable R (TCP_PCB_REMOVE_ACTIVE l).
Proof. unfold TCP_PCB_REMOVE_ACTIVE. env_tac. Qed.
#[local] Hint Resolve env_REMOVE_ACTIVE : stable.
Lemma env_EVENT_ERR f a err : fatal err → stable R (TCP_EVENT_ERR f a err).
Proof. intros Hf. unfold TCP_EVENT_ERR. env_tac. Qed.
Lemma env_EVENT_POLL l : stable R (TCP_EVENT_POLL l).
Proof. unfold TCP_EVENT_POLL. env_tac. Qed.
Lemma env_EVENT_SENT l n : stable R (TCP_EVENT_SENT l n).
Proof. unfold TCP_EVENT_SENT. env_tac. Qed.
Lemma env_EVENT_CONNECTED l err : stable R (TCP_EVENT_CONNECTED l err).
Proof. unfold TCP_EVENT_CONNECTED. env_tac. Qed.
#[local] Hint Resolve env_EVENT_ERR env_EVENT_POLL env_EVENT_SENT env_EVENT_CONNECTED : stable.

Lemma env_send_fin_to l acc s : stable R (send_fin_to l acc s).
Proof. unfold send_fin_to. env_tac. Qed.
#[local] Hint Resolve env_send_fin_to : stable.
Lemma env_close_shutdown_fin l : stable R (tcp_close_shutdown_fin l).
Proof. unfold tcp_close_shutdown_fin. env_tac. Qed.
#[local] Hint Resolve env_close_shutdown_fin : stable.
Lemma env_close_shutdown l r : stable R (tcp_close_shutdown l r).
Proof. unfold tcp_close_shutdown, tcp_rst_pcb. env_tac. Qed.
#[local] Hint Resolve env_close_shutdown : stable.
Lemma env_close l : stable R (tcp_close l).
Proof. unfold tcp_close. env_tac. Qed.
Lemma env_shutdown l rx tx : stable R (tcp_shutdown l rx tx).
Proof. unfold tcp_shutdown. env_tac. Qed.
Lemma env_abandon l r : stable R (tcp_abandon l r).
Proof. unfold tcp_abandon, tcp_rst_pcb. env_tac. Qed.
#[local] Hint Resolve env_close env_shutdown env_abandon : stable.
Lemma env_abort l : stable R (tcp_abort l).
Proof. apply env_abandon. Qed.
#[local] Hint Resolve env_abort : stable.
Lemma env_accept_null l : stable R (tcp_accept_null l).
Proof. unfold tcp_accept_null. env_tac. Qed.
#[local] Hint Resolve env_accept_null : stable.
Lemma env_EVENT_ACCEPT l p a err : stable R (TCP_EVENT_ACCEPT l p a err).
Proof. unfold TCP_EVENT_ACCEPT. env_tac. Qed.
Lemma env_recved l n : stable R (tcp_recved l n).
Proof. unfold tcp_recved. env_tac. Qed.
#[local] Hint Resolve env_recved : stable.
Lemma env_recv_null l p err : stable R (tcp_recv_null l p err).
Proof. unfold tcp_recv_null. env_tac. Qed.
#[local] Hint Resolve env_recv_null : stable.
Lemma env_EVENT_RECV l p err : stable R (TCP_EVENT_RECV l p err).
Proof. unfold TCP_EVENT_RECV. env_tac. Qed.
Lemma env_EVENT_CLOSED l : stable R (TCP_EVENT_CLOSED l).
Proof. unfold TCP_EVENT_CLOSED. env_tac. Qed.
#[local] Hint Resolve env_EVENT_ACCEPT env_EVENT_RECV env_EVENT_CLOSED : stable.
Lemma env_refused_loop fuel l : stable R (process_refused_loop fuel l).
Proof. induction fuel; cbn [process_refused_loop]; env_tac. Qed.
#[local] Hint Resolve env_refused_loop : stable.
Lemma env_process_refused_data l : stable R (tcp_process_refused_data l).
Proof. unfold tcp_process_refused_data. env_tac. Qed.
#[local] Hint Resolve env_process_refused_data : stable.

Lemma env_for_list k body : (∀ l, stable R (body l)) → stable R (for_list (W := W) k body).
Proof.
  intros Hb. unfold for_list. env_tac. match goal with |- stable _ (for_pcbs ?n _ ?p) => generalize n, p end.
  intros fuel. induction fuel; intros [l|]; cbn [for_pcbs]; env_tac.
Qed.
Lemma env_txnow : stable R tcp_txnow.
Proof. apply env_for_list. intros l. env_tac. Qed.
Lemma env_retry_close l : stable R (retry_close l).
Proof. unfold retry_close. env_tac. Qed.
#[local] Hint Resolve env_retry_close : stable.
Lemma env_handle_closepend : stable R tcp_handle_closepend.
Proof. apply env_for_list. intros l. env_tac. Qed.
Lemma env_netif_pcblist a k : stable R (tcp_netif_ip_addr_changed_pcblist a k).
Proof. apply env_for_list. intros l. env_tac. Qed.
#[local] Hint Resolve env_netif_pcblist env_handle_closepend : stable.
Lemma env_ip_addr_changed a b : stable R (tcp_netif_ip_addr_changed a b).
Proof. unfold tcp_netif_ip_addr_changed. pose proof same_listeners_readdress. env_tac. Qed.
Lemma env_kill_prio n : stable R (tcp_kill_prio n).
Proof. unfold tcp_kill_prio. env_tac. Qed.
Lemma env_kill_state n : stable R (tcp_kill_state n).
Proof. unfold tcp_kill_state. env_tac. Qed.
Lemma env_kill_timewait : stable R tcp_kill_timewait.
Proof. unfold tcp_kill_timewait. env_tac. Qed.
#[local] Hint Resolve env_kill_prio env_kill_state env_kill_timewait : stable.
Lemma env_alloc_or l : Forall (stable R) l → stable R (alloc_or l).
Proof. induction 1; cbn [alloc_or]; env_tac. Qed.
Lemma env_alloc prio : stable R (tcp_alloc prio).
Proof.
  unfold tcp_alloc. env_tac. apply env_alloc_or. repeat constructor; env_tac.
Qed.
Lemma env_timer_needed : stable R (tcp_timer_needed (W := W)).
Proof. unfold tcp_timer_needed. env_tac; apply R_timers. Qed.
#[local] Hint Resolve env_timer_needed : stable.
Lemma env_REG k l : stable R (TCP_REG k l).
Proof. unfold TCP_REG. env_tac. Qed.
#[local] Hint Resolve env_REG : stable.
Lemma env_REG_ACTIVE l : stable R (TCP_REG_ACTIVE l).
Proof. unfold TCP_REG_ACTIVE. env_tac. Qed.
#[local] Hint Resolve env_REG_ACTIVE : stable.
Lemma env_bind l ip port : stable R (tcp_bind l ip port).
Proof. unfold tcp_bind, tcp_bind_port. pose proof same_new_port. env_tac. Qed.
Lemma env_listen l n : stable R (tcp_listen_with_backlog l n).
Proof. unfold tcp_listen_with_backlog, tcp_listen_with_backlog_and_err. env_tac. Qed.
Lemma env_connect l ip port f : stable R (tcp_connect l ip port f).
Proof. unfold tcp_connect. pose proof same_new_port. env_tac. Qed.

(** ** The timers *)

Lemma env_delayed_ack l : stable R (delayed_ack l).
Proof. unfold delayed_ack. env_tac. Qed.
#[local] Hint Resolve env_delayed_ack : stable.
Lemma env_fasttmr_pcb l : stable R (fasttmr_pcb l).
Proof. unfold fasttmr_pcb. env_tac. Qed.
#[local] Hint Resolve env_fasttmr_pcb : stable.
Lemma env_fast_turn l : stable R (fast_turn l).
Proof. unfold fast_turn. env_tac. Qed.
#[local] Hint Resolve env_fast_turn : stable.
Lemma env_fasttmr_loop fuel : ∀ l, stable R (fasttmr_loop fuel l).
Proof. induction fuel; intros [l|]; cbn [fasttmr_loop]; env_tac. Qed.
Lemma env_slow_persist l : stable R (slow_persist l).
Proof. unfold slow_persist, persist_next_slot. env_tac. Qed.
Lemma env_slow_rexmit l : stable R (slow_rexmit l).
Proof. unfold slow_rexmit, backed_off_rto. env_tac. Qed.
#[local] Hint Resolve env_fasttmr_loop env_slow_persist env_slow_rexmit : stable.
Lemma env_slow_output l : stable R (slow_output l).
Proof. unfold slow_output. env_tac. Qed.
Lemma env_slow_keepalive l : stable R (slow_keepalive l).
Proof. unfold slow_keepalive. env_tac. Qed.
#[local] Hint Resolve env_slow_output env_slow_keepalive : stable.
Lemma env_slow_checks l : stable R (slow_checks l).
Proof. unfold slow_checks. env_tac. Qed.
#[local] Hint Resolve env_slow_checks : stable.
Lemma env_slow_remove q l r : stable R (slow_remove q l r).
Proof. unfold slow_remove. env_tac. Qed.
Lemma env_slow_poll l : stable R (slow_poll l).
Proof. unfold slow_poll. env_tac. Qed.
#[local] Hint Resolve env_slow_remove env_slow_poll : stable.
Lemma env_slow_turn q l : stable R (slow_turn q l).
Proof. unfold slow_turn, slow_assert. env_tac. Qed.
#[local] Hint Resolve env_slow_turn : stable.
Lemma env_slowtmr_loop fuel : ∀ q l, stable R (slowtmr_loop fuel q l).
Proof. induction fuel; intros q [l|]; cbn [slowtmr_loop]; env_tac. Qed.
#[local] Hint Resolve env_slowtmr_loop : stable.
Lemma env_tmr fuel : stable R (tcp_tmr fuel).
Proof. unfold tcp_tmr, tcp_fasttmr, tcp_slowtmr, tick_ctr. env_tac. Qed.

(** *** Input *)

Lemma env_rcv_ack l : stable R (rcv_ack l).
Proof. unfold rcv_ack. env_tac. Qed.
Lemma env_in_order l : stable R (rcv_in_order l).
Proof. unfold rcv_in_order. env_tac. Qed.
#[local] Hint Resolve env_rcv_ack env_in_order : stable.
Lemma env_rcv_data l : stable R (rcv_data l).
Proof. unfold rcv_data. env_tac. Qed.
#[local] Hint Resolve env_rcv_data : stable.
Lemma env_receive l : stable R (tcp_receive l).
Proof. unfold tcp_receive. env_tac. Qed.
Lemma env_reset_segment l : stable R (reset_segment l).
Proof. unfold reset_segment. env_tac. Qed.
#[local] Hint Resolve env_receive env_reset_segment : stable.
Lemma env_syn_sent l : stable R (process_syn_sent l).
Proof. unfold process_syn_sent. env_tac. Qed.
Lemma env_accept_connection l : stable R (accept_connection l).
Proof. unfold accept_connection. env_tac. Qed.
#[local] Hint Resolve env_syn_sent env_accept_connection : stable.
Lemma env_syn_rcvd l : stable R (process_syn_rcvd l).
Proof. unfold process_syn_rcvd. env_tac. Qed.
Lemma env_to_time_wait l : stable R (to_time_wait l).
Proof. unfold to_time_wait. env_tac. Qed.
#[local] Hint Resolve env_syn_rcvd env_to_time_wait : stable.
Lemma env_process_state l : stable R (process_state l).
Proof. unfold process_state. env_tac. Qed.
#[local] Hint Resolve env_process_state : stable.
Lemma env_process l : stable R (tcp_process l).
Proof. unfold tcp_process. env_tac. Qed.
Lemma env_answer_syn l : stable R (answer_syn l).
Proof. unfold answer_syn. env_tac. Qed.
#[local] Hint Resolve env_process env_answer_syn env_alloc : stable.
Lemma env_accept_syn l : stable R (accept_syn l).
Proof. unfold accept_syn. env_tac. Qed.
#[local] Hint Resolve env_accept_syn : stable.
Lemma env_listen_input l : stable R (tcp_listen_input l).
Proof. unfold tcp_listen_input. env_tac. Qed.
Lemma env_timewait_input l : stable R (tcp_timewait_input l).
Proof. unfold tcp_timewait_input. env_tac. Qed.
Lemma env_delayed_close l : stable R (tcp_input_delayed_close l).
Proof. unfold tcp_input_delayed_close. env_tac. Qed.
Lemma env_report_acked fuel : ∀ l n, stable R (report_acked fuel l n).
Proof. induction fuel; intros l n; cbn [report_acked]; env_tac. Qed.
#[local] Hint Resolve env_listen_input env_timewait_input env_delayed_close env_report_acked : stable.
Lemma env_input_sent l : stable R (tcp_input_sent l).
Proof. unfold tcp_input_sent. env_tac. Qed.
Lemma env_input_recv fuel : ∀ l, stable R (tcp_input_recv fuel l).
Proof. induction fuel; intros l; cbn [tcp_input_recv]; env_tac. Qed.
Lemma env_input_fin l : stable R (tcp_input_fin l).
Proof. unfold tcp_input_fin. env_tac. Qed.
#[local] Hint Resolve env_input_sent env_input_recv env_input_fin : stable.
Lemma env_input_finish l : stable R (tcp_input_finish l).
Proof. unfold tcp_input_finish. env_tac. Qed.
Lemma env_input_refused l : stable R (tcp_input_refused l).
Proof. unfold tcp_input_refused. env_tac. Qed.
#[local] Hint Resolve env_input_finish env_input_refused : stable.
Lemma env_input_active p l : stable R (tcp_input_active p l).
Proof. unfold tcp_input_active. env_tac. Qed.
#[local] Hint Resolve env_input_active : stable.
Lemma env_input p : stable R (TcpIn.tcp_input p).
Proof. unfold TcpIn.tcp_input. env_tac. Qed.
#[local] Hint Resolve env_input env_tmr env_connect env_listen env_bind env_alloc env_kill_prio env_ip_addr_changed env_txnow : stable.

Lemma env_tcp_call c : stable R (run_tcp_call c).
Proof.
  destruct c; cbn [run_tcp_call]; unfold tcp_init, tcp_bind_netif, tcp_backlog_set, tcp_arg, tcp_recv, tcp_sent,
    tcp_err, tcp_accept, tcp_poll, set_callback, tcp_setprio, tcp_new_ip_type; env_tac.
Qed.
End env.
