(* ===== verification/NetconnCalls.v ===== *)
(** * Netconns: a call that waits, and the rest of the stack

    A thread that sleeps in a write left its message in the netconn.  Until a
    callback of TCP finishes the call and signals the thread, nothing that TCP and
    the callbacks do takes the call away ([in_call]): the netconn goes on to say
    that this thread writes, or the thread has its signal and the result. *)

From S2P Require Import Prelude Mbox Heap Pbuf PbufData Frame Def Chksum Addr Timeouts Header Ip4 Tcp TcpFrame TcpOut TcpSend TcpOutFrame TcpInCalls TcpApi TcpEnv Netconn.

Implicit Types n : nstate.

(** What was true before is true after. *)
Definition preserves {S} (I : S → Prop) : S → S → Prop := λ s s', I s → I s'.
#[export] Instance preserves_preorder {S} (I : S → Prop) : PreOrder (preserves I).
Proof. split; [by intros s H|]. intros a b c H1 H2 H. by apply H2, H1. Qed.
Lemma preserves_stable {S A} (I : S → Prop) (m : M S A) : (∀ s, I s → yields m s (λ _ s', I s')) → stable (preserves I) m.
Proof. intros H s. pose proof (H s) as Hs. unfold yields in *. destruct (m s) as [[a s']|]; [exact Hs|done]. Qed.
Lemma stable_preserves {S A} (I : S → Prop) (m : M S A) s : stable (preserves I) m → I s → yields m s (λ _ s', I s').
Proof. intros H Hs. eapply yields_mono; [apply H|]. intros a s' Hp. by apply Hp. Qed.

Lemma flag_test c k : 0 ≤ k → netconn_is_flag_set c (2 ^ k) = Z.testbit (nc_flags c) k.
Proof. apply bit_test. Qed.
(** Neither of the flags that say that a call does not wait. *)
Definition same_waits (c c' : netconn) : Prop :=
  ∀ k, k = 1 ∨ k = 2 → Z.testbit (nc_flags c') k = Z.testbit (nc_flags c) k.
Lemma waits_nonblocking c c' : same_waits c c' → netconn_is_nonblocking c' = netconn_is_nonblocking c.
Proof. intros H. unfold netconn_is_nonblocking, NETCONN_FLAG_NON_BLOCKING. change 2 with (2 ^ 1). rewrite !flag_test by lia. apply H. by left. Qed.
Lemma waits_connect c c' : same_waits c c' → IN_NONBLOCKING_CONNECT c' = IN_NONBLOCKING_CONNECT c.
Proof. intros H. unfold IN_NONBLOCKING_CONNECT, NETCONN_FLAG_IN_NONBLOCKING_CONNECT. change 4 with (2 ^ 2). rewrite !flag_test by lia. apply H. by right. Qed.
Lemma clear_bit f k : Z.land f 6 = 0 → k = 1 ∨ k = 2 → Z.testbit f k = false.
Proof.
  intros Hf Hk. assert (Z.testbit (Z.land f 6) k = false) as H by (rewrite Hf; apply Z.bits_0). rewrite Z.land_spec in H.
  by destruct Hk as [-> | ->]; change (Z.testbit 6 _) with true in H; rewrite andb_true_r in H.
Qed.
Lemma waits_set c f : Z.land f 6 = 0 → same_waits c (c <| nc_flags := u8 (Z.lor (nc_flags c) f) |>).
Proof.
  intros Hf k Hk. simpl. rewrite flags_lor, (clear_bit f k) by (done || lia). apply orb_false_r.
Qed.
Lemma waits_clear c f : Z.land f 6 = 0 → 0 ≤ f < 256 → same_waits c (c <| nc_flags := u8 (Z.land (nc_flags c) (Z.land (Z.lnot f) 255)) |>).
Proof.
  intros Hf Hr k Hk. simpl. unfold u8. rewrite Z.mod_pow2_bits_low by lia. rewrite !Z.land_spec, Z.lnot_spec by lia.
  rewrite (clear_bit f k) by done. destruct Hk as [-> | ->]; apply andb_true_r.
Qed.

Section call.
(** The thread [th] writes [len] bytes to [conn]. *)
Context (conn : loc) (th : thread_id) (len : Z).

Definition writes (c : netconn) : Prop :=
  nc_state c = NETCONN_WRITE ∧ nc_current_msg c = Some th ∧ nc_pcb c ≠ None ∧ netconn_is_nonblocking c = false.
Definition to_write (m : api_msg) : Prop := w_len m = len ∧ has_bits (w_apiflags m) NETCONN_DONTBLOCK = false.
(** A success says that every byte was taken. *)
Definition finished (m : api_msg) : Prop := w_len m = len ∧ (am_err m = ERR_OK → w_offset m = len).

Definition writing n : Prop :=
  (∃ c, netconns n !! conn = Some c ∧ writes c) ∧ ∃ m, api_msgs n !! th = Some m ∧ to_write m.
(** Asleep: the semaphore was not signalled yet. *)
Definition sleeping n : Prop :=
  writing n ∧ (∀ c, netconns n !! conn = Some c → IN_NONBLOCKING_CONNECT c = false) ∧ sem_of n th = 0.
(** The call is over, with a message that satisfies [E], and the thread signalled. *)
Definition woken (E : api_msg → Prop) n : Prop :=
  (∃ c, netconns n !! conn = Some c ∧ nc_state c ≠ NETCONN_WRITE ∧ nc_current_msg c ≠ Some th) ∧
  (∃ m, api_msgs n !! th = Some m ∧ E m) ∧ sem_of n th = 1.
(** A thread is in one call at a time. *)
Definition sole_call n : Prop := ∀ l c, l ≠ conn → netconns n !! l = Some c → nc_current_msg c ≠ Some th.
(** [S] says whether the thread may be asleep. *)
Definition in_call (S : Prop) (E : api_msg → Prop) n : Prop := sole_call n ∧ (S ∧ sleeping n ∨ woken E n).

Lemma in_call_impl (S S' : Prop) (E E' : api_msg → Prop) n : (S → S') → (∀ m, E m → E' m) → in_call S E n → in_call S' E' n.
Proof. intros HS HE [Hu [[? ?]|(Hc & (m & ? & ?) & ?)]]; split; [done|left; auto|done|]. right. split; [done|]. split; [eauto|done]. Qed.

Lemma calm_update S E l f :
  (∀ c, nc_current_msg c ≠ Some th → nc_current_msg (f c) ≠ Some th) →
  (∀ c, nc_state c ≠ NETCONN_WRITE → nc_state (f c) ≠ NETCONN_WRITE) →
  (S → l ≠ conn) ∨ (∀ c, (writes c → writes (f c)) ∧ IN_NONBLOCKING_CONNECT (f c) = IN_NONBLOCKING_CONNECT c) →
  stable (preserves (in_call S E)) (update_netconn l f).
Proof.
  intros Hcur Hst Hw. apply preserves_stable. intros n [Hu Hn]. unfold yields, update_netconn, get_netconn.
  destruct (netconns n !! l) as [c|] eqn:Hl; simpl; [|done]. split.
  { intros l' c' Hne. simpl. destruct (decide (l' = l)) as [->|Hll]; [rewrite lookup_insert_eq|rewrite lookup_insert_ne by done; by apply Hu].
    intros [= <-]. apply Hcur. by apply (Hu l). }
  destruct Hn as [[HS [[(c0 & Hc0 & Hw0) Hm] [Hb Hsem]]]|[(c0 & Hc0 & Hs0 & Hcur0) Hm]].
  - left. split; [done|]. split; [split; [|done]|split; [|done]]; simpl.
    + destruct (decide (l = conn)) as [->|Hne]; [|rewrite lookup_insert_ne by done; by eauto]. rewrite lookup_insert_eq.
      rewrite Hl in Hc0. injection Hc0 as <-. destruct Hw as [Hw|Hw]; [by destruct (Hw HS)|]. eexists. split; [done|]. by apply Hw.
    + intros c1. destruct (decide (l = conn)) as [->|Hne]; [|rewrite lookup_insert_ne by done; by apply Hb]. rewrite lookup_insert_eq.
      intros [= <-]. destruct Hw as [Hw|Hw]; [by destruct (Hw HS)|]. destruct (Hw c) as [_ ->]. by apply Hb.
  - right. split; [|done]. simpl. destruct (decide (l = conn)) as [->|Hne]; [|rewrite lookup_insert_ne by done; by eauto].
    rewrite lookup_insert_eq. rewrite Hl in Hc0. injection Hc0 as <-. eexists. split; [done|]. split; auto.
Qed.
(** An update that leaves the call alone. *)
Definition minor (f : netconn → netconn) : Prop := ∀ c,
  nc_state (f c) = nc_state c ∧ nc_current_msg (f c) = nc_current_msg c ∧ nc_pcb (f c) = nc_pcb c ∧ same_waits c (f c).
Lemma calm_minor S E l f : minor f → stable (preserves (in_call S E)) (update_netconn l f).
Proof.
  intros Hf. apply calm_update; [intros c; by destruct (Hf c) as (_ & -> & _)|intros c; by destruct (Hf c) as (-> & _)|].
  right. intros c. destruct (Hf c) as (Es & Ec & Ep & Hb). split; [|by apply waits_connect].
  unfold writes. by rewrite Es, Ec, Ep, (waits_nonblocking _ _ Hb).
Qed.
Lemma minor_set f : Z.land f 6 = 0 → minor (λ c, c <| nc_flags := u8 (Z.lor (nc_flags c) f) |>).
Proof. intros Hf c. split_and!; [done..|by apply waits_set]. Qed.
Lemma minor_clear f : Z.land f 6 = 0 → 0 ≤ f < 256 → minor (λ c, c <| nc_flags := u8 (Z.land (nc_flags c) (Z.land (Z.lnot f) 255)) |>).
Proof. intros Hf Hr c. split_and!; [done..|by apply waits_clear]. Qed.

Lemma calm_msg S E th' f : th' ≠ th → stable (preserves (in_call S E)) (update_msg th' f).
Proof.
  intros Hne. apply preserves_stable. intros n H. unfold yields, update_msg, get_msg. destruct (api_msgs n !! th') as [m|]; simpl; [|done].
  unfold in_call, sole_call, sleeping, woken, writing, sem_of in *. simpl. by rewrite lookup_insert_ne.
Qed.
Lemma calm_signal S E th' : th' ≠ th → stable (preserves (in_call S E)) (signal_thread th').
Proof.
  intros Hne. apply stable_modify. intros n H. unfold in_call, sole_call, sleeping, woken, writing, sem_of in *. simpl. by rewrite lookup_insert_ne.
Qed.
Lemma calm_boxes S E bs : stable (preserves (in_call S E)) (modify (λ n, n <| n_mboxes := bs n |>)).
Proof. apply stable_modify. intros n H. exact H. Qed.
Lemma calm_trypost S E mbox msg : stable (preserves (in_call S E)) (mbox_trypost mbox msg).
Proof. unfold mbox_trypost. stable_tac; intros H; exact H. Qed.
Lemma calm_tryfetch S E mbox : stable (preserves (in_call S E)) (mbox_tryfetch mbox).
Proof. unfold mbox_tryfetch. stable_tac; intros H; exact H. Qed.

(** *** A step of the call's own write *)

Definition call_kept n n' : Prop :=
  (∀ m, api_msgs n !! th = Some m → ∃ m', api_msgs n' !! th = Some m' ∧ w_len m' = w_len m ∧ w_apiflags m' = w_apiflags m) ∧
  (∀ c, netconns n !! conn = Some c → ∃ c', netconns n' !! conn = Some c' ∧ nc_state c' = nc_state c ∧
     nc_current_msg c' = nc_current_msg c ∧ nc_pcb c' = nc_pcb c ∧ same_waits c c') ∧
  (∀ l, l ≠ conn → netconns n' !! l = netconns n !! l) ∧ sem_of n' th = sem_of n th.
#[export] Instance call_kept_preorder : PreOrder call_kept.
Proof.
  split; [intros n; split_and!; eauto; intros c Hc; exists c; by split_and!|].
  intros n1 n2 n3 (M1 & C1 & L1 & S1) (M2 & C2 & L2 & S2). split_and!; [| |by intros l Hl; rewrite L2, L1|congruence].
  - intros m Hm. destruct (M1 m Hm) as (m2 & Hm2 & ? & ?). destruct (M2 m2 Hm2) as (m3 & ? & ? & ?). exists m3. split_and!; congruence.
  - intros c Hc. destruct (C1 c Hc) as (c2 & Hc2 & ? & ? & ? & W1). destruct (C2 c2 Hc2) as (c3 & ? & ? & ? & ? & W2). exists c3.
    split_and!; try congruence. intros k Hk. by rewrite (W2 k Hk), (W1 k Hk).
Qed.
Lemma kept_msg f : (∀ m, w_len (f m) = w_len m ∧ w_apiflags (f m) = w_apiflags m) → stable call_kept (update_msg th f).
Proof.
  intros Hf n. unfold yields, update_msg, get_msg. destruct (api_msgs n !! th) as [m|] eqn:Hm; simpl; [|done].
  split_and!; [|intros c Hc; exists c; by split_and!|done|done]. intros m' Hm'. rewrite Hm in Hm'. injection Hm' as <-. simpl.
  rewrite lookup_insert_eq. eexists. split; [done|apply Hf].
Qed.
Lemma kept_flags f : Z.land f 6 = 0 → stable call_kept (netconn_set_flags conn f).
Proof.
  intros Hf n. unfold yields, netconn_set_flags, update_netconn, get_netconn. destruct (netconns n !! conn) as [c|] eqn:Hc; simpl; [|done].
  split_and!; [by eauto| |by intros l Hl; simpl; rewrite lookup_insert_ne|done]. intros c' Hc'. rewrite Hc in Hc'. injection Hc' as <-. simpl.
  rewrite lookup_insert_eq. eexists. split; [done|]. split_and!; [done..|by apply waits_set].
Qed.
Lemma writing_kept n n' : call_kept n n' → writing n → writing n'.
Proof.
  intros (M & C & _) [(c & Hc & ? & ? & ? & ?) (m & Hm & ? & ?)]. destruct (C c Hc) as (c' & Hc' & ? & ? & ? & Hw).
  destruct (M m Hm) as (m' & Hm' & ? & ?). split.
  - exists c'. split; [done|]. unfold writes. rewrite (waits_nonblocking _ _ Hw). split_and!; congruence.
  - exists m'. split; [done|]. split; congruence.
Qed.
(** The call is over, not yet signalled unless [delayed]. *)
Definition over (delayed : bool) n n' : Prop :=
  (∃ c, netconns n' !! conn = Some c ∧ nc_state c = NETCONN_NONE ∧ nc_current_msg c = None) ∧
  (∃ m, api_msgs n' !! th = Some m ∧ finished m) ∧
  (∀ l, l ≠ conn → netconns n' !! l = netconns n !! l) ∧
  sem_of n' th = if delayed then sys_sem_signal (sem_of n th) else sem_of n th.
End call.

(** ** The whole state *)

Section world.
Context {W : Type} `{!Part tstate W} `{!netif_driver W} `{!Part timeouts W} `{!timer_client W} `{!Part nstate W}.
Context `{!Apart nstate tstate W} `{!Apart tstate nstate W} `{!Apart nstate timeouts W} `{!Apart tstate timeouts W}.
Implicit Types w : W.

Abbreviation tc m := (lift (P := tstate) (S := W) m).
Abbreviation nc m := (lift (P := nstate) (S := W) m).
Abbreviation st m := (lift (P := tstate) (S := W) (lift (P := ipstate) (lift (P := store) m))).
Abbreviation net_of w := (part_get (P := nstate) w).
Abbreviation tcp_of w := (part_get (P := tstate) w).
Definition heap_of w : store := ip_store (t_ip (tcp_of w)).
#[local] Existing Instance tcp_ip_part.

Lemma lift_ask_eq {P A} `{HP : Part P W} (f : P → res A) w : lift (ask f) w = let* a := f (part_get w) in Val (a, w).
Proof. unfold lift, ask. destruct (f (part_get w)); simpl; [by rewrite part_set_get|done]. Qed.
Lemma yields_netconn {B} l (f : netconn → M W B) w (Q : B → W → Prop) :
  (∀ c, netconns (net_of w) !! l = Some c → yields (f c) w Q) → yields (mbnd (the_netconn l) f) w Q.
Proof.
  intros H. apply yields_bind, yields_ask_lift. unfold get_netconn. intros c Hc. destruct (netconns (net_of w) !! l) eqn:E; [|done].
  injection Hc as <-. by apply H.
Qed.
Lemma yields_nc {A B} (m : M nstate A) (f : A → M W B) w (P : A → nstate → Prop) (Q : B → W → Prop) :
  yields m (net_of w) P →
  (∀ a w', P a (net_of w') → tcp_of w' = tcp_of w → yields (f a) w' Q) → yields (mbnd (nc m) f) w Q.
Proof.
  intros Hm Hf. unfold yields, mbnd, lift in *. destruct (m (net_of w)) as [[a n]|]; [|done].
  apply Hf; [by rewrite part_get_set|apply apart].
Qed.
Lemma yields_update {B} l g (f : unit → M W B) w (Q : B → W → Prop) :
  (∀ c w', netconns (net_of w) !! l = Some c → net_of w' = put_netconn l (g c) (net_of w) → tcp_of w' = tcp_of w → yields (f tt) w' Q) →
  yields (mbnd (nc (update_netconn l g)) f) w Q.
Proof.
  intros H. eapply (yields_nc _ _ _ (λ _ n', ∃ c, netconns (net_of w) !! l = Some c ∧ n' = put_netconn l (g c) (net_of w))).
  - unfold yields, update_netconn, get_netconn. destruct (netconns (net_of w) !! l); simpl; [by eexists|done].
  - intros [] w' (c & Hc & E) T. by eapply H.
Qed.

(** The heap grows; the netconns change by [R], provided that [l] is an address that
    was given out before. *)
Definition beside (l : loc) (R : nstate → nstate → Prop) w w' : Prop :=
  store_grows (heap_of w) (heap_of w') ∧ ((l < next_loc (heap_of w))%positive → R (net_of w) (net_of w')).
#[export] Instance beside_preorder l R : PreOrder R → PreOrder (beside l R).
Proof.
  intros HR. split; [intros w; split; reflexivity|]. intros a b c [G1 R1] [G2 R2]. split; [by etrans|]. intros Hl.
  etrans; [by apply R1|]. apply R2. unfold store_grows in G1. lia.
Qed.
Lemma beside_weaken l (R R' : nstate → nstate → Prop) {A} (m : M W A) :
  (∀ n n', R n n' → R' n n') → stable (beside l R) m → stable (beside l R') m.
Proof. intros H. apply stable_weaken. intros w w' [? ?]. split; auto. Qed.

Section beside.
Context (l : loc) (R : nstate → nstate → Prop) `{!PreOrder R}.
Lemma beside_tc A (m : M tstate A) : stable heap_grows m → stable (beside l R) (tc m).
Proof.
  apply stable_lift. intros w t G. split; [unfold heap_of; rewrite part_get_set; exact G|]. intros _. rewrite apart. reflexivity.
Qed.
Lemma beside_nc A (m : M nstate A) : stable R m → stable (beside l R) (nc m).
Proof. apply stable_lift. intros w n H. split; [unfold heap_of; rewrite apart; reflexivity|]. intros _. by rewrite part_get_set. Qed.
Lemma beside_timers A (m : M timeouts A) : stable (beside l R) (lift (S := W) m).
Proof.
  intros w. apply yields_lift. unfold yields. destruct (m (part_get w)) as [[a t]|]; [|done].
  split; [unfold heap_of; rewrite apart; reflexivity|]. intros _. rewrite apart. reflexivity.
Qed.
End beside.

(** The driver does not know of netconns. *)
Context `{!netif_driver_keeps W}.
Context (driver_apart : ∀ p d, stable (on_part (P := nstate) eq) (netif_output (W := W) p d)).
Lemma beside_driver l R `{!PreOrder R} p d : stable (beside l R) (netif_output (W := W) p d).
Proof.
  intros w. pose proof (driver_apart p d w) as H1. pose proof (keeps_netif_output p d w) as H2. unfold yields in *.
  destruct (netif_output p d w) as [[a w']|]; [|done]. split; [exact (same_next _ _ H2)|]. intros _. unfold on_part in H1. by rewrite H1.
Qed.
Lemma beside_output l R `{!PreOrder R} pcb : stable (beside l R) (TcpSend.tcp_output pcb).
Proof. apply env_output; [apply _|by apply beside_tc|by apply beside_driver]. Qed.
Ltac beside_step := match goal with
  | |- PreOrder _ => apply _
  | |- stable (beside _ _) (lift (P := tstate) _) => apply beside_tc; try solve [auto 4 with stable]
  | |- stable (beside _ _) (lift (P := nstate) _) => apply beside_nc; try solve [auto 4 with stable]
  | |- stable (beside _ _) (the_netconn _) => unfold the_netconn
  | |- stable (beside _ _) (TcpSend.tcp_output _) => apply beside_output
  | |- _ => stable_step
  end.
Ltac beside_tac := repeat beside_step.

(** *** The call's own write *)

Section own_write.
Context (conn : loc) (th : thread_id) (len : Z).
Abbreviation kept := (beside conn (call_kept conn th)).

Lemma kept_taken k : stable (call_kept conn th) (update_msg th (bytes_taken k)).
Proof. apply kept_msg. intros m. unfold bytes_taken. repeat case_match; by split. Qed.
#[local] Hint Resolve kept_taken : stable.
Lemma kept_pieces fuel pcb : ∀ apiflags b, stable kept (write_pieces fuel th pcb apiflags b).
Proof. induction fuel; intros apiflags b; cbn [write_pieces]; beside_tac.
Qed.
Lemma kept_writespace m b : stable (call_kept conn th) (note_writespace conn m b).
Proof. unfold note_writespace. destruct (_ && _); [by apply kept_flags|stable_tac]. Qed.
#[local] Hint Resolve kept_pieces kept_writespace : stable.

(** A write that is over successfully has taken every byte. *)
Lemma outcome_yields pcb err w : (conn < next_loc (heap_of w))%positive →
  yields (write_outcome th pcb err false) w (λ '(fin, e) w', kept w w' ∧
    (fin = true → e = ERR_OK → ∃ m, api_msgs (net_of w') !! th = Some m ∧ w_offset m = w_len m)).
Proof.
  intros Hw. unfold write_outcome. apply yields_bind, yields_ask_lift. unfold get_msg. intros m Hm.
  destruct (api_msgs (net_of w) !! th) as [m0|] eqn:Hm0; [|done]. injection Hm as ->.
  assert (∀ (f : err_t → bool * err_t), (∀ e, (f e).1 = true → (f e).2 = ERR_OK → w_offset m = w_len m) →
    yields (let! e := TcpSend.tcp_output pcb in ret (f e)) w (λ '(fin, e) w', kept w w' ∧
      (fin = true → e = ERR_OK → ∃ m, api_msgs (net_of w') !! th = Some m ∧ w_offset m = w_len m))) as H.
  { intros f Hf. eapply (stable_then (beside conn eq)); [apply beside_output; apply _|]. intros e w' [G E]. specialize (E Hw). apply yields_ret.
    specialize (Hf e). destruct (f e) as [fin e']. split; [split; [done|intros _; by rewrite E]|].
    intros Hfin He. exists m. split; [by rewrite <- E|by apply Hf]. }
  destruct err; try (apply yields_ret; split; [reflexivity|done]).
  - apply (H (λ e, match e with ERR_RTE => (true, ERR_RTE) | _ => ((w_offset m =? w_len m) || false, ERR_OK) end)).
    intros e. rewrite orb_false_r. destruct e; simpl; intros; bool_prop; done.
  - apply (H (λ e, match e with ERR_RTE => (true, ERR_RTE) | _ => (false, ERR_MEM) end)). by intros [].
Qed.

Lemma writemore_yields delayed w : (conn < next_loc (heap_of w))%positive → writing conn th len (net_of w) →
  yields (lwip_netconn_do_writemore conn delayed) w (λ err w', store_grows (heap_of w) (heap_of w') ∧
    if is_ok err then over conn th len delayed (net_of w) (net_of w') else call_kept conn th (net_of w) (net_of w')).
Proof.
  intros Hw [(c & Hc & Hs & Hcur & Hp & Hnb) (m & Hm & Hlen & Hb)]. unfold lwip_netconn_do_writemore.
  apply yields_netconn. intros c' Hc'. rewrite Hc in Hc'. injection Hc' as <-. apply yields_bind, yields_assert. intros _.
  unfold current_msg. apply yields_bind. apply yields_netconn. intros c' Hc'. rewrite Hc in Hc'. injection Hc' as <-. rewrite Hcur.
  apply yields_bind, yields_assert. intros _. apply yields_bind, yields_ret. apply yields_bind, yields_ask_lift. unfold get_msg. rewrite Hm.
  intros m' [= <-]. apply yields_ret. cbv beta iota. apply yields_bind, yields_assert. intros _. apply yields_bind, yields_valid_ptr. intros pcb _.
  do 2 (apply yields_bind, yields_assert; intros _). cbv zeta. rewrite Hnb, Hb. cbn [orb].
  eapply (stable_then kept); [beside_tac|]. intros [err look] w1 K1. apply yields_bind, yields_ask_lift. intros m1 _.
  eapply (stable_then kept); [beside_tac|]. intros [] w2 K2. pose proof (transitivity K1 K2) as K12. destruct K12 as [G2 C2].
  eapply yields_then; [apply outcome_yields; unfold store_grows in G2; lia|]. intros [fin e] w3 [K3 Hfin].
  assert (kept w w3) as [G3 C3] by (etrans; [exact K1|]; by etrans). specialize (C3 Hw). destruct fin; [|by apply yields_ret].
  destruct C3 as (M3 & N3 & L3 & S3). destruct (M3 m Hm) as (m3 & Hm3 & Hl3 & _). destruct (N3 c Hc) as (c3 & Hc3 & _).
  eapply (yields_nc _ _ _ (λ _ n', n' = put_netconn conn (c3 <| nc_current_msg := None |>) (put_msg th (m3 <| am_err := e |>) (net_of w3)))).
  { unfold complete, yields, mbnd, update_msg, get_msg. rewrite Hm3. simpl. unfold update_netconn, get_netconn. simpl. by rewrite Hc3. }
  intros [] w4 E4 T4. apply yields_update. intros c4 w5 Hc4 E5 T5. rewrite E4 in Hc4. simpl in Hc4. rewrite lookup_insert_eq in Hc4. injection Hc4 as <-.
  assert (over conn th len false (net_of w) (net_of w5)) as H5.
  { rewrite E5, E4. split_and!; simpl.
    - rewrite lookup_insert_eq. by eexists.
    - rewrite lookup_insert_eq. eexists. split; [done|]. split; simpl; [congruence|]. intros ->. destruct Hfin as (m' & Hm' & Ho); [done..|]. congruence.
    - intros l Hl. by rewrite !lookup_insert_ne, L3.
    - exact S3. }
  assert (heap_of w5 = heap_of w3) as Hh by (unfold heap_of; by rewrite T5, T4). rewrite <- Hh in G3.
  destruct delayed; cbn [is_ok].
  - eapply (yields_nc _ _ _ (λ _ n', n' = (net_of w5) <| thread_sems := <[th := sys_sem_signal (sem_of (net_of w5) th)]> (thread_sems (net_of w5)) |>)); [done|].
    intros [] w6 E6 T6. apply yields_ret. split; [unfold heap_of; rewrite T6; exact G3|]. destruct H5 as (H1 & H2 & H3 & H4).
    simpl. rewrite E6. split_and!; try done. unfold sem_of at 1. simpl. rewrite lookup_insert_eq. simpl. by rewrite H4.
  - apply yields_bind, yields_ret, yields_ret. done.
Qed.
End own_write.

(** *** What the call is left alone by *)

Lemma heap_set_callback f pcb : stable heap_grows (set_callback f pcb).
Proof. unfold set_callback. stable_tac. Qed.
Lemma heap_tcp_arg pcb a : stable heap_grows (tcp_arg pcb a).
Proof. unfold tcp_arg. stable_tac. Qed.
#[local] Hint Resolve heap_set_callback heap_tcp_arg : stable.
Lemma heap_tcp_recv pcb f : stable heap_grows (tcp_recv pcb f).
Proof. apply heap_set_callback. Qed.
Lemma heap_tcp_sent pcb f : stable heap_grows (tcp_sent pcb f).
Proof. apply heap_set_callback. Qed.
Lemma heap_tcp_err pcb f : stable heap_grows (tcp_err pcb f).
Proof. apply heap_set_callback. Qed.
Lemma heap_tcp_accept pcb f : stable heap_grows (tcp_accept pcb f).
Proof. unfold tcp_accept. stable_tac. Qed.
Lemma heap_tcp_poll pcb f k : stable heap_grows (tcp_poll pcb f k).
Proof. unfold tcp_poll. stable_tac. Qed.
#[local] Hint Resolve heap_tcp_recv heap_tcp_sent heap_tcp_err heap_tcp_accept heap_tcp_poll : stable.
Lemma heap_drop_callbacks tpcb a b c : stable heap_grows (drop_callbacks tpcb a b c).
Proof. unfold drop_callbacks. stable_tac. Qed.
Lemma heap_restore_callbacks tpcb l b : stable heap_grows (restore_callbacks tpcb l b).
Proof. unfold restore_callbacks. stable_tac. Qed.
#[local] Hint Resolve heap_drop_callbacks heap_restore_callbacks : stable.

Section held.
Context (conn : loc) (th : thread_id) (len : Z).

(** [conn] is an address that was given out, and [I] holds of the netconns. *)
Definition held (I : nstate → Prop) w : Prop := (conn < next_loc (heap_of w))%positive ∧ I (net_of w).
Lemma held_beside I {A} (m : M W A) : stable (beside conn (preserves I)) m → stable (preserves (held I)) m.
Proof.
  apply stable_weaken. intros w w' [G H] [Hw HI]. split; [unfold store_grows in G; lia|]. by apply H.
Qed.
Lemma held_tc I A (m : M tstate A) : stable heap_grows m → stable (preserves (held I)) (tc m).
Proof. intros Hm. by apply held_beside, beside_tc; [apply _|]. Qed.
Lemma held_nc I A (m : M nstate A) : stable (preserves I) m → stable (preserves (held I)) (nc m).
Proof. intros Hm. by apply held_beside, beside_nc. Qed.
Lemma held_timers I A (m : M timeouts A) : stable (preserves (held I)) (lift (S := W) m).
Proof. apply held_beside, beside_timers. apply _. Qed.
Lemma held_driver I p d : stable (preserves (held I)) (netif_output (W := W) p d).
Proof. apply held_beside, beside_driver. apply _. Qed.
Lemma held_output I pcb : stable (preserves (held I)) (TcpSend.tcp_output pcb).
Proof. apply held_beside, beside_output. apply _. Qed.
Lemma held_recved I pcb k : stable (preserves (held I)) (tcp_recved pcb k).
Proof. apply env_recved; [apply _|apply held_tc|apply held_driver]. Qed.
#[local] Hint Resolve held_output held_recved calm_trypost calm_tryfetch : stable.
Ltac held_step := match goal with
  | |- stable (preserves (held _)) (lift (P := tstate) _) => apply held_tc; try solve [auto 4 with stable]
  | |- stable (preserves (held _)) (lift (P := nstate) _) => apply held_nc; try solve [auto 4 with stable]
  | |- stable (preserves (held _)) (the_netconn _) => unfold the_netconn
  | |- _ => stable_step
  end.
Ltac held_tac := repeat held_step.

Abbreviation calm S E := (preserves (held (in_call conn th len S E))).

(** The message of another netconn is that of another thread. *)
Lemma stable_current {B} S E l (f : thread_id * api_msg → M W B) : (S → l ≠ conn) →
  (∀ th' m, th' ≠ th → stable (calm S E) (f (th', m))) → stable (calm S E) (mbnd (current_msg l) f).
Proof.
  intros HS Hf. apply preserves_stable. intros w Hw. pose proof Hw as [Hfresh [Hu Hn]]. unfold current_msg. apply yields_bind, yields_netconn.
  intros c Hc. apply yields_bind, yields_assert. intros _. apply yields_bind, yields_valid_ptr. intros th' Hth.
  apply yields_bind, yields_ask_lift. intros m _. apply yields_ret. apply stable_preserves; [|exact Hw]. apply Hf. intros ->.
  destruct (decide (l = conn)) as [->|Hne]; [|by destruct (Hu l c)].
  destruct Hn as [[H _]|[(c' & Hc' & _ & Hcur) _]]; [by destruct (HS H)|congruence].
Qed.
Lemma calm_complete S E l th' err : (S → l ≠ conn) → th' ≠ th → stable (preserves (in_call conn th len S E)) (complete l th' err).
Proof.
  intros HS Hth. unfold complete. refine (stable_bind _ _ _ _ _); [by apply calm_msg|intros _].
  apply calm_update; [done..|by left].
Qed.
Lemma calm_state S E l s : (S → l ≠ conn) → s ≠ NETCONN_WRITE →
  stable (preserves (in_call conn th len S E)) (update_netconn l (λ c, c <| nc_state := s |>)).
Proof. intros HS Hs. apply calm_update; [done..|by left]. Qed.
Lemma calm_set_flags S E l f : Z.land f 6 = 0 → stable (preserves (in_call conn th len S E)) (netconn_set_flags l f).
Proof. intros Hf. apply calm_minor. by apply minor_set. Qed.
Lemma calm_clear_flags S E l f : Z.land f 6 = 0 → 0 ≤ f < 256 → stable (preserves (in_call conn th len S E)) (netconn_clear_flags l f).
Proof. intros Hf Hr. apply calm_minor. by apply minor_clear. Qed.
Lemma calm_connect_done S E l : (S → l ≠ conn) → stable (preserves (in_call conn th len S E)) (SET_NONBLOCKING_CONNECT l false).
Proof. intros HS. apply calm_update; [done..|by left]. Qed.
Lemma calm_post_if_valid S E c mbox msg : stable (preserves (in_call conn th len S E)) (post_if_valid c mbox msg).
Proof. unfold post_if_valid. stable_tac. Qed.
#[local] Hint Resolve calm_post_if_valid calm_connect_done calm_complete calm_signal : stable.
#[local] Hint Extern 1 (stable _ (lwip_netconn_err_to_msg _)) => unfold lwip_netconn_err_to_msg; stable_tac : stable.
Lemma stable_ret_bind {S A B} (R : S → S → Prop) (a : A) (f : A → M S B) : stable R (f a) → stable R (mbnd (ret a) f).
Proof. intros H. exact H. Qed.
Ltac call_step := match goal with
  | |- stable _ (mbnd (current_msg _) _) => apply stable_current; [assumption|intros ?th' ?m ?Hth; cbv beta iota]
  | |- stable _ (mbnd (valid_ptr (Some _)) _) => apply stable_ret_bind
  | |- _ => held_step
  end.
Ltac call_tac := repeat call_step.

(** A connection that dies. *)
Lemma err_tcp_other S E l err : (S → l ≠ conn) → stable (calm S E) (netconn_err_tcp (Some l) err).
Proof.
  intros HS. unfold netconn_err_tcp. call_tac. by apply calm_update; [..|left].
Qed.
Lemma sem_signal_idle : sys_sem_signal 0 = 1.
Proof. reflexivity. Qed.
(** The connection of the thread that sleeps: the thread is told. *)
Lemma err_tcp_own err w : sole_call conn th (net_of w) → sleeping conn th len (net_of w) →
  yields (netconn_err_tcp (Some conn) err) w (λ _ w', sole_call conn th (net_of w') ∧
    woken conn th (λ m, w_len m = len ∧ am_err m = err) (net_of w') ∧ tcp_of w' = tcp_of w).
Proof.
  intros Hu [[(c & Hc & Hs & Hcur & Hp & Hnb) (m & Hm & Hlen & Hb)] [Hnc Hsem]]. specialize (Hnc c Hc). unfold netconn_err_tcp.
  apply yields_bind, yields_assert. intros _. apply yields_bind, yields_ret. apply yields_netconn. intros c0 Hc0. rewrite Hc in Hc0. injection Hc0 as <-.
  apply yields_update. intros c0 w1 Hc0 E1 T1. rewrite Hc in Hc0. injection Hc0 as <-.
  set (c1 := c <| nc_pcb := None |> <| nc_pending_err := err |> <| nc_flags := _ |> <| nc_state := NETCONN_NONE |>) in E1.
  pose (boxes := λ n n', ∃ bs, n' = n <| n_mboxes := bs |>).
  assert (PreOrder boxes) as Hpre.
  { split; [intros n; exists (n_mboxes n); by destruct n|]. intros a b d [bs ->] [bs' ->]. by exists bs'. }
  assert (∀ c mbox msg, stable boxes (post_if_valid c mbox msg)) as Hpost.
  { intros c' mbox msg. unfold post_if_valid, mbox_trypost. stable_tac. by eexists. }
  eapply (yields_nc _ _ _ (λ _ n', n' = net_of w1)); [unfold lwip_netconn_err_to_msg; destruct err; try done; by apply yields_bind, yields_assert|].
  intros msg w2 E2 T2. apply yields_netconn. intros c2 Hc2. eapply yields_nc; [apply Hpost|]. intros [] w3 [bs3 E3] T3.
  eapply yields_nc; [apply Hpost|]. intros [] w4 [bs4 E4] T4. rewrite Hs.
  assert (netconns (net_of w4) = netconns (net_of w1) ∧ api_msgs (net_of w4) = api_msgs (net_of w1) ∧ thread_sems (net_of w4) = thread_sems (net_of w1))
    as (N4 & M4 & S4) by (by rewrite E4, E3, E2).
  assert (netconns (net_of w4) !! conn = Some c1) as Hc4 by (rewrite N4, E1; apply lookup_insert_eq).
  apply yields_netconn. intros c' Hc'. rewrite Hc4 in Hc'. injection Hc' as <-.
  apply yields_update. intros c' w5 Hc' E5 T5. rewrite Hc4 in Hc'. injection Hc' as <-.
  rewrite (waits_connect c c1) by (by apply (waits_set c)). rewrite Hnc.
  unfold current_msg. apply yields_bind, yields_netconn. intros c5 Hc5. rewrite E5 in Hc5. simpl in Hc5. rewrite lookup_insert_eq in Hc5. injection Hc5 as <-.
  simpl. rewrite Hcur. apply yields_bind, yields_assert. intros _. apply yields_bind, yields_ret. apply yields_bind, yields_ask_lift.
  assert (api_msgs (net_of w5) = api_msgs (net_of w)) as M5 by (rewrite E5; simpl; by rewrite M4, E1).
  unfold get_msg. rewrite M5, Hm. intros m' [= <-]. apply yields_ret.
  set (c5 := c1 <| nc_flags := _ |>) in *.
  eapply (yields_nc _ _ _ (λ _ n', n' = put_netconn conn (c5 <| nc_current_msg := None |>) (put_msg th (m <| am_err := err |>) (net_of w5)))).
  { unfold complete, yields, mbnd, update_msg, get_msg. rewrite M5, Hm. simpl. unfold update_netconn, get_netconn. simpl.
    rewrite E5. simpl. by rewrite lookup_insert_eq. }
  intros [] w6 E6 T6. apply yields_lift, yields_modify. rewrite part_get_set, apart. split_and!; [| |congruence].
  - intros l c' Hne. simpl. rewrite E6. simpl. rewrite lookup_insert_ne, E5 by done. simpl. rewrite lookup_insert_ne, N4, E1 by done. simpl.
    rewrite lookup_insert_ne by done. by apply Hu.
  - split; [|split]; [eexists; simpl; rewrite E6; simpl; rewrite lookup_insert_eq; by split_and!| |].
    + eexists. simpl. rewrite E6. simpl. rewrite lookup_insert_eq. by split_and!.
    + assert (sem_of (net_of w6) th = sem_of (net_of w) th) as -> by (unfold sem_of; rewrite E6, E5; simpl; by rewrite S4, E1).
      rewrite Hsem. unfold sem_of. simpl. by rewrite lookup_insert_eq.
Qed.

(** With the connection [l] another than that of the sleeping thread, or the thread
    awake, it is enough to look at [m] where it leaves the call alone. *)
Lemma held_cases S E {A} (m : M W A) w : stable (calm False E) m →
  (S → sleeping conn th len (net_of w) → yields m w (λ _ w', held (in_call conn th len S E) w')) →
  held (in_call conn th len S E) w → yields m w (λ _ w', held (in_call conn th len S E) w').
Proof.
  intros Hm Hs [Hw [Hu [[HS Hsl]|Hwk]]]; [by apply Hs|].
  eapply yields_mono; [apply (stable_preserves _ _ _ Hm); split; [done|]; split; [done|by right]|].
  intros a w' [Hw' H]. split; [done|]. by eapply in_call_impl; [..|exact H].
Qed.

Section ends.
Context (S : Prop) (E : api_msg → Prop) (HE : S → ∀ m, finished len m → E m).

Lemma err_tcp_held a err : fatal err → stable (calm S E) (netconn_err_tcp a err).
Proof.
  intros Hf. destruct a as [l|]; [|by intros w]. apply preserves_stable. intros w Hw. apply held_cases; [by apply err_tcp_other| |exact Hw].
  intros HS Hsl. destruct Hw as [Hfresh [Hu Hn]]. destruct (decide (l = conn)) as [->|Hne].
  - eapply yields_mono; [by apply err_tcp_own|]. intros [] w' (Hu' & (Hc & (m & Hm & Hlen & He) & Hs) & T).
    split; [unfold heap_of in *; by rewrite T|]. split; [done|]. right. split; [done|]. split; [|done]. exists m. split; [done|].
    apply HE; [done|]. split; [done|]. rewrite He. by destruct Hf as [-> |[-> | ->]].
  - apply (stable_preserves _ _ _ (err_tcp_other S E l err (λ _, Hne))). by split.
Qed.
Lemma only_err_held : client_respects (tcp_client0 := only_err_tcp) (calm S E).
Proof. split; intros; cbn; [apply stable_fail..| |apply stable_fail|apply stable_fail]. by apply err_tcp_held. Qed.
Lemma held_abort pcb : stable (calm S E) (tcp_abort (tcp_client0 := only_err_tcp) pcb).
Proof. apply env_abort; [apply _|apply held_tc|apply held_driver|apply only_err_held]. Qed.
Lemma held_close pcb : stable (calm S E) (tcp_close pcb).
Proof. apply env_close; [apply _|apply held_tc|apply held_driver]. Qed.
Lemma held_shutdown pcb rx tx : stable (calm S E) (tcp_shutdown pcb rx tx).
Proof. apply env_shutdown; [apply _|apply held_tc|apply held_driver]. Qed.
#[local] Hint Resolve held_abort held_close held_shutdown : stable.

Lemma held_close_outcome th' tpcb b err : stable (calm S E) (close_outcome th' tpcb b err).
Proof. unfold close_outcome. call_tac. Qed.
#[local] Hint Resolve held_close_outcome : stable.

(** *** The calls of other netconns *)

Lemma close_other l b : (S → l ≠ conn) → stable (calm S E) (lwip_netconn_do_close_internal l b).
Proof.
  intros HS. unfold lwip_netconn_do_close_internal. call_tac; [by apply calm_state|]. apply calm_update; [done..|by left].
Qed.
Lemma held_pieces th' pcb fuel : th' ≠ th → ∀ f b, stable (calm S E) (write_pieces fuel th' pcb f b).
Proof.
  intros Hth. induction fuel as [|fuel IH]; intros f b; cbn [write_pieces]; call_tac. by apply calm_msg.
Qed.
Lemma held_outcome th' pcb err b : stable (calm S E) (write_outcome th' pcb err b).
Proof. unfold write_outcome. call_tac. Qed.
Lemma calm_note l m b : stable (preserves (in_call conn th len S E)) (note_writespace l m b).
Proof. unfold note_writespace. destruct (_ && _); [by apply calm_set_flags|stable_tac]. Qed.
#[local] Hint Resolve held_pieces held_outcome calm_note : stable.
Lemma write_other l b : (S → l ≠ conn) → stable (calm S E) (lwip_netconn_do_writemore l b).
Proof.
  intros HS. unfold lwip_netconn_do_writemore. call_tac. by apply calm_state.
Qed.

(** *** The callbacks *)

Lemma held_recv_tcp a pcb p err : stable (calm S E) (netconn_recv_tcp a pcb p err).
Proof. unfold netconn_recv_tcp. call_tac. Qed.
Lemma held_setup l : stable (calm S E) (setup_tcp l).
Proof. unfold setup_tcp. call_tac. Qed.
#[local] Hint Resolve held_setup : stable.
Lemma held_writable l : stable (calm S E) (writable_again l).
Proof. unfold writable_again. call_tac. by apply calm_clear_flags. Qed.
End ends.

Section cases.
Context (S : Prop) (E : api_msg → Prop) (HE : S → ∀ m, finished len m → E m).
#[local] Hint Resolve held_setup held_recv_tcp held_writable : stable.

Lemma held_continue l : stable (calm S E) (continue_call l).
Proof.
  apply preserves_stable. intros w Hw. apply held_cases; [| |exact Hw].
  { unfold continue_call. call_tac; [by apply write_other|by apply close_other]. }
  intros HS Hsl. destruct (decide (l = conn)) as [->|Hne]; cycle 1.
  { apply stable_preserves; [|exact Hw]. unfold continue_call. call_tac; [by apply write_other|by apply close_other]. }
  destruct Hw as [Hfresh [Hu _]], Hsl as [Hwr [Hb Hsem]]. pose proof Hwr as [(c & Hc & Hs & _) _]. unfold continue_call.
  apply yields_netconn. intros c' Hc'. rewrite Hc in Hc'. injection Hc' as <-. rewrite Hs.
  eapply yields_then; [by apply (writemore_yields conn th len true)|]. intros err w' [G H]. apply yields_ret.
  split; [unfold store_grows in G; lia|]. destruct (is_ok err).
  - destruct H as ((c' & Hc' & Hs' & Hcur) & (m & Hm & Hfin) & Ho & Hse). split; [intros l c'' Hne; rewrite Ho by done; by apply Hu|].
    right. split; [exists c'; split_and!; congruence|]. split; [eauto|]. by rewrite Hse, Hsem.
  - pose proof (writing_kept _ _ _ _ _ H Hwr) as Hwr'. destruct H as (_ & Hk & Ho & Hse). split; [intros l c'' Hne; rewrite Ho by done; by apply Hu|].
    left. split; [done|]. split; [done|]. split; [|congruence]. destruct (Hk c Hc) as (c' & Hc' & _ & _ & _ & Hf).
    intros c'' Hc''. rewrite Hc' in Hc''. injection Hc'' as <-. rewrite (waits_connect _ _ Hf). by apply Hb.
Qed.
#[local] Hint Resolve held_continue : stable.
Lemma held_sent_tcp a pcb k : stable (calm S E) (netconn_sent_tcp a pcb k).
Proof. unfold netconn_sent_tcp. call_tac. Qed.

(** The polls that are left to a close. *)
Lemma held_close_polls l : stable (calm S E) (
  let! c := the_netconn l in
  match nc_state c, nc_current_msg c with
  | NETCONN_CLOSE, Some th => nc (update_msg th (λ m, if sd_polls_left m =? 0 then m else m <| sd_polls_left := sd_polls_left m - 1 |>))
  | _, _ => ret tt
  end).
Proof.
  apply preserves_stable. intros w Hw. pose proof Hw as [Hfresh [Hu Hn]]. apply yields_netconn. intros c Hc.
  destruct (nc_state c) eqn:Hs; try by apply yields_ret. destruct (nc_current_msg c) as [th'|] eqn:Hth; [|by apply yields_ret].
  apply stable_preserves; [|exact Hw]. apply held_nc, calm_msg. intros ->.
  destruct (decide (l = conn)) as [->|Hne]; [|by destruct (Hu l c)].
  destruct Hn as [[_ [[(c' & Hc' & Hs' & _) _] _]]|[(c' & Hc' & _ & Hcur) _]]; congruence.
Qed.
Lemma stable_assoc {T A B C} (R : T → T → Prop) (m : M T A) (f : A → M T B) (g : B → M T C) :
  stable R (let! b := (let! a := m in f a) in g b) → stable R (let! a := m in let! b := f a in g b).
Proof. intros H w. specialize (H w). unfold yields, mbnd in *. by destruct (m w) as [[a w']|]. Qed.
Lemma held_poll_tcp a pcb : stable (calm S E) (netconn_poll_tcp a pcb).
Proof.
  unfold netconn_poll_tcp. do 2 (call_step; [call_tac|]).
  apply stable_assoc. refine (stable_bind _ _ _ (held_close_polls _) _). intros ?. call_tac.
Qed.

Lemma held_do_connected a pcb err : stable (calm S E) (netconn_do_connected a pcb err).
Proof.
  destruct a as [l|]; [|apply stable_ret; apply _]. apply preserves_stable. intros w Hw. pose proof Hw as [Hfresh [Hu Hn]].
  unfold netconn_do_connected. apply yields_netconn. intros c Hc. apply yields_bind, yields_assert. intros Hs%bool_decide_eq_true.
  apply yields_bind, yields_assert. intros _. cbv zeta.
  assert (∀ th', nc_current_msg c = Some th' → th' ≠ th) as Hth.
  { intros th' Hcur ->. destruct (decide (l = conn)) as [->|Hne]; [|by destruct (Hu l c)].
    destruct Hn as [[_ [[(c' & Hc' & Hs' & _) _] _]]|[(c' & Hc' & _ & Hcur') _]]; congruence. }
  assert (∀ S', (S' → l ≠ conn) → stable (calm S' E) (
    do! (match nc_current_msg c with Some th => nc (update_msg th (λ m, m <| am_err := err |>)) | None => ret tt end);
    do! (if is_ok err then setup_tcp l else ret tt);
    do! nc (SET_NONBLOCKING_CONNECT l false);
    do! lwip_assert (Bool.eqb (negb (IN_NONBLOCKING_CONNECT c)) (bool_decide (nc_current_msg c ≠ None)));
    do! nc (update_netconn l (λ c, c <| nc_current_msg := None |> <| nc_state := NETCONN_NONE |>));
    do! (match nc_current_msg c with Some th => if negb (IN_NONBLOCKING_CONNECT c) then nc (signal_thread th) else ret tt | None => ret tt end);
    ret ERR_OK)) as Hb.
  { intros S' HS'. held_tac; [apply calm_msg; by apply Hth|]. apply calm_update; [done..|by left]. }
  apply held_cases; [by apply Hb| |exact Hw].
  - intros HS Hsl. apply stable_preserves; [|exact Hw]. apply Hb. intros _ ->. destruct Hsl as [[(c' & Hc' & Hs' & _) _] _]. congruence.
Qed.

(** A connection to be accepted gets a netconn of its own, at a new address. *)
Definition unmarked (nw : loc) n : Prop := ∃ c, netconns n !! nw = Some c ∧ nc_flags c = 0.
Lemma heap_malloc_fresh k w : (conn < next_loc (heap_of w))%positive →
  yields (st (malloc k)) w (λ r w', (conn < next_loc (heap_of w'))%positive ∧ net_of w' = net_of w ∧ r ≠ Some conn).
Proof.
  intros Hw. apply yields_lift. unfold yields, lift. simpl. unfold heap_of in *. destruct (malloc k _) as [[r s']|] eqn:Em; [|done].
  pose proof (grows_malloc k (ip_store (t_ip (tcp_of w)))) as G. unfold yields in G. rewrite Em in G. unfold store_grows in G.
  rewrite (apart (P := nstate)). split; [rewrite part_get_set; simpl; lia|]. split; [done|].
  unfold malloc, alloc_block in Em. destruct (mallocs _) as [|[j|] q]; injection Em as <- <-; try done; intros [= E']; lia.
Qed.
Lemma alloc_held w : held (in_call conn th len S E) w →
  yields netconn_alloc w (λ r w', held (in_call conn th len S E) w' ∧ ∀ nw, r = Some nw → nw ≠ conn ∧ unmarked nw (net_of w')).
Proof.
  intros Hw. unfold netconn_alloc. eapply yields_then; [apply heap_malloc_fresh, Hw|]. intros r w1 (Hf1 & E1 & Hr).
  assert (held (in_call conn th len S E) w1) as H1 by (split; [done|rewrite E1; apply Hw]).
  destruct r as [nw|]; [|by apply yields_ret]. assert (nw ≠ conn) as Hne by congruence.
  assert (stable (calm S E) mbox_new) as Hnew by (unfold mbox_new; held_tac; apply calm_boxes).
  eapply yields_then; [exact (stable_preserves _ _ _ Hnew H1)|]. intros [m|] w2 H2; cycle 1.
  { eapply yields_then; [eapply (stable_preserves (held (in_call conn th len S E))); [|exact H2]; held_tac|]. intros [] w3 H3. by apply yields_ret. }
  eapply (yields_nc _ _ _ (λ _ n', n' = put_netconn nw (mk_netconn NETCONN_NONE None ERR_OK (Some m) None 0 0 None) (net_of w2))); [done|].
  intros [] w3 E3 T3. apply yields_ret. destruct H2 as [Hf2 [Hu Hn]]. split; [split; [unfold heap_of in *; by rewrite T3|]|].
  - rewrite E3. split.
    + intros l c Hl. simpl. destruct (decide (l = nw)) as [->|Hd]; [rewrite lookup_insert_eq|rewrite lookup_insert_ne by done; by apply Hu].
      by intros [= <-].
    + unfold sleeping, woken, writing, sem_of in *. simpl. by rewrite lookup_insert_ne.
  - intros nw' [= <-]. split; [done|]. rewrite E3. eexists. simpl. rewrite lookup_insert_eq. by split.
Qed.

Lemma preserves_and {T A} (I J : T → Prop) (m : M T A) : stable (preserves I) m → stable (preserves J) m → stable (preserves (λ s, I s ∧ J s)) m.
Proof. intros HI HJ s. specialize (HI s). specialize (HJ s). unfold yields, preserves in *. destruct (m s) as [[a s']|]; [tauto|done]. Qed.
Abbreviation new_too nw := (λ n, in_call conn th len S E n ∧ unmarked nw n).
Lemma new_update nw f : nw ≠ conn → (∀ c, nc_current_msg (f c) = nc_current_msg c ∧ nc_state (f c) = nc_state c ∧ nc_flags (f c) = nc_flags c) →
  stable (preserves (new_too nw)) (update_netconn nw f).
Proof.
  intros Hne Hf. apply preserves_and.
  - apply calm_update; [intros c; by destruct (Hf c) as (-> & _)|intros c; by destruct (Hf c) as (_ & -> & _)|by left].
  - apply preserves_stable. intros n (c & Hc & H0). unfold yields, update_netconn, get_netconn. rewrite Hc. simpl.
    exists (f c). simpl. rewrite lookup_insert_eq. destruct (Hf c) as (_ & _ & ->). by split.
Qed.
Lemma new_trypost nw mbox msg : stable (preserves (new_too nw)) (mbox_trypost mbox msg).
Proof. unfold mbox_trypost. stable_tac; intros H; exact H. Qed.
Lemma new_boxes nw bs : stable (preserves (new_too nw)) (modify (λ n, n <| n_mboxes := bs n |>)).
Proof. apply stable_modify. intros n H. exact H. Qed.
#[local] Hint Resolve new_trypost : stable.
Lemma new_free_all nw l : stable (preserves (held (new_too nw))) (free_all l).
Proof. induction l; cbn [free_all]; held_tac. Qed.
#[local] Hint Resolve new_free_all : stable.
Lemma new_mbox_free nw mbox : stable (preserves (held (new_too nw))) (mbox_free mbox).
Proof. unfold mbox_free. held_tac. apply new_boxes. Qed.
Lemma new_setup nw : stable (preserves (held (new_too nw))) (setup_tcp nw).
Proof. unfold setup_tcp. held_tac. Qed.
#[local] Hint Resolve new_mbox_free new_setup : stable.
(** A netconn that was never marked as closing is never freed. *)
Lemma new_never_freed nw : stable (preserves (held (new_too nw))) (netconn_free nw).
Proof.
  apply preserves_stable. intros w [_ [_ (c & Hc & Hf)]]. unfold netconn_free. apply yields_netconn. intros c' _.
  apply yields_bind, yields_assert. intros _. apply yields_bind. cbn [netconn_drain]. apply yields_netconn. intros c2 Hc2.
  rewrite Hc in Hc2. injection Hc2 as <-. apply yields_bind, yields_assert. unfold netconn_is_flag_set. by rewrite Hf.
Qed.
#[local] Hint Resolve new_never_freed : stable.
Lemma held_accept_function a pcb err : stable (calm S E) (netconn_accept_function a pcb err).
Proof.
  destruct a as [l|]; [|apply stable_ret; apply _]. unfold netconn_accept_function. cbv zeta. call_step; [call_tac|].
  call_step; [call_tac|]. destruct pcb as [pcb|]; [|call_tac]. call_step; [call_tac|].
  apply preserves_stable. intros w Hw. eapply yields_then; [by apply alloc_held|]. intros [nw|] w1 [H1 Hnw].
  2: { apply stable_preserves; [|done]. call_tac. }
  destruct (Hnw nw eq_refl) as [Hne Hun].
  eapply yields_mono; [apply (stable_preserves (held (new_too nw))); [|split; [apply H1|split; [apply H1|exact Hun]]]|].
  - held_tac; by apply new_update.
  - intros e w' [Hf [H _]]. by split.
Qed.

(** No callback of TCP takes the call away. *)
Lemma client_held : client_respects (tcp_client0 := netconn_client) (calm S E).
Proof.
  split; intros; cbn; [apply held_recv_tcp|by apply held_sent_tcp|by apply held_poll_tcp|by apply err_tcp_held
    |apply held_accept_function|apply held_do_connected].
Qed.
Lemma tcp_call_held c : stable (calm S E) (run_tcp_call c).
Proof. apply env_tcp_call; [apply _|apply held_tc|apply held_driver|apply held_timers|apply client_held]. Qed.
End cases.
End held.
End world.
