(* ===== verification/NetconnFacts.v ===== *)
(** * Netconns: connections that die, and more connections than fit

    When the stack drops a connection it calls [err_tcp] of the netconn.  A thread
    of the application that is asleep in a write on that connection is then woken,
    and its call fails.  A listener whose mailbox of accepted connections is full
    cannot turn the next one away. *)

From S2P Require Import Prelude Mbox Heap Pbuf PbufData Frame Def Chksum Addr Timeouts Header Ip4 Tcp TcpOut TcpSend TcpFrame TcpOutFrame TcpInCalls TcpStates TcpApi TcpEnv TcpIn Netconn NetconnCalls NetconnApi TcpConn AppWorld.

Implicit Types n : nstate.

(** ** A connection that dies *)

(** A mailbox that a message can be posted to, full or not. *)
Definition mbox_ok n (mbox : option loc) : Prop :=
  ∀ l, mbox = Some l → ∃ b q, n_mboxes n !! l = Some b ∧ Seq.ring (mb_ring b) q ∧ Seq.counters_ok (mb_ring b).
Lemma new_mbox_ok n l sems : n_mboxes n !! l = Some (mk_mbox_blk sys_mbox_new sems) → mbox_ok n (Some l).
Proof.
  intros Hl l' [= <-]. exists (mk_mbox_blk sys_mbox_new sems), []. split; [exact Hl|]. split; [exact Seq.ring_new|].
  split; cbn [mb_ring last first sys_mbox_new]; unfold INT_MAX, SYS_MBOX_SIZE; lia.
Qed.
(** The message for an error with which a block goes. *)
Definition fatal_msg (err : err_t) : mbox_msg :=
  match err with ERR_ABRT => Msg_aborted | ERR_RST => Msg_reset | _ => Msg_closed end.

(** What a mailbox with the messages [q] holds after an attempt to post one more. *)
Definition posted (q : list mbox_msg) (msg : mbox_msg) : list mbox_msg := if zlen q =? SYS_MBOX_SIZE - 1 then q else q ++ [msg].

Lemma trypost_runs n l b q msg : n_mboxes n !! l = Some b → Seq.ring (mb_ring b) q → Seq.counters_ok (mb_ring b) →
  runs (mbox_trypost (Some l) msg) n (λ _ n', ∃ b', n' = n <| n_mboxes := <[l := b']> (n_mboxes n) |> ∧ Seq.ring (mb_ring b') (posted q msg)).
Proof.
  intros Hb Hq Hc. unfold mbox_trypost. apply runs_bind, runs_assert; [done|]. apply runs_bind, runs_ret.
  apply runs_bind. eapply runs_ask; [by rewrite Hb|]. cbv beta. pose proof (Seq.ring_room _ _ Hq) as Hroom.
  assert (∃ e r, Seq.sys_mbox_trypost msg (mb_ring b) = Val (e, r) ∧ Seq.ring r (posted q msg)) as (e & r & E & Hp).
  { unfold Seq.sys_mbox_trypost, posted. rewrite (Seq.mbox_full_spec _ q Hq Hc). cbn [rbind]. destruct (zlen q =? SYS_MBOX_SIZE - 1) eqn:Ef; bool_prop.
    - by exists ERR_MEM, (mb_ring b).
    - destruct (Seq.mbox_store_spec msg (mb_ring b) q Hq Hc) as (r & -> & Hr & _); [lia|]. by exists ERR_OK, r. }
  apply runs_bind. eapply runs_ask; [exact E|]. cbv beta. apply runs_bind, runs_modify, runs_ret. by exists (mk_mbox_blk r (mb_sems b)).
Qed.

(** A connection, not a listener, on which the thread [th] is in a call that waits:
    a write, a connect or a close. *)
Record waits_for n (conn : loc) (th : thread_id) (c : netconn) (m : api_msg) : Prop := {
  wf_conn : netconns n !! conn = Some c;
  wf_state : nc_state c = NETCONN_WRITE ∨ nc_state c = NETCONN_CLOSE ∨ nc_state c = NETCONN_CONNECT;
  wf_blocking : IN_NONBLOCKING_CONNECT c = false;
  wf_current : nc_current_msg c = Some th;
  wf_msg : api_msgs n !! th = Some m;
  wf_accept : nc_acceptmbox c = None;
  wf_recv : mbox_ok n (nc_recvmbox c)
}.
(** The connection is gone, and the call of [th] is over with [err]. *)
Record told_dead (conn : loc) (th : thread_id) (m : api_msg) (err err' : err_t) n n' : Prop := {
  td_conn : ∃ c', netconns n' !! conn = Some c' ∧ nc_state c' = NETCONN_NONE ∧ nc_pcb c' = None ∧ nc_current_msg c' = None ∧ nc_pending_err c' = err;
  td_msg : api_msgs n' !! th = Some (m <| am_err := err' |>);
  td_sem : sem_of n' th = sys_sem_signal (sem_of n th)
}.

Lemma err_to_msg err n : fatal err → lwip_netconn_err_to_msg err n = Val (fatal_msg err, n).
Proof. by intros [-> |[-> | ->]]. Qed.
Lemma post_runs n c mbox msg : mbox_ok n mbox →
  runs (post_if_valid c mbox msg) n (λ _ n', ∃ bs, n' = n <| n_mboxes := bs |>).
Proof.
  intros Hok. unfold post_if_valid. destruct (NETCONN_MBOX_VALID c mbox) eqn:Ev; [|apply runs_ret; exists (n_mboxes n); by destruct n].
  unfold NETCONN_MBOX_VALID in Ev. bool_prop. destruct mbox as [l|]; [|naive_solver]. destruct (Hok l eq_refl) as (b & q & Hb & Hq & Hc).
  apply runs_bind. eapply runs_mono; [by eapply trypost_runs|]. intros e n' (b' & -> & _). apply runs_ret. by eexists.
Qed.

Section calls.
Context {W : Type} `{!Part tstate W} `{!netif_driver W} `{!Part timeouts W} `{!timer_client W} `{!Part nstate W} `{!Part conns W}.
Context `{!Apart nstate tstate W} `{!Apart tstate nstate W} `{!Apart nstate timeouts W} `{!Apart tstate timeouts W}.
Implicit Types w : W.

Abbreviation tc m := (lift (P := tstate) (S := W) m).
Abbreviation nc m := (lift (P := nstate) (S := W) m).

Lemma runs_nc {A B} (m : M nstate A) (f : A → M W B) n w (Q : B → W → Prop) :
  runs m n (λ a n', runs (f a) (part_set n' w) Q) → runs (mbnd (nc m) f) (part_set n w) Q.
Proof. intros H. apply runs_bind, runs_part. exact H. Qed.
Lemma runs_netconn {B} conn c (f : netconn → M W B) n w (Q : B → W → Prop) : netconns n !! conn = Some c →
  runs (f c) (part_set n w) Q → runs (mbnd (the_netconn conn) f) (part_set n w) Q.
Proof. intros Hc H. apply runs_nc. apply (runs_ask _ _ c); [unfold get_netconn; by rewrite Hc|exact H]. Qed.
Lemma runs_update {B} conn c g (f : unit → M W B) n w (Q : B → W → Prop) : netconns n !! conn = Some c →
  runs (f tt) (part_set (put_netconn conn (g c) n) w) Q → runs (mbnd (nc (update_netconn conn g)) f) (part_set n w) Q.
Proof. intros Hc H. apply runs_nc. unfold runs, update_netconn, get_netconn. by rewrite Hc. Qed.

(** The end of the call of the thread that waits. *)
Lemma end_call_runs conn th c m err n w : netconns n !! conn = Some c → nc_current_msg c = Some th → api_msgs n !! th = Some m →
  runs (let! '(th, m) := current_msg conn in do! nc (complete conn th err); nc (signal_thread th)) (part_set n w) (λ _ w', ∃ n', w' = part_set n' w ∧
    netconns n' !! conn = Some (c <| nc_current_msg := None |>) ∧ api_msgs n' = <[th := m <| am_err := err |>]> (api_msgs n) ∧
    sem_of n' th = sys_sem_signal (sem_of n th)).
Proof.
  intros Hc Hcur Hm. unfold current_msg. apply runs_bind. apply (runs_netconn conn c); [done|]. rewrite Hcur.
  apply runs_bind, runs_assert; [done|]. apply runs_bind, runs_ret.
  apply runs_nc. apply (runs_ask _ _ m); [unfold get_msg; by rewrite Hm|]. apply runs_ret. cbv beta iota.
  apply runs_nc. unfold complete. apply runs_bind. unfold runs at 1, update_msg, get_msg. rewrite Hm. cbn [deref rbind].
  unfold runs at 1, update_netconn, get_netconn. simpl. rewrite Hc. simpl.
  apply runs_part. unfold signal_thread. apply runs_modify. eexists. split; [done|]. simpl. split_and!; [apply lookup_insert_eq|done|].
  unfold sem_of. simpl. by rewrite lookup_insert_eq.
Qed.

Lemma err_tcp_runs conn th c m err n w : waits_for n conn th c m → fatal err →
  runs (netconn_err_tcp (Some conn) err) (part_set n w) (λ _ w', ∃ n', w' = part_set n' w ∧
    told_dead conn th m err (if decide (nc_state c = NETCONN_CLOSE) then ERR_OK else err) n n').
Proof.
  intros [Hc Hs Hb Hcur Hm Ha Hr] Hf. unfold netconn_err_tcp. apply runs_bind, runs_assert; [done|]. apply runs_bind, runs_ret.
  apply (runs_netconn conn c); [done|]. apply (runs_update conn c); [done|]. cbv beta.
  set (c1 := c <| nc_pcb := None |> <| nc_pending_err := err |> <| nc_flags := u8 (Z.lor (nc_flags c) NETCONN_FLAG_MBOXCLOSED) |> <| nc_state := NETCONN_NONE |>).
  apply runs_nc. unfold runs at 1. rewrite err_to_msg by done.
  assert (netconns (put_netconn conn c1 n) !! conn = Some c1) as Hc1 by apply lookup_insert_eq.
  apply (runs_netconn conn c1); [done|]. apply runs_nc. eapply runs_mono; [by apply post_runs|]. intros [] n2 [bs ->].
  apply runs_nc. unfold post_if_valid, NETCONN_MBOX_VALID. simpl nc_acceptmbox. rewrite Ha. cbn [bool_decide andb decide].
  rewrite bool_decide_false by (by intros H). cbn [andb]. apply runs_ret.
  assert (IN_NONBLOCKING_CONNECT c1 = false) as Hb1.
  { revert Hb. unfold IN_NONBLOCKING_CONNECT, NETCONN_FLAG_IN_NONBLOCKING_CONNECT. change 4 with (2 ^ 2). rewrite !flag_test by lia.
    intros Hb. change (nc_flags c1) with (u8 (Z.lor (nc_flags c) NETCONN_FLAG_MBOXCLOSED)). by rewrite flags_lor, Hb by lia. }
  set (n2 := put_netconn conn c1 n <| n_mboxes := bs |>).
  assert (match nc_state c with NETCONN_WRITE | NETCONN_CLOSE | NETCONN_CONNECT => true | _ => false end = true) as Hw by (by destruct Hs as [-> |[-> | ->]]).
  assert (netconns n2 !! conn = Some c1) as Hc2 by done.
  set (c2 := c1 <| nc_flags := u8 (Z.land (nc_flags c1) (Z.land (Z.lnot NETCONN_FLAG_IN_NONBLOCKING_CONNECT) 255)) |>).
  assert (∀ err', runs (let! c := the_netconn conn in do! nc (SET_NONBLOCKING_CONNECT conn false);
      if IN_NONBLOCKING_CONNECT c then ret tt else
      let! '(th, m) := current_msg conn in do! nc (complete conn th err'); nc (signal_thread th)) (part_set n2 w)
    (λ _ w', ∃ n', w' = part_set n' w ∧ told_dead conn th m err err' n n')) as H.
  { intros err'. apply (runs_netconn conn c1); [done|]. apply (runs_update conn c1); [done|]. rewrite Hb1.
    eapply runs_mono; [apply (end_call_runs conn th c2 m); [apply lookup_insert_eq|done..]|]. intros [] w' (n' & -> & H1 & H2 & H3).
    exists n'. split; [done|]. split; [by eexists|by rewrite H2, lookup_insert_eq|done]. }
  destruct (nc_state c); try done; apply H.
Qed.

(** ** A thread that waits to write *)

(** The driver does not know of netconns. *)
Context `{!netif_driver_keeps W}.
Context (driver_apart : ∀ p d, stable (on_part (P := nstate) eq) (netif_output (W := W) p d)).
Abbreviation net_of w := (part_get (P := nstate) w).
Abbreviation tcp_of w := (part_get (P := tstate) w).

(** [conn] is there, and the thread is in no call. *)
Record ready (conn : loc) (th : thread_id) w : Prop := {
  rd_given : (conn < next_loc (heap_of w))%positive;
  rd_idle l c : netconns (net_of w) !! l = Some c → nc_current_msg c ≠ Some th;
  rd_connect c : netconns (net_of w) !! conn = Some c → IN_NONBLOCKING_CONNECT c = false;
  rd_sem : sem_of (net_of w) th = 0
}.
(** Since [w0] the thread has begun to write [len] bytes. *)
Definition begun (conn : loc) (th : thread_id) (len : Z) w0 w : Prop :=
  held conn (λ n, sole_call conn th n ∧ writing conn th len n ∧ (∀ c, netconns n !! conn = Some c → IN_NONBLOCKING_CONNECT c = false) ∧
    sem_of n th = sem_of (net_of w0) th) w.

Lemma do_write_waits th conn len w : ready conn th w →
  (∃ c, netconns (net_of w) !! conn = Some c ∧ netconn_is_nonblocking c = false) →
  (∃ m, api_msgs (net_of w) !! th = Some m ∧ to_write len m) →
  yields (lwip_netconn_do_write th conn) w (λ waits w', waits = true → begun conn th len w w').
Proof.
  intros [Hg Hi Hb0 Hsem] (c & Hc & Hnb) (m & Hm & Htw). unfold lwip_netconn_do_write.
  assert (∀ err w1, yields (do! set_msg_err th err; ret false) w1 (λ waits w', waits = true → begun conn th len w w')) as Hno.
  { intros err w1. apply (yields_mono _ _ (λ waits _, waits = false)); [|congruence]. apply yields_any_bind. intros. by apply yields_ret. }
  unfold netconn_err. apply yields_bind, yields_netconn. intros c' Hc'. rewrite Hc in Hc'. injection Hc' as <-.
  apply yields_update. intros c' w1 Hc' E1 T1. rewrite Hc in Hc'. injection Hc' as <-. apply yields_ret.
  destruct (negb (is_ok (nc_pending_err c))); [apply Hno|]. set (c1 := c <| nc_pending_err := ERR_OK |>) in *.
  assert (netconns (net_of w1) !! conn = Some c1) as Hc1 by (rewrite E1; apply lookup_insert_eq).
  apply yields_netconn. intros c' H. rewrite Hc1 in H. injection H as <-. case_bool_decide; [apply Hno|]. destruct (nc_pcb c1) eqn:Hp; [|apply Hno].
  apply yields_update. intros c2 w2 Hc2 E2 T2. rewrite Hc1 in Hc2. injection Hc2 as <-. apply yields_bind, yields_assert. intros _.
  apply yields_bind, yields_ask_lift. intros m' _. apply yields_bind, yields_assert. intros _.
  apply yields_update. intros c3 w3 Hc3 E3 T3. rewrite E2 in Hc3. simpl in Hc3. rewrite lookup_insert_eq in Hc3. injection Hc3 as <-.
  assert (begun conn th len w w3) as Hw3.
  { split; [unfold heap_of in *; by rewrite T3, T2, T1|]. rewrite E3, E2, E1. unfold writing. simpl. split_and!.
    - intros l c' Hne. simpl. rewrite !lookup_insert_ne by done. apply Hi.
    - eexists. rewrite lookup_insert_eq. split; [done|]. split_and!; [done|done|simpl in *; by rewrite Hp|done].
    - by exists m.
    - intros c'. rewrite lookup_insert_eq. intros [= <-]. exact (Hb0 c Hc).
    - done. }
  destruct Hw3 as [Hg3 (Hu3 & Hwr3 & Hb3 & Hs3)].
  eapply yields_then; [by apply (writemore_yields driver_apart conn th len false)|]. intros err w4 [G4 H4].
  destruct (is_ok err) eqn:He; cbn [negb]; [by apply yields_ret|]. apply yields_netconn. intros c4 _. apply yields_bind, yields_assert. intros _.
  apply yields_ret. intros _. pose proof (writing_kept _ _ _ _ _ H4 Hwr3) as Hwr4. destruct H4 as (_ & K4 & O4 & S4).
  split; [unfold store_grows in G4; lia|]. split_and!; [|exact Hwr4| |congruence].
  - intros l c' Hne. rewrite O4 by done. by apply Hu3.
  - destruct Hwr3 as [(c' & Hc' & _) _]. destruct (K4 c' Hc') as (c'' & Hc'' & _ & _ & _ & Hf). intros c5 Hc5.
    rewrite Hc'' in Hc5. injection Hc5 as <-. rewrite (waits_connect _ _ Hf). by apply Hb3.
Qed.

(** What is left of a write when the thread is asleep. *)
Definition rest_of_write (th : thread_id) (conn : loc) (length : Z) : thread W Z :=
  act! m := (do! state_is conn (λ s, bool_decide (s ≠ NETCONN_WRITE)); take_msg th) in
  step! lwip_assert (negb (is_ok (am_err m)) || (w_offset m =? u64 length)); Done (if is_ok (am_err m) then length else -1).
Definition asleep_in_write (th : thread_id) (conn : loc) (length : Z) (t : thread W Z) : Prop :=
  (∀ w, wait_sem th w = Val (None, w) → run_thread t w = Val (t, w)) ∧
  ∀ w w', wait_sem th w = Val (Some tt, w') → run_thread t w = run_thread (rest_of_write th conn length) w'.

Lemma write_asleep th conn data length c w t w1 : tcp_conns (part_get w) !! conn = Some c → ready (tc_conn c) th w →
  run_thread (tcp_conn_write th conn data length) w = Val (t, w1) → (∀ r, t ≠ Done r) →
  held (tc_conn c) (in_call (tc_conn c) th (u64 length) True (finished (u64 length))) w1 ∧ asleep_in_write th (tc_conn c) length t.
Proof.
  intros Hc Hrd Hrun Ht. unfold tcp_conn_write, netconn_write, netconn_write_partly, netconn_write_vectors_partly, netconn_apimsg in Hrun.
  cbn [run_thread tbind] in Hrun. unfold get_tcp_conn in Hrun. rewrite lift_ask_eq, Hc in Hrun. cbn [deref rbind] in Hrun.
  unfold the_netconn in Hrun. rewrite lift_ask_eq in Hrun. destruct (get_netconn (part_get w) (tc_conn c)) as [nc|] eqn:Hnc; [|done]. cbn [rbind] in Hrun.
  assert (∀ r, Val (Done r, w) ≠ Val (t, w1)) as Hdone by (intros r [= E _]; by apply (Ht r)).
  destruct (netconn_is_nonblocking nc) eqn:Hnb; [cbn [run_thread tbind orb andb negb] in Hrun; by destruct (Hdone _ Hrun)|].
  change (has_bits NETCONN_COPY NETCONN_DONTBLOCK) with false in Hrun. cbn [orb andb negb total_len nv_len] in Hrun. replace (u64 (0 + u64 length)) with (u64 length) in Hrun by (unfold u64; by rewrite Z.add_0_l, Z.mod_mod).
  rewrite (proj2 (Z.ltb_ge _ _) (Z.le_refl (u64 length))) in Hrun. set (size := u64 length) in *.
  destruct (size =? 0); [cbn [run_thread tbind] in Hrun; by destruct (Hdone _ Hrun)|].
  destruct (SSIZE_MAX <? size) eqn:Hmax; [cbn [run_thread tbind] in Hrun; by destruct (Hdone _ Hrun)|]. bool_prop. rewrite Z.min_l in Hrun by lia.
  change (false && true) with false in Hrun.
  cbn [run_thread tbind] in Hrun.
  match type of Hrun with context [match ?m w with Val _ => _ | Err _ => _ end] =>
    assert (yields m w (λ b w', b.1 = true → begun (tc_conn c) th size w w')) as Hy end.
  { apply yields_bind, yields_gets_lift. set (msg := _ <| w_len := size |>). eapply (yields_nc _ _ _ (λ _ n', n' = put_msg th msg (net_of w))); [done|].
    intros [] w0 E0 T0. apply yields_bind. eapply yields_mono; [apply (do_write_waits th (tc_conn c) size w0)|].
    - destruct Hrd as [Hg Hi Hb Hs]. split; [unfold heap_of in *; by rewrite T0|rewrite E0..]; [exact Hi|exact Hb|exact Hs].
    - unfold get_netconn in Hnc. rewrite E0. destruct (netconns (net_of w) !! tc_conn c) as [nc'|] eqn:E; [|done]. injection Hnc as ->. by exists nc.
    - rewrite E0. exists msg. simpl. rewrite lookup_insert_eq. by split.
    - intros waits w' H. apply yields_ret. intros Hw. destruct (H Hw) as [Hg (Hu & Hwr & Hb & Hs)]. split; [done|]. split_and!; try done.
      by rewrite Hs, E0. }
  unfold yields in Hy. match type of Hrun with context [match ?m w with Val _ => _ | Err _ => _ end] => destruct (m w) as [[[waits []] w2]|]; [|done] end.
  cbv beta iota in Hrun, Hy. destruct waits; cbn [run_thread tbind] in Hrun; cycle 1.
  { exfalso. destruct (take_msg th w2) as [[m w3]|]; [|done]. destruct (lwip_assert _ w3) as [[[] w4]|]; [|done].
    injection Hrun as <- _. by eapply Ht. }
  destruct (wait_sem th w2) as [[[[]|] w3]|] eqn:Ew; [| |done].
  { exfalso. destruct (mbnd _ _ w3) as [[m w4]|]; [|done]. destruct (lwip_assert _ w4) as [[[] w5]|]; [|done].
    injection Hrun as <- _. by eapply Ht. }
  injection Hrun as <- <-. destruct (Hy eq_refl) as [Hg (Hu & Hwr & Hb & Hs)]. split; [|split].
  - split; [done|]. split; [done|]. left. split; [done|]. split; [done|]. split; [done|]. rewrite Hs. apply Hrd.
  - intros w4 E. cbn [run_thread]. by rewrite E.
  - intros w4 w5 E. cbn [run_thread]. rewrite E. unfold rest_of_write. cbn [run_thread].
    destruct (mbnd _ _ w5) as [[m w6]|]; [|done]. by rewrite orb_false_r.
Qed.

(** *** What happens while it sleeps *)

(** What the rest of the process does leaves the call to the two of them: the state,
    the block and the message of [conn], and the message and semaphore of [th]. *)
Record let_be (conn : loc) (th : thread_id) w w' : Prop := {
  lb_grows : store_grows (heap_of w) (heap_of w');
  lb_conn c : netconns (net_of w) !! conn = Some c → ∃ c', netconns (net_of w') !! conn = Some c' ∧ nc_state c' = nc_state c ∧
    nc_current_msg c' = nc_current_msg c ∧ nc_pcb c' = nc_pcb c ∧ same_waits c c';
  lb_msg : api_msgs (net_of w') !! th = api_msgs (net_of w) !! th;
  lb_sem : sem_of (net_of w') th = sem_of (net_of w) th;
  lb_sole : sole_call conn th (net_of w) → sole_call conn th (net_of w')
}.
(** Any call of TCP, with all that it calls, or something else. *)
Inductive stack_event (conn : loc) (th : thread_id) : W → W → Prop :=
  | ev_tcp k w w' : run_tcp_call k w = Val (tt, w') → stack_event conn th w w'
  | ev_other w w' : let_be conn th w w' → stack_event conn th w w'.

Lemma let_be_held conn th len S E w w' : let_be conn th w w' →
  held conn (in_call conn th len S E) w → held conn (in_call conn th len S E) w'.
Proof.
  intros [G C M Se U] [Hw [Hu Hn]]. split; [unfold store_grows in G; lia|]. split; [by apply U|].
  destruct Hn as [[HS [[(c & Hc & ? & ? & ? & ?) Hm] [Hb Hs]]]|[(c & Hc & ? & ?) [Hm Hs]]]; destruct (C c Hc) as (c' & Hc' & ? & ? & ? & Hf).
  - left. split; [done|]. split; [split|split; [|congruence]].
    + exists c'. split; [done|]. unfold writes. rewrite (waits_nonblocking _ _ Hf). split_and!; congruence.
    + by rewrite M.
    + intros c2 Hc2. rewrite Hc' in Hc2. injection Hc2 as <-. rewrite (waits_connect _ _ Hf). by apply Hb.
  - right. split; [exists c'; split_and!; congruence|]. split; [by rewrite M|congruence].
Qed.
Lemma events_held conn th len (S : Prop) E w w' : (S → ∀ m, finished len m → E m) → star (stack_event conn th) w w' →
  held conn (in_call conn th len S E) w → held conn (in_call conn th len S E) w'.
Proof.
  intros HE. induction 1 as [|w1 w2 w3 _ IH Hev]; [done|]. intros H. specialize (IH H). destruct Hev as [k w2 w3 Hrun|w2 w3 Hl]; [|by eapply let_be_held].
  pose proof (tcp_call_held driver_apart conn th len S E HE k w2) as Hk. unfold yields in Hk. rewrite Hrun in Hk. by apply Hk.
Qed.

(** *** Waking up *)

(** An asleep thread does not move; one that was woken runs to its end. *)
Lemma sleeping_waits conn th len t length w : asleep_in_write th conn length t → sleeping conn th len (net_of w) →
  run_thread t w = Val (t, w).
Proof.
  intros [Ha _] (_ & _ & Hs). apply Ha. unfold wait_sem, lift. rewrite Hs. cbn. by rewrite part_set_get.
Qed.
Lemma woken_runs conn th length E t w : (∀ m, E m → finished (u64 length) m) → asleep_in_write th conn length t → woken conn th E (net_of w) →
  runs (run_thread t) w (λ r _, ∃ m, api_msgs (net_of w) !! th = Some m ∧ E m ∧ r = Done (if is_ok (am_err m) then length else -1)).
Proof.
  intros HE [_ Ha] ((c & Hc & Hs & _) & (m & Hm & He) & Hsem).
  assert (wait_sem th w = Val (Some tt, part_set ((net_of w) <| thread_sems := <[th := 0]> (thread_sems (net_of w)) |>) w)) as Ew.
  { unfold wait_sem, lift. by rewrite Hsem. }
  unfold runs. rewrite (Ha _ _ Ew). unfold rest_of_write, state_is, take_msg. cbn [run_thread]. set (w' := part_set _ w).
  assert (net_of w' = (net_of w) <| thread_sems := <[th := 0]> (thread_sems (net_of w)) |>) as E' by apply part_get_set.
  unfold mbnd at 1 2, the_netconn. rewrite !lift_ask_eq, E'. unfold get_netconn. simpl. rewrite Hc. cbn [deref rbind].
  rewrite bool_decide_true by done. simpl. unfold mbnd. rewrite lift_ask_eq, E'. unfold get_msg. simpl. rewrite Hm. cbn [deref rbind]. unfold ret. cbv beta iota.
  assert (negb (is_ok (am_err m)) || (w_offset m =? u64 length) = true) as ->; [|simpl; by exists m].
  destruct (HE m He) as [_ Hf]. destruct (am_err m); try done. rewrite Hf by done. by rewrite Z.eqb_refl.
Qed.

Lemma runs_and_yields {A} (m : M W A) w (P Q : A → W → Prop) : runs m w P → yields m w Q → runs m w Q.
Proof. unfold runs, yields. by destruct (m w) as [[a w']|]. Qed.

(** C7: a thread that sleeps in [tcp_conn_write], because the other end or the
    network takes no more data, is not forgotten.  Take any time after it fell
    asleep, with any calls of TCP in between (segments that came in, ticks of the
    timers, the calls of other threads, and all the callbacks in them) and anything
    else that leaves this call alone.  Either the thread still waits, and its netconn
    is still in the write and still has its block; or the thread runs to its end
    without waiting again: -1, or the length once every byte was taken.  So when the
    connection has died, the thread is awake.  And when it dies while the thread
    waits (reset, aborted or timed out: [err_tcp] is called), [err_tcp] returns,
    and at any time after that the thread runs to its end with -1. *)
Theorem tcp_conn_write_wakes th conn data length c w t w1 w2 : tcp_conns (part_get w) !! conn = Some c → ready (tc_conn c) th w →
  run_thread (tcp_conn_write th conn data length) w = Val (t, w1) → (∀ r, t ≠ Done r) →
  star (stack_event (tc_conn c) th) w1 w2 →
  (∃ nc, netconns (net_of w2) !! tc_conn c = Some nc ∧ nc_state nc = NETCONN_WRITE ∧ nc_pcb nc ≠ None ∧ run_thread t w2 = Val (t, w2) ∧
     ∀ err, fatal err → mbox_ok (net_of w2) (nc_recvmbox nc) → nc_acceptmbox nc = None →
       runs (netconn_err_tcp (Some (tc_conn c)) err) w2 (λ _ w3, ∀ w4, star (stack_event (tc_conn c) th) w3 w4 →
         runs (run_thread t) w4 (λ r _, r = Done (-1)))) ∨
  runs (run_thread t) w2 (λ r _, ∃ m, api_msgs (net_of w2) !! th = Some m ∧
    if is_ok (am_err m) then r = Done length ∧ w_offset m = u64 length else r = Done (-1)).
Proof.
  intros Hc Hrd Hrun Ht Hev. destruct (write_asleep th conn data length c w t w1 Hc Hrd Hrun Ht) as [H1 Ha].
  pose proof (events_held _ _ _ _ _ _ _ (λ _ m H, H) Hev H1) as [Hg [Hu [[_ Hsl]|Hwk]]]; [left|right].
  - pose proof Hsl as [[(nc & Hn & Hs & Hcur & Hp & Hnb) (m & Hm & _)] [Hb _]]. exists nc. split_and!; try done; [by eapply sleeping_waits|].
    intros err Hf Hr Hacc. assert (waits_for (net_of w2) (tc_conn c) th nc m) as Hw by (split; [done|by left|by apply Hb|done..]).
    apply (runs_and_yields _ _ (λ _ _, True)).
    { rewrite <- (part_set_get (P := nstate) w2). eapply runs_mono; [by apply (err_tcp_runs (tc_conn c) th nc m)|done]. }
    eapply yields_mono; [by apply err_tcp_own|]. intros [] w3 (Hu3 & Hw3 & T3) w4 Hev4.
    set (E := λ m, w_len m = u64 length ∧ am_err m = err) in Hw3.
    assert (∀ m, E m → finished (u64 length) m) as HE.
    { intros m' [Hl He]. split; [done|]. rewrite He. by destruct Hf as [-> |[-> | ->]]. }
    assert (held (tc_conn c) (in_call (tc_conn c) th (u64 length) False E) w3) as H3.
    { split; [unfold heap_of in *; by rewrite T3|]. split; [done|by right]. }
    destruct (events_held _ _ _ _ _ _ _ (λ H, False_ind _ H) Hev4 H3) as [_ [_ [[[] _]|Hw4]]].
    eapply runs_mono; [by apply (woken_runs (tc_conn c) th length E)|]. intros r w' (m' & _ & [_ He] & ->). rewrite He.
    by destruct Hf as [-> |[-> | ->]].
  - eapply runs_mono; [by apply (woken_runs (tc_conn c) th length (finished (u64 length)))|]. intros r w' (m & Hm & [Hl Hf] & ->). exists m. split; [done|].
    destruct (am_err m); try done. by rewrite Hf.
Qed.

(** ** A full mailbox of connections *)

Abbreviation st m := (lift (P := tstate) (S := W) (lift (P := ipstate) (lift (P := store) m))).

Lemma stops_nc {A B} (m : M nstate A) (f : A → M W B) w (P : A → nstate → Prop) (Q : B → W → Prop) :
  stops m (net_of w) P →
  (∀ a w', P a (net_of w') → tcp_of w' = tcp_of w → stops (f a) w' Q) → stops (mbnd (nc m) f) w Q.
Proof.
  intros Hm Hf. unfold stops, mbnd, lift in *. destruct (m (net_of w)) as [[a n]|]; [|done].
  apply Hf; [by rewrite part_get_set|apply apart].
Qed.
Lemma stops_tc {A B} (m : M tstate A) (f : A → M W B) w (P : A → tstate → Prop) (Q : B → W → Prop) :
  stops m (tcp_of w) P →
  (∀ a w', P a (tcp_of w') → net_of w' = net_of w → stops (f a) w' Q) → stops (mbnd (tc m) f) w Q.
Proof.
  intros Hm Hf. unfold stops, mbnd, lift in *. destruct (m (tcp_of w)) as [[a t]|]; [|done].
  apply Hf; [by rewrite part_get_set|apply apart].
Qed.
Lemma stops_netconn {B} conn c (f : netconn → M W B) w (Q : B → W → Prop) :
  netconns (net_of w) !! conn = Some c → stops (f c) w Q → stops (mbnd (the_netconn conn) f) w Q.
Proof.
  intros Hc H. unfold the_netconn, stops, mbnd. rewrite lift_ask_eq. unfold get_netconn. rewrite Hc. exact H.
Qed.
Lemma stops_update {B} conn c g (f : unit → M W B) w (Q : B → W → Prop) :
  netconns (net_of w) !! conn = Some c →
  (∀ w', net_of w' = put_netconn conn (g c) (net_of w) → tcp_of w' = tcp_of w → stops (f tt) w' Q) →
  stops (mbnd (nc (update_netconn conn g)) f) w Q.
Proof.
  intros Hc H. eapply (stops_nc _ _ _ (λ _ n', n' = put_netconn conn (g c) (net_of w))); [|intros [] w' E ?; by apply H].
  unfold stops, update_netconn, get_netconn. by rewrite Hc.
Qed.

(** *** The heap from here *)

(** A call on the heap. *)
Definition with_heap (t : tstate) (s : store) : tstate := t <| t_ip := (t_ip t) <| ip_store := s |> |>.
Lemma stops_st {A B} (m : M store A) (f : A → M W B) w (P : A → store → Prop) (Q : B → W → Prop) :
  stops m (heap_of w) P →
  (∀ a w', P a (heap_of w') → tcp_of w' = with_heap (tcp_of w) (heap_of w') → net_of w' = net_of w → stops (f a) w' Q) →
  stops (mbnd (st m) f) w Q.
Proof.
  intros Hm Hf. unfold heap_of in *. eapply (stops_tc _ _ _ (λ a t', P a (ip_store (t_ip t')) ∧ t' = with_heap (tcp_of w) (ip_store (t_ip t')))).
  - unfold stops, lift in *. simpl. destruct (m _) as [[a s]|]; done.
  - intros a w' [? ?] ?. by apply Hf.
Qed.

(** The blocks [ls], all different, are allocated. *)
Definition owned (ls : list loc) (s : store) : Prop := NoDup ls ∧ ∀ a, a ∈ ls → is_Some (blocks s !! a).
(** Nothing but allocation: the blocks of [s] stand, and addresses only grow. *)
Definition extends (s s' : store) : Prop :=
  (next_loc s ≤ next_loc s')%positive ∧ ∀ a, (a < next_loc s)%positive → is_Some (blocks s !! a) → is_Some (blocks s' !! a).
#[local] Instance extends_preorder : PreOrder extends.
Proof. split; [intros s; split; [lia|done]|]. intros a b c [H1 H2] [H3 H4]. split; [lia|]. intros x Hx Hb. apply H4; [lia|by apply H2]. Qed.

Definition fresh_block (s : store) (a : loc) (s' : store) : Prop :=
  a = next_loc s ∧ (a < next_loc s')%positive ∧ is_Some (blocks s' !! a) ∧ extends s s'.
Lemma malloc_stops k s : stops (malloc k) s (λ r s', extends s s' ∧ ∀ a, r = Some a → fresh_block s a s').
Proof.
  assert (∀ d m, let s' := (s <| mallocs := m |>) <| blocks := <[next_loc s := d]> (blocks s) |> <| next_loc := Pos.succ (next_loc s) |> in
    extends s s' ∧ ∀ a, Some (next_loc s) = Some a → fresh_block s a s') as H.
  { intros d m s'. assert (extends s s') as He.
    { split; [simpl; lia|]. intros a Ha Hb. simpl. rewrite lookup_insert_ne by lia. done. }
    split; [exact He|]. intros a [= <-]. split; [done|]. split; [simpl; lia|]. split; [|exact He].
    simpl. rewrite lookup_insert_eq. by eexists. }
  unfold stops, malloc, alloc_block. destruct (mallocs s) as [|[j|] r] eqn:E.
  - specialize (H (fit k []) []). destruct s. simpl in *. rewrite E in *. exact H.
  - exact (H (fit k j) r).
  - split; [|done]. split; [simpl; lia|done].
Qed.

(** *** The netconn for the connection *)

Definition NEW_NETCONN (mbox : option loc) : netconn := mk_netconn NETCONN_NONE None ERR_OK mbox None 0 0 None.

(** [nw] is a new netconn, with a mailbox of its own. *)
Definition new_netconn w (nw : loc) w' : Prop :=
  ∃ m a b d, netconns (net_of w') !! nw = Some (NEW_NETCONN (Some m)) ∧
    n_mboxes (net_of w') !! m = Some (mk_mbox_blk sys_mbox_new [a; b; d]) ∧ owned [a; b; d; m] (heap_of w') ∧
    (next_loc (heap_of w) ≤ m)%positive ∧ ∀ l, l ≠ m → n_mboxes (net_of w') !! l = n_mboxes (net_of w) !! l.

Lemma malloc_yields k s : yields (malloc k) s (λ r s', extends s s' ∧ ∀ a, r = Some a → fresh_block s a s').
Proof. pose proof (malloc_stops k s) as H. unfold stops, yields in *. by destruct (malloc k s) as [[a s']|]. Qed.
Lemma yields_st {A B} (m : M store A) (f : A → M W B) w (P : A → store → Prop) (Q : B → W → Prop) :
  yields m (heap_of w) P →
  (∀ a w', P a (heap_of w') → tcp_of w' = with_heap (tcp_of w) (heap_of w') → net_of w' = net_of w → yields (f a) w' Q) →
  yields (mbnd (st m) f) w Q.
Proof.
  intros Hm Hf. unfold yields, mbnd, lift, heap_of, with_heap in *. simpl.
  change (part_get (part_get (tcp_of w))) with (ip_store (t_ip (tcp_of w))). 
  destruct (m (ip_store (t_ip (tcp_of w)))) as [[a s]|]; [|done].
  apply Hf; rewrite ?part_get_set; [done|done|apply apart].
Qed.
Lemma with_heap_trans t s1 s2 : with_heap (with_heap t s1) s2 = with_heap t s2.
Proof. by destruct t as [[]]. Qed.

Lemma mbox_new_yields w : yields mbox_new w (λ r w', tcp_of w' = with_heap (tcp_of w) (heap_of w') ∧ extends (heap_of w) (heap_of w') ∧
  match r with
  | None => net_of w' = net_of w
  | Some m => ∃ a b d bs, net_of w' = (net_of w) <| n_mboxes := bs |> ∧ bs !! m = Some (mk_mbox_blk sys_mbox_new [a; b; d]) ∧
      owned [a; b; d; m] (heap_of w') ∧ (next_loc (heap_of w) ≤ m)%positive ∧ ∀ l, l ≠ m → bs !! l = n_mboxes (net_of w) !! l
  end).
Proof.
  unfold mbox_new. eapply yields_st; [apply malloc_yields|]. intros r w1 [X1 F1] T1 N1. destruct r as [m|]; [|by apply yields_ret].
  specialize (F1 m eq_refl). destruct F1 as (Em & Lm & Bm & _).
  eapply yields_st; [apply malloc_yields|]. intros ra w2 [X2 F2] T2 N2.
  eapply yields_st; [apply malloc_yields|]. intros rb w3 [X3 F3] T3 N3.
  eapply yields_st; [apply malloc_yields|]. intros rd w4 [X4 F4] T4 N4.
  apply yields_bind, yields_valid_ptr. intros a ->. apply yields_bind, yields_valid_ptr. intros b ->.
  apply yields_bind, yields_valid_ptr. intros d ->.
  destruct (F2 a eq_refl) as (Ea & La & Ba & _), (F3 b eq_refl) as (Eb & Lb & Bb & _), (F4 d eq_refl) as (Ed & Ld & Bd & _).
  unfold yields, mbnd, lift, modify, ret. unfold heap_of. rewrite apart, part_get_set. fold (heap_of w4).
  assert (extends (heap_of w) (heap_of w4)) as X by (etrans; [exact X1|]; etrans; [exact X2|]; by etrans).
  destruct X1 as [L1 _], X2 as [L2 H2], X3 as [L3 H3], X4 as [L4 H4].
  split; [by rewrite T4, T3, T2, T1, !with_heap_trans|]. split; [exact X|].
  exists a, b, d, (<[m := mk_mbox_blk sys_mbox_new [a; b; d]]> (n_mboxes (net_of w4))).
  split; [by rewrite N4, N3, N2, N1|]. split; [apply lookup_insert_eq|]. split; [split|split].
  - subst. repeat (apply NoDup_cons_2; [rewrite ?not_elem_of_cons; split_and?; try apply not_elem_of_nil; lia|]). apply NoDup_nil_2.
  - intros x. rewrite !elem_of_cons, elem_of_nil. intros [->|[->|[->|[->|[]]]]]; subst; [|auto..].
    + apply H4; [lia|]. by apply H3.
    + apply H4; [lia|]. apply H3; [lia|]. by apply H2.
  - rewrite Em. apply Pos.le_refl.
  - intros l Hl. rewrite lookup_insert_ne by done. by rewrite N4, N3, N2, N1.
Qed.

Lemma netconn_alloc_yields w : yields netconn_alloc w (λ r w', tcp_of w' = with_heap (tcp_of w) (heap_of w') ∧
  match r with None => net_of w' = net_of w | Some nw => new_netconn w nw w' end).
Proof.
  unfold netconn_alloc. eapply yields_st; [apply malloc_yields|]. intros r w1 [X1 F1] T1 N1. destruct r as [nw|]; [|by apply yields_ret].
  eapply yields_then; [apply mbox_new_yields|]. intros r w2 (T2 & X2 & H2). simpl in T2, X2, H2. destruct r as [m|].
  - destruct H2 as (a & b & d & bs & N2 & Hm & Ho & Hle & Hrest).
    apply yields_bind, yields_lift, yields_modify, yields_ret. set (w3 := part_set _ w2).
    assert (tcp_of w3 = tcp_of w2) as T3 by apply apart. assert (heap_of w3 = heap_of w2) as E3 by (unfold heap_of; by rewrite T3).
    assert (net_of w3 = put_netconn nw (NEW_NETCONN (Some m)) (net_of w2)) as N3 by apply part_get_set.
    rewrite E3. split; [by rewrite T3, T2, T1, with_heap_trans|]. exists m, a, b, d. rewrite E3, N3, N2.
    split; [apply lookup_insert_eq|]. split; [exact Hm|]. split; [exact Ho|]. destruct X1 as [L1 _].
    split; [lia|]. intros l Hl. rewrite <- N1. by apply Hrest.
  - eapply (yields_st _ _ _ (λ _ _, True)); [unfold yields; by destruct (memp_free _ _ _) as [[]|]|].
    intros a w3 _ T3 N3. apply yields_ret. split; [by rewrite T3, T2, T1, !with_heap_trans|by rewrite N3, H2, N1].
Qed.

(** *** The control block of the connection *)

Definition live (pcb : loc) (t : tstate) : Prop :=
  ∃ cb, tcp_mem t !! pcb = Some (Conn_pcb cb) ∧
    ∀ lp, tp_listener cb = Some lp → ∃ lb, tcp_mem t !! lp = Some (Listen_pcb lb).
(** A field other than the listener is changed. *)
Lemma update_live pcb f t : live pcb t → (∀ c, tp_listener (f c) = tp_listener c) →
  stops (update_tcp pcb f) t (λ _ t', live pcb t' ∧ ip_store (t_ip t') = ip_store (t_ip t)).
Proof.
  intros (cb & Hcb & Hl) Hf. unfold stops, update_tcp, get_tcp. rewrite Hcb. cbn [rbind]. split; [|done].
  exists (f cb). split; [apply lookup_insert_eq|]. intros lp Hlp. rewrite Hf in Hlp. destruct (Hl lp Hlp) as [lb Hlb].
  exists lb. simpl. rewrite lookup_insert_ne; [done|]. intros ->. congruence.
Qed.
Lemma get_blk_stops {B} pcb (f : pcb_block → M tstate B) t (Q : B → tstate → Prop) :
  live pcb t → (∀ cb, stops (f (Conn_pcb cb)) t Q) → stops (mbnd (ask (λ t, get_blk t pcb)) f) t Q.
Proof. intros (cb & Hcb & _) H. unfold stops, mbnd, ask, get_blk. rewrite Hcb. apply H. Qed.
Lemma callback_live pcb f t : live pcb t → (∀ c, tp_listener (f c) = tp_listener c) →
  stops (set_callback f (Some pcb)) t (λ _ t', live pcb t' ∧ ip_store (t_ip t') = ip_store (t_ip t)).
Proof. intros Hl Hf. apply get_blk_stops; [done|]. intros cb. apply stops_assert_bind. intros _. by apply update_live. Qed.
Lemma arg_live pcb a t : live pcb t → stops (tcp_arg (Some pcb) a) t (λ _ t', live pcb t' ∧ ip_store (t_ip t') = ip_store (t_ip t)).
Proof. intros Hl. apply get_blk_stops; [done|]. intros cb. by apply update_live. Qed.
Lemma poll_live pcb p k t : live pcb t → stops (tcp_poll (Some pcb) p k) t (λ _ t', live pcb t' ∧ ip_store (t_ip t') = ip_store (t_ip t)).
Proof. intros Hl. apply stops_bind, stops_ret. by apply callback_live. Qed.
Lemma backlog_live pcb t : live pcb t → stops (tcp_backlog_delayed pcb) t (λ _ t', live pcb t' ∧ ip_store (t_ip t') = ip_store (t_ip t)).
Proof.
  intros Hl. pose proof Hl as (cb & Hcb & Hlp). unfold tcp_backlog_delayed, stops, mbnd at 1, ask at 1, get_tcp. rewrite Hcb. cbn [rbind].
  change (stops (if tcp_is_flag_set cb TF_BACKLOGPEND then ret tt else match tp_listener cb with None => ret tt | Some lp =>
    do! update_lpcb lp (λ c, c <| tl_accepts_pending := u8 (tl_accepts_pending c + 1) |>); let! l := ask (λ t, get_lpcb t lp) in
    do! lwip_assert (negb (tl_accepts_pending l =? 0)); tcp_set_flags pcb TF_BACKLOGPEND end) t
    (λ _ t', live pcb t' ∧ ip_store (t_ip t') = ip_store (t_ip t))).
  destruct (tcp_is_flag_set cb TF_BACKLOGPEND); [by apply stops_ret|]. destruct (tp_listener cb) as [lp|] eqn:E; [|by apply stops_ret].
  destruct (Hlp lp eq_refl) as [lb Hlb]. assert (lp ≠ pcb) as Hne by (intros ->; congruence).
  unfold stops, mbnd at 1, update_lpcb, get_lpcb at 1. rewrite Hlb. cbn [rbind]. set (lb' := lb <| tl_accepts_pending := _ |>).
  set (t1 := put_blk lp (Listen_pcb lb') t). assert (tcp_mem t1 !! lp = Some (Listen_pcb lb')) as Hlb1 by apply lookup_insert_eq.
  unfold mbnd at 1, ask, get_lpcb. rewrite Hlb1. cbn [rbind].
  change (stops (do! lwip_assert (negb (tl_accepts_pending lb' =? 0)); tcp_set_flags pcb TF_BACKLOGPEND) t1
    (λ _ t', live pcb t' ∧ ip_store (t_ip t') = ip_store (t_ip t1))).
  apply stops_assert_bind. intros _. apply update_live; [|done]. exists cb. split; [simpl; by rewrite lookup_insert_ne|].
  intros lp' Hlp'. rewrite E in Hlp'. injection Hlp' as <-. by exists lb'.
Qed.
(** A step of TCP that keeps the connection. *)
Lemma stops_live {B} pcb (m : M tstate unit) (f : unit → M W B) w (Q : B → W → Prop) :
  (∀ t, live pcb t → stops m t (λ _ t', live pcb t' ∧ ip_store (t_ip t') = ip_store (t_ip t))) → live pcb (tcp_of w) →
  (∀ w', live pcb (tcp_of w') → heap_of w' = heap_of w → net_of w' = net_of w → stops (f tt) w' Q) →
  stops (mbnd (tc m) f) w Q.
Proof. intros Hm Hl Hf. eapply stops_tc; [by apply Hm|]. intros [] w' [? ?] ?. by apply Hf. Qed.

(** *** Giving the netconn up *)

Lemma free_stops (a : loc) (ls : list loc) s : owned (a :: ls) s → stops (free a) s (λ _ s', owned ls s').
Proof.
  intros [[Hn Hd]%NoDup_cons Hb]. unfold stops, free. destruct (Hb a) as [x Hx]; [by left|]. rewrite Hx. split; [done|].
  intros b Hin. simpl. rewrite lookup_delete_ne by (by intros ->). apply Hb. by right.
Qed.
Lemma stops_free {B} a ls (f : unit → M W B) w (Q : B → W → Prop) : owned (a :: ls) (heap_of w) →
  (∀ w', owned ls (heap_of w') → net_of w' = net_of w → stops (f tt) w' Q) → stops (mbnd (st (free a)) f) w Q.
Proof. intros Ho H. eapply stops_st; [by apply free_stops|]. intros [] w' ? _ ?. by apply H. Qed.
Lemma mbox_free_stops {B} m a b d r (f : unit → M W B) w (Q : B → W → Prop) :
  n_mboxes (net_of w) !! m = Some (mk_mbox_blk r [a; b; d]) → owned [a; b; d; m] (heap_of w) →
  (∀ w', netconns (net_of w') = netconns (net_of w) → stops (f tt) w' Q) → stops (mbnd (mbox_free (Some m)) f) w Q.
Proof.
  intros Hm Ho H. cut (stops (mbox_free (Some m)) w (λ _ w', netconns (net_of w') = netconns (net_of w))).
  { intros Hc. apply stops_bind. eapply stops_mono; [exact Hc|]. intros [] w' E. by apply H. }
  unfold mbox_free, stops, mbnd at 1. rewrite lift_ask_eq, Hm. cbn [deref rbind mb_sems free_all].
  apply stops_bind. eapply stops_free; [exact Ho|]. intros w1 O1 N1. eapply stops_free; [exact O1|]. intros w2 O2 N2.
  eapply stops_free; [exact O2|]. intros w3 O3 N3. apply stops_ret.
  eapply (stops_nc _ _ _ (λ _ n', netconns n' = netconns (net_of w3))); [done|]. intros [] w4 N4 T4.
  assert (stops (do! st (free m); ret tt) w4 (λ _ w', netconns (net_of w') = netconns (net_of w))) as Hs.
  { eapply (stops_free m []); [unfold heap_of; rewrite T4; exact O3|]. intros w5 _ N5. apply stops_ret. by rewrite N5, N4, N3, N2, N1. }
  unfold stops, mbnd, ret in Hs |- *. by destruct (st (free m) w4) as [[[] w5]|].
Qed.
(** A netconn that was never marked as closing cannot be freed. *)
Lemma free_unmarked nw c w (Q : unit → W → Prop) : netconns (net_of w) !! nw = Some c → nc_flags c = 0 →
  stops (netconn_free nw) w Q.
Proof.
  intros Hc Hf. unfold netconn_free. eapply stops_netconn; [exact Hc|]. apply stops_assert_bind. intros _.
  apply stops_bind. cbn [netconn_drain]. eapply stops_netconn; [exact Hc|]. apply stops_assert_bind.
  unfold netconn_is_flag_set. by rewrite Hf.
Qed.
(** A message is refused by a full mailbox. *)
Lemma full_refused l b q msg n : n_mboxes n !! l = Some b → Seq.ring (mb_ring b) q → Seq.counters_ok (mb_ring b) →
  zlen q = SYS_MBOX_SIZE - 1 → runs (mbox_trypost (Some l) msg) n (λ e n', e = ERR_MEM ∧ netconns n' = netconns n ∧
    ∀ m, m ≠ l → n_mboxes n' !! m = n_mboxes n !! m).
Proof.
  intros Hb Hq Hc Hz. unfold mbox_trypost. apply runs_bind, runs_assert; [done|]. apply runs_bind, runs_ret.
  apply runs_bind. eapply runs_ask; [by rewrite Hb|]. apply runs_bind. eapply runs_ask.
  { unfold Seq.sys_mbox_trypost. rewrite (Seq.mbox_full_spec _ q Hq Hc), (proj2 (Z.eqb_eq _ _) Hz). reflexivity. }
  apply runs_bind, runs_modify, runs_ret. split; [done|]. split; [done|]. intros m Hm. simpl. by rewrite lookup_insert_ne.
Qed.

Lemma stops_live_last {B} pcb (m : M tstate unit) (f : unit → M W B) w (Q : B → W → Prop) :
  (∀ t, live pcb t → stops m t (λ _ t', live pcb t' ∧ ip_store (t_ip t') = ip_store (t_ip t))) → live pcb (tcp_of w) →
  (∀ w', live pcb (tcp_of w') → heap_of w' = heap_of w → net_of w' = net_of w → stops (f tt) w' Q) →
  stops (tc m) w (λ a w', stops (f a) w' Q).
Proof.
  intros Hm Hl Hf. pose proof (stops_live pcb m f w Q Hm Hl Hf) as H. unfold stops, mbnd in *.
  by destruct (tc m w) as [[[] w']|].
Qed.
(** The mailbox at [l] stands, with the content [b]. *)
Definition mbox_stands (l : loc) (b : mbox_blk) w : Prop := n_mboxes (net_of w) !! l = Some b ∧ (l < next_loc (heap_of w))%positive.

(** With a netconn for it, and the mailbox full, the connection is not refused. *)
Lemma overflow_stops conn pcb c l b q w nw w1 :
  netconns (net_of w) !! conn = Some c → nc_acceptmbox c = Some l → NETCONN_MBOX_VALID c (Some l) = true →
  mbox_stands l b w → Seq.ring (mb_ring b) q → Seq.counters_ok (mb_ring b) → zlen q = SYS_MBOX_SIZE - 1 → live pcb (tcp_of w) →
  netconn_alloc w = Val (Some nw, w1) →
  stops (netconn_accept_function (Some conn) (Some pcb) ERR_OK) w (λ _ _, False).
Proof.
  intros Hc Ha Hv [Hb Hbl] Hq Hcnt Hz Hlive Halloc. pose proof (netconn_alloc_yields w) as Hy. unfold yields in Hy. rewrite Halloc in Hy.
  destruct Hy as (T1 & m & a & b0 & d & Hnw & Hm & Ho & Hle & Hbs).
  assert (live pcb (tcp_of w1)) as L1 by (rewrite T1; exact Hlive).
  assert (l ≠ m) as Hlm by (intros ->; lia). rewrite <- (Hbs l Hlm) in Hb.
  unfold netconn_accept_function. eapply stops_netconn; [exact Hc|]. rewrite Ha, Hv. cbn [negb]. apply stops_assert_bind. intros _.
  unfold stops, mbnd at 1. rewrite Halloc. clear Halloc T1 Hbs.
  match goal with |- match ?m w1 with Val _ => _ | Err _ => _ end => change (stops m w1 (λ _ _, False)) end.
  eapply stops_update; [exact Hnw|]. intros w2 N2 T2. cbv beta in N2. set (c2 := (NEW_NETCONN _) <| nc_pcb := _ |>) in N2.
  assert (netconns (net_of w2) !! nw = Some c2) as Hnw2 by (rewrite N2; apply lookup_insert_eq).
  rewrite <- T2 in L1. assert (heap_of w2 = heap_of w1) as H2 by (unfold heap_of; by rewrite T2).
  apply stops_bind. unfold setup_tcp. eapply stops_netconn; [exact Hnw2|]. cbn [nc_pcb c2].
  eapply stops_live; [intros t; apply arg_live|exact L1|]. intros w3 L3 H3 N3.
  eapply stops_live; [intros t Ht; by apply callback_live|exact L3|]. intros w4 L4 H4 N4.
  eapply stops_live; [intros t Ht; by apply callback_live|exact L4|]. intros w5 L5 H5 N5.
  eapply stops_live; [intros t; apply poll_live|exact L5|]. intros w6 L6 H6 N6.
  eapply stops_live_last; [intros t Ht; by apply callback_live|exact L6|]. intros w7 L7 H7 N7.
  eapply stops_live; [intros t; apply backlog_live|exact L7|]. intros w8 L8 H8 N8.
  assert (heap_of w8 = heap_of w1) as H18 by congruence. assert (net_of w8 = net_of w2) as N28 by congruence.
  clear dependent w3 w4 w5 w6 w7.
  eapply stops_nc; [apply runs_stops, (full_refused l b q); [by rewrite N28, N2|done..]|]. intros e w9 (-> & C9 & M9) T9.
  change (negb (is_ok ERR_MEM)) with true. cbv iota. rewrite <- T9 in L8.
  specialize (M9 m (not_eq_sym Hlm)). rewrite N28 in C9, M9. rewrite N2 in M9. change (n_mboxes (put_netconn _ _ _)) with (n_mboxes (net_of w1)) in M9.
  assert (heap_of w9 = heap_of w1) as H19 by (unfold heap_of in *; congruence).
  eapply stops_live; [intros t; apply arg_live|exact L8|]. intros w3 L3 H3 N3.
  eapply stops_live; [intros t Ht; by apply callback_live|exact L3|]. intros w4 L4 H4 N4.
  eapply stops_live; [intros t Ht; by apply callback_live|exact L4|]. intros w5 L5 H5 N5.
  eapply stops_live; [intros t; apply poll_live|exact L5|]. intros w6 L6 H6 N6.
  eapply stops_live; [intros t Ht; by apply callback_live|exact L6|]. intros w7 L7 H7 N7.
  assert (net_of w7 = net_of w9) as N97 by congruence. assert (heap_of w7 = heap_of w1) as H17 by congruence.
  rewrite <- N97 in C9, M9. rewrite <- C9 in Hnw2. clear dependent w9 w3 w4 w5 w6.
  eapply stops_update; [exact Hnw2|]. intros w10 N10 T10. cbv beta in N10. set (c3 := c2 <| nc_pcb := None |>) in N10.
  eapply stops_netconn; [rewrite N10; apply lookup_insert_eq|]. cbn [nc_recvmbox c3 c2].
  assert (heap_of w10 = heap_of w1) as H10 by (unfold heap_of in *; congruence).
  eapply mbox_free_stops; [rewrite N10; simpl; rewrite M9; exact Hm|rewrite H10; exact Ho|]. intros w11 C11.
  eapply stops_update; [rewrite C11, N10; apply lookup_insert_eq|]. intros w12 N12 T12.
  apply stops_bind. eapply free_unmarked; [rewrite N12; apply lookup_insert_eq|done].
Qed.

(** C40: a listener whose mailbox of accepted connections is full takes the process
    down.  When the handshake of one more connection is complete and
    [accept_function] gets a netconn for it, it does not return the error with
    which TCP would abort that connection: it stops on an assertion.  (The netconn
    was never marked as closing, and [netconn_free] asserts that it was.)  Only
    when there is no memory for the netconn does it return ERR_MEM; and when the
    allocation itself stops, at a semaphore that could not be had, so does the
    call.  The block [pcb] is that of the new connection, with its listener, if it
    has one, still there. *)
Theorem accept_overflow_aborts conn pcb c l b q w :
  netconns (net_of w) !! conn = Some c → nc_acceptmbox c = Some l → NETCONN_MBOX_VALID c (Some l) = true →
  mbox_stands l b w → Seq.ring (mb_ring b) q → Seq.counters_ok (mb_ring b) → zlen q = SYS_MBOX_SIZE - 1 → live pcb (tcp_of w) →
  match netconn_alloc w with
  | Val (Some _, _) => netconn_accept_function (Some conn) (Some pcb) ERR_OK w = Err AssertFailed
  | Val (None, _) => runs (netconn_accept_function (Some conn) (Some pcb) ERR_OK) w (λ e _, e = ERR_MEM)
  | Err e => netconn_accept_function (Some conn) (Some pcb) ERR_OK w = Err e
  end.
Proof.
  intros Hc Ha Hv Hst Hq Hcnt Hz Hl. pose proof (netconn_alloc_yields w) as Hy. unfold yields in Hy.
  destruct (netconn_alloc w) as [[[nw|] w1]|e] eqn:Halloc; [apply stops_never; by eapply overflow_stops| |].
  all: unfold netconn_accept_function, runs, mbnd at 1, the_netconn; rewrite lift_ask_eq; unfold get_netconn; rewrite Hc.
  all: cbn [deref rbind]; rewrite Ha, Hv; cbn [negb]; unfold mbnd at 1, lwip_assert; change (is_ok ERR_OK) with true; cbv iota.
  all: unfold mbnd at 1; rewrite Halloc; try done. destruct Hy as [_ Hn], Hst as [Hb _]. rewrite <- Hn in Hb.
  match goal with |- match ?m w1 with Val _ => _ | Err _ => _ end => change (runs m w1 (λ e _, e = ERR_MEM)) end.
  rewrite <- (part_set_get (P := nstate) w1). apply runs_nc. apply runs_ret. apply runs_nc.
  eapply runs_mono; [by apply (full_refused l b q)|]. intros e n' _. by apply runs_ret.
Qed.
End calls.

(** ** A connection whose send buffer is full *)

Definition ex_full_pcb : tcp_pcb :=
  (fresh_pcb 64 0 0) <| tp_local_ip := 16777482 |> <| tp_remote_ip := 33554698 |> <| tp_local_port := 50000 |>
    <| tp_remote_port := 443 |> <| tp_state := ESTABLISHED |> <| tp_snd_buf := 0 |> <| tp_callback_arg := Some 7%positive |>.
(** A reset for that connection, from port 443 to port 50000, waits in the heap. *)
Definition ex_rst : list Z := [1; 187; 195; 80; 0; 0; 0; 0; 0; 0; 0; 0; 80; 4; 32; 0; 0; 0; 0; 0].
Definition ex_rst_store : store :=
  mk_store {[1%positive := mk_pbuf None (Some (mk_ptr 1 64)) 20 20 128 0 1 0]}
    {[2%positive := []; 6%positive := [1; 2; 3]; 1%positive := replicate 64 0 ++ ex_rst]} 10 [] ∅ sys_mbox_new false.
Definition ex_open_tcp : tstate :=
  let t := ex_tcp_over ex_rst_store {[2%positive := Conn_pcb (ex_full_pcb <| tp_errf := Some Err_tcp |> <| tp_poll := Some Poll_tcp |>)]} in
  t <| tcp_active_pcbs := [2%positive] |> <| t_ip := (t_ip t) <| ip_data := mk_ip_globals true true None 20 33554698 16777482 |> |>.
Definition ex_sleepy : app_world :=
  mk_app_world ex_open_tcp ex_timers
    (ex_no_objects <| netconns := {[7%positive := mk_netconn NETCONN_NONE (Some 2%positive) ERR_OK (Some 9%positive) None 0 0 None]} |>
       <| n_mboxes := {[9%positive := mk_mbox_blk sys_mbox_new []]} |>)
    (mk_conns {[8%positive := mk_tcp_conn 7 0 0 0 0 None 0]} ∅).
Definition ex_write : thread app_world Z := tcp_conn_write 1 8%positive (Some (mk_ptr 6 0)) 3.
Definition ex_asleep : thread app_world Z * app_world :=
  match run_thread ex_write ex_sleepy with Val r => r | Err _ => (Done 0, ex_sleepy) end.
Lemma ex_sleeps : run_thread ex_write ex_sleepy = Val (ex_asleep.1, ex_asleep.2) ∧ ∀ r, ex_asleep.1 ≠ Done r.
Proof.
  assert (match run_thread ex_write ex_sleepy with Val (Wait _ _, _) => true | _ => false end = true) as H by (vm_compute; reflexivity).
  unfold ex_asleep. destruct (run_thread ex_write ex_sleepy) as [[[] w]|]; try done.
Qed.
Lemma ex_ready : ready 7%positive 1 ex_sleepy.
Proof.
  assert (∀ l c, netconns (part_get ex_sleepy) !! l = Some c → c = mk_netconn NETCONN_NONE (Some 2%positive) ERR_OK (Some 9%positive) None 0 0 None) as H.
  { intros l c. simpl. intros [_ <-]%lookup_singleton_Some. done. }
  split; [vm_compute; reflexivity|intros l c Hl; by rewrite (H l c Hl)|intros c Hl; by rewrite (H _ c Hl)|reflexivity].
Qed.
Lemma aw_driver_apart p d : stable (on_part (P := nstate) eq) (netif_output (W := app_world) p d).
Proof. by intros w. Qed.
#[export] Instance aw_driver_keeps : netif_driver_keeps app_world.
Proof. intros p d w. apply yields_ret. reflexivity. Qed.

(** A tick of the timers, which polls the connection and tries to write again; then
    the reset comes in. *)
Definition ex_calls : list tcp_call := [Call_tmr 5; Call_input (Some 1%positive)].
Fixpoint run_events (l : list tcp_call) : M app_world unit :=
  match l with [] => ret tt | k :: l => do! run_tcp_call k; run_events l end.
Lemma run_events_star conn th l : ∀ w w', run_events l w = Val (tt, w') → star (stack_event conn th) w w'.
Proof.
  induction l as [|k l IH]; intros w w'; simpl; [intros [= ->]; apply star_refl|].
  unfold mbnd. destruct (run_tcp_call k w) as [[[] w1]|] eqn:E; [|done]. intros H. eapply star_cons; [by eapply ev_tcp|]. by apply IH.
Qed.
Definition ex_reset : app_world := match run_events ex_calls ex_asleep.2 with Val (_, w) => w | Err _ => ex_asleep.2 end.
Lemma ex_reset_reached : star (stack_event 7%positive 1) ex_asleep.2 ex_reset.
Proof.
  apply (run_events_star _ _ ex_calls). unfold ex_reset.
  assert (match run_events ex_calls ex_asleep.2 with Val _ => true | Err _ => false end = true) as H by (vm_compute; reflexivity).
  destruct (run_events ex_calls ex_asleep.2) as [[[] w]|]; done.
Qed.
Lemma ex_reset_state : nc_state <$> netconns (part_get ex_reset) !! 7%positive = Some NETCONN_NONE.
Proof. vm_compute. reflexivity. Qed.
Lemma ex_reset_msg : am_err <$> api_msgs (part_get ex_reset) !! 1 = Some ERR_RST.
Proof. vm_compute. reflexivity. Qed.

(** While the thread sleeps the timers tick and the connection is reset: -1. *)
Lemma tcp_conn_write_wakes_witness :
  star (stack_event 7%positive 1) ex_asleep.2 ex_reset ∧ runs (run_thread ex_asleep.1) ex_reset (λ r _, r = Done (-1)).
Proof.
  split; [exact ex_reset_reached|].
  assert (tcp_conns (part_get ex_sleepy) !! 8%positive = Some (mk_tcp_conn 7 0 0 0 0 None 0)) as Hc by reflexivity.
  pose proof ex_sleeps as [Hrun Ht]. pose proof ex_reset_reached as Hev. pose proof ex_reset_state as Hs. pose proof ex_reset_msg as Hm.
  generalize dependent (ex_asleep.1). intros t Hrun Ht. generalize dependent ex_reset. intros w2. generalize dependent (ex_asleep.2). intros w1 Hrun Hev Hs Hm.
  destruct (tcp_conn_write_wakes aw_driver_apart 1 8%positive (Some (mk_ptr 6 0)) 3 (mk_tcp_conn 7 0 0 0 0 None 0) ex_sleepy t w1 w2
    Hc ex_ready Hrun Ht Hev) as [(nc & Hn & Hst & _)|H].
  - simpl tc_conn in Hn. rewrite Hn in Hs. simpl in Hs. congruence.
  - eapply runs_mono; [exact H|]. intros r w' (m & Hm2 & Hr). assert (am_err <$> Some m = Some ERR_RST) as [= He] by (rewrite <- Hm2; exact Hm). by rewrite He in Hr.
Defined.

(** ** A listener with 127 connections to be accepted *)

Definition ex_full_ring : sys_mbox mbox_msg := mk_sys_mbox 0 127 (replicate 127 (Some Msg_closed) ++ [None]) 1 0 1 0.
Lemma ex_ring_full : Seq.ring ex_full_ring (replicate 127 Msg_closed).
Proof.
  split; try done. intros i m Hi. apply lookup_replicate in Hi as [-> Hi]. cbn [first ex_full_ring]. rewrite Z.add_0_l.
  rewrite Z.mod_small by (unfold SYS_MBOX_SIZE; lia). rewrite Nat2Z.id. cbn [msgs ex_full_ring].
  rewrite lookup_app_l by (rewrite length_replicate; lia). by rewrite lookup_replicate_2.
Qed.
Definition ex_listener : netconn := mk_netconn NETCONN_LISTEN (Some 3%positive) ERR_OK None (Some 9%positive) 0 0 None.
Definition ex_crowded : app_world :=
  mk_app_world (ex_tcp_over (mk_store ∅ ∅ 10 [] ∅ sys_mbox_new false) {[2%positive := Conn_pcb ex_full_pcb]}) ex_timers
    (ex_no_objects <| netconns := {[7%positive := ex_listener]} |> <| n_mboxes := {[9%positive := mk_mbox_blk ex_full_ring []]} |>)
    (mk_conns ∅ ∅).
Lemma ex_ring_counts : Seq.counters_ok (mb_ring (mk_mbox_blk ex_full_ring [])).
Proof. unfold Seq.counters_ok. cbn [mb_ring last first ex_full_ring]. unfold INT_MAX, SYS_MBOX_SIZE. lia. Qed.
Lemma accept_overflow_aborts_witness :
  netconn_accept_function (Some 7%positive) (Some 2%positive) ERR_OK ex_crowded = Err AssertFailed.
Proof.
  assert (netconns (part_get ex_crowded) !! 7%positive = Some ex_listener) as Hc by reflexivity.
  assert (mbox_stands 9%positive (mk_mbox_blk ex_full_ring []) ex_crowded) as Hs by (split; [reflexivity|simpl; lia]).
  assert (live 2%positive (part_get ex_crowded)) as Hl by (exists ex_full_pcb; split; [reflexivity|done]).
  pose proof (accept_overflow_aborts 7%positive 2%positive ex_listener 9%positive _ _ ex_crowded Hc eq_refl eq_refl Hs ex_ring_full
    ex_ring_counts eq_refl Hl) as H.
  assert (match netconn_alloc ex_crowded with Val (Some _, _) => true | _ => false end = true) as E by (vm_compute; reflexivity).
  destruct (netconn_alloc ex_crowded) as [[[nw|] w1]|e]; [exact H|discriminate E|discriminate E].
Defined.
