(* ===== verification/TcpConnFacts.v ===== *)
(** * TCP connections: reading in pieces

    [tcp_conn_read] hands out a packet in pieces of any size; what has not been
    read yet stays in the connection. *)

From S2P Require Import Prelude Mbox Heap Pbuf PbufData Packet PbufFacts PbufDataFacts Frame Def Chksum Addr Timeouts Header Ip4 Tcp TcpOut TcpSend Netconn NetconnApi TcpConn AppWorld.

Section reads.
Context {W : Type} `{!Part tstate W} `{!netif_driver W} `{!Part timeouts W} `{!timer_client W} `{!Part nstate W} `{!Part conns W}.
Context `{!Apart tstate nstate W} `{!Apart tstate conns W} `{!Apart nstate tstate W} `{!Apart nstate conns W} `{!Apart conns tstate W} `{!Apart conns nstate W}.
Implicit Types w : W.

Abbreviation nc m := (lift (P := nstate) (S := W) m).
Abbreviation cn m := (lift (P := conns) (S := W) m).
Abbreviation st m := (lift (P := tstate) (S := W) (lift (P := ipstate) (lift (P := store) m))).

(** The heap, the objects of the netconns and those of the application. *)
Definition store_of w : store := ip_store (t_ip (part_get w)).
Record view w (s : store) (n : nstate) (a : conns) : Prop := {
  view_store : store_of w = s; view_net : part_get w = n; view_conns : part_get w = a
}.
Lemma view_refl w : view w (store_of w) (part_get w) (part_get w).
Proof. done. Qed.

Lemma runs_heap {A} (m : M store A) w s n a (Q : A → W → Prop) : view w s n a →
  runs m s (λ x s', ∀ w', view w' s' n a → Q x w') → runs (st m) w Q.
Proof.
  intros [<- <- <-] H. apply runs_lift, runs_lift, runs_lift. eapply runs_mono; [exact H|]. intros x s' Hf. apply Hf.
  split; [|apply apart..]. unfold store_of. by rewrite part_get_set.
Qed.
Lemma runs_net {A} (m : M nstate A) w s n a (Q : A → W → Prop) : view w s n a →
  runs m n (λ x n', ∀ w', view w' s n' a → Q x w') → runs (nc m) w Q.
Proof.
  intros [<- <- <-] H. apply runs_lift. eapply runs_mono; [exact H|]. intros x n' Hf. apply Hf.
  split; [unfold store_of; by rewrite apart|apply part_get_set|apply apart].
Qed.
Lemma runs_conns {A} (m : M conns A) w s n a (Q : A → W → Prop) : view w s n a →
  runs m a (λ x a', ∀ w', view w' s n a' → Q x w') → runs (cn m) w Q.
Proof.
  intros [<- <- <-] H. apply runs_lift. eapply runs_mono; [exact H|]. intros x a' Hf. apply Hf.
  split; [unfold store_of; by rewrite apart|apply apart|apply part_get_set].
Qed.

Lemma runs_get_netbuf buf nb w s n a (Q : netbuf → W → Prop) : view w s n a → netbufs n !! buf = Some nb →
  (∀ w', view w' s n a → Q nb w') → runs (get_netbuf buf) w Q.
Proof. intros Hv Hb H. apply (runs_net _ _ _ _ _ _ Hv). eapply runs_ask; [by rewrite Hb|]. exact H. Qed.
Lemma runs_set_netbuf buf nb w s n a (Q : unit → W → Prop) : view w s n a →
  (∀ w', view w' s (n <| netbufs := <[buf := nb]> (netbufs n) |>) a → Q tt w') → runs (set_netbuf buf nb) w Q.
Proof. intros Hv H. by apply (runs_net _ _ _ _ _ _ Hv), runs_modify. Qed.

(** ** A packet that is being read *)

(** The connection [conn] holds a packet of which the first [tc_offset] bytes have
    been read; nobody else holds it. *)
Record reading (conn : loc) (c : tcp_conn_t) (buf : loc) (nb : netbuf) (cs : list cell) (s : store) (n : nstate) (a : conns) : Prop := {
  rd_conn : tcp_conns a !! conn = Some c;
  rd_pending : tc_pending c = Some buf;
  rd_netbuf : netbufs n !! buf = Some nb;
  rd_packet : packet s (nb_p nb) cs;
  rd_some : nb_p nb ≠ None;
  rd_free : Forall (freeable s) cs;
  rd_owned : Forall (λ c, pb_ref (c_pbuf c) = 1) cs;
  rd_block : is_Some (blocks s !! buf);
  rd_apart : buf ∉ locs cs;
  rd_offset : 0 ≤ tc_offset c < zlen (bytes cs)
}.
(** What has not been read yet. *)
Definition unread (c : tcp_conn_t) (cs : list cell) : list Z := zdrop (tc_offset c) (bytes cs).
(** The packet has been read, and it is freed with its network buffer. *)
Record all_read (conn : loc) (c : tcp_conn_t) (buf : loc) (cs : list cell) s n a s' n' a' : Prop := {
  ar_conn : a' = a <| tcp_conns := <[conn := c <| tc_pending := None |> <| tc_offset := 0 |>]> (tcp_conns a) |>;
  ar_net : n' = n <| netbufs := delete buf (netbufs n) |>;
  ar_store : gone (buf :: locs cs) s s' ∧ same_rest s s'
}.

Lemma copy_runs conn c buf nb cs dst length w s n a (Q : Z * list Z → W → Prop) : view w s n a → reading conn c buf nb cs s n a → 0 ≤ length < 2 ^ 16 →
  let d := ztake length (unread c cs) in zlen d ≤ zlen dst →
  (∀ w', view w' s n a → Q (zlen d, d ++ zdrop (zlen d) dst) w') →
  runs (netbuf_copy_partial buf (Some dst) length (tc_offset c)) w Q.
Proof.
  intros Hv [] Hl d Hd H. unfold netbuf_copy_partial. apply runs_bind. eapply runs_get_netbuf; [done..|]. intros w1 Hv1.
  apply (runs_heap _ _ _ _ _ _ Hv1). pose proof (packet_size _ _ _ rd_packet0). unfold total in *.
  eapply runs_ask; [apply (pbuf_copy_partial_spec_runs s _ cs); try done; lia|]. exact H.
Qed.
Lemma len_runs conn c buf nb cs w s n a (Q : Z → W → Prop) : view w s n a → reading conn c buf nb cs s n a →
  (∀ w', view w' s n a → Q (zlen (bytes cs)) w') → runs (netbuf_len buf) w Q.
Proof.
  intros Hv [] H. unfold netbuf_len. apply runs_bind. eapply runs_get_netbuf; [done..|]. intros w1 Hv1. apply (runs_heap _ _ _ _ _ _ Hv1).
  destruct (nb_p nb) as [l|]; [|done]. destruct (packet_get _ _ _ rd_packet0) as (q & Hq & Ht). eapply runs_ask; [simpl; by rewrite Hq|].
  simpl. by rewrite Ht.
Qed.
Lemma free_packet_runs p cs w s n a (Q : unit → W → Prop) : view w s n a → packet s p cs → p ≠ None → Forall (freeable s) cs →
  Forall (λ c, pb_ref (c_pbuf c) = 1) cs →
  (∀ w' s', view w' s' n a → gone (locs cs) s s' → same_rest s s' → Q tt w') → runs (free_packet p) w Q.
Proof.
  intros Hv Hpk Hp Hf Ho H. destruct p as [l|]; [|done]. unfold free_packet. apply runs_bind, (runs_heap _ _ _ _ _ _ Hv).
  eapply runs_mono; [apply (pbuf_free_loop_owned s (Some l) cs []); rewrite ?app_nil_r; try done; apply Hpk|].
  intros x s' (_ & s1 & Hg & Hr & _ & ->) w' Hv'. apply runs_ret. by eapply H.
Qed.
Lemma gone_then ls l s s1 : gone ls s s1 → gone (l :: ls) s (release l s1).
Proof.
  intros (Hp & Hb & Hm). split_and!; intros l'; unfold release; simpl; rewrite lookup_delete, ?Hp, ?Hb, ?Hm;
    repeat case_decide; set_solver.
Qed.
(** Both the packet and the network buffer are given back. *)
Lemma give_back_runs conn c buf nb cs w s n a (Q : unit → W → Prop) : view w s n a → reading conn c buf nb cs s n a →
  (∀ w' s', view w' s' (n <| netbufs := delete buf (netbufs n) |>) a → gone (buf :: locs cs) s s' → same_rest s s' → Q tt w') →
  runs (netbuf_free buf) w (λ _ w', runs (netbuf_delete (Some buf)) w' Q).
Proof.
  intros Hv [] H. unfold netbuf_free. apply runs_bind. eapply runs_get_netbuf; [done..|]. intros w1 Hv1.
  apply runs_bind. eapply free_packet_runs; [done..|]. intros w2 s2 Hv2 Hg Hr. eapply runs_set_netbuf; [exact Hv2|]. intros w3 Hv3.
  unfold netbuf_delete. apply runs_bind. eapply runs_get_netbuf; [exact Hv3|apply lookup_insert_eq|]. intros w4 Hv4. simpl.
  apply runs_bind, runs_ret. unfold release_netbuf. apply runs_bind. apply (runs_net _ _ _ _ _ _ Hv4), runs_modify. intros w5 Hv5.
  apply (runs_heap _ _ _ _ _ _ Hv5). unfold memp_free, mem_free, free. destruct rd_block0 as [b Hb]. destruct Hg as (G1 & G2 & G3).
  unfold runs. rewrite G2, decide_False, Hb by done. intros w6 Hv6. eapply H; [|apply (gone_then (locs cs) buf s s2); done|done].
  destruct Hv6 as [V1 V2 V3]. split; [by rewrite V1| |done]. rewrite V2. simpl. by rewrite delete_insert_eq.
Qed.

(** One read: the next bytes, and what becomes of the packet. *)
Definition after_read (conn : loc) (c : tcp_conn_t) (buf : loc) (cs : list cell) (k : Z) s n a s' n' a' : Prop :=
  if k <? zlen (unread c cs) then
    s' = s ∧ n' = n ∧ a' = a <| tcp_conns := <[conn := c <| tc_offset := tc_offset c + k |>]> (tcp_conns a) |>
  else all_read conn c buf cs s n a s' n' a'.
Lemma unread_len c cs : 0 ≤ tc_offset c < zlen (bytes cs) → zlen (unread c cs) = zlen (bytes cs) - tc_offset c.
Proof. intros H. unfold unread. rewrite zlen_zdrop; lia. Qed.
Lemma read_pending_runs conn c buf nb cs dst length w s n a : view w s n a → reading conn c buf nb cs s n a → 0 ≤ length < 2 ^ 16 →
  let d := ztake length (unread c cs) in zlen d ≤ zlen dst →
  runs (read_pending conn c buf dst length) w (λ r w', r = (zlen d, d ++ zdrop (zlen d) dst) ∧
    ∃ s' n' a', view w' s' n' a' ∧ after_read conn c buf cs (zlen d) s n a s' n' a').
Proof.
  intros Hv Hr Hl d Hd. pose proof Hr as []. pose proof (packet_size _ _ _ rd_packet0) as Hz. unfold total in Hz.
  unfold read_pending. rewrite !u16_small by (unfold is_u16; lia). apply runs_bind. eapply copy_runs; [done..|]. intros w1 Hv1. cbv beta iota.
  apply runs_bind. eapply len_runs; [exact Hv1|exact Hr|]. intros w2 Hv2. apply runs_bind. unfold after_read. rewrite unread_len by done. fold d.
  destruct (zlen (bytes cs) <=? tc_offset c + zlen d) eqn:E; bool_prop.
  - rewrite (proj2 (Z.ltb_ge _ _)) by lia. apply runs_bind. eapply runs_mono.
    { eapply (give_back_runs conn _ _ _ _ _ _ _ _ (λ _ w3, ∃ s3, view w3 s3 _ a ∧ gone (buf :: locs cs) s s3 ∧ same_rest s s3)); [exact Hv2|exact Hr|by eauto]. }
    intros [] w3 H3. apply runs_bind. eapply runs_mono; [exact H3|]. intros [] w4 (s4 & Hv4 & Hg & Hsr).
    apply (runs_conns _ _ _ _ _ _ Hv4), runs_modify. intros w5 Hv5. apply runs_ret. split; [done|]. do 3 eexists. split; [exact Hv5|by split].
  - rewrite (proj2 (Z.ltb_lt _ _)) by lia. apply (runs_conns _ _ _ _ _ _ Hv2), runs_modify. intros w5 Hv5. apply runs_ret. split; [done|].
    do 3 eexists. split; [exact Hv5|done].
Qed.

Lemma run_tbind {A B} (t : thread W A) (f : A → thread W B) w x w' : run_thread t w = Val (Done x, w') →
  run_thread (tbind t f) w = run_thread (f x) w'.
Proof.
  revert w. induction t as [y|C m k IH|C m k IH]; intros w; cbn [tbind run_thread].
  - by intros [= -> ->].
  - destruct (m w) as [[b w1]|]; [apply IH|done].
  - destruct (m w) as [[[b|] w1]|]; [apply IH|done|done].
Qed.
Lemma conn_read_runs th conn c buf nb cs dst w s n a : view w s n a → reading conn c buf nb cs s n a → zlen dst < 2 ^ 16 →
  let d := ztake (zlen dst) (unread c cs) in
  runs (run_thread (tcp_conn_read th conn dst (zlen dst))) w (λ r w', r = Done (zlen d, d ++ zdrop (zlen d) dst) ∧
    ∃ s' n' a', view w' s' n' a' ∧ after_read conn c buf cs (zlen d) s n a s' n' a').
Proof.
  intros Hv Hr Hl d. pose proof Hr as []. unfold tcp_conn_read. unfold runs. cbn [run_thread].
  assert (get_tcp_conn conn w = Val (c, w)) as ->.
  { destruct Hv as [_ _ Ha]. unfold get_tcp_conn, lift, ask. rewrite Ha, rd_conn0. simpl. rewrite <- Ha. by rewrite part_set_get. }
  rewrite rd_pending0. cbn [run_thread]. assert (zlen d ≤ zlen dst) as Hd.
  { unfold d. rewrite zlen_ztake_min by apply zlen_nonneg. lia. }
  pose proof (zlen_nonneg dst). assert (0 ≤ zlen dst < 2 ^ 16) as Hl' by lia.
  pose proof (read_pending_runs conn c buf nb cs dst (zlen dst) w s n a Hv Hr Hl' Hd) as H1. unfold runs in H1.
  destruct (read_pending conn c buf dst (zlen dst) w) as [[r w']|]; [|done]. cbn [run_thread]. destruct H1 as [-> H1]. by split.
Qed.

(** A read into each of the buffers, one after the other, and what they return
    put together. *)
Fixpoint read_all (th : thread_id) (conn : loc) (bufs : list (list Z)) : thread W (list Z) :=
  match bufs with
  | [] => Done []
  | dst :: bufs =>
    run! '(copied, data) := tcp_conn_read th conn dst (zlen dst) in
    run! rest := read_all th conn bufs in
    Done (ztake copied data ++ rest)
  end.

(** The connection with [k] more bytes read. *)
Lemma reading_on conn c buf nb cs s n a k : reading conn c buf nb cs s n a → 0 ≤ k < zlen (unread c cs) →
  let c' := c <| tc_offset := tc_offset c + k |> in
  reading conn c' buf nb cs s n (a <| tcp_conns := <[conn := c']> (tcp_conns a) |>) ∧ unread c' cs = zdrop k (unread c cs).
Proof.
  intros [] Hk c'. rewrite unread_len in Hk by done. split.
  - split; try done; [apply lookup_insert_eq|simpl; lia].
  - unfold unread. simpl. rewrite zdrop_zdrop by lia. f_equal. lia.
Qed.
Lemma after_read_on conn c buf cs j k s n a s' n' a' : 0 ≤ tc_offset c < zlen (bytes cs) → 0 ≤ j < zlen (unread c cs) → 
  let c' := c <| tc_offset := tc_offset c + j |> in
  after_read conn c' buf cs k s n (a <| tcp_conns := <[conn := c']> (tcp_conns a) |>) s' n' a' → after_read conn c buf cs (j + k) s n a s' n' a'.
Proof.
  intros Ho Hj c'. rewrite unread_len in Hj by done. unfold after_read. rewrite !unread_len by (simpl; lia). simpl.
  replace (k <? zlen (bytes cs) - (tc_offset c + j)) with (j + k <? zlen (bytes cs) - tc_offset c) by (apply Bool.eq_iff_eq_true; rewrite !Z.ltb_lt; lia).
  destruct (j + k <? _).
  - intros (-> & -> & ->). split_and!; [done..|]. simpl. rewrite insert_insert_eq. by rewrite Z.add_assoc.
  - intros [Ha Hn Hs]. split; [|done|done]. rewrite Ha. simpl. by rewrite insert_insert_eq.
Qed.
Lemma read_all_runs th conn buf nb cs s n bufs : ∀ c w a, view w s n a → reading conn c buf nb cs s n a → Forall (λ d, zlen d < 2 ^ 16) bufs → bufs ≠ [] →
  zlen (concat (removelast bufs)) < zlen (unread c cs) →
  let d := ztake (zlen (concat bufs)) (unread c cs) in
  runs (run_thread (read_all th conn bufs)) w (λ r w', r = Done d ∧ ∃ s' n' a', view w' s' n' a' ∧ after_read conn c buf cs (zlen d) s n a s' n' a').
Proof.
  induction bufs as [|b bufs IH]; intros c w a Hv Hr Hall Hne Hlast d; [done|]. inversion_clear Hall as [|? ? Hb Hbs].
  pose proof (conn_read_runs th conn c buf nb cs b w s n a Hv Hr Hb) as H1. cbv zeta in H1. apply runs_inv in H1 as (r & w1 & E1 & -> & s1 & n1 & a1 & Hv1 & H1).
  cbn [read_all]. unfold runs. rewrite (run_tbind _ _ _ _ _ E1). set (d1 := ztake (zlen b) (unread c cs)) in *.
  rewrite ztake_app_exact. destruct bufs as [|b2 bufs].
  { cbn [read_all tbind run_thread]. rewrite app_nil_r. unfold d. simpl. rewrite app_nil_r. split; [done|]. by exists s1, n1, a1. }
  assert (concat (removelast (b :: b2 :: bufs)) = b ++ concat (removelast (b2 :: bufs))) as El by done. rewrite El, zlen_app in Hlast.
  pose proof (zlen_nonneg (concat (removelast (b2 :: bufs)))) as Hnn. pose proof (zlen_nonneg b) as Hnb.
  assert (zlen d1 = zlen b) as Ed1 by (unfold d1; rewrite zlen_ztake_min by done; lia).
  destruct (reading_on conn c buf nb cs s n a (zlen b) Hr) as [Hr2 Eu]; [lia|]. set (c2 := c <| tc_offset := _ |>) in *.
  unfold after_read in H1. rewrite Ed1, (proj2 (Z.ltb_lt _ _)) in H1 by lia. destruct H1 as (-> & -> & ->).
  assert (zlen (concat (removelast (b2 :: bufs))) < zlen (unread c2 cs)) as Hl2 by (rewrite Eu, zlen_zdrop; lia).
  pose proof (IH c2 w1 _ Hv1 Hr2 Hbs ltac:(done) Hl2) as H2. cbv zeta in H2. apply runs_inv in H2 as (r & w2 & E2 & -> & s2 & n2 & a2 & Hv2 & H2).
  rewrite (run_tbind _ _ _ _ _ E2). cbn [run_thread].
  assert (d = d1 ++ ztake (zlen (concat (b2 :: bufs))) (unread c2 cs)) as Ed.
  { unfold d, d1. rewrite Eu. change (concat (b :: b2 :: bufs)) with (b ++ concat (b2 :: bufs)). rewrite zlen_app. by rewrite ztake_add by (apply zlen_nonneg || lia). }
  split; [by rewrite Ed|]. exists s2, n2, a2. split; [done|]. rewrite Ed, zlen_app, Ed1. apply after_read_on; [apply Hr|lia|done].
Qed.

(** C8: a connection that holds a packet, part of which has been read, hands out
    the rest of it in pieces.  Reads into buffers of any sizes below 2^16, the last
    of them the first that may reach the end of the packet, return one after the
    other exactly the bytes that had not been read, in order, nothing twice and
    nothing left out, as far as the buffers go; no read fails or waits.  While
    bytes are left only the offset of the connection has moved; the read that takes
    the last byte frees every pbuf of the packet and the network buffer, and nothing
    else, and leaves no packet in the connection. *)
Theorem tcp_conn_reads th conn c buf nb cs bufs w :
  reading conn c buf nb cs (store_of w) (part_get w) (part_get w) → Forall (λ d, zlen d < 2 ^ 16) bufs → bufs ≠ [] →
  zlen (concat (removelast bufs)) < zlen (unread c cs) →
  let d := ztake (zlen (concat bufs)) (unread c cs) in
  runs (run_thread (read_all th conn bufs)) w (λ r w', r = Done d ∧
    after_read conn c buf cs (zlen d) (store_of w) (part_get w) (part_get w) (store_of w') (part_get w') (part_get w')).
Proof.
  intros Hr Hb Hne Hl d. eapply runs_mono; [by apply (read_all_runs th conn buf nb cs _ _ bufs c w _ (view_refl w))|].
  intros r w' (-> & s' & n' & a' & [<- <- <-] & H). by split.
Qed.
End reads.

(** ** A packet of five bytes, of which one has been read *)

(** The packet is the one of [Packet]; its network buffer is at address 5. *)
Definition ex_read_store : store := ex_store <| blocks := <[5%positive := replicate 24 0]> (blocks ex_store) |> <| next_loc := 6%positive |>.
Definition ex_read_netbuf : netbuf := mk_netbuf (Some 1%positive) (Some 1%positive) 0 0.
Definition ex_read_conn : tcp_conn_t := mk_tcp_conn 7 0 0 0 0 (Some 5%positive) 1.
Definition ex_read : app_world :=
  mk_app_world (ex_tcp_over ex_read_store ∅) ex_timers (ex_no_objects <| netbufs := {[5%positive := ex_read_netbuf]} |>)
    (mk_conns {[8%positive := ex_read_conn]} ∅).
Lemma ex_reading : reading 8%positive ex_read_conn 5%positive ex_read_netbuf [ex_cell1; ex_cell2]
  (store_of ex_read) (part_get ex_read) (part_get ex_read).
Proof.
  split; try done.
  - split; [done|done|done|]. by repeat constructor.
  - repeat constructor; try (by vm_compute; repeat constructor); by eexists.
  - repeat constructor.
  - simpl. set_solver.
Qed.
Lemma tcp_conn_reads_witness :
  runs (run_thread (read_all 1 8%positive [[0; 0]; [0; 0; 0]])) ex_read (λ r w', r = Done [2; 3; 4; 5] ∧
    after_read 8%positive ex_read_conn 5%positive [ex_cell1; ex_cell2] 4 (store_of ex_read) (part_get ex_read) (part_get ex_read)
      (store_of w') (part_get w') (part_get w')).
Proof.
  exact (tcp_conn_reads 1 8%positive _ _ _ _ [[0; 0]; [0; 0; 0]] ex_read ex_reading ltac:(by repeat constructor) ltac:(done) ltac:(vm_compute; done)).
Defined.
